(* ===== verification/_CoqProject ===== *)
-Q . S2P
Prelude.v
Bytes.v
CString.v
Kalloc.v
Mp.v
Spinlock.v
Pipe.v
Console.v
ConsoleProps.v
Kbd.v
Printf.v
Utils.v
Grep.v
Umalloc.v
UmallocProps.v
Sh.v
ShProps.v
ShText.v
ShRun.v
Vm.v
VmProofs.v
VmProps.v
VmClaims.v
Block.v
Ide.v
IdeProps.v
Boot.v
Bio.v
BioProps.v
Log.v
LogProofs.v
Txn.v
LogProps.v
LogProto.v
Fs.v
Kernel.v
File.v
Proc.v
ProcProto.v
ProcProps.v
Syscall.v
Sysproc.v
Sysfile.v
Exec.v
Trap.v
Signal.v
Gates.v
Intr.v
Lapic.v
Rtc.v
Uart.v
SyscallProps.v
TrapProps.v
FileProps.v
FsBlocks.v
FsFile.v
FsRW.v
FsProps.v
FsCrash.v
FsDir.v
Mkfs.v
MkfsProps.v
MkfsImage.v
MkfsBoot.v
User.v
UserProps.v
