(* ===== verification/Prelude.v ===== *)
(** * xv6 with signals: a verification development

    The program is the teaching kernel xv6 for the 32-bit x86, with the signal
    handling of a course project added (src/), its user programs, its boot loader
    and the maker of its disk images.  The development translates its functions
    into executable definitions and proves what they are meant to do.

    ** The program and its model

    The kernel is a stack of components that call downwards:

    - disk: ide.c drives the disk controller (Ide.v), memide.c a disk in memory
      (in Bio.v);
    - blocks: bio.c caches blocks (Bio.v); [BlockIO] and [BlockIOSpec] of Block.v
      are the interface that it offers;
    - log: log.c makes groups of block writes atomic (Log.v) over any block layer;
      [TxnIO] and [TxnSpec] of Txn.v are the interface that it offers;
    - files: fs.c has the inodes, directories and paths (Fs.v) over any transaction
      layer; file.c the open files and pipe.c the pipes (File.v, Pipe.v);
    - memory: kalloc.c (Kalloc.v) and vm.c (Vm.v);
    - processes: proc.c (Proc.v), exec.c (Exec.v), and the locks of spinlock.c
      (Spinlock.v);
    - entry: syscall.c, sysproc.c, sysfile.c and trap.c (Syscall.v, Sysproc.v,
      Sysfile.v, Trap.v), the SIGFPE case of trap with restorer.h (Signal.v), and
      the descriptor tables and entry code of vm.c, trap.c, mmu.h, vectors.pl and
      trapasm.S (Gates.v);
    - devices: console.c and kbd.c (Console.v, Kbd.v), uart.c (Uart.v), picirq.c,
      ioapic.c and timer.c (Intr.v), lapic.c and startothers of main.c (Lapic.v,
      Rtc.v), mp.c (Mp.v);
    - beside the kernel: bootmain.c (Boot.v), mkfs.c (Mkfs.v), string.c and ulib.c
      (CString.v), printf.c (Printf.v), umalloc.c (Umalloc.v), sh.c (Sh.v), grep.c
      (Grep.v), and the other user programs (Utils.v, User.v).

    Kernel.v has the record [kernel] in which file.c, proc.c, the system calls,
    exec.c and trap.c work: memory, file system, file table, pipes, process table,
    console and ticks.

    A function of the source is a definition of the same name.  Stateful code is in
    the monad [kM] below, whose outcomes are a value, a panic of the kernel, or a
    sleep on a channel, at which the run of the function ends; Pipe.v, Spinlock.v,
    LogProto.v and ProcProto.v model what happens when such pieces interleave.
    Machine integers are [Z] with every wrap-around written out ([u8], [u16],
    [u32], [i32]).  Structures are records, arrays are lists, and memory is a
    function from addresses to bytes where the source depends on its layout: the
    free list of kalloc.c, page tables, the headers of umalloc.c, disk blocks, the
    structures of mp.h.  Pointers into the tables of the kernel are indices.
    Hardware is a class of operations (ports, device memory) with a second class
    that states the data sheet; each has a concrete machine as an instance.

    ** What the theorems show

    - LogProofs.v, LogProps.v, LogProto.v: a crash at any disk write leaves all of
      a transaction or nothing, recovery may itself be cut and repeated, the last
      end_op commits, and under any schedule of operations no commit runs in the
      middle of one and the log has room for what begin_op admitted, but for one
      block when mkfs made the log.  Txn.v: log.c implements the transaction interface.
    - Bio.v, BioProps.v: bio.c implements the block interface; bread returns the
      content of its block and buffers are recycled in the order of their last
      use.  IdeProps.v: the driver serves every request once, in order.
    - FsBlocks.v, FsFile.v, FsRW.v, FsProps.v: balloc takes the lowest free block
      and zeroes it, readi and writei work on the bytes of a file and on nothing
      else, and inodes survive the way to the disk.  FsDir.v: dirlink adds one name,
      which dirlookup finds, and refuses a name that is there.  FsCrash.v: through
      all the layers, a crash leaves a file as it was before a write or after it.
      These ask for free blocks, room in the log and files without holes.
    - MkfsProps.v, MkfsImage.v: an image of mkfs is a file system in this sense, with
      every file in it.  MkfsBoot.v: the kernel boots on the image and reads the
      files back, and the image has the free blocks that a write asks for.
    - FileProps.v: reference counts of open files are exact wherever dup, close,
      open, pipe, fork and exit return, and where they sleep, but for the files that
      pipe and exit have in hand.  Pipe.v: a pipe is a bounded queue, and no wakeup
      is lost, except for readers when a writer is killed.
    - Kalloc.v, VmProofs.v, VmProps.v, VmClaims.v: the allocator is a stack of
      pages; mapping, growing and copying address spaces change exactly what they
      should.
    - Spinlock.v: mutual exclusion.  ProcProto.v: the process table is sound on
      several CPUs, no parent waits beside a dead child.  ProcProps.v: one pass of
      the scheduler runs every ready process that no other CPU takes.
    - SyscallProps.v, TrapProps.v, Gates.v, Signal.v: argument checks, console input
      as lines, the gates that a program can enter, the trap frame, and the round
      trip of a signal from the divide error through trap to the restorer in user
      mode.
    - Intr.v, Lapic.v, Rtc.v, Uart.v, Mp.v, Boot.v: interrupts arrive at the vectors
      that trap expects, every processor is started with its own stack, the clock
      is read consistently, the serial line sends every character and reads every
      byte that is not overrun, the tables of the BIOS and the kernel file are read
      correctly.
    - ShProps.v, ShText.v, ShRun.v: the parser ends on every line, reads back every
      command from its text, and the programs get the descriptors that the command
      asks for and are waited for.  Grep.v, UmallocProps.v, Printf.v, CString.v, Utils.v, UserProps.v:
      the programs and library routines meet their specifications.
    - Some theorems show a defect of the code; they are called after it, for
      instance [signal_number_overwrites_size], [killed_writer_strands_reader],
      [read_minus_one_reads_file], [balloc_takes_log_block] and [malloc_wraps].

    ** Bounds and fuel

    A loop over a table runs for the length of the table.  Other loops have fuel
    with a theorem that it is enough: the scans of the buffer list for the length
    of the ring, the parser four times the length of its line and five, malloc and
    free for the number of free blocks, the waits for a device for the patience
    that its contract promises, the loops of a user program for the maximal size of
    a file, the rounds of init for any number.  Running out of fuel is an outcome
    of its own or a panic, and the theorems exclude it.

    ** Abstractions

    - A section under a lock is one step; locks are not part of the kernel state,
      except in Spinlock.v, which shows what they guarantee.
    - A pipe is known by the address of its page; its content has a type of its
      own.  Trap frames and contexts are records.
    - Wakeups are recorded or applied in the component that makes them.
    - The switch of devices, the addresses that the linker sets, initcode and the
      content of uninitialised variables are parameters.
    - The text that is printed before a panic and the message of allocuvm when
      memory runs out are left out.
    - The system calls of the shell and of the user programs are trees and classes
      with the descriptors, files and processes that a program sees, and not the
      kernel of this development.

    ** Not modelled

    - The assembly code of the boot sector, of the kernel entry, of swtch and of the
      system call stubs, and the order of initialisations in main: they consist of
      processor instructions and calls of modelled functions.
    - usertests.c, stressfs.c and the tests of the signal stages: they exercise the
      system calls on a running machine, and their results depend on it.
    - shutdown.c, which only calls halt; panic and its call stack listing, after
      which nothing runs; the headers that only declare.
    - Makefile, scripts, documents and the Promela model sleep1.p: not code of the
      system. *)

From stdpp Require Import base numbers option list gmap strings.
From Stdlib Require Import ZArith Lia.

Local Open Scope Z_scope.

(** ** Machine integers

    C integers are modelled by [Z]; every place where the source stores a
    value into a narrower type wraps it explicitly. *)

Definition u8 (z : Z) : Z := z mod 2 ^ 8.
Definition u16 (z : Z) : Z := z mod 2 ^ 16.
Definition u32 (z : Z) : Z := z mod 2 ^ 32.
Definition i8 (z : Z) : Z := (z + 2 ^ 7) mod 2 ^ 8 - 2 ^ 7.
Definition i16 (z : Z) : Z := (z + 2 ^ 15) mod 2 ^ 16 - 2 ^ 15.
Definition i32 (z : Z) : Z := (z + 2 ^ 31) mod 2 ^ 32 - 2 ^ 31.

Lemma u32_small z : 0 ≤ z < 2 ^ 32 → u32 z = z.
Proof. apply Z.mod_small. Qed.
Lemma u32_range z : 0 ≤ u32 z < 2 ^ 32.
Proof. apply Z.mod_pos_bound; lia. Qed.
Lemma u8_small z : 0 ≤ z < 2 ^ 8 → u8 z = z.
Proof. apply Z.mod_small. Qed.
Lemma u8_range z : 0 ≤ u8 z < 2 ^ 8.
Proof. apply Z.mod_pos_bound; lia. Qed.
Lemma u16_small z : 0 ≤ z < 2 ^ 16 → u16 z = z.
Proof. apply Z.mod_small. Qed.
Lemma u16_range z : 0 ≤ u16 z < 2 ^ 16.
Proof. apply Z.mod_pos_bound; lia. Qed.
Lemma i32_small z : - 2 ^ 31 ≤ z < 2 ^ 31 → i32 z = z.
Proof. intros. unfold i32. rewrite Z.mod_small by lia. lia. Qed.
Lemma i32_range z : - 2 ^ 31 ≤ i32 z < 2 ^ 31.
Proof. unfold i32. pose proof (Z.mod_pos_bound (z + 2 ^ 31) (2 ^ 32)). lia. Qed.
Lemma i16_small z : - 2 ^ 15 ≤ z < 2 ^ 15 → i16 z = z.
Proof. intros. unfold i16. rewrite Z.mod_small by lia. lia. Qed.
Lemma i16_range z : - 2 ^ 15 ≤ i16 z < 2 ^ 15.
Proof. unfold i16. pose proof (Z.mod_pos_bound (z + 2 ^ 15) (2 ^ 16)). lia. Qed.
Lemma u32_u32 z : u32 (u32 z) = u32 z.
Proof. apply u32_small, u32_range. Qed.
Lemma u32_add_l a b : u32 (u32 a + b) = u32 (a + b).
Proof. unfold u32. by rewrite Zplus_mod_idemp_l. Qed.
Lemma u32_add_r a b : u32 (a + u32 b) = u32 (a + b).
Proof. unfold u32. by rewrite Zplus_mod_idemp_r. Qed.
Lemma u32_sub_l a b : u32 (u32 a - b) = u32 (a - b).
Proof. unfold u32. by rewrite Zminus_mod_idemp_l. Qed.
Lemma u32_sub_r a b : u32 (a - u32 b) = u32 (a - b).
Proof. unfold u32. by rewrite Zminus_mod_idemp_r. Qed.

(** ** Flag words

    [flag], [setf] and [clrf] are the C idioms [f & m], [f |= m] and
    [f &= ~m] on an [int] used as a set of one-bit masks. *)

Definition flag (f m : Z) : bool := negb (Z.land f m =? 0).
Definition setf (f m : Z) : Z := Z.lor f m.
Definition clrf (f m : Z) : Z := Z.land f (Z.lnot m).

Lemma flag_testbit f i : 0 ≤ i → flag f (2 ^ i) = Z.testbit f i.
Proof.
  intros Hi. unfold flag. destruct (Z.testbit f i) eqn:E.
  - apply negb_true_iff, Z.eqb_neq. intros H.
    assert (Z.testbit (Z.land f (2 ^ i)) i = false) as H' by (by rewrite H, Z.bits_0).
    rewrite Z.land_spec, E, Z.pow2_bits_true in H' by lia. done.
  - apply negb_false_iff, Z.eqb_eq, Z.bits_inj'. intros j Hj.
    rewrite Z.land_spec, Z.bits_0, Z.pow2_bits_eqb by lia.
    destruct (Z.eqb_spec i j); subst; [by rewrite E|by rewrite andb_false_r].
Qed.

Lemma testbit_setf f i j : 0 ≤ i → 0 ≤ j →
  Z.testbit (setf f (2 ^ i)) j = Z.testbit f j || (i =? j).
Proof. intros. unfold setf. by rewrite Z.lor_spec, Z.pow2_bits_eqb. Qed.

Lemma testbit_clrf f i j : 0 ≤ i → 0 ≤ j →
  Z.testbit (clrf f (2 ^ i)) j = Z.testbit f j && negb (i =? j).
Proof.
  intros. unfold clrf. by rewrite Z.land_spec, Z.lnot_spec, Z.pow2_bits_eqb by lia.
Qed.

Lemma flag_setf f i j : 0 ≤ i → 0 ≤ j →
  flag (setf f (2 ^ i)) (2 ^ j) = flag f (2 ^ j) || (i =? j).
Proof. intros. by rewrite !flag_testbit, testbit_setf by lia. Qed.

Lemma flag_clrf f i j : 0 ≤ i → 0 ≤ j →
  flag (clrf f (2 ^ i)) (2 ^ j) = flag f (2 ^ j) && negb (i =? j).
Proof. intros. by rewrite !flag_testbit, testbit_clrf by lia. Qed.

Lemma flag_0_l m : flag 0 m = false.
Proof. done. Qed.

(** The masks in use are single bits among the low eight. *)
Definition is_bit (m : Z) : bool := existsb (Z.eqb m) [1; 2; 4; 8; 16; 32; 64; 128].

Lemma is_bit_pow m : is_bit m = true → ∃ i, 0 ≤ i ∧ m = 2 ^ i.
Proof.
  intros [i [Hi ->%Z.eqb_eq]]%existsb_exists. simpl in Hi.
  repeat destruct Hi as [<-|Hi]; [exists 0|exists 1|exists 2|exists 3|exists 4|exists 5|exists 6|exists 7|done];
    (split; [lia|done]).
Qed.

Lemma pow2_eqb i j : 0 ≤ i → 0 ≤ j → (2 ^ i =? 2 ^ j) = (i =? j).
Proof.
  intros. destruct (Z.eqb_spec i j); subst; [by rewrite Z.eqb_refl|].
  apply Z.eqb_neq. intros H'%Z.pow_inj_r; lia.
Qed.

Lemma flag_setf_bit f m k : is_bit m = true → is_bit k = true →
  flag (setf f m) k = flag f k || (m =? k).
Proof.
  intros (i & ? & ->)%is_bit_pow (j & ? & ->)%is_bit_pow.
  by rewrite flag_setf, pow2_eqb by lia.
Qed.

Lemma flag_clrf_bit f m k : is_bit m = true → is_bit k = true →
  flag (clrf f m) k = flag f k && negb (m =? k).
Proof.
  intros (i & ? & ->)%is_bit_pow (j & ? & ->)%is_bit_pow.
  by rewrite flag_clrf, pow2_eqb by lia.
Qed.

(** ** Kernel computations

    A kernel function is a computation over the state of its component: it
    returns a value, panics, or gives up the CPU ([sched]) until a wait channel
    is woken up.  A [sleep] ends the run with the state at that point. *)

Inductive chan : Type :=
| ChBuf (i : nat)
| ChInode (i : nat)
| ChLog
| ChPipeRead (p : Z)
| ChPipeWrite (p : Z)
| ChProc (p : nat)
| ChInput
| ChTicks
| ChYield       (** [sched] called by [yield]: the scheduler resumes the process *)
| ChExit.       (** [sched] called by [exit]: nothing resumes the process *)

#[export] Instance chan_eq_dec : EqDecision chan.
Proof. solve_decision. Defined.

Inductive outcome (S A : Type) : Type :=
| Ok (a : A) (s : S)
| Panic (msg : string)
| Sleep (c : chan) (s : S).
Arguments Ok {S A} a s.
Arguments Panic {S A} msg.
Arguments Sleep {S A} c s.

Definition kM (S A : Type) : Type := S → outcome S A.

#[export] Instance kM_ret S : MRet (kM S) := λ A a s, Ok a s.
#[export] Instance kM_bind S : MBind (kM S) := λ A B f m s,
  match m s with
  | Ok a s' => f a s'
  | Panic msg => Panic msg
  | Sleep c s' => Sleep c s'
  end.

Definition panic {S A} (msg : string) : kM S A := λ _, Panic msg.
Definition sleep_on {S A} (c : chan) : kM S A := λ s, Sleep c s.
Definition kget {S} : kM S S := λ s, Ok s s.
Definition gets {S A} (f : S → A) : kM S A := λ s, Ok (f s) s.
Definition modify {S} (f : S → S) : kM S unit := λ s, Ok tt (f s).
Definition kif {S} (b : bool) (m : kM S unit) : kM S unit := if b then m else mret tt.

(** Run a computation of a sub-component on the field of a larger state. *)
Definition zoom {T S A} (get : T → S) (set : S → T → T) (m : kM S A) : kM T A := λ t,
  match m (get t) with
  | Ok a s => Ok a (set s t)
  | Panic msg => Panic msg
  | Sleep c s => Sleep c (set s t)
  end.

(** [for (i = lo; i < lo + n; i++) body(i)]. *)
Fixpoint kfor {S} (n : nat) (i : Z) (body : Z → kM S unit) : kM S unit :=
  match n with
  | O => mret tt
  | Datatypes.S n' => _ ← body i; kfor n' (i + 1) body
  end.

(** Total correctness: [m] started in [s] returns, in a state and with a
    value satisfying [Q]. *)
Definition wp {S A} (m : kM S A) (s : S) (Q : A → S → Prop) : Prop :=
  match m s with Ok a s' => Q a s' | _ => False end.

(** The state in which a computation returns. *)
Definition final {S A} (m : kM S A) (s : S) : S :=
  match m s with Ok _ s' => s' | _ => s end.

Section wp.
Context {S : Type}.
Implicit Types s : S.

Lemma wp_ret {A} (a : A) s (Q : A → S → Prop) : wp (mret a) s Q ↔ Q a s.
Proof. done. Qed.

Lemma wp_bind {A B} (m : kM S A) (f : A → kM S B) s (Q : B → S → Prop) :
  wp (m ≫= f) s Q ↔ wp m s (λ a s', wp (f a) s' Q).
Proof. unfold wp, mbind, kM_bind. by destruct (m s). Qed.

Lemma wp_bind2 {A B D} (m1 : kM S A) (m2 : kM S B) (f : B → kM S D) s (Q : D → S → Prop) :
  wp (m1 ≫= λ _, m2 ≫= f) s Q ↔ wp (m1 ≫= λ _, m2) s (λ b s', wp (f b) s' Q).
Proof. unfold wp, mbind, kM_bind. destruct (m1 s); [|done..]. by destruct (m2 s0). Qed.

Lemma wp_mono {A} (m : kM S A) s (Q Q' : A → S → Prop) :
  wp m s Q → (∀ a s', Q a s' → Q' a s') → wp m s Q'.
Proof. unfold wp. destruct (m s); naive_solver. Qed.

Lemma wp_Ok {A} (m : kM S A) s (Q : A → S → Prop) :
  wp m s Q ↔ ∃ a s', m s = Ok a s' ∧ Q a s'.
Proof.
  unfold wp. split; [|by intros (? & ? & -> & ?)]. destruct (m s); [eauto|done..].
Qed.

Lemma wp_final {A} (m : kM S A) s (P : S → Prop) : wp m s (λ _, P) → P (final m s).
Proof. unfold wp, final. by destruct (m s). Qed.

Lemma wp_eq {A} (m m' : kM S A) s (Q : A → S → Prop) : m s = m' s → wp m' s Q → wp m s Q.
Proof. unfold wp. by intros ->. Qed.

Lemma wp_gets {A} (f : S → A) s (Q : A → S → Prop) : wp (gets f) s Q ↔ Q (f s) s.
Proof. done. Qed.

Lemma wp_modify (f : S → S) s (Q : unit → S → Prop) : wp (modify f) s Q ↔ Q tt (f s).
Proof. done. Qed.

Lemma wp_kget s (Q : S → S → Prop) : wp kget s Q ↔ Q s s.
Proof. done. Qed.

Lemma wp_zoom {T A} (get : T → S) (set : S → T → T) (m : kM S A) t (Q : A → T → Prop) :
  wp (zoom get set m) t Q ↔ wp m (get t) (λ a s, Q a (set s t)).
Proof. unfold wp, zoom. by destruct (m (get t)). Qed.

(** A [for] loop establishes an invariant indexed by the loop variable. *)
Lemma wp_kfor (n : nat) (i : Z) (body : Z → kM S unit) (I : Z → S → Prop) s :
  I i s →
  (∀ j t, i ≤ j < i + Z.of_nat n → I j t → wp (body j) t (λ _, I (j + 1))) →
  wp (kfor n i body) s (λ _, I (i + Z.of_nat n)).
Proof.
  revert i s. induction n as [|n IH]; intros i s Hi Hbody; simpl.
  - rewrite wp_ret. by replace (i + Z.of_nat 0) with i by lia.
  - rewrite wp_bind. eapply wp_mono; [by apply Hbody; [lia|]|].
    intros [] t Ht. simpl. eapply wp_mono; [apply IH; [done|]|].
    + intros j u ??. apply Hbody; [lia|done].
    + intros [] u. by replace (i + 1 + Z.of_nat n) with (i + Z.of_nat (Datatypes.S n)) by lia.
Qed.
End wp.

Create HintDb xv6.
Create Rewrite HintDb xv6.
#[export] Hint Rewrite @wp_ret @wp_bind @wp_gets @wp_modify @wp_kget @wp_zoom : xv6.

(** [wps] pushes [wp] through the monad; [wpa H] runs the next call with
    the specification [H] and continues with its postcondition. *)
Ltac wps := simpl; autorewrite with xv6; simpl.
Tactic Notation "wpa" uconstr(H) := eapply wp_mono; [eapply H|cbv beta].

(** ** Lists as C arrays *)

Section arrays.
Context {A : Type} `{!Inhabited A}.
Implicit Types (l : list A) (i j : nat) (x : A).

Lemma arr_insert_eq l i x : (i < length l)%nat → <[i:=x]> l !!! i = x.
Proof. intros. by rewrite list_lookup_total_insert_eq. Qed.

Lemma arr_insert_ne l i j x : i ≠ j → <[i:=x]> l !!! j = l !!! j.
Proof. intros. by rewrite list_lookup_total_insert_ne. Qed.

Lemma arr_insert l i j x : (i < length l)%nat →
  <[i:=x]> l !!! j = if decide (i = j) then x else l !!! j.
Proof.
  intros. case_decide; subst.
  - by apply arr_insert_eq.
  - by apply arr_insert_ne.
Qed.

Lemma arr_lookup l i : (i < length l)%nat → l !! i = Some (l !!! i).
Proof. intros. by apply list_lookup_lookup_total_lt. Qed.
End arrays.

Lemma NoDup_reverse {A} (l : list A) : NoDup l → NoDup (reverse l).
Proof. intros. by rewrite reverse_Permutation. Qed.

(** A duplicate-free list splits around an element in one way. *)
Lemma NoDup_split_unique {A} (b : A) l1 l2 k1 k2 : NoDup (l1 ++ b :: l2) →
  l1 ++ b :: l2 = k1 ++ b :: k2 → l1 = k1 ∧ l2 = k2.
Proof.
  revert k1. induction l1 as [|a l1 IH]; intros [|c k1] Hnd Heq; simplify_eq/=.
  - done.
  - apply NoDup_cons in Hnd as [Hb _]. set_solver.
  - apply NoDup_cons in Hnd as [Hb _]. set_solver.
  - apply NoDup_cons in Hnd as [_ Hnd]. by destruct (IH k1 Hnd) as [-> ->].
Qed.

(** ** Strings *)

(** The bytes of a string of the source. *)
Fixpoint str (s : string) : list Z :=
  match s with
  | EmptyString => []
  | String.String c s' => Z.of_nat (Ascii.nat_of_ascii c) :: str s'
  end.
