(* ===== verification/Bytes.v ===== *)
(** * Bytes in memory

    The little-endian layout of the integers the kernel stores in disk blocks
    and buffers, and moves of byte ranges. *)

From stdpp Require Import base numbers option list.
From S2P Require Import Prelude.
Local Open Scope Z_scope.

Abbreviation bytes := (list Z).

(** The in-memory representation of a [short] and of an [int]. *)
Definition le16 (v : Z) : bytes := [u8 v; u8 (v / 2 ^ 8)].
Definition le32 (v : Z) : bytes :=
  [u8 v; u8 (v / 2 ^ 8); u8 (v / 2 ^ 16); u8 (v / 2 ^ 24)].

(** Loads of a [ushort] and a [uint] at a byte offset. *)
Definition get16 (d : bytes) (o : nat) : Z := d !!! o + 2 ^ 8 * d !!! (o + 1)%nat.
Definition get32 (d : bytes) (o : nat) : Z :=
  d !!! o + 2 ^ 8 * d !!! (o + 1)%nat + 2 ^ 16 * d !!! (o + 2)%nat + 2 ^ 24 * d !!! (o + 3)%nat.

(** Stores at a byte offset; [put] is [memmove(d + o, v, length v)]. *)
Definition put (d : bytes) (o : nat) (v : bytes) : bytes := list_inserts o v d.
Definition put16 (d : bytes) (o : nat) (v : Z) : bytes := put d o (le16 v).
Definition put32 (d : bytes) (o : nat) (v : Z) : bytes := put d o (le32 v).

(** [n] bytes from offset [o]. *)
Definition slice (d : bytes) (o n : nat) : bytes := take n (drop o d).

(** A list of bytes. *)
Definition is_bytes (d : bytes) : Prop := Forall (λ b, 0 ≤ b < 256) d.

Lemma length_put d o v : length (put d o v) = length d.
Proof. apply length_inserts. Qed.

Lemma put_lookup_in d o v i : (o + length v ≤ length d)%nat →
  (o ≤ i < o + length v)%nat → put d o v !!! i = v !!! (i - o)%nat.
Proof.
  intros Hl Hi. unfold put. rewrite !list_lookup_total_alt. f_equal.
  rewrite list_lookup_inserts; [|lia..]. done.
Qed.

Lemma put_lookup_out d o v i : (i < o)%nat ∨ (o + length v ≤ i)%nat →
  put d o v !!! i = d !!! i.
Proof.
  intros Hi. unfold put. rewrite !list_lookup_total_alt. f_equal.
  destruct Hi; [by apply list_lookup_inserts_lt|by apply list_lookup_inserts_ge].
Qed.

Lemma get32_put32 d o v : (o + 4 ≤ length d)%nat → get32 (put32 d o v) o = u32 v.
Proof.
  intros Hl. unfold get32, put32.
  rewrite !put_lookup_in by (simpl; lia).
  replace (o - o)%nat with 0%nat by lia. replace (o + 1 - o)%nat with 1%nat by lia.
  replace (o + 2 - o)%nat with 2%nat by lia. replace (o + 3 - o)%nat with 3%nat by lia.
  unfold le32; simpl. unfold u8, u32. Z.div_mod_to_equations. lia.
Qed.

Lemma get16_put16 d o v : (o + 2 ≤ length d)%nat → get16 (put16 d o v) o = u16 v.
Proof.
  intros Hl. unfold get16, put16.
  rewrite !put_lookup_in by (simpl; lia).
  replace (o - o)%nat with 0%nat by lia. replace (o + 1 - o)%nat with 1%nat by lia.
  unfold le16; simpl. unfold u8, u16. Z.div_mod_to_equations. lia.
Qed.

Lemma get32_put d o v o' : (o' + 4 ≤ o)%nat ∨ (o + length v ≤ o')%nat →
  get32 (put d o v) o' = get32 d o'.
Proof. intros. unfold get32. rewrite !put_lookup_out by lia. done. Qed.

Lemma get16_put d o v o' : (o' + 2 ≤ o)%nat ∨ (o + length v ≤ o')%nat →
  get16 (put d o v) o' = get16 d o'.
Proof. intros. unfold get16. rewrite !put_lookup_out by lia. done. Qed.

Lemma is_bytes_le32 v : is_bytes (le32 v).
Proof. unfold le32. repeat constructor; apply u8_range. Qed.
Lemma is_bytes_le16 v : is_bytes (le16 v).
Proof. unfold le16. repeat constructor; apply u8_range. Qed.

Lemma is_bytes_put d o v : is_bytes d → is_bytes v → is_bytes (put d o v).
Proof.
  unfold is_bytes. rewrite !Forall_forall. intros Hd Hv x Hx.
  apply list_elem_of_lookup in Hx as [i Hi]. unfold put in Hi.
  apply list_lookup_inserts_Some in Hi as [[??]|(?&?&?)];
    [apply Hd|apply Hv]; eauto using list_elem_of_lookup_2.
Qed.

Lemma is_bytes_get d o : is_bytes d → 0 ≤ d !!! o < 256.
Proof.
  intros Hd. rewrite list_lookup_total_alt. destruct (d !! o) as [x|] eqn:E; simpl; [|lia].
  eapply Forall_lookup_1 in E; [|exact Hd]. done.
Qed.

Lemma get32_range d o : is_bytes d → 0 ≤ get32 d o < 2 ^ 32.
Proof.
  intros Hd. unfold get32.
  pose proof (is_bytes_get d o Hd). pose proof (is_bytes_get d (o+1) Hd).
  pose proof (is_bytes_get d (o+2) Hd). pose proof (is_bytes_get d (o+3) Hd). lia.
Qed.

Lemma get16_range d o : is_bytes d → 0 ≤ get16 d o < 2 ^ 16.
Proof.
  intros Hd. unfold get16.
  pose proof (is_bytes_get d o Hd). pose proof (is_bytes_get d (o+1) Hd). lia.
Qed.

#[export] Hint Rewrite length_put : xv6.
#[export] Hint Resolve is_bytes_le16 is_bytes_le32 is_bytes_put : xv6.
