(* ===== verification/CString.v ===== *)
(** * C memory and strings (string.c, ulib.c)

    The kernel's and the user library's routines.  Memory is a function from
    addresses to bytes, for the routines whose regions may overlap.  For the
    string routines a [char *] is the list of the bytes from it on: reading
    past the end of the list yields NUL bytes, so that a list without NULs is
    a NUL-terminated string. *)

From stdpp Require Import base numbers option list strings.
From Stdlib Require Import ZArith Lia ZifyBool.
From S2P Require Import Prelude.
Local Open Scope Z_scope.

Module CString.

Definition mem : Type := Z → Z.

(** [*a = v]. *)
Definition store (a v : Z) (m : mem) : mem := λ x, if x =? a then v else m x.

(** ** string.c: memory *)

Fixpoint stosb (n : nat) (a v : Z) (m : mem) : mem :=
  match n with
  | O => m
  | S n' => stosb n' (a + 1) v (store a v m)
  end.

(** [rep stosl]: little-endian 32-bit stores. *)
Fixpoint stosl (n : nat) (a v : Z) (m : mem) : mem :=
  match n with
  | O => m
  | S n' => stosl n' (a + 4) v
      (store (a + 3) (u8 (v / 2 ^ 24)) (store (a + 2) (u8 (v / 2 ^ 16))
        (store (a + 1) (u8 (v / 2 ^ 8)) (store a (u8 v) m))))
  end.

(** [(c<<24)|(c<<16)|(c<<8)|c]. *)
Definition spread (c : Z) : Z :=
  Z.lor (Z.lor (Z.lor (Z.shiftl c 24) (Z.shiftl c 16)) (Z.shiftl c 8)) c.

Definition memset (dst c n : Z) (m : mem) : mem :=
  if (Z.rem dst 4 =? 0) && (n mod 4 =? 0) then
    let c := Z.land c 255 in
    stosl (Z.to_nat (n / 4)) dst (spread c) m
  else stosb (Z.to_nat n) dst (u8 c) m.

Fixpoint memcmp (n : nat) (s1 s2 : Z) (m : mem) : Z :=
  match n with
  | O => 0
  | S n' => if m s1 =? m s2 then memcmp n' (s1 + 1) (s2 + 1) m else m s1 - m s2
  end.

(** [while(n-- > 0) *d++ = *s++]. *)
Fixpoint copy_up (n : nat) (d s : Z) (m : mem) : mem :=
  match n with
  | O => m
  | S n' => copy_up n' (d + 1) (s + 1) (store d (m s) m)
  end.

(** [while(n-- > 0) *--d = *--s]. *)
Fixpoint copy_down (n : nat) (d s : Z) (m : mem) : mem :=
  match n with
  | O => m
  | S n' => copy_down n' (d - 1) (s - 1) (store (d - 1) (m (s - 1)) m)
  end.

Definition memmove (dst src n : Z) (m : mem) : mem :=
  if (src <? dst) && (dst <? src + n)
  then copy_down (Z.to_nat n) (dst + n) (src + n) m
  else copy_up (Z.to_nat n) dst src m.

Definition memcpy (dst src n : Z) (m : mem) : mem := memmove dst src n m.

(** ** string.c: strings *)

(** [*p] and [p + 1]. *)
Definition deref (p : list Z) : Z := match p with [] => 0 | c :: _ => c end.
Definition next (p : list Z) : list Z := tail p.

Fixpoint strncmp (n : nat) (p q : list Z) : Z :=
  match n with
  | O => 0
  | S n' =>
      if negb (deref p =? 0) && (deref p =? deref q) then strncmp n' (next p) (next q)
      else deref p - deref q
  end.

(** The bytes stored through [s]. *)
Fixpoint strncpy (n : nat) (t : list Z) : list Z :=
  match n with
  | O => []
  | S n' => deref t :: (if deref t =? 0 then replicate n' 0 else strncpy n' (next t))
  end.

(** [while(--n > 0 && ( *s++ = *t++) != 0); *s = 0], with [n] the count left. *)
Fixpoint safe_loop (n : nat) (t : list Z) : list Z :=
  match n with
  | O => [0]
  | S n' => if deref t =? 0 then [0; 0] else deref t :: safe_loop n' (next t)
  end.

Definition safestrcpy (n : Z) (t : list Z) : list Z :=
  if n <=? 0 then [] else safe_loop (Z.to_nat (n - 1)) t.

(** [for(n = 0; s[n]; n++)] and [while(( *s++ = *t++) != 0)]: the list of a
    string ends, and past its end there is a NUL. *)
Fixpoint strlen (s : list Z) : Z :=
  match s with
  | [] => 0
  | c :: s' => if c =? 0 then 0 else 1 + strlen s'
  end.

(** ** ulib.c *)

Fixpoint strcpy (t : list Z) : list Z :=
  match t with
  | [] => [0]
  | c :: t' => if c =? 0 then [0] else c :: strcpy t'
  end.

Fixpoint strcmp (p q : list Z) : Z :=
  match p with
  | [] => 0 - deref q
  | c :: p' => if negb (c =? 0) && (c =? deref q) then strcmp p' (next q) else c - deref q
  end.

(** The suffix that starts at the first [c], if any. *)
Fixpoint strchr (s : list Z) (c : Z) : option (list Z) :=
  match s with
  | [] => None
  | x :: s' => if x =? 0 then None else if x =? c then Some s else strchr s' c
  end.

(** [n = n*10 + *s++ - '0'], on 32-bit [int]. *)
Fixpoint atoi_loop (n : Z) (s : list Z) : Z :=
  match s with
  | [] => n
  | c :: s' => if (48 <=? c) && (c <=? 57) then atoi_loop (i32 (n * 10 + c - 48)) s' else n
  end.
Definition atoi (s : list Z) : Z := atoi_loop 0 s.

Definition ulib_memset (dst c n : Z) (m : mem) : mem := stosb (Z.to_nat n) dst (u8 c) m.
Definition ulib_memmove (dst src n : Z) (m : mem) : mem := copy_up (Z.to_nat n) dst src m.

(** [gets]: [input] is what successive calls of [read(0, &c, 1)] yield, [None]
    being end of file or an error; the result is the content of [buf]. *)
Fixpoint gets_loop (room : nat) (input : list (option Z)) : list Z :=
  match room, input with
  | S room', Some c :: input' =>
      c :: (if (c =? 10) || (c =? 13) then [] else gets_loop room' input')
  | _, _ => []
  end.
Definition gets (max : Z) (input : list (option Z)) : list Z :=
  gets_loop (Z.to_nat (max - 1)) input ++ [0].

(** ** Correctness *)

Lemma stosb_spec n a v m x : stosb n a v m x = if (a <=? x) && (x <? a + Z.of_nat n) then v else m x.
Proof.
  revert a m. induction n as [|n IH]; intros a m; cbn [stosb].
  - replace ((a <=? x) && (x <? a + Z.of_nat 0)) with false by lia. done.
  - rewrite IH. unfold store. destruct (Z.eqb_spec x a); subst.
    + replace ((a + 1 <=? a) && (a <? a + 1 + Z.of_nat n)) with false by lia.
      by replace ((a <=? a) && (a <? a + Z.of_nat (S n))) with true by lia.
    + by replace ((a <=? x) && (x <? a + Z.of_nat (S n)))
        with ((a + 1 <=? x) && (x <? a + 1 + Z.of_nat n)) by lia.
Qed.

Lemma copy_up_spec n d s m x : d ≤ s ∨ s + Z.of_nat n ≤ d →
  copy_up n d s m x = if (d <=? x) && (x <? d + Z.of_nat n) then m (s + (x - d)) else m x.
Proof.
  revert d s m. induction n as [|n IH]; intros d s m H; cbn [copy_up].
  - by replace ((d <=? x) && (x <? d + Z.of_nat 0)) with false by lia.
  - rewrite IH by lia. unfold store.
    destruct (Z.eqb_spec x d); subst.
    + replace ((d + 1 <=? d) && (d <? d + 1 + Z.of_nat n)) with false by lia.
      replace ((d <=? d) && (d <? d + Z.of_nat (S n))) with true by lia. f_equal. lia.
    + replace ((d <=? x) && (x <? d + Z.of_nat (S n)))
        with ((d + 1 <=? x) && (x <? d + 1 + Z.of_nat n)) by lia.
      destruct ((d + 1 <=? x) && (x <? d + 1 + Z.of_nat n)) eqn:E; [|done].
      destruct (Z.eqb_spec (s + 1 + (x - (d + 1))) d); [lia|]. f_equal. lia.
Qed.

Lemma copy_down_spec n d s m x : s ≤ d ∨ d ≤ s - Z.of_nat n →
  copy_down n d s m x = if (d - Z.of_nat n <=? x) && (x <? d) then m (s - (d - x)) else m x.
Proof.
  revert d s m. induction n as [|n IH]; intros d s m H; cbn [copy_down].
  - by replace ((d - Z.of_nat 0 <=? x) && (x <? d)) with false by lia.
  - rewrite IH by lia. unfold store.
    destruct (Z.eqb_spec x (d - 1)); subst.
    + replace ((d - 1 - Z.of_nat n <=? d - 1) && (d - 1 <? d - 1)) with false by lia.
      replace ((d - Z.of_nat (S n) <=? d - 1) && (d - 1 <? d)) with true by lia. f_equal. lia.
    + replace ((d - Z.of_nat (S n) <=? x) && (x <? d))
        with ((d - 1 - Z.of_nat n <=? x) && (x <? d - 1)) by lia.
      destruct ((d - 1 - Z.of_nat n <=? x) && (x <? d - 1)) eqn:E; [|done].
      destruct (Z.eqb_spec (s - 1 - (d - 1 - x)) (d - 1)); [lia|]. f_equal. lia.
Qed.

(** The bytes of four copies of [c]. *)
Lemma spread_bytes c : 0 ≤ c < 256 →
  u8 (spread c) = c ∧ u8 (spread c / 2 ^ 8) = c ∧ u8 (spread c / 2 ^ 16) = c ∧
  u8 (spread c / 2 ^ 24) = c.
Proof.
  intros Hc.
  assert (Forall (λ c, u8 (spread c) = c ∧ u8 (spread c / 2 ^ 8) = c ∧
    u8 (spread c / 2 ^ 16) = c ∧ u8 (spread c / 2 ^ 24) = c) (seqZ 0 256)) as H
    by (apply (bool_decide_eq_true_1 _); vm_compute; reflexivity).
  rewrite Forall_forall in H. apply (H c), elem_of_seqZ. lia.
Qed.

Lemma stosl_spec n a v c m x : u8 v = c → u8 (v / 2 ^ 8) = c → u8 (v / 2 ^ 16) = c →
  u8 (v / 2 ^ 24) = c →
  stosl n a v m x = if (a <=? x) && (x <? a + 4 * Z.of_nat n) then c else m x.
Proof.
  intros H0 H1 H2 H3. revert a m. induction n as [|n IH]; intros a m; cbn [stosl].
  - by replace ((a <=? x) && (x <? a + 4 * Z.of_nat 0)) with false by lia.
  - rewrite IH, H0, H1, H2, H3. unfold store.
    destruct (Z.eqb_spec x (a + 3)), (Z.eqb_spec x (a + 2)), (Z.eqb_spec x (a + 1)), (Z.eqb_spec x a);
      try lia;
      destruct ((a + 4 <=? x) && (x <? a + 4 + 4 * Z.of_nat n)) eqn:E1;
      destruct ((a <=? x) && (x <? a + 4 * Z.of_nat (S n))) eqn:E2; try done; lia.
Qed.

Lemma copy_up_out n d s m x : x < d ∨ d + Z.of_nat n ≤ x → copy_up n d s m x = m x.
Proof.
  revert d s m. induction n as [|n IH]; intros d s m H; cbn [copy_up]; [done|].
  rewrite IH by lia. unfold store. by rewrite (proj2 (Z.eqb_neq x d)) by lia.
Qed.

Lemma mod_pred y p : 0 < p → (y - 1) mod p = if y mod p =? 0 then p - 1 else y mod p - 1.
Proof.
  intros Hp. pose proof (Z.div_mod y p ltac:(lia)). pose proof (Z.mod_pos_bound y p Hp).
  destruct (Z.eqb_spec (y mod p) 0).
  - symmetry. apply (Z.mod_unique _ _ (y / p - 1)); [left|]; lia.
  - symmetry. apply (Z.mod_unique _ _ (y / p)); [left|]; lia.
Qed.

(** Copying upwards into a destination that starts inside the source
    propagates the first [d - s] bytes. *)
Lemma copy_up_smear n d s m x : s < d → d ≤ x < d + Z.of_nat n →
  copy_up n d s m x = m (s + (x - s) mod (d - s)).
Proof.
  revert d s m. induction n as [|n IH]; intros d s m Hsd Hx; cbn [copy_up]; [lia|].
  destruct (decide (x = d)) as [->|].
  - rewrite copy_up_out by lia. unfold store. rewrite Z.eqb_refl, Z.mod_same by lia. f_equal. lia.
  - rewrite IH by lia. replace (d + 1 - (s + 1)) with (d - s) by lia.
    replace (x - (s + 1)) with (x - s - 1) by lia. rewrite mod_pred by lia.
    pose proof (Z.mod_pos_bound (x - s) (d - s) ltac:(lia)). unfold store.
    destruct (Z.eqb_spec ((x - s) mod (d - s)) 0) as [->|].
    + rewrite (proj2 (Z.eqb_eq _ d)) by lia. f_equal. lia.
    + rewrite (proj2 (Z.eqb_neq _ d)) by lia. f_equal. lia.
Qed.

(** The characters of a string that fit in [n] bytes. *)
Fixpoint cname (n : nat) (p : list Z) : list Z :=
  match n with
  | O => []
  | S n' => if deref p =? 0 then [] else deref p :: cname n' (next p)
  end.

Lemma strncmp_eq n p q : strncmp n p q = 0 ↔ cname n p = cname n q.
Proof.
  revert p q. induction n as [|n IH]; intros p q; simpl; [done|].
  destruct (Z.eqb_spec (deref p) 0) as [E|E], (Z.eqb_spec (deref q) 0) as [E'|E']; simpl.
  - split; [done|lia].
  - split; [lia|done].
  - rewrite E'. destruct (Z.eqb_spec (deref p) 0); [done|]. split; [lia|done].
  - destruct (Z.eqb_spec (deref p) (deref q)) as [Ed|]; [rewrite IH, Ed|split; [lia|congruence]].
    split; [by intros ->|by intros [=]].
Qed.

Lemma length_strncpy n t : length (strncpy n t) = n.
Proof.
  revert t. induction n as [|n IH]; intros t; simpl; [done|].
  destruct (deref t =? 0); [by rewrite length_replicate|by rewrite IH].
Qed.

Lemma cname_strncpy n t : cname n (strncpy n t) = cname n t.
Proof.
  revert t. induction n as [|n IH]; intros t; simpl; [done|].
  destruct (deref t =? 0) eqn:E; [done|]. by rewrite IH.
Qed.

Lemma safe_loop_spec n t : ∃ pad, safe_loop n t = cname n t ++ 0 :: pad ∧
  (length (safe_loop n t) ≤ S n)%nat.
Proof.
  revert t. induction n as [|n IH]; intros t; simpl; [by exists []|].
  destruct (deref t =? 0); simpl.
  - exists [0]. split; [done|lia].
  - destruct (IH (next t)) as (pad & -> & H). exists pad. split; [done|]. lia.
Qed.

Lemma memmove_spec dst src n m x : 0 ≤ n →
  memmove dst src n m x = if (dst <=? x) && (x <? dst + n) then m (src + (x - dst)) else m x.
Proof.
  intros Hn. unfold memmove. destruct (_ && _) eqn:E.
  - rewrite copy_down_spec, Z2Nat.id by lia. replace (dst + n - n) with dst by lia.
    destruct ((dst <=? x) && (x <? dst + n)); [|done]. f_equal. lia.
  - rewrite copy_up_spec by lia. by rewrite Z2Nat.id.
Qed.

Lemma memset_spec dst c n m x : 0 ≤ n →
  memset dst c n m x = if (dst <=? x) && (x <? dst + n) then u8 c else m x.
Proof.
  intros Hn. unfold memset. destruct (_ && _) eqn:E.
  - apply andb_true_iff in E as [_ E%Z.eqb_eq].
    assert (Z.land c 255 = u8 c) as -> by (apply (Z.land_ones c 8); lia).
    destruct (spread_bytes (u8 c) (u8_range c)) as (? & ? & ? & ?).
    rewrite (stosl_spec _ _ _ (u8 c)) by done.
    pose proof (Z.div_mod n 4 ltac:(lia)). rewrite Z2Nat.id by (apply Z.div_pos; lia).
    by replace (dst + 4 * (n / 4)) with (dst + n) by lia.
  - rewrite stosb_spec. by rewrite Z2Nat.id.
Qed.

(** The kernel's [memmove] copies correctly between regions that overlap
    in any way: every byte of the destination is the byte that the source had
    before, and nothing else changes. *)
Theorem memmove_overlap dst src n m x : 0 ≤ n →
  memmove dst src n m x = if (dst <=? x) && (x <? dst + n) then m (src + (x - dst)) else m x.
Proof. apply memmove_spec. Qed.

Lemma memmove_overlap_witness :
  memmove 2 0 4 (λ a, 100 + a) 5 = 103.
Proof. rewrite (memmove_overlap 2 0 4 (λ a, 100 + a) 5); [reflexivity|lia]. Defined.

(** [memset] fills exactly the region with the low byte of its argument,
    on the word-wise path (aligned address and length) and on the byte path. *)
Theorem memset_fills dst c n m x : 0 ≤ n →
  memset dst c n m x = if (dst <=? x) && (x <? dst + n) then u8 c else m x.
Proof. apply memset_spec. Qed.

Lemma memset_fills_witness : memset 8 (-1) 12 (λ _, 0) 19 = 255 ∧ memset 8 (-1) 12 (λ _, 0) 20 = 0.
Proof.
  split; [rewrite (memset_fills 8 (-1) 12 (λ _, 0) 19)|rewrite (memset_fills 8 (-1) 12 (λ _, 0) 20)];
    reflexivity || lia.
Defined.

(** The user library's [memmove] copies upwards only: it is correct when
    the destination does not start inside the source, and otherwise repeats
    the first bytes of the source. *)
Theorem ulib_memmove_upwards dst src n m :
  0 ≤ n →
  (dst ≤ src ∨ src + n ≤ dst → ∀ x,
    ulib_memmove dst src n m x = if (dst <=? x) && (x <? dst + n) then m (src + (x - dst)) else m x) ∧
  (src < dst < src + n → ∀ x, dst ≤ x < dst + n →
    ulib_memmove dst src n m x = m (src + (x - src) mod (dst - src))).
Proof.
  intros Hn. split.
  - intros H x. unfold ulib_memmove. rewrite copy_up_spec by lia. by rewrite Z2Nat.id.
  - intros H x Hx. unfold ulib_memmove.
    rewrite copy_up_smear by lia. done.
Qed.

Lemma ulib_memmove_upwards_witness : ulib_memmove 1 0 3 (λ a, 100 + a) 3 = 100.
Proof.
  destruct (ulib_memmove_upwards 1 0 3 (λ a, 100 + a)) as [_ H]; [lia|].
  rewrite H by lia. reflexivity.
Defined.
End CString.
