(* ===== verification/Kalloc.v ===== *)
(** * The page allocator (kalloc.c)

    Kernel memory is a function from virtual addresses to bytes; the free list
    is threaded through the first word of each free page, as in the source. *)

From stdpp Require Import base numbers option list strings.
From Stdlib Require Import ZArith Lia ZifyBool.
From S2P Require Import Prelude CString.
Local Open Scope Z_scope.

Module Kalloc.

(** ** Memory layout (mmu.h, memlayout.h) *)

Definition PGSIZE : Z := 4096.
Definition KERNBASE : Z := 2147483648.
Definition PHYSTOP : Z := 234881024.
Definition EXTMEM : Z := 1048576.
Definition KERNLINK : Z := KERNBASE + EXTMEM.
Definition DEVSPACE : Z := 4261412864.
Definition PGROUNDUP (sz : Z) : Z := Z.land (u32 (sz + PGSIZE - 1)) (Z.lnot (PGSIZE - 1)).
Definition PGROUNDDOWN (a : Z) : Z := Z.land a (Z.lnot (PGSIZE - 1)).
Definition v2p (a : Z) : Z := u32 (a - KERNBASE).
Definition p2v (a : Z) : Z := u32 (a + KERNBASE).

(** ** Words in memory *)

Definition load32 (m : CString.mem) (a : Z) : Z :=
  m a + 2 ^ 8 * m (a + 1) + 2 ^ 16 * m (a + 2) + 2 ^ 24 * m (a + 3).
Definition store32 (a v : Z) (m : CString.mem) : CString.mem :=
  CString.store (a + 3) (u8 (v / 2 ^ 24)) (CString.store (a + 2) (u8 (v / 2 ^ 16))
    (CString.store (a + 1) (u8 (v / 2 ^ 8)) (CString.store a (u8 v) m))).

(** [kmem], with the memory it manages. *)
Record kmem := mkKmem {
  km_use_lock : Z;
  km_freelist : Z;
  km_mem : CString.mem
}.

Definition set_mem (f : CString.mem → CString.mem) (s : kmem) : kmem :=
  mkKmem (km_use_lock s) (km_freelist s) (f (km_mem s)).
Definition set_freelist (p : Z) (s : kmem) : kmem := mkKmem (km_use_lock s) p (km_mem s).
Definition set_use_lock (b : Z) (s : kmem) : kmem := mkKmem b (km_freelist s) (km_mem s).

Section kalloc.
(** [end], the first address after the kernel, is set by the linker. *)
Variable kend : Z.

Definition kfree (v : Z) : kM kmem unit :=
  if negb (v mod PGSIZE =? 0) || (v <? kend) || (PHYSTOP <=? v2p v) then panic "kfree"
  else
    _ ← modify (set_mem (CString.memset v 1 PGSIZE));
    fl ← gets km_freelist;
    _ ← modify (set_mem (store32 v fl));
    modify (set_freelist v).

Definition kalloc : kM kmem Z :=
  r ← gets km_freelist;
  _ ← kif (negb (r =? 0)) (
        m ← gets km_mem;
        modify (set_freelist (load32 m r)));
  mret r.

(** [for(; p + PGSIZE <= vend; p += PGSIZE)], of [n] pages at most. *)
Fixpoint freerange_loop (n : nat) (p vend : Z) : kM kmem unit :=
  if p + PGSIZE <=? vend then
    match n with
    | O => panic "freerange: loop bound"
    | S n' => _ ← kfree p; freerange_loop n' (p + PGSIZE) vend
    end
  else mret tt.

Definition freerange (vstart vend : Z) : kM kmem unit :=
  freerange_loop (Z.to_nat (vend / PGSIZE)) (PGROUNDUP vstart) vend.

Definition kinit1 (vstart vend : Z) : kM kmem unit :=
  _ ← modify (set_use_lock 0);
  freerange vstart vend.

Definition kinit2 (vstart vend : Z) : kM kmem unit :=
  _ ← freerange vstart vend;
  modify (set_use_lock 1).

(** ** The free list *)

Lemma u8_bytes v : 0 ≤ v < 2 ^ 32 →
  u8 v + 2 ^ 8 * u8 (v / 2 ^ 8) + 2 ^ 16 * u8 (v / 2 ^ 16) + 2 ^ 24 * u8 (v / 2 ^ 24) = v.
Proof. intros Hv. unfold u8. Z.div_mod_to_equations. lia. Qed.

Lemma store32_eq a v m x : store32 a v m x =
  if x =? a + 3 then u8 (v / 2 ^ 24) else if x =? a + 2 then u8 (v / 2 ^ 16)
  else if x =? a + 1 then u8 (v / 2 ^ 8) else if x =? a then u8 v else m x.
Proof. done. Qed.

Lemma store32_out a v m x : x < a ∨ a + 4 ≤ x → store32 a v m x = m x.
Proof. intros Hx. rewrite store32_eq. repeat (rewrite (proj2 (Z.eqb_neq x _)) by lia). done. Qed.

Lemma load32_store32 a v m : 0 ≤ v < 2 ^ 32 → load32 (store32 a v m) a = v.
Proof.
  intros Hv. unfold load32. rewrite !store32_eq.
  replace (a =? a + 3) with false by lia. replace (a =? a + 2) with false by lia.
  replace (a =? a + 1) with false by lia. rewrite Z.eqb_refl.
  replace (a + 1 =? a + 3) with false by lia. replace (a + 1 =? a + 2) with false by lia.
  replace (a + 2 =? a + 3) with false by lia. rewrite !Z.eqb_refl. by apply u8_bytes.
Qed.

Lemma load32_ext m m' a : (∀ x, a ≤ x < a + 4 → m' x = m x) → load32 m' a = load32 m a.
Proof. intros H. unfold load32. by rewrite !H by lia. Qed.

Definition in_page (v x : Z) : Prop := v ≤ x < v + PGSIZE.

Lemma page_apart v w x : v mod PGSIZE = 0 → w mod PGSIZE = 0 → v ≠ w → in_page v x → ¬ in_page w x.
Proof.
  unfold in_page, PGSIZE. intros Hv Hw Hne Hx Hx'. apply Hne.
  Z.div_mod_to_equations. lia.
Qed.

(** [p] is the head of a list of the pages [l] linked in [m]. *)
Fixpoint chain (m : CString.mem) (p : Z) (l : list Z) : Prop :=
  match l with
  | [] => p = 0
  | v :: l' => p = v ∧ chain m (load32 m v) l'
  end.

Lemma page_chain_ext m m' p l : (∀ v x, v ∈ l → v ≤ x < v + 4 → m' x = m x) → chain m p l → chain m' p l.
Proof.
  revert p. induction l as [|v l IH]; intros p Hx; simpl; [done|]. intros [-> Hc]. split; [done|].
  rewrite (load32_ext m m'); [|intros; apply (Hx v); [by left|done]].
  apply IH; [|done]. intros w x ? ?. apply (Hx w); [by right|done].
Qed.

(** A page of allocatable memory. *)
Definition page_ok (v : Z) : Prop := v mod PGSIZE = 0 ∧ kend ≤ v < KERNBASE + PHYSTOP.

(** The free pages are those of [l], in this order. *)
Record kmem_rep (s : kmem) (l : list Z) : Prop := mkRep {
  kr_chain : chain (km_mem s) (km_freelist s) l;
  kr_nodup : NoDup l;
  kr_pages : Forall page_ok l
}.

Hypothesis Hend : KERNBASE ≤ kend.

Lemma page_pos v : page_ok v → 0 < v < 2 ^ 32 ∧ v2p v = v - KERNBASE ∧ 0 ≤ v2p v < PHYSTOP.
Proof.
  intros [_ Hv]. unfold v2p, KERNBASE, PHYSTOP in *. rewrite u32_small by lia. lia.
Qed.

Lemma kalloc_wp s l : kmem_rep s l →
  wp kalloc s (λ r s', match l with
    | [] => r = 0 ∧ s' = s
    | v :: l' => r = v ∧ kmem_rep s' l' ∧ km_mem s' = km_mem s
    end).
Proof.
  intros [Hc Hn Hp]. unfold kalloc. rewrite wp_bind, wp_gets, wp_bind. destruct l as [|v l']; simpl in Hc.
  - rewrite Hc. simpl. by rewrite !wp_ret.
  - destruct Hc as [-> Hc]. apply Forall_cons in Hp as [Hv Hp]. apply NoDup_cons in Hn as [Hn1 Hn].
    pose proof (page_pos v Hv). rewrite (proj2 (Z.eqb_neq v 0)) by lia. simpl.
    rewrite wp_bind, wp_gets, wp_modify, wp_ret. split_and!; done.
Qed.

Lemma kfree_wp s l v : kmem_rep s l → page_ok v → v ∉ l →
  wp (kfree v) s (λ _ s', kmem_rep s' (v :: l) ∧ km_use_lock s' = km_use_lock s ∧
    (∀ x, ¬ in_page v x → km_mem s' x = km_mem s x)).
Proof.
  intros [Hc Hn Hp] Hv Hnv. pose proof (page_pos v Hv) as (? & ? & ?). pose proof Hv as [Hal ?].
  unfold kfree. rewrite Hal, Z.eqb_refl, (proj2 (Z.ltb_ge v kend)), (proj2 (Z.leb_gt PHYSTOP _)) by lia.
  simpl. rewrite wp_bind, wp_modify, wp_bind, wp_gets, wp_bind, wp_modify, wp_modify.
  assert (∀ x, ¬ in_page v x → store32 v (km_freelist s) (CString.memset v 1 PGSIZE (km_mem s)) x = km_mem s x) as Hx.
  { intros x Hx. unfold in_page in Hx. rewrite store32_out by (unfold PGSIZE in *; lia).
    rewrite CString.memset_spec by (unfold PGSIZE; lia).
    by replace ((v <=? x) && (x <? v + PGSIZE)) with false by lia. }
  split_and!; [|done|exact Hx]. constructor; simpl.
  - split; [done|]. rewrite load32_store32.
    2:{ destruct l as [|w l']; simpl in Hc; [lia|]. destruct Hc as [-> _].
        apply Forall_cons in Hp as [Hw _]. pose proof (page_pos w Hw). lia. }
    eapply page_chain_ext; [|exact Hc]. intros w x Hw Hwx. apply Hx.
    rewrite Forall_forall in Hp. destruct (Hp w Hw) as [Hwa ?].
    apply (page_apart w v); [done|done| |]; [by intros ->|unfold in_page, PGSIZE; lia].
  - by apply NoDup_cons.
  - by apply Forall_cons.
Qed.

(** The pages of a range. *)
Definition pages (p : Z) (n : nat) : list Z := (λ i, p + Z.of_nat i * PGSIZE) <$> seq 0 n.

Lemma pages_cons p n : pages p (S n) = p :: pages (p + PGSIZE) n.
Proof.
  unfold pages. cbn [seq fmap list_fmap]. f_equal; [lia|]. rewrite <- fmap_S_seq, <- list_fmap_compose.
  apply list_fmap_ext. intros _ i _. simpl. lia.
Qed.

Lemma pages_in p n v : v ∈ pages p n ↔ ∃ i, (i < n)%nat ∧ v = p + Z.of_nat i * PGSIZE.
Proof.
  unfold pages. rewrite list_elem_of_fmap. split.
  - intros (i & -> & ?%elem_of_seq). exists i. split; [lia|done].
  - intros (i & ? & ->). exists i. split; [done|]. apply elem_of_seq. lia.
Qed.

Lemma freerange_loop_wp n k s l p vend : kmem_rep s l → p mod PGSIZE = 0 →
  (n = 0%nat ∨ p + Z.of_nat n * PGSIZE ≤ vend) → vend < p + (Z.of_nat n + 1) * PGSIZE → (n ≤ k)%nat →
  kend ≤ p → vend ≤ KERNBASE + PHYSTOP → (∀ v, v ∈ l → v ∉ pages p n) →
  wp (freerange_loop k p vend) s (λ _ s', kmem_rep s' (reverse (pages p n) ++ l) ∧
    km_use_lock s' = km_use_lock s ∧
    (∀ x, x < p ∨ p + Z.of_nat n * PGSIZE ≤ x → km_mem s' x = km_mem s x)).
Proof.
  revert k s l p. induction n as [|n IH]; intros k s l p Hr Hal Hn Hn' Hk Hp Hv Hd.
  - assert (freerange_loop k p vend = mret tt) as ->.
    { destruct k; cbn [freerange_loop]; by rewrite (proj2 (Z.leb_gt _ _)) by lia. }
    by rewrite wp_ret.
  - destruct k as [|k]; [lia|]. cbn [freerange_loop]. unfold PGSIZE in Hn, Hn'.
    rewrite (proj2 (Z.leb_le _ _)) by (unfold PGSIZE; lia). rewrite wp_bind.
    assert (page_ok p) as Hok by (split; [done|unfold PGSIZE in *; lia]).
    assert (p ∉ l) as Hpl. { intros Hin. apply (Hd p Hin). rewrite pages_cons. by left. }
    wpa (kfree_wp s l p); [done..|]. intros _ s1 (Hr1 & Hl1 & Hm1).
    wpa (IH k s1 (p :: l) (p + PGSIZE)); [done| |unfold PGSIZE; lia|unfold PGSIZE; lia|lia|unfold PGSIZE; lia|done| |].
    { rewrite <- Hal. unfold PGSIZE. rewrite <- (Z.mod_add p 1 4096) by lia. f_equal. }
    { intros v [->|Hin]%elem_of_cons.
      - rewrite pages_in. intros (i & ? & E). unfold PGSIZE in E. lia.
      - intros Hin'. apply (Hd v Hin). rewrite pages_cons. by right. }
    intros _ s2 (Hr2 & Hl2 & Hm2). split_and!; [|congruence|].
    + by rewrite pages_cons, reverse_cons, <- (assoc_L (++)).
    + intros x Hx. rewrite Hm2, Hm1; [done|unfold in_page, PGSIZE in *; lia|unfold PGSIZE in *; lia].
Qed.

(** ** An abstract allocator

    A stack of free pages and the set of pages handed out. *)

Inductive kop := KAlloc | KFree (v : Z).

Definition kop_run (o : kop) : kM kmem Z :=
  match o with
  | KAlloc => kalloc
  | KFree v => _ ← kfree v; mret 0
  end.

Fixpoint kops_run (os : list kop) : kM kmem (list Z) :=
  match os with
  | [] => mret []
  | o :: os' => r ← kop_run o; rs ← kops_run os'; mret (r :: rs)
  end.

(** Only pages that are out may be freed. *)
Definition kop_spec (o : kop) (free out : list Z) : option (Z * list Z * list Z) :=
  match o, free with
  | KAlloc, [] => Some (0, [], out)
  | KAlloc, v :: free' => Some (v, free', v :: out)
  | KFree v, _ => if decide (v ∈ out) then Some (0, v :: free, filter (.≠ v) out) else None
  end.

Fixpoint kops_spec (os : list kop) (free out : list Z) : option (list Z * list Z * list Z) :=
  match os with
  | [] => Some ([], free, out)
  | o :: os' =>
      '(r, free', out') ← kop_spec o free out;
      '(rs, free'', out'') ← kops_spec os' free' out';
      Some (r :: rs, free'', out'')
  end.

Lemma kop_refines o s free out r free' out' : kmem_rep s free → Forall page_ok out →
  (∀ v, v ∈ free → v ∉ out) → kop_spec o free out = Some (r, free', out') →
  wp (kop_run o) s (λ r' s', r' = r ∧ kmem_rep s' free' ∧ Forall page_ok out' ∧
    (∀ v, v ∈ free' → v ∉ out') ∧
    (∀ v x, v ∈ out → v ∈ out' → in_page v x → km_mem s' x = km_mem s x)).
Proof.
  intros Hr Ho Hd Hs. destruct o as [|v]; simpl in *.
  - destruct free as [|v free]; simplify_eq; (wpa (kalloc_wp s); [done|]); intros r0 s'.
    + intros [-> ->]. done.
    + intros (-> & Hr' & Hm). rewrite Hm. pose proof (kr_pages _ _ Hr) as [Hv _]%Forall_cons.
      pose proof (kr_nodup _ _ Hr) as [Hv' _]%NoDup_cons. split_and!; [done|done|by constructor| |done].
      intros w Hw [->|Hwo]%elem_of_cons; [done|]. apply (Hd w); [by right|done].
  - case_decide as Hv; simplify_eq. rewrite wp_bind.
    rewrite Forall_forall in Ho. wpa (kfree_wp s free v); [done|by apply Ho|by intros ?%Hd|].
    intros _ s' (Hr' & _ & Hm). rewrite wp_ret. split_and!; [done|done| | |].
    + apply Forall_forall. intros w [_ Hw]%list_elem_of_filter. by apply Ho.
    + intros w [->|Hw]%elem_of_cons [Hwv Hwo]%list_elem_of_filter; [done|]. by apply (Hd w).
    + intros w x Hw [Hwv _]%list_elem_of_filter Hx. apply Hm.
      apply (page_apart w v); [apply Ho, Hw|apply Ho, Hv|done|done].
Qed.
End kalloc.

(** C17. The free list threaded through memory implements a stack of pages:
    for every sequence of [kalloc] and [kfree] calls in which only allocated
    pages are freed, the results of the calls and the final free list are
    those of the abstract stack; [kalloc] returns 0 exactly when the stack is
    empty, and never a page that is already out. *)
Theorem kalloc_refines_stack kend os s free out rs free' out' : KERNBASE ≤ kend →
  kmem_rep kend s free → Forall (page_ok kend) out → (∀ v, v ∈ free → v ∉ out) →
  kops_spec os free out = Some (rs, free', out') →
  wp (kops_run kend os) s (λ rs' s', rs' = rs ∧ kmem_rep kend s' free' ∧
    Forall (page_ok kend) out' ∧ (∀ v, v ∈ free' → v ∉ out')).
Proof.
  intros Hend. revert s free out rs. induction os as [|o os IH]; intros s free out rs Hr Ho Hd Hs; simpl in *.
  - simplify_eq. by rewrite wp_ret.
  - destruct (kop_spec o free out) as [[[r f1] o1]|] eqn:E1; simplify_eq/=.
    destruct (kops_spec os f1 o1) as [[[rs1 f2] o2]|] eqn:E2; simplify_eq/=.
    rewrite wp_bind. wpa (kop_refines kend Hend o s free out); [done..|].
    intros r' s1 (-> & Hr1 & Ho1 & Hd1 & _). rewrite wp_bind. wpa IH; [done..|].
    intros rs' s2 (-> & ? & ? & ?). by rewrite wp_ret.
Qed.

Lemma PGROUNDDOWN_eq a : PGROUNDDOWN a = a - a mod PGSIZE.
Proof.
  unfold PGROUNDDOWN. change (PGSIZE - 1) with (Z.ones 12). rewrite <- Z.ldiff_land.
  rewrite Z.ldiff_ones_r, Z.shiftl_mul_pow2, Z.shiftr_div_pow2 by lia.
  change (2 ^ 12) with PGSIZE. pose proof (Z.div_mod a PGSIZE ltac:(unfold PGSIZE; lia)). lia.
Qed.

Lemma PGROUNDUP_eq a : 0 ≤ a → a + PGSIZE ≤ 2 ^ 32 →
  PGROUNDUP a mod PGSIZE = 0 ∧ a ≤ PGROUNDUP a < a + PGSIZE.
Proof.
  intros Ha Hb. unfold PGROUNDUP. rewrite u32_small by (unfold PGSIZE in *; lia).
  fold (PGROUNDDOWN (a + PGSIZE - 1)). rewrite PGROUNDDOWN_eq. unfold PGSIZE in *.
  Z.div_mod_to_equations. lia.
Qed.

(** Initialisation: [kinit1] puts every whole page of the range on the
    free list, each once, and touches no other memory. *)
Theorem kinit1_frees_range kend s vstart vend : KERNBASE ≤ kend → kend ≤ vstart ≤ vend →
  vend ≤ KERNBASE + PHYSTOP → km_freelist s = 0 →
  wp (kinit1 kend vstart vend) s (λ _ s', ∃ l, kmem_rep kend s' l ∧ km_use_lock s' = 0 ∧
    (∀ v, v ∈ l ↔ v mod PGSIZE = 0 ∧ vstart ≤ v ∧ v + PGSIZE ≤ vend) ∧
    (∀ x, x < vstart ∨ vend ≤ x → km_mem s' x = km_mem s x)).
Proof.
  intros Hend Hs Hv Hf. unfold kinit1, freerange. rewrite wp_bind, wp_modify.
  set (p := PGROUNDUP vstart).
  destruct (PGROUNDUP_eq vstart) as [Hal Hp]; [unfold KERNBASE in *; lia|unfold PGSIZE, KERNBASE, PHYSTOP in *; lia|].
  fold p in Hal, Hp. set (n := Z.to_nat ((vend - p) / PGSIZE)).
  assert (kmem_rep kend (set_use_lock 0 s) []) as Hr by (constructor; [done|apply NoDup_nil_2|done]).
  pose proof (Z.div_mod (vend - p) PGSIZE ltac:(unfold PGSIZE; lia)).
  pose proof (Z.mod_pos_bound (vend - p) PGSIZE ltac:(unfold PGSIZE; lia)).
  wpa (freerange_loop_wp kend Hend n _ _ [] p vend Hr Hal).
  { destruct (Z.le_gt_cases 0 ((vend - p) / PGSIZE)); [right|left; lia]. unfold n, PGSIZE in *. lia. }
  { unfold n, PGSIZE in *. lia. }
  { unfold n, PGSIZE in *. rewrite <- (Z2Nat.id (vend / 4096)) by (apply Z.div_pos; unfold KERNBASE in *; lia).
    pose proof (Z.div_le_mono (vend - p) vend 4096 ltac:(lia) ltac:(unfold KERNBASE in *; lia)). lia. }
  { lia. } { done. } { by intros v ?%elem_of_nil. }
  intros _ s' (Hr' & Hl & Hm). exists (reverse (pages p n) ++ []). split_and!; [done|done| |].
  - intros v. rewrite app_nil_r, elem_of_reverse, pages_in. split.
    + intros (i & Hi & ->). rewrite Z.mod_add, Hal by (unfold PGSIZE; lia). unfold n, PGSIZE in *. lia.
    + intros (Hv1 & Hv2 & Hv3). exists (Z.to_nat ((v - p) / PGSIZE)). unfold n, PGSIZE in *.
      Z.div_mod_to_equations. lia.
  - intros x Hx. apply Hm. unfold n, PGSIZE in *. lia.
Qed.

Lemma kinit1_frees_range_witness :
  wp (kinit1 KERNLINK (KERNLINK + 1) (KERNLINK + 3 * PGSIZE)) (mkKmem 7 0 (λ _, 0)) (λ _ s',
    ∃ l, kmem_rep KERNLINK s' l ∧ KERNLINK + PGSIZE ∈ l ∧ KERNLINK ∉ l).
Proof.
  eapply wp_mono.
  - apply (kinit1_frees_range KERNLINK (mkKmem 7 0 (λ _, 0))); vm_compute; intuition congruence.
  - intros _ s' (l & Hr & _ & Hl & _). exists l. split; [exact Hr|].
    split; [apply Hl; vm_compute; intuition congruence|]. intros (_ & H & _)%Hl. revert H. vm_compute. congruence.
Defined.

Lemma kalloc_refines_stack_witness :
  let s := mkKmem 0 0 (λ _, 0) in let p := KERNLINK in
  wp (kops_run KERNLINK [KFree p; KFree (p + PGSIZE); KAlloc; KAlloc; KAlloc]) s
    (λ rs s', rs = [0; 0; p + PGSIZE; p; 0] ∧ kmem_rep KERNLINK s' []).
Proof.
  intros s p. eapply wp_mono.
  - apply (kalloc_refines_stack KERNLINK _ s [] [p; p + PGSIZE] [0; 0; p + PGSIZE; p; 0] [] [p; p + PGSIZE]).
    + vm_compute. congruence.
    + constructor; [reflexivity|apply NoDup_nil_2|constructor].
    + repeat constructor; vm_compute; congruence.
    + by intros v ?%elem_of_nil.
    + vm_compute. reflexivity.
  - intros rs s' (-> & Hr & _). split; [reflexivity|exact Hr].
Defined.
End Kalloc.
