(* ===== verification/Mp.v ===== *)
(** * The multiprocessor tables (mp.c, mp.h)

    The search for the tables that the BIOS leaves in memory, and the scan of
    their entries, over the bytes of kernel memory.  The two port accesses at
    the end of mpinit are recorded; the value that the port yields is a
    parameter. *)

From stdpp Require Import base numbers option list strings.
From Stdlib Require Import ZArith Lia ZifyBool.
From S2P Require Import Prelude CString Kalloc.
Local Open Scope Z_scope.

Module Mp.
Import Kalloc.

Definition NCPU : nat := 8.
Definition MPBOOT : Z := 2.
Definition MPPROC : Z := 0.
Definition MPBUS : Z := 1.
Definition MPIOAPIC : Z := 2.
Definition MPIOINTR : Z := 3.
Definition MPLINTR : Z := 4.

(** Sizes of the structures of mp.h. *)
Definition sizeof_mp : Z := 16.
Definition sizeof_mpconf : Z := 44.
Definition sizeof_mpproc : Z := 20.
Definition sizeof_mpioapic : Z := 8.

Definition load16 (m : CString.mem) (a : Z) : Z := m a + 2 ^ 8 * m (a + 1).

(** The fields that are read. *)
Definition mp_physaddr (m : CString.mem) (p : Z) : Z := load32 m (p + 4).
Definition mp_imcrp (m : CString.mem) (p : Z) : Z := m (p + 12).
Definition conf_length (m : CString.mem) (p : Z) : Z := load16 m (p + 4).
Definition conf_version (m : CString.mem) (p : Z) : Z := m (p + 6).
Definition conf_lapicaddr (m : CString.mem) (p : Z) : Z := load32 m (p + 36).

(** [int sum], returned as [uchar]. *)
Fixpoint sum_loop (m : CString.mem) (n : nat) (a s : Z) : Z :=
  match n with O => s | S n' => sum_loop m n' (a + 1) (s + m a) end.
Definition sum (m : CString.mem) (a len : Z) : Z := u8 (sum_loop m (Z.to_nat len) a 0).

(** [memcmp(p, sig, 4) == 0]. *)
Definition signed_with (m : CString.mem) (p : Z) (sig : list Z) : bool :=
  bool_decide (map (λ i, m (p + Z.of_nat i)) (seq 0 (length sig)) = sig).

(** "_MP_" and "PCMP". *)
Definition MP_SIG : list Z := [95; 77; 80; 95].
Definition PCMP_SIG : list Z := [80; 67; 77; 80].

(** The loop of mpsearch1 over [n] structures. *)
Fixpoint search (m : CString.mem) (n : nat) (p e : Z) : option Z :=
  match n with
  | O => None
  | S n' =>
      if p <? e then
        if signed_with m p MP_SIG && (sum m p sizeof_mp =? 0) then Some p else search m n' (p + sizeof_mp) e
      else None
  end.
Definition mpsearch1 (m : CString.mem) (a len : Z) : option Z :=
  let addr := p2v a in search m (Z.to_nat (len / sizeof_mp + 1)) addr (addr + len).

Definition mpsearch (m : CString.mem) : option Z :=
  let bda := p2v 0x400 in
  let p := Z.shiftl (Z.lor (Z.shiftl (m (bda + 0x0F)) 8) (m (bda + 0x0E))) 4 in
  let first :=
    if negb (p =? 0) then mpsearch1 m p 1024
    else mpsearch1 m (Z.lor (Z.shiftl (m (bda + 0x14)) 8) (m (bda + 0x13)) * 1024 - 1024) 1024 in
  match first with Some mp => Some mp | None => mpsearch1 m 0xF0000 0x10000 end.

(** The floating pointer and the table. *)
Definition mpconfig (m : CString.mem) : option (Z * Z) :=
  match mpsearch m with
  | None => None
  | Some mp =>
      if mp_physaddr m mp =? 0 then None
      else
        let conf := p2v (mp_physaddr m mp) in
        if negb (signed_with m conf PCMP_SIG) then None
        else if negb (conf_version m conf =? 1) && negb (conf_version m conf =? 4) then None
        else if negb (sum m conf (conf_length m conf) =? 0) then None
        else Some (mp, conf)
  end.

(** [bcpu] is an index into [cpus], of which only the ids matter here. *)
Record mpstate := mkMp { bcpu : Z; ismp : bool; ncpu : Z; ioapicid : Z; lapic : Z; cpu_ids : list Z; ports : list (Z * Z) }.

(** A store past the end of [cpus] destroys other variables: nothing is said of
    what follows. *)
Inductive mpresult := MpDone (s : mpstate) | MpOverrun | MpLoops.

(** The scan of the entries from [p] to [e]; [fuel] bounds the number of rounds. *)
Fixpoint mp_entries (fuel : nat) (m : CString.mem) (p e : Z) (s : mpstate) : mpresult :=
  if p <? e then
    match fuel with
    | O => MpLoops
    | S fuel' =>
        if m p =? MPPROC then
          let s := if negb (ncpu s =? m (p + 1)) then mkMp (bcpu s) false (ncpu s) (ioapicid s) (lapic s) (cpu_ids s) (ports s) else s in
          let b := if flag (m (p + 3)) MPBOOT then ncpu s else bcpu s in
          if ncpu s <? Z.of_nat (length (cpu_ids s)) then
            mp_entries fuel' m (p + sizeof_mpproc) e
              (mkMp b (ismp s) (ncpu s + 1) (ioapicid s) (lapic s) (<[Z.to_nat (ncpu s) := u8 (ncpu s)]> (cpu_ids s)) (ports s))
          else MpOverrun
        else if m p =? MPIOAPIC then
          mp_entries fuel' m (p + sizeof_mpioapic) e
            (mkMp (bcpu s) (ismp s) (ncpu s) (m (p + 1)) (lapic s) (cpu_ids s) (ports s))
        else if (m p =? MPBUS) || (m p =? MPIOINTR) || (m p =? MPLINTR) then mp_entries fuel' m (p + 8) e s
        else mp_entries fuel' m p e (mkMp (bcpu s) false (ncpu s) (ioapicid s) (lapic s) (cpu_ids s) (ports s))
    end
  else MpDone s.

(** [imcr] is what inb(0x23) yields. *)
Definition mpinit (fuel : nat) (imcr : Z) (m : CString.mem) (s : mpstate) : mpresult :=
  let s := mkMp 0 (ismp s) (ncpu s) (ioapicid s) (lapic s) (cpu_ids s) (ports s) in
  match mpconfig m with
  | None => MpDone s
  | Some (mp, conf) =>
      let s := mkMp (bcpu s) true (ncpu s) (ioapicid s) (conf_lapicaddr m conf) (cpu_ids s) (ports s) in
      match mp_entries fuel m (conf + sizeof_mpconf) (conf + conf_length m conf) s with
      | MpDone s =>
          if negb (ismp s) then MpDone (mkMp (bcpu s) false 1 0 0 (cpu_ids s) (ports s))
          else if negb (mp_imcrp m mp =? 0) then
            MpDone (mkMp (bcpu s) (ismp s) (ncpu s) (ioapicid s) (lapic s) (cpu_ids s)
              (ports s ++ [(0x22, 0x70); (0x23, Z.lor imcr 1)]))
          else MpDone s
      | r => r
      end
  end.

(** ** The search *)

Definition valid_mp (m : CString.mem) (p : Z) : bool := signed_with m p MP_SIG && (sum m p sizeof_mp =? 0).

Lemma search_spec m n : ∀ p e r, (e - p) / sizeof_mp < Z.of_nat n → search m n p e = r →
  match r with
  | Some q => ∃ k, 0 ≤ k ∧ q = p + k * sizeof_mp ∧ q < e ∧ valid_mp m q = true ∧
                   ∀ j, 0 ≤ j < k → valid_mp m (p + j * sizeof_mp) = false
  | None => ∀ j, 0 ≤ j → p + j * sizeof_mp < e → valid_mp m (p + j * sizeof_mp) = false
  end.
Proof.
  unfold sizeof_mp. induction n as [|n IH]; intros p e r Hn; cbn [search].
  { intros <- j Hj He. assert (0 ≤ (e - p) / 16) by (apply Z.div_pos; lia). lia. }
  destruct (p <? e) eqn:Ep; [|intros <- j Hj He; lia]. fold (valid_mp m p). destruct (valid_mp m p) eqn:Ev.
  { intros <-. exists 0. rewrite Z.mul_0_l, Z.add_0_r. split_and!; done || lia. }
  intros Hr. assert ((e - (p + 16)) / 16 < Z.of_nat n) as Hn'.
  { replace (e - p) with (e - (p + 16) + 1 * 16) in Hn by lia. rewrite Z.div_add in Hn by lia. lia. }
  specialize (IH (p + 16) e r Hn' Hr). destruct r as [q|].
  - destruct IH as (k & Hk & -> & He & Hv & Hj). exists (k + 1). split_and!; [lia|lia|done|done|]. intros j Hjk.
    destruct (decide (j = 0)) as [->|]; [by rewrite Z.mul_0_l, Z.add_0_r|].
    replace (p + j * 16) with (p + 16 + (j - 1) * 16) by lia. apply Hj. lia.
  - intros j Hj He. destruct (decide (j = 0)) as [->|]; [by rewrite Z.mul_0_l, Z.add_0_r|].
    replace (p + j * 16) with (p + 16 + (j - 1) * 16) by lia. apply IH; lia.
Qed.

(** ** The entries *)

Inductive entry :=
| Processor (apicid flags : Z) | IoApic (apicno : Z) | Other (type : Z).

Definition entry_size (x : entry) : Z := match x with Processor _ _ => 20 | _ => 8 end.
Definition table_size (l : list entry) : Z := foldr (λ x n, entry_size x + n) 0 l.

(** The bytes at [p] hold the entry. *)
Definition holds (m : CString.mem) (p : Z) (x : entry) : Prop :=
  match x with
  | Processor a f => m p = MPPROC ∧ m (p + 1) = a ∧ m (p + 3) = f
  | IoApic a => m p = MPIOAPIC ∧ m (p + 1) = a
  | Other t => m p = t ∧ (t = MPBUS ∨ t = MPIOINTR ∨ t = MPLINTR)
  end.
Fixpoint holds_all (m : CString.mem) (p : Z) (l : list entry) : Prop :=
  match l with [] => True | x :: l => holds m p x ∧ holds_all m (p + entry_size x) l end.

(** What the table says: the number of processors, whether their ids are 0, 1,
    2 and so on, the boot processor and the I/O interrupt controller. *)
Definition read_entry (s : mpstate) (x : entry) : mpstate :=
  match x with
  | Processor a f =>
      mkMp (if flag f MPBOOT then ncpu s else bcpu s) (ismp s && (ncpu s =? a)) (ncpu s + 1) (ioapicid s) (lapic s)
        (<[Z.to_nat (ncpu s) := u8 (ncpu s)]> (cpu_ids s)) (ports s)
  | IoApic a => mkMp (bcpu s) (ismp s) (ncpu s) a (lapic s) (cpu_ids s) (ports s)
  | Other _ => s
  end.

Definition processors (l : list entry) : Z := foldr (λ x n, match x with Processor _ _ => 1 + n | _ => n end) 0 l.

Lemma mp_entries_spec m l : ∀ fuel p s, holds_all m p l → (length l <= fuel)%nat →
  ncpu s + processors l ≤ Z.of_nat (length (cpu_ids s)) →
  mp_entries fuel m p (p + table_size l) s = MpDone (foldl read_entry s l).
Proof.
  induction l as [|x l IH]; intros fuel p s Hh Hf Hn.
  { cbn [table_size foldr foldl]. destruct fuel; simpl; by replace (p <? p + 0) with false by lia. }
  assert (0 ≤ table_size l) as Ht by (clear; induction l as [|y l IH]; simpl; [lia|]; destruct y; simpl; lia).
  assert (0 ≤ processors l) as Hp by (clear; induction l as [|y l IH]; simpl; [lia|]; destruct y; lia).
  destruct fuel as [|fuel]; simpl in Hf; [lia|]. destruct Hh as [Hx Hh]. cbn [table_size foldr] in *. fold (table_size l) in *.
  cbn [mp_entries]. replace (p <? _) with true by (destruct x; simpl; lia).
  replace (p + (entry_size x + table_size l)) with (p + entry_size x + table_size l) by lia. cbn [foldl].
  destruct x as [a f|a|t]; cbn [holds entry_size read_entry processors foldr] in *; fold (processors l) in *.
  - destruct Hx as (-> & -> & ->). change (MPPROC =? MPPROC) with true. cbn iota. unfold sizeof_mpproc.
    destruct (ncpu s =? a) eqn:E; cbn [negb ncpu cpu_ids]; replace (ncpu s <? _) with true by lia;
      (rewrite IH by (cbn [ncpu cpu_ids]; rewrite ?length_insert; done || lia)); cbn [bcpu ismp ioapicid lapic ports];
      by rewrite ?andb_true_r, ?andb_false_r.
  - destruct Hx as (-> & ->). change (MPIOAPIC =? MPPROC) with false. change (MPIOAPIC =? MPIOAPIC) with true. cbn iota.
    unfold sizeof_mpioapic. by rewrite IH by (done || lia).
  - destruct Hx as (-> & [->|[->| ->]]); simpl; by rewrite IH by (done || lia).
Qed.

(** The ids of the processors of the table. *)
Definition apicids (l : list entry) : list Z := omap (λ x, match x with Processor a _ => Some a | _ => None end) l.

Lemma processors_length l : processors l = Z.of_nat (length (apicids l)).
Proof. induction l as [|x l IH]; [done|]. destruct x; simpl in *; rewrite IH; lia. Qed.

Lemma read_entries l : ∀ s, let s' := foldl read_entry s l in
  ncpu s' = ncpu s + processors l ∧ lapic s' = lapic s ∧ ports s' = ports s ∧
  (ismp s' = true ↔ ismp s = true ∧ apicids l = seqZ (ncpu s) (processors l)) ∧
  length (cpu_ids s') = length (cpu_ids s) ∧
  (0 ≤ ncpu s → ∀ i, (i < length (cpu_ids s))%nat → cpu_ids s' !!! i =
    if (ncpu s <=? Z.of_nat i) && (Z.of_nat i <? ncpu s + processors l) then u8 (Z.of_nat i) else cpu_ids s !!! i).
Proof.
  induction l as [|x l IH]; intros s; cbn [foldl].
  { simpl. rewrite Z.add_0_r, seqZ_nil by lia. split_and!; try done; [tauto|]. intros _ i Hi.
    by replace ((ncpu s <=? Z.of_nat i) && (Z.of_nat i <? ncpu s)) with false by lia. }
  specialize (IH (read_entry s x)). simpl in IH. destruct IH as (H1 & H2 & H3 & H4 & H5 & H6).
  assert (0 ≤ processors l) by (rewrite processors_length; lia).
  destruct x as [a f|a|ty]; cbn [read_entry ncpu lapic ports ismp cpu_ids] in *; [|split_and!; try done; tauto..].
  change (processors (Processor a f :: l)) with (1 + processors l). change (apicids (Processor a f :: l)) with (a :: apicids l).
  rewrite seqZ_cons by lia. replace (Z.succ (ncpu s)) with (ncpu s + 1) by lia. replace (Z.pred (1 + processors l)) with (processors l) by lia.
  split_and!; [lia|done|done| |by rewrite H5, length_insert|].
  - rewrite H4, andb_true_iff, Z.eqb_eq. split; [intros [[? ->] ->]; done|intros [? [= -> ->]]; done].
  - intros Hn i Hi. rewrite H6 by (rewrite ?length_insert; lia). destruct (decide (i = Z.to_nat (ncpu s))) as [->|Hne].
    + rewrite list_lookup_total_insert_eq by done. rewrite Z2Nat.id by lia.
      replace ((ncpu s + 1 <=? ncpu s) && _) with false by lia. by replace ((_ <=? _) && _) with true by lia.
    + rewrite list_lookup_total_insert_ne by done.
      by replace ((ncpu s + 1 <=? Z.of_nat i) && (Z.of_nat i <? ncpu s + 1 + processors l))
        with ((ncpu s <=? Z.of_nat i) && (Z.of_nat i <? ncpu s + (1 + processors l))) by lia.
Qed.

(** C34. The scan of a table with at most NCPU = 8 processors ends, and finds what
    the table says: if the processors are numbered in order, all of them, and
    the local interrupt controller; otherwise the kernel falls back to one
    processor.  (Nothing in mpinit checks the bound: a larger table makes it
    write past cpus[].) *)
Theorem mpinit_reads_table (m : CString.mem) (imcr mp conf : Z) (l : list entry) (s : mpstate) (fuel : nat) :
  mpconfig m = Some (mp, conf) → holds_all m (conf + sizeof_mpconf) l →
  conf_length m conf = sizeof_mpconf + table_size l → processors l ≤ Z.of_nat NCPU →
  ncpu s = 0 → length (cpu_ids s) = NCPU → (length l <= fuel)%nat →
  ∃ s', mpinit fuel imcr m s = MpDone s' ∧ length (cpu_ids s') = NCPU ∧
    if decide (apicids l = seqZ 0 (processors l)) then
      ismp s' = true ∧ ncpu s' = processors l ∧ lapic s' = conf_lapicaddr m conf ∧
      ∀ i, Z.of_nat i < processors l → cpu_ids s' !!! i = Z.of_nat i
    else ismp s' = false ∧ ncpu s' = 1 ∧ lapic s' = 0 ∧ ioapicid s' = 0.
Proof.
  intros Hc Hh Hl Hp Hn Hids Hf. unfold mpinit. rewrite Hc, Hl. cbn [bcpu ismp ncpu ioapicid cpu_ids ports].
  replace (conf + (sizeof_mpconf + table_size l)) with (conf + sizeof_mpconf + table_size l) by lia.
  rewrite mp_entries_spec by (cbn [ncpu cpu_ids]; rewrite ?Hids; done || lia).
  set (s0 := mkMp _ _ _ _ _ _ _). destruct (read_entries l s0) as (H1 & H2 & _ & H4 & H5 & H6).
  cbn [s0 ncpu lapic ismp cpu_ids] in *. rewrite Hn in *. set (s1 := foldl read_entry s0 l) in *.
  assert (length (cpu_ids s1) = NCPU) as Hlen by (by rewrite H5).
  destruct (decide _) as [E|E]; destruct (ismp s1) eqn:Ei; cbn [negb];
    [|by exfalso; apply diff_false_true, H4|by exfalso; apply E, H4|].
  - assert (∀ i, Z.of_nat i < processors l → cpu_ids s1 !!! i = Z.of_nat i) as Hi.
    { intros i Hi. rewrite H6 by (rewrite ?Hids; lia). replace ((_ <=? _) && _) with true by lia. apply u8_small.
      unfold NCPU in *. lia. }
    destruct (mp_imcrp m mp =? 0); cbn [negb]; eexists; (split; [done|]); done.
  - eexists. split; [done|]. done.
Qed.

(** The tables of a machine with two processors, the first of which boots. *)
Definition two_cpus : CString.mem := λ a,
  let rom := MP_SIG ++ [0; 16; 0; 0; 1; 4; 144; 0; 0; 0; 0; 0] in
  let table := PCMP_SIG ++ [92; 0; 4; 134] ++ replicate 28 0 ++ [0; 0; 0xe0; 0xfe] ++ replicate 4 0 ++
    [0; 0; 0; 2] ++ replicate 16 0 ++ [0; 1; 0; 0] ++ replicate 16 0 ++ [2; 7; 0; 0; 0; 0; 0; 0] in
  if p2v 0xF0000 <=? a then nth (Z.to_nat (a - p2v 0xF0000)) rom 0
  else if p2v 0x1000 <=? a then nth (Z.to_nat (a - p2v 0x1000)) table 0
  else 0.

Lemma mpinit_reads_table_witness :
  let s := mkMp 0 false 0 0 0 (replicate NCPU 0) [] in
  ∃ s', mpinit 3 0 two_cpus s = MpDone s' ∧ length (cpu_ids s') = NCPU ∧
    (ismp s' = true ∧ ncpu s' = 2 ∧ lapic s' = 0xfee00000 ∧ ∀ i, Z.of_nat i < 2 → cpu_ids s' !!! i = Z.of_nat i).
Proof.
  apply (mpinit_reads_table two_cpus 0 (p2v 0xF0000) (p2v 0x1000) [Processor 0 2; Processor 1 0; IoApic 7]);
    vm_compute; done || lia || by repeat split.
Defined.

(** An entry of another type is reported, but the scan does not go past it: it
    never ends. *)
Theorem mpinit_stuck_on_unknown_entry (fuel : nat) (m : CString.mem) (p e : Z) (s : mpstate) :
  p < e → 4 < m p → mp_entries fuel m p e s = MpLoops.
Proof.
  intros Hp Hm. revert s. induction fuel as [|fuel IH]; intros s; cbn [mp_entries]; replace (p <? e) with true by lia; [done|].
  unfold MPPROC, MPIOAPIC, MPBUS, MPIOINTR, MPLINTR. replace (m p =? 0) with false by lia. replace (m p =? 2) with false by lia.
  replace (_ || _ || _) with false by lia. apply IH.
Qed.
End Mp.
