(* ===== verification/Spinlock.v ===== *)
(** * Spin locks (spinlock.c)

    A lock shared by several processors.  The functions are given as the
    atomic actions they are made of, and the processors interleave them. *)

From stdpp Require Import base numbers option list relations strings.
From Stdlib Require Import ZArith Lia ZifyBool.
From S2P Require Import Prelude CString Kalloc.
Local Open Scope Z_scope.

Module Spinlock.

Definition FL_IF : Z := 512.

(** The part of [struct cpu] the locks use, and the interrupt flag of EFLAGS. *)
Record cpu := mkCpu { c_ncli : Z; c_intena : Z; c_if : bool }.

Record spinlock := mkLock {
  lk_locked : Z;
  lk_cpu : option nat;            (** null or the processor *)
  lk_pcs : list Z
}.

Definition readeflags (c : cpu) : Z := if c_if c then FL_IF else 0.

(** ** pushcli and popcli *)

Definition pushcli : kM cpu unit :=
  c ← kget;
  let eflags := readeflags c in
  _ ← modify (λ c, mkCpu (c_ncli c) (c_intena c) false);
  n ← gets c_ncli;
  _ ← modify (λ c, mkCpu (c_ncli c + 1) (c_intena c) (c_if c));
  kif (n =? 0) (modify (λ c, mkCpu (c_ncli c) (Z.land eflags FL_IF) (c_if c))).

Definition popcli : kM cpu unit :=
  c ← kget;
  if negb (Z.land (readeflags c) FL_IF =? 0) then panic "popcli - interruptible"
  else
    _ ← modify (λ c, mkCpu (c_ncli c - 1) (c_intena c) (c_if c));
    c ← kget;
    if c_ncli c <? 0 then panic "popcli"
    else kif ((c_ncli c =? 0) && negb (c_intena c =? 0))
           (modify (λ c, mkCpu (c_ncli c) (c_intena c) true)).

(** ** The actions of acquire and release *)

Definition initlock : spinlock := mkLock 0 None (replicate 10 0).

Definition holding (lk : spinlock) (me : nat) : bool :=
  negb (lk_locked lk =? 0) && bool_decide (lk_cpu lk = Some me).

(** [ebp == 0 || ebp < KERNBASE || ebp == 0xffffffff] ends the walk. *)
Fixpoint callerpcs (n : nat) (m : CString.mem) (ebp : Z) : list Z :=
  match n with
  | O => []
  | S n' =>
      if (ebp =? 0) || (ebp <? Kalloc.KERNBASE) || (ebp =? 4294967295) then replicate n 0
      else Kalloc.load32 m (ebp + 4) :: callerpcs n' m (Kalloc.load32 m ebp)
  end.
Definition getcallerpcs (m : CString.mem) (v : Z) : list Z := callerpcs 10 m (v - 8).

Section lock.
(** The stack of the processor that acquires the lock. *)
Variables (stack : CString.mem) (frame : Z).

(** [xchg(&lk->locked, v)]: the old value and the new lock. *)
Definition xchg (v : Z) (lk : spinlock) : Z * spinlock :=
  (lk_locked lk, mkLock v (lk_cpu lk) (lk_pcs lk)).

(** [lk->cpu = cpu; getcallerpcs(&lk, lk->pcs)]. *)
Definition set_owner (me : nat) (lk : spinlock) : spinlock :=
  mkLock (lk_locked lk) (Some me) (getcallerpcs stack frame).

(** [lk->pcs[0] = 0; lk->cpu = 0]. *)
Definition clear_owner (lk : spinlock) : spinlock :=
  mkLock (lk_locked lk) None (<[0%nat := 0]> (lk_pcs lk)).

(** ** Processors

    Where a processor is in [acquire(lk); ... release(lk)]. *)
Inductive pc :=
| Outside
| Pushed           (** after [pushcli] of acquire *)
| Spinning         (** in the loop of acquire *)
| Won              (** its [xchg] returned 0 *)
| Inside           (** acquire has returned *)
| Cleared          (** release has cleared the owner *)
| Freed            (** release has done its [xchg] *)
| Panicked (msg : string).

(** A processor with its position, and the state it had before [acquire]. *)
Record thread := mkThread { t_cpu : cpu; t_pc : pc; t_saved : cpu }.

Record sys := mkSys { s_lock : spinlock; s_threads : list thread }.

Definition run_cli (m : kM cpu unit) (t : thread) (next : pc) : thread :=
  match m (t_cpu t) with
  | Ok _ c => mkThread c next (t_saved t)
  | Panic msg => mkThread (t_cpu t) (Panicked msg) (t_saved t)
  | Sleep _ c => mkThread c next (t_saved t)
  end.
Definition goto (p : pc) (t : thread) : thread := mkThread (t_cpu t) p (t_saved t).

(** The next action of processor [i]. *)
Definition advance (i : nat) (lk : spinlock) (t : thread) : spinlock * thread :=
  match t_pc t with
  | Outside => (lk, run_cli pushcli (mkThread (t_cpu t) Outside (t_cpu t)) Pushed)
  | Pushed => (lk, if holding lk i then goto (Panicked "acquire") t else goto Spinning t)
  | Spinning =>
      let '(old, lk') := xchg 1 lk in
      (lk', if old =? 0 then goto Won t else t)
  | Won => (set_owner i lk, goto Inside t)
  | Inside =>
      if negb (holding lk i) then (lk, goto (Panicked "release") t)
      else (clear_owner lk, goto Cleared t)
  | Cleared => ((xchg 0 lk).2, goto Freed t)
  | Freed => (lk, run_cli popcli t Outside)
  | Panicked _ => (lk, t)
  end.

Inductive step : sys → sys → Prop :=
| step_cpu lk ts i t lk' t' : ts !! i = Some t → advance i lk t = (lk', t') →
    step (mkSys lk ts) (mkSys lk' (<[i := t']> ts))
| step_irq lk ts i t b : ts !! i = Some t → t_pc t = Outside → c_ncli (t_cpu t) = 0 →
    step (mkSys lk ts)
      (mkSys lk (<[i := mkThread (mkCpu 0 (c_intena (t_cpu t)) b) Outside (t_saved t)]> ts)).

(** ** Invariant *)

Definition owns (p : pc) : bool :=
  match p with Won | Inside | Cleared => true | _ => false end.
Definition inside (p : pc) : bool := match p with Inside => true | _ => false end.

(** Interrupts are off while a [pushcli] is pending. *)
Definition cpu_ok (c : cpu) : Prop := 0 ≤ c_ncli c ∧ (0 < c_ncli c → c_if c = false).

(** The processor after [pushcli]. *)
Definition pushed (c : cpu) : cpu :=
  mkCpu (c_ncli c + 1) (if c_ncli c =? 0 then readeflags c else c_intena c) false.

Definition thread_ok (t : thread) : Prop :=
  match t_pc t with
  | Outside => cpu_ok (t_cpu t)
  | Panicked _ => False
  | _ => cpu_ok (t_saved t) ∧ t_cpu t = pushed (t_saved t)
  end.

Record lock_inv (s : sys) : Prop := mkInv {
  iv_threads : Forall thread_ok (s_threads s);
  iv_mutex i j ti tj : s_threads s !! i = Some ti → s_threads s !! j = Some tj →
    owns (t_pc ti) = true → owns (t_pc tj) = true → i = j;
  iv_free i ti : lk_locked (s_lock s) = 0 → s_threads s !! i = Some ti → owns (t_pc ti) = false;
  iv_owner i ti : s_threads s !! i = Some ti →
    lk_cpu (s_lock s) = Some i ↔ inside (t_pc ti) = true;
  iv_range i : lk_cpu (s_lock s) = Some i → (i < length (s_threads s))%nat
}.

Lemma pushcli_run c : pushcli c = Ok tt (pushed c).
Proof.
  unfold pushcli, pushed, readeflags, kif, mbind, kM_bind, kget, modify, gets. simpl.
  destruct (c_ncli c =? 0); simpl; [|done]. by destruct (c_if c).
Qed.

Lemma popcli_run c : cpu_ok c → ∃ c', popcli (pushed c) = Ok tt c' ∧ c_ncli c' = c_ncli c ∧ c_if c' = c_if c.
Proof.
  intros [H1 H2]. unfold popcli, pushed, mbind, kM_bind, kget, modify, readeflags. simpl.
  rewrite Z.add_simpl_r, (proj2 (Z.ltb_ge _ _)) by done.
  destruct (Z.eqb_spec (c_ncli c) 0) as [E|E]; unfold kif; simpl.
  - destruct (c_if c); simpl; eexists; split; done.
  - eexists. split; [done|]. simpl. split; [done|]. rewrite H2 by lia. done.
Qed.

Lemma popcli_pushed d : 0 < c_ncli d ∧ c_if d = false → popcli (pushed d) = Ok tt d.
Proof.
  intros [Hn Hi]. unfold popcli, pushed, mbind, kM_bind, kget, modify, readeflags. simpl.
  rewrite (proj2 (Z.eqb_neq (c_ncli d) 0)) by lia. simpl. rewrite Z.add_simpl_r, (proj2 (Z.ltb_ge _ _)) by lia.
  rewrite (proj2 (Z.eqb_neq (c_ncli d) 0)) by lia. unfold kif; simpl. destruct d; simpl in *. by rewrite Hi.
Qed.

(** The invariant depends on the lock and the position of each processor. *)
Lemma inv_update lk lk' ts i t t' : lock_inv (mkSys lk ts) → ts !! i = Some t → thread_ok t' →
  (owns (t_pc t') = true → owns (t_pc t) = true ∨ lk_locked lk = 0) →
  (lk_locked lk' = 0 → owns (t_pc t') = false ∧ (lk_locked lk = 0 ∨ owns (t_pc t) = true)) →
  (if inside (t_pc t') then lk_cpu lk' = Some i ∧ owns (t_pc t) = true
   else (lk_cpu lk' = lk_cpu lk ∧ inside (t_pc t) = false) ∨ (lk_cpu lk' = None ∧ inside (t_pc t) = true)) →
  lock_inv (mkSys lk' (<[i := t']> ts)).
Proof.
  intros [Ht Hm Hf Ho Hr] Hi Ht' Hown Hfree Hin. simpl in *.
  assert (i < length ts)%nat as Hlt by (by eapply lookup_lt_Some).
  assert (∀ j u, <[i := t']> ts !! j = Some u → (j = i ∧ u = t') ∨ (j ≠ i ∧ ts !! j = Some u)) as Hl.
  { intros j u [(-> & -> & _)|[? ?]]%list_lookup_insert_Some; [by left|right]. done. }
  constructor; simpl.
  - by apply Forall_insert.
  - intros j k tj tk [[-> ->]|[Hj Hj']]%Hl [[-> ->]|[Hk Hk']]%Hl Oj Ok; try done.
    + destruct (Hown Oj) as [O|O]; [by eapply Hm|]. by rewrite (Hf _ _ O Hk') in Ok.
    + destruct (Hown Ok) as [O|O]; [by eapply Hm|]. by rewrite (Hf _ _ O Hj') in Oj.
    + by eapply Hm.
  - intros j tj H0 [[-> ->]|[Hj Hj']]%Hl; [by apply Hfree|].
    destruct (Hfree H0) as [_ [?|O]]; [by eapply Hf|].
    destruct (owns (t_pc tj)) eqn:E; [|done]. exfalso. apply Hj. by eapply Hm.
  - intros j tj [[-> ->]|[Hj Hj']]%Hl.
    + destruct (inside (t_pc t')); [destruct Hin as [-> _]; done|].
      destruct Hin as [[-> E]|[-> E]]; [|done]. rewrite (Ho _ _ Hi). by rewrite E.
    + destruct (inside (t_pc t')) eqn:E'.
      * destruct Hin as [-> O]. split; [congruence|]. intros E.
        assert (owns (t_pc tj) = true) as O' by (by destruct (t_pc tj)). exfalso. apply Hj. by eapply Hm.
      * destruct Hin as [[-> E]|[-> E]]; [by apply Ho|]. split; [done|]. intros E2.
        exfalso. apply Hj. eapply (Hm j i); [done|done|by destruct (t_pc tj)|by destruct (t_pc t)].
  - intros j Hj. rewrite length_insert. destruct (inside (t_pc t')).
    + destruct Hin as [E _]. rewrite E in Hj. by simplify_eq.
    + destruct Hin as [[E _]|[E _]]; rewrite E in Hj; [by apply Hr|done].
Qed.

Lemma inv_step s s' : step s s' → lock_inv s → lock_inv s'.
Proof.
  intros Hs Hinv. destruct Hs as [lk ts i t lk' t' Hi Ha|lk ts i t b Hi Hpc Hn].
  2:{ pose proof (iv_threads _ Hinv) as Ht. simpl in Ht. rewrite Forall_lookup in Ht.
      specialize (Ht _ _ Hi). eapply inv_update; try done; unfold thread_ok; simpl; rewrite ?Hpc; auto. }
  pose proof (iv_threads _ Hinv) as Ht. simpl in Ht. rewrite Forall_lookup in Ht. specialize (Ht _ _ Hi).
  pose proof (iv_owner _ Hinv _ _ Hi) as Hown. simpl in Hown.
  pose proof (λ H, iv_free _ Hinv _ _ H Hi) as Hfree. simpl in Hfree.
  unfold advance, thread_ok in *. destruct (t_pc t) eqn:Ep; simplify_eq/=.
  - eapply inv_update; try done; rewrite ?Ep; unfold run_cli, thread_ok; simpl; rewrite pushcli_run; simpl; auto.
  - assert (holding lk' i = false) as ->.
    { unfold holding. rewrite bool_decide_false, andb_false_r; [done|]. naive_solver. }
    eapply inv_update; try done; rewrite ?Ep; unfold thread_ok; simpl; auto.
  - destruct (Z.eqb_spec (lk_locked lk) 0) as [E|E].
    + eapply inv_update; try done; rewrite ?Ep; unfold thread_ok; simpl; auto.
    + eapply inv_update; try done; rewrite ?Ep; unfold thread_ok; simpl; rewrite ?Ep; auto; lia.
  - eapply inv_update; try done; rewrite ?Ep; unfold thread_ok; simpl; auto.
  - assert (holding lk i = true) as Eh.
    { unfold holding. rewrite bool_decide_true by (by apply Hown). rewrite andb_true_r.
      apply negb_true_iff, Z.eqb_neq. intros E. by specialize (Hfree E). }
    rewrite Eh in Ha. simplify_eq/=.
    eapply inv_update; try done; rewrite ?Ep; unfold thread_ok; simpl; auto.
  - eapply inv_update; try done; rewrite ?Ep; unfold thread_ok; simpl; auto.
  - destruct Ht as [Hc Et]. destruct (popcli_run _ Hc) as (c' & Ec & E1 & E2).
    assert (run_cli popcli t Outside = mkThread c' Outside (t_saved t)) as ->.
    { unfold run_cli. by rewrite Et, Ec. }
    eapply inv_update; try done; rewrite ?Ep; unfold thread_ok; simpl; auto.
    unfold cpu_ok in *. by rewrite E1, E2.
  - done.
Qed.

Definition idle_ok (t : thread) : Prop := t_pc t = Outside ∧ cpu_ok (t_cpu t).

Lemma inv_init ts : Forall idle_ok ts → lock_inv (mkSys initlock ts).
Proof.
  rewrite Forall_lookup. intros H. constructor; simpl.
  - apply Forall_lookup. intros i t Hi. destruct (H i t Hi) as [E ?]. unfold thread_ok. by rewrite E.
  - intros i j ti tj Hi _. destruct (H i ti Hi) as [-> _]. done.
  - intros i ti _ Hi. destruct (H i ti Hi) as [-> _]. done.
  - intros i ti Hi. destruct (H i ti Hi) as [-> _]. done.
  - done.
Qed.

Lemma inv_reach s s' : rtc step s s' → lock_inv s → lock_inv s'.
Proof. induction 1; eauto using inv_step. Qed.
End lock.

(** C16. Mutual exclusion: however the processors interleave the actions of
    [acquire] and [release] on a lock, at most one of them is between its
    successful [xchg] and the [xchg] of its release; a processor whose
    [acquire] has returned holds the lock, with interrupts off; and none of
    the panics of [acquire], [release] and [popcli] is reached. *)
Theorem spinlock_mutual_exclusion stack frame ts s : Forall idle_ok ts →
  rtc (step stack frame) (mkSys initlock ts) s →
  (∀ i j ti tj, s_threads s !! i = Some ti → s_threads s !! j = Some tj →
    owns (t_pc ti) = true → owns (t_pc tj) = true → i = j) ∧
  (∀ i ti, s_threads s !! i = Some ti → t_pc ti = Inside →
    holding (s_lock s) i = true ∧ c_if (t_cpu ti) = false) ∧
  (∀ i ti msg, s_threads s !! i = Some ti → t_pc ti ≠ Panicked msg).
Proof.
  intros Hi Hr. pose proof (inv_reach _ _ _ _ Hr (inv_init _ Hi)) as [Ht Hm Hf Ho _].
  rewrite Forall_lookup in Ht. split_and!; [done|..].
  - intros i ti Hti E. specialize (Ht _ _ Hti). unfold thread_ok in Ht. rewrite E in Ht. destruct Ht as [_ ->].
    split; [|done]. unfold holding. rewrite bool_decide_true; [|apply (Ho _ _ Hti); by rewrite E].
    rewrite andb_true_r. apply negb_true_iff, Z.eqb_neq. intros E0. specialize (Hf _ _ E0 Hti). by rewrite E in Hf.
  - intros i ti msg Hti E. specialize (Ht _ _ Hti). unfold thread_ok in Ht. by rewrite E in Ht.
Qed.

(** The processors take actions in the given order. *)
Fixpoint schedule stack frame (order : list nat) (s : sys) : sys :=
  match order with
  | [] => s
  | i :: order' =>
      match s_threads s !! i with
      | Some t =>
          let '(lk, t') := advance stack frame i (s_lock s) t in
          schedule stack frame order' (mkSys lk (<[i := t']> (s_threads s)))
      | None => s
      end
  end.

Lemma schedule_steps stack frame order s : rtc (step stack frame) s (schedule stack frame order s).
Proof.
  revert s. induction order as [|i order IH]; intros [lk ts]; simpl; [done|].
  destruct (ts !! i) as [t|] eqn:E; [|done].
  destruct (advance stack frame i lk t) as [lk' t'] eqn:Ea. eapply rtc_l; [by eapply step_cpu|]. apply IH.
Qed.

Definition two_cpus : list thread :=
  replicate 2 (mkThread (mkCpu 0 0 true) Outside (mkCpu 0 0 true)).

Lemma spinlock_mutual_exclusion_witness :
  let s := schedule (λ _, 0) 0 [0; 0; 0; 1; 1; 0; 1]%nat (mkSys initlock two_cpus) in
  (t_pc <$> s_threads s) = [Inside; Spinning] ∧ holding (s_lock s) 0 = true.
Proof.
  intros s. split; [reflexivity|].
  assert (Forall idle_ok two_cpus) as Hi by (repeat constructor; simpl; lia).
  destruct (spinlock_mutual_exclusion (λ _, 0) 0 two_cpus s Hi (schedule_steps _ _ _ _)) as (_ & H & _).
  eapply (H 0%nat); reflexivity.
Defined.

(** Nested [pushcli]s. *)
Fixpoint pushes (n : nat) : kM cpu unit := match n with O => mret tt | S n' => _ ← pushcli; pushes n' end.
Fixpoint pops (n : nat) : kM cpu unit := match n with O => mret tt | S n' => _ ← popcli; pops n' end.

(** [pushcli] and [popcli] nest: after [n] [pushcli]s interrupts are off,
    and [n] [popcli]s undo them without a panic, leaving the interrupt flag
    and the nesting depth as they were. *)
Theorem cli_nesting n c : cpu_ok c →
  wp (pushes n) c (λ _ c', (0 < n → c_if c' = false)%nat ∧ c_ncli c' = c_ncli c + Z.of_nat n ∧
    wp (pops n) c' (λ _ c'', c_ncli c'' = c_ncli c ∧ c_if c'' = c_if c)).
Proof.
  intros Hc. pose proof (popcli_run c Hc) as Hpop. destruct Hc as [Hn Hif].
  assert (pushes n c = Ok tt (Nat.iter n pushed c)) as Ep.
  { clear. revert c. induction n as [|n IH]; intros c; [done|]. cbn [pushes].
    unfold mbind, kM_bind. rewrite pushcli_run, IH. by rewrite <- Nat.iter_succ_r. }
  assert (∀ k, c_ncli (Nat.iter k pushed c) = c_ncli c + Z.of_nat k) as En.
  { intros k. induction k as [|k IH]; simpl; [lia|]. rewrite IH. lia. }
  assert (∀ k, (0 < k)%nat → c_if (Nat.iter k pushed c) = false) as Ei by (by intros [|k]; simpl; [lia|]).
  unfold wp at 1. rewrite Ep. split_and!; [apply Ei|apply En|]. clear Ep.
  induction n as [|n IH]; [done|]. cbn [pops]. rewrite wp_bind.
  destruct n as [|n].
  - destruct Hpop as (c' & Ec & ? & ?). unfold wp at 1. simpl Nat.iter. by rewrite Ec.
  - unfold wp at 1. set (d := Nat.iter (S n) pushed c) in *.
    change (Nat.iter (S (S n)) pushed c) with (pushed d).
    rewrite popcli_pushed; [exact IH|]. unfold d. rewrite En, Ei by lia. split; [lia|done].
Qed.

Lemma cli_nesting_witness : wp (_ ← pushes 3; pops 3) (mkCpu 0 0 true) (λ _ c, c_ncli c = 0 ∧ c_if c = true).
Proof.
  rewrite wp_bind. eapply wp_mono; [apply (cli_nesting 3 (mkCpu 0 0 true)); split; simpl; lia|].
  intros _ c (_ & _ & H). exact H.
Defined.
End Spinlock.
