(* ===== verification/Pipe.v ===== *)
(** * Pipes (pipe.c)

    The ring buffer and its operations.  A call that sleeps ends with [Block]
    and its loop counter, and continues from there when it runs again; the
    processes that use a pipe interleave such pieces, each of which holds the
    pipe's lock. *)

From stdpp Require Import base numbers option list relations.
From Stdlib Require Import ZArith Lia ZifyBool.
From S2P Require Import Prelude.
Local Open Scope Z_scope.

Module Pipe.

Definition PIPESIZE : Z := 512.

Record pipe := mkPipe {
  p_data : list Z;
  p_nread : Z;
  p_nwrite : Z;
  p_readopen : Z;
  p_writeopen : Z
}.

(** The pipe that pipealloc makes in a page: the content of [data] is what the
    page held. *)
Definition pipe_init (data : list Z) : pipe := mkPipe data 0 0 1 1.

(** The channels [&p->nread] and [&p->nwrite]. *)
Inductive pchan := NRead | NWrite.
#[export] Instance pchan_eq_dec : EqDecision pchan.
Proof. solve_decision. Defined.

Inductive result := Return (r : Z) | Block (c : pchan).

(** ** Operations *)

(** [p->data[p->nwrite++ % PIPESIZE] = c]. *)
Definition put (c : Z) (p : pipe) : pipe :=
  mkPipe (<[Z.to_nat (p_nwrite p mod PIPESIZE) := c]> (p_data p)) (p_nread p) (u32 (p_nwrite p + 1))
    (p_readopen p) (p_writeopen p).

(** [p->data[p->nread++ % PIPESIZE]]. *)
Definition get (p : pipe) : Z * pipe :=
  (p_data p !!! Z.to_nat (p_nread p mod PIPESIZE),
   mkPipe (p_data p) (u32 (p_nread p + 1)) (p_nwrite p) (p_readopen p) (p_writeopen p)).

Definition is_full (p : pipe) : bool := p_nwrite p =? u32 (p_nread p + PIPESIZE).
Definition is_empty (p : pipe) : bool := p_nread p =? p_nwrite p.

(** The loop of pipewrite with [k] bytes to go: the pipe, the channels woken
    up, the counter [i] and the result. *)
Fixpoint pipewrite_loop (k : nat) (addr : list Z) (i n : Z) (killed : bool) (p : pipe) :
    pipe * list pchan * Z * result :=
  match k with
  | O => (p, [NRead], i, Return n)
  | S k' =>
      if is_full p then
        if (p_readopen p =? 0) || killed then (p, [], i, Return (-1))
        else (p, [NRead], i, Block NWrite)
      else pipewrite_loop k' addr (i + 1) n killed (put (addr !!! Z.to_nat i) p)
  end.

(** [pipewrite(p, addr, n)] from its loop counter [i] on. *)
Definition pipewrite (addr : list Z) (i n : Z) (killed : bool) (p : pipe) :
    pipe * list pchan * Z * result :=
  pipewrite_loop (Z.to_nat (n - i)) addr i n killed p.

(** The copy loop of piperead: the bytes and the pipe. *)
Fixpoint piperead_loop (k : nat) (p : pipe) : list Z * pipe :=
  match k with
  | O => ([], p)
  | S k' =>
      if is_empty p then ([], p)
      else
        let '(c, p') := get p in
        let '(cs, p'') := piperead_loop k' p' in
        (c :: cs, p'')
  end.

(** The pipe, the channels woken up, the bytes stored and the result. *)
Definition piperead (n : Z) (killed : bool) (p : pipe) : pipe * list pchan * list Z * result :=
  if is_empty p && negb (p_writeopen p =? 0) then
    if killed then (p, [], [], Return (-1)) else (p, [], [], Block NRead)
  else
    let '(cs, p') := piperead_loop (Z.to_nat n) p in
    (p', [NWrite], cs, Return (Z.of_nat (length cs))).

(** The last component says that the pipe's page is freed. *)
Definition pipeclose (writable : bool) (p : pipe) : pipe * list pchan * bool :=
  let '(p', w) :=
    if writable then (mkPipe (p_data p) (p_nread p) (p_nwrite p) (p_readopen p) 0, NRead)
    else (mkPipe (p_data p) (p_nread p) (p_nwrite p) 0 (p_writeopen p), NWrite) in
  (p', [w], (p_readopen p' =? 0) && (p_writeopen p' =? 0)).

(** ** The queue of bytes in the ring *)

Record pipe_ok (p : pipe) : Prop := mkPipeOk {
  po_len : length (p_data p) = Z.to_nat PIPESIZE;
  po_nread : 0 ≤ p_nread p < 2 ^ 32;
  po_nwrite : 0 ≤ p_nwrite p < 2 ^ 32;
  po_size : u32 (p_nwrite p - p_nread p) ≤ PIPESIZE
}.

Definition queue (p : pipe) : list Z :=
  (λ k : nat, p_data p !!! Z.to_nat ((p_nread p + Z.of_nat k) mod PIPESIZE))
    <$> seq 0 (Z.to_nat (u32 (p_nwrite p - p_nread p))).

Lemma length_queue p : Z.of_nat (length (queue p)) = u32 (p_nwrite p - p_nread p).
Proof.
  unfold queue. rewrite length_fmap, length_seq. pose proof (u32_range (p_nwrite p - p_nread p)). lia.
Qed.

Lemma queue_seq p : queue p =
  (λ k : nat, p_data p !!! Z.to_nat ((p_nread p + Z.of_nat k) mod PIPESIZE)) <$> seq 0 (length (queue p)).
Proof. unfold queue. by rewrite length_fmap, length_seq. Qed.

Lemma u32_diff a b : 0 ≤ a < 2 ^ 32 → 0 ≤ b < 2 ^ 32 → u32 (a - b) = if b <=? a then a - b else a - b + 2 ^ 32.
Proof.
  intros Ha Hb. unfold u32. destruct (Z.leb_spec b a); symmetry;
    [apply Z.mod_unique with 0|apply Z.mod_unique with (-1)]; lia.
Qed.

Lemma u32_succ a : 0 ≤ a < 2 ^ 32 → u32 (a + 1) = if a =? 2 ^ 32 - 1 then 0 else a + 1.
Proof. intros Ha. destruct (Z.eqb_spec a (2 ^ 32 - 1)) as [->|]; [done|apply u32_small; lia]. Qed.

Lemma is_empty_queue p : pipe_ok p → is_empty p = true ↔ queue p = [].
Proof.
  intros [_ Hr Hw _]. unfold is_empty. rewrite Z.eqb_eq. pose proof (length_queue p) as Hl.
  rewrite u32_diff in Hl by done. split.
  - intros E. apply nil_length_inv. rewrite E, Z.leb_refl in Hl. lia.
  - intros E. rewrite E in Hl. simpl in Hl. destruct (Z.leb_spec (p_nread p) (p_nwrite p)); lia.
Qed.

Lemma is_full_queue p : pipe_ok p → is_full p = true ↔ Z.of_nat (length (queue p)) = PIPESIZE.
Proof.
  intros [_ Hr Hw _]. unfold is_full. rewrite Z.eqb_eq, length_queue, u32_diff by done. unfold PIPESIZE.
  assert (u32 (p_nread p + 512) = if p_nread p <? 2 ^ 32 - 512 then p_nread p + 512 else p_nread p + 512 - 2 ^ 32) as ->.
  { unfold u32. destruct (Z.ltb_spec (p_nread p) (2 ^ 32 - 512)); symmetry;
      [apply Z.mod_unique with 0|apply Z.mod_unique with 1]; lia. }
  destruct (Z.ltb_spec (p_nread p) (2 ^ 32 - 512)), (Z.leb_spec (p_nread p) (p_nwrite p)); lia.
Qed.

Lemma queue_le p : pipe_ok p → Z.of_nat (length (queue p)) ≤ PIPESIZE.
Proof. intros [_ _ _ H]. by rewrite length_queue. Qed.

(** Positions less than [PIPESIZE] apart are different slots. *)
Lemma slot_ne a b : a < b < a + PIPESIZE → Z.to_nat (a mod PIPESIZE) ≠ Z.to_nat (b mod PIPESIZE).
Proof.
  intros Hab E. unfold PIPESIZE in *. pose proof (Z.mod_pos_bound a 512 ltac:(lia)).
  pose proof (Z.mod_pos_bound b 512 ltac:(lia)). Z.div_mod_to_equations. lia.
Qed.

Lemma mod_wrap a : (a + 2 ^ 32) mod PIPESIZE = a mod PIPESIZE.
Proof. unfold PIPESIZE. replace (a + 2 ^ 32) with (a + 8388608 * 512) by lia. apply Z.mod_add. lia. Qed.

(** The slot of the next byte written. *)
Lemma nwrite_slot p : pipe_ok p →
  p_nwrite p mod PIPESIZE = (p_nread p + Z.of_nat (length (queue p))) mod PIPESIZE.
Proof.
  intros [_ Hr Hw _]. rewrite length_queue, u32_diff by done. destruct (Z.leb_spec (p_nread p) (p_nwrite p)).
  - f_equal. lia.
  - replace (p_nread p + (p_nwrite p - p_nread p + 2 ^ 32)) with (p_nwrite p + 2 ^ 32) by lia.
    by rewrite mod_wrap.
Qed.

Lemma put_queue c p : pipe_ok p → is_full p = false → pipe_ok (put c p) ∧ queue (put c p) = queue p ++ [c].
Proof.
  intros Hok Hf. pose proof Hok as [Hl Hr Hw Hs]. pose proof (queue_le p Hok) as Hq.
  assert (Z.of_nat (length (queue p)) ≠ PIPESIZE) as Hne.
  { intros E. apply is_full_queue in E; [congruence|done]. }
  assert (u32 (p_nwrite (put c p) - p_nread p) = Z.of_nat (S (length (queue p)))) as En.
  { pose proof (length_queue p) as E. simpl. rewrite u32_sub_l.
    replace (p_nwrite p + 1 - p_nread p) with (p_nwrite p - p_nread p + 1) by lia.
    rewrite <- u32_add_l, <- E. rewrite u32_small by (unfold PIPESIZE in *; lia). lia. }
  assert (0 ≤ p_nwrite (put c p) < 2 ^ 32) as Hw' by apply u32_range.
  split.
  - constructor; simpl; [by rewrite length_insert|done|done|].
    change (u32 (p_nwrite p + 1)) with (p_nwrite (put c p)). rewrite En. lia.
  - unfold queue at 1. change (p_nread (put c p)) with (p_nread p). rewrite En, Nat2Z.id, seq_S, fmap_app. f_equal.
    + etransitivity; [|symmetry; apply queue_seq]. apply list_fmap_ext. intros j k [-> Hj]%lookup_seq. simpl.
      rewrite arr_insert_ne; [done|]. rewrite nwrite_slot by done. apply not_eq_sym, slot_ne. lia.
    + simpl. f_equal. rewrite nwrite_slot by done. apply arr_insert_eq. rewrite Hl.
      pose proof (Z.mod_pos_bound (p_nread p + Z.of_nat (length (queue p))) PIPESIZE ltac:(unfold PIPESIZE; lia)). lia.
Qed.

Lemma get_queue p : pipe_ok p → is_empty p = false →
  pipe_ok (get p).2 ∧ queue p = (get p).1 :: queue (get p).2.
Proof.
  intros Hok He. pose proof Hok as [Hl Hr Hw Hs].
  assert (length (queue p) ≠ 0%nat) as Hne.
  { intros E%nil_length_inv%is_empty_queue; [congruence|done]. }
  pose proof (length_queue p) as E. 
  assert (u32 (p_nwrite p - p_nread (get p).2) = Z.of_nat (length (queue p)) - 1) as En.
  { simpl. rewrite u32_sub_r. replace (p_nwrite p - (p_nread p + 1)) with (p_nwrite p - p_nread p - 1) by lia.
    rewrite <- u32_sub_l, <- E, u32_small; [done|]. unfold PIPESIZE in *. lia. }
  assert (0 ≤ p_nread (get p).2 < 2 ^ 32) as Hr' by apply u32_range.
  split.
  - constructor; simpl; [done|done|done|]. change (u32 (p_nread p + 1)) with (p_nread (get p).2). rewrite En. lia.
  - unfold queue at 1. rewrite <- E, Nat2Z.id. destruct (length (queue p)) as [|q] eqn:Eq; [done|].
    cbn [seq fmap list_fmap]. f_equal; [by rewrite Z.add_0_r|].
    unfold queue. change (p_nwrite (get p).2) with (p_nwrite p). rewrite En.
    replace (Z.to_nat (Z.of_nat (S q) - 1)) with q by lia.
    rewrite <- fmap_S_seq, <- list_fmap_compose. apply list_fmap_ext. intros _ k _. simpl.
    do 2 f_equal. rewrite u32_succ by done. destruct (Z.eqb_spec (p_nread p) (2 ^ 32 - 1)) as [Er|].
    + rewrite Er. replace (2 ^ 32 - 1 + Z.of_nat (S k)) with (0 + Z.of_nat k + 2 ^ 32) by lia. apply mod_wrap.
    + f_equal. lia.
Qed.

(** ** What the operations do to the queue *)

Lemma pipewrite_loop_queue k addr i n killed p : pipe_ok p → 0 ≤ i →
  i + Z.of_nat k ≤ Z.of_nat (length addr) →
  let '(p', ws, i', r) := pipewrite_loop k addr i n killed p in
  pipe_ok p' ∧ i ≤ i' ≤ i + Z.of_nat k ∧
  queue p' = queue p ++ take (Z.to_nat (i' - i)) (drop (Z.to_nat i) addr) ∧
  p_readopen p' = p_readopen p ∧ p_writeopen p' = p_writeopen p ∧
  match r with
  | Return r => (r = n ∧ i' = i + Z.of_nat k ∧ NRead ∈ ws) ∨
      (r = -1 ∧ is_full p' = true ∧ i' < i + Z.of_nat k ∧ (p_readopen p = 0 ∨ killed = true))
  | Block c => c = NWrite ∧ is_full p' = true ∧ p_readopen p ≠ 0 ∧ killed = false ∧ NRead ∈ ws
  end.
Proof.
  revert i p. induction k as [|k IH]; intros i p Hok Hi Hk; cbn [pipewrite_loop].
  { rewrite Z.sub_diag, take_0, app_nil_r. split_and!; try done; try lia. left. split_and!; [done|lia|by left]. }
  destruct (is_full p) eqn:Ef.
  - destruct ((p_readopen p =? 0) || killed) eqn:Er; rewrite Z.sub_diag, take_0, app_nil_r; split_and!; try done; try lia.
    by left.
  - destruct (put_queue (addr !!! Z.to_nat i) p Hok Ef) as [Hok' Hq'].
    specialize (IH (i + 1) (put (addr !!! Z.to_nat i) p) Hok' ltac:(lia) ltac:(lia)).
    destruct (pipewrite_loop k addr (i + 1) n killed _) as [[[p' ws] i'] r].
    destruct IH as (? & ? & Hq & ? & ? & Hr). split_and!; try done; try lia.
    + rewrite Hq, Hq', <- (assoc_L (++)). f_equal.
      replace (Z.to_nat (i' - i)) with (S (Z.to_nat (i' - (i + 1)))) by lia.
      replace (Z.to_nat (i + 1)) with (S (Z.to_nat i)) by lia.
      rewrite (drop_S addr (addr !!! Z.to_nat i) (Z.to_nat i)); [done|]. apply arr_lookup. lia.
    + destruct r; [|done]. destruct Hr as [(? & ? & ?)|(? & ? & ? & ?)]; [left|right]; split_and!; try done; lia.
Qed.

Lemma piperead_loop_queue k p : pipe_ok p →
  let '(cs, p') := piperead_loop k p in
  pipe_ok p' ∧ cs = take k (queue p) ∧ queue p' = drop k (queue p) ∧
  p_readopen p' = p_readopen p ∧ p_writeopen p' = p_writeopen p.
Proof.
  revert p. induction k as [|k IH]; intros p Hok; cbn [piperead_loop]; [done|].
  destruct (is_empty p) eqn:Ee.
  - apply is_empty_queue in Ee; [|done]. rewrite Ee. done.
  - destruct (get_queue p Hok Ee) as [Hok' Hq]. destruct (get p) as [c p'] eqn:Eg. simpl in Hok', Hq.
    specialize (IH p' Hok'). destruct (piperead_loop k p') as [cs p'']. destruct IH as (? & -> & Hq'' & Ha & Hb).
    rewrite Hq. unfold get in Eg. simplify_eq. done.
Qed.

(** ** Processes on a pipe *)

Inductive call := CWrite (addr : list Z) (i : Z) | CRead (n : Z).
Inductive status := Runnable | Asleep (c : pchan) | Returned (r : Z).
Record task := mkTask { tk_call : call; tk_status : status; tk_killed : bool }.

(** The pipe, the processes in a call on it, and the bytes put into and taken
    out of the pipe so far. *)
Record psys := mkPsys { ps_pipe : pipe; ps_tasks : list task; ps_in : list Z; ps_out : list Z }.

(** [wakeup(c)]. *)
Definition wake (ws : list pchan) (t : task) : task :=
  match tk_status t with
  | Asleep c => if decide (c ∈ ws) then mkTask (tk_call t) Runnable (tk_killed t) else t
  | _ => t
  end.

Definition settle (r : result) : status := match r with Return r => Returned r | Block c => Asleep c end.

(** A runnable process runs until it returns or sleeps. *)
Definition run_task (p : pipe) (t : task) : pipe * list pchan * task * list Z * list Z :=
  match tk_call t with
  | CWrite addr i =>
      let '(p', ws, i', r) := pipewrite addr i (Z.of_nat (length addr)) (tk_killed t) p in
      (p', ws, mkTask (CWrite addr i') (settle r) (tk_killed t), take (Z.to_nat (i' - i)) (drop (Z.to_nat i) addr), [])
  | CRead n =>
      let '(p', ws, cs, r) := piperead n (tk_killed t) p in
      (p', ws, mkTask (CRead n) (settle r) (tk_killed t), [], cs)
  end.

Definition is_read (c : call) : bool := match c with CRead _ => true | CWrite _ _ => false end.
Definition finished (t : task) : bool := match tk_status t with Returned _ => true | _ => false end.

(** Calls are made on open ends, and an end is closed when no call on it is
    in progress (the file the call is on holds a reference). *)
Inductive pstep : psys → psys → Prop :=
| ps_call p ts hin hout c :
    match c with CWrite _ i => i = 0 ∧ p_writeopen p ≠ 0 | CRead _ => p_readopen p ≠ 0 end →
    pstep (mkPsys p ts hin hout) (mkPsys p (ts ++ [mkTask c Runnable false]) hin hout)
| ps_run p ts hin hout k t p' ws t' bi bo : ts !! k = Some t → tk_status t = Runnable →
    run_task p t = (p', ws, t', bi, bo) →
    pstep (mkPsys p ts hin hout) (mkPsys p' (<[k := t']> (wake ws <$> ts)) (hin ++ bi) (hout ++ bo))
| ps_close p ts hin hout w p' ws fr : pipeclose w p = (p', ws, fr) →
    Forall (λ t, is_read (tk_call t) = negb w → finished t = true) ts →
    pstep (mkPsys p ts hin hout) (mkPsys p' (wake ws <$> ts) hin hout)
| ps_kill p ts hin hout k t : ts !! k = Some t →
    pstep (mkPsys p ts hin hout)
      (mkPsys p (<[k := mkTask (tk_call t)
        (match tk_status t with Asleep _ => Runnable | st => st end) true]> ts) hin hout).

(** What a process waits for has not happened; [anyk] says that some writer
    has been killed. *)
Definition task_ok (p : pipe) (anyk : bool) (t : task) : Prop :=
  match tk_call t with
  | CWrite addr i => 0 ≤ i ≤ Z.of_nat (length addr) ∧
      match tk_status t with
      | Runnable => p_writeopen p ≠ 0
      | Asleep c => c = NWrite ∧ p_writeopen p ≠ 0 ∧ is_full p = true ∧ p_readopen p ≠ 0
      | Returned _ => True
      end
  | CRead _ =>
      match tk_status t with
      | Runnable => p_readopen p ≠ 0
      | Asleep c => c = NRead ∧ p_readopen p ≠ 0 ∧ (anyk = true ∨ (is_empty p = true ∧ p_writeopen p ≠ 0))
      | Returned _ => True
      end
  end.

Definition killed_writer (t : task) : bool := tk_killed t && match tk_call t with CWrite _ _ => true | CRead _ => false end.
Definition writer_killed (ts : list task) : bool := existsb killed_writer ts.

Record psys_ok (s : psys) : Prop := mkPsysOk {
  pi_pipe : pipe_ok (ps_pipe s);
  pi_fifo : ps_in s = ps_out s ++ queue (ps_pipe s);
  pi_tasks : Forall (task_ok (ps_pipe s) (writer_killed (ps_tasks s))) (ps_tasks s)
}.

(** After an operation that leaves the ends open: a task whose channel is not
    woken up still waits. *)
Lemma wake_ok p p' k ws t : task_ok p k t →
  p_readopen p' = p_readopen p → p_writeopen p' = p_writeopen p →
  (NRead ∉ ws → p_readopen p ≠ 0 → k = true ∨ (is_empty p = true → is_empty p' = true)) →
  (NWrite ∉ ws → is_full p = true → is_full p' = true) → task_ok p' k (wake ws t).
Proof.
  intros Ht Er Ew HR HW. unfold wake, task_ok in *.
  destruct (tk_call t) as [addr i|n] eqn:Ec, (tk_status t) as [|c|r] eqn:Es;
    try case_decide; simpl; rewrite ?Ec, ?Es, ?Er, ?Ew; try done; try tauto.
  - destruct Ht as (? & -> & ? & ? & ?). split_and!; auto; lia.
  - destruct Ht as (-> & ? & [?|[? ?]]); split_and!; auto. destruct HR; auto.
Qed.

Lemma full_write k addr i n killed p : is_full p = true → (pipewrite_loop k addr i n killed p).1.1.1 = p.
Proof. intros H. destruct k; simpl; [done|]. rewrite H. by destruct (_ || _). Qed.

Lemma empty_read n killed p : is_empty p = true → (piperead n killed p).1.1.1 = p.
Proof.
  intros H. unfold piperead. rewrite H. destruct (p_writeopen p =? 0); simpl; [|by destruct killed].
  destruct (Z.to_nat n); simpl; [done|]. by rewrite H.
Qed.

Lemma run_task_ok p k t p' ws t' bi bo : pipe_ok p → task_ok p k t → tk_status t = Runnable →
  (killed_writer t = true → k = true) → run_task p t = (p', ws, t', bi, bo) →
  pipe_ok p' ∧ queue p ++ bi = bo ++ queue p' ∧ task_ok p' k t' ∧ killed_writer t' = killed_writer t ∧
  ∀ u, task_ok p k u → task_ok p' k (wake ws u).
Proof.
  intros Hok Ht Es Hk Hr. unfold run_task, task_ok, killed_writer in *. rewrite Es in Ht. destruct (tk_call t) as [addr i|n]; rewrite ?andb_true_r, ?andb_false_r in *.
  - unfold pipewrite in Hr. destruct Ht as [Hi Hwopen].
    pose proof (pipewrite_loop_queue (Z.to_nat (Z.of_nat (length addr) - i)) addr i (Z.of_nat (length addr)) (tk_killed t) p Hok
      ltac:(lia) ltac:(lia)) as H.
    pose proof (full_write (Z.to_nat (Z.of_nat (length addr) - i)) addr i (Z.of_nat (length addr)) (tk_killed t) p) as Hfull.
    destruct (pipewrite_loop _ _ _ _ _ _) as [[[q qs] i'] r]. simplify_eq. simpl in Hfull.
    destruct H as (Hok' & Hi' & Hq & Hro & Hwo & Hres). split_and!; [done|by rewrite Hq| |simpl; by rewrite andb_true_r|].
    + simpl. split; [lia|]. destruct r as [r|c]; [done|]. destruct Hres as (-> & ? & ? & ? & _).
      rewrite Hro, Hwo. done.
    + intros u Hu. eapply wake_ok; try done.
      * intros Hn Hro0. destruct r as [r|c]; [|by destruct Hres as (_ & _ & _ & _ & ?)].
        destruct Hres as [(_ & _ & ?)|(_ & _ & _ & [?|?])]; [done|done|]. left. auto.
      * intros _ Hf. rewrite Hfull by done. done.
  - pose proof (empty_read n (tk_killed t) p) as He. unfold piperead in *.
    destruct (is_empty p && negb (p_writeopen p =? 0)) eqn:Ee.
    + apply andb_true_iff in Ee as [Ee Ew%negb_true_iff%Z.eqb_neq].
      destruct (tk_killed t); simplify_eq; (split_and!; [done|by rewrite app_nil_r|simpl; auto|done|]);
        intros u Hu; by eapply wake_ok; auto.
    + pose proof (piperead_loop_queue (Z.to_nat n) p Hok) as H.
      destruct (piperead_loop (Z.to_nat n) p) as [cs q]. destruct H as (Hok' & -> & Hq & Hro & Hwo). simplify_eq.
      simpl in He. split_and!; [done| |done|apply andb_false_r|].
      * rewrite app_nil_r, Hq. by rewrite take_drop.
      * intros u Hu. eapply wake_ok; try done.
        -- intros _ _. right. intros E. by rewrite He.
        -- intros Hn. destruct Hn. by left.
Qed.

Lemma task_ok_mono p k k' t : (k = true → k' = true) → task_ok p k t → task_ok p k' t.
Proof. intros Hk. unfold task_ok. destruct (tk_call t), (tk_status t); naive_solver. Qed.

Lemma wake_killed ws t : killed_writer (wake ws t) = killed_writer t.
Proof. unfold wake. destruct (tk_status t); [done| |done]. by case_decide. Qed.

Lemma writer_killed_spec ts : writer_killed ts = true ↔ ∃ t, t ∈ ts ∧ killed_writer t = true.
Proof. unfold writer_killed. rewrite existsb_exists. by setoid_rewrite <- list_elem_of_In. Qed.

Lemma writer_killed_lookup ts ts' :
  (∀ i t, ts !! i = Some t → ∃ t', ts' !! i = Some t' ∧ (killed_writer t = true → killed_writer t' = true)) →
  writer_killed ts = true → writer_killed ts' = true.
Proof.
  intros H (t & [i Hi]%list_elem_of_lookup & Ht)%writer_killed_spec.
  destruct (H i t Hi) as (t' & Hi' & Hk). apply writer_killed_spec. exists t'.
  split; [by eapply list_elem_of_lookup_2|auto].
Qed.

Lemma pstep_ok s s' : pstep s s' → psys_ok s → psys_ok s'.
Proof.
  intros Hs [Hp Hf Ht]. destruct Hs as [p ts hin hout c Hc|p ts hin hout k t p' ws t' bi bo Hk Es Hr|
    p ts hin hout w p' ws fr Hcl Hfin|p ts hin hout k t Hk]; simpl in *.
  - constructor; simpl; [done|done|]. apply Forall_app. split.
    + eapply Forall_impl; [exact Ht|]. intros t. apply task_ok_mono. unfold writer_killed.
      rewrite existsb_app. by intros ->.
    + apply Forall_singleton. unfold task_ok; simpl. destruct c; [|done]. destruct Hc as [-> ?]. split; [lia|done].
  - rewrite Forall_lookup in Ht. pose proof (Ht k t Hk) as Hkt.
    destruct (run_task_ok p (writer_killed ts) t p' ws t' bi bo) as (Hp' & Hq & Ht' & Hkk & Hall); try done.
    { intros E. apply writer_killed_spec. exists t. split; [by eapply list_elem_of_lookup_2|done]. }
    assert (writer_killed ts = true → writer_killed (<[k := t']> (wake ws <$> ts)) = true) as Hmono.
    { apply writer_killed_lookup. intros i u Hi. destruct (decide (i = k)) as [->|Hne].
      - exists t'. rewrite list_lookup_insert_eq by (rewrite length_fmap; by eapply lookup_lt_Some).
        split; [done|]. simplify_eq. by rewrite Hkk.
      - exists (wake ws u). rewrite list_lookup_insert_ne, list_lookup_fmap, Hi by done. by rewrite wake_killed. }
    constructor; simpl; [done|by rewrite Hf, <- (assoc_L (++)), Hq, (assoc_L (++))|].
    apply Forall_insert; [|by eapply task_ok_mono]. apply Forall_fmap, Forall_lookup. intros i u Hi. simpl.
    eapply task_ok_mono; [exact Hmono|]. eapply Hall, Ht, Hi.
  - rewrite Forall_lookup in Ht, Hfin.
    assert (writer_killed ts = true → writer_killed (wake ws <$> ts) = true) as Hmono.
    { apply writer_killed_lookup. intros i u Hi. exists (wake ws u). by rewrite list_lookup_fmap, Hi, wake_killed. }
    assert (pipe_ok p' ∧ queue p' = queue p ∧ is_full p' = is_full p ∧ is_empty p' = is_empty p) as (Hp' & Eq & Ef & Ee).
    { destruct Hp. unfold pipeclose in Hcl. destruct w; simplify_eq; (split; [by constructor|done]). }
    constructor; simpl; [done|by rewrite Eq|]. apply Forall_fmap, Forall_lookup. intros i u Hi. simpl.
    eapply task_ok_mono; [exact Hmono|]. specialize (Ht i u Hi). specialize (Hfin i u Hi).
    unfold pipeclose in Hcl. unfold wake, task_ok, finished in *.
    destruct w; simplify_eq; destruct (tk_call u) eqn:Ec, (tk_status u) as [|c|] eqn:Es; simpl in *;
      try case_decide; simpl; rewrite ?Ec, ?Es; try tauto; try (by specialize (Hfin eq_refl)).
    + destruct Ht as (-> & _). by destruct H; left.
    + destruct Ht as (_ & -> & _). by destruct H; left.
  - rewrite Forall_lookup in Ht. set (t' := mkTask (tk_call t) _ true).
    assert (writer_killed ts = true → writer_killed (<[k := t']> ts) = true) as Hmono.
    { apply writer_killed_lookup. intros i u Hi. destruct (decide (i = k)) as [->|Hne].
      - exists t'. rewrite list_lookup_insert_eq by (by eapply lookup_lt_Some). split; [done|].
        assert (u = t) as -> by congruence. unfold killed_writer. simpl. by destruct (tk_killed t).
      - exists u. by rewrite list_lookup_insert_ne. }
    constructor; simpl; [done|done|]. apply Forall_insert.
    + apply Forall_lookup. intros i u Hi. eapply task_ok_mono; [exact Hmono|by eapply Ht].
    + specialize (Ht k t Hk). unfold task_ok in *. simpl. destruct (tk_call t), (tk_status t); tauto.
Qed.

Lemma psys_init data : length data = Z.to_nat PIPESIZE → psys_ok (mkPsys (pipe_init data) [] [] []).
Proof.
  intros Hl. constructor; simpl; [|done|done].
  constructor; simpl; [done|lia|lia|]. unfold PIPESIZE. change (u32 (0 - 0)) with 0. lia.
Qed.

Lemma psys_reach s s' : rtc pstep s s' → psys_ok s → psys_ok s'.
Proof. induction 1; eauto using pstep_ok. Qed.

(** C23. A pipe is a bounded first-in first-out queue: in every interleaving
    of reads, writes, closes and kills, what has been taken out of the pipe
    followed by what the ring holds is what has been put in, in order, and the
    ring holds at most [PIPESIZE] bytes; this holds across the wrap-around of
    the 32-bit counters. *)
Theorem pipe_fifo data s : length data = Z.to_nat PIPESIZE →
  rtc pstep (mkPsys (pipe_init data) [] [] []) s →
  ps_in s = ps_out s ++ queue (ps_pipe s) ∧ Z.of_nat (length (queue (ps_pipe s))) ≤ PIPESIZE.
Proof.
  intros Hd Hr. destruct (psys_reach _ _ Hr (psys_init _ Hd)) as [Hp Hf _].
  split; [done|]. by apply queue_le.
Qed.

(** C24. No wakeup is lost: a process asleep in [pipewrite] waits for a full pipe with
    an open read end, whoever has been killed; and unless a writer has been killed, a
    process asleep in [piperead] waits for an empty pipe with an open write end. *)
Theorem pipe_no_lost_wakeup data s t c : length data = Z.to_nat PIPESIZE →
  rtc pstep (mkPsys (pipe_init data) [] [] []) s → t ∈ ps_tasks s → tk_status t = Asleep c →
  match tk_call t with
  | CWrite _ _ => c = NWrite ∧ Z.of_nat (length (queue (ps_pipe s))) = PIPESIZE ∧ p_readopen (ps_pipe s) ≠ 0
  | CRead _ => c = NRead ∧ (writer_killed (ps_tasks s) = false → queue (ps_pipe s) = [] ∧ p_writeopen (ps_pipe s) ≠ 0)
  end.
Proof.
  intros Hd Hr Ht Hs. destruct (psys_reach _ _ Hr (psys_init _ Hd)) as [Hp _ Hts].
  rewrite Forall_forall in Hts. specialize (Hts t Ht). unfold task_ok in Hts. rewrite Hs in Hts.
  destruct (tk_call t).
  - destruct Hts as (_ & -> & _ & Hf & ?). split_and!; [done|by apply is_full_queue|done].
  - destruct Hts as (-> & _ & Hts). split; [done|]. intros Hk. rewrite Hk in Hts. destruct Hts as [?|[He ?]]; [done|].
    split; [by apply is_empty_queue|done].
Qed.

(** ** Concrete runs *)

Definition ring0 : list Z := repeat 0 512.
Definition boot : psys := mkPsys (pipe_init ring0) [] [] [].

(** A process reads four bytes from the empty pipe and sleeps; another writes
    two bytes. *)
Definition two_written : psys :=
  mkPsys (put 8 (put 7 (pipe_init ring0)))
    [mkTask (CRead 4) Runnable false; mkTask (CWrite [7; 8] 2) (Returned 2) false] [7; 8] [].

Definition reader_waits : psys := mkPsys (pipe_init ring0) [mkTask (CRead 4) (Asleep NRead) false] [] [].

Lemma reader_waits_reachable : rtc pstep boot reader_waits.
Proof.
  eapply rtc_l; [by apply (ps_call _ _ _ _ (CRead 4))|].
  eapply rtc_l; [by apply (ps_run _ _ _ _ 0 (mkTask (CRead 4) Runnable false) (pipe_init ring0) []
    (mkTask (CRead 4) (Asleep NRead) false) [] [])|].
  apply rtc_refl.
Qed.

Lemma two_written_reachable : rtc pstep boot two_written.
Proof.
  etransitivity; [apply reader_waits_reachable|].
  eapply rtc_l; [by apply (ps_call _ _ _ _ (CWrite [7; 8] 0))|].
  eapply rtc_l; [by apply (ps_run _ _ _ _ 1 (mkTask (CWrite [7; 8] 0) Runnable false)
    (put 8 (put 7 (pipe_init ring0))) [NRead] (mkTask (CWrite [7; 8] 2) (Returned 2) false) [7; 8] [])|].
  apply rtc_refl.
Qed.

Lemma pipe_fifo_witness : ps_in two_written = ps_out two_written ++ queue (ps_pipe two_written) ∧
  Z.of_nat (length (queue (ps_pipe two_written))) ≤ PIPESIZE.
Proof. apply (pipe_fifo ring0); [reflexivity|exact two_written_reachable]. Defined.

Lemma pipe_no_lost_wakeup_witness :
  NRead = NRead ∧ (writer_killed (ps_tasks reader_waits) = false → queue (ps_pipe reader_waits) = [] ∧ p_writeopen (ps_pipe reader_waits) ≠ 0).
Proof.
  apply (pipe_no_lost_wakeup ring0 reader_waits (mkTask (CRead 4) (Asleep NRead) false) NRead);
    [reflexivity|exact reader_waits_reachable|by left|reflexivity].
Defined.

(** What a killed writer of 513 bytes leaves behind. *)
Definition big : list Z := repeat 1 513.
Definition stranded_pipe : pipe := (pipewrite big 0 513 true (pipe_init ring0)).1.1.1.
Definition stranded : psys :=
  mkPsys stranded_pipe [mkTask (CRead 4) (Asleep NRead) false; mkTask (CWrite big 512) (Returned (-1)) true]
    (repeat 1 512) [].

Lemma stranded_run : run_task (pipe_init ring0) (mkTask (CWrite big 0) Runnable true) =
  (stranded_pipe, [], mkTask (CWrite big 512) (Returned (-1)) true, repeat 1 512, []).
Proof. vm_compute. reflexivity. Qed.

Lemma stranded_queue : length (queue stranded_pipe) = 512%nat.
Proof. vm_compute. reflexivity. Qed.

(** Without the hypothesis that no writer is killed a wakeup is lost: a
    writer that is killed and finds the pipe full returns -1 without waking up
    the readers. A reader that slept on the empty pipe before stays asleep
    with the pipe full of bytes, and no process of the pipe is left to run. *)
Theorem killed_writer_strands_reader : ∃ s, rtc pstep boot s ∧
  length (queue (ps_pipe s)) = 512%nat ∧
  mkTask (CRead 4) (Asleep NRead) false ∈ ps_tasks s ∧
  Forall (λ t, tk_status t ≠ Runnable) (ps_tasks s).
Proof.
  exists stranded. split_and!; [|exact stranded_queue|by left|by repeat constructor].
  etransitivity; [apply reader_waits_reachable|].
  eapply rtc_l; [by apply (ps_call _ _ _ _ (CWrite big 0))|].
  eapply rtc_l; [by apply (ps_kill _ _ _ _ 1 (mkTask (CWrite big 0) Runnable false))|].
  eapply rtc_l; [|apply rtc_refl].
  exact (ps_run _ [mkTask (CRead 4) (Asleep NRead) false; mkTask (CWrite big 0) Runnable true] [] [] 1
    (mkTask (CWrite big 0) Runnable true) _ _ _ _ _ eq_refl eq_refl stranded_run).
Qed.
End Pipe.
