(* ===== verification/Console.v ===== *)
(** * The console (console.c)

    Formatted output, the CGA screen and the line discipline.  The state is the
    input ring, the screen with its cursor and the bytes sent to the serial port.
    [panicked] is not part of it: nothing runs after a panic. *)

From stdpp Require Import base numbers option list strings.
From Stdlib Require Import ZArith Lia ZifyBool.
From S2P Require Import Prelude Bytes.
Local Open Scope Z_scope.

Module Console.

(** ** Formatted output *)

(** "0123456789abcdef". *)
Definition digit (d : Z) : Z := if d <? 10 then 48 + d else 87 + d.

(** [do{ buf[i++] = digits[x % base]; }while((x /= base) != 0)]: the digits,
    the least significant one first; a 32-bit number has at most 32. *)
Fixpoint print_digits (dig : Z → Z) (fuel : nat) (x base : Z) : list Z :=
  match fuel with
  | O => []
  | S fuel' =>
      dig (x mod base) :: (if x / base =? 0 then [] else print_digits dig fuel' (x / base) base)
  end.

(** The characters passed to consputc. *)
Definition printint (xx base : Z) (sign : bool) : list Z :=
  let neg := sign && (i32 xx <? 0) in
  let x := if neg then u32 (- i32 xx) else u32 xx in
  let buf := print_digits digit 32 x base in
  reverse (if neg then buf ++ [45] else buf).

(** The arguments of cprintf: a word, or a string ([None] for a null
    pointer). *)
Inductive arg := AInt (z : Z) | AStr (s : option (list Z)).

(** "(null)". *)
Definition null_string : list Z := [40; 110; 117; 108; 108; 41].

(** The characters before the NUL. *)
Fixpoint cstr (s : list Z) : list Z :=
  match s with
  | [] => []
  | c :: s' => if c =? 0 then [] else c :: cstr s'
  end.

(** The result is [None] when an argument is missing or of the wrong kind. *)
Fixpoint cprintf (fmt : list Z) (args : list arg) : option (list Z) :=
  match fmt with
  | [] => Some []
  | c :: fmt' =>
      if c =? 0 then Some []
      else if negb (c =? 37) then (c ::.) <$> cprintf fmt' args
      else match fmt' with
      | [] => Some []
      | d :: fmt'' =>
          if d =? 0 then Some []
          else if d =? 100 then
            match args with
            | AInt z :: args' => (printint z 10 true ++.) <$> cprintf fmt'' args'
            | _ => None
            end
          else if (d =? 120) || (d =? 112) then
            match args with
            | AInt z :: args' => (printint z 16 false ++.) <$> cprintf fmt'' args'
            | _ => None
            end
          else if d =? 115 then
            match args with
            | AStr s :: args' => (cstr (default null_string s) ++.) <$> cprintf fmt'' args'
            | _ => None
            end
          else if d =? 37 then (37 ::.) <$> cprintf fmt'' args
          else (λ o, 37 :: d :: o) <$> cprintf fmt'' args
      end
  end.

(** ** The screen *)

Definition BACKSPACE : Z := 256.

(** The CGA memory, 25 rows of 80 cells, and the cursor position held by the
    CRT controller. *)
Record screen := mkScreen { crt : list Z; cursor : Z }.

(** [crt[i] = v]; [None] is a store outside of the memory. *)
Definition crt_store (i v : Z) (m : list Z) : option (list Z) :=
  if (0 <=? i) && (i <? 25 * 80) then Some (<[Z.to_nat i := v]> m) else None.

(** [memmove(crt, crt+80, ...)] of 23 rows and [memset(crt+pos, 0, ...)] up to
    row 24. *)
Definition scroll (pos : Z) (m : list Z) : list Z :=
  let m := take (23 * 80) (drop 80 m) ++ drop (23 * 80) m in
  take (Z.to_nat pos) m ++ replicate (Z.to_nat (24 * 80 - pos)) 0 ++ drop (24 * 80) m.

Definition cgaputc (c : Z) (s : screen) : option screen :=
  let pos := cursor s in
  r ← (if c =? 10 then Some (crt s, pos + (80 - pos mod 80))
       else if c =? BACKSPACE then Some (crt s, if 0 <? pos then pos - 1 else pos)
       else m ← crt_store pos (Z.lor (Z.land c 255) 1792) (crt s); Some (m, pos + 1));
  let '(m, pos) := r in
  let '(m, pos) := if 24 <=? pos / 80 then (scroll (pos - 80) m, pos - 80) else (m, pos) in
  m ← crt_store pos (Z.lor 32 1792) m;
  Some (mkScreen m (pos mod 2 ^ 16)).

(** ** The console *)

Definition INPUT_BUF : Z := 128.
Record input := mkInput { in_buf : list Z; in_r : Z; in_w : Z; in_e : Z }.

(** [c_uart] is what uartputc sent. *)
Record cons := mkCons { c_input : input; c_screen : screen; c_uart : list Z }.

Definition set_input (i : input) (s : cons) : cons := mkCons i (c_screen s) (c_uart s).

Definition consputc (c : Z) (s : cons) : option cons :=
  let u := if c =? BACKSPACE then [8; 32; 8] else [u8 c] in
  sc ← cgaputc c (c_screen s);
  Some (mkCons (c_input s) sc (c_uart s ++ u)).

Fixpoint consputs (cs : list Z) (s : cons) : option cons :=
  match cs with
  | [] => Some s
  | c :: cs' => s' ← consputc c s; consputs cs' s'
  end.

(** [C(x)], Control-x. *)
Definition ctl (x : Z) : Z := x - 64.

(** [input.buf[i % INPUT_BUF]]. *)
Definition slot (i : Z) : nat := Z.to_nat (i mod INPUT_BUF).

Definition set_e (e : Z) (i : input) : input := mkInput (in_buf i) (in_r i) (in_w i) e.

(** The loop of Control-U; [n] characters are left to edit. *)
Fixpoint kill_line (n : nat) (s : cons) : option cons :=
  let i := c_input s in
  if negb (in_e i =? in_w i) && negb (in_buf i !!! slot (u32 (in_e i - 1)) =? 10) then
    match n with
    | O => None
    | S n' =>
        s' ← consputc BACKSPACE (set_input (set_e (u32 (in_e i - 1)) i) s);
        kill_line n' s'
    end
  else Some s.

(** The case of an ordinary character: the input, the character echoed and
    whether the readers are woken up. *)
Definition input_char (c : Z) (i : input) : option (input * Z * bool) :=
  if negb (c =? 0) && (u32 (in_e i - in_r i) <? INPUT_BUF) then
    let c := if c =? 13 then 10 else c in
    let buf := <[slot (in_e i) := u8 c]> (in_buf i) in
    let e := u32 (in_e i + 1) in
    if (c =? 10) || (c =? ctl 68) || (e =? u32 (in_r i + INPUT_BUF)) then
      Some (mkInput buf (in_r i) e e, c, true)
    else Some (mkInput buf (in_r i) (in_w i) e, c, false)
  else None.

(** One pass of the loop of consoleintr; [dump] is procdump.  The result says
    whether the readers are woken up. *)
Definition consoleintr_char (dump : cons → option cons) (c : Z) (s : cons) : option (cons * bool) :=
  let i := c_input s in
  if c =? ctl 80 then s' ← dump s; Some (s', false)
  else if c =? ctl 85 then
    s' ← kill_line (Z.to_nat (u32 (in_e i - in_w i))) s; Some (s', false)
  else if (c =? ctl 72) || (c =? 127) then
    if negb (in_e i =? in_w i) then
      s' ← consputc BACKSPACE (set_input (set_e (u32 (in_e i - 1)) i) s); Some (s', false)
    else Some (s, false)
  else match input_char c i with
  | Some (i', c', w) => s' ← consputc c' (set_input i' s); Some (s', w)
  | None => Some (s, false)
  end.

(** The loop of consoleread with [n] bytes to go, from the read index on: the
    input, the bytes stored, the count left, and whether the loop is done; if
    not, it waits for input. *)
Fixpoint consoleread_loop (n : nat) (target : Z) (i : input) : input * list Z * Z * bool :=
  match n with
  | O => (i, [], 0, true)
  | S n' =>
      if in_r i =? in_w i then (i, [], Z.of_nat n, false)
      else
        let c := in_buf i !!! slot (in_r i) in
        let i' := mkInput (in_buf i) (u32 (in_r i + 1)) (in_w i) (in_e i) in
        if c =? ctl 68 then
          (if Z.of_nat n <? target then i else i', [], Z.of_nat n, true)
        else if c =? 10 then (i', [c], Z.of_nat n', true)
        else
          let '(i'', cs, rest, d) := consoleread_loop n' target i' in
          (i'', c :: cs, rest, d)
  end.

(** What consoleread returns: the bytes and the value, or it sleeps with [rest]
    bytes to go, or the process was killed. *)
Inductive read_result := RDone (r : Z) | RSleep (rest : Z) | RKilled.

Definition consoleread (n : Z) (killed : bool) (i : input) : input * list Z * read_result :=
  if n <=? 0 then (i, [], RDone 0)
  else
    let '(i', cs, rest, d) := consoleread_loop (Z.to_nat n) n i in
    (i', cs, if d then RDone (n - rest) else if killed then RKilled else RSleep rest).

Definition consolewrite (buf : list Z) (s : cons) : option (cons * Z) :=
  s' ← consputs (u8 <$> buf) s;
  Some (s', Z.of_nat (length buf)).
End Console.
