(* ===== verification/ConsoleProps.v ===== *)
(** * Properties of the console

    The stores of cgaputc stay inside the screen memory, and the input ring
    implements a line discipline: a queue of complete lines and a line being
    edited. *)

From stdpp Require Import base numbers option list strings.
From Stdlib Require Import ZArith Lia ZifyBool.
From S2P Require Import Prelude Bytes Console.
Import Console.
Local Open Scope Z_scope.

(** ** The screen *)

Record screen_ok (s : screen) : Prop := mkScreenOk {
  sc_len : length (crt s) = (25 * 80)%nat;
  sc_cursor : 0 ≤ cursor s < 24 * 80
}.

Lemma crt_store_ok i v m : 0 ≤ i < 25 * 80 → length m = (25 * 80)%nat →
  ∃ m', crt_store i v m = Some m' ∧ length m' = (25 * 80)%nat.
Proof.
  intros Hi Hl. unfold crt_store. destruct (Z.leb_spec 0 i), (Z.ltb_spec i (25 * 80)); try lia.
  exists (<[Z.to_nat i := v]> m). by rewrite length_insert.
Qed.

Lemma length_scroll pos m : 0 ≤ pos < 24 * 80 → length m = (25 * 80)%nat → length (scroll pos m) = (25 * 80)%nat.
Proof.
  intros Hp Hl. unfold scroll.
  assert (length (take (23 * 80) (drop 80 m) ++ drop (23 * 80) m) = (25 * 80)%nat) as Hm
    by (rewrite length_app, length_take, !length_drop; lia).
  revert Hm. generalize (take (23 * 80) (drop 80 m) ++ drop (23 * 80) m). intros m' Hm.
  rewrite !length_app, length_take, length_replicate, length_drop. lia.
Qed.

(** No store outside the screen memory, whatever the character. *)
Lemma cgaputc_ok c s : screen_ok s → ∃ s', cgaputc c s = Some s' ∧ screen_ok s'.
Proof.
  intros [Hl Hc]. set (pos := cursor s) in *.
  assert (∃ m p, (if c =? 10 then Some (crt s, pos + (80 - pos mod 80))
       else if c =? BACKSPACE then Some (crt s, if 0 <? pos then pos - 1 else pos)
       else m ← crt_store pos (Z.lor (Z.land c 255) 1792) (crt s); Some (m, pos + 1)) = Some (m, p) ∧
       length m = (25 * 80)%nat ∧ 0 ≤ p < 25 * 80) as (m & p & E & Hm & Hp).
  { destruct (c =? 10).
    - eexists _, _. split_and!; [done|done|..]; Z.div_mod_to_equations; lia.
    - destruct (c =? BACKSPACE); [eexists _, _; split_and!; [done|done|..]; destruct (Z.ltb_spec 0 pos); lia|].
      destruct (crt_store_ok pos (Z.lor (Z.land c 255) 1792) (crt s)) as (m & -> & Hm); [lia|done|].
      exists m, (pos + 1). split_and!; [done|done|lia|lia]. }
  unfold cgaputc. fold pos. rewrite E. cbn [mbind option_bind].
  destruct (Z.leb_spec 24 (p / 80)) as [Hs|Hs].
  - assert (0 ≤ p - 80 < 24 * 80) as Hp' by (Z.div_mod_to_equations; lia).
    destruct (crt_store_ok (p - 80) (Z.lor 32 1792) (scroll (p - 80) m)) as (m' & -> & Hm');
      [lia|by apply length_scroll|]. eexists. split; [done|]. constructor; [done|]. simpl.
    rewrite Z.mod_small; lia.
  - destruct (crt_store_ok p (Z.lor 32 1792) m) as (m' & -> & Hm'); [done|done|].
    eexists. split; [done|]. constructor; [done|]. simpl. rewrite Z.mod_small by lia. Z.div_mod_to_equations. lia.
Qed.

Lemma consputc_ok c s : screen_ok (c_screen s) →
  ∃ s', consputc c s = Some s' ∧ screen_ok (c_screen s') ∧ c_input s' = c_input s.
Proof.
  intros Hs. destruct (cgaputc_ok c _ Hs) as (sc & E & Hsc). unfold consputc. rewrite E. by eexists.
Qed.

(** ** The ring *)

(** [n] characters of the ring from index [a] on. *)
Definition seg (buf : list Z) (a : Z) (n : nat) : list Z := (λ k : nat, buf !!! slot (a + Z.of_nat k)) <$> seq 0 n.

Lemma length_seg buf a n : length (seg buf a n) = n.
Proof. unfold seg. by rewrite length_fmap, length_seq. Qed.

Lemma slot_u32 a : slot (u32 a) = slot a.
Proof.
  unfold slot, u32, INPUT_BUF. f_equal. rewrite (Z.div_mod a (2 ^ 32)) at 2 by lia.
  replace (2 ^ 32 * (a / 2 ^ 32)) with (a / 2 ^ 32 * 33554432 * 128) by lia.
  by rewrite Z.add_comm, Z.mod_add by lia.
Qed.

Lemma slot_lt a : (slot a < 128)%nat.
Proof. unfold slot, INPUT_BUF. pose proof (Z.mod_pos_bound a 128 ltac:(lia)). lia. Qed.

Lemma ring_slot_ne a b : a < b < a + 128 → slot a ≠ slot b.
Proof.
  intros H E. unfold slot, INPUT_BUF in E. pose proof (Z.mod_pos_bound a 128 ltac:(lia)).
  pose proof (Z.mod_pos_bound b 128 ltac:(lia)). Z.div_mod_to_equations. lia.
Qed.

Lemma seg_snoc buf a n : seg buf a (S n) = seg buf a n ++ [buf !!! slot (a + Z.of_nat n)].
Proof. unfold seg. by rewrite seq_S, fmap_app. Qed.

Lemma seg_cons buf a n : seg buf a (S n) = buf !!! slot a :: seg buf (a + 1) n.
Proof.
  unfold seg. cbn [seq fmap list_fmap]. rewrite Z.add_0_r. f_equal. rewrite <- fmap_S_seq, <- list_fmap_compose.
  apply list_fmap_ext. intros _ k _. simpl. do 2 f_equal. lia.
Qed.

Lemma seg_u32 buf a n : seg buf (u32 a) n = seg buf a n.
Proof.
  unfold seg. apply list_fmap_ext. intros _ k _. simpl. f_equal.
  by rewrite <- slot_u32, u32_add_l, slot_u32.
Qed.

(** A store behind the segment. *)
Lemma seg_insert buf a n v : length buf = 128%nat → (n < 128)%nat →
  seg (<[slot (a + Z.of_nat n) := v]> buf) a n = seg buf a n.
Proof.
  intros Hl Hn. unfold seg. apply list_fmap_ext. intros i k [-> Hk]%lookup_seq. simpl.
  apply arr_insert_ne. apply not_eq_sym, ring_slot_ne. lia.
Qed.

(** ** The line discipline *)

(** The ring holds the complete lines [com] and then the line [ed] that is
    being edited; a full ring is complete. *)
Record input_rep (i : input) (com ed : list Z) : Prop := mkInputRep {
  ir_len : length (in_buf i) = 128%nat;
  ir_r : 0 ≤ in_r i < 2 ^ 32;
  ir_w : in_w i = u32 (in_r i + Z.of_nat (length com));
  ir_e : in_e i = u32 (in_r i + Z.of_nat (length com) + Z.of_nat (length ed));
  ir_seg : seg (in_buf i) (in_r i) (length com + length ed) = com ++ ed;
  ir_room : (length com + length ed ≤ 128)%nat;
  ir_full : ed ≠ [] → (length com + length ed < 128)%nat;
  ir_ed : Forall (λ c, c ≠ 10 ∧ c ≠ ctl 68) ed
}.

(** What a character does to the lines. *)
Definition line_step (c : Z) (l : list Z * list Z) : list Z * list Z :=
  let '(com, ed) := l in
  if c =? ctl 80 then (com, ed)
  else if c =? ctl 85 then (com, [])
  else if (c =? ctl 72) || (c =? 127) then (com, take (length ed - 1) ed)
  else if negb (c =? 0) && (Z.of_nat (length com + length ed) <? INPUT_BUF) then
    let c := if c =? 13 then 10 else c in
    if (c =? 10) || (c =? ctl 68) || (Z.of_nat (length com + length ed) + 1 =? INPUT_BUF)
    then (com ++ ed ++ [u8 c], []) else (com, ed ++ [u8 c])
  else (com, ed).

Lemma input_rep_edit i com ed : input_rep i com ed → (in_e i =? in_w i) = bool_decide (ed = []).
Proof.
  intros []. rewrite ir_w0, ir_e0. case_bool_decide as H; subst; simpl.
  - apply Z.eqb_eq. f_equal. lia.
  - apply Z.eqb_neq. assert (0 < Z.of_nat (length ed) ≤ 128) as Hl by (destruct ed; simpl in *; [done|lia]).
    intros E. unfold u32 in E. Z.div_mod_to_equations. lia.
Qed.

Lemma input_rep_count i com ed : input_rep i com ed → u32 (in_e i - in_r i) = Z.of_nat (length com + length ed).
Proof. intros []. rewrite ir_e0, u32_sub_l, u32_small; lia. Qed.

(** Editing: the last character goes. *)
Lemma input_rep_back i com ed c : input_rep i com (ed ++ [c]) →
  input_rep (set_e (u32 (in_e i - 1)) i) com ed ∧ in_buf i !!! slot (u32 (in_e i - 1)) = c ∧ c ≠ 10.
Proof.
  intros []. rewrite !length_app in *. simpl in *. apply Forall_app in ir_ed0 as [Hed [[Hc _] _]%Forall_cons].
  replace (length com + (length ed + 1))%nat with (S (length com + length ed)) in ir_seg0 by lia.
  rewrite seg_snoc, (assoc_L (++)) in ir_seg0. apply app_inj_tail in ir_seg0 as [Hs Hl].
  assert (u32 (in_e i - 1) = u32 (in_r i + Z.of_nat (length com) + Z.of_nat (length ed))) as He.
  { rewrite ir_e0, u32_sub_l. f_equal. lia. }
  split_and!; [|rewrite He, slot_u32|done].
  - constructor; simpl; try done; [lia|]. intros _. assert (ed ++ [c] ≠ []) as Hne by (by destruct ed). specialize (ir_full0 Hne). lia.
  - rewrite <- Hl. do 2 f_equal. lia.
Qed.

Lemma kill_line_ok n s com ed : input_rep (c_input s) com ed → screen_ok (c_screen s) → (length ed ≤ n)%nat →
  ∃ s', kill_line n s = Some s' ∧ input_rep (c_input s') com [] ∧ screen_ok (c_screen s').
Proof.
  revert s ed. induction n as [|n IH]; intros s ed Hr Hs Hn.
  - destruct ed; [|simpl in Hn; lia]. exists s. unfold kill_line.
    rewrite (input_rep_edit _ _ _ Hr). by rewrite bool_decide_true.
  - cbn [kill_line]. rewrite (input_rep_edit _ _ _ Hr). destruct ed as [|c ed' _] using rev_ind.
    { exists s. by rewrite bool_decide_true. }
    rewrite bool_decide_false by (by destruct ed'). simpl. rewrite length_app in Hn. simpl in Hn.
    destruct (input_rep_back _ _ _ _ Hr) as (Hr' & E & Hne). rewrite E. apply Z.eqb_neq in Hne. rewrite Hne. simpl.
    set (s1 := set_input _ s). destruct (consputc_ok BACKSPACE s1) as (s2 & -> & Hs2 & E2); [done|].
    simpl. apply (IH s2 ed'); [by rewrite E2|done|lia].
Qed.

(** Adding a character, in the line or as its end. *)
Lemma input_rep_snoc i com ed c : input_rep i com ed → (length com + length ed < 128)%nat →
  let buf := <[slot (in_e i) := u8 c]> (in_buf i) in
  input_rep (mkInput buf (in_r i) (u32 (in_e i + 1)) (u32 (in_e i + 1))) (com ++ ed ++ [u8 c]) [] ∧
  ((length com + length ed + 1 < 128)%nat → u8 c ≠ 10 → u8 c ≠ ctl 68 →
    input_rep (mkInput buf (in_r i) (in_w i) (u32 (in_e i + 1))) com (ed ++ [u8 c])).
Proof.
  intros [] Hroom buf. assert (slot (in_e i) = slot (in_r i + Z.of_nat (length com + length ed))) as Hsl.
  { rewrite ir_e0, slot_u32. f_equal. lia. }
  assert (seg buf (in_r i) (S (length com + length ed)) = com ++ ed ++ [u8 c]) as Hseg.
  { rewrite seg_snoc. unfold buf at 2. rewrite Hsl, arr_insert_eq by (rewrite ir_len0; apply slot_lt).
    unfold buf. rewrite Hsl, seg_insert, ir_seg0 by done. by rewrite <- (assoc_L (++)). }
  assert (length buf = 128%nat) as Hb by (unfold buf; by rewrite length_insert).
  assert (u32 (in_e i + 1) = u32 (in_r i + Z.of_nat (length com) + Z.of_nat (length ed) + 1)) as He.
  { by rewrite ir_e0, u32_add_l. }
  split.
  - constructor; simpl; rewrite ?length_app; simpl; try done.
    + rewrite He. f_equal. lia.
    + rewrite He. f_equal. lia.
    + rewrite app_nil_r, <- Hseg. f_equal. lia.
    + lia.
  - intros Hlt Hn Hd. constructor; simpl; rewrite ?length_app; simpl; try done.
    + rewrite He. f_equal. lia.
    + rewrite <- Hseg. f_equal. lia.
    + lia.
    + intros _. lia.
    + apply Forall_app. split; [done|]. by apply Forall_singleton.
Qed.

Lemma input_char_ok i com ed c : input_rep i com ed → 0 ≤ c < 256 →
  c ≠ ctl 80 → c ≠ ctl 85 → c ≠ ctl 72 → c ≠ 127 →
  match input_char c i with
  | Some (i', _, w) => input_rep i' (line_step c (com, ed)).1 (line_step c (com, ed)).2 ∧
      (w = true ↔ (line_step c (com, ed)).2 = [])
  | None => line_step c (com, ed) = (com, ed)
  end.
Proof.
  intros Hr Hc H1 H2 H3 H4. unfold input_char, line_step. rewrite (input_rep_count _ _ _ Hr).
  apply Z.eqb_neq in H1, H2, H3, H4. rewrite H1, H2, H3, H4. simpl.
  destruct (Z.eqb_spec c 0) as [->|H0]; simpl; [done|].
  destruct (Z.ltb_spec (Z.of_nat (length com + length ed)) INPUT_BUF) as [Hroom|Hroom]; [|done].
  unfold INPUT_BUF in *. set (c' := if c =? 13 then 10 else c).
  assert (0 ≤ c' < 256) as Hc' by (unfold c'; destruct (c =? 13); lia).
  assert (u8 c' = c') as Eu by (apply u8_small; lia).
  destruct (input_rep_snoc i com ed c' Hr) as [Hcom Hed]; [lia|].
  assert ((u32 (in_e i + 1) =? u32 (in_r i + 128)) = (Z.of_nat (length com + length ed) + 1 =? 128)) as ->.
  { pose proof Hr as []. rewrite ir_e0, u32_add_l.
    apply eq_bool_prop_intro. rewrite !Is_true_true, !Z.eqb_eq. unfold u32. split; [|intros; f_equal; lia].
    intros E. Z.div_mod_to_equations. lia. }
  destruct ((c' =? 10) || (c' =? ctl 68) || (Z.of_nat (length com + length ed) + 1 =? 128)) eqn:E; simpl.
  - done.
  - apply orb_false_iff in E as [[E1%Z.eqb_neq E2%Z.eqb_neq]%orb_false_iff E3%Z.eqb_neq].
    split; [apply Hed; [lia|congruence..]|]. split; [done|]. by destruct ed.
Qed.

(** A line that is still being edited has not been added to the others. *)
Lemma line_step_edits c com ed : (line_step c (com, ed)).2 ≠ [] → (line_step c (com, ed)).1 = com.
Proof. unfold line_step. repeat case_match; simpl; congruence. Qed.

(** procdump prints and leaves the input alone. *)
Definition prints (dump : cons → option cons) : Prop := ∀ s, screen_ok (c_screen s) →
  ∃ s', dump s = Some s' ∧ screen_ok (c_screen s') ∧ c_input s' = c_input s.

Lemma consoleintr_char_ok dump c s com ed : prints dump → 0 ≤ c < 256 →
  input_rep (c_input s) com ed → screen_ok (c_screen s) →
  ∃ s' w, consoleintr_char dump c s = Some (s', w) ∧
    input_rep (c_input s') (line_step c (com, ed)).1 (line_step c (com, ed)).2 ∧ screen_ok (c_screen s') ∧
    (w = false → (line_step c (com, ed)).1 = com).
Proof.
  intros Hd Hc Hr Hs. unfold consoleintr_char. destruct (Z.eqb_spec c (ctl 80)) as [->|H1].
  { destruct (Hd s Hs) as (s' & -> & Hs' & E). exists s', false. by rewrite E. }
  destruct (Z.eqb_spec c (ctl 85)) as [->|H2].
  { destruct (kill_line_ok (Z.to_nat (u32 (in_e (c_input s) - in_w (c_input s)))) s com ed Hr Hs) as (s' & -> & Hr' & Hs').
    - pose proof Hr as []. rewrite ir_e0, ir_w0, u32_sub_l, u32_sub_r, u32_small; lia.
    - by exists s', false. }
  destruct ((c =? ctl 72) || (c =? 127)) eqn:H3.
  { assert (line_step c (com, ed) = (com, take (length ed - 1) ed)) as ->.
    { unfold line_step. apply Z.eqb_neq in H1, H2. by rewrite H1, H2, H3. }
    rewrite (input_rep_edit _ _ _ Hr). destruct ed as [|x ed' _] using rev_ind.
    { exists s, false. by rewrite bool_decide_true. }
    rewrite bool_decide_false by (by destruct ed'). simpl.
    rewrite length_app, Nat.add_sub, take_app_length. destruct (input_rep_back _ _ _ _ Hr) as (Hr' & _ & _).
    set (s1 := set_input _ s). destruct (consputc_ok BACKSPACE s1) as (s2 & -> & Hs2 & E2); [done|].
    exists s2, false. by rewrite E2. }
  apply orb_false_iff in H3 as [H3%Z.eqb_neq H4%Z.eqb_neq].
  pose proof (input_char_ok _ _ _ c Hr Hc H1 H2 H3 H4) as Hi. destruct (input_char c (c_input s)) as [[[i' c'] w]|].
  - destruct Hi as [Hi Hw]. destruct (consputc_ok c' (set_input i' s)) as (s2 & -> & Hs2 & E2); [done|].
    exists s2, w. rewrite E2. split_and!; [done|done|done|]. intros ->. apply line_step_edits. intros Eq. by apply Hw in Eq.
  - exists s, false. by rewrite Hi.
Qed.

Lemma consputs_prints cs : prints (consputs cs).
Proof.
  induction cs as [|c cs IH]; intros s Hs; [by exists s|]. cbn [consputs].
  destruct (consputc_ok c s Hs) as (s1 & -> & Hs1 & E1). destruct (IH s1 Hs1) as (s2 & E & Hs2 & E2).
  exists s2. simpl. by rewrite E, E2.
Qed.

(** Reading takes the first line off the queue. *)
Lemma input_rep_take i c com ed : input_rep i (c :: com) ed →
  in_buf i !!! slot (in_r i) = c ∧ (in_r i =? in_w i) = false ∧
  input_rep (mkInput (in_buf i) (u32 (in_r i + 1)) (in_w i) (in_e i)) com ed.
Proof.
  intros []. simpl in *. rewrite seg_cons in ir_seg0. injection ir_seg0 as Hc Hseg. split_and!; [done| |].
  - apply Z.eqb_neq. rewrite ir_w0. intros E. unfold u32 in E. Z.div_mod_to_equations. lia.
  - constructor; simpl; try done.
    + apply u32_range.
    + rewrite u32_add_l, ir_w0. f_equal. lia.
    + rewrite <- Z.add_assoc, u32_add_l, ir_e0. f_equal. lia.
    + by rewrite seg_u32.
    + lia.
Qed.

Lemma consoleread_loop_line l n target i rest ed : Forall (λ c, c ≠ 10 ∧ c ≠ ctl 68) l →
  input_rep i (l ++ 10 :: rest) ed → (length l < n)%nat →
  ∃ i', consoleread_loop n target i = (i', l ++ [10], Z.of_nat n - Z.of_nat (length l) - 1, true) ∧ input_rep i' rest ed.
Proof.
  intros Hl. revert n i. induction Hl as [|c l [Hc Hd] Hl IH]; intros n i Hr Hn; destruct n as [|n]; simpl in Hn; try lia;
    destruct (input_rep_take _ _ _ _ Hr) as (Ec & Er & Hr'); cbn [consoleread_loop]; rewrite Er, Ec.
  - eexists. split; [|exact Hr']. simpl. do 2 f_equal. lia.
  - apply Z.eqb_neq in Hc, Hd. rewrite Hc, Hd. destruct (IH n _ Hr' ltac:(lia)) as (i' & -> & Hi').
    exists i'. split; [|done]. simpl. do 2 f_equal. lia.
Qed.

Lemma consoleread_line i n killed l rest ed : input_rep i (l ++ 10 :: rest) ed →
  Forall (λ c, c ≠ 10 ∧ c ≠ ctl 68) l → Z.of_nat (length l) < n →
  ∃ i', consoleread n killed i = (i', l ++ [10], RDone (Z.of_nat (length l) + 1)) ∧ input_rep i' rest ed.
Proof.
  intros Hr Hl Hn. destruct (consoleread_loop_line l (Z.to_nat n) n i rest ed Hl Hr ltac:(lia)) as (i' & E' & Hi').
  exists i'. split; [|done]. unfold consoleread. destruct (Z.leb_spec n 0); [lia|]. rewrite E'.
  do 2 f_equal. lia.
Qed.

(** ** A concrete console *)

Definition cons0 : cons :=
  mkCons (mkInput (replicate 128 0) (2 ^ 32 - 3) (2 ^ 32 - 3) (2 ^ 32 - 3)) (mkScreen (replicate (25 * 80) 0) 0) [].
Lemma cons0_input : input_rep (c_input cons0) [] [].
Proof. constructor; cbn [c_input cons0 in_buf in_r in_w in_e length Nat.add]; [done|lia|done|done|done|lia|done|constructor]. Qed.
Lemma cons0_screen : screen_ok (c_screen cons0).
Proof. constructor; [by vm_compute|]. simpl. lia. Qed.

(** "lx", backspace, "s", newline, "a" on a ring whose indices are about to
    wrap around. *)
Definition keys : list Z := [108; 120; 8; 115; 13; 97].

Lemma keys_ok : Forall (λ c, 0 ≤ c < 256) keys.
Proof. repeat constructor; lia. Qed.
