(* ===== verification/Kbd.v ===== *)
(** * The keyboard (kbd.c, kbd.h)

    The decoder of scan codes: from the bytes of the keyboard controller to
    characters, with the shift state kept between the bytes. *)

From stdpp Require Import base numbers option list strings.
From Stdlib Require Import ZArith Lia ZifyBool.
From S2P Require Import Prelude Bytes.
Local Open Scope Z_scope.

Module Kbd.

Definition SHIFT : Z := 1.
Definition CTL : Z := 2.
Definition ALT : Z := 4.
Definition CAPSLOCK : Z := 8.
Definition NUMLOCK : Z := 16.
Definition SCROLLLOCK : Z := 32.
Definition E0ESC : Z := 64.

Definition KEY_HOME : Z := 224.
Definition KEY_END : Z := 225.
Definition KEY_UP : Z := 226.
Definition KEY_DN : Z := 227.
Definition KEY_LF : Z := 228.
Definition KEY_RT : Z := 229.
Definition KEY_PGUP : Z := 230.
Definition KEY_PGDN : Z := 231.
Definition KEY_INS : Z := 232.
Definition KEY_DEL : Z := 233.

(** An array of 256 entries with its initial entries and its designated
    ones; the others are 0. *)
Definition table (prefix : list Z) (designated : list (Z * Z)) : list Z :=
  foldl (λ l e, <[Z.to_nat e.1 := e.2]> l) (prefix ++ replicate (256 - length prefix) 0) designated.

Definition shiftcode : list Z := table []
  [(29, CTL); (42, SHIFT); (54, SHIFT); (56, ALT); (157, CTL); (184, ALT)].

Definition togglecode : list Z := table []
  [(58, CAPSLOCK); (69, NUMLOCK); (70, SCROLLLOCK)].

Definition normalmap : list Z := table [
   0; 27; 49; 50; 51; 52; 53; 54; 55; 56; 57; 48; 45; 61; 8; 9;
   113; 119; 101; 114; 116; 121; 117; 105; 111; 112; 91; 93; 10; 0; 97; 115;
   100; 102; 103; 104; 106; 107; 108; 59; 39; 96; 0; 92; 122; 120; 99; 118;
   98; 110; 109; 44; 46; 47; 0; 42; 0; 32; 0; 0; 0; 0; 0; 0;
   0; 0; 0; 0; 0; 0; 0; 55; 56; 57; 45; 52; 53; 54; 43; 49;
   50; 51; 48; 46; 0; 0; 0; 0]
  [(156, 10); (181, 47); (200, KEY_UP); (208, KEY_DN); (201, KEY_PGUP);
   (209, KEY_PGDN); (203, KEY_LF); (205, KEY_RT); (151, KEY_HOME); (207, KEY_END);
   (210, KEY_INS); (211, KEY_DEL)].

Definition shiftmap : list Z := table [
   0; 27; 33; 64; 35; 36; 37; 94; 38; 42; 40; 41; 95; 43; 8; 9;
   81; 87; 69; 82; 84; 89; 85; 73; 79; 80; 123; 125; 10; 0; 65; 83;
   68; 70; 71; 72; 74; 75; 76; 58; 34; 126; 0; 124; 90; 88; 67; 86;
   66; 78; 77; 60; 62; 63; 0; 42; 0; 32; 0; 0; 0; 0; 0; 0;
   0; 0; 0; 0; 0; 0; 0; 55; 56; 57; 45; 52; 53; 54; 43; 49;
   50; 51; 48; 46; 0; 0; 0; 0]
  [(156, 10); (181, 47); (200, KEY_UP); (208, KEY_DN); (201, KEY_PGUP);
   (209, KEY_PGDN); (203, KEY_LF); (205, KEY_RT); (151, KEY_HOME); (207, KEY_END);
   (210, KEY_INS); (211, KEY_DEL)].

Definition ctlmap : list Z := table [
   0; 0; 0; 0; 0; 0; 0; 0; 0; 0; 0; 0; 0; 0; 0; 0;
   17; 23; 5; 18; 20; 25; 21; 9; 15; 16; 0; 0; 13; 0; 1; 19;
   4; 6; 7; 8; 10; 11; 12; 0; 0; 0; 0; 28; 26; 24; 3; 22;
   2; 14; 13; 0; 0; 239; 0; 0]
  [(156, 13); (181, 239); (200, KEY_UP); (208, KEY_DN); (201, KEY_PGUP);
   (209, KEY_PGDN); (203, KEY_LF); (205, KEY_RT); (151, KEY_HOME); (207, KEY_END);
   (210, KEY_INS); (211, KEY_DEL)].

(** [charcode[shift & (CTL | SHIFT)]]. *)
Definition charcode (m : Z) : list Z :=
  if m =? 0 then normalmap else if m =? 1 then shiftmap else ctlmap.

(** [if(shift & CAPSLOCK)]. *)
Definition capslock (shift c : Z) : Z :=
  if flag shift CAPSLOCK then
    if (97 <=? c) && (c <=? 122) then c + 65 - 97
    else if (65 <=? c) && (c <=? 90) then c + 97 - 65
    else c
  else c.

(** [codes] are the bytes that wait in the controller: the status port says
    whether there is one, the data port takes the first.  The result is the
    value of kbdgetc, [shift] and the bytes left. *)
Definition kbdgetc (shift : Z) (codes : list Z) : Z * Z * list Z :=
  match codes with
  | [] => (-1, shift, [])
  | data :: codes' =>
      if data =? 224 then (0, setf shift E0ESC, codes')
      else if flag data 128 then
        let data := if flag shift E0ESC then data else Z.land data 127 in
        (0, clrf shift (Z.lor (shiftcode !!! Z.to_nat data) E0ESC), codes')
      else
        let '(data, shift) :=
          if flag shift E0ESC then (Z.lor data 128, clrf shift E0ESC) else (data, shift) in
        let shift := setf shift (shiftcode !!! Z.to_nat data) in
        let shift := Z.lxor shift (togglecode !!! Z.to_nat data) in
        let c := charcode (Z.land shift (Z.lor CTL SHIFT)) !!! Z.to_nat data in
        (capslock shift c, shift, codes')
  end.

(** The characters that consoleintr gets from kbdgetc in one interrupt. *)
Fixpoint kbd_chars (n : nat) (shift : Z) (codes : list Z) : list Z * Z :=
  match n with
  | O => ([], shift)
  | S n' =>
      let '(c, shift', codes') := kbdgetc shift codes in
      if c <? 0 then ([], shift')
      else let '(cs, shift'') := kbd_chars n' shift' codes' in (c :: cs, shift'')
  end.
Definition kbd_input (shift : Z) (codes : list Z) : list Z * Z := kbd_chars (S (length codes)) shift codes.
End Kbd.
