(* ===== verification/Printf.v ===== *)
(** * Formatted output of user programs (printf.c)

    printf as the bytes it passes to [write], one at a time, and that the
    decimal and hexadecimal output of both printf.c and console.c reads back as
    the number printed. *)

From stdpp Require Import base numbers option list strings.
From Stdlib Require Import ZArith Lia ZifyBool.
From S2P Require Import Prelude Bytes Console.
Local Open Scope Z_scope.

Module Printf.
Import Console.

(** "0123456789ABCDEF". *)
Definition DIGIT (d : Z) : Z := if d <? 10 then 48 + d else 55 + d.

Definition printint (xx base : Z) (sgn : bool) : list Z :=
  let neg := sgn && (i32 xx <? 0) in
  let x := if neg then u32 (- i32 xx) else u32 xx in
  let buf := print_digits DIGIT 32 x base in
  reverse (if neg then buf ++ [45] else buf).

(** The loop of printf; [pct] says that [state] is ['%'].  The result is
    [None] when an argument is missing or of the wrong kind. *)
Fixpoint printf_loop (pct : bool) (fmt : list Z) (ap : list arg) : option (list Z) :=
  match fmt with
  | [] => Some []
  | c :: fmt' =>
      if c =? 0 then Some []
      else if negb pct then
        if c =? 37 then printf_loop true fmt' ap else (c ::.) <$> printf_loop false fmt' ap
      else if c =? 100 then
        match ap with AInt z :: ap' => (printint z 10 true ++.) <$> printf_loop false fmt' ap' | _ => None end
      else if (c =? 120) || (c =? 112) then
        match ap with AInt z :: ap' => (printint z 16 false ++.) <$> printf_loop false fmt' ap' | _ => None end
      else if c =? 115 then
        match ap with
        | AStr s :: ap' => (cstr (default null_string s) ++.) <$> printf_loop false fmt' ap'
        | _ => None
        end
      else if c =? 99 then
        match ap with AInt z :: ap' => (u8 z ::.) <$> printf_loop false fmt' ap' | _ => None end
      else if c =? 37 then (c ::.) <$> printf_loop false fmt' ap
      else (λ o, 37 :: c :: o) <$> printf_loop false fmt' ap
  end.

Definition printf (fmt : list Z) (ap : list arg) : option (list Z) := printf_loop false fmt ap.

(** ** Reading a number back *)

(** The value of a digit character. *)
Definition digit_value (c : Z) : Z :=
  if c <? 58 then c - 48 else if c <? 71 then c - 55 else c - 87.

Definition number (base : Z) (s : list Z) : Z := foldl (λ n c, n * base + digit_value c) 0 s.

Definition signed_number (base : Z) (s : list Z) : Z :=
  match s with
  | c :: s' => if c =? 45 then - number base s' else number base s
  | [] => 0
  end.

Lemma number_app base s c : number base (s ++ [c]) = number base s * base + digit_value c.
Proof. unfold number. by rewrite foldl_app. Qed.

Lemma print_digits_S dig fuel x base : print_digits dig (S fuel) x base =
  dig (x mod base) :: (if x / base =? 0 then [] else print_digits dig fuel (x / base) base).
Proof. done. Qed.

Section digits.
Variable dig : Z → Z.
Hypothesis Hdig : ∀ d, 0 ≤ d < 16 → digit_value (dig d) = d ∧ dig d ≠ 45.

Lemma print_digits_number fuel x base : 2 ≤ base ≤ 16 → 0 ≤ x < 2 ^ Z.of_nat (S fuel) →
  number base (reverse (print_digits dig (S fuel) x base)) = x.
Proof.
  intros Hb. revert x. induction fuel as [|fuel IH]; intros x Hx.
  - assert (x = 0 ∨ x = 1) as Hx01 by (simpl in Hx; lia). rewrite print_digits_S.
    rewrite Z.div_small, Z.mod_small by lia. simpl. unfold number. simpl. by destruct (Hdig x) as [-> _]; [lia|].
  - rewrite print_digits_S. pose proof (Z.mod_pos_bound x base ltac:(lia)) as Hm.
    destruct (Z.eqb_spec (x / base) 0) as [E|E].
    + unfold number. simpl. rewrite (proj1 (Hdig (x mod base) ltac:(lia))).
      rewrite (Z.div_mod x base) at 2 by lia. lia.
    + rewrite reverse_cons, number_app. rewrite (proj1 (Hdig (x mod base) ltac:(lia))).
      rewrite IH; [rewrite (Z.div_mod x base) at 3 by lia; lia|].
      split; [apply Z.div_pos; lia|]. apply Z.div_lt_upper_bound; [lia|].
      rewrite Nat2Z.inj_succ, Z.pow_succ_r in Hx by lia. nia.
Qed.

Lemma print_digits_last fuel x base : 2 ≤ base ≤ 16 → 0 ≤ x →
  ∃ c s, reverse (print_digits dig (S fuel) x base) = c :: s ∧ c ≠ 45.
Proof.
  intros Hb. revert x. induction fuel as [|fuel IH]; intros x Hx; rewrite print_digits_S;
    pose proof (Z.mod_pos_bound x base ltac:(lia)) as Hm; destruct (Hdig (x mod base) ltac:(lia)) as [_ Hd].
  - exists (dig (x mod base)), []. by destruct (x / base =? 0).
  - destruct (x / base =? 0); [by exists (dig (x mod base)), []|].
    destruct (IH (x / base)) as (c & s & E & Hc); [apply Z.div_pos; lia|].
    rewrite reverse_cons, E. by exists c, (s ++ [dig (x mod base)]).
Qed.

Lemma print_digits_signed base (neg : bool) x : 2 ≤ base ≤ 16 → 0 ≤ x < 2 ^ 32 →
  signed_number base (reverse (if neg then print_digits dig 32 x base ++ [45] else print_digits dig 32 x base))
    = if neg then - x else x.
Proof.
  intros Hb Hx. pose proof (print_digits_number 31 x base Hb Hx) as Hn.
  destruct (print_digits_last 31 x base Hb ltac:(lia)) as (c & s & E & Hc).
  generalize dependent (print_digits dig 32 x base). intros ds Hn E. destruct neg.
  - rewrite reverse_snoc. simpl. by rewrite Hn.
  - rewrite E in *.
    unfold signed_number. destruct (Z.eqb_spec c 45); [done|exact Hn].
Qed.
End digits.

Lemma digit_ok d : 0 ≤ d < 16 → digit_value (digit d) = d ∧ digit d ≠ 45.
Proof.
  intros Hd. unfold digit_value, digit. destruct (Z.ltb_spec d 10).
  - rewrite (proj2 (Z.ltb_lt (48 + d) 58)) by lia. lia.
  - rewrite (proj2 (Z.ltb_ge (87 + d) 58)), (proj2 (Z.ltb_ge (87 + d) 71)) by lia. lia.
Qed.

Lemma DIGIT_ok d : 0 ≤ d < 16 → digit_value (DIGIT d) = d ∧ DIGIT d ≠ 45.
Proof.
  intros Hd. unfold digit_value, DIGIT. destruct (Z.ltb_spec d 10).
  - rewrite (proj2 (Z.ltb_lt (48 + d) 58)) by lia. lia.
  - rewrite (proj2 (Z.ltb_ge (55 + d) 58)), (proj2 (Z.ltb_lt (55 + d) 71)) by lia. lia.
Qed.

(** The number that is printed, as the digits and the sign give it. *)
Lemma neg_value xx (sgn : bool) : let neg := sgn && (i32 xx <? 0) in
  let x := if neg then u32 (- i32 xx) else u32 xx in
  (if neg then - x else x) = if sgn then i32 xx else u32 xx.
Proof.
  pose proof (i32_range xx) as Hr. destruct sgn; cbn [andb]; [|done].
  destruct (Z.ltb_spec (i32 xx) 0); cbv zeta.
  - rewrite u32_small by lia. lia.
  - unfold i32, u32 in *. pose proof (Z.mod_pos_bound xx (2 ^ 32) ltac:(lia)).
    pose proof (Z.div_mod xx (2 ^ 32) ltac:(lia)). Z.div_mod_to_equations. nia.
Qed.

(** A number that the kernel or a user program prints reads back as that
    number: the output of [printint] in base 2 to 16 is the sign and the digits
    of the 32-bit value, signed or unsigned as asked, for every value including
    the most negative one. *)
Theorem printint_roundtrip xx base (sgn : bool) : 2 ≤ base ≤ 16 →
  signed_number base (Console.printint xx base sgn) = (if sgn then i32 xx else u32 xx) ∧
  signed_number base (Printf.printint xx base sgn) = (if sgn then i32 xx else u32 xx).
Proof.
  intros Hb. rewrite <- !(neg_value xx sgn). unfold Console.printint, Printf.printint. cbv zeta.
  set (x := if sgn && (i32 xx <? 0) then u32 (- i32 xx) else u32 xx).
  assert (0 ≤ x < 2 ^ 32) by (unfold x; destruct (sgn && _); apply u32_range).
  split; apply print_digits_signed; auto using digit_ok, DIGIT_ok.
Qed.

(** The most negative number, in decimal: "-2147483648". *)
Lemma printint_roundtrip_witness :
  Printf.printint (- 2 ^ 31) 10 true = [45; 50; 49; 52; 55; 52; 56; 51; 54; 52; 56] ∧
  signed_number 10 (Printf.printint (- 2 ^ 31) 10 true) = - 2 ^ 31.
Proof. split; [reflexivity|]. apply (printint_roundtrip (- 2 ^ 31) 10 true). lia. Defined.
End Printf.
