(* ===== verification/Utils.v ===== *)
(** * Filters (wc.c, cat.c)

    The input is what the calls of read return: non-empty pieces, and then 0
    for the end of the file or -1 for an error. *)

From stdpp Require Import base numbers option list strings.
From Stdlib Require Import ZArith Lia ZifyBool.
From S2P Require Import Prelude CString.
Local Open Scope Z_scope.

Module Utils.

(** The pieces, and whether the input ends with an error. *)
Record input := mkInput { pieces : list (list Z); failed : bool }.

(** ** wc *)

(** The counters l, w and c, and inword. *)
Record counts := mkCounts { lines : Z; words : Z; chars : Z; inword : bool }.

(** " \r\t\n\v". *)
Definition white : list Z := [32; 13; 9; 10; 11].

(** The body of the inner loop. *)
Definition wc_char (s : counts) (b : Z) : counts :=
  let s := mkCounts (lines s) (words s) (i32 (chars s + 1)) (inword s) in
  let s := if b =? 10 then mkCounts (i32 (lines s + 1)) (words s) (chars s) (inword s) else s in
  match CString.strchr white b with
  | Some _ => mkCounts (lines s) (words s) (chars s) false
  | None => if negb (inword s) then mkCounts (lines s) (i32 (words s + 1)) (chars s) true else s
  end.

(** [None] for a read error, otherwise the numbers that are printed. *)
Definition wc (i : input) : option (Z * Z * Z) :=
  let s := foldl (λ s p, foldl wc_char s p) (mkCounts 0 0 0 false) (pieces i) in
  if failed i then None else Some (lines s, words s, chars s).

(** ** cat *)

(** What is written to descriptor 1, and whether an error is reported. *)
Definition cat (i : input) : list Z * bool := (foldl (λ out p, out ++ p) [] (pieces i), failed i).

(** ** Properties *)

Definition is_blank (c : Z) : bool := existsb (Z.eqb c) white.

(** The maximal sequences of characters that are not blank. *)
Fixpoint split_words (cur : list Z) (t : list Z) : list (list Z) :=
  match t with
  | [] => if decide (cur = []) then [] else [cur]
  | c :: t => if is_blank c then (if decide (cur = []) then [] else [cur]) ++ split_words [] t else split_words (cur ++ [c]) t
  end.

Definition newlines (t : list Z) : Z := Z.of_nat (length (filter (λ c, c = 10) t)).

Lemma strchr_white c : CString.strchr white c = None ↔ is_blank c = false.
Proof.
  unfold is_blank, white. cbn [CString.strchr existsb]. rewrite !(Z.eqb_sym c).
  destruct (32 =? c), (13 =? c), (9 =? c), (10 =? c), (11 =? c); simpl; split; done.
Qed.

Lemma split_words_length cur t : (length (split_words cur t) <= length t + if decide (cur = []) then 0 else 1)%nat.
Proof.
  revert cur. induction t as [|c t IH]; intros cur; simpl.
  - destruct (decide (cur = [])); simpl; lia.
  - destruct (is_blank c).
    + rewrite length_app. specialize (IH []). rewrite decide_True in IH by done. destruct (decide (cur = [])); simpl; lia.
    + specialize (IH (cur ++ [c])). rewrite decide_False in IH by (by destruct cur). lia.
Qed.

(** The counters after the text [t], when the word that is being read is [cur];
    they do not wrap around. *)
Lemma wc_chars t : ∀ s cur, inword s = bool_decide (cur ≠ []) →
  0 ≤ lines s → 0 ≤ words s → 0 ≤ chars s → lines s + Z.of_nat (length t) < 2 ^ 31 → words s + Z.of_nat (length t) < 2 ^ 31 →
  chars s + Z.of_nat (length t) < 2 ^ 31 →
  let s' := foldl wc_char s t in
  lines s' = lines s + newlines t ∧ chars s' = chars s + Z.of_nat (length t) ∧
  words s' = words s + Z.of_nat (length (split_words cur t)) - (if inword s then 1 else 0).
Proof.
  induction t as [|c t IH]; intros s cur Hin Hl Hw Hc Hl2 Hw2 Hc2; cbn [foldl length] in *.
  { unfold newlines. simpl. rewrite Hin. destruct (decide (cur = [])) as [->|Hne]; simpl; [lia|]. rewrite bool_decide_true by done. simpl. lia. }
  assert (newlines (c :: t) = (if c =? 10 then 1 else 0) + newlines t) as Hnl.
  { unfold newlines. rewrite filter_cons. destruct (decide (c = 10)) as [->|]; simpl; [lia|]. by replace (c =? 10) with false by lia. }
  assert (0 ≤ newlines t) by (unfold newlines; lia).
  set (s1 := wc_char s c). assert (lines s1 = lines s + (if c =? 10 then 1 else 0) ∧ chars s1 = chars s + 1 ∧
    (if is_blank c then words s1 = words s ∧ inword s1 = false
     else words s1 = words s + (if inword s then 0 else 1) ∧ inword s1 = true)) as (E1 & E2 & E3).
  { unfold s1, wc_char. pose proof (strchr_white c) as Hsw.
    destruct (CString.strchr white c) as [x|] eqn:Es, (is_blank c) eqn:Eb; try (by destruct Hsw as [H1 H2]; (discriminate H1 || discriminate H2));
      destruct (c =? 10), (inword s) eqn:Ei; cbn [lines words chars inword negb]; rewrite ?i32_small by lia; split_and!; done || lia. }
  cbn [split_words]. destruct (is_blank c) eqn:Eb; destruct E3 as [E3 E4].
  - destruct (IH s1 []) as (H1 & H2 & H3); [by rewrite E4|destruct (c =? 10); lia..|].
    rewrite H1, H2, H3, E1, E2, E3, E4, Hnl, length_app, Hin. destruct (decide (cur = [])) as [->|Hne]; [simpl; lia|].
    rewrite bool_decide_true by done. simpl. lia.
  - assert (is_blank 10 = true) as H10 by done. assert (c =? 10 = false) as E10 by (apply Z.eqb_neq; intros ->; congruence).
    rewrite E10 in *. destruct (IH s1 (cur ++ [c])) as (H1 & H2 & H3).
    1: by rewrite E4, bool_decide_true by (by destruct cur).
    1-6: destruct (inword s); lia.
    rewrite H1, H2, H3, E1, E2, E3, E4, Hnl. destruct (inword s); lia.
Qed.

Lemma foldl_pieces {A} (f : A → Z → A) ps : ∀ s, foldl (λ s p, foldl f s p) s ps = foldl f s (concat ps).
Proof. induction ps as [|p ps IH]; intros s; simpl; [done|]. by rewrite foldl_app, IH. Qed.

(** wc counts the lines, words and characters of its input, however the
    calls of read split it; a read error is reported. *)
Theorem wc_counts (i : input) : let t := concat (pieces i) in Z.of_nat (length t) < 2 ^ 31 →
  wc i = if failed i then None else Some (newlines t, Z.of_nat (length (split_words [] t)), Z.of_nat (length t)).
Proof.
  intros t Hl. unfold wc. rewrite foldl_pieces. fold t.
  destruct (wc_chars t (mkCounts 0 0 0 false) []) as (-> & -> & ->); [done|simpl; lia..|]. simpl. by rewrite Z.sub_0_r.
Qed.

(** "a bc\n d" in two pieces. *)
Lemma wc_counts_witness : wc (mkInput [[97; 32; 98]; [99; 10; 32; 100]] false) = Some (1, 3, 7).
Proof. rewrite wc_counts; [vm_compute; reflexivity|vm_compute; reflexivity]. Defined.

(** cat copies its input. *)
Theorem cat_copies (i : input) : cat i = (concat (pieces i), failed i).
Proof.
  unfold cat. f_equal. assert (∀ out, foldl (λ out p, out ++ p) out (pieces i) = out ++ concat (pieces i)) as H; [|by rewrite H].
  induction (pieces i) as [|p ps IH]; intros out; simpl; [by rewrite app_nil_r|]. by rewrite IH, app_assoc.
Qed.
End Utils.
