(* ===== verification/Grep.v ===== *)
(** * The pattern matcher of grep (grep.c)

    Strings are the lists of their characters before the NUL.  The matcher is
    proved equivalent to a language of patterns, and the loop over the input
    buffer is modelled with the calls of read as a list of chunks. *)

From stdpp Require Import base numbers option list.
From Stdlib Require Import ZArith Lia ZifyBool.
From S2P Require Import Prelude Bytes.
Local Open Scope Z_scope.

Module Grep.

(** ** The matcher *)

(** "^", "$", "." and "*". *)
Definition CARET : Z := 94.
Definition DOLLAR : Z := 36.
Definition DOT : Z := 46.
Definition STAR : Z := 42.

(** [here] is [matchhere(re, ...)]. *)
Fixpoint matchstar (here : list Z → bool) (c : Z) (text : list Z) : bool :=
  if here text then true
  else match text with
  | [] => false
  | t :: text' => if (t =? c) || (c =? DOT) then matchstar here c text' else false
  end.

Fixpoint matchhere (re text : list Z) : bool :=
  match re with
  | [] => true
  | r :: re' =>
      match re' with
      | s :: re'' =>
          if s =? STAR then matchstar (matchhere re'') r text
          else match text with
          | t :: text' => if (r =? DOT) || (r =? t) then matchhere re' text' else false
          | [] => false
          end
      | [] =>
          if r =? DOLLAR then bool_decide (text = [])
          else match text with
          | t :: text' => if (r =? DOT) || (r =? t) then matchhere re' text' else false
          | [] => false
          end
      end
  end.

(** The loop of match. *)
Fixpoint match_loop (re text : list Z) : bool :=
  if matchhere re text then true
  else match text with
  | [] => false
  | _ :: text' => match_loop re text'
  end.

Definition match_ (re text : list Z) : bool :=
  match re with
  | r :: re' => if r =? CARET then matchhere re' text else match_loop re text
  | [] => match_loop re text
  end.

(** ** The loop over the input *)

Definition BUFSIZE : Z := 1024.

(** [strchr(p, '\n')] with [p = buf + i]: the index of the newline; [Some None]
    when the string ends before one, [None] when the scan leaves the buffer. *)
Fixpoint newline (i : nat) (l : list Z) : option (option nat) :=
  match l with
  | [] => None
  | c :: l' =>
      if c =? 10 then Some (Some i)
      else if c =? 0 then Some None
      else newline (S i) l'
  end.

(** The inner loop from [p = buf + p] on: the output, the buffer and the last
    value of [p].  Each turn takes at least one byte of the buffer. *)
Fixpoint grep_lines (fuel : nat) (pattern buf : list Z) (p : nat) : option (list Z * list Z * nat) :=
  match fuel with
  | O => None
  | S fuel' =>
      r ← newline p (drop p buf);
      match r with
      | None => Some ([], buf, p)
      | Some q =>
          let line := take (q - p) (drop p buf) in
          let hit := match_ pattern line in
          let buf := if hit then buf else <[q := 0]> buf in
          r ← grep_lines fuel' pattern buf (S q);
          let '(out, buf', p') := r in
          Some (if hit then line ++ [10] ++ out else out, buf', p')
      end
  end.

(** [l] stored at [buf + m]. *)
Definition buf_put (m : nat) (l buf : list Z) : list Z := take m buf ++ l ++ drop (m + length l) buf.

(** The outer loop.  [chunks] is what is available at each call of read, which
    takes at most the room left in the buffer.  [m] can become negative; a read
    to an address below the buffer is [None], like one beyond it. *)
Fixpoint grep_loop (fuel : nat) (pattern : list Z) (chunks : list (list Z)) (buf : list Z) (m : Z) :
    option (list Z) :=
  match fuel with
  | O => None
  | S fuel' =>
      match chunks with
      | [] => Some []
      | c :: chunks' =>
          if m <? 0 then None
          else
            let room := Z.to_nat (BUFSIZE - m) in
            let got := take room c in
            let chunks := if decide (drop room c = []) then chunks' else drop room c :: chunks' in
            if decide (got = []) then Some []
            else
              r ← grep_lines (S (Z.to_nat BUFSIZE)) pattern (buf_put (Z.to_nat m) got buf) 0;
              let '(out, buf, p) := r in
              let m := if decide (p = 0%nat) then 0 else m + Z.of_nat (length got) in
              let '(buf, m) :=
                if 0 <? m then
                  let m := m - Z.of_nat p in (buf_put 0 (take (Z.to_nat m) (drop p buf)) buf, m)
                else (buf, m) in
              out' ← grep_loop fuel' pattern chunks buf m;
              Some (out ++ out')
      end
  end.

(** [buf] is in the bss segment; each turn reads at least a byte. *)
Definition grep (pattern : list Z) (chunks : list (list Z)) : option (list Z) :=
  grep_loop (S (length (concat chunks))) pattern chunks (replicate (Z.to_nat BUFSIZE) 0) 0.

(** ** The language of patterns

    A pattern is a list of items, and it may be tied to the start or to the
    end of the line. *)

Inductive item := One (c : Z) | Many (c : Z).
Record pattern := mkPattern { pt_head : bool; pt_items : list item; pt_tail : bool }.

(** A character of the pattern stands for itself, a dot for any character. *)
Definition atom (c t : Z) : Prop := c = DOT ∨ c = t.

Inductive lang : list item → list Z → Prop :=
| lang_nil : lang [] []
| lang_one c t l s : atom c t → lang l s → lang (One c :: l) (t :: s)
| lang_many c ts l s : Forall (atom c) ts → lang l s → lang (Many c :: l) (ts ++ s).

(** The line has a part that the items describe, at the start or at the end of
    the line if the pattern says so. *)
Definition selects (p : pattern) (text : list Z) : Prop :=
  ∃ a s b, text = a ++ s ++ b ∧ lang (pt_items p) s ∧
    (pt_head p = true → a = []) ∧ (pt_tail p = true → b = []).

Fixpoint items (re : list Z) : list item * bool :=
  match re with
  | [] => ([], false)
  | [r] => if r =? DOLLAR then ([], true) else ([One r], false)
  | r :: (s :: re'') as re' =>
      if s =? STAR then let '(l, e) := items re'' in (Many r :: l, e)
      else let '(l, e) := items re' in (One r :: l, e)
  end.

Definition parse (re : list Z) : pattern :=
  match re with
  | r :: re' => if r =? CARET then let '(l, e) := items re' in mkPattern true l e
                else let '(l, e) := items re in mkPattern false l e
  | [] => mkPattern false [] false
  end.

(** ** Equivalence *)

Definition prefix_of (l : list item) (e : bool) (text : list Z) : Prop :=
  ∃ s b, text = s ++ b ∧ lang l s ∧ (e = true → b = []).

Lemma atom_spec c t : (c =? DOT) || (c =? t) = true ↔ atom c t.
Proof. unfold atom. lia. Qed.

Lemma prefix_nil text : prefix_of [] false text.
Proof. exists [], text. by repeat constructor. Qed.

Lemma prefix_one c l e text : prefix_of (One c :: l) e text ↔
  match text with [] => False | t :: text' => atom c t ∧ prefix_of l e text' end.
Proof.
  split.
  - intros (s & b & -> & Hs & He). inv Hs. simpl. split; [done|]. by eexists _, b.
  - destruct text as [|t text']; [done|]. intros (Ha & s & b & -> & Hs & He). exists (t :: s), b. split_and!; [done|by apply lang_one|done].
Qed.

Lemma prefix_many c l e text : prefix_of (Many c :: l) e text ↔
  prefix_of l e text ∨ match text with [] => False | t :: text' => atom c t ∧ prefix_of (Many c :: l) e text' end.
Proof.
  split.
  - intros (s & b & -> & Hs & He). inv Hs as [| |? ts ? s' Hts Hs']. destruct Hts as [|t ts Ht Hts].
    + left. by exists s', b.
    + right. simpl. split; [done|]. exists (ts ++ s'), b. split_and!; [by rewrite <- app_assoc|by apply lang_many|done].
  - intros [(s & b & -> & Hs & He)|H].
    + exists s, b. split_and!; [done| |done]. by apply (lang_many c []).
    + destruct text as [|t text']; [done|]. destruct H as (Ha & s & b & -> & Hs & He).
      inv Hs as [| |? ts ? s' Hts Hs']. exists ((t :: ts) ++ s'), b. split_and!; [done| |done]. constructor; [by constructor|done].
Qed.

Lemma matchstar_spec here c l e text : (∀ t, here t = true ↔ prefix_of l e t) →
  matchstar here c text = true ↔ prefix_of (Many c :: l) e text.
Proof.
  intros Hh. induction text as [|t text IH]; rewrite prefix_many, <- Hh; cbn [matchstar].
  - destruct (here []); [by split; [left|]|]. split; [done|by intros [?|[]]].
  - destruct (here (t :: text)); [by split; [left|]|].
    rewrite <- IH, <- atom_spec, (Z.eqb_sym t), orb_comm. destruct ((c =? DOT) || (c =? t)).
    + split; [by right|by intros [?|[_ ?]]].
    + split; [done|by intros [?|[? _]]].
Qed.

Lemma matchhere_cons2 r s re text : matchhere (r :: s :: re) text =
  if s =? STAR then matchstar (matchhere re) r text
  else match text with
  | t :: text' => if (r =? DOT) || (r =? t) then matchhere (s :: re) text' else false
  | [] => false
  end.
Proof. done. Qed.

Lemma items_cons2 r s re : items (r :: s :: re) =
  if s =? STAR then (Many r :: (items re).1, (items re).2) else (One r :: (items (s :: re)).1, (items (s :: re)).2).
Proof.
  transitivity (if s =? STAR then let '(l, e) := items re in (Many r :: l, e)
                else let '(l, e) := items (s :: re) in (One r :: l, e)); [done|].
  destruct (s =? STAR); [by destruct (items re)|by destruct (items (s :: re))].
Qed.

Lemma matchhere_spec re text : matchhere re text = true ↔ prefix_of (items re).1 (items re).2 text.
Proof.
  remember (length re) as n eqn:Hn. revert re Hn text. induction (lt_wf n) as [n _ IH]. intros re -> text.
  destruct re as [|r [|s re]]; [cbn [matchhere items]..|rewrite matchhere_cons2, items_cons2].
  - split; [intros _; apply prefix_nil|done].
  - destruct (r =? DOLLAR).
    + rewrite bool_decide_eq_true. simpl. split; [intros ->; exists [], []; by repeat constructor|].
      intros (x & b & -> & Hx & Hb). inv Hx. by rewrite Hb.
    + cbn [fst snd]. rewrite prefix_one. destruct text as [|t text]; [done|]. rewrite <- atom_spec.
      destruct (_ || _); [|by split; [|intros []]]. split; [|done]. intros _. split; [done|apply prefix_nil].
  - destruct (s =? STAR).
    + apply matchstar_spec, (IH (length re)); [simpl; lia|done].
    + cbn [fst snd]. rewrite prefix_one. destruct text as [|t text]; [done|].
      rewrite <- atom_spec, <- (IH (length (s :: re))) by (simpl; lia || done).
      destruct (_ || _); [by split; [|intros []]|by split; [|intros []]].
Qed.

Lemma match_loop_spec re text : match_loop re text = true ↔
  ∃ a text', text = a ++ text' ∧ prefix_of (items re).1 (items re).2 text'.
Proof.
  induction text as [|t text IH]; cbn [match_loop]; destruct (matchhere re _) eqn:E.
  - split; [intros _; exists [], []; split; [done|by apply matchhere_spec]|done].
  - split; [done|]. intros (a & text' & Ea & H). symmetry in Ea. apply app_nil in Ea as [-> ->].
    apply matchhere_spec in H. congruence.
  - split; [intros _; exists [], (t :: text); split; [done|by apply matchhere_spec]|done].
  - rewrite IH. split; [intros (a & text' & -> & H); by exists (t :: a), text'|].
    intros ([|x a] & text' & Ea & H); simplify_eq/=; [apply matchhere_spec in H; congruence|by exists a, text'].
Qed.

Lemma match_loop_selects re text : match_loop re text = true ↔
  selects (mkPattern false (items re).1 (items re).2) text.
Proof.
  rewrite match_loop_spec. split.
  - intros (a & text' & -> & s & b & -> & Hs & He). by exists a, s, b.
  - intros (a & s & b & -> & Hs & _ & He). exists a, (s ++ b). split; [done|]. by exists s, b.
Qed.

(** [match] decides the language of patterns: it accepts a line exactly
    when some part of the line is described by the items of the pattern, a
    character, a dot or either with a star, with the part at the start of the
    line after a caret and at its end before a final dollar. *)
Theorem match_selects re text : match_ re text = true ↔ selects (parse re) text.
Proof.
  destruct re as [|r re]; [|unfold match_, parse; destruct (r =? CARET)].
  - apply match_loop_selects.
  - rewrite matchhere_spec. destruct (items re) as [l e]. unfold selects, prefix_of. simpl. split.
    + intros (s & b & -> & Hs & He). by exists [], s, b.
    + intros (a & s & b & -> & Hs & -> & He); [|done]. by exists s, b.
  - rewrite match_loop_selects. by destruct (items (r :: re)).
Qed.

(** ** Whole inputs *)

Definition unlines (ls : list (list Z)) : list Z := concat ((λ l, l ++ [10]) <$> ls).

(** The characters of a line. *)
Definition line_ok (l : list Z) : Prop := Forall (λ c, c ≠ 0 ∧ c ≠ 10) l.

Lemma newline_line i l rest : line_ok l → newline i (l ++ 10 :: rest) = Some (Some (i + length l)%nat).
Proof.
  intros Hl. revert i. induction Hl as [|c l [H0 H10] Hl IH]; intros i; simpl; [by rewrite Nat.add_0_r|].
  apply Z.eqb_neq in H0, H10. rewrite H0, H10, IH. do 2 f_equal. lia.
Qed.

Lemma unlines_cons l ls : unlines (l :: ls) = l ++ 10 :: unlines ls.
Proof. unfold unlines. simpl. by rewrite <- app_assoc. Qed.

Lemma grep_lines_unlines fuel pattern ls buf p pre : Forall line_ok ls → (length ls < fuel)%nat →
  length pre = p → buf = pre ++ unlines ls ++ 0 :: drop (p + length (unlines ls) + 1) buf →
  ∃ buf', grep_lines fuel pattern buf p =
    Some (unlines (filter (λ l, match_ pattern l = true) ls), buf', (p + length (unlines ls))%nat).
Proof.
  intros Hls. revert fuel buf p pre. induction Hls as [|l ls Hl Hls IH]; intros [|fuel] buf p pre Hf Hp Hb; simpl in Hf; try lia;
    cbn [grep_lines].
  - rewrite Hb, drop_app_length' by done. simpl. eexists. by rewrite Nat.add_0_r.
  - rewrite unlines_cons in *. set (rest := drop _ buf) in Hb.
    assert (drop p buf = l ++ 10 :: unlines ls ++ 0 :: rest) as Hd.
    { rewrite Hb, drop_app_length' by done. by rewrite <- app_assoc. }
    rewrite Hd, newline_line by done. cbn [mbind option_bind].
    replace (p + length l - p)%nat with (length l) by lia. rewrite take_app_length.
    set (hit := match_ pattern l). set (buf1 := if hit then buf else _).
    destruct (IH fuel buf1 (S (p + length l)) (pre ++ l ++ [if hit then 10 else 0])) as (buf' & E); [lia| | |].
    + rewrite !length_app. simpl. lia.
    + assert (buf = (pre ++ l) ++ 10 :: unlines ls ++ 0 :: rest) as Hb'.
      { rewrite Hb at 1. by rewrite <- !app_assoc. }
      assert (buf1 = (pre ++ l ++ [if hit then 10 else 0]) ++ unlines ls ++ 0 :: rest) as ->.
      { subst buf1. destruct hit; rewrite Hb'; rewrite <- !app_assoc; [done|].
        rewrite app_assoc. rewrite insert_app_r_alt by (rewrite length_app; lia). rewrite length_app.
        replace (p + length l - (length pre + length l))%nat with 0%nat by lia. simpl. by rewrite <- app_assoc. }
      f_equal. f_equal. f_equal.
      rewrite !drop_app_ge, !length_app by (rewrite !length_app; simpl; lia). simpl.
      replace (S (p + length l + length (unlines ls) + 1) - (length pre + (length l + 1)) - length (unlines ls))%nat
        with 1%nat by lia. done.
    + rewrite E. cbn [mbind option_bind]. exists buf'. rewrite filter_cons. fold hit.
      replace (S (p + length l) + length (unlines ls))%nat with (p + length (l ++ 10%Z :: unlines ls))%nat
        by (rewrite length_app; simpl; lia).
      destruct hit eqn:Eh; [rewrite decide_True by done|rewrite decide_False by done]; [|done].
      by rewrite unlines_cons.
Qed.

Lemma length_unlines ls : (length ls ≤ length (unlines ls))%nat.
Proof. induction ls as [|l ls IH]; [done|]. rewrite unlines_cons, length_app. simpl. lia. Qed.

(** C32. On an input that fits into the buffer with a byte to spare, comes in
    one read, and ends in a newline, [grep] writes exactly the lines that match,
    in order. *)
Theorem grep_selects_lines pattern ls : Forall line_ok ls → Z.of_nat (length (unlines ls)) < BUFSIZE →
  grep pattern [unlines ls] = Some (unlines (filter (λ l, match_ pattern l = true) ls)).
Proof.
  intros Hls Hlen. unfold grep. set (text := unlines ls) in *. cbn [concat]. rewrite app_nil_r.
  destruct (decide (text = [])) as [E|Hne].
  { rewrite E. destruct ls as [|l ls]; [|subst text; rewrite unlines_cons in E; by destruct l]. done. }
  cbn [grep_loop]. change (0 <? 0) with false. cbv iota.
  change (BUFSIZE - 0) with BUFSIZE. rewrite take_ge, drop_ge by lia. rewrite (decide_True (P := @nil Z = [])) by done.
  rewrite decide_False by done. set (buf := buf_put _ _ _).
  destruct (grep_lines_unlines (S (Z.to_nat BUFSIZE)) pattern ls buf 0 [] Hls) as (buf' & ->).
  - pose proof (length_unlines ls). subst text. lia.
  - done.
  - subst buf. unfold buf_put. simpl take. rewrite drop_replicate. fold text.
    replace (Z.to_nat BUFSIZE - (Z.to_nat 0 + length text))%nat with (S (Z.to_nat BUFSIZE - length text - 1)) by lia.
    simpl. f_equal. f_equal. rewrite drop_app_ge by lia. by replace (length text + 1 - length text)%nat with 1%nat by lia.
  - fold text. cbn [mbind option_bind]. rewrite decide_False by (destruct text; simpl; [done|lia]).
    destruct (0 <? _); destruct (length text) eqn:El; try (by destruct text); cbn [grep_loop mbind option_bind]; by rewrite app_nil_r.
Qed.

Lemma grep_selects_lines_witness :
  grep [94; 97; 42; 36] [unlines [[97; 97]; [98]; []]] = Some [97; 97; 10; 10].
Proof. rewrite grep_selects_lines; [reflexivity|repeat constructor; lia|reflexivity]. Defined.

(** A read that brings part of a line overwrites the start of the buffer and
    leaves an older line behind it: the lines "ab" and "x", where the newline of
    the second has not come yet, give "ab" and "xb". *)
Theorem grep_stale_bytes : grep [] [[97; 98; 10]; [120]] = Some [97; 98; 10; 120; 98; 10].
Proof. reflexivity. Qed.
End Grep.
