(* ===== verification/Umalloc.v ===== *)
(** * The user memory allocator (umalloc.c)

    The free blocks are a circular list in address order that starts at the
    static header [base] and is threaded through the headers in memory.  A
    header is two words: the pointer to the next block and the size of the
    block in headers. *)

From stdpp Require Import base numbers option list sorting sets.
From Stdlib Require Import ZArith Lia ZifyBool.
From S2P Require Import Prelude CString Kalloc.
Local Open Scope Z_scope.

Module Umalloc.
Import Kalloc.

(** [sizeof(Header)]. *)
Definition HDR : Z := 8.

Definition ptr (m : CString.mem) (p : Z) : Z := load32 m p.
Definition size (m : CString.mem) (p : Z) : Z := load32 m (p + 4).
Definition set_ptr (p v : Z) (m : CString.mem) : CString.mem := store32 p v m.
Definition set_size (p v : Z) (m : CString.mem) : CString.mem := store32 (p + 4) (u32 v) m.

(** The memory of the process, [freep] and the end of the process's memory. *)
Record heap := mkHeap { h_mem : CString.mem; h_freep : Z; h_brk : Z }.

(** A block of memory: the address of its header, and its size in headers. *)
Notation block := (Z * Z)%type.

Section umalloc.
(** The address of [base], and whether the kernel moves the end of the memory
    [b] by [n] bytes. *)
Variables (base : Z) (grow : Z → Z → bool).

(** The result is the old end, or -1. *)
Definition sbrk (n : Z) (h : heap) : Z * heap :=
  if grow (h_brk h) n then (h_brk h, mkHeap (h_mem h) (h_freep h) (h_brk h + n)) else (-1, h).

(** The loop of free that looks for the place of [bp]. *)
Fixpoint free_scan (fuel : nat) (m : CString.mem) (bp p : Z) : option Z :=
  match fuel with
  | O => None
  | S fuel' =>
      let q := ptr m p in
      if (p <? bp) && (bp <? q) then Some p
      else if (q <=? p) && ((p <? bp) || (bp <? q)) then Some p
      else free_scan fuel' m bp q
  end.

(** [if(bp + bp->s.size == p->s.ptr) ... else ...]. *)
Definition join_next (bp p : Z) (m : CString.mem) : CString.mem :=
  let q := ptr m p in
  if u32 (bp + HDR * size m bp) =? q then
    let m := set_size bp (size m bp + size m q) m in
    set_ptr bp (ptr m (ptr m p)) m
  else set_ptr bp q m.

(** [if(p + p->s.size == bp) ... else ...]. *)
Definition join_prev (bp p : Z) (m : CString.mem) : CString.mem :=
  if u32 (p + HDR * size m p) =? bp then
    let m := set_size p (size m p + size m bp) m in
    set_ptr p (ptr m bp) m
  else set_ptr p bp m.

Definition free (fuel : nat) (ap : Z) (h : heap) : option heap :=
  let bp := u32 (ap - HDR) in
  p ← free_scan fuel (h_mem h) bp (h_freep h);
  Some (mkHeap (join_prev bp p (join_next bp p (h_mem h))) p (h_brk h)).

(** The result is [freep], or 0. *)
Definition morecore (fuel : nat) (nu : Z) (h : heap) : option (Z * heap) :=
  let nu := if nu <? 4096 then 4096 else nu in
  let '(p, h) := sbrk (i32 (nu * HDR)) h in
  if p =? -1 then Some (0, h)
  else
    h ← free fuel (u32 (p + HDR)) (mkHeap (set_size p nu (h_mem h)) (h_freep h) (h_brk h));
    Some (h_freep h, h).

(** The loop of malloc. *)
Fixpoint malloc_loop (fuel : nat) (nunits prevp p : Z) (h : heap) : option (Z * heap) :=
  match fuel with
  | O => None
  | S fuel' =>
      let m := h_mem h in
      if nunits <=? size m p then
        let '(p, m) :=
          if size m p =? nunits then (p, set_ptr prevp (ptr m p) m)
          else
            let m := set_size p (size m p - nunits) m in
            let p := u32 (p + HDR * size m p) in
            (p, set_size p nunits m) in
        Some (u32 (p + HDR), mkHeap m prevp (h_brk h))
      else if p =? h_freep h then
        r ← morecore fuel' nunits h;
        let '(p, h) := r in
        if p =? 0 then Some (0, h) else malloc_loop fuel' nunits p (ptr (h_mem h) p) h
      else malloc_loop fuel' nunits p (ptr m p) h
  end.

(** [(nbytes + sizeof(Header) - 1)/sizeof(Header) + 1]. *)
Definition units (nbytes : Z) : Z := u32 (nbytes + HDR - 1) / HDR + 1.

(** [fuel] bounds the loops. *)
Definition malloc (fuel : nat) (nbytes : Z) (h : heap) : option (Z * heap) :=
  let nunits := units nbytes in
  let h := if h_freep h =? 0 then mkHeap (set_size base 0 (set_ptr base base (h_mem h))) base (h_brk h) else h in
  malloc_loop fuel nunits (h_freep h) (ptr (h_mem h) (h_freep h)) h.

End umalloc.

(** ** Words *)

(** The headers at [a] and [b] do not overlap. *)
Definition apart (a b : Z) : Prop := a + 8 ≤ b ∨ b + 8 ≤ a.

Lemma ptr_set_ptr p v m : 0 ≤ v < 2 ^ 32 → ptr (set_ptr p v m) p = v.
Proof. apply load32_store32. Qed.
Lemma size_set_size p v m : 0 ≤ v < 2 ^ 32 → size (set_size p v m) p = v.
Proof. intros Hv. unfold size, set_size. rewrite u32_small by done. by apply load32_store32. Qed.

Lemma load32_out a b v m : a + 4 ≤ b ∨ b + 4 ≤ a → load32 (store32 b v m) a = load32 m a.
Proof. intros H. apply load32_ext. intros x Hx. apply store32_out. lia. Qed.

Lemma ptr_set_size p q v m : p = q ∨ apart p q → ptr (set_size q v m) p = ptr m p.
Proof. unfold apart. intros H. apply load32_out. lia. Qed.
Lemma size_set_ptr p q v m : p = q ∨ apart p q → size (set_ptr q v m) p = size m p.
Proof. unfold apart. intros H. apply load32_out. lia. Qed.
Lemma ptr_set_ptr_ne p q v m : apart p q → ptr (set_ptr q v m) p = ptr m p.
Proof. unfold apart. intros H. apply load32_out. lia. Qed.
Lemma size_set_size_ne p q v m : apart p q → size (set_size q v m) p = size m p.
Proof. unfold apart. intros H. apply load32_out. lia. Qed.

(** ** Blocks *)

Definition fin (b : block) : Z := b.1 + 8 * b.2.
Definition sep (x y : block) : Prop := fin x ≤ y.1 ∨ fin y ≤ x.1.

Fixpoint all_sep (al : list block) : Prop :=
  match al with [] => True | x :: al' => Forall (sep x) al' ∧ all_sep al' end.

(** Free blocks are in address order and never adjacent. *)
Definition before (x y : block) : Prop := fin x < y.1.

(** [b] joined with the block after it, and with the one before it. *)
Definition join_r (b : block) (fl : list block) : block * list block :=
  match fl with
  | c :: fl' => if fin b =? c.1 then ((b.1, b.2 + c.2), fl') else (b, fl)
  | [] => (b, [])
  end.
Definition join_l (fl : list block) (b : block) : list block :=
  match last fl with
  | Some c => if fin c =? b.1 then removelast fl ++ [(c.1, c.2 + b.2)] else fl ++ [b]
  | None => [b]
  end.
Definition insert_free (fl1 : list block) (b : block) (fl2 : list block) : list block :=
  let '(b', fl2') := join_r b fl2 in join_l fl1 b' ++ fl2'.

Definition total (fl : list block) : Z := foldr (λ b n, b.2 + n) 0 fl.

Local Ltac Zify.zify_post_hook ::= Z.to_euclidean_division_equations.

Section blocks.
(** [lo] is the start of the heap. *)
Variable lo : Z.

(** Between the start and the end of the heap, a whole number of headers from the start. *)
Definition inside (brk : Z) (b : block) : Prop := lo ≤ b.1 ∧ 1 ≤ b.2 ∧ fin b ≤ brk ∧ (b.1 - lo) mod 8 = 0.

Record wf (fl al : list block) (brk : Z) : Prop := mkWf {
  wf_sorted : StronglySorted before fl;
  wf_free : Forall (inside brk) fl;
  wf_used : Forall (inside brk) al;
  wf_brk : lo ≤ brk < 2 ^ 31 ∧ (brk - lo) mod 8 = 0;
  wf_sep : ∀ x y, x ∈ fl → y ∈ al → sep x y;
  wf_apart : all_sep al
}.

Lemma total_app l1 l2 : total (l1 ++ l2) = total l1 + total l2.
Proof. induction l1 as [|b l1 IH]; simpl; [done|]. lia. Qed.

Lemma join_l_snoc fl c b : join_l (fl ++ [c]) b =
  if fin c =? b.1 then fl ++ [(c.1, c.2 + b.2)] else fl ++ [c; b].
Proof. unfold join_l. rewrite last_snoc, removelast_last. by rewrite <- app_assoc. Qed.

Lemma total_insert_free fl1 b fl2 : total (insert_free fl1 b fl2) = total fl1 + b.2 + total fl2.
Proof.
  unfold insert_free, join_r. destruct fl1 as [|c fl1 _] using rev_ind.
  - destruct fl2 as [|d fl2]; [|destruct (fin b =? d.1)]; simpl; lia.
  - destruct fl2 as [|d fl2]; [|destruct (fin b =? d.1)]; rewrite join_l_snoc; destruct (_ =? _);
      rewrite !total_app; simpl; lia.
Qed.

Lemma sep_sym x y : sep x y → sep y x.
Proof. unfold sep. lia. Qed.

Lemma sep_join b c y : 1 ≤ y.2 → fin b = c.1 → sep b y → sep c y → sep (b.1, b.2 + c.2) y.
Proof. unfold sep, fin. simpl. lia. Qed.

Lemma fin_join b c : fin b = c.1 → fin (b.1, b.2 + c.2) = fin c.
Proof. unfold fin. simpl. lia. Qed.

Lemma all_sep_mid l1 b l2 : all_sep (l1 ++ b :: l2) ↔ all_sep (l1 ++ l2) ∧ Forall (sep b) (l1 ++ l2).
Proof.
  induction l1 as [|x l1 IH]; simpl; [tauto|]. rewrite IH, !Forall_cons, !Forall_app, !Forall_cons. split.
  - intros ((H1 & H2 & H3) & H4 & H5 & H6). split_and!; try done; by apply sep_sym.
  - intros (((H1 & H2) & H3) & H4 & H5 & H6). split_and!; try done; by apply sep_sym.
Qed.

(** [b] is free and not yet in the list, between [fl1] and [fl2]. *)
Record placed (brk : Z) (fl1 : list block) (b : block) (fl2 : list block) : Prop := mkPlaced {
  pl_sorted : StronglySorted before (fl1 ++ fl2);
  pl_l : Forall (λ x, fin x ≤ b.1) fl1;
  pl_r : Forall (λ y, fin b ≤ y.1) fl2;
  pl_in : Forall (inside brk) (b :: fl1 ++ fl2)
}.

Lemma join_r_placed brk fl1 b fl2 : placed brk fl1 b fl2 →
  placed brk fl1 (join_r b fl2).1 (join_r b fl2).2 ∧ Forall (before (join_r b fl2).1) (join_r b fl2).2.
Proof.
  intros [Hs Hl Hr Hi]. unfold join_r. destruct fl2 as [|c fl2]; [done|].
  pose proof Hs as (H12 & H1 & [Hc H2]%StronglySorted_cons)%StronglySorted_app.
  apply Forall_cons in Hr as [Hrc Hr]. rewrite Forall_cons, Forall_app, Forall_cons in Hi. destruct Hi as (Hb & Hi1 & Hic & Hi2).
  destruct (Z.eqb_spec (fin b) c.1) as [E|E]; simpl.
  - assert (Forall (before (b.1, b.2 + c.2)) fl2) as Hb2.
    { eapply Forall_impl; [exact Hc|]. intros y. unfold before. by rewrite fin_join. }
    split; [|done]. constructor.
    + apply StronglySorted_app. split_and!; [|done|done]. intros x y Hx Hy. apply H12; [done|by right].
    + done.
    + eapply Forall_impl; [exact Hb2|]. unfold before. lia.
    + rewrite Forall_cons, Forall_app. split_and!; [|done|done]. unfold inside in *. rewrite fin_join by done. simpl. lia.
  - split; [constructor; [done|done|by constructor|by rewrite Forall_cons, Forall_app, Forall_cons]|].
    constructor; [unfold before; lia|]. eapply Forall_impl; [exact Hc|]. intros y. unfold before, inside, fin in *. lia.
Qed.

Lemma join_l_sorted brk fl1 b fl2 : placed brk fl1 b fl2 → Forall (before b) fl2 →
  StronglySorted before (join_l fl1 b ++ fl2) ∧ Forall (inside brk) (join_l fl1 b ++ fl2).
Proof.
  intros [Hs Hl _ Hi] Hb. apply Forall_cons in Hi as [Hib Hi]. destruct fl1 as [|c fl1 _] using rev_ind.
  { simpl. split; by constructor. }
  rewrite join_l_snoc. rewrite <- app_assoc in *. simpl in *.
  apply StronglySorted_app in Hs as (H12 & H1 & [Hc H2]%StronglySorted_cons).
  rewrite Forall_app, Forall_cons in Hi. destruct Hi as (Hi1 & Hic & Hi2). apply Forall_app in Hl as [Hl1 [Hlc _]%Forall_cons].
  destruct (Z.eqb_spec (fin c) b.1) as [E|E]; rewrite <- app_assoc; simpl; rewrite StronglySorted_app, Forall_app, Forall_cons.
  - split; [split_and!; [|done|]|split_and!; [done| |done]].
    + intros x y Hx [->|Hy]%elem_of_cons; [exact (H12 x c Hx (list_elem_of_here _ _))|]. apply H12; [done|by right].
    + apply StronglySorted_cons. split; [|done]. eapply Forall_impl; [exact Hb|]. intros y. unfold before. by rewrite fin_join.
    + unfold inside in *. rewrite fin_join by done. simpl. lia.
  - split; [split_and!; [|done|]|rewrite Forall_cons; split_and!; done].
    + intros x y Hx Hy. apply elem_of_cons in Hy as [->|[->|Hy]%elem_of_cons].
      * apply H12; [done|by left].
      * pose proof (H12 x c Hx (list_elem_of_here _ _)). unfold before, inside, fin in *. lia.
      * apply H12; [done|by right].
    + apply StronglySorted_cons. split; [|by apply StronglySorted_cons]. constructor; [unfold before; lia|].
      eapply Forall_impl; [exact Hb|]. intros y. unfold before, inside, fin in *. lia.
Qed.

Lemma insert_free_sep fl1 b fl2 y : 1 ≤ y.2 → Forall (λ x, sep x y) (b :: fl1 ++ fl2) →
  Forall (λ x, sep x y) (insert_free fl1 b fl2).
Proof.
  intros Hy. rewrite Forall_cons, Forall_app. intros (Hb & H1 & H2). unfold insert_free.
  assert (sep (join_r b fl2).1 y ∧ Forall (λ x, sep x y) (join_r b fl2).2) as [Hb' H2'].
  { unfold join_r. destruct fl2 as [|c fl2]; [done|]. apply Forall_cons in H2 as [Hc H2].
    destruct (Z.eqb_spec (fin b) c.1); simpl; [split; [by apply sep_join|done]|split; [done|by constructor]]. }
  destruct (join_r b fl2) as [b' fl2']. simpl in *. rewrite Forall_app. split; [|done].
  destruct fl1 as [|c fl1 _] using rev_ind; [by constructor|]. rewrite join_l_snoc.
  apply Forall_app in H1 as [H1 [Hc _]%Forall_cons].
  destruct (Z.eqb_spec (fin c) b'.1); rewrite Forall_app; (split; [done|]); [constructor; [by apply sep_join|done]|by constructor; [|constructor]].
Qed.
End blocks.

(** ** The list in memory *)

(** The headers [ns] are linked in order, and the last one points to [e]. *)
Fixpoint links (m : CString.mem) (ns : list Z) (e : Z) : Prop :=
  match ns with
  | [] => True
  | x :: ns' => ptr m x = default e (head ns') ∧ links m ns' e
  end.

Lemma links_app m l1 l2 e : links m (l1 ++ l2) e ↔ links m l1 (default e (head l2)) ∧ links m l2 e.
Proof.
  induction l1 as [|x l1 IH]; simpl; [tauto|]. rewrite IH. destruct l1; simpl; tauto.
Qed.

Lemma links_ext m m' ns e : Forall (λ x, ptr m' x = ptr m x) ns → links m ns e → links m' ns e.
Proof. induction 1 as [|x ns Hx Hns IH]; simpl; [done|]. intros [E ?]. split; [by rewrite Hx|by apply IH]. Qed.

Lemma links_next m ns e i : links m ns e → (i < length ns)%nat → ptr m (ns !!! i) = (ns ++ [e]) !!! S i.
Proof.
  revert i. induction ns as [|x ns IH]; intros i; simpl; [lia|]. intros [Hx Hns] Hi. destruct i as [|i]; simpl.
  - rewrite Hx. by destruct ns.
  - apply IH; [done|lia].
Qed.

(** The header after that of index [i] in the circular list. *)
Definition after (n i : nat) : nat := if decide (S i = n) then 0%nat else S i.

Lemma ring_next m x ns i : links m (x :: ns) x → (i < length (x :: ns))%nat →
  ptr m ((x :: ns) !!! i) = (x :: ns) !!! after (length (x :: ns)) i.
Proof.
  intros Hl Hi. rewrite (links_next _ _ _ _ Hl Hi). unfold after. case_decide as E.
  - rewrite E. by rewrite (lookup_total_app_r (x :: ns) [x]), Nat.sub_diag by done.
  - apply (lookup_total_app_l (x :: ns)). lia.
Qed.

Lemma sorted_lt ns i j : StronglySorted Z.lt ns → (i < j < length ns)%nat → ns !!! i < ns !!! j.
Proof.
  intros Hs. revert i j. induction Hs as [|x ns Hs IH Hx]; intros i j; simpl; [lia|]. intros Hij.
  destruct j as [|j]; [lia|]. destruct i as [|i]; simpl; [|apply IH; lia].
  rewrite Forall_forall in Hx. apply Hx, list_elem_of_lookup_total_2. lia.
Qed.

(** The scan of free stops at the last header below [bp], wherever it starts;
    [t] is the index of that header. *)
Lemma free_scan_spec m x ns bp t fuel i : let l := x :: ns in
  links m l x → StronglySorted Z.lt l → (t < length l)%nat →
  (∀ j, (j ≤ t)%nat → l !!! j < bp) → (∀ j, (t < j < length l)%nat → bp < l !!! j) →
  (i < length l)%nat → ((if decide (i ≤ t)%nat then t - i else length l - i + t) < fuel)%nat →
  free_scan fuel m bp (l !!! i) = Some (l !!! t).
Proof.
  intros l Hl Hs Ht Hlow Hhigh. pose proof (λ j, ring_next m x ns j Hl) as Hn. fold l in Hn. clearbody l. clear Hl.
  revert i. induction fuel as [|fuel IH]; intros i Hi Hf; [lia|].
  cbn [free_scan]. rewrite (Hn i Hi). unfold after.
  pose proof (Hlow 0%nat ltac:(lia)) as H0. destruct (decide (i = t)) as [->|Hne].
  - clear Hf. pose proof (Hlow t ltac:(lia)). case_decide as E.
    + assert (l !!! 0%nat ≤ l !!! t) by (destruct t; [lia|apply Z.lt_le_incl, sorted_lt; [done|lia]]).
      repeat case_match; done || lia.
    + pose proof (Hhigh (S t) ltac:(lia)). by replace ((l !!! t <? bp) && (bp <? l !!! S t)) with true by lia.
  - destruct (decide (S i = length l)) as [E|E].
    + assert (t < i)%nat by lia. pose proof (Hhigh i ltac:(lia)).
      replace ((l !!! i <? bp) && (bp <? l !!! 0%nat)) with false by lia.
      replace ((l !!! i <? bp) || (bp <? l !!! 0%nat)) with false by lia. rewrite andb_false_r.
      apply IH; [lia|]. rewrite decide_False in Hf by lia. case_decide; lia.
    + pose proof (sorted_lt l i (S i) Hs ltac:(lia)). replace (l !!! S i <=? l !!! i) with false by lia. rewrite andb_false_l.
      assert ((l !!! i <? bp) && (bp <? l !!! S i) = false) as ->.
      { destruct (decide (i < t)%nat); [pose proof (Hlow (S i) ltac:(lia))|pose proof (Hhigh i ltac:(lia))]; lia. }
      apply IH; [lia|]. repeat case_decide; lia.
Qed.

(** ** free *)

(** [m'] differs from [m] only in the headers at [hs]. *)
Definition agree (hs : list Z) (m m' : CString.mem) : Prop :=
  ∀ x, Forall (λ y, x < y ∨ y + 8 ≤ x) hs → m' x = m x.

Lemma agree_header hs m m' y : agree hs m m' → Forall (apart y) hs → ptr m' y = ptr m y ∧ size m' y = size m y.
Proof.
  intros Ha Hy. unfold ptr, size. split; apply load32_ext; intros x Hx; apply Ha; (eapply Forall_impl; [exact Hy|]);
    unfold apart; intros z; simpl; lia.
Qed.

Lemma agree_trans hs m1 m2 m3 : agree hs m1 m2 → agree hs m2 m3 → agree hs m1 m3.
Proof. intros H1 H2 x Hx. by rewrite (H2 x Hx), (H1 x Hx). Qed.

Lemma agree_mono hs hs' m m' : hs ⊆ hs' → agree hs m m' → agree hs' m m'.
Proof. intros H Ha x Hx. apply Ha. rewrite Forall_forall in *. auto. Qed.

Lemma agree_set_ptr p v m : agree [p] m (set_ptr p v m).
Proof. intros x [Hx _]%Forall_cons. apply store32_out. lia. Qed.
Lemma agree_set_size p v m : agree [p] m (set_size p v m).
Proof. intros x [Hx _]%Forall_cons. apply store32_out. lia. Qed.

Section free.
Variables (base lo : Z).
Hypothesis base_ok : 0 < base ∧ base + 8 ≤ lo < 2 ^ 31.
Notation inside := (inside lo).
Notation placed := (placed lo).

Lemma join_next_spec brk m p fl1 b fl2 : placed brk fl1 b fl2 → brk < 2 ^ 31 → apart p b.1 →
  size m b.1 = b.2 → ptr m p = default base (head fl2.*1) → links m fl2.*1 base → Forall (λ c, size m c.1 = c.2) fl2 →
  let m' := join_next b.1 p m in
  size m' b.1 = (join_r b fl2).1.2 ∧ ptr m' b.1 = default base (head (join_r b fl2).2.*1) ∧ agree [b.1] m m'.
Proof.
  intros [Hs _ Hr Hi] Hbrk Hp Hsz Hptr Hl Hsizes. unfold join_next. rewrite Hptr, Hsz.
  apply Forall_cons in Hi as [Hib Hi]. unfold inside, fin in Hib. change HDR with 8. rewrite u32_small by lia.
  unfold join_r, fin. destruct fl2 as [|c fl2]; simpl.
  - replace (b.1 + 8 * b.2 =? base) with false by lia.
    split_and!; [by rewrite size_set_ptr by (by left)|rewrite ptr_set_ptr by lia; done|apply agree_set_ptr].
  - apply Forall_app in Hi as [_ [Hic Hi]%Forall_cons]. unfold inside, fin in Hic. apply Forall_cons in Hr as [Hrc _].
    unfold fin in Hrc. apply Forall_cons in Hsizes as [Hsc _]. simpl in Hl. destruct Hl as [Hlc Hl].
    destruct (Z.eqb_spec (b.1 + 8 * b.2) c.1) as [E|E]; simpl.
    + assert (apart c.1 b.1) by (unfold apart; lia).
      rewrite (ptr_set_size p) by (by right). rewrite Hptr. cbn [fmap list_fmap head default from_option].
      rewrite (ptr_set_size c.1) by (by right). rewrite Hsc, Hlc.
      assert (0 ≤ default base (head fl2.*1) < 2 ^ 32).
      { destruct fl2 as [|d fl2]; simpl; [lia|]. apply Forall_cons in Hi as [Hid _]. unfold inside, fin in Hid. lia. }
      rewrite size_set_ptr by (by left). rewrite size_set_size by lia. rewrite ptr_set_ptr by done.
      split_and!; [done|done|]. eapply agree_trans; [apply agree_set_size|apply agree_set_ptr].
    + rewrite size_set_ptr by (by left). rewrite ptr_set_ptr by lia. split_and!; [done|done|apply agree_set_ptr].
Qed.

Lemma links_agree h m m' ns e : agree [h] m m' → Forall (λ y, apart y h) ns → links m ns e → links m' ns e.
Proof.
  intros Ha Hns. apply links_ext. eapply Forall_impl; [exact Hns|]. intros y Hy. simpl.
  apply (agree_header [h]); [done|by constructor].
Qed.

Lemma sizes_agree h m m' (fl : list block) : agree [h] m m' → Forall (λ y, apart y h) fl.*1 →
  Forall (λ c, size m c.1 = c.2) fl → Forall (λ c, size m' c.1 = c.2) fl.
Proof.
  intros Ha Hns Hs. rewrite Forall_fmap in Hns. rewrite Forall_forall in *. intros c Hc.
  rewrite <- (Hs c Hc). apply (agree_header [h]); [done|]. constructor; [by apply Hns|done].
Qed.

(** Headers of different blocks do not overlap. *)
Lemma apart_l brk (fl : list block) (c : block) : Forall (λ x, fin x ≤ c.1) fl → Forall (inside brk) fl → Forall (λ y, apart y c.1) fl.*1.
Proof.
  intros H1 H2. apply Forall_fmap. rewrite Forall_forall in *. intros x Hx. specialize (H1 x Hx). specialize (H2 x Hx).
  simpl. unfold apart, inside, fin in *. lia.
Qed.
Lemma apart_r (c : block) (fl : list block) : 1 ≤ c.2 → Forall (λ y, fin c ≤ y.1) fl → Forall (λ y, apart y c.1) fl.*1.
Proof.
  intros Hc H. apply Forall_fmap. eapply Forall_impl; [exact H|]. intros x. simpl. unfold apart, fin. lia.
Qed.
Lemma apart_base brk (fl : list block) : Forall (inside brk) fl → Forall (λ y, apart y base) fl.*1.
Proof.
  intros H. apply Forall_fmap. eapply Forall_impl; [exact H|]. intros x. simpl. unfold apart, inside. lia.
Qed.

Definition last_header (fl : list block) : Z := default base (last fl.*1).

Lemma last_header_snoc fl c : last_header (fl ++ [c]) = c.1.
Proof. unfold last_header. rewrite fmap_app. simpl. by rewrite last_snoc. Qed.

Lemma head_range brk (fl : list block) : Forall (inside brk) fl → brk < 2 ^ 31 → 0 ≤ default base (head fl.*1) < 2 ^ 32.
Proof. intros H Hb. destruct H as [|c fl Hc _]; simpl; [lia|]. unfold inside, fin in Hc. lia. Qed.

(** What [join_prev] makes of the list, with [p] the header before [b]. *)
Definition joined (m m' : CString.mem) (fl : list block) (p : Z) : Prop :=
  links m' (base :: fl.*1) base ∧ size m' base = 0 ∧ Forall (λ c, size m' c.1 = c.2) fl ∧
  agree [p] m m' ∧ p ∈ base :: fl.*1.

Lemma join_prev_base brk m b fl2 : placed brk [] b fl2 → brk < 2 ^ 31 → size m base = 0 →
  Forall (λ c, size m c.1 = c.2) (b :: fl2) → ptr m b.1 = default base (head fl2.*1) → links m fl2.*1 base →
  joined m (join_prev b.1 base m) (b :: fl2) base.
Proof.
  intros [_ _ _ Hi] Hbrk Hb0 Hsz Hpb Hl2. unfold join_prev. change HDR with 8.
  rewrite Hb0, Z.mul_0_r, Z.add_0_r, u32_small by lia.
  apply Forall_cons in Hi as [Hib Hi2]. unfold inside, fin in Hib. replace (base =? b.1) with false by lia.
  pose proof (agree_set_ptr base b.1 m) as Ha. pose proof (apart_base brk fl2 Hi2) as Hap.
  assert (apart b.1 base) by (unfold apart; lia).
  split_and!; [|..|done|by left].
  - simpl. rewrite ptr_set_ptr by lia. split; [done|]. rewrite ptr_set_ptr_ne by done.
    split; [done|]. by apply (links_agree base m).
  - by rewrite size_set_ptr by (by left).
  - apply (sizes_agree base m); [done|by constructor|done].
Qed.

Lemma join_prev_snoc brk m e fl1 c b fl2 : placed brk (fl1 ++ [c]) b fl2 → brk < 2 ^ 31 →
  links m (base :: (fl1 ++ [c]).*1) e → size m base = 0 → Forall (λ c, size m c.1 = c.2) ((fl1 ++ [c]) ++ b :: fl2) →
  ptr m b.1 = default base (head fl2.*1) → links m fl2.*1 base →
  joined m (join_prev b.1 c.1 m) (join_l (fl1 ++ [c]) b ++ fl2) c.1.
Proof.
  intros [Hs Hl Hr Hi] Hbrk Hl1 Hb0 Hsz Hpb Hl2. unfold join_prev. change HDR with 8. rewrite join_l_snoc.
  rewrite Forall_cons, !Forall_app in Hi. destruct Hi as (Hib & (Hi1 & [Hic _]%Forall_cons) & Hi2).
  rewrite !Forall_app in Hsz. destruct Hsz as ((Hz1 & [Hzc _]%Forall_cons) & [Hzb Hz2]%Forall_cons).
  apply Forall_app in Hl as [Hlw [Hlc _]%Forall_cons]. pose proof (head_range brk fl2 Hi2 Hbrk).
  unfold inside, fin in Hib, Hic, Hlc. rewrite Hzc, Hzb, u32_small by lia.
  rewrite fmap_app in Hl1. change (base :: fl1.*1 ++ [c].*1) with ((base :: fl1.*1) ++ [c.1]) in Hl1.
  apply links_app in Hl1 as [Hl1 _]. simpl head in Hl1. cbn [default from_option] in Hl1.
  rewrite <- app_assoc in Hs. apply StronglySorted_app in Hs as (H12 & _ & [Hc2 _]%StronglySorted_cons).
  assert (Forall (λ y, apart y c.1) (base :: fl1.*1)) as Hap1.
  { constructor; [unfold apart; lia|]. apply (apart_l brk); [|done]. apply Forall_forall. intros x Hx.
    apply Z.lt_le_incl, (H12 x c Hx). by left. }
  assert (Forall (λ y, apart y c.1) fl2.*1) as Hap2.
  { apply apart_r; [lia|]. eapply Forall_impl; [exact Hc2|]. intros y. unfold before. lia. }
  assert (apart b.1 c.1) as Hbc by (unfold apart; lia).
  unfold fin. destruct (Z.eqb_spec (c.1 + 8 * c.2) b.1) as [E|E].
  - set (m' := set_ptr _ _ _). assert (agree [c.1] m m') as Ha by (eapply agree_trans; [apply agree_set_size|apply agree_set_ptr]).
    assert (ptr m' c.1 = default base (head fl2.*1)) as Ep
      by (subst m'; rewrite ptr_set_size by (by right); rewrite Hpb; by apply ptr_set_ptr).
    assert (size m' c.1 = c.2 + b.2) as Es by (subst m'; rewrite size_set_ptr by (by left); apply size_set_size; lia).
    rewrite <- app_assoc. unfold joined. rewrite fmap_app. split_and!.
    + change (base :: fl1.*1 ++ ([(c.1, c.2 + b.2)] ++ fl2).*1) with ((base :: fl1.*1) ++ c.1 :: fl2.*1).
      apply links_app. split; [by apply (links_agree c.1 m)|]. split; [done|by apply (links_agree c.1 m)].
    + rewrite <- Hb0. apply (agree_header [c.1]); [done|]. constructor; [unfold apart; lia|done].
    + apply Forall_app. split; [apply (sizes_agree c.1 m); [done|by apply Forall_cons in Hap1 as [_ ?]|done]|].
      constructor; [done|by apply (sizes_agree c.1 m)].
    + done.
    + right. apply elem_of_app. right. by left.
  - pose proof (agree_set_ptr c.1 b.1 m) as Ha.
    rewrite <- app_assoc. unfold joined. rewrite fmap_app. split_and!.
    + change (base :: fl1.*1 ++ ([c; b] ++ fl2).*1) with ((base :: fl1.*1) ++ c.1 :: b.1 :: fl2.*1).
      apply links_app. split; [by apply (links_agree c.1 m)|]. simpl. rewrite ptr_set_ptr by lia.
      rewrite ptr_set_ptr_ne by done. split_and!; [done|done|by apply (links_agree c.1 m)].
    + by rewrite size_set_ptr by (right; unfold apart; lia).
    + apply Forall_app. split; [apply (sizes_agree c.1 m); [done|by apply Forall_cons in Hap1 as [_ ?]|done]|].
      constructor; [by rewrite size_set_ptr by (by left)|]. apply (sizes_agree c.1 m); [done|by constructor|by constructor].
    + done.
    + right. apply elem_of_app. right. by left.
Qed.

Record rep (m : CString.mem) (freep : Z) (fl : list block) : Prop := mkRep {
  rep_links : links m (base :: fl.*1) base;
  rep_base : size m base = 0;
  rep_size : Forall (λ c, size m c.1 = c.2) fl;
  rep_freep : freep ∈ base :: fl.*1
}.

Lemma headers_sorted brk fl : StronglySorted before fl → Forall (inside brk) fl → StronglySorted Z.lt (base :: fl.*1).
Proof.
  intros Hs Hi. apply StronglySorted_cons. split.
  - apply Forall_fmap. eapply Forall_impl; [exact Hi|]. intros c. simpl. unfold inside. lia.
  - induction Hs as [|x fl Hs IH Hx]; [constructor|]. apply Forall_cons in Hi as [Hix Hi]. apply StronglySorted_cons.
    split; [|by apply IH]. apply Forall_fmap. eapply Forall_impl; [exact Hx|]. intros c. simpl.
    unfold before, inside, fin in *. lia.
Qed.

Lemma lookup_total_S (x : Z) l n : (x :: l) !!! S n = l !!! n.
Proof. done. Qed.

Lemma last_header_lookup fl1 fl2 : (base :: (fl1 ++ fl2).*1) !!! length fl1 = last_header fl1.
Proof.
  destruct fl1 as [|c fl1 _] using rev_ind; [done|]. rewrite last_header_snoc, <- app_assoc, fmap_app.
  rewrite length_app, Nat.add_1_r, lookup_total_S.
  rewrite lookup_total_app_r by (rewrite length_fmap; lia). by rewrite length_fmap, Nat.sub_diag.
Qed.

Lemma free_scan_place brk m freep fl1 b fl2 fuel : placed brk fl1 b fl2 → rep m freep (fl1 ++ fl2) →
  (2 * length (fl1 ++ fl2) + 2 < fuel)%nat → free_scan fuel m b.1 freep = Some (last_header fl1).
Proof.
  intros [Hs Hl Hr Hi] [Hlk _ _ Hf] Hfuel. apply Forall_cons in Hi as [Hib Hi].
  apply list_elem_of_lookup_1 in Hf as [i Hi']. apply lookup_lt_Some in Hi' as Hlt. apply list_lookup_total_correct in Hi'.
  rewrite <- Hi', <- (last_header_lookup fl1 fl2).
  assert (length (base :: (fl1 ++ fl2).*1) = S (length fl1 + length fl2)) as Hlen by (simpl; rewrite length_fmap, length_app; done).
  rewrite length_app in Hfuel. apply free_scan_spec; [done|by apply (headers_sorted brk)|lia|..|done|rewrite Hlen; case_decide; lia].
  - intros j Hj. destruct j as [|j]; [unfold inside in Hib; simpl; lia|]. rewrite lookup_total_S.
    destruct (lookup_lt_is_Some_2 fl1 j) as [x Hx]; [lia|].
    rewrite (list_lookup_total_correct _ _ x.1) by (rewrite list_lookup_fmap, lookup_app_l, Hx by lia; done).
    rewrite Forall_lookup in Hl, Hi. specialize (Hl _ _ Hx). specialize (Hi j x). rewrite lookup_app_l in Hi by lia.
    specialize (Hi Hx). unfold inside, fin in *. lia.
  - intros j Hj. destruct j as [|j]; [lia|]. rewrite lookup_total_S.
    destruct (lookup_lt_is_Some_2 fl2 (j - length fl1)) as [x Hx]; [lia|].
    rewrite (list_lookup_total_correct _ _ x.1) by (rewrite list_lookup_fmap, lookup_app_r, Hx by lia; done).
    rewrite Forall_lookup in Hr. specialize (Hr _ _ Hx). unfold inside, fin in *. lia.
Qed.

Lemma last_header_ptr m fl e : links m (base :: fl.*1) e → ptr m (last_header fl) = e.
Proof.
  destruct fl as [|c fl _] using rev_ind; [by intros [? _]|]. rewrite last_header_snoc, fmap_app.
  change (base :: fl.*1 ++ [c].*1) with ((base :: fl.*1) ++ [c.1]). by intros [_ [? _]]%links_app.
Qed.

Lemma join_r_fst b fl : (join_r b fl).1.1 = b.1.
Proof. unfold join_r. destruct fl as [|c fl]; [done|]. by destruct (_ =? _). Qed.

Lemma join_r_snd b fl m : links m fl.*1 base → Forall (λ c, size m c.1 = c.2) fl →
  links m (join_r b fl).2.*1 base ∧ Forall (λ c, size m c.1 = c.2) (join_r b fl).2.
Proof.
  unfold join_r. destruct fl as [|c fl]; [done|]. destruct (_ =? _); [|done]. by intros [_ ?] [_ ?]%Forall_cons.
Qed.

Lemma join_prev_spec brk m e fl1 b fl2 : placed brk fl1 b fl2 → brk < 2 ^ 31 →
  links m (base :: fl1.*1) e → size m base = 0 → Forall (λ c, size m c.1 = c.2) (fl1 ++ b :: fl2) →
  ptr m b.1 = default base (head fl2.*1) → links m fl2.*1 base →
  joined m (join_prev b.1 (last_header fl1) m) (join_l fl1 b ++ fl2) (last_header fl1).
Proof.
  destruct fl1 as [|c fl1 _] using rev_ind.
  - intros ? ? _ ? ? ? ?. by apply (join_prev_base brk).
  - rewrite last_header_snoc. apply join_prev_snoc.
Qed.

Lemma placed_apart brk fl1 b fl2 : placed brk fl1 b fl2 →
  Forall (λ y, apart y b.1) (base :: fl1.*1) ∧ Forall (λ y, apart y b.1) fl2.*1.
Proof.
  intros [_ Hl Hr [Hib [Hi1 _]%Forall_app]%Forall_cons]. unfold inside in Hib. split.
  - constructor; [unfold apart; lia|]. by apply (apart_l brk).
  - apply apart_r; [lia|done].
Qed.

Lemma last_header_in fl : last_header fl ∈ base :: fl.*1.
Proof. rewrite <- (app_nil_r fl) at 2. rewrite <- (last_header_lookup fl []). apply list_elem_of_lookup_total_2.
  simpl. rewrite length_fmap, length_app. lia. Qed.

Lemma free_rep brk m freep fl1 b fl2 fuel : placed brk fl1 b fl2 → brk < 2 ^ 31 → rep m freep (fl1 ++ fl2) →
  size m b.1 = b.2 → (2 * length (fl1 ++ fl2) + 2 < fuel)%nat →
  ∃ m' p, free fuel (u32 (b.1 + 8)) (mkHeap m freep brk) = Some (mkHeap m' p brk) ∧
    rep m' p (insert_free fl1 b fl2) ∧ agree (base :: b.1 :: (fl1 ++ fl2).*1) m m'.
Proof.
  intros Hpl Hbrk Hrep Hsz Hfuel. pose proof Hrep as [Hlk Hb0 Hz Hf].
  pose proof (pl_in _ _ _ _ _ Hpl) as [Hib _]%Forall_cons. unfold inside, fin in Hib.
  unfold free. change HDR with 8. rewrite u32_sub_l. replace (b.1 + 8 - 8) with b.1 by lia. rewrite u32_small by lia.
  rewrite (free_scan_place brk _ _ fl1 b fl2) by done. cbn [mbind option_bind h_mem h_brk]. set (p := last_header fl1).
  rewrite fmap_app in Hlk. change (base :: fl1.*1 ++ fl2.*1) with ((base :: fl1.*1) ++ fl2.*1) in Hlk.
  apply links_app in Hlk as [Hl1 Hl2]. apply Forall_app in Hz as [Hz1 Hz2].
  destruct (placed_apart _ _ _ _ Hpl) as [Hap1 Hap2]. pose proof (last_header_in fl1) as Hp.
  destruct (join_next_spec brk m p fl1 b fl2) as (Es & Ep & Ha); try done.
  { rewrite Forall_forall in Hap1. by apply Hap1. }
  { by apply last_header_ptr. }
  set (m1 := join_next b.1 p m) in *. destruct (join_r_placed _ _ _ _ _ Hpl) as [Hpl' Hbef].
  destruct (join_r_snd b fl2 m1) as [Hl2' Hz2']; [by apply (links_agree b.1 m)|by apply (sizes_agree b.1 m)|].
  unfold insert_free. pose proof (join_r_fst b fl2) as Eb. destruct (join_r b fl2) as [b' fl2']. simpl in *.
  destruct (join_prev_spec brk m1 (default base (head fl2.*1)) fl1 b' fl2' Hpl' Hbrk) as (J1 & J2 & J3 & J4 & J5);
    rewrite ?Eb in *; try done.
  - by apply (links_agree b.1 m).
  - rewrite <- Hb0. apply (agree_header [b.1]); [done|]. apply Forall_cons in Hap1 as [? _]. by constructor.
  - apply Forall_app. split; [apply (sizes_agree b.1 m); [done|by apply Forall_cons in Hap1 as [_ ?]|done]|].
    constructor; [by rewrite Eb|done].
  - eexists _, _. split; [done|]. split; [constructor; [done..|]|].
    + exact J5.
    + eapply agree_trans; [eapply agree_mono; [|exact Ha]|eapply agree_mono; [|exact J4]]; [set_solver|].
      intros y ->%list_elem_of_singleton. rewrite fmap_app. apply elem_of_cons in Hp as [->|Hp]; set_solver.
Qed.
End free.
End Umalloc.
