(* ===== verification/UmallocProps.v ===== *)
(** * Properties of the user memory allocator

    malloc and free keep the free list sorted and joined, never give out
    memory that is in use, and lose none. *)

From stdpp Require Import base numbers option list sorting sets relations.
From Stdlib Require Import ZArith Lia ZifyBool.
From S2P Require Import Prelude CString Kalloc Umalloc.
Import Umalloc.
Local Open Scope Z_scope.

Local Ltac Zify.zify_post_hook ::= Z.to_euclidean_division_equations.

(** ** Taking a block off the list *)

Section take.
Variables (base lo : Z).
Hypothesis base_ok : 0 < base ∧ base + 8 ≤ lo < 2 ^ 31.

(** The part of [c] that stays free when [n] headers are taken, and the part
    that is taken. *)
Definition rest (c : block) (n : Z) : list block := if c.2 =? n then [] else [(c.1, c.2 - n)].
Definition taken (c : block) (n : Z) : block := (c.1 + 8 * (c.2 - n), n).

Lemma rest_total c n : total (rest c n) = c.2 - n.
Proof. unfold rest. destruct (Z.eqb_spec c.2 n); simpl; lia. Qed.

Lemma rest_in c n x : 1 ≤ n ≤ c.2 → x ∈ rest c n → x.1 = c.1 ∧ 1 ≤ x.2 ∧ fin x = (taken c n).1.
Proof.
  intros Hn. unfold rest. destruct (Z.eqb_spec c.2 n); [by intros ?%not_elem_of_nil|].
  intros ->%list_elem_of_singleton. unfold fin, taken. simpl. lia.
Qed.

Lemma taken_fin c n : fin (taken c n) = fin c.
Proof. unfold fin, taken. simpl. lia. Qed.

Lemma wf_taken fl1 c fl2 al brk n : wf lo (fl1 ++ c :: fl2) al brk → 1 ≤ n ≤ c.2 →
  wf lo (fl1 ++ rest c n ++ fl2) (taken c n :: al) brk.
Proof.
  intros [Hs Hf Hu Hb Hsep Hal] Hn. apply StronglySorted_app in Hs as (H12 & H1 & [Hc H2]%StronglySorted_cons).
  apply Forall_app in Hf as [Hf1 [Hfc Hf2]%Forall_cons].
  assert (∀ x, x ∈ fl1 → before x c) as H1c by (intros x Hx; apply H12; [done|by left]).
  rewrite Forall_forall in Hc. pose proof (rest_in c n) as Hr. pose proof (taken_fin c n) as Ht.
  assert (∀ x y, x ∈ fl1 → y ∈ rest c n → before x y) as H1r.
  { intros x y Hx Hy. destruct (Hr y Hn Hy) as (E & _). specialize (H1c x Hx). unfold before in *. lia. }
  assert (∀ x y, x ∈ rest c n → y ∈ fl2 → before x y) as Hr2.
  { intros x y Hx Hy. destruct (Hr x Hn Hx) as (_ & _ & E). specialize (Hc y Hy). unfold before, taken, fin in *. simpl in *. lia. }
  assert (inside lo brk (taken c n)) as Hit by (unfold inside in *; rewrite Ht; unfold taken, fin in *; simpl; lia).
  constructor.
  - apply StronglySorted_app. split_and!; [|done|].
    + intros x y Hx [Hy|Hy]%elem_of_app; [by apply H1r|]. apply H12; [done|by right].
    + apply StronglySorted_app. split_and!; [done| |done]. unfold rest. destruct (_ =? _); repeat constructor.
  - apply Forall_app. split; [done|]. apply Forall_app. split; [|done]. apply Forall_forall. intros x Hx.
    destruct (Hr x Hn Hx) as (E1 & E2 & E3). unfold inside, taken in *. simpl in *. rewrite E3. unfold fin in Hfc. lia.
  - by constructor.
  - done.
  - intros x y Hx. rewrite !elem_of_app in Hx. intros [->|Hy]%elem_of_cons.
    + unfold sep. rewrite Ht. destruct Hx as [Hx|[Hx|Hx]].
      * specialize (H1c x Hx). unfold before, taken in *. simpl. lia.
      * destruct (Hr x Hn Hx) as (_ & _ & E). lia.
      * specialize (Hc x Hx). unfold before in Hc. lia.
    + destruct Hx as [Hx|[Hx|Hx]]; [apply Hsep; [set_solver|done]| |apply Hsep; [set_solver|done]].
      destruct (Hr x Hn Hx) as (E1 & E2 & E3). assert (sep c y) as Hcy by (apply Hsep; [set_solver|done]).
      unfold sep, fin, taken in *. simpl in *. lia.
  - simpl. split; [|done]. apply Forall_forall. intros y Hy. assert (sep c y) as Hcy by (apply Hsep; [set_solver|done]).
    unfold sep in *. rewrite Ht. unfold taken, fin in *. simpl. lia.
Qed.

(** The memory after the branch of malloc that takes a block. *)
Definition take_mem (prevp n : Z) (c : block) (m : CString.mem) : CString.mem :=
  if c.2 =? n then set_ptr prevp (ptr m c.1) m
  else set_size (taken c n).1 n (set_size c.1 (c.2 - n) m).

(** The headers of the other blocks do not overlap one inside of [c]. *)
Lemma inner_apart brk fl1 c fl2 h : StronglySorted before (fl1 ++ c :: fl2) → Forall (inside lo brk) (fl1 ++ c :: fl2) →
  c.1 ≤ h → h + 8 ≤ fin c → Forall (λ y, apart y h) (base :: fl1.*1 ++ fl2.*1).
Proof.
  intros (H12 & _ & [Hc _]%StronglySorted_cons)%StronglySorted_app [Hi1 [Hic Hi2]%Forall_cons]%Forall_app H1 H2.
  unfold inside in Hic. constructor; [unfold apart; lia|]. apply Forall_app. split; apply Forall_fmap, Forall_forall.
  - intros x Hx. rewrite Forall_forall in Hi1. destruct (Hi1 x Hx) as (_ & ? & _).
    pose proof (H12 x c Hx (list_elem_of_here _ _)). simpl. unfold apart, before, fin in *. lia.
  - intros x Hx. rewrite Forall_forall in Hc. specialize (Hc x Hx). simpl. unfold apart, before in *. lia.
Qed.

Lemma wf_headers brk fl1 c fl2 : StronglySorted before (fl1 ++ c :: fl2) → Forall (inside lo brk) (fl1 ++ c :: fl2) →
  Forall (λ y, apart y c.1) (base :: fl1.*1) ∧ Forall (λ y, apart y c.1) fl2.*1.
Proof.
  intros Hs Hi. assert (1 ≤ c.2) by (apply Forall_app in Hi as [_ [(? & ? & ?) _]%Forall_cons]; done).
  pose proof (inner_apart brk fl1 c fl2 c.1 Hs Hi ltac:(lia) ltac:(unfold fin; lia)) as H'.
  rewrite Forall_cons, Forall_app in H'. rewrite Forall_cons. tauto.
Qed.

(** The last header of [fl] now points to [e']. *)
Lemma relink brk m fl e e' : StronglySorted before fl → Forall (inside lo brk) fl → 0 ≤ e' < 2 ^ 32 →
  links m (base :: fl.*1) e → links (set_ptr (last_header base fl) e' m) (base :: fl.*1) e'.
Proof.
  intros Hs Hi He. destruct fl as [|c fl _] using rev_ind.
  - intros _. split; [by apply ptr_set_ptr|done].
  - destruct (wf_headers brk fl c [] Hs Hi) as [Ha _]. rewrite last_header_snoc, fmap_app.
    change (base :: fl.*1 ++ [c].*1) with ((base :: fl.*1) ++ [c.1]). rewrite !links_app. intros [Hl _]. split.
    + apply (links_agree c.1 m); [apply agree_set_ptr|done|done].
    + split; [by apply ptr_set_ptr|done].
Qed.

Lemma sizes_set_ptr p e m (fl : list block) : Forall (λ y, y = p ∨ apart y p) fl.*1 →
  Forall (λ c, size m c.1 = c.2) fl → Forall (λ c, size (set_ptr p e m) c.1 = c.2) fl.
Proof.
  intros H1 H2. rewrite Forall_fmap in H1. rewrite Forall_forall in *. intros c Hc. rewrite <- (H2 c Hc).
  apply size_set_ptr. by apply H1.
Qed.

(** Two headers of the list are the same or do not overlap. *)
Lemma same_or_apart brk fl p : StronglySorted before fl → Forall (inside lo brk) fl → p ∈ base :: fl.*1 →
  Forall (λ y, y = p ∨ apart y p) (base :: fl.*1).
Proof.
  intros Hs Hi [->|([a n] & -> & (fl1 & fl2 & ->)%list_elem_of_split)%list_elem_of_fmap]%elem_of_cons.
  - constructor; [by left|]. eapply Forall_impl; [by apply (apart_base base lo base_ok brk)|]. by right.
  - destruct (wf_headers brk fl1 (a, n) fl2 Hs Hi) as [Ha1 Ha2]. rewrite fmap_app.
    change (base :: fl1.*1 ++ ((a, n) :: fl2).*1) with ((base :: fl1.*1) ++ a :: fl2.*1).
    apply Forall_app. split; [eapply Forall_impl; [exact Ha1|by right]|]. constructor; [by left|].
    eapply Forall_impl; [exact Ha2|by right].
Qed.

Lemma take_rep m freep fl1 c fl2 al brk n : rep base m freep (fl1 ++ c :: fl2) → wf lo (fl1 ++ c :: fl2) al brk →
  1 ≤ n ≤ c.2 → let p := last_header base fl1 in let m' := take_mem p n c m in
  rep base m' p (fl1 ++ rest c n ++ fl2) ∧ size m' (taken c n).1 = n ∧ agree [p; c.1; (taken c n).1] m m'.
Proof.
  intros [Hl Hb Hz Hf] [Hs Hi _ Hbrk _ _] Hn p m'. destruct (wf_headers brk fl1 c fl2 Hs Hi) as [Ha1 Ha2].
  pose proof Hi as [Hi1 [Hic Hi2]%Forall_cons]%Forall_app. destruct Hic as (Hc1 & Hc2 & Hc3). unfold fin in Hc3.
  rewrite fmap_app in Hl. change (base :: fl1.*1 ++ (c :: fl2).*1) with ((base :: fl1.*1) ++ c.1 :: fl2.*1) in Hl.
  apply links_app in Hl as [Hl1 [Hlc Hl2]]. apply Forall_app in Hz as [Hz1 [Hzc Hz2]%Forall_cons].
  pose proof (last_header_in base fl1) as Hp. fold p in Hp. assert (apart p c.1) as Hpc by (by rewrite Forall_forall in Ha1; apply Ha1).
  subst m'. unfold take_mem, rest. destruct (Z.eqb_spec c.2 n) as [E|E].
  - rewrite Hlc. pose proof (head_range base lo base_ok brk fl2 Hi2 ltac:(lia)) as Hr.
    pose proof (agree_set_ptr p (default base (head fl2.*1)) m) as Ha.
    assert (taken c n = c) as -> by (unfold taken; destruct c; simpl in *; f_equal; lia).
    assert (apart c.1 p) by (unfold apart in *; lia).
    split_and!; [|by rewrite size_set_ptr, Hzc by (by right)|eapply agree_mono; [|exact Ha]; set_solver].
    pose proof (same_or_apart brk (fl1 ++ c :: fl2) p Hs Hi ltac:(set_solver)) as Hsa.
    assert (base = p ∨ apart base p) as Hsb by (apply Forall_cons in Hsa as [? _]; done).
    assert (Forall (λ y, y = p ∨ apart y p) fl1.*1 ∧ Forall (λ y, y = p ∨ apart y p) fl2.*1) as [Hs1 Hs2].
    { rewrite !Forall_forall in *. split; intros y Hy; apply Hsa; rewrite fmap_app; set_solver. }
    apply StronglySorted_app in Hs as (H12 & H1 & [Hc H2]%StronglySorted_cons). rewrite app_nil_l. constructor.
    + rewrite fmap_app. change (base :: fl1.*1 ++ fl2.*1) with ((base :: fl1.*1) ++ fl2.*1). apply links_app.
      split; [by apply (relink brk m fl1 c.1)|]. eapply (links_agree p); [exact Ha| |exact Hl2].
      apply Forall_fmap, Forall_forall. intros x Hx. simpl. rewrite Forall_forall in Hc. rewrite Forall_forall in Hs2.
      destruct (Hs2 x.1) as [Ex|]; [apply list_elem_of_fmap; by exists x| |done]. exfalso.
      apply elem_of_cons in Hp as [Hp|(y & Hp & Hy)%list_elem_of_fmap].
      * specialize (Hc x Hx). unfold before, fin in Hc. lia.
      * pose proof (H12 y x Hy ltac:(by right)). rewrite Forall_forall in Hi1. destruct (Hi1 y Hy) as (? & ? & ?).
        unfold before, fin in *. lia.
    + by rewrite size_set_ptr.
    + apply Forall_app. split; by apply sizes_set_ptr.
    + rewrite fmap_app. set_solver.
  - set (q := (taken c n).1). assert (c.1 + 8 ≤ q ∧ q + 8 * n = c.1 + 8 * c.2) as Hq by (unfold q, taken; simpl; lia).
    set (m1 := set_size c.1 _ m). set (m' := set_size q n m1).
    pose proof (inner_apart brk fl1 c fl2 q Hs Hi ltac:(lia) ltac:(unfold fin; lia)) as Hq12.
    rewrite Forall_cons, Forall_app in Hq12. destruct Hq12 as (Hqb & Hq1 & Hq2).
    assert (agree [c.1] m m1) as Hm1 by apply agree_set_size. assert (agree [q] m1 m') as Hm' by apply agree_set_size.
    assert (size m' c.1 = c.2 - n) as Ec.
    { unfold m'. rewrite size_set_size_ne by (unfold apart; lia). apply size_set_size. lia. }
    split_and!; [constructor|apply size_set_size; lia|].
    + rewrite fmap_app. change (base :: fl1.*1 ++ ([(c.1, c.2 - n)] ++ fl2).*1) with ((base :: fl1.*1) ++ c.1 :: fl2.*1).
      apply (links_agree q m1); [done|apply Forall_app; split; [by constructor|constructor; [unfold apart; lia|done]]|].
      apply links_app. split; [by apply (links_agree c.1 m)|]. split; [|by apply (links_agree c.1 m)].
      unfold m1. by rewrite ptr_set_size by (by left).
    + unfold m', m1. apply Forall_cons in Ha1 as [Ha1 _]. by rewrite !size_set_size_ne.
    + apply Forall_app. apply Forall_cons in Ha1 as [_ Ha1].
      split; [apply (sizes_agree q m1); [done|done|]; by apply (sizes_agree c.1 m)|].
      constructor; [done|]. apply (sizes_agree q m1); [done|done|]. by apply (sizes_agree c.1 m).
    + rewrite fmap_app. set_solver.
    + eapply agree_trans; [eapply agree_mono; [|exact Hm1]; set_solver|eapply agree_mono; [|exact Hm']; set_solver].
Qed.
End take.

(** ** The loop of malloc *)

Lemma first_hit (P : nat → Prop) `{!∀ d, Decision (P d)} n :
  (∃ d, (1 ≤ d ≤ n)%nat ∧ P d ∧ ∀ e, (1 ≤ e < d)%nat → ¬ P e) ∨ ∀ d, (1 ≤ d ≤ n)%nat → ¬ P d.
Proof.
  induction n as [|n [(d & Hd & H1 & H2)|IH]]; [right; lia|left; exists d; split_and!; [lia|lia|done..]|].
  destruct (decide (P (S n))) as [Hp|Hp].
  - left. exists (S n). split_and!; [lia|lia|done|]. intros e He. apply IH. lia.
  - right. intros d Hd. destruct (decide (d = S n)) as [->|]; [done|]. apply IH. lia.
Qed.

Lemma iter_after n f e : (f < n)%nat → (e ≤ n)%nat →
  Nat.iter e (after n) f = if decide (f + e < n)%nat then (f + e)%nat else (f + e - n)%nat.
Proof.
  intros Hf. induction e as [|e IH]; intros He; simpl.
  - rewrite decide_True by lia. lia.
  - rewrite IH by lia. unfold after. repeat case_decide; lia.
Qed.

Section loop.
Variables (base lo : Z) (grow : Z → Z → bool).
Hypothesis base_ok : 0 < base ∧ base + 8 ≤ lo < 2 ^ 31.
Variables (m : CString.mem) (freep brk n : Z) (fl al : list block).
Hypotheses (Hrep : rep base m freep fl) (Hwf : wf lo fl al brk) (Hn : 1 ≤ n).

Notation len := (S (length fl)).
Notation h := (mkHeap m freep brk).

(** The header [e] steps after [freep]. *)
Definition node (f e : nat) : Z := (base :: fl.*1) !!! Nat.iter e (after len) f.

Lemma iter_lt f e : (f < len)%nat → (Nat.iter e (after len) f < len)%nat.
Proof. intros Hf. induction e as [|e IH]; [done|]. rewrite Nat.iter_succ. unfold after at 1. case_decide; lia. Qed.

Lemma node_next f e : (f < len)%nat → ptr m (node f e) = node f (S e).
Proof.
  intros Hf. unfold node. rewrite (ring_next m base fl.*1); [|by apply Hrep|].
  - rewrite Nat.iter_succ. cbn [length]. by rewrite length_fmap.
  - cbn [length]. rewrite length_fmap. by apply iter_lt.
Qed.

Lemma node_freep f e : (f < len)%nat → node f 0 = freep → (0 < e < len)%nat → node f e ≠ freep.
Proof.
  intros Hf <- He. unfold node. rewrite !iter_after by lia. rewrite (decide_True (P := (f + 0 < len)%nat)) by lia.
  destruct Hwf as [Hs Hi _ _ _ _]. pose proof (headers_sorted base lo base_ok brk fl Hs Hi) as Hlt.
  assert (length (base :: fl.*1) = len) as Hlen by (simpl; by rewrite length_fmap).
  case_decide.
  - pose proof (sorted_lt _ (f + 0) (f + e) Hlt ltac:(rewrite Hlen; lia)). lia.
  - pose proof (sorted_lt _ (f + e - len) (f + 0) Hlt ltac:(rewrite Hlen; lia)). lia.
Qed.

Lemma freep_node : ∃ f, (f < len)%nat ∧ node f 0 = freep.
Proof.
  destruct Hrep as [_ _ _ Hf]. apply list_elem_of_lookup_1 in Hf as [f Hf]. exists f. split.
  - apply lookup_lt_Some in Hf. simpl in Hf. by rewrite length_fmap in Hf.
  - by apply list_lookup_total_correct.
Qed.

(** Every block is within [len] steps. *)
Lemma node_cover f c : (f < len)%nat → c ∈ fl → ∃ d, (1 ≤ d ≤ len)%nat ∧ node f d = c.1.
Proof.
  intros Hf [i Hi]%list_elem_of_lookup_1. pose proof (lookup_lt_Some _ _ _ Hi) as Hlt.
  exists (if decide (f < S i)%nat then S i - f else S i + len - f)%nat. split; [case_decide; lia|].
  unfold node. rewrite iter_after by (try case_decide; lia).
  assert ((base :: fl.*1) !!! S i = c.1) as <-.
  { rewrite lookup_total_S. apply list_lookup_total_correct. by rewrite list_lookup_fmap, Hi. }
  f_equal. repeat case_decide; lia.
Qed.

Definition fits (f d : nat) : Prop := n ≤ size m (node f d).
#[local] Instance fits_dec f d : Decision (fits f d).
Proof. unfold fits. apply _. Defined.

(** A header with enough room is a block of the list, after the header that
    the loop visited before. *)
Lemma fits_block f d : (f < len)%nat → fits f (S d) → ∃ fl1 c fl2, fl = fl1 ++ c :: fl2 ∧ n ≤ c.2 ∧
  node f (S d) = c.1 ∧ node f d = last_header base fl1 ∧ size m c.1 = c.2.
Proof.
  intros Hf Hfit. unfold fits, node in Hfit. pose proof (iter_lt f d Hf). destruct Hrep as [_ Hb Hz _].
  unfold node. rewrite Nat.iter_succ in *. unfold after at 1 in Hfit. unfold after at 1. case_decide as E.
  { change (n ≤ size m base) in Hfit. lia. }
  set (i := Nat.iter d (after len) f) in *. rewrite lookup_total_S in *.
  destruct (lookup_lt_is_Some_2 fl i) as [c Hc]; [lia|].
  assert (fl.*1 !!! i = c.1) as Ec by (apply list_lookup_total_correct; by rewrite list_lookup_fmap, Hc).
  pose proof (Forall_lookup_1 _ _ _ _ Hz Hc) as Hzc. rewrite Ec, Hzc in Hfit.
  exists (take i fl), c, (drop (S i) fl). pose proof (take_drop_middle fl i c Hc) as Efl. split_and!; [done|done|done| |done].
  rewrite <- (last_header_lookup base (take i fl) (c :: drop (S i) fl)), Efl. by rewrite length_take, Nat.min_l by lia.
Qed.

Definition take_result (fl1 : list block) (c : block) : Z * heap :=
  (u32 ((taken c n).1 + 8), mkHeap (take_mem (last_header base fl1) n c m) (last_header base fl1) brk).

Lemma take_step fuel fl1 c fl2 : fl = fl1 ++ c :: fl2 → n ≤ c.2 →
  malloc_loop grow (S fuel) n (last_header base fl1) c.1 h = Some (take_result fl1 c).
Proof.
  intros E Hc. destruct Hrep as [_ _ Hz _], Hwf as [_ Hi _ Hbrk _ _]. rewrite E in Hz, Hi.
  apply Forall_app in Hz as [_ [Hz _]%Forall_cons]. apply Forall_app in Hi as [_ [(H1 & H2 & H3) _]%Forall_cons].
  unfold fin in H3. cbn [malloc_loop h_mem h_brk]. rewrite Hz, (proj2 (Z.leb_le n c.2) Hc). unfold take_result, take_mem.
  change HDR with 8. destruct (Z.eqb_spec c.2 n) as [Ec|Ec].
  - unfold taken. simpl. rewrite Ec. do 3 f_equal. lia.
  - rewrite size_set_size by lia. unfold taken. simpl. by rewrite (u32_small (c.1 + 8 * (c.2 - n))) by lia.
Qed.

(** One turn of the loop on a header without enough room. *)
Lemma skip_step fuel f e : (f < len)%nat → ¬ fits f (S e) → node f (S e) ≠ freep →
  malloc_loop grow (S fuel) n (node f e) (node f (S e)) h = malloc_loop grow fuel n (node f (S e)) (node f (S (S e))) h.
Proof.
  intros Hf Hfit Hne. unfold fits in Hfit. cbn [malloc_loop h_mem h_freep].
  rewrite (proj2 (Z.leb_gt n _)) by lia. rewrite (proj2 (Z.eqb_neq _ _) Hne). by rewrite node_next.
Qed.

Lemma loop_skips f d fuel : (f < len)%nat → node f 0 = freep → (d < len)%nat → (∀ e, (1 ≤ e ≤ d)%nat → ¬ fits f e) →
  malloc_loop grow (d + fuel) n freep (ptr m freep) h = malloc_loop grow fuel n (node f d) (node f (S d)) h.
Proof.
  intros Hf H0 Hd Hno. rewrite <- H0 at 1 2. rewrite node_next by done.
  revert fuel. induction d as [|d IH]; intros fuel; [done|].
  replace (S d + fuel)%nat with (d + S fuel)%nat by lia. rewrite IH by (lia || (intros; apply Hno; lia)).
  apply skip_step; [done|apply Hno; lia|]. apply node_freep; [done|done|lia].
Qed.

Lemma loop_found fuel : (∃ c, c ∈ fl ∧ n ≤ c.2) → (len ≤ fuel)%nat →
  ∃ fl1 c fl2, fl = fl1 ++ c :: fl2 ∧ n ≤ c.2 ∧
    malloc_loop grow fuel n freep (ptr m freep) h = Some (take_result fl1 c).
Proof.
  intros (c0 & Hc0 & Hfit0) Hfuel. destruct freep_node as (f & Hf & H0). destruct (node_cover f c0 Hf Hc0) as (d0 & Hd0 & E0).
  destruct (first_hit (fits f) len) as [(d & Hd & Hfit & Hmin)|Hno].
  - destruct d as [|d]; [lia|]. destruct (fits_block f d Hf Hfit) as (fl1 & c & fl2 & Efl & Hc & Ec & Ep & _).
    exists fl1, c, fl2. split_and!; [done|done|]. replace fuel with (d + S (fuel - d - 1))%nat by lia.
    rewrite (loop_skips f) by (done || lia || (intros; apply Hmin; lia)). rewrite Ep, Ec. by eapply take_step.
  - exfalso. apply (Hno d0 Hd0). unfold fits. rewrite E0. destruct Hrep as [_ _ Hz _]. rewrite Forall_forall in Hz.
    by rewrite (Hz c0 Hc0).
Qed.

Lemma loop_none fuel : (∀ c, c ∈ fl → c.2 < n) →
  malloc_loop grow (len + fuel) n freep (ptr m freep) h =
    (r ← morecore grow fuel n h;
     if r.1 =? 0 then Some (0, r.2) else malloc_loop grow fuel n r.1 (ptr (h_mem r.2) r.1) r.2).
Proof.
  intros Hno. destruct freep_node as (f & Hf & H0).
  assert (∀ e, ¬ fits f (S e)) as Hnf.
  { intros e Hfit. destruct (fits_block f e Hf Hfit) as (fl1 & c & fl2 & Efl & Hc & _).
    assert (c ∈ fl) as Hin by (rewrite Efl; set_solver). specialize (Hno c Hin). lia. }
  replace (len + fuel)%nat with (length fl + S fuel)%nat by lia.
  rewrite (loop_skips f) by (done || lia || (intros [|e] ?; [lia|apply Hnf])).
  assert (node f len = freep) as El.
  { rewrite <- H0. unfold node. f_equal. rewrite iter_after by lia. rewrite decide_False by lia. simpl. lia. }
  rewrite El. cbn [malloc_loop h_mem h_freep]. specialize (Hnf (length fl)). unfold fits in Hnf. rewrite El in Hnf.
  rewrite (proj2 (Z.leb_gt n _)) by lia. rewrite Z.eqb_refl.
  destruct (morecore grow fuel n h) as [[p h']|]; [|done]. done.
Qed.
End loop.

(** ** The heap *)

(** The bytes of the blocks [al], their headers included, are the same. *)
Definition keeps (al : list block) (m m' : CString.mem) : Prop :=
  ∀ b x, b ∈ al → b.1 ≤ x < fin b → m' x = m x.

Lemma keeps_trans al m1 m2 m3 : keeps al m1 m2 → keeps al m2 m3 → keeps al m1 m3.
Proof. intros H1 H2 b x Hb Hx. by rewrite (H2 b x), (H1 b x). Qed.

Lemma keeps_sizes brk lo al m m' : Forall (inside lo brk) al → keeps al m m' →
  Forall (λ b, size m b.1 = b.2) al → Forall (λ b, size m' b.1 = b.2) al.
Proof.
  intros Hi Hk Hs. rewrite Forall_forall in *. intros b Hb. rewrite <- (Hs b Hb). apply Kalloc.load32_ext.
  intros x Hx. apply (Hk b x Hb). destruct (Hi b Hb) as (_ & ? & _). unfold fin. lia.
Qed.

(** A header that is not part of a block in use. *)
Definition spare (lo brk : Z) (fl : list block) (h : Z) : Prop :=
  h + 8 ≤ lo ∨ (∃ c, c ∈ fl ∧ c.1 ≤ h ∧ h + 8 ≤ fin c) ∨ brk ≤ h.

Lemma agree_keeps lo fl al brk hs m m' : wf lo fl al brk → agree hs m m' → Forall (spare lo brk fl) hs → keeps al m m'.
Proof.
  intros [_ _ Hu _ Hsep _] Ha Hhs b x Hb Hx. apply Ha. eapply Forall_impl; [exact Hhs|]. intros h Hh. simpl.
  rewrite Forall_forall in Hu. destruct (Hu b Hb) as (H1 & H2 & H3).
  destruct Hh as [Hh|[(c & Hc & Hh1 & Hh2)|Hh]]; [lia| |lia].
  specialize (Hsep c b Hc Hb). unfold sep in Hsep. lia.
Qed.

Lemma spare_headers base lo brk fl : base + 8 ≤ lo → Forall (inside lo brk) fl → Forall (spare lo brk fl) (base :: fl.*1).
Proof.
  intros Hb Hi. constructor; [by left|]. apply Forall_fmap, Forall_forall. intros c Hc. right. left. exists c.
  rewrite Forall_forall in Hi. destruct (Hi c Hc) as (_ & ? & _). simpl. unfold fin. split_and!; [done|lia|lia].
Qed.

Lemma inside_mono lo brk brk' l : brk ≤ brk' → Forall (inside lo brk) l → Forall (inside lo brk') l.
Proof. intros Hb H. eapply Forall_impl; [exact H|]. intros c (? & ? & ?). unfold inside. lia. Qed.

(** A block in use has its place between free blocks. *)
Lemma place fl b : StronglySorted before fl → Forall (λ x, 1 ≤ x.2) fl → 1 ≤ b.2 → Forall (λ x, sep x b) fl →
  ∃ fl1 fl2, fl = fl1 ++ fl2 ∧ Forall (λ x, fin x ≤ b.1) fl1 ∧ Forall (λ y, fin b ≤ y.1) fl2.
Proof.
  intros Hs Hp Hb. induction Hs as [|x fl Hs IH Hx]; intros Hsep; [by exists [], []|].
  apply Forall_cons in Hp as [Hpx Hp]. apply Forall_cons in Hsep as [[Hxb|Hbx] Hsep].
  - destruct (IH Hp Hsep) as (fl1 & fl2 & -> & H1 & H2). exists (x :: fl1), fl2. split_and!; [done|by constructor|done].
  - exists [], (x :: fl). split_and!; [done|done|]. constructor; [done|]. eapply Forall_impl; [exact Hx|].
    intros y. unfold before, fin in *. lia.
Qed.

Lemma length_insert_free fl1 b fl2 : (length (insert_free fl1 b fl2) ≤ S (length (fl1 ++ fl2)))%nat.
Proof.
  unfold insert_free, join_r. destruct fl1 as [|c fl1 _] using rev_ind; destruct fl2 as [|d fl2];
    try destruct (fin b =? d.1); rewrite ?join_l_snoc; try destruct (_ =? _); rewrite ?length_app; simpl; lia.
Qed.

Lemma insert_free_large fl1 b : Forall (λ x, 1 ≤ x.2) fl1 → ∃ c, c ∈ insert_free fl1 b [] ∧ b.2 ≤ c.2.
Proof.
  intros Hp. unfold insert_free. simpl. destruct fl1 as [|c fl1 _] using rev_ind; [exists b; split; [by left|lia]|].
  apply Forall_app in Hp as [_ [Hc _]%Forall_cons]. rewrite join_l_snoc. destruct (_ =? _).
  - exists (c.1, c.2 + b.2). split; [set_solver|simpl; lia].
  - exists b. split; [set_solver|lia].
Qed.

Section heap.
Variables (base lo : Z) (grow : Z → Z → bool).
Hypothesis base_ok : 0 < base ∧ base + 8 ≤ lo < 2 ^ 31.
(** A process stays below the kernel. *)
Hypothesis grow_ok : ∀ b n, grow b n = true → b + n < 2 ^ 31.

Record heap_ok (h : heap) (fl al : list block) : Prop := mkHeapOk {
  hk_wf : wf lo fl al (h_brk h);
  hk_rep : rep base (h_mem h) (h_freep h) fl;
  hk_used : Forall (λ b, size (h_mem h) b.1 = b.2) al
}.

(** A free block that is put into the list. *)
Lemma free_block m freep brk fl1 b fl2 al fuel : rep base m freep (fl1 ++ fl2) → placed lo brk fl1 b fl2 →
  lo ≤ brk < 2 ^ 31 ∧ (brk - lo) mod 8 = 0 → size m b.1 = b.2 → Forall (inside lo brk) al → all_sep al →
  Forall (λ b, size m b.1 = b.2) al → (∀ x y, x ∈ b :: fl1 ++ fl2 → y ∈ al → sep x y) →
  (2 * length (fl1 ++ fl2) + 2 < fuel)%nat →
  ∃ h', free fuel (u32 (b.1 + 8)) (mkHeap m freep brk) = Some h' ∧ h_brk h' = brk ∧
    heap_ok h' (insert_free fl1 b fl2) al ∧ keeps al m (h_mem h').
Proof.
  intros Hrep Hpl Hbrk Hsz Hal Hs Hu Hsep Hfuel.
  destruct (free_rep base lo base_ok brk m freep fl1 b fl2 fuel Hpl) as (m' & p & E & Hr & Ha); [lia|done|done|done|].
  exists (mkHeap m' p brk). simpl. pose proof Hpl as [_ _ _ Hi].
  assert (wf lo (insert_free fl1 b fl2) al brk) as Hwf.
  { destruct (join_r_placed lo _ _ _ _ Hpl) as [Hpl' Hb']. unfold insert_free in *.
    pose proof (λ y Hy, insert_free_sep fl1 b fl2 y Hy) as His. unfold insert_free in His.
    destruct (join_r b fl2) as [b' fl2']. destruct (join_l_sorted lo brk fl1 b' fl2' Hpl' Hb') as [H1 H2].
    constructor; [done|done|done|done| |done]. intros x y Hx Hy.
    rewrite Forall_forall in Hal. destruct (Hal y Hy) as (_ & Hy2 & _).
    specialize (His y Hy2). rewrite !Forall_forall in His. apply His; [|done]. intros z Hz. by apply Hsep. }
  assert (keeps al m m') as Hk.
  { assert (Forall (spare lo brk (b :: fl1 ++ fl2)) (base :: b.1 :: (fl1 ++ fl2).*1)) as Hsp
      by apply (spare_headers base lo brk (b :: fl1 ++ fl2) ltac:(lia) Hi).
    intros d x Hd Hx. apply Ha. eapply Forall_impl; [exact Hsp|]. intros h Hh. simpl.
    rewrite Forall_forall in Hal. destruct (Hal d Hd) as (? & ? & ?).
    destruct Hh as [Hh|[(c & Hc & Hh1 & Hh2)|Hh]]; [lia| |lia]. specialize (Hsep c d Hc Hd). unfold sep in Hsep. lia. }
  split_and!; [done|done| |done]. constructor; [done|done|]. simpl. by apply (keeps_sizes brk lo al m).
Qed.

Lemma free_spec h fl l1 b l2 fuel : heap_ok h fl (l1 ++ b :: l2) → (2 * length fl + 2 < fuel)%nat →
  ∃ h' fl', free fuel (u32 (b.1 + 8)) h = Some h' ∧ h_brk h' = h_brk h ∧ heap_ok h' fl' (l1 ++ l2) ∧
    total fl' = total fl + b.2 ∧ keeps (l1 ++ l2) (h_mem h) (h_mem h').
Proof.
  intros [[Hs Hf Hu Hbrk Hsep Hal] Hrep Hsz] Hfuel. apply all_sep_mid in Hal as [Hal Hbal].
  rewrite Forall_app, Forall_cons in Hu, Hsz. destruct Hu as (Hu1 & Hub & Hu2), Hsz as (Hsz1 & Hszb & Hsz2).
  destruct (place fl b) as (fl1 & fl2 & -> & H1 & H2); [done|..].
  { eapply Forall_impl; [exact Hf|]. by intros c (_ & ? & _). }
  { apply Hub. }
  { apply Forall_forall. intros x Hx. apply Hsep; [done|set_solver]. }
  destruct h as [m freep brk]. simpl in *.
  destruct (free_block m freep brk fl1 b fl2 (l1 ++ l2) fuel) as (h' & E & Eb & Hok & Hk); try done.
  - constructor; [done..|]. by constructor.
  - apply Forall_app. done.
  - apply Forall_app. done.
  - intros x y [->|Hx]%elem_of_cons Hy; [by rewrite Forall_forall in Hbal; apply Hbal|]. apply Hsep; [done|set_solver].
  - exists h', (insert_free fl1 b fl2). split_and!; [done|done|done| |done]. rewrite total_insert_free, total_app. lia.
Qed.

Definition core_units (n : Z) : Z := if n <? 4096 then 4096 else n.

Lemma morecore_spec h fl al n fuel : heap_ok h fl al → 1 ≤ n → 8 * n < 2 ^ 31 → (2 * length fl + 2 < fuel)%nat →
  if grow (h_brk h) (8 * core_units n) then
    ∃ h' fl', morecore grow fuel n h = Some (h_freep h', h') ∧ h_brk h' = h_brk h + 8 * core_units n ∧ heap_ok h' fl' al ∧
      total fl' = total fl + core_units n ∧ (length fl' ≤ S (length fl))%nat ∧ (∃ c, c ∈ fl' ∧ n ≤ c.2) ∧
      keeps al (h_mem h) (h_mem h')
  else morecore grow fuel n h = Some (0, h).
Proof.
  intros [[Hs Hf Hu Hbrk Hsep Hal] Hrep Hsz] Hn Hn8 Hfuel. destruct h as [m freep brk]. unfold morecore. simpl in *.
  fold (core_units n). set (nu := core_units n). assert (n ≤ nu ∧ 4096 ≤ nu ∧ 8 * nu < 2 ^ 31) as Hnu.
  { unfold nu, core_units. destruct (Z.ltb_spec n 4096); lia. }
  unfold sbrk. simpl. change HDR with 8. rewrite i32_small by lia. rewrite (Z.mul_comm nu).
  destruct (grow brk (8 * nu)) eqn:Eg; [|done]. apply grow_ok in Eg as Hg. replace (brk =? -1) with false by lia.
  set (m1 := set_size brk nu m). assert (agree [brk] m m1) as Ha by apply agree_set_size.
  assert (Forall (inside lo (brk + 8 * nu)) fl ∧ Forall (inside lo (brk + 8 * nu)) al) as [Hf' Hu'].
  { split; by apply (inside_mono lo brk); [lia|]. }
  assert (Forall (λ y, apart y brk) (base :: fl.*1)) as Hap.
  { constructor; [unfold apart; lia|]. apply Forall_fmap. eapply Forall_impl; [exact Hf|]. intros c (? & ? & ?). simpl.
    unfold apart, fin in *. lia. }
  assert (keeps al m m1) as Hk1 by (apply (agree_keeps lo fl al brk [brk]); [done|done|constructor; [right; right; lia|done]]).
  destruct (free_block m1 freep (brk + 8 * nu) fl (brk, nu) [] al fuel) as (h' & E & Eb & Hok & Hk).
  - rewrite app_nil_r. destruct Hrep as [R1 R2 R3 R4]. constructor; [by apply (links_agree brk m)|..|done].
    + rewrite <- R2. apply (agree_header [brk]); [done|]. apply Forall_cons in Hap as [? _]. by constructor.
    + apply (sizes_agree brk m); [done|by apply Forall_cons in Hap as [_ ?]|done].
  - constructor; [by rewrite app_nil_r| |done|].
    + eapply Forall_impl; [exact Hf|]. by intros c (? & ? & ? & ?).
    + rewrite app_nil_r. constructor; [|done]. unfold inside, fin. simpl. lia.
  - lia.
  - simpl. apply size_set_size. lia.
  - done.
  - done.
  - by apply (keeps_sizes brk lo al m).
  - rewrite app_nil_r. intros x y [->|Hx]%elem_of_cons Hy; [|by apply Hsep].
    rewrite Forall_forall in Hu. destruct (Hu y Hy) as (? & ? & ? & ?). right. simpl. done.
  - by rewrite app_nil_r.
  - cbn [h_mem h_freep h_brk fst] in *. fold m1. rewrite E. exists h', (insert_free fl (brk, nu) []). cbn [mbind option_bind]. split_and!; [done|done|done|..].
    + rewrite total_insert_free. simpl. lia.
    + pose proof (length_insert_free fl (brk, nu) []). by rewrite app_nil_r in *.
    + destruct (insert_free_large fl (brk, nu)) as (c & Hc & Hc2); [eapply Forall_impl; [exact Hf|]; by intros c (? & ? & ? & ?)|].
      exists c. split; [done|]. simpl in Hc2. lia.
    + by eapply keeps_trans.
Qed.

Lemma take_ok m freep brk fl1 c fl2 al n : heap_ok (mkHeap m freep brk) (fl1 ++ c :: fl2) al → 1 ≤ n ≤ c.2 →
  let r := take_result base m brk n fl1 c in
  r.1 = (taken c n).1 + 8 ∧ h_brk r.2 = brk ∧ heap_ok r.2 (fl1 ++ rest c n ++ fl2) (taken c n :: al) ∧
  keeps al m (h_mem r.2).
Proof.
  intros [Hwf Hrep Hu] Hn r. simpl in *.
  destruct (take_rep base lo base_ok m freep fl1 c fl2 al brk n Hrep Hwf Hn) as (Hr & Hsz & Ha).
  pose proof (wf_taken base lo base_ok fl1 c fl2 al brk n Hwf Hn) as Hwf'. pose proof Hwf as [_ Hi _ Hbrk _ _].
  pose proof Hi as [Hi1 [(Hc1 & Hc2 & Hc3) _]%Forall_cons]%Forall_app. unfold fin in Hc3.
  assert (keeps al m (take_mem (last_header base fl1) n c m)) as Hk.
  { apply (agree_keeps lo _ al brk _ m _ Hwf Ha).
    pose proof (spare_headers base lo brk _ ltac:(lia) Hi) as Hsp. rewrite Forall_forall in Hsp.
    rewrite !Forall_cons. split_and!; [apply Hsp|apply Hsp| |done].
    - rewrite fmap_app. pose proof (last_header_in base fl1). set_solver.
    - rewrite fmap_app. set_solver.
    - right. left. exists c. unfold taken, fin. simpl. split_and!; [set_solver|lia|lia]. }
  subst r. unfold take_result. simpl. split_and!; [apply u32_small; unfold taken; simpl; lia|done| |done].
  constructor; [done|done|]. simpl. constructor; [done|]. apply (keeps_sizes brk lo al m); [apply Hwf|done|done].
Qed.

(** Before the first malloc there is no list. *)
Definition heap_inv (h : heap) (fl al : list block) : Prop :=
  heap_ok h fl al ∨ (h_freep h = 0 ∧ fl = [] ∧ al = [] ∧ lo ≤ h_brk h < 2 ^ 31 ∧ (h_brk h - lo) mod 8 = 0).

Definition init_heap (h : heap) : heap :=
  if h_freep h =? 0 then mkHeap (set_size base 0 (set_ptr base base (h_mem h))) base (h_brk h) else h.

Lemma init_ok h fl al : heap_inv h fl al → heap_ok (init_heap h) fl al ∧ h_brk (init_heap h) = h_brk h ∧
  keeps al (h_mem h) (h_mem (init_heap h)).
Proof.
  intros [[Hwf Hrep Hu]|(E & -> & -> & Hb)]; unfold init_heap.
  - replace (h_freep h =? 0) with false; [split_and!; done|]. destruct Hwf as [_ Hi _ _ _ _], Hrep as [_ _ _ Hf].
    symmetry. apply Z.eqb_neq. apply elem_of_cons in Hf as [->|(c & -> & Hc)%list_elem_of_fmap]; [lia|].
    rewrite Forall_forall in Hi. destruct (Hi c Hc). lia.
  - rewrite E. simpl. split_and!; [|done|by intros b x Hb'%not_elem_of_nil]. constructor; simpl; [|constructor|done].
    + constructor; [constructor|done|done|done|by intros ? ? ?%not_elem_of_nil|done].
    + split; [|done]. rewrite ptr_set_size by (by left). apply (ptr_set_ptr base base). lia.
    + by apply size_set_size.
    + done.
    + by left.
Qed.

Lemma units_range nbytes : 0 ≤ nbytes ≤ 2 ^ 31 - 16 → 1 ≤ units nbytes ∧ 8 * units nbytes < 2 ^ 31 ∧ nbytes ≤ 8 * (units nbytes - 1).
Proof.
  intros Hn. unfold units, HDR. rewrite u32_small by lia. Z.div_mod_to_equations. lia.
Qed.

Lemma freep_ne h fl al : heap_ok h fl al → h_freep h ≠ 0.
Proof.
  intros [[_ Hi _ _ _ _] [_ _ _ Hf] _]. apply elem_of_cons in Hf as [->|(c & -> & Hc)%list_elem_of_fmap]; [lia|].
  rewrite Forall_forall in Hi. destruct (Hi c Hc). lia.
Qed.

Lemma loop_takes h fl al n fuel : heap_ok h fl al → 1 ≤ n → (∃ c, c ∈ fl ∧ n ≤ c.2) → (S (length fl) ≤ fuel)%nat →
  ∃ b h' fl', malloc_loop grow fuel n (h_freep h) (ptr (h_mem h) (h_freep h)) h = Some (b.1 + 8, h') ∧ b.2 = n ∧
    heap_ok h' fl' (b :: al) ∧ keeps al (h_mem h) (h_mem h') ∧ h_brk h' = h_brk h ∧ total fl' + n = total fl.
Proof.
  intros Hok Hn Hfit Hfuel. destruct h as [m freep brk]. pose proof Hok as [Hwf Hrep _]. simpl in *.
  destruct (loop_found base lo grow base_ok m freep brk n fl al Hrep Hwf Hn fuel Hfit Hfuel) as (fl1 & c & fl2 & -> & Hc & E).
  destruct (take_ok m freep brk fl1 c fl2 al n Hok) as (E1 & E2 & Hok' & Hk'); [lia|].
  exists (taken c n), (take_result base m brk n fl1 c).2, (fl1 ++ rest c n ++ fl2).
  split_and!; [by rewrite E, <- E1|done|done|done|done|]. rewrite !total_app, rest_total. simpl. lia.
Qed.

(** What malloc does; [fl] are the free blocks, and [al] those in use. *)
Definition malloc_post (h : heap) (fl al : list block) (n : Z) (r : Z) (h' : heap) : Prop :=
  (r = 0 ∧ heap_ok h' fl al ∧ h_brk h' = h_brk h ∧ (∀ c, c ∈ fl → c.2 < n) ∧ grow (h_brk h) (8 * core_units n) = false) ∨
  (∃ b fl', r = b.1 + 8 ∧ b.2 = n ∧ heap_ok h' fl' (b :: al) ∧ 8 * (total fl' + n) - h_brk h' = 8 * total fl - h_brk h ∧
    ((∃ c, c ∈ fl ∧ n ≤ c.2) → h_brk h' = h_brk h)).

Lemma malloc_spec h fl al nbytes fuel : heap_inv h fl al → 0 ≤ nbytes ≤ 2 ^ 31 - 16 → (3 * length fl + 4 ≤ fuel)%nat →
  ∃ r h', malloc base grow fuel nbytes h = Some (r, h') ∧ keeps al (h_mem h) (h_mem h') ∧
    malloc_post h fl al (units nbytes) r h'.
Proof.
  intros Hinv Hnb Hfuel. destruct (init_ok h fl al Hinv) as (Hok & Eb & Hk0). unfold malloc. fold (init_heap h).
  set (n := units nbytes). destruct (units_range nbytes Hnb) as (Hn1 & Hn8 & _). fold n in Hn1, Hn8.
  set (h0 := init_heap h) in *. unfold malloc_post. rewrite <- Eb. destruct (decide (Exists (λ c, n ≤ c.2) fl)) as [He|Hne].
  - apply Exists_exists in He. destruct (loop_takes h0 fl al n fuel) as (b & h' & fl' & E & Hb & Hok' & Hk & E2 & Et); [done|done|done|lia|].
    exists (b.1 + 8), h'. split_and!; [done|by eapply keeps_trans|]. right. exists b, fl'. split_and!; [done|done|done|lia|done].
  - assert (∀ c, c ∈ fl → c.2 < n) as Hno.
    { intros c Hc. destruct (decide (c.2 < n)); [done|]. exfalso. apply Hne, Exists_exists. exists c. split; [done|lia]. }
    replace fuel with (S (length fl) + (fuel - S (length fl)))%nat by lia. set (fuel' := (fuel - _)%nat).
    pose proof (morecore_spec h0 fl al n fuel' Hok Hn1 Hn8 ltac:(lia)) as Hm. pose proof Hok as [Hwf Hrep _].
    pose proof (loop_none base lo grow base_ok (h_mem h0) (h_freep h0) (h_brk h0) n fl al Hrep Hwf Hn1 fuel' Hno) as El.
    replace (mkHeap (h_mem h0) (h_freep h0) (h_brk h0)) with h0 in El by (by destruct h0). rewrite El. clear El.
    destruct (grow (h_brk h0) (8 * core_units n)) eqn:Eg.
    + destruct Hm as (h1 & fl1 & -> & Eb1 & Hok1 & Et1 & Hl & Hfit & Hk1). cbn [mbind option_bind fst snd].
      rewrite (proj2 (Z.eqb_neq _ _) (freep_ne _ _ _ Hok1)).
      destruct (loop_takes h1 fl1 al n fuel') as (b & h' & fl' & E & Hb & Hok' & Hk & E2 & Et); [done|done|done|lia|].
      exists (b.1 + 8), h'. split_and!; [done|by eapply keeps_trans; [|eapply keeps_trans]|].
      right. exists b, fl'. split_and!; [done|done|done|lia|]. intros (c & Hc & Hc2). specialize (Hno c Hc). lia.
    + rewrite Hm. exists 0, h0. split_and!; [done|done|]. left. split_and!; done.
Qed.

(** ** Programs that use the allocator *)

(** With enough fuel the result is [a]. *)
Definition returns {A} (f : nat → option A) (a : A) : Prop := ∃ k, ∀ fuel, (k ≤ fuel)%nat → f fuel = Some a.

(** A program calls malloc and free, and writes to the memory that it got; the
    second part of the state is the list of the blocks in use. *)
Inductive ustep : heap * list block → heap * list block → Prop :=
| us_malloc h al nbytes r h' : 0 ≤ nbytes ≤ 2 ^ 31 - 16 → returns (λ fuel, malloc base grow fuel nbytes h) (r, h') →
    ustep (h, al) (h', if r =? 0 then al else (r - 8, units nbytes) :: al)
| us_free h l1 b l2 h' : returns (λ fuel, free fuel (u32 (b.1 + 8)) h) h' → ustep (h, l1 ++ b :: l2) (h', l1 ++ l2)
| us_store h al b x v : b ∈ al → b.1 + 8 ≤ x < fin b →
    ustep (h, al) (mkHeap (CString.store x v (h_mem h)) (h_freep h) (h_brk h), al).

(** All memory from [lo] on is in a free block or in one that is in use. *)
Definition heap_full (h : heap) (al : list block) : Prop :=
  ∃ fl, heap_inv h fl al ∧ 8 * (total fl + total al) = h_brk h - lo.

Lemma store_ok h fl al b x v : heap_ok h fl al → b ∈ al → b.1 + 8 ≤ x < fin b →
  heap_ok (mkHeap (CString.store x v (h_mem h)) (h_freep h) (h_brk h)) fl al.
Proof.
  intros [Hwf Hrep Hu] Hb Hx. set (m' := CString.store x v (h_mem h)).
  assert (∀ y, y ≠ x → m' y = h_mem h y) as Hm by (intros y Hy; unfold m', CString.store; by rewrite (proj2 (Z.eqb_neq y x) Hy)).
  pose proof Hwf as [_ Hi Hui Hbrk Hsep Hal]. rewrite Forall_forall in Hi, Hui. destruct (Hui b Hb) as (Hb1 & Hb2 & Hb3).
  assert (∀ y, y + 8 ≤ x ∨ x < y → ptr m' y = ptr (h_mem h) y ∧ size m' y = size (h_mem h) y) as Hh.
  { intros y Hy. split; apply Kalloc.load32_ext; intros z Hz; apply Hm; lia. }
  assert (∀ c, c ∈ fl → c.1 + 8 ≤ x ∨ x < c.1) as Hf.
  { intros c Hc. destruct (Hi c Hc) as (_ & ? & _). specialize (Hsep c b Hc Hb). unfold sep, fin in *. lia. }
  destruct Hrep as [R1 R2 R3 R4]. constructor; simpl; [done|constructor; [..|done]|].
  - eapply links_ext; [|exact R1]. constructor; [apply Hh; lia|]. apply Forall_fmap, Forall_forall. intros c Hc. by apply Hh, Hf.
  - rewrite <- R2. apply Hh. lia.
  - rewrite Forall_forall in *. intros c Hc. rewrite <- (R3 c Hc). by apply Hh, Hf.
  - rewrite Forall_forall in *. intros c Hc. rewrite <- (Hu c Hc). apply list_elem_of_split in Hb as (l1 & l2 & ->).
    apply elem_of_app in Hc as Hc'. rewrite elem_of_cons in Hc'. apply all_sep_mid in Hal as [_ Hal]. rewrite Forall_app, !Forall_forall in Hal.
    destruct (Hui c Hc) as (? & ? & ?). destruct (decide (c = b)) as [->|Hne]; [apply Hh; lia|].
    assert (sep b c) as Hs by (destruct Hal; naive_solver). apply Hh. unfold sep, fin in *. lia.
Qed.

(** More fuel does not change a result. *)
Lemma free_scan_mono f f' m bp p q : free_scan f m bp p = Some q → (f ≤ f')%nat → free_scan f' m bp p = Some q.
Proof.
  revert f' p. induction f as [|f IH]; intros [|f'] p; simpl; try done; [lia|]. repeat case_match; try done. intros E Hf.
  apply IH; [done|lia].
Qed.

Lemma free_mono f f' ap h h' : free f ap h = Some h' → (f ≤ f')%nat → free f' ap h = Some h'.
Proof.
  unfold free. intros E Hf. destruct (free_scan f _ _ _) as [p|] eqn:Es; [|done]. by rewrite (free_scan_mono _ _ _ _ _ _ Es Hf).
Qed.

Lemma morecore_mono f f' nu h r : morecore grow f nu h = Some r → (f ≤ f')%nat → morecore grow f' nu h = Some r.
Proof.
  unfold morecore. destruct (sbrk grow _ h) as [p h1]. destruct (p =? -1); [done|]. intros E Hf.
  destruct (free f _ _) as [h2|] eqn:Ef; [|done]. by rewrite (free_mono _ _ _ _ _ Ef Hf).
Qed.

Lemma malloc_loop_mono f f' n prevp p h r : malloc_loop grow f n prevp p h = Some r → (f ≤ f')%nat →
  malloc_loop grow f' n prevp p h = Some r.
Proof.
  revert f' prevp p h. induction f as [|f IH]; intros [|f'] prevp p h; cbn [malloc_loop]; try done; [lia|]. intros E Hf.
  destruct (n <=? _); [done|]. destruct (p =? _); [|apply IH; [done|lia]].
  destruct (morecore grow f n h) as [[q h1]|] eqn:Em; [|done]. rewrite (morecore_mono _ f' _ _ _ Em) by lia.
  cbn [mbind option_bind] in *. destruct (q =? 0); [done|]. apply IH; [done|lia].
Qed.

Lemma malloc_returns h fl al nbytes : heap_inv h fl al → 0 ≤ nbytes ≤ 2 ^ 31 - 16 →
  ∃ r h', returns (λ fuel, malloc base grow fuel nbytes h) (r, h') ∧ keeps al (h_mem h) (h_mem h') ∧
    malloc_post h fl al (units nbytes) r h'.
Proof.
  intros Hinv Hnb. destruct (malloc_spec h fl al nbytes (3 * length fl + 4) Hinv Hnb ltac:(lia)) as (r & h' & E & H).
  exists r, h'. split; [|done]. eexists. intros fuel Hf. by eapply malloc_loop_mono.
Qed.

Lemma free_returns h fl l1 b l2 : heap_ok h fl (l1 ++ b :: l2) →
  ∃ h' fl', returns (λ fuel, free fuel (u32 (b.1 + 8)) h) h' ∧ h_brk h' = h_brk h ∧ heap_ok h' fl' (l1 ++ l2) ∧
    total fl' = total fl + b.2 ∧ keeps (l1 ++ l2) (h_mem h) (h_mem h').
Proof.
  intros Hok. destruct (free_spec h fl l1 b l2 (2 * length fl + 3) Hok ltac:(lia)) as (h' & fl' & E & H).
  exists h', fl'. split; [|done]. eexists. intros fuel Hf. by eapply free_mono.
Qed.

Lemma returns_inj {A} (f : nat → option A) a b : returns f a → returns f b → a = b.
Proof. intros [k Hk] [k' Hk']. specialize (Hk (k + k')%nat ltac:(lia)). specialize (Hk' (k + k')%nat ltac:(lia)). congruence. Qed.

Lemma in_use_ok h fl l1 b l2 : heap_inv h fl (l1 ++ b :: l2) → heap_ok h fl (l1 ++ b :: l2).
Proof. intros [?|(_ & _ & E & _)]; [done|]. by destruct l1. Qed.

Lemma ustep_full s s' : ustep s s' → heap_full s.1 s.2 → heap_full s'.1 s'.2.
Proof.
  intros [h al nbytes r h' Hnb Hret|h l1 b l2 h' Hret|h al b x v Hb Hx] (fl & Hinv & Htot); simpl in *.
  - destruct (malloc_returns h fl al nbytes Hinv Hnb) as (r' & h'' & Hret' & _ & Hpost).
    pose proof (returns_inj _ _ _ Hret Hret') as [= <- <-].
    destruct Hpost as [(-> & Hok & Eb & _)|(b & fl' & Er & Eb & Hok & Et & _)].
    + exists fl. simpl. split; [by left|]. by rewrite Eb.
    + pose proof (wf_used _ _ _ _ (hk_wf _ _ _ Hok)) as [(Hb1 & _) _]%Forall_cons.
      replace (r =? 0) with false by lia. replace (r - 8, units nbytes) with b by (destruct b; simpl in *; f_equal; lia).
      exists fl'. split; [by left|]. simpl. lia.
  - apply in_use_ok in Hinv as Hok. destruct (free_returns h fl l1 b l2 Hok) as (h'' & fl' & Hret' & Eb & Hok' & Et & _).
    pose proof (returns_inj _ _ _ Hret Hret') as <-. exists fl'. split; [by left|]. rewrite Eb, total_app in *. simpl in *. lia.
  - exists fl. split; [left|done]. eapply store_ok; [|done|done]. apply list_elem_of_split in Hb as (l1 & l2 & ->).
    by apply in_use_ok.
Qed.

Lemma usteps_full m s : lo < 2 ^ 31 → rtc ustep (mkHeap m 0 lo, []) s → heap_full s.1 s.2.
Proof.
  intros Hlo Hr. assert (heap_full (mkHeap m 0 lo) []) as H0.
  { exists []. split; [right; simpl; split_and!; done || lia|simpl; lia]. }
  change (heap_full (mkHeap m 0 lo, @nil block).1 (mkHeap m 0 lo, @nil block).2) in H0. revert H0.
  induction Hr as [s|s1 s2 s3 H12 _ IH]; [done|]. intros H1. by apply IH, (ustep_full s1).
Qed.

(** C31. The allocator is safe in every run of a program that calls malloc, with
    requests of at most 2^31 - 16 bytes, and free, and writes to the blocks that it holds:
    these blocks never overlap and lie between the start and the end of the heap, a
    whole number of headers from the start; every such malloc terminates and gives back
    either 0 or a block with room for the bytes asked for, aligned to 8 bytes as the
    start of the heap is (exec makes it a multiple of the page size), apart from all the
    others; every free terminates; and neither changes a byte of the blocks that stay
    in use.  ([malloc_wraps] shows why larger requests are left out.) *)
Theorem malloc_sound m h al : rtc ustep (mkHeap m 0 lo, []) (h, al) →
  all_sep al ∧ Forall (inside lo (h_brk h)) al ∧
  (∀ nbytes, 0 ≤ nbytes ≤ 2 ^ 31 - 16 → ∃ r h',
    returns (λ fuel, malloc base grow fuel nbytes h) (r, h') ∧ keeps al (h_mem h) (h_mem h') ∧
    (r ≠ 0 → r mod 8 = lo mod 8 ∧ ∃ b, r = b.1 + 8 ∧ r + nbytes ≤ fin b ≤ h_brk h' ∧ lo ≤ b.1 ∧ Forall (sep b) al)) ∧
  (∀ l1 b l2, al = l1 ++ b :: l2 → ∃ h',
    returns (λ fuel, free fuel (u32 (b.1 + 8)) h) h' ∧ keeps (l1 ++ l2) (h_mem h) (h_mem h')).
Proof.
  intros Hr. destruct (usteps_full m _ ltac:(lia) Hr) as (fl & Hinv & _). simpl in Hinv. split_and!.
  - destruct Hinv as [[[] _ _]|(_ & _ & -> & _)]; done.
  - destruct Hinv as [[[] _ _]|(_ & _ & -> & _)]; done.
  - intros nbytes Hnb. destruct (malloc_returns h fl al nbytes Hinv Hnb) as (r & h' & Hret & Hk & Hpost).
    exists r, h'. split_and!; [done|done|]. intros Hr0.
    destruct Hpost as [(-> & _)|(b & fl' & -> & Eb & [[_ _ Hu _ _ [Hs _]] _ _] & _)]; [done|].
    apply Forall_cons in Hu as [(Hb1 & Hb2 & Hb3 & Hb4) _]. destruct (units_range nbytes Hnb) as (_ & _ & Hu).
    split; [lia|]. exists b. split_and!; [done| |done|done|done]. unfold fin. lia.
  - intros l1 b l2 ->. destruct (free_returns h fl l1 b l2 (in_use_ok _ _ _ _ _ Hinv)) as (h' & _ & ? & _ & _ & _ & ?).
    by exists h'.
Qed.

Lemma sorted_total fl brk : StronglySorted before fl → Forall (inside lo brk) fl → lo ≤ brk →
  8 * total fl + Z.of_nat (length fl) - 1 ≤ brk - lo.
Proof.
  intros Hs. revert brk. induction fl as [|c fl IH] using rev_ind; intros brk Hi Hb; [simpl; lia|].
  apply StronglySorted_app in Hs as (H12 & H1 & _). apply Forall_app in Hi as [Hi [(Hc1 & Hc2 & Hc3) _]%Forall_cons].
  rewrite total_app, length_app. simpl. unfold fin in Hc3. destruct fl as [|d fl]; [simpl; lia|].
  assert (8 * total (d :: fl) + Z.of_nat (length (d :: fl)) - 1 ≤ c.1 - 1 - lo); [|lia]. apply IH; [done|..].
  - apply Forall_forall. intros x Hx. rewrite Forall_forall in Hi. destruct (Hi x Hx) as (? & ? & ?).
    specialize (H12 x c Hx ltac:(by left)). unfold before in H12. unfold inside. lia.
  - apply Forall_cons in Hi as [(? & ? & ?) _]. specialize (H12 d c ltac:(by left) ltac:(by left)).
    unfold before, fin in *. lia.
Qed.

(** Nothing is lost and everything is joined: when a program has freed
    all that it got, the heap is one free block again, so that any request
    that fits into the memory the process has got from the kernel so far
    succeeds without growing it. *)
Theorem free_joins_all m h nbytes : rtc ustep (mkHeap m 0 lo, []) (h, []) →
  0 ≤ nbytes → lo + 8 * units nbytes ≤ h_brk h → nbytes ≤ 2 ^ 31 - 16 →
  ∃ r h', returns (λ fuel, malloc base grow fuel nbytes h) (r, h') ∧ r ≠ 0 ∧ h_brk h' = h_brk h.
Proof.
  intros Hr Hn0 Hfit Hnb. destruct (usteps_full m _ ltac:(lia) Hr) as (fl & Hinv & Htot). simpl in Hinv, Htot.
  destruct (units_range nbytes ltac:(lia)) as (Hu1 & _).
  assert (∃ c, c ∈ fl ∧ units nbytes ≤ c.2) as Hc.
  { assert (StronglySorted before fl ∧ Forall (inside lo (h_brk h)) fl ∧ lo ≤ h_brk h) as (Hs & Hi & Hb).
    { destruct Hinv as [[[] _ _]|(_ & -> & _ & ?)]; [split_and!; done || lia|split_and!; [constructor|done|lia]]. }
    pose proof (sorted_total fl _ Hs Hi Hb). destruct fl as [|c [|d fl]]; simpl in *; [lia|exists c; split; [by left|lia]|lia]. }
  destruct (malloc_returns h fl [] nbytes Hinv ltac:(lia)) as (r & h' & Hret & _ & Hpost). exists r, h'. split; [done|].
  destruct Hpost as [(_ & _ & _ & Hno & _)|(b & fl' & -> & Eb & [[_ _ Hu _ _ _] _ _] & _ & Hbrk)].
  - destruct Hc as (c & Hc & Hc2). specialize (Hno c Hc). lia.
  - apply Forall_cons in Hu as [(Hb1 & _) _]. split; [lia|by apply Hbrk].
Qed.
End heap.

(** ** Examples *)

(** [base] at 4096, the heap from 8192 on, and a kernel that gives a process
    memory below 2^31. *)
Definition grow0 (b n : Z) : bool := b + n <? 2 ^ 31.
Definition heap0 : heap := mkHeap (λ _, 0) 0 8192.
Definition heap1 : heap := (default (0, heap0) (malloc 4096 grow0 20 100 heap0)).2.
Definition heap2 : heap := default heap0 (free 20 40856 heap1).

Lemma grow0_ok b n : grow0 b n = true → b + n < 2 ^ 31.
Proof. unfold grow0. lia. Qed.
Lemma base0_ok : 0 < 4096 ∧ 4096 + 8 ≤ 8192 < 2 ^ 31.
Proof. lia. Qed.

Lemma heap1_eq : malloc 4096 grow0 20 100 heap0 = Some (40856, heap1).
Proof.
  assert (fst <$> malloc 4096 grow0 20 100 heap0 = Some 40856) as E by (vm_compute; reflexivity).
  unfold heap1. destruct (malloc 4096 grow0 20 100 heap0) as [[r h]|]; [|done]. simpl in *. by injection E as ->.
Qed.

Lemma heap1_reachable : rtc (ustep 4096 grow0) (heap0, []) (heap1, [(40848, 14)]).
Proof.
  apply rtc_once. apply (us_malloc 4096 grow0 heap0 [] 100 40856 heap1); [lia|].
  exists 20%nat. intros fuel Hf. exact (malloc_loop_mono grow0 20 fuel _ _ _ _ _ heap1_eq Hf).
Qed.

Lemma heap2_eq : free 20 40856 heap1 = Some heap2.
Proof.
  assert (h_brk <$> free 20 40856 heap1 = Some 40960) as E by (vm_compute; reflexivity).
  unfold heap2. by destruct (free 20 40856 heap1).
Qed.

Lemma heap2_reachable : rtc (ustep 4096 grow0) (heap0, []) (heap2, []).
Proof.
  eapply rtc_r; [exact heap1_reachable|]. apply (us_free 4096 grow0 heap1 [] (40848, 14) [] heap2).
  exists 20%nat. intros fuel Hf. exact (free_mono 20 fuel _ _ _ heap2_eq Hf).
Qed.

Lemma malloc_sound_witness : ∃ r h', returns (λ fuel, malloc 4096 grow0 fuel 8 heap1) (r, h') ∧
  keeps [(40848, 14)] (h_mem heap1) (h_mem h').
Proof.
  destruct (malloc_sound 4096 8192 grow0 base0_ok grow0_ok (λ _, 0) heap1 _ heap1_reachable) as (_ & _ & H & _).
  destruct (H 8 ltac:(lia)) as (r & h' & H1 & H2 & _). by exists r, h'.
Defined.

Lemma free_joins_all_witness : ∃ r h', returns (λ fuel, malloc 4096 grow0 fuel 32760 heap2) (r, h') ∧ r ≠ 0 ∧ h_brk h' = h_brk heap2.
Proof.
  apply (free_joins_all 4096 8192 grow0 base0_ok grow0_ok (λ _, 0) heap2 32760 heap2_reachable);
    [lia|vm_compute; congruence|lia].
Defined.

(** The size computation wraps around: a request for all of the address space
    but a byte succeeds, with a block that ends where it starts. *)
Theorem malloc_wraps : units 4294967295 = 1 ∧
  ∃ h', malloc 4096 grow0 20 4294967295 heap0 = Some (h_brk h', h').
Proof.
  split; [reflexivity|].
  assert ((λ x, (x.1, h_brk x.2)) <$> malloc 4096 grow0 20 4294967295 heap0 = Some (40960, 40960)) as E by (vm_compute; reflexivity).
  destruct (malloc 4096 grow0 20 4294967295 heap0) as [[r h]|]; [|done]. injection E as -> E. exists h. by rewrite E.
Qed.
