(* ===== verification/Sh.v ===== *)
(** * The shell (sh.c)

    The command line is a list of characters.  A pointer into it is the suffix
    that starts there, so that [es] is the empty list; a string that is not yet
    terminated is a pair of pointers, its start and its end.  A panic of the
    shell prints a message and ends the process. *)

From stdpp Require Import base numbers option list strings.
From Stdlib Require Import ZArith Lia ZifyBool.
From S2P Require Import Prelude Bytes CString.
Import CString.
Local Open Scope Z_scope.

Module Sh.

Definition MAXARGS : nat := 10.

(** O_RDONLY and O_WRONLY|O_CREATE. *)
Definition O_READ : Z := 0.
Definition O_CREATED : Z := Z.lor 1 512.

(** ** Commands *)

Notation cptr := (list Z).

(** [A] is the type of the strings: a pair of pointers while the line is
    parsed, the characters when the command is run. *)
Inductive cmd (A : Type) :=
| EXEC (argv : list A)
| REDIR (c : cmd A) (file : A) (mode fd : Z)
| PIPE (l r : cmd A)
| LIST (l r : cmd A)
| BACK (c : cmd A).
#[global] Arguments EXEC {A} _.
#[global] Arguments REDIR {A} _ _ _ _.
#[global] Arguments PIPE {A} _ _.
#[global] Arguments LIST {A} _ _.
#[global] Arguments BACK {A} _.

Notation token := (cptr * cptr)%type.

Fixpoint cmd_map {A B} (f : A → B) (c : cmd A) : cmd B :=
  match c with
  | EXEC argv => EXEC (map f argv)
  | REDIR c file mode fd => REDIR (cmd_map f c) (f file) mode fd
  | PIPE l r => PIPE (cmd_map f l) (cmd_map f r)
  | LIST l r => LIST (cmd_map f l) (cmd_map f r)
  | BACK c => BACK (cmd_map f c)
  end.

(** ** Tokens *)

(** " \t\r\n\v". *)
Definition is_white (c : Z) : bool := (c =? 32) || (c =? 9) || (c =? 13) || (c =? 10) || (c =? 11).
(** "<|>&;()". *)
Definition is_symbol (c : Z) : bool :=
  (c =? 60) || (c =? 124) || (c =? 62) || (c =? 38) || (c =? 59) || (c =? 40) || (c =? 41).

(** [while(s < es && strchr(whitespace, *s)) s++]. *)
Fixpoint skip (s : cptr) : cptr :=
  match s with
  | c :: s' => if is_white c then skip s' else s
  | [] => []
  end.

(** [while(s < es && !strchr(whitespace, *s) && !strchr(symbols, *s)) s++]. *)
Fixpoint word_end (s : cptr) : cptr :=
  match s with
  | c :: s' => if is_white c || is_symbol c then s else word_end s'
  | [] => []
  end.

(** The token, its start and its end, and the new value of [*ps]. *)
Definition gettoken (s : cptr) : Z * cptr * cptr * cptr :=
  let s := skip s in
  match s with
  | [] => (0, s, s, s)
  | c :: s' =>
      if c =? 62 then
        match s' with
        | d :: s'' => if d =? 62 then (43, s, s'', skip s'') else (62, s, s', skip s')
        | [] => (62, s, s', skip s')
        end
      else if is_symbol c then (c, s, s', skip s')
      else (97, s, word_end s, skip (word_end s))
  end.

(** The new value of [*ps], and whether the next character is one of [toks]. *)
Definition peek (s : cptr) (toks : list Z) : bool * cptr :=
  let s := skip s in
  (match s with [] => false | c :: _ => existsb (Z.eqb c) toks end, s).

(** ** Parsing *)

(** What panic prints. *)
Definition panic_text (s : string) : list Z := str s ++ [10].

Inductive presult (A : Type) :=
| Parsed (a : A) (s : cptr)
| Syntax (out : list Z)    (** what the shell prints before it exits *)
| NoFuel.
#[global] Arguments Parsed {A} _ _.
#[global] Arguments Syntax {A} _.
#[global] Arguments NoFuel {A}.

Definition pbind {A B} (r : presult A) (f : A → cptr → presult B) : presult B :=
  match r with
  | Parsed a s => f a s
  | Syntax m => Syntax m
  | NoFuel => NoFuel
  end.

(** What a redirection adds to a command. *)
Definition redir : Type := token * Z * Z.
Definition redircmd (c : cmd token) (r : redir) : cmd token :=
  let '(file, mode, fd) := r in REDIR c file mode fd.

(** The redirections that parseredirs finds, the first one first. *)
Fixpoint parseredirs (fuel : nat) (s : cptr) : presult (list redir) :=
  match fuel with
  | O => NoFuel
  | S fuel' =>
      let '(b, s) := peek s [60; 62] in
      if b then
        let '(tok, _, _, s) := gettoken s in
        let '(t, q, eq, s) := gettoken s in
        if negb (t =? 97) then Syntax (panic_text "missing file for redirection")
        else
          let r := if tok =? 60 then [((q, eq), O_READ, 0)]
                   else if tok =? 62 then [((q, eq), O_CREATED, 1)]
                   else if tok =? 43 then [((q, eq), O_CREATED, 1)]
                   else [] in
          pbind (parseredirs fuel' s) (λ rs s, Parsed (r ++ rs) s)
      else Parsed [] s
  end.

(** The loop of parseexec: [argc] arguments have been stored, and the result
    is the arguments and the redirections that follow. *)
Fixpoint parseargs (fuel argc : nat) (s : cptr) : presult (list token * list redir) :=
  match fuel with
  | O => NoFuel
  | S fuel' =>
      let '(b, s) := peek s [124; 41; 38; 59] in
      if b then Parsed ([], []) s
      else
        let '(tok, q, eq, s) := gettoken s in
        if tok =? 0 then Parsed ([], []) s
        else if negb (tok =? 97) then Syntax (panic_text "syntax")
        else if (MAXARGS <=? S argc)%nat then Syntax (panic_text "too many args")
        else
          pbind (parseredirs fuel' s) (λ rs s,
          pbind (parseargs fuel' (S argc) s) (λ r s, Parsed ((q, eq) :: r.1, rs ++ r.2) s))
  end.

(** [while(peek(ps, es, "&"))]: how many. *)
Fixpoint parseback (fuel : nat) (s : cptr) : presult nat :=
  match fuel with
  | O => NoFuel
  | S fuel' =>
      let '(b, s) := peek s [38] in
      if b then
        let '(_, _, _, s) := gettoken s in
        pbind (parseback fuel' s) (λ n s, Parsed (S n) s)
      else Parsed O s
  end.

(** The functions of the grammar call each other: parseline calls parsepipe, which
    calls parseexec, which calls parseblock, which calls parseline.  A body is one of
    them with the ones that it calls as arguments; [parse_nt] ties them together, and
    [fuel] bounds the depth of the calls. *)
Abbreviation parser := (cptr → presult (cmd token)).

Definition parseline_body (parsepipe parseline : parser) (fuel : nat) (s : cptr) : presult (cmd token) :=
  pbind (parsepipe s) (λ c s,
  pbind (parseback fuel s) (λ n s,
  let c := Nat.iter n BACK c in
  let '(b, s) := peek s [59] in
  if b then
    let '(_, _, _, s) := gettoken s in
    pbind (parseline s) (λ c' s, Parsed (LIST c c') s)
  else Parsed c s)).

Definition parsepipe_body (parseexec parsepipe : parser) (s : cptr) : presult (cmd token) :=
  pbind (parseexec s) (λ c s,
  let '(b, s) := peek s [124] in
  if b then
    let '(_, _, _, s) := gettoken s in
    pbind (parsepipe s) (λ c' s, Parsed (PIPE c c') s)
  else Parsed c s).

Definition parseblock_body (parseline : parser) (fuel : nat) (s : cptr) : presult (cmd token) :=
  let '(b, s) := peek s [40] in
  if negb b then Syntax (panic_text "parseblock")
  else
    let '(_, _, _, s) := gettoken s in
    pbind (parseline s) (λ c s,
    let '(b, s) := peek s [41] in
    if negb b then Syntax (panic_text "syntax - missing )")
    else
      let '(_, _, _, s) := gettoken s in
      pbind (parseredirs fuel s) (λ rs s, Parsed (foldl redircmd c rs) s)).

(** [ret] wraps redirections around the command whose arguments are stored later;
    the command is built when they are known. *)
Definition parseexec_body (parseblock : parser) (fuel : nat) (s : cptr) : presult (cmd token) :=
  let '(b, s) := peek s [40] in
  if b then parseblock s
  else
    pbind (parseredirs fuel s) (λ rs s,
    pbind (parseargs fuel 0 s) (λ r s, Parsed (foldl redircmd (EXEC r.1) (rs ++ r.2)) s)).

Inductive nonterminal := NLine | NPipe | NBlock | NExec.

Fixpoint parse_nt (fuel : nat) (nt : nonterminal) (s : cptr) : presult (cmd token) :=
  match fuel with
  | O => NoFuel
  | S fuel' =>
      match nt with
      | NLine => parseline_body (parse_nt fuel' NPipe) (parse_nt fuel' NLine) fuel' s
      | NPipe => parsepipe_body (parse_nt fuel' NExec) (parse_nt fuel' NPipe) s
      | NBlock => parseblock_body (parse_nt fuel' NLine) fuel' s
      | NExec => parseexec_body (parse_nt fuel' NBlock) fuel' s
      end
  end.

Definition parseline (fuel : nat) : parser := parse_nt fuel NLine.
Definition parsepipe (fuel : nat) : parser := parse_nt fuel NPipe.
Definition parseblock (fuel : nat) : parser := parse_nt fuel NBlock.
Definition parseexec (fuel : nat) : parser := parse_nt fuel NExec.

(** [*p = 0], in the buffer of a line of [n] characters. *)
Definition put_nul (n : nat) (p : cptr) (buf : list Z) : list Z := <[(n - length p)%nat := 0]> buf.

Fixpoint nulterminate (n : nat) (c : cmd token) (buf : list Z) : list Z :=
  match c with
  | EXEC argv => foldl (λ buf a, put_nul n a.2 buf) buf argv
  | REDIR c file _ _ => put_nul n file.2 (nulterminate n c buf)
  | PIPE l r | LIST l r => nulterminate n r (nulterminate n l buf)
  | BACK c => nulterminate n c buf
  end.

(** The string at a pointer into that buffer. *)
Fixpoint cstring (buf : list Z) : list Z :=
  match buf with
  | [] => []
  | c :: buf => if c =? 0 then [] else c :: cstring buf
  end.
Definition string_at (n : nat) (buf : list Z) (p : cptr) : list Z := cstring (drop (n - length p) buf).

(** The fuel is enough for any line of that length.  The result is the command,
    with the strings that its pointers point to. *)
Definition parsecmd (s : list Z) : presult (cmd (list Z)) :=
  let n := length s in
  pbind (parseline (4 * n + 5) s) (λ c s',
  let s' := (peek s' []).2 in
  if decide (s' = []) then let buf := nulterminate n c (s ++ [0]) in Parsed (cmd_map (λ a, string_at n buf a.1) c) s'
  else Syntax (str "leftovers: " ++ s' ++ [10] ++ panic_text "syntax")).


(** ** System calls

    A program of the shell as a tree: each node is a system call, followed by
    what the program does with its result.  Print is printf on a descriptor. *)

Inductive sys :=
| Exit
| Exec (path : list Z) (argv : list (list Z)) (k : sys)     (** [k] when it fails *)
| Open (path : list Z) (mode : Z) (k : Z → sys)
| Close (fd : Z) (k : sys)
| Dup (fd : Z) (k : Z → sys)
| Pipe (k : option (Z * Z) → sys)
| Fork (k : Z → sys)
| Wait (k : sys)
| Chdir (path : list Z) (k : Z → sys)
| Print (fd : Z) (s : list Z) (k : sys).

Definition panic (s : string) : sys := Print 2 (panic_text s) Exit.

(** [if(fork1() == 0) child; parent]: the child does not return. *)
Definition fork1 (child parent : sys) : sys :=
  Fork (λ pid, if pid =? -1 then panic "fork" else if pid =? 0 then child else parent).

Fixpoint runcmd (c : cmd (list Z)) : sys :=
  match c with
  | EXEC [] => Exit
  | EXEC ((path :: _) as argv) =>
      Exec path argv (Print 2 (str "exec " ++ path ++ str " failed" ++ [10]) Exit)
  | REDIR c file mode fd =>
      Close fd (Open file mode (λ r,
      if r <? 0 then Print 2 (str "open " ++ file ++ str " failed" ++ [10]) Exit else runcmd c))
  | LIST l r => fork1 (runcmd l) (Wait (runcmd r))
  | PIPE l r =>
      Pipe (λ p,
      match p with
      | None => panic "pipe"
      | Some (p0, p1) =>
          fork1 (Close 1 (Dup p1 (λ _, Close p0 (Close p1 (runcmd l)))))
          (fork1 (Close 0 (Dup p0 (λ _, Close p0 (Close p1 (runcmd r)))))
          (Close p0 (Close p1 (Wait (Wait Exit)))))
      end)
  | BACK c => fork1 (runcmd c) Exit
  end.

(** ** The main loop *)

Definition LINESIZE : nat := 100.

(** getcmd: the prompt, the line that gets reads from [input], which ends with
    the end of the file, and the rest of the input; nothing at its end. *)
Definition getcmd (input : list Z) : option (list Z) * list Z :=
  let buf := gets_loop (LINESIZE - 1) (map Some input) in
  (if nth 0 buf 0 =? 0 then None else Some buf, drop (length buf) input).

(** The child that runs a line. *)
Definition run_line (line : list Z) : sys :=
  match parsecmd line with
  | Parsed c _ => runcmd c
  | Syntax out => Print 2 out Exit
  | NoFuel => Exit
  end.

Fixpoint main_loop (fuel : nat) (input : list Z) : sys :=
  match fuel with
  | O => Exit
  | S fuel' =>
      Print 2 (str "$ ")
      (let '(cmd, input) := getcmd input in
      match cmd with
      | None => Exit
      | Some buf =>
          if (nth 0 buf 0 =? 99) && (nth 1 buf 0 =? 100) && (nth 2 buf 0 =? 32) then
            let path := drop 3 (removelast (cstring buf)) in
            Chdir path (λ r,
            if r <? 0 then Print 2 (str "cannot cd " ++ path ++ [10]) (main_loop fuel' input)
            else main_loop fuel' input)
          else fork1 (run_line (cstring buf)) (Wait (main_loop fuel' input))
      end)
  end.

(** [while((fd = open("console", O_RDWR)) >= 0)]: the descriptors grow, so that
    the loop ends in the fourth round at the latest. *)
Fixpoint open_console (fuel : nat) (k : sys) : sys :=
  match fuel with
  | O => k
  | S fuel' =>
      Open (str "console") 2 (λ fd,
      if fd <? 0 then k else if 3 <=? fd then Close fd k else open_console fuel' k)
  end.

(** A line takes at least one character of the input. *)
Definition main (input : list Z) : sys := open_console 4 (main_loop (S (length input)) input).
End Sh.
