(* ===== verification/ShProps.v ===== *)
(** * Properties of the shell's parser

    The parser terminates, its command trees are well formed, and the strings of
    a tree survive the termination by NUL characters. *)

From stdpp Require Import base numbers option list strings.
From Stdlib Require Import ZArith Lia ZifyBool.
From S2P Require Import Prelude Bytes Sh.
Import Sh.
Local Open Scope Z_scope.

(** ** Termination *)

(** The parser did not run out of fuel, and left at most [n] characters. *)
Definition ends {A} (n : nat) (r : presult A) : Prop :=
  match r with Parsed _ s => (length s ≤ n)%nat | Syntax _ => True | NoFuel => False end.

Lemma ends_mono {A} n n' (r : presult A) : ends n r → (n ≤ n')%nat → ends n' r.
Proof. destruct r; simpl; [lia|done|done]. Qed.

Lemma ends_bind {A B} n n' (r : presult A) (f : A → cptr → presult B) : ends n r →
  (∀ a s, (length s ≤ n)%nat → ends n' (f a s)) → ends n' (pbind r f).
Proof. destruct r; simpl; intros H Hf; [by apply Hf|done|done]. Qed.

Lemma length_skip s : (length (skip s) ≤ length s)%nat.
Proof. induction s as [|c s IH]; simpl; [done|]. destruct (is_white c); simpl; lia. Qed.

Lemma length_word_end s : (length (word_end s) ≤ length s)%nat.
Proof. induction s as [|c s IH]; simpl; [done|]. destruct (_ || _); simpl; lia. Qed.

Lemma word_end_cons c s : is_white c || is_symbol c = false → (length (word_end (c :: s)) ≤ length s)%nat.
Proof. intros E. simpl. rewrite E. apply length_word_end. Qed.

Lemma skip_head c s s' : skip s = c :: s' → is_white c = false.
Proof. induction s as [|d s IH]; simpl; [done|]. destruct (is_white d) eqn:E; [done|]. by intros [= -> ->]. Qed.

(** A token takes at least one character, unless the line is at its end. *)
Lemma gettoken_length s tok q eq s' : gettoken s = (tok, q, eq, s') →
  (length s' ≤ length s)%nat ∧ (tok ≠ 0%Z → (length s' < length s)%nat).
Proof.
  unfold gettoken. pose proof (length_skip s) as Hs. destruct (skip s) as [|c s1] eqn:E; simpl in Hs; [intros [= <- <- <- <-]; done|].
  assert (∀ l, (length l ≤ length s1)%nat → length (skip l) < length s)%nat as Hl by (intros l ?; pose proof (length_skip l); lia).
  assert (length (skip s1) < length s)%nat as H1 by (by apply Hl).
  destruct (c =? 62).
  - destruct s1 as [|d s2]; [intros [= <- <- <- <-]; simpl in *; lia|]. cbn [length] in Hl.
    assert (length (skip s2) < length s)%nat by (apply Hl; lia).
    destruct (d =? 62); intros [= <- <- <- <-]; split; simpl in *; done || lia.
  - destruct (is_symbol c) eqn:Ec; intros [= <- <- <- <-]; [lia|].
    assert (length (skip (word_end (c :: s1))) < length s)%nat; [|simpl in *; lia]. apply Hl, word_end_cons.
    by rewrite Ec, (skip_head _ _ _ E).
Qed.

Lemma peek_true s toks b s' : peek s toks = (b, s') → (length s' ≤ length s)%nat ∧ s' = skip s ∧
  (b = true → ∃ c s'', s' = c :: s'' ∧ existsb (Z.eqb c) toks = true).
Proof.
  unfold peek. intros [= <- <-]. split_and!; [apply length_skip|done|].
  destruct (skip s) as [|c s'']; [done|]. intros E. by exists c, s''.
Qed.

(** A token that peek has seen. *)
Lemma gettoken_seen s c s' tok q eq s'' : skip s = c :: s' → c ≠ 0 → gettoken (skip s) = (tok, q, eq, s'') → tok ≠ 0.
Proof.
  intros E Hc. unfold gettoken. replace (skip (skip s)) with (skip s); rewrite E.
  - repeat case_match; intros [= <- <- <- <-]; done.
  - simpl. by rewrite (skip_head _ _ _ E).
Qed.

Lemma parseredirs_ends fuel : ∀ s, (length s < fuel)%nat → ends (length s) (parseredirs fuel s).
Proof.
  induction fuel as [|fuel IH]; intros s Hf; [lia|]. cbn [parseredirs].
  destruct (peek s _) as [b s1] eqn:E1. apply peek_true in E1 as (? & _ & _). destruct b; [|done].
  destruct (gettoken s1) as [[[tok q] eq] s2] eqn:E2. destruct (gettoken s2) as [[[t q'] eq'] s3] eqn:E3.
  pose proof (gettoken_length _ _ _ _ _ E2) as [? _]. pose proof (gettoken_length _ _ _ _ _ E3) as [? H3].
  destruct (t =? 97) eqn:Et; [|done]. cbn [negb].
  assert (length s3 < length s2)%nat by (apply H3; lia). eapply ends_bind; [apply IH; lia|]. intros rs s4 ?. simpl. lia.
Qed.

Lemma parseargs_ends fuel : ∀ argc s, (length s < fuel)%nat → ends (length s) (parseargs fuel argc s).
Proof.
  induction fuel as [|fuel IH]; intros argc s Hf; [lia|]. cbn [parseargs].
  destruct (peek s _) as [b s1] eqn:E1. apply peek_true in E1 as (? & _ & _). destruct b; [done|].
  destruct (gettoken s1) as [[[tok q] eq] s2] eqn:E2. pose proof (gettoken_length _ _ _ _ _ E2) as [? H2].
  destruct (tok =? 0) eqn:Et; [simpl; lia|]. destruct (negb _); [done|]. destruct (_ <=? _)%nat; [done|].
  assert (tok ≠ 0) by lia. assert (length s2 < length s)%nat by naive_solver lia.
  eapply ends_bind; [apply parseredirs_ends; lia|]. intros rs s3 ?.
  eapply ends_bind; [apply IH; lia|]. intros r s4 ?. simpl. lia.
Qed.

(** The token after a successful peek. *)
Lemma take_token s toks s1 tok q eq s2 : peek s toks = (true, s1) → ¬ In 0 toks → gettoken s1 = (tok, q, eq, s2) →
  (length s2 < length s)%nat.
Proof.
  intros E1 Ht E2. apply peek_true in E1 as (Hl & -> & Hc). destruct (Hc eq_refl) as (c & s' & E & (z & Hz & Hcz)%existsb_exists).
  assert (c ≠ 0) by (intros ->; apply Ht; by replace 0 with z by lia).
  pose proof (gettoken_seen _ _ _ _ _ _ _ E ltac:(done) E2). pose proof (gettoken_length _ _ _ _ _ E2). naive_solver lia.
Qed.

Ltac no_nul := simpl; lia.

Lemma parseback_ends fuel : ∀ s, (length s < fuel)%nat → ends (length s) (parseback fuel s).
Proof.
  induction fuel as [|fuel IH]; intros s Hf; [lia|]. cbn [parseback].
  destruct (peek s _) as [b s1] eqn:E1. destruct b; [|by apply peek_true in E1 as (? & _)].
  destruct (gettoken s1) as [[[tok q] eq] s2] eqn:E2. eapply take_token in E2; [|done|no_nul].
  eapply ends_bind; [apply IH; lia|]. intros n s3 ?. simpl. lia.
Qed.

(** One call of each of the four mutually recursive parsers. *)
Lemma parseline_S fuel s : parseline (S fuel) s = parseline_body (parsepipe fuel) (parseline fuel) fuel s.
Proof. done. Qed.
Lemma parsepipe_S fuel s : parsepipe (S fuel) s = parsepipe_body (parseexec fuel) (parsepipe fuel) s.
Proof. done. Qed.
Lemma parseblock_S fuel s : parseblock (S fuel) s = parseblock_body (parseline fuel) fuel s.
Proof. done. Qed.
Lemma parseexec_S fuel s : parseexec (S fuel) s = parseexec_body (parseblock fuel) fuel s.
Proof. done. Qed.

(** Unfolds one call in the goal. *)
Ltac parse_call :=
  first [rewrite parseline_S; unfold parseline_body | rewrite parsepipe_S; unfold parsepipe_body
        |rewrite parseblock_S; unfold parseblock_body | rewrite parseexec_S; unfold parseexec_body].

(** What the four mutually recursive parsers need. *)
Lemma parse_ends fuel : ∀ s,
  ((4 * length s + 4 <= fuel)%nat → ends (length s) (parseline fuel s)) ∧
  ((4 * length s + 3 <= fuel)%nat → ends (length s) (parsepipe fuel s)) ∧
  ((4 * length s + 1 <= fuel)%nat → ends (length s) (parseblock fuel s)) ∧
  ((4 * length s + 2 <= fuel)%nat → ends (length s) (parseexec fuel s)).
Proof.
  induction fuel as [|fuel IH]; intros s; [lia|]. split_and!; intros Hf.
  - parse_call. eapply ends_bind; [apply (IH s); lia|]. intros c s1 ?.
    eapply ends_bind; [apply parseback_ends; lia|]. intros n s2 ?.
    destruct (peek s2 _) as [[] s3] eqn:E3; [|apply peek_true in E3 as (? & _); simpl; lia].
    destruct (gettoken s3) as [[[tok q] eq] s4] eqn:E4. eapply take_token in E4; [|done|no_nul].
    eapply ends_bind; [apply (IH s4); lia|]. intros c' s5 ?. simpl. lia.
  - parse_call. eapply ends_bind; [apply (IH s); lia|]. intros c s1 ?.
    destruct (peek s1 _) as [[] s3] eqn:E3; [|apply peek_true in E3 as (? & _); simpl; lia].
    destruct (gettoken s3) as [[[tok q] eq] s4] eqn:E4. eapply take_token in E4; [|done|no_nul].
    eapply ends_bind; [apply (IH s4); lia|]. intros c' s5 ?. simpl. lia.
  - parse_call. destruct (peek s _) as [[] s3] eqn:E3; [|done]. cbn [negb].
    destruct (gettoken s3) as [[[tok q] eq] s4] eqn:E4. eapply take_token in E4; [|done|no_nul].
    eapply ends_bind; [apply (IH s4); lia|]. intros c' s5 ?.
    destruct (peek s5 _) as [[] s6] eqn:E6; [|done]. cbn [negb].
    destruct (gettoken s6) as [[[tok' q'] eq'] s7] eqn:E7. eapply take_token in E7; [|done|no_nul].
    eapply ends_bind; [apply parseredirs_ends; lia|]. intros rs s8 ?. simpl. lia.
  - parse_call. destruct (peek s _) as [b s3] eqn:E3. apply peek_true in E3 as (? & _ & _).
    destruct b; [eapply ends_mono; [apply (IH s3)|]; lia|].
    eapply ends_bind; [apply parseredirs_ends; lia|]. intros rs s4 ?.
    eapply ends_bind; [apply parseargs_ends; lia|]. intros r s5 ?. simpl. lia.
Qed.

(** The end of the parser. *)
Lemma parsecmd_ends (s : list Z) :
  (∃ c, parsecmd s = Parsed c []) ∨ (∃ msg, parsecmd s = Syntax msg).
Proof.
  unfold parsecmd. destruct (parse_ends (4 * length s + 5) s) as [Hl _].
  destruct (parseline _ s) as [c s'|msg|] eqn:E; [|by right; eexists|exfalso; apply Hl; lia].
  simpl. destruct (decide (skip s' = [])) as [->|]; [left; by eexists|by right; eexists].
Qed.

(** ** The shape of a command *)

(** At most nine arguments, and the two kinds of redirection; [P] holds of the
    strings. *)
Fixpoint cmd_ok {A} (P : A → Prop) (c : cmd A) : Prop :=
  match c with
  | EXEC argv => (length argv < MAXARGS)%nat ∧ Forall P argv
  | REDIR c file mode fd => cmd_ok P c ∧ P file ∧ (mode = O_READ ∧ fd = 0 ∨ mode = O_CREATED ∧ fd = 1)
  | PIPE l r | LIST l r => cmd_ok P l ∧ cmd_ok P r
  | BACK c => cmd_ok P c
  end.

Definition delimiter (c : Z) : bool := is_white c || is_symbol c.
(** A string that is one token. *)
Definition word (w : list Z) : Prop := w ≠ [] ∧ Forall (λ c, delimiter c = false) w.
Definition at_delimiter (s : cptr) : Prop := match s with [] => True | c :: _ => delimiter c = true end.

(** A token of the line [s]: a word, up to the next delimiter. *)
Definition token_of (s : cptr) (t : token) : Prop :=
  t.1 `suffix_of` s ∧ ∃ w, t.1 = w ++ t.2 ∧ word w ∧ at_delimiter t.2.
Definition token_text (t : token) : list Z := take (length t.1 - length t.2) t.1.

Definition redir_ok (s : cptr) (r : redir) : Prop :=
  token_of s r.1.1 ∧ (r.1.2 = O_READ ∧ r.2 = 0 ∨ r.1.2 = O_CREATED ∧ r.2 = 1).

(** What is parsed has the property, and the parser moves forward in the line. *)
Definition yields {A} (P : A → Prop) (s : cptr) (r : presult A) : Prop :=
  match r with Parsed a s' => s' `suffix_of` s ∧ P a | _ => True end.

Lemma yields_bind {A B} (P : A → Prop) (Q : B → Prop) s s1 (r : presult A) (f : A → cptr → presult B) :
  yields P s1 r → s1 `suffix_of` s → (∀ a s', s' `suffix_of` s → P a → yields Q s (f a s')) → yields Q s (pbind r f).
Proof. destruct r; simpl; try done. intros [? ?] ? Hf. apply Hf; [by etrans|done]. Qed.

Lemma skip_suffix s : skip s `suffix_of` s.
Proof. induction s as [|c s IH]; simpl; [done|]. destruct (is_white c); [by apply suffix_cons_r|done]. Qed.

Lemma word_end_split s : ∃ w, s = w ++ word_end s ∧ Forall (λ c, delimiter c = false) w ∧ at_delimiter (word_end s).
Proof.
  induction s as [|c s (w & Hs & Hw & Hd)]; simpl; [by exists []|]. fold (delimiter c). destruct (delimiter c) eqn:E.
  - by exists [].
  - exists (c :: w). simpl. split_and!; [by f_equal|by constructor|done].
Qed.

Lemma quad_eq {A B C D} (a a' : A) (b b' : B) (c c' : C) (d d' : D) :
  (a, b, c, d) = (a', b', c', d') → a = a' ∧ b = b' ∧ c = c' ∧ d = d'.
Proof. by intros [= -> -> -> ->]. Qed.

Lemma gettoken_suffix s tok q eq s' : gettoken s = (tok, q, eq, s') →
  s' `suffix_of` s ∧ (tok = 97 → token_of s (q, eq)).
Proof.
  unfold gettoken. pose proof (skip_suffix s) as Hs. destruct (skip s) as [|c s1] eqn:E.
  { intros H; injection H as <- <- <- <-. split; done. }
  assert (∀ l, l `suffix_of` c :: s1 → skip l `suffix_of` s) as Hl.
  { intros l ?. do 2 (etrans; [|done]). apply skip_suffix. }
  destruct (c =? 62).
  { destruct s1 as [|d s2]; [|destruct (d =? 62)]; intros (<- & <- & <- & <-)%quad_eq; (split; [apply Hl|done]);
      solve [by eexists [_] | by eexists [_; _]]. }
  destruct (is_symbol c) eqn:Ec; intros (<- & <- & <- & <-)%quad_eq.
  - split; [by apply Hl, suffix_cons_r|]. intros ->. done.
  - destruct (word_end_split (c :: s1)) as (w & Hw & Hf & Hd). split.
    + apply Hl. by exists w.
    + intros _. split; [done|]. exists w. split_and!; [done| |done]. split; [|done].
      intros ->. simpl in Hw. rewrite (skip_head _ _ _ E), Ec in Hw. simpl in Hw.
      apply (f_equal length) in Hw. pose proof (length_word_end s1). simpl in Hw. lia.
Qed.

Lemma token_of_suffix s s' t : token_of s' t → s' `suffix_of` s → token_of s t.
Proof. intros [? ?] ?. split; [by etrans|done]. Qed.

Lemma peek_suffix s toks b s' : peek s toks = (b, s') → s' `suffix_of` s.
Proof. intros (_ & -> & _)%peek_true. apply skip_suffix. Qed.

Lemma parseredirs_yields fuel : ∀ s, yields (Forall (redir_ok s)) s (parseredirs fuel s).
Proof.
  induction fuel as [|fuel IH]; intros s; [done|]. cbn [parseredirs].
  destruct (peek s _) as [b s1] eqn:E1. apply peek_suffix in E1. destruct b; [|by split].
  destruct (gettoken s1) as [[[tok q] eq] s2] eqn:E2. apply gettoken_suffix in E2 as [E2 _].
  destruct (gettoken s2) as [[[t q'] eq'] s3] eqn:E3. apply gettoken_suffix in E3 as [E3 Ht].
  destruct (t =? 97) eqn:Et; [|done]. cbn [negb].
  assert (s2 `suffix_of` s) by (by etrans). assert (s3 `suffix_of` s) by (by etrans).
  assert (token_of s (q', eq')) as Htok by (eapply token_of_suffix; [apply Ht; lia|done]).
  eapply yields_bind; [apply IH|done|]. intros rs s4 ? Hrs. split; [done|].
  apply Forall_app; split.
  - repeat case_match; [| | |done]; (constructor; [split; [done|]; by (left + right)|done]).
  - eapply Forall_impl; [done|]. intros r [Hr ?]. split; [by eapply token_of_suffix|done].
Qed.

Lemma parseargs_yields fuel : ∀ argc s, yields (λ r, (argc + length r.1 < MAXARGS ∨ r.1 = [])%nat ∧
  Forall (token_of s) r.1 ∧ Forall (redir_ok s) r.2) s (parseargs fuel argc s).
Proof.
  induction fuel as [|fuel IH]; intros argc s; [done|]. cbn [parseargs].
  destruct (peek s _) as [b s1] eqn:E1. apply peek_suffix in E1. destruct b; [naive_solver|].
  destruct (gettoken s1) as [[[tok q] eq] s2] eqn:E2. apply gettoken_suffix in E2 as [E2 Ht].
  assert (s2 `suffix_of` s) by (by etrans). destruct (tok =? 0); [naive_solver|].
  destruct (tok =? 97) eqn:Et; [|done]. cbn [negb]. destruct (MAXARGS <=? S argc)%nat eqn:Em; [done|].
  eapply yields_bind; [apply parseredirs_yields|done|]. intros rs s3 H3 Hrs.
  eapply yields_bind; [apply IH|done|]. intros r s4 H4 (Hl & Hr1 & Hr2). split; [done|]. simpl. split_and!.
  - left. destruct Hl as [| ->]; simpl; lia.
  - constructor; [eapply token_of_suffix; [apply Ht; lia|done]|].
    eapply Forall_impl; [done|]. intros t ?. by eapply token_of_suffix.
  - apply Forall_app. split; (eapply Forall_impl; [done|]; intros t [??]; split; [by eapply token_of_suffix|done]).
Qed.

Lemma redircmds_ok s c rs : cmd_ok (token_of s) c → Forall (redir_ok s) rs → cmd_ok (token_of s) (foldl redircmd c rs).
Proof.
  intros Hc Hrs. revert c Hc. induction Hrs as [|[[t m] fd] rs [Ht Hm] _ IH]; intros c Hc; [done|]. apply IH. by split_and!.
Qed.

Lemma cmd_ok_impl {A} (P Q : A → Prop) c : (∀ a, P a → Q a) → cmd_ok P c → cmd_ok Q c.
Proof.
  intros H. induction c; simpl; try naive_solver. intros [??]. split; [done|]. by eapply Forall_impl.
Qed.

Lemma iter_back_ok {A} (P : A → Prop) n c : cmd_ok P c → cmd_ok P (Nat.iter n BACK c).
Proof. intros Hc. by induction n. Qed.

Lemma parseback_yields fuel : ∀ s, yields (λ _, True) s (parseback fuel s).
Proof.
  induction fuel as [|fuel IH]; intros s; [done|]. cbn [parseback].
  destruct (peek s _) as [b s1] eqn:E1. apply peek_suffix in E1. destruct b; [|done].
  destruct (gettoken s1) as [[[tok q] eq] s2] eqn:E2. apply gettoken_suffix in E2 as [E2 _].
  eapply yields_bind; [apply IH|by etrans|done].
Qed.

(** A symbol that is peeked at and then read. *)
Lemma symbol_suffix s toks b s1 tok q eq s2 : peek s toks = (b, s1) → gettoken s1 = (tok, q, eq, s2) → s2 `suffix_of` s.
Proof. intros ?%peek_suffix [? _]%gettoken_suffix. by etrans. Qed.

Lemma parse_yields fuel : ∀ s,
  yields (cmd_ok (token_of s)) s (parseline fuel s) ∧ yields (cmd_ok (token_of s)) s (parsepipe fuel s) ∧
  yields (cmd_ok (token_of s)) s (parseblock fuel s) ∧ yields (cmd_ok (token_of s)) s (parseexec fuel s).
Proof.
  induction fuel as [|fuel IH]; intros s; [done|].
  assert (∀ s' c, s' `suffix_of` s → cmd_ok (token_of s') c → cmd_ok (token_of s) c) as Hs.
  { intros s' c ?. apply cmd_ok_impl. intros t ?. by eapply token_of_suffix. }
  assert (∀ s' rs, s' `suffix_of` s → Forall (redir_ok s') rs → Forall (redir_ok s) rs) as Hr.
  { intros s' rs ? H. eapply Forall_impl; [exact H|]. intros r [? ?]. split; [by eapply token_of_suffix|done]. }
  split_and!.
  - parse_call. eapply yields_bind; [apply (IH s)|done|]. intros c s1 H1 Hc.
    eapply yields_bind; [apply parseback_yields|done|]. intros n s2 H2 _.
    pose proof (iter_back_ok _ n _ Hc). destruct (peek s2 _) as [[] s3] eqn:E3;
      [|apply peek_suffix in E3; split; [by etrans|done]].
    destruct (gettoken s3) as [[[tok q] eq] s4] eqn:E4. eapply symbol_suffix in E4; [|done].
    eapply yields_bind; [apply (IH s4)|by etrans|]. intros c' s5 ? Hc'. split; [done|]. split; [done|].
    eapply Hs; [|done]. by etrans.
  - parse_call. eapply yields_bind; [apply (IH s)|done|]. intros c s1 H1 Hc.
    destruct (peek s1 _) as [[] s3] eqn:E3; [|apply peek_suffix in E3; split; [by etrans|done]].
    destruct (gettoken s3) as [[[tok q] eq] s4] eqn:E4. eapply symbol_suffix in E4; [|done].
    eapply yields_bind; [apply (IH s4)|by etrans|]. intros c' s5 ? Hc'. split; [done|]. split; [done|].
    eapply Hs; [|done]. by etrans.
  - parse_call. destruct (peek s _) as [[] s3] eqn:E3; [|done]. cbn [negb].
    destruct (gettoken s3) as [[[tok q] eq] s4] eqn:E4. eapply symbol_suffix in E4; [|done].
    eapply yields_bind; [apply (IH s4)|done|]. intros c' s5 ? Hc'.
    destruct (peek s5 _) as [[] s6] eqn:E6; [|done]. cbn [negb].
    destruct (gettoken s6) as [[[tok' q'] eq'] s7] eqn:E7. eapply symbol_suffix in E7; [|done].
    assert (s7 `suffix_of` s) by (by etrans).
    eapply yields_bind; [apply parseredirs_yields|done|]. intros rs s8 ? Hrs. split; [done|]. apply redircmds_ok; eauto.
  - parse_call. destruct (peek s _) as [b s3] eqn:E3. apply peek_suffix in E3. destruct b.
    { destruct (IH s3) as (_ & _ & Hb & _). destruct (parseblock fuel s3); try done. destruct Hb. split; [by etrans|eauto]. }
    eapply yields_bind; [apply parseredirs_yields|done|]. intros rs s4 H4 Hrs.
    eapply yields_bind; [apply parseargs_yields|done|]. intros r s5 H5 (Hl & H1 & H2). split; [done|].
    apply redircmds_ok; [|apply Forall_app; eauto]. split; [destruct Hl as [Hl| ->]; simpl in *; unfold MAXARGS in *; lia|].
    eapply Forall_impl; [done|]. intros t ?. by eapply token_of_suffix.
Qed.

(** ** The strings of a command *)

Lemma token_text_word s t : token_of s t → word (token_text t) ∧ t.1 = token_text t ++ t.2 ∧ at_delimiter t.2.
Proof.
  intros (_ & w & E & Hw & Hd). unfold token_text. rewrite E, length_app, Nat.add_sub. by rewrite take_app_length.
Qed.

Fixpoint tokens (c : cmd token) : list token :=
  match c with
  | EXEC argv => argv
  | REDIR c file _ _ => tokens c ++ [file]
  | PIPE l r | LIST l r => tokens l ++ tokens r
  | BACK c => tokens c
  end.

Lemma cmd_ok_tokens P c : cmd_ok P c → Forall P (tokens c).
Proof.
  induction c; simpl; [naive_solver| | | |done]; intros; apply Forall_app; [|naive_solver..]. split; [naive_solver|].
  constructor; [naive_solver|done].
Qed.

Lemma cmd_map_ext (f g : token → list Z) c : Forall (λ t, f t = g t) (tokens c) → cmd_map f c = cmd_map g c.
Proof.
  induction c; simpl; rewrite ?Forall_app; [|intros [? ?]; f_equal; eauto..|intros; f_equal; eauto].
  - intros H. f_equal. apply map_ext_in. intros t Ht. eapply Forall_forall in H; [done|]. by apply list_elem_of_In.
  - by apply (Forall_singleton (λ t, f t = g t)).
Qed.

Lemma cmd_ok_map {A B} (P : A → Prop) (Q : B → Prop) (f : A → B) c : (∀ a, P a → Q (f a)) →
  cmd_ok P c → cmd_ok Q (cmd_map f c).
Proof.
  intros H. induction c; simpl; try naive_solver. intros [? Ha]. rewrite length_map. split; [done|].
  apply Forall_map. by eapply Forall_impl.
Qed.

(** nulterminate stores a NUL after every string. *)
Lemma nulterminate_tokens n c buf : nulterminate n c buf = foldl (λ buf t, put_nul n t.2 buf) buf (tokens c).
Proof.
  revert buf. induction c; intros buf; simpl; rewrite ?foldl_app; simpl; [done|by rewrite IHc|..|done];
    by rewrite IHc1, IHc2.
Qed.

Lemma put_nuls_length n ts : ∀ buf, length (foldl (λ buf (t : token), put_nul n t.2 buf) buf ts) = length buf.
Proof. induction ts as [|t ts IH]; intros buf; simpl; [done|]. rewrite IH. apply length_insert. Qed.

Lemma put_nuls_other n i ts : ∀ buf, Forall (λ t : token, (n - length t.2)%nat ≠ i) ts →
  foldl (λ buf t, put_nul n t.2 buf) buf ts !! i = buf !! i.
Proof.
  induction ts as [|t ts IH]; intros buf; [done|]. intros [Ht Hts]%Forall_cons. simpl. rewrite IH by done.
  by apply list_lookup_insert_ne.
Qed.

Lemma put_nuls_end n (t : token) ts : ∀ buf, t ∈ ts → (n - length t.2 < length buf)%nat →
  foldl (λ buf t, put_nul n t.2 buf) buf ts !! (n - length t.2)%nat = Some 0.
Proof.
  induction ts as [|t' ts IH] using rev_ind; intros buf Ht Hn; [by apply not_elem_of_nil in Ht|].
  rewrite foldl_app. simpl. unfold put_nul at 1. destruct (decide (n - length t'.2 = n - length t.2)%nat) as [->|Hne].
  - apply list_lookup_insert_eq. by rewrite put_nuls_length.
  - rewrite list_lookup_insert_ne by done. apply IH; [|done]. apply elem_of_app in Ht as [?|Ht]; [done|].
    apply list_elem_of_singleton in Ht as ->. done.
Qed.

Lemma cstring_prefix w : ∀ l, take (length w) l = w → l !! length w = Some 0 → Forall (λ c, c ≠ 0) w → cstring l = w.
Proof.
  induction w as [|c w IH]; intros [|d l]; simpl; intros H1 H2 H3; try done.
  - injection H2 as ->. done.
  - injection H1 as -> H1. apply Forall_cons in H3 as [Hc H3]. destruct (c =? 0) eqn:E; [lia|]. f_equal. by apply IH.
Qed.

Lemma token_lookup s (t : token) i : token_of s t → (i < length (token_text t))%nat →
  s !! (length s - length t.1 + i)%nat = token_text t !! i.
Proof.
  intros Ht Hi. destruct (token_text_word s t Ht) as (_ & Et & _). destruct Ht as [[p Hp] _].
  rewrite Hp, length_app, Nat.add_sub, lookup_app_r by lia. rewrite Nat.add_comm, Nat.add_sub.
  rewrite Et. by rewrite lookup_app_l.
Qed.

(** The character where a token of the line ends is a delimiter or the final
    NUL, so that no terminator is stored inside another token. *)
Lemma token_inside s (t u : token) i : token_of s t → token_of s u → (i < length (token_text t))%nat →
  (length s - length u.2)%nat ≠ (length s - length t.1 + i)%nat.
Proof.
  intros Ht Hu Hi E. pose proof (token_lookup s t i Ht Hi) as E1. destruct (token_text_word s t Ht) as ([_ Hw] & Et & _).
  destruct (token_text_word s u Hu) as (_ & Eu & Hd). destruct Hu as [[p' Hp'] _].
  assert (s !! (length s - length u.2)%nat = u.2 !! 0%nat) as E2.
  { rewrite Hp', Eu, app_assoc, length_app, Nat.add_sub, lookup_app_r by lia. f_equal. lia. }
  destruct (lookup_lt_is_Some_2 _ _ Hi) as [c Hc]. rewrite <- E, E2, Hc in E1.
  eapply Forall_lookup_1 in Hw; [|done]. destruct u.2 as [|d l]; [done|]. simpl in *. congruence.
Qed.

(** The strings that the terminated buffer holds are the tokens of the line. *)
Lemma nulterminate_strings s c : Forall (λ c, c ≠ 0) s → cmd_ok (token_of s) c →
  cmd_map (λ a, string_at (length s) (nulterminate (length s) c (s ++ [0])) a.1) c = cmd_map token_text c.
Proof.
  intros H0 Hc%cmd_ok_tokens. apply cmd_map_ext. apply Forall_forall. intros t Ht.
  pose proof (proj1 (Forall_forall _ _) Hc t Ht) as Htok. destruct (token_text_word s t Htok) as (_ & Et & _).
  pose proof Htok as [[p Hp] _]. rewrite nulterminate_tokens. unfold string_at.
  set (b := foldl _ _ _). assert (length s = length p + length t.1)%nat as Hn by (by rewrite Hp, length_app).
  assert (length t.1 = length (token_text t) + length t.2)%nat as Hn' by (by rewrite Et at 1; rewrite length_app).
  apply cstring_prefix.
  - apply list_eq. intros i. destruct (decide (i < length (token_text t))%nat) as [Hi|Hi].
    + rewrite lookup_take_lt by done. rewrite lookup_drop. unfold b. rewrite put_nuls_other.
      * rewrite lookup_app_l by lia. by apply token_lookup.
      * eapply Forall_impl; [exact Hc|]. intros u Hu. by apply token_inside.
    + rewrite lookup_take_ge by lia. symmetry. apply lookup_ge_None. lia.
  - rewrite lookup_drop. replace (_ + _)%nat with (length s - length t.2)%nat by lia. apply put_nuls_end; [done|].
    rewrite length_app. simpl. lia.
  - rewrite Hp, Et, !Forall_app in H0. tauto.
Qed.

Lemma parsecmd_strings s c s' : Forall (λ c, c ≠ 0) s → parseline (4 * length s + 5) s = Parsed c s' → skip s' = [] →
  parsecmd s = Parsed (cmd_map token_text c) [].
Proof.
  intros H0 E Es. unfold parsecmd. rewrite E. simpl. rewrite Es. simpl. f_equal. apply nulterminate_strings; [done|].
  destruct (parse_yields (4 * length s + 5) s) as [H _]. rewrite E in H. apply H.
Qed.

(** C30. The parser ends on every line with a command, at the end of the line, or
    with a syntax error, and never exhausts the fuel of the model.  The command is
    well formed: at most nine arguments (so that argv fits with its final null
    pointer), redirections of descriptor 0 for reading or of descriptor 1 for
    writing and creating, and strings that are non-empty words without white space
    or symbols: no terminator was stored inside another string, and none is
    missing. *)
Theorem parsecmd_well_formed (s : list Z) : Forall (λ c, c ≠ 0) s →
  (∃ c, parsecmd s = Parsed c [] ∧ cmd_ok word c) ∨ (∃ msg, parsecmd s = Syntax msg).
Proof.
  intros H0. destruct (parsecmd_ends s) as [[c Hc]|]; [left; exists c; split; [done|]|by right]. revert Hc.
  unfold parsecmd. destruct (parse_yields (4 * length s + 5) s) as [H _].
  destruct (parseline _ s) as [c' s1| |]; [|done..]. simpl. destruct H as [_ Hc].
  destruct (decide _); [|done]. intros [= <- _]. rewrite nulterminate_strings by done.
  eapply cmd_ok_map; [|done]. intros t Ht. by apply (token_text_word s t).
Qed.

(** "echo hi >f;". *)
Lemma parsecmd_well_formed_witness :
  cmd_ok word (LIST (REDIR (EXEC [[101; 99; 104; 111]; [104; 105]]) [102] O_CREATED 1) (EXEC [])).
Proof.
  destruct (parsecmd_well_formed [101; 99; 104; 111; 32; 104; 105; 32; 62; 102; 59]) as [(c & E & Hc)|[msg E]].
  - by repeat constructor.
  - vm_compute in E. injection E as <-. exact Hc.
  - vm_compute in E. discriminate E.
Defined.
