(* ===== verification/ShText.v ===== *)
(** * The text of a command

    Every well-formed command has a text, and the parser of the shell reads
    the command back from it. *)

From stdpp Require Import base numbers option list strings.
From Stdlib Require Import ZArith Lia ZifyBool.
From S2P Require Import Prelude Bytes Sh ShProps.
Import Sh.
Local Open Scope Z_scope.

(** ** Printing *)

Definition paren (b : bool) (s : list Z) : list Z := if b then 40 :: s ++ [41] else s.

Definition words_text (argv : list (list Z)) : list Z := concat (map (λ w, w ++ [32]) argv).
Definition redir_text (r : list Z * Z * Z) : list Z := (if r.2 =? 0 then 60 else 62) :: r.1.1 ++ [32].

(** The levels of the grammar: 0 for parseexec, 1 for parsepipe, 2 for the part
    of parseline before the semicolon, 3 for parseline. *)
Fixpoint text (lv : nat) (c : cmd (list Z)) : list Z :=
  match c with
  | EXEC argv => words_text argv
  | REDIR c file mode fd => text 0 c ++ redir_text (file, mode, fd)
  | PIPE l r => paren (lv <? 1)%nat (text 0 l ++ 124 :: text 1 r)
  | BACK c => paren (lv <? 2)%nat (text 2 c ++ [38])
  | LIST l r => paren (lv <? 3)%nat (text 2 l ++ 59 :: text 3 r)
  end.

(** ** Tokens of a text *)

Lemma skip_idem s : skip (skip s) = skip s.
Proof. induction s as [|c s IH]; simpl; [done|]. destruct (is_white c) eqn:E; [done|]. simpl. by rewrite E. Qed.

Lemma skip_symbol c s : is_symbol c = true → skip (c :: s) = c :: s.
Proof.
  intros H. simpl. replace (is_white c) with false; [done|].
  unfold is_symbol, is_white in *. lia.
Qed.

Lemma delimiter_false c : delimiter c = false → is_white c = false ∧ is_symbol c = false.
Proof. unfold delimiter. by intros ?%orb_false_iff. Qed.

Lemma skip_word w r : word w → skip (w ++ r) = w ++ r.
Proof. intros [Hn Hw]. destruct Hw as [|c w [Hc _]%delimiter_false Hw]; [done|]. simpl. by rewrite Hc. Qed.

Lemma word_end_app w r : Forall (λ c, delimiter c = false) w → at_delimiter r → word_end (w ++ r) = r.
Proof.
  intros Hw Hr. induction Hw as [|c w Hc Hw IH]; simpl.
  - destruct r as [|c r]; [done|]. simpl in *. unfold delimiter in Hr. by rewrite Hr.
  - unfold delimiter in Hc. by rewrite Hc.
Qed.

Lemma gettoken_word w r : word w → at_delimiter r → gettoken (w ++ r) = (97, w ++ r, r, skip r).
Proof.
  intros Hw Hr. unfold gettoken. rewrite skip_word by done. destruct Hw as [Hn Hw].
  rewrite (word_end_app w r) by done. destruct Hw as [|c w [_ Hc]%delimiter_false Hw]; [done|]. simpl.
  rewrite Hc. destruct (c =? 62) eqn:E; [|done]. unfold is_symbol in Hc. lia.
Qed.

Lemma gettoken_symbol c s : is_symbol c = true → c ≠ 62 → gettoken (c :: s) = (c, c :: s, s, skip s).
Proof. intros Hc H62. unfold gettoken. rewrite skip_symbol by done. rewrite Hc. by destruct (c =? 62) eqn:E; [lia|]. Qed.

Lemma peek_symbol c s toks : is_symbol c = true → peek (c :: s) toks = (existsb (Z.eqb c) toks, c :: s).
Proof. intros Hc. unfold peek. by rewrite skip_symbol. Qed.

Lemma peek_word w r toks : word w → forallb is_symbol toks = true → peek (w ++ r) toks = (false, w ++ r).
Proof.
  intros Hw Ht. unfold peek. rewrite skip_word by done. destruct Hw as [Hn Hw].
  destruct Hw as [|c w [_ Hc]%delimiter_false Hw]; [done|]. simpl. f_equal. apply not_true_iff_false.
  intros (z & Hz & E)%existsb_exists. eapply forallb_forall in Ht; [|done]. replace z with c in Ht by lia. congruence.
Qed.

Lemma peek_skip s toks : peek (skip s) toks = peek s toks.
Proof. unfold peek. by rewrite skip_idem. Qed.

(** The rest of the line ends the part of the grammar at hand. *)
Definition stops (toks : list Z) (rest : cptr) : Prop :=
  match skip rest with [] => True | c :: _ => In c toks end.

Lemma peek_stops stop toks rest : stops stop rest → forallb (λ c, negb (existsb (Z.eqb c) toks)) stop = true →
  peek rest toks = (false, skip rest).
Proof.
  unfold stops, peek. intros Hr Hs. destruct (skip rest) as [|c s]; [done|]. f_equal.
  eapply forallb_forall in Hs; [|exact Hr]. by destruct (existsb _ _).
Qed.

Lemma stops_weaken stop stop' rest : stops stop rest → incl stop stop' → stops stop' rest.
Proof. unfold stops. intros H Hi. destruct (skip rest); [done|]. by apply Hi. Qed.

Lemma stops_symbol c s stop : is_symbol c = true → In c stop → stops stop (c :: s).
Proof. intros Hc Hi. unfold stops. by rewrite skip_symbol. Qed.

(** The parsers skip white space first. *)
Lemma parseredirs_skip fuel s : parseredirs fuel (skip s) = parseredirs fuel s.
Proof. destruct fuel; [done|]. cbn [parseredirs]. by rewrite peek_skip. Qed.
Lemma parseback_skip fuel s : parseback fuel (skip s) = parseback fuel s.
Proof. destruct fuel; [done|]. cbn [parseback]. by rewrite peek_skip. Qed.
Lemma parseargs_skip fuel argc s : parseargs fuel argc (skip s) = parseargs fuel argc s.
Proof. destruct fuel; [done|]. cbn [parseargs]. by rewrite peek_skip. Qed.
Lemma parseexec_skip fuel s : parseexec fuel (skip s) = parseexec fuel s.
Proof. destruct fuel; [done|]. parse_call. by rewrite peek_skip. Qed.
Lemma parsepipe_skip fuel s : parsepipe fuel (skip s) = parsepipe fuel s.
Proof. destruct fuel; [done|]. parse_call. by rewrite parseexec_skip. Qed.
Lemma parseline_skip fuel s : parseline fuel (skip s) = parseline fuel s.
Proof. destruct fuel; [done|]. parse_call. by rewrite parsepipe_skip. Qed.

(** ** Arguments and redirections *)

Definition rmap (r : redir) : list Z * Z * Z := (token_text r.1.1, r.1.2, r.2).
Definition sredir (c : cmd (list Z)) (r : list Z * Z * Z) : cmd (list Z) := REDIR c r.1.1 r.1.2 r.2.
Definition sredir_ok (r : list Z * Z * Z) : Prop :=
  word r.1.1 ∧ (r.1.2 = O_READ ∧ r.2 = 0 ∨ r.1.2 = O_CREATED ∧ r.2 = 1).
Definition redirs_text (rs : list (list Z * Z * Z)) : list Z := concat (map redir_text rs).

Lemma token_text_app w r : token_text (w ++ r, r) = w.
Proof. unfold token_text. simpl. rewrite length_app, Nat.add_sub. by rewrite take_app_length. Qed.

Lemma map_redircmds c rs : cmd_map token_text (foldl redircmd c rs) = foldl sredir (cmd_map token_text c) (map rmap rs).
Proof. revert c. induction rs as [|[[t m] fd] rs IH]; intros c; simpl; [done|]. by rewrite IH. Qed.

Lemma gettoken_redir r s : sredir_ok r → ∃ eq q,
  gettoken (redir_text r ++ s) = (if r.2 =? 0 then 60 else 62, q, eq, r.1.1 ++ 32 :: s).
Proof.
  intros [Hw _]. unfold redir_text. rewrite <- app_comm_cons, <- app_assoc. simpl.
  destruct (r.2 =? 0).
  - rewrite gettoken_symbol, skip_word by done. by do 2 eexists.
  - pose proof (skip_word r.1.1 (32 :: s) Hw) as Hs.
    destruct Hw as [Hn Hw]. destruct Hw as [|c w [_ Hc]%delimiter_false Hw]; [done|].
    unfold gettoken. rewrite (skip_symbol 62) by done. cbn -[skip]. rewrite <- app_comm_cons in Hs. rewrite Hs.
    destruct (c =? 62) eqn:E; [unfold is_symbol in Hc; lia|]. by do 2 eexists.
Qed.

Lemma redir_text_peek r s toks : peek (redir_text r ++ s) toks =
  (existsb (Z.eqb (if r.2 =? 0 then 60 else 62)) toks, redir_text r ++ s).
Proof. unfold redir_text. simpl. apply peek_symbol. by destruct (r.2 =? 0). Qed.

Lemma redirs_text_cons r rs rest : redirs_text (r :: rs) ++ rest = redir_text r ++ redirs_text rs ++ rest.
Proof. by rewrite app_assoc. Qed.
Lemma words_text_cons w ws rest : words_text (w :: ws) ++ rest = w ++ 32 :: words_text ws ++ rest.
Proof. unfold words_text. simpl. by rewrite <- !app_assoc. Qed.
Lemma redirs_text_length rs : (length rs <= length (redirs_text rs))%nat.
Proof. induction rs as [|r rs IH]; [done|]. rewrite <- (app_nil_r (redirs_text _)), redirs_text_cons, app_nil_r, length_app. simpl. lia. Qed.
Lemma words_text_length ws : (length ws <= length (words_text ws))%nat.
Proof. induction ws as [|w ws IH]; [done|]. rewrite <- (app_nil_r (words_text _)), words_text_cons, app_nil_r, length_app. simpl. lia. Qed.
Lemma parseredirs_blank fuel s : parseredirs fuel (skip (32 :: s)) = parseredirs fuel s.
Proof. apply (parseredirs_skip fuel s). Qed.

Lemma parseredirs_text rs : ∀ fuel rest, (length rs < fuel)%nat → Forall sredir_ok rs →
  peek rest [60; 62] = (false, skip rest) →
  ∃ rs', parseredirs fuel (redirs_text rs ++ rest) = Parsed rs' (skip rest) ∧ map rmap rs' = rs.
Proof.
  induction rs as [|r rs IH]; intros [|fuel] rest Hf Hrs Hrest; simpl in Hf; try lia; cbn [parseredirs].
  { change (redirs_text [] ++ rest) with rest. rewrite Hrest. by exists []. }
  apply Forall_cons in Hrs as [Hr Hrs]. destruct (IH fuel rest ltac:(lia) Hrs Hrest) as (rs' & E & Hm).
  rewrite redirs_text_cons, redir_text_peek.
  replace (existsb _ _) with true by (by destruct (r.2 =? 0)).
  destruct (gettoken_redir r (redirs_text rs ++ rest) Hr) as (eq & q & ->).
  destruct Hr as [Hw Hr]. rewrite gettoken_word by done. rewrite parseredirs_blank, E. simpl. destruct r as [[f m] fd]. simpl in *.
  destruct Hr as [[-> ->]|[-> ->]]; eexists; (split; [done|]); simpl; rewrite Hm; unfold rmap; simpl; by rewrite token_text_app.
Qed.

(** Words, and the redirections after the last of them; without words there
    are no redirections here, for they have been read before. *)
Lemma parseargs_text argv : ∀ fuel argc rs rest, (length argv + length rs < fuel)%nat →
  (argc + length argv < MAXARGS)%nat → Forall word argv → Forall sredir_ok rs → (argv = [] → rs = []) →
  stops [124; 41; 38; 59] rest →
  ∃ argv' rs', parseargs fuel argc (words_text argv ++ redirs_text rs ++ rest) = Parsed (argv', rs') (skip rest) ∧
    map token_text argv' = argv ∧ map rmap rs' = rs.
Proof.
  induction argv as [|w argv IH]; intros [|fuel] argc rs rest Hf Hn Hw Hrs Hnil Hrest; simpl in Hf, Hn; try lia; cbn [parseargs].
  - rewrite (Hnil eq_refl). change (words_text [] ++ redirs_text [] ++ rest) with rest. exists [], []. split; [|done]. unfold stops in Hrest. unfold peek.
    destruct (skip rest) as [|c s] eqn:E; [done|]. replace (existsb (Z.eqb c) [124; 41; 38; 59]) with true; [done|].
    symmetry. apply existsb_exists. exists c. split; [done|lia].
  - apply Forall_cons in Hw as [Hw Hws]. rewrite words_text_cons.
    rewrite peek_word, gettoken_word by done. simpl negb. cbn iota.
    destruct (MAXARGS <=? S argc)%nat eqn:Em; [lia|]. simpl Z.eqb. cbn iota. rewrite parseredirs_blank.
    assert (∃ fuel', fuel = S fuel') as [fuel' Ef] by (exists (pred fuel); lia).
    destruct argv as [|w2 argv].
    + simpl app. destruct (parseredirs_text rs fuel rest) as (rs' & -> & Hm); [simpl in *; lia|done|by eapply peek_stops|].
      simpl. destruct (IH fuel (S argc) [] rest) as (argv' & rs2 & E & Hm1 & Hm2); try done; simpl in *; [lia..|].
      rewrite parseargs_skip, E. simpl. exists ((w ++ 32 :: redirs_text rs ++ rest, 32 :: redirs_text rs ++ rest) :: argv'), (rs' ++ rs2).
      split; [done|]. simpl. rewrite token_text_app, Hm1, map_app, Hm, Hm2, app_nil_r. done.
    + destruct (IH fuel (S argc) rs rest) as (argv' & rs2 & E & Hm1 & Hm2); try done; simpl in *; try lia.
      replace (parseredirs fuel _) with (@Parsed (list redir) [] (words_text (w2 :: argv) ++ redirs_text rs ++ rest)).
      { simpl. rewrite E. simpl. eexists (_ :: argv'), rs2. split; [done|]. simpl. by rewrite token_text_app, Hm1. }
      apply Forall_cons in Hws as [Hw2 _]. rewrite Ef. cbn [parseredirs]. by rewrite words_text_cons, peek_word.
Qed.

(** ** The levels of the grammar *)

(** The parser of each level reads the text of the command back; at level 0
    redirections may follow, at level 2 ampersands. *)
Definition reads0 (c : cmd (list Z)) : Prop := ∀ fuel rs rest,
  let s := text 0 c ++ redirs_text rs ++ rest in
  (4 * length s + 2 <= fuel)%nat → Forall sredir_ok rs → stops [124; 41; 38; 59] rest →
  ∃ c', parseexec fuel s = Parsed c' (skip rest) ∧ cmd_map token_text c' = foldl sredir c rs.

Definition reads1 (c : cmd (list Z)) : Prop := ∀ fuel rest,
  let s := text 1 c ++ rest in (4 * length s + 3 <= fuel)%nat → stops [41; 38; 59] rest →
  ∃ c', parsepipe fuel s = Parsed c' (skip rest) ∧ cmd_map token_text c' = c.

Definition reads2 (c : cmd (list Z)) : Prop := ∀ fuel m rest,
  let s := text 2 c ++ repeat 38 m ++ rest in (4 * length s + 3 <= fuel)%nat → stops [41; 59] rest →
  ∃ c0 n s1, parsepipe fuel s = Parsed c0 s1 ∧ parseback fuel s1 = Parsed n (skip rest) ∧
    cmd_map token_text (Nat.iter n BACK c0) = Nat.iter m BACK c.

Definition reads3 (c : cmd (list Z)) : Prop := ∀ fuel rest,
  let s := text 3 c ++ rest in (4 * length s + 4 <= fuel)%nat → stops [41] rest →
  ∃ c', parseline fuel s = Parsed c' (skip rest) ∧ cmd_map token_text c' = c.

Lemma map_backs n c : cmd_map token_text (Nat.iter n BACK c) = Nat.iter n BACK (cmd_map token_text c).
Proof. induction n as [|n IH]; simpl; [done|]. by rewrite IH. Qed.

Ltac stop_incl := intros ? ?; simpl in *; tauto.

Lemma reads0_1 c : reads0 c → text 1 c = text 0 c → reads1 c.
Proof.
  intros H E [|fuel] rest s Hf Hr; [lia|]. subst s. rewrite E in *. parse_call.
  destruct (H fuel [] rest) as (c' & Hp & Hc); [simpl; lia|done|eapply stops_weaken; [done|stop_incl]|].
  change (redirs_text [] ++ rest) with rest in Hp. rewrite Hp. cbn [pbind]. rewrite peek_skip. erewrite peek_stops by done. by exists c'.
Qed.

Lemma parseback_text m : ∀ fuel rest, (m < fuel)%nat → stops [41; 59] rest →
  parseback fuel (repeat 38 m ++ rest) = Parsed m (skip rest).
Proof.
  induction m as [|m IH]; intros [|fuel] rest Hf Hr; try lia; cbn [parseback repeat app].
  - by erewrite peek_stops.
  - rewrite peek_symbol by done. simpl existsb. cbn iota. rewrite gettoken_symbol by done.
    rewrite parseback_skip, IH by (done || lia). done.
Qed.

Lemma reads1_2 c : reads1 c → text 2 c = text 1 c → reads2 c.
Proof.
  intros H E fuel m rest s Hf Hr. subst s. rewrite E in *.
  destruct (H fuel (repeat 38 m ++ rest)) as (c' & -> & Hc); [done| |].
  { destruct m as [|m]; [eapply stops_weaken; [done|stop_incl]|]. apply stops_symbol; [done|]. simpl; tauto. }
  eexists c', m, _. split; [done|]. rewrite parseback_skip, map_backs, Hc. split; [|done].
  apply parseback_text; [|done]. rewrite !length_app, repeat_length in Hf. lia.
Qed.

Lemma reads2_3 c : reads2 c → text 3 c = text 2 c → reads3 c.
Proof.
  intros H E [|fuel] rest s Hf Hr; [lia|]. subst s. rewrite E in *. parse_call.
  destruct (H fuel 0%nat rest) as (c0 & n & s1 & E1 & E2 & Hc); [simpl; lia|eapply stops_weaken; [done|stop_incl]|].
  simpl app in E1. rewrite E1. cbn [pbind]. rewrite E2. cbn [pbind]. rewrite peek_skip. erewrite peek_stops by done.
  by eexists.
Qed.

(** A command in parentheses. *)
Lemma reads3_0 c : reads3 c → text 0 c = paren true (text 3 c) → reads0 c.
Proof.
  intros H E [|[|fuel]] rs rest s Hf Hrs Hr; [lia..|]. subst s. rewrite E in *. unfold paren in *.
  rewrite <- app_comm_cons, <- app_assoc in Hf |- *. cbn [length app] in Hf.
  parse_call. rewrite peek_symbol by done. simpl existsb. cbn iota.
  parse_call. rewrite peek_symbol by done. simpl existsb. simpl negb. cbn iota.
  rewrite gettoken_symbol by done. rewrite parseline_skip.
  destruct (H fuel ([41] ++ redirs_text rs ++ rest)) as (c' & -> & Hc); [simpl in *; lia|by apply stops_symbol; [|simpl; tauto]|].
  cbn [pbind]. rewrite peek_skip. cbn [app]. rewrite peek_symbol by done. simpl existsb. simpl negb. cbn iota.
  rewrite gettoken_symbol by done. rewrite parseredirs_skip.
  destruct (parseredirs_text rs fuel rest) as (rs' & -> & Hm); [|done|by eapply peek_stops|].
  { pose proof (redirs_text_length rs). rewrite length_app in Hf. cbn [length] in Hf. rewrite length_app in Hf. lia. }
  eexists. split; [done|]. by rewrite map_redircmds, Hc, Hm.
Qed.

Lemma reads_exec argv : (length argv < MAXARGS)%nat → Forall word argv → reads0 (EXEC argv).
Proof.
  intros Hn Hw [|fuel] rs rest s Hf Hrs Hr; [lia|]. subst s. simpl text in *. rewrite !length_app in Hf.
  pose proof (redirs_text_length rs). pose proof (words_text_length argv). parse_call.
  destruct argv as [|w argv].
  - change (words_text [] ++ redirs_text rs ++ rest) with (redirs_text rs ++ rest).
    replace (peek _ [40]) with (false, skip (redirs_text rs ++ rest)).
    2:{ destruct rs as [|r rs]; [by erewrite peek_stops|]. rewrite redirs_text_cons, redir_text_peek.
        unfold redir_text. destruct (r.2 =? 0); simpl app; by rewrite skip_symbol. }
    rewrite parseredirs_skip. destruct (parseredirs_text rs fuel rest) as (rs' & -> & Hm); [lia|done|by eapply peek_stops|].
    cbn [pbind]. rewrite parseargs_skip. destruct (parseargs_text [] fuel 0 [] rest) as (a & rs2 & E & Ha & Hm2); try done; [simpl in *; lia|].
    change (words_text [] ++ redirs_text [] ++ rest) with rest in E. rewrite E. eexists. split; [done|].
    rewrite map_redircmds, map_app. cbn [fst snd cmd_map]. by rewrite Hm, Hm2, Ha, app_nil_r.
  - pose proof Hw as [Hw1 _]%Forall_cons. rewrite words_text_cons, peek_word by done. rewrite <- words_text_cons.
    destruct (parseredirs_text [] fuel (words_text (w :: argv) ++ redirs_text rs ++ rest)) as (rs' & E & Hm); [simpl in *; lia|done|..].
    { rewrite words_text_cons, peek_word by done. by rewrite skip_word. }
    change (redirs_text [] ++ ?x) with x in E. rewrite E. cbn [pbind]. rewrite parseargs_skip.
    destruct (parseargs_text (w :: argv) fuel 0 rs rest) as (a & rs2 & -> & Ha & Hm2); try done; [lia|].
    eexists. split; [done|]. apply map_eq_nil in Hm as ->. rewrite map_redircmds. cbn [fst snd app cmd_map]. by rewrite Hm2, Ha.
Qed.

Lemma reads_redir c file mode fd : sredir_ok (file, mode, fd) → reads0 c → reads0 (REDIR c file mode fd).
Proof.
  intros Hr H fuel rs rest s Hf Hrs Hrest. subst s. simpl text in *. rewrite <- app_assoc, <- redirs_text_cons in Hf |- *.
  destruct (H fuel ((file, mode, fd) :: rs) rest) as (c' & -> & Hc); [done|by constructor|done|]. by eexists.
Qed.

Lemma reads_pipe l r : reads0 l → reads1 r → reads1 (PIPE l r).
Proof.
  intros Hl Hr [|fuel] rest s Hf Hrest; [lia|]. subst s. simpl text in *. cbn [paren Nat.ltb Nat.leb] in *.
  rewrite <- app_assoc, <- app_comm_cons in Hf |- *. rewrite length_app in Hf. parse_call.
  destruct (Hl fuel [] (124 :: text 1 r ++ rest)) as (c' & E & Hc); [rewrite !length_app; simpl in *; lia|done|by apply stops_symbol; [|simpl; tauto]|].
  change (redirs_text [] ++ ?x) with x in E. rewrite E. cbn [pbind]. rewrite peek_skip, peek_symbol by done. simpl existsb. cbn iota.
  rewrite gettoken_symbol by done. rewrite parsepipe_skip.
  destruct (Hr fuel rest) as (c2 & -> & Hc2); [simpl in *; lia|done|]. eexists. split; [done|]. simpl. by rewrite Hc, Hc2.
Qed.

Lemma reads_back c : reads2 c → reads2 (BACK c).
Proof.
  intros H fuel m rest s Hf Hrest. subst s. simpl text in *. cbn [paren Nat.ltb Nat.leb] in *.
  rewrite <- app_assoc in Hf |- *. destruct (H fuel (S m) rest) as (c0 & n & s1 & E1 & E2 & Hc); [done|done|].
  exists c0, n, s1. split_and!; [done|done|]. by rewrite Hc, Nat.iter_succ_r.
Qed.

Lemma reads_list l r : reads2 l → reads3 r → reads3 (LIST l r).
Proof.
  intros Hl Hr [|fuel] rest s Hf Hrest; [lia|]. subst s. simpl text in *. cbn [paren Nat.ltb Nat.leb] in *.
  rewrite <- app_assoc, <- app_comm_cons in Hf |- *. rewrite length_app in Hf. parse_call.
  destruct (Hl fuel 0%nat (59 :: text 3 r ++ rest)) as (c0 & n & s1 & E1 & E2 & Hc);
    [rewrite !length_app; simpl in *; lia|by apply stops_symbol; [|simpl; tauto]|].
  simpl app in E1. rewrite E1. cbn [pbind]. rewrite E2. cbn [pbind]. rewrite peek_skip, peek_symbol by done. simpl existsb. cbn iota.
  rewrite gettoken_symbol by done. rewrite parseline_skip.
  destruct (Hr fuel rest) as (c2 & -> & Hc2); [simpl in *; lia|done|]. eexists. split; [done|]. cbn [cmd_map]. by rewrite Hc, Hc2.
Qed.

Lemma reads_all c : cmd_ok word c → reads0 c ∧ reads1 c ∧ reads2 c ∧ reads3 c.
Proof.
  induction c as [argv|c IH file mode fd|l IHl r IHr|l IHl r IHr|c IH]; intros Hc.
  - assert (reads0 (EXEC argv)) as H0 by (apply reads_exec; apply Hc).
    pose proof (reads0_1 _ H0 eq_refl) as H1. pose proof (reads1_2 _ H1 eq_refl) as H2.
    split_and!; [done..|by apply reads2_3].
  - assert (reads0 (REDIR c file mode fd)) as H0 by (apply reads_redir; [|apply IH]; apply Hc).
    pose proof (reads0_1 _ H0 eq_refl) as H1. pose proof (reads1_2 _ H1 eq_refl) as H2.
    split_and!; [done..|by apply reads2_3].
  - assert (reads1 (PIPE l r)) as H1 by (apply reads_pipe; [apply IHl|apply IHr]; apply Hc).
    pose proof (reads1_2 _ H1 eq_refl) as H2. pose proof (reads2_3 _ H2 eq_refl) as H3.
    split_and!; [by apply reads3_0|done..].
  - assert (reads3 (LIST l r)) as H3 by (apply reads_list; [apply IHl|apply IHr]; apply Hc).
    pose proof (reads3_0 _ H3 eq_refl) as H0. pose proof (reads0_1 _ H0 eq_refl) as H1.
    split_and!; [done|done|by apply reads1_2|done].
  - assert (reads2 (BACK c)) as H2 by (apply reads_back, IH, Hc).
    pose proof (reads2_3 _ H2 eq_refl) as H3. pose proof (reads3_0 _ H3 eq_refl) as H0.
    split_and!; [done|by apply reads0_1|done|done].
Qed.

(** ** Reading a command back *)

Lemma forall_concat {A} (P : A → Prop) (ls : list (list A)) : Forall (Forall P) ls → Forall P (concat ls).
Proof. induction 1; simpl; [done|]. by apply Forall_app. Qed.

(** The strings have no NUL character. *)
Notation printable := (cmd_ok (λ w, word w ∧ Forall (λ c, c ≠ 0) w)).

(** A property of the characters of the words, of the symbols and of the blank
    holds of the characters of the text. *)
Lemma text_all (P : Z → Prop) c : P 32 → (∀ x, is_symbol x = true → P x) → cmd_ok (Forall P) c →
  ∀ lv, Forall P (text lv c).
Proof.
  intros H32 Hs. assert (∀ b s, Forall P s → Forall P (paren b s)) as Hp.
  { intros [] s H; simpl; [|done]. constructor; [by apply Hs|]. apply Forall_app. split; [done|]. constructor; [by apply Hs|done]. }
  induction c as [argv|c IH file mode fd|l IHl r IHr|l IHl r IHr|c IH]; intros Hc lv; simpl in Hc |- *;
    try apply Hp; rewrite ?Forall_app, ?Forall_cons; try (destruct_and?; split_and!; eauto; by apply Hs).
  - apply forall_concat, Forall_map. destruct Hc as [_ Hc]. eapply Forall_impl; [done|]. intros w Hw.
    apply Forall_app. split; [done|by constructor].
  - destruct Hc as (Hc & Hf & _). split; [by apply IH|]. unfold redir_text. constructor; [by destruct (_ =? 0); apply Hs|].
    apply Forall_app. split; [done|by constructor].
Qed.

Lemma text_nul c lv : printable c → Forall (λ c, c ≠ 0) (text lv c).
Proof.
  intros Hc. apply text_all; [done|by intros x Hx ->|]. eapply cmd_ok_impl; [|done]. by intros w [_ Hw].
Qed.

(** There is no newline and no carriage return in a text. *)
Lemma text_newline c lv : printable c → Forall (λ c, (c =? 10) || (c =? 13) = false) (text lv c).
Proof.
  intros Hc. apply text_all; [done|intros x Hx; unfold is_symbol in Hx; lia|]. eapply cmd_ok_impl; [|done].
  intros w [[_ Hw] _]. eapply Forall_impl; [done|]. intros x [Hx _]%delimiter_false. unfold is_white in Hx. lia.
Qed.

Lemma parse_text c nl : printable c → Forall (λ c, c ≠ 0) nl → skip nl = [] → parsecmd (text 3 c ++ nl) = Parsed c [].
Proof.
  intros Hc Hnl Es. assert (cmd_ok word c) as Hw by (eapply cmd_ok_impl; [|done]; naive_solver).
  destruct (reads_all c Hw) as (_ & _ & _ & H3).
  destruct (H3 (4 * length (text 3 c ++ nl) + 5)%nat nl) as (c' & E & <-); [lia|by unfold stops; rewrite Es|].
  eapply parsecmd_strings; [|done|by rewrite skip_idem]. apply Forall_app. split; [by apply text_nul|done].
Qed.

(** C29. Printing and parsing: every command whose strings are words, with at
    most nine arguments per program, is read back from its text, followed by the
    newline that ends the line: the same tree, with the same strings in the
    terminated buffer. *)
Theorem parse_print (c : cmd (list Z)) : printable c → parsecmd (text 3 c ++ [10]) = Parsed c [].
Proof. intros Hc. by apply parse_text; [|repeat constructor|]. Qed.

(** (ls <a | wc x) >b ; e & *)
Lemma parse_print_witness :
  let c := LIST (REDIR (PIPE (REDIR (EXEC [[108; 115]]) [97] O_READ 0) (EXEC [[119; 99]; [120]])) [98] O_CREATED 1)
                (BACK (EXEC [[101]])) in
  parsecmd (text 3 c ++ [10]) = Parsed c [].
Proof.
  apply parse_print. unfold word. cbn [cmd_ok length].
  repeat (split_and! || apply Forall_cons || apply Forall_nil); first [lia|by apply Nat.ltb_lt|discriminate|done|by left|by right].
Defined.
