(* ===== verification/ShRun.v ===== *)
(** * What the shell runs

    The system calls of the shell, given a meaning on the descriptor tables of
    the processes, and the proof that the descriptors are plumbed as the
    command says, and that its parts are waited for. *)

From stdpp Require Import base numbers option list strings.
From Stdlib Require Import ZArith Lia ZifyBool.
From S2P Require Import Prelude Bytes CString Sh ShProps ShText.
Import CString Sh.
Local Open Scope Z_scope.

(** ** Processes and descriptors *)

(** What a descriptor refers to.  A pipe is named by the process that made it
    and the number of pipes that process had made before. *)
Inductive desc :=
| Inherited (n : nat)
| Opened (path : list Z) (mode : Z)
| ReadEnd (creator : list nat) (n : nat)
| WriteEnd (creator : list nat) (n : nat).

Notation fdtable := (list (option desc)).

(** A process is named by the path that leads to it in the tree of forks. *)
Record process := mkProcess {
  pid : list nat; forks : nat; pipes : nat; cwd : list (list Z); fds : fdtable }.

Definition set_fds (f : fdtable → fdtable) (p : process) : process :=
  mkProcess (pid p) (forks p) (pipes p) (cwd p) (f (fds p)).
Definition child (p : process) : process := mkProcess (pid p ++ [forks p]) 0 0 (cwd p) (fds p).
Definition parent (p : process) : process := mkProcess (pid p) (S (forks p)) (pipes p) (cwd p) (fds p).
Definition piped (p : process) : process := mkProcess (pid p) (forks p) (S (pipes p)) (cwd p) (fds p).
Definition moved (d : list Z) (p : process) : process := mkProcess (pid p) (forks p) (pipes p) (cwd p ++ [d]) (fds p).

(** The lowest free descriptor. *)
Fixpoint lowest (t : fdtable) : option nat :=
  match t with
  | [] => None
  | None :: _ => Some 0%nat
  | Some _ :: t' => S <$> lowest t'
  end.

(** Which calls the kernel refuses for other reasons than the descriptors. *)
Record world := mkWorld {
  w_open : list (list Z) → list Z → Z → bool;
  w_exec : list (list Z) → list Z → bool;
  w_chdir : list (list Z) → list Z → bool;
  w_fork : list nat → nat → bool;
  w_pipe : list nat → nat → bool }.

(** A program that replaces the shell, with its directory and descriptors; a message
    of the shell; and a process that waits for a child, with the descriptors that it
    holds meanwhile. *)
Inductive event :=
| Launched (dir : list (list Z)) (argv : list (list Z)) (t : fdtable)
| Printed (d : option desc) (s : list Z)
| Waited (who : list nat) (t : fdtable).

Definition at_fd (fd : Z) (t : fdtable) : option desc := if fd <? 0 then None else t !! Z.to_nat fd ≫= id.
Definition closed_fd (fd : Z) (t : fdtable) : fdtable := if fd <? 0 then t else <[Z.to_nat fd := None]> t.

(** The events of a process that runs the program, and of its descendants. *)
Fixpoint run (w : world) (p : process) (c : sys) : list event :=
  match c with
  | Exit => []
  | Exec path argv k => if w_exec w (cwd p) path then [Launched (cwd p) argv (fds p)] else run w p k
  | Open path mode k =>
      match lowest (fds p) with
      | Some i => if w_open w (cwd p) path mode then run w (set_fds (insert i (Some (Opened path mode))) p) (k (Z.of_nat i))
                  else run w p (k (-1))
      | None => run w p (k (-1))
      end
  | Close fd k => run w (set_fds (closed_fd fd) p) k
  | Dup fd k =>
      match at_fd fd (fds p), lowest (fds p) with
      | Some d, Some i => run w (set_fds (insert i (Some d)) p) (k (Z.of_nat i))
      | _, _ => run w p (k (-1))
      end
  | Pipe k =>
      match lowest (fds p) with
      | Some i =>
          let t := <[i := Some (ReadEnd (pid p) (pipes p))]> (fds p) in
          match lowest t with
          | Some j =>
              if w_pipe w (pid p) (pipes p) then
                run w (set_fds (λ _, <[j := Some (WriteEnd (pid p) (pipes p))]> t) (piped p)) (k (Some (Z.of_nat i, Z.of_nat j)))
              else run w p (k None)
          | None => run w p (k None)
          end
      | None => run w p (k None)
      end
  | Fork k =>
      if w_fork w (pid p) (forks p) then run w (child p) (k 0) ++ run w (parent p) (k 1)
      else run w p (k (-1))
  | Wait k => Waited (pid p) (fds p) :: run w p k
  | Chdir path k => if w_chdir w (cwd p) path then run w (moved path p) (k 0) else run w p (k (-1))
  | Print fd s k => Printed (at_fd fd (fds p)) s :: run w p k
  end.

(** ** The specification *)

(** A fork: the events of the child and of the parent, or a message and the end. *)
Definition forked (w : world) (p : process) (c k : list event) : list event :=
  if w_fork w (pid p) (forks p) then c ++ k else [Printed (at_fd 2 (fds p)) (str "fork" ++ [10])].

(** The programs of a command, with the descriptors that the command gives
    them: a redirection replaces the descriptor, a pipe connects descriptor 1
    of its left side to descriptor 0 of its right side, and nothing else
    changes.  The right side of a list starts when the left one has been waited
    for, both sides of a pipe are waited for by a process that has closed the
    pipe, and a command in the background is not waited for.  A call that fails
    gives a message. *)
Fixpoint plumb (w : world) (p : process) (c : cmd (list Z)) : list event :=
  match c with
  | EXEC [] => []
  | EXEC ((path :: _) as argv) =>
      if w_exec w (cwd p) path then [Launched (cwd p) argv (fds p)]
      else [Printed (at_fd 2 (fds p)) (str "exec " ++ path ++ str " failed" ++ [10])]
  | REDIR c file mode fd =>
      if w_open w (cwd p) file mode then plumb w (set_fds (insert (Z.to_nat fd) (Some (Opened file mode))) p) c
      else [Printed (at_fd 2 (fds p)) (str "open " ++ file ++ str " failed" ++ [10])]
  | LIST l r => forked w p (plumb w (child p) l) (Waited (pid p) (fds p) :: plumb w (parent p) r)
  | PIPE l r =>
      let p' := piped p in
      if w_pipe w (pid p) (pipes p) then
        forked w p' (plumb w (set_fds (insert 1%nat (Some (WriteEnd (pid p) (pipes p)))) (child p')) l)
          (forked w (parent p') (plumb w (set_fds (insert 0%nat (Some (ReadEnd (pid p) (pipes p)))) (child (parent p'))) r)
            [Waited (pid p) (fds p); Waited (pid p) (fds p)])
      else [Printed (at_fd 2 (fds p)) (str "pipe" ++ [10])]
  | BACK c => forked w p (plumb w (child p) c) []
  end.

(** ** Descriptor tables *)

(** Descriptors 0, 1 and 2 are open, and two others are free. *)
Definition std (t : fdtable) : Prop :=
  (∃ a b c t', t = Some a :: Some b :: Some c :: t') ∧
  ∃ i j, lowest t = Some i ∧ ∀ d, lowest (<[i := Some d]> t) = Some j.

Lemma lowest_free t i : lowest t = Some i → t !! i = Some None.
Proof.
  revert i. induction t as [|[d|] t IH]; intros i; simpl; [done| |by intros [= <-]].
  destruct (lowest t) as [k|]; [|done]. intros [= <-]. by apply IH.
Qed.

Lemma lowest_insert_open t i d e : t !! i = Some (Some e) → lowest (<[i := Some d]> t) = lowest t.
Proof.
  revert i. induction t as [|[x|] t IH]; intros [|i]; simpl; try done. intros H. by rewrite IH.
Qed.

Lemma std_insert t i d : std t → (i < 2)%nat → std (<[i := Some d]> t).
Proof.
  intros [(a & b & c & t' & ->) (k & j & Hk & Hj)] Hi.
  assert (∃ e, (Some a :: Some b :: Some c :: t') !! i = Some (Some e)) as [e He] by (destruct i as [|[|[]]]; [by eexists..|lia]).
  split; [destruct i as [|[|[]]]; simpl; [by repeat eexists..|lia]|]. exists k, j. split; [by erewrite lowest_insert_open|].
  intros d'. assert (k ≠ i) by (intros ->; apply lowest_free in Hk; congruence).
  rewrite list_insert_insert_ne by done. erewrite lowest_insert_open; [apply Hj|].
  by rewrite list_lookup_insert_ne by done.
Qed.

Lemma close_pipe (t : fdtable) i j a b : i ≠ j → t !! i = Some None → t !! j = Some None →
  <[j := None]> (<[i := None]> (<[j := Some b]> (<[i := Some a]> t))) = t.
Proof.
  intros Hij Hi Hj. rewrite (list_insert_insert_ne _ i j), !list_insert_insert_eq by done.
  rewrite (list_insert_id t i) by done. by apply list_insert_id.
Qed.

(** What a child of a pipe has, after it has moved an end of the pipe to the
    descriptor [k] and closed both ends. *)
Lemma child_fds (t : fdtable) i j k a b d : i ≠ j → k ≠ i → k ≠ j → t !! i = Some None → t !! j = Some None →
  <[j := None]> (<[i := None]> (<[k := Some d]> (<[k := None]> (<[j := Some b]> (<[i := Some a]> t))))) = <[k := Some d]> t.
Proof.
  intros Hij Hki Hkj Hi Hj. rewrite list_insert_insert_eq.
  rewrite (list_insert_insert_ne _ i k), (list_insert_insert_ne _ j k) by done. f_equal. by apply close_pipe.
Qed.

Lemma lowest_close t i : std t → (i < 2)%nat → lowest (<[i := None]> t) = Some i.
Proof. intros [(a & b & c & t' & ->) _] Hi. by destruct i as [|[|[]]]; [..|lia]. Qed.

Lemma std_pipe t : std t → ∃ i j, i ≠ j ∧ (3 <= i)%nat ∧ (3 <= j)%nat ∧ t !! i = Some None ∧ t !! j = Some None ∧
  lowest t = Some i ∧ ∀ d, lowest (<[i := Some d]> t) = Some j.
Proof.
  intros [(a & b & c & t' & ->) (i & j & Hi & Hj)]. exists i, j. pose proof (lowest_free _ _ Hi) as Fi.
  pose proof (lowest_free _ _ (Hj a)) as Fj.
  assert (i ≠ j) by (intros ->; rewrite list_lookup_insert_eq in Fj by (by eapply lookup_lt_Some); done).
  rewrite list_lookup_insert_ne in Fj by done.
  split_and!; try done; [destruct i as [|[|[|]]]|destruct j as [|[|[|]]]]; simpl in *; done || lia.
Qed.

Section plumbing.
Context (w : world).

Lemma run_fork1 p a b : run w p (fork1 a b) = forked w p (run w (child p) a) (run w (parent p) b).
Proof. unfold fork1, forked. cbn [run]. by destruct (w_fork _ _ _). Qed.

(** A message of a process that holds a pipe. *)
Lemma forked_fds p q c k : pid q = pid p → forks q = forks p → at_fd 2 (fds q) = at_fd 2 (fds p) → forked w q c k = forked w p c k.
Proof. unfold forked. by intros -> -> ->. Qed.

(** One side of a pipe: [e] is the end that it uses. *)
Lemma run_pipe_side q t i j k e a b d body : std t → i ≠ j → (3 <= i)%nat → (3 <= j)%nat →
  t !! i = Some None → t !! j = Some None → (k < 2)%nat → (3 <= e)%nat →
  fds q = <[j := Some b]> (<[i := Some a]> t) → fds q !! e = Some (Some d) →
  run w q (Close (Z.of_nat k) (Dup (Z.of_nat e) (λ _, Close (Z.of_nat i) (Close (Z.of_nat j) body)))) =
  run w (set_fds (λ _, <[k := Some d]> t) q) body.
Proof.
  intros Ht Hij Hi Hj Fi Fj Hk He Hq Hd. cbn [run]. unfold set_fds, closed_fd, at_fd. simpl.
  replace (Z.of_nat k <? 0) with false by lia. replace (Z.of_nat e <? 0) with false by lia.
  replace (Z.of_nat i <? 0) with false by lia. replace (Z.of_nat j <? 0) with false by lia.
  rewrite !Nat2Z.id, list_lookup_insert_ne, Hd by lia. simpl.
  replace (lowest (<[k := None]> (fds q))) with (Some k).
  - simpl. rewrite Hq, child_fds by (done || lia). done.
  - rewrite Hq. destruct Ht as [(x & y & z & t' & ->) _].
    destruct i as [|[|[|i]]], j as [|[|[|j]]]; try lia. by destruct k as [|[|[]]]; [..|lia].
Qed.

Lemma run_plumb c : ∀ p, cmd_ok (λ _, True) c → std (fds p) → run w p (runcmd c) = plumb w p c.
Proof.
  induction c as [argv|c IH file mode fd|l IHl r IHr|l IHl r IHr|c IH]; intros p Hc Ht.
  - destruct argv; simpl; [done|]. by destruct (w_exec _ _ _).
  - destruct Hc as (Hc & _ & Hfd). assert (∃ k, (k < 2)%nat ∧ fd = Z.of_nat k) as (k & Hk & ->).
    { destruct Hfd as [[_ ->]|[_ ->]]; [exists 0%nat|exists 1%nat]; lia. }
    cbn [runcmd run plumb]. unfold set_fds at 1, closed_fd. cbn [fds].
    replace (Z.of_nat k <? 0) with false by lia. rewrite Nat2Z.id, lowest_close by done. cbn [cwd set_fds fds].
    destruct (w_open w (cwd p) file mode); cbn [Z.ltb Z.compare].
    + replace (Z.of_nat k <? 0) with false by lia. rewrite IH; simpl; [|done|].
      * unfold set_fds. simpl. by rewrite list_insert_insert_eq.
      * rewrite list_insert_insert_eq. by apply std_insert.
    + cbn [run]. unfold at_fd. simpl. rewrite list_lookup_insert_ne by lia. done.
  - destruct (std_pipe _ Ht) as (i & j & Hij & Hi & Hj & Fi & Fj & Li & Lj). cbn [runcmd run plumb].
    rewrite Li, Lj. destruct (w_pipe w (pid p) (pipes p)); [|done]. rewrite !run_fork1.
    assert (length (fds p) > j)%nat by (by eapply lookup_lt_Some). assert (length (fds p) > i)%nat by (by eapply lookup_lt_Some).
    rewrite (run_pipe_side _ (fds p) i j 1 j (ReadEnd (pid p) (pipes p)) (WriteEnd (pid p) (pipes p)) (WriteEnd (pid p) (pipes p)))
      by (done || lia || apply list_lookup_insert_eq; by rewrite length_insert).
    rewrite (run_pipe_side _ (fds p) i j 0 i (ReadEnd (pid p) (pipes p)) (WriteEnd (pid p) (pipes p)) (ReadEnd (pid p) (pipes p)))
      by (done || lia || simpl; rewrite list_lookup_insert_ne by done; by apply list_lookup_insert_eq).
    rewrite IHl, IHr by (apply Hc || (apply std_insert; [done|lia])). cbn [run]. unfold closed_fd.
    replace (Z.of_nat i <? 0) with false by lia. replace (Z.of_nat j <? 0) with false by lia. rewrite !Nat2Z.id. cbn [fds set_fds parent piped pid].
    rewrite close_pipe by done. assert (at_fd 2 (<[j := Some (WriteEnd (pid p) (pipes p))]> (<[i := Some (ReadEnd (pid p) (pipes p))]> (fds p))) = at_fd 2 (fds p)) as E2.
    { unfold at_fd. change (Z.to_nat 2) with 2%nat. rewrite !list_lookup_insert_ne by lia. done. }
    rewrite (forked_fds (piped p)) by done. f_equal. by rewrite (forked_fds (parent (piped p))).
  - cbn [runcmd plumb]. rewrite run_fork1. cbn [run]. by rewrite IHl, IHr by (done || apply Hc).
  - cbn [runcmd plumb]. rewrite run_fork1. cbn [run]. by rewrite IH.
Qed.
End plumbing.

(** ** A session *)

(** A line: a command, or a cd of the shell itself. *)
Inductive line := Command (c : cmd (list Z)) | Cd (path : list Z).

Definition line_text (l : line) : list Z := match l with Command c => text 3 c | Cd path => str "cd " ++ path end.
Definition input_of (ls : list line) : list Z := concat (map (λ l, line_text l ++ [10]) ls).

(** The shell prompts, runs each command in a child for which it waits, changes its
    directory itself, and ends with the input or when it cannot fork. *)
Fixpoint session (w : world) (p : process) (ls : list line) : list event :=
  Printed (at_fd 2 (fds p)) (str "$ ") ::
  match ls with
  | [] => []
  | Command c :: ls => forked w p (plumb w (child p) c) (Waited (pid p) (fds p) :: session w (parent p) ls)
  | Cd path :: ls =>
      if w_chdir w (cwd p) path then session w (moved path p) ls
      else Printed (at_fd 2 (fds p)) (str "cannot cd " ++ path ++ [10]) :: session w p ls
  end.

(** A line that fits in the buffer of 100 characters; a command is not taken for a
    cd, and a directory name has no end of line. *)
Definition typable (l : line) : Prop := (length (line_text l) <= 98)%nat ∧
  match l with
  | Command c => printable c ∧ take 3 (text 3 c) ≠ [99; 100; 32]
  | Cd path => Forall (λ c, c ≠ 0 ∧ (c =? 10) || (c =? 13) = false) path
  end.

Lemma gets_line s rest : ∀ room, Forall (λ c, (c =? 10) || (c =? 13) = false) s → (length s < room)%nat →
  gets_loop room (map Some (s ++ 10 :: rest)) = s ++ [10].
Proof.
  induction s as [|c s IH]; intros [|room] Hs Hr; simpl in Hr; try lia; [done|].
  apply Forall_cons in Hs as [Hc Hs]. simpl. rewrite Hc. f_equal. apply IH; [done|lia].
Qed.

Lemma cstring_nul s : Forall (λ c, c ≠ 0) s → cstring s = s.
Proof. induction 1 as [|c s Hc Hs IH]; simpl; [done|]. rewrite IH. by destruct (c =? 0) eqn:E; [lia|]. Qed.

Lemma not_cd s : take 3 s ≠ [99; 100; 32] →
  (nth 0 (s ++ [10]) 0 =? 99) && (nth 1 (s ++ [10]) 0 =? 100) && (nth 2 (s ++ [10]) 0 =? 32) = false.
Proof.
  intros H. apply not_true_iff_false. intros E. destruct s as [|a [|b [|c s]]]; simpl in E, H; try lia.
  apply H. repeat f_equal; lia.
Qed.

(** The characters of a line. *)
Lemma line_chars l : typable l → Forall (λ c, c ≠ 0) (line_text l) ∧ Forall (λ c, (c =? 10) || (c =? 13) = false) (line_text l).
Proof.
  intros [_ Hl]. destruct l as [c|path]; cbn [line_text].
  - split; [apply text_nul, Hl|apply text_newline, Hl].
  - apply Forall_and in Hl as [H0 H1]. split; (apply Forall_app; split; [by repeat constructor|done]).
Qed.

Lemma getcmd_text l rest : typable l → getcmd ((line_text l ++ [10]) ++ rest) = (Some (line_text l ++ [10]), rest).
Proof.
  intros Hl. destruct (line_chars l Hl) as [H0 H1]. destruct Hl as [Hl _]. unfold getcmd, LINESIZE. rewrite <- app_assoc. simpl app.
  rewrite gets_line by (lia || done). f_equal.
  - destruct (line_text l) as [|x s]; [done|]. apply Forall_cons in H0 as [H0 _].
    simpl. by destruct (x =? 0) eqn:E; [lia|].
  - change (10 :: rest) with ([10] ++ rest). rewrite app_assoc. apply drop_app_length.
Qed.

Section sessions.
Context (w : world).

Lemma run_session ls : ∀ fuel p, (length (input_of ls) < fuel)%nat → Forall typable ls → std (fds p) →
  run w p (main_loop fuel (input_of ls)) = session w p ls.
Proof.
  induction ls as [|l ls IH]; intros [|fuel] p Hf Hls Hp; try lia; cbn [main_loop run session]; f_equal.
  apply Forall_cons in Hls as [Hl Hls]. change (input_of (l :: ls)) with ((line_text l ++ [10]) ++ input_of ls) in *.
  rewrite getcmd_text by done. destruct (line_chars l Hl) as [H0 _]. rewrite !length_app in Hf. simpl in Hf.
  assert (Forall (λ c, c ≠ 0) (line_text l ++ [10])) as H0' by (apply Forall_app; split; [done|by repeat constructor]).
  rewrite cstring_nul by done. destruct l as [c|path]; cbn [line_text] in *.
  - destruct Hl as (Hl & Hc & Hcd). rewrite not_cd, run_fork1 by done. cbn [run]. rewrite IH by (done || lia).
    f_equal. unfold run_line. rewrite parse_text by (done || by repeat constructor).
    apply run_plumb; [|done]. eapply cmd_ok_impl; [|done]. done.
  - assert (removelast ((str "cd " ++ path) ++ [10]) = str "cd " ++ path) as -> by apply removelast_last.
    change (drop 3 (str "cd " ++ path)) with path.
    match goal with |- run w p (if ?b then _ else _) = _ => change b with true end. cbv iota. cbn [run].
    destruct (w_chdir w (cwd p) path); cbn [Z.ltb Z.compare run]; [|f_equal]; apply IH; (done || lia).
Qed.

(** What open("console") gives to a missing descriptor. *)
Definition console_desc : desc := Opened (str "console") 2.

(** One round of the loop: it fills a missing descriptor, or leaves. *)
Lemma console_round q m fuel k : (∀ d, w_open w d (str "console") 2 = true) → lowest (fds q) = Some m →
  run w q (open_console (S fuel) k) =
  if (3 <=? m)%nat then run w q k else run w (set_fds (insert m (Some console_desc)) q) (open_console fuel k).
Proof.
  intros Hopen Hm. cbn [open_console run]. rewrite Hm, Hopen. replace (_ <? 0) with false by lia.
  destruct (3 <=? m)%nat eqn:E; [|by replace (3 <=? Z.of_nat m) with false by lia].
  replace (3 <=? Z.of_nat m) with true by lia. cbn [run]. unfold set_fds, closed_fd. simpl.
  replace (_ <? 0) with false by lia. rewrite Nat2Z.id, list_insert_insert_eq, list_insert_id by (by apply lowest_free).
  by destruct q.
Qed.

Lemma run_console k p a b c t : fds p = a :: b :: c :: t → (∀ d, w_open w d (str "console") 2 = true) →
  let t' := Some (default console_desc a) :: Some (default console_desc b) :: Some (default console_desc c) :: t in
  std t' → run w p (open_console 4 k) = run w (set_fds (λ _, t') p) k.
Proof.
  intros Hp Hopen t' [_ (i & j & Hi & _)].
  assert (∃ n, lowest t = Some n) as [n Hn] by (revert Hi; simpl; destruct (lowest t); [by eexists|done]).
  destruct p as [pd f np dir tb]. simpl in Hp. subst tb. clear Hi. unfold t'.
  destruct a as [a|], b as [b|], c as [c|];
    repeat (erewrite console_round by (done || (simpl; rewrite ?Hn; reflexivity)); simpl Nat.leb; cbn iota); done.
Qed.

(** C28. A session: when the console can be opened and each line of the input is the
    text of a command, or a cd, that fits in the shell's buffer, then the shell runs each
    command in a child whose programs have the descriptors that the command asks for
    and no others, and waits for it and for the parts of lists and pipes as [plumb] says,
    with the ends of the pipes closed; cd is done by the shell itself.  Calls of fork, pipe,
    open, exec and chdir may fail, with the message of the shell; whatever descriptors 0
    to 2 were missing at the start are the console. *)
Theorem shell_runs_lines (ls : list line) (p : process) (a b c : option desc) (t : fdtable) :
  fds p = a :: b :: c :: t → (∀ d, w_open w d (str "console") 2 = true) → Forall typable ls →
  let t' := Some (default console_desc a) :: Some (default console_desc b) :: Some (default console_desc c) :: t in
  std t' → run w p (main (input_of ls)) = session w (set_fds (λ _, t') p) ls.
Proof.
  intros Hp Hopen Hls t' Ht. unfold main. rewrite (run_console _ _ a b c t) by done. by apply run_session; [lia|..].
Qed.
End sessions.

(** "echo hi | cat >f", "cd d" and "ls" at a shell that was started with descriptors 0
    and 1 open. *)
Lemma shell_runs_lines_witness :
  let w := mkWorld (λ _ _ _, true) (λ _ _, true) (λ _ _, true) (λ _ _, true) (λ _ _, true) in
  let p := mkProcess [] 0 0 [] ([Some (Inherited 0); Some (Inherited 1)] ++ replicate 14 None) in
  run w p (main (input_of
    [Command (PIPE (EXEC [[101; 99; 104; 111]; [104; 105]]) (REDIR (EXEC [[99; 97; 116]]) [102] O_CREATED 1)); Cd [100]; Command (EXEC [[108; 115]])])) =
  let t := [Some (Inherited 0); Some (Inherited 1); Some console_desc] ++ replicate 13 None in
  [ Printed (Some console_desc) [36; 32];
    Launched [] [[101; 99; 104; 111]; [104; 105]] (<[1%nat := Some (WriteEnd [0%nat] 0)]> t);
    Launched [] [[99; 97; 116]] (<[1%nat := Some (Opened [102] O_CREATED)]> (<[0%nat := Some (ReadEnd [0%nat] 0)]> t));
    Waited [0%nat] t; Waited [0%nat] t; Waited [] t;
    Printed (Some console_desc) [36; 32];
    Printed (Some console_desc) [36; 32];
    Launched [[100]] [[108; 115]] t; Waited [] t;
    Printed (Some console_desc) [36; 32] ].
Proof.
  intros w p. etrans.
  - apply (shell_runs_lines w _ p (Some (Inherited 0)) (Some (Inherited 1)) None (replicate 13 None)); [done|done| |].
    + repeat (apply Forall_cons; split); [..|by apply Forall_nil]; (split; [vm_compute; lia|]).
      2: by repeat constructor.
      all: split; [|done]; unfold word; cbn [cmd_ok length];
        repeat (split_and! || apply Forall_cons || apply Forall_nil); first [lia|by apply Nat.ltb_lt|discriminate|done|by left|by right].
    + split; [by repeat eexists|]. by exists 3%nat, 4%nat.
  - vm_compute. reflexivity.
Defined.
