(* ===== verification/Vm.v ===== *)
(** * Virtual memory (vm.c)

    Page directories and page tables are words of kernel memory, and the
    operations walk and change them there.  The addresses [end] and [data] are
    set by the linker. *)

From stdpp Require Import base numbers option list strings.
From Stdlib Require Import ZArith Lia ZifyBool.
From S2P Require Import Prelude Bytes CString Kalloc.
Import Kalloc.
Local Open Scope Z_scope.

Module Vm.

(** ** Page tables (mmu.h) *)

Definition PDXSHIFT : Z := 22.
Definition PTXSHIFT : Z := 12.
Definition NPDENTRIES : Z := 1024.
Definition NPTENTRIES : Z := 1024.
Definition PDX (va : Z) : Z := Z.land (Z.shiftr va PDXSHIFT) 1023.
Definition PTX (va : Z) : Z := Z.land (Z.shiftr va PTXSHIFT) 1023.
Definition PTE_P : Z := 1.
Definition PTE_W : Z := 2.
Definition PTE_U : Z := 4.
Definition PTE_ADDR (pte : Z) : Z := Z.land pte (Z.lnot 4095).
Definition PTE_FLAGS (pte : Z) : Z := Z.land pte 4095.

Definition load (a : Z) : kM kmem Z := gets (λ s, load32 (km_mem s) a).
Definition store (a v : Z) : kM kmem unit := modify (set_mem (store32 a v)).
Definition memset (a c n : Z) : kM kmem unit := modify (set_mem (CString.memset a c n)).

(** The bytes [v] stored at [a]. *)
Definition store_bytes (a : Z) (v : bytes) (m : CString.mem) : CString.mem :=
  λ x, if (a <=? x) && (x <? a + Z.of_nat (length v)) then v !!! Z.to_nat (x - a) else m x.

Record kmap := mkKmap { k_virt : Z; k_phys_start : Z; k_phys_end : Z; k_perm : Z }.

Section vm.
Variables kend data : Z.

(** The address of the page-table entry, 0 if there is none. *)
Definition walkpgdir (pgdir va : Z) (alloc : bool) : kM kmem Z :=
  let pde := pgdir + 4 * PDX va in
  e ← load pde;
  if flag e PTE_P then mret (p2v (PTE_ADDR e) + 4 * PTX va)
  else if negb alloc then mret 0
  else
    pgtab ← kalloc;
    if pgtab =? 0 then mret 0
    else
      _ ← memset pgtab 0 PGSIZE;
      _ ← store pde (Z.lor (Z.lor (Z.lor (v2p pgtab) PTE_P) PTE_W) PTE_U);
      mret (pgtab + 4 * PTX va).

(** [for(;;)] with [a] going to [last] in steps of a page, [n] pages left. *)
Fixpoint mappages_loop (n : nat) (pgdir a last pa perm : Z) : kM kmem Z :=
  match n with
  | O => panic "mappages: loop bound"
  | S n' =>
      pte ← walkpgdir pgdir a true;
      if pte =? 0 then mret (-1)
      else
        e ← load pte;
        if flag e PTE_P then panic "remap"
        else
          _ ← store pte (Z.lor (Z.lor pa perm) PTE_P);
          if a =? last then mret 0
          else mappages_loop n' pgdir (u32 (a + PGSIZE)) last (u32 (pa + PGSIZE)) perm
  end.

Definition mappages (pgdir va size pa perm : Z) : kM kmem Z :=
  let a := PGROUNDDOWN va in
  let last := PGROUNDDOWN (u32 (va + size - 1)) in
  mappages_loop (Z.to_nat (u32 (last - a) / PGSIZE + 1)) pgdir a last pa perm.

Definition kmaps : list kmap := [
  mkKmap KERNBASE 0 EXTMEM PTE_W;
  mkKmap KERNLINK (v2p KERNLINK) (v2p data) 0;
  mkKmap data (v2p data) PHYSTOP PTE_W;
  mkKmap DEVSPACE DEVSPACE 0 PTE_W
].

Fixpoint setupkvm_loop (pgdir : Z) (l : list kmap) : kM kmem Z :=
  match l with
  | [] => mret pgdir
  | k :: l' =>
      r ← mappages pgdir (k_virt k) (u32 (k_phys_end k - k_phys_start k)) (k_phys_start k) (k_perm k);
      if r <? 0 then mret 0 else setupkvm_loop pgdir l'
  end.

Definition setupkvm : kM kmem Z :=
  pgdir ← kalloc;
  if pgdir =? 0 then mret 0
  else
    _ ← memset pgdir 0 PGSIZE;
    if DEVSPACE <? p2v PHYSTOP then panic "PHYSTOP too high"
    else setupkvm_loop pgdir kmaps.

(** [init] is the [sz] bytes at the source. *)
Definition inituvm (pgdir : Z) (init : bytes) : kM kmem unit :=
  if PGSIZE <=? Z.of_nat (length init) then panic "inituvm: more than a page"
  else
    mem ← kalloc;
    _ ← memset mem 0 PGSIZE;
    _ ← mappages pgdir 0 PGSIZE (v2p mem) (Z.lor PTE_W PTE_U);
    modify (set_mem (store_bytes mem init)).

(** [for(; a < oldsz; a += PGSIZE)], at most [n] pages. *)
Fixpoint deallocuvm_loop (n : nat) (pgdir a oldsz : Z) : kM kmem unit :=
  if a <? oldsz then
    match n with
    | O => panic "deallocuvm: loop bound"
    | S n' =>
        pte ← walkpgdir pgdir a false;
        if pte =? 0 then
          deallocuvm_loop n' pgdir (u32 (u32 (a + (NPTENTRIES - 1) * PGSIZE) + PGSIZE)) oldsz
        else
          e ← load pte;
          if flag e PTE_P then
            let pa := PTE_ADDR e in
            if pa =? 0 then panic "kfree"
            else
              _ ← kfree kend (p2v pa);
              _ ← store pte 0;
              deallocuvm_loop n' pgdir (u32 (a + PGSIZE)) oldsz
          else deallocuvm_loop n' pgdir (u32 (a + PGSIZE)) oldsz
    end
  else mret tt.

Definition deallocuvm (pgdir oldsz newsz : Z) : kM kmem Z :=
  if oldsz <=? newsz then mret oldsz
  else
    _ ← deallocuvm_loop (Z.to_nat (oldsz / PGSIZE + 1)) pgdir (PGROUNDUP newsz) oldsz;
    mret newsz.

(** The result is false when memory runs out. *)
Fixpoint allocuvm_loop (n : nat) (pgdir a newsz : Z) : kM kmem bool :=
  if a <? newsz then
    match n with
    | O => panic "allocuvm: loop bound"
    | S n' =>
        mem ← kalloc;
        if mem =? 0 then mret false
        else
          _ ← memset mem 0 PGSIZE;
          _ ← mappages pgdir a PGSIZE (v2p mem) (Z.lor PTE_W PTE_U);
          allocuvm_loop n' pgdir (u32 (a + PGSIZE)) newsz
    end
  else mret true.

Definition allocuvm (pgdir oldsz newsz : Z) : kM kmem Z :=
  if KERNBASE <=? newsz then mret 0
  else if newsz <? oldsz then mret oldsz
  else
    ok ← allocuvm_loop (Z.to_nat (newsz / PGSIZE + 1)) pgdir (PGROUNDUP oldsz) newsz;
    if negb ok then _ ← deallocuvm pgdir newsz oldsz; mret 0
    else mret newsz.

Definition freevm (pgdir : Z) : kM kmem unit :=
  if pgdir =? 0 then panic "freevm: no pgdir"
  else
    _ ← deallocuvm pgdir KERNBASE 0;
    _ ← kfor (Z.to_nat NPDENTRIES) 0 (λ i,
          e ← load (pgdir + 4 * i);
          if flag e PTE_P then kfree kend (p2v (PTE_ADDR e)) else mret tt);
    kfree kend pgdir.

Definition clearpteu (pgdir uva : Z) : kM kmem unit :=
  pte ← walkpgdir pgdir uva false;
  if pte =? 0 then panic "clearpteu"
  else
    e ← load pte;
    store pte (Z.land e (Z.lnot PTE_U)).

(** The result is false at the label [bad]. *)
Fixpoint copyuvm_loop (n : nat) (pgdir d i sz : Z) : kM kmem bool :=
  if i <? sz then
    match n with
    | O => panic "copyuvm: loop bound"
    | S n' =>
        pte ← walkpgdir pgdir i false;
        if pte =? 0 then panic "copyuvm: pte should exist"
        else
          e ← load pte;
          if negb (flag e PTE_P) then panic "copyuvm: page not present"
          else
            mem ← kalloc;
            if mem =? 0 then mret false
            else
              _ ← modify (set_mem (CString.memmove mem (p2v (PTE_ADDR e)) PGSIZE));
              r ← mappages d i PGSIZE (v2p mem) (PTE_FLAGS e);
              if r <? 0 then mret false
              else copyuvm_loop n' pgdir d (u32 (i + PGSIZE)) sz
    end
  else mret true.

Definition copyuvm (pgdir sz : Z) : kM kmem Z :=
  d ← setupkvm;
  if d =? 0 then mret 0
  else
    ok ← copyuvm_loop (Z.to_nat (sz / PGSIZE + 1)) pgdir d 0 sz;
    if negb ok then _ ← freevm d; mret 0
    else mret d.

Definition uva2ka (pgdir uva : Z) : kM kmem Z :=
  pte ← walkpgdir pgdir uva false;
  e ← load pte;
  if negb (flag e PTE_P) then mret 0
  else if negb (flag e PTE_U) then mret 0
  else mret (p2v (PTE_ADDR e)).

(** [buf] is the rest of the bytes to copy, [len] of them. *)
Fixpoint copyout_loop (n : nat) (pgdir va : Z) (buf : bytes) : kM kmem Z :=
  if 0 <? Z.of_nat (length buf) then
    match n with
    | O => panic "copyout: loop bound"
    | S n' =>
        let va0 := PGROUNDDOWN va in
        pa0 ← uva2ka pgdir va0;
        if pa0 =? 0 then mret (-1)
        else
          let k := Z.min (PGSIZE - (va - va0)) (Z.of_nat (length buf)) in
          _ ← modify (set_mem (store_bytes (pa0 + (va - va0)) (take (Z.to_nat k) buf)));
          copyout_loop n' pgdir (u32 (va0 + PGSIZE)) (drop (Z.to_nat k) buf)
    end
  else mret 0.

Definition copyout (pgdir va : Z) (buf : bytes) : kM kmem Z :=
  copyout_loop (length buf) pgdir va buf.
End vm.
End Vm.
