(* ===== verification/VmProofs.v ===== *)
(** * Page tables: proofs (vm.c)

    The mapping that a page directory in memory stands for, and what
    [walkpgdir] and [mappages] do to it. *)

From stdpp Require Import base numbers option list sets strings.
From Stdlib Require Import ZArith Lia ZifyBool.
From S2P Require Import Prelude Bytes CString Kalloc Vm.
Import Kalloc Vm.
Local Open Scope Z_scope.

(** ** Page-table entries *)

Lemma land_1023 a : Z.land a 1023 = a mod 1024.
Proof. change 1023 with (Z.ones 10). by rewrite Z.land_ones by lia. Qed.

Lemma PDX_eq va : PDX va = va / 2 ^ 22 mod 1024.
Proof. unfold PDX, PDXSHIFT. by rewrite land_1023, Z.shiftr_div_pow2 by lia. Qed.
Lemma PTX_eq va : PTX va = va / 2 ^ 12 mod 1024.
Proof. unfold PTX, PTXSHIFT. by rewrite land_1023, Z.shiftr_div_pow2 by lia. Qed.
Lemma PDX_range va : 0 ≤ PDX va < 1024.
Proof. rewrite PDX_eq. apply Z.mod_pos_bound. lia. Qed.
Lemma PTX_range va : 0 ≤ PTX va < 1024.
Proof. rewrite PTX_eq. apply Z.mod_pos_bound. lia. Qed.

(** Two addresses have the same entry exactly when they are on the same page. *)
Lemma same_entry va va' : 0 ≤ va < 2 ^ 32 → 0 ≤ va' < 2 ^ 32 →
  PDX va = PDX va' ∧ PTX va = PTX va' ↔ va / PGSIZE = va' / PGSIZE.
Proof.
  intros H H'. rewrite !PDX_eq, !PTX_eq. unfold PGSIZE.
  rewrite !(Z.mod_small (_ / 2 ^ 22)) by (split; [apply Z.div_pos|apply Z.div_lt_upper_bound]; lia).
  change (2 ^ 22) with (2 ^ 12 * 1024). rewrite <- !Z.div_div by lia. change (2 ^ 12) with 4096.
  split; [|by intros ->]. intros [E1 E2].
  pose proof (Z.div_mod (va / 4096) 1024 ltac:(lia)). pose proof (Z.div_mod (va' / 4096) 1024 ltac:(lia)). lia.
Qed.

Lemma PTE_ADDR_eq e : PTE_ADDR e = e - e mod PGSIZE.
Proof. apply PGROUNDDOWN_eq. Qed.

Lemma PTE_FLAGS_eq e : PTE_FLAGS e = e mod PGSIZE.
Proof. unfold PTE_FLAGS. change 4095 with (Z.ones 12). by rewrite Z.land_ones by lia. Qed.

(** An entry is a page address and low bits. *)
Lemma lor_low a p : a mod PGSIZE = 0 → 0 ≤ p < PGSIZE → Z.lor a p = a + p.
Proof.
  intros Ha Hp. rewrite <- Z.add_lor_land.
  assert (Z.land a p = 0) as ->; [|lia]. apply Z.bits_inj'. intros n Hn. rewrite Z.land_spec, Z.bits_0.
  destruct (Z.lt_ge_cases n 12).
  - replace a with (a / 2 ^ 12 * 2 ^ 12).
    + by rewrite Z.mul_pow2_bits_low.
    + unfold PGSIZE in Ha. pose proof (Z.div_mod a 4096 ltac:(lia)). change (2 ^ 12) with 4096. lia.
  - destruct (decide (p = 0)) as [->|]; [by rewrite Z.bits_0, andb_false_r|].
    rewrite (Z.bits_above_log2 p), andb_false_r; [done|lia|].
    apply Z.log2_lt_pow2; [lia|]. unfold PGSIZE in Hp.
    apply Z.lt_le_trans with (2 ^ 12); [lia|]. apply Z.pow_le_mono_r; lia.
Qed.

Definition entry (pa perm : Z) : Z := Z.lor (Z.lor pa perm) PTE_P.

Lemma lor_bound a b n : 0 ≤ n → 0 ≤ a < 2 ^ n → 0 ≤ b < 2 ^ n → 0 ≤ Z.lor a b < 2 ^ n.
Proof.
  intros Hn Ha Hb. split; [apply Z.lor_nonneg; lia|].
  destruct (decide (Z.lor a b = 0)) as [->|H0]; [lia|].
  assert (0 ≤ Z.lor a b) by (apply Z.lor_nonneg; lia).
  apply Z.log2_lt_pow2; [lia|]. rewrite Z.log2_lor by lia.
  destruct (decide (a = 0)), (decide (b = 0)); subst; [done|..].
  - rewrite Z.max_r by apply Z.log2_nonneg. apply Z.log2_lt_pow2; lia.
  - rewrite Z.max_l by apply Z.log2_nonneg. apply Z.log2_lt_pow2; lia.
  - apply Z.max_lub_lt; apply Z.log2_lt_pow2; lia.
Qed.

Lemma entry_eq pa perm : pa mod PGSIZE = 0 → 0 ≤ perm < PGSIZE →
  entry pa perm = pa + Z.lor perm 1 ∧ 0 ≤ Z.lor perm 1 < PGSIZE.
Proof.
  intros Ha Hp. unfold entry, PTE_P. rewrite <- Z.lor_assoc.
  assert (0 ≤ Z.lor perm 1 < PGSIZE) as H by (apply (lor_bound perm 1 12); unfold PGSIZE in *; lia).
  by rewrite lor_low.
Qed.

Lemma entry_addr pa perm : pa mod PGSIZE = 0 → 0 ≤ perm < PGSIZE → PTE_ADDR (entry pa perm) = pa.
Proof.
  intros Ha Hp. destruct (entry_eq pa perm Ha Hp) as [-> H]. rewrite PTE_ADDR_eq.
  rewrite Z.add_mod, Ha by (unfold PGSIZE; lia). simpl.
  rewrite !(Z.mod_small (Z.lor perm 1)) by done. lia.
Qed.

Lemma entry_flags pa perm : pa mod PGSIZE = 0 → 0 ≤ perm < PGSIZE → PTE_FLAGS (entry pa perm) = Z.lor perm 1.
Proof.
  intros Ha Hp. destruct (entry_eq pa perm Ha Hp) as [-> H]. rewrite PTE_FLAGS_eq.
  rewrite Z.add_mod, Ha by (unfold PGSIZE; lia). simpl.
  by rewrite !(Z.mod_small (Z.lor perm 1)) by done.
Qed.

Lemma entry_present pa perm : flag (entry pa perm) PTE_P = true.
Proof.
  unfold entry, PTE_P. change 1 with (2 ^ 0). rewrite flag_testbit, Z.lor_spec by lia.
  rewrite Z.pow2_bits_true by lia. apply orb_true_r.
Qed.

Lemma entry_range pa perm : pa mod PGSIZE = 0 → 0 ≤ pa < 2 ^ 32 → 0 ≤ perm < PGSIZE → 0 ≤ entry pa perm < 2 ^ 32.
Proof.
  intros Ha Hpa Hp. destruct (entry_eq pa perm Ha Hp) as [-> H].
  unfold PGSIZE in *. Z.div_mod_to_equations. lia.
Qed.

(** ** The mapping of a page directory *)

Section pt.
Variable kend : Z.
Hypothesis Hend : KERNBASE ≤ kend.
Implicit Types (m : CString.mem) (l : list Z) (pgdir va : Z).

Definition pde m pgdir (i : Z) : Z := load32 m (pgdir + 4 * i).
Definition table m pgdir (i : Z) : Z := p2v (PTE_ADDR (pde m pgdir i)).
Definition has_table m pgdir (i : Z) : bool := flag (pde m pgdir i) PTE_P.

(** The entry for [va], 0 without a page table. *)
Definition pte m pgdir va : Z :=
  if has_table m pgdir (PDX va) then load32 m (table m pgdir (PDX va) + 4 * PTX va) else 0.

(** The page directory and its tables are distinct pages that are not free. *)
Record pt_ok m pgdir l : Prop := mkPtOk {
  pk_dir : page_ok kend pgdir ∧ pgdir ∉ l;
  pk_table i : 0 ≤ i < 1024 → has_table m pgdir i = true →
    page_ok kend (table m pgdir i) ∧ table m pgdir i ∉ l ∧ table m pgdir i ≠ pgdir;
  pk_inj i j : 0 ≤ i < 1024 → 0 ≤ j < 1024 → has_table m pgdir i = true → has_table m pgdir j = true →
    table m pgdir i = table m pgdir j → i = j
}.

(** The pages of the page directory and its tables. *)
Definition pt_page m pgdir (v : Z) : Prop :=
  v = pgdir ∨ ∃ i, 0 ≤ i < 1024 ∧ has_table m pgdir i = true ∧ v = table m pgdir i.

Lemma pde_ext m m' pgdir i : 0 ≤ i < 1024 → (∀ x, in_page pgdir x → m' x = m x) → pde m' pgdir i = pde m pgdir i.
Proof. intros Hi Hx. apply load32_ext. intros x ?. apply Hx. unfold in_page, PGSIZE. lia. Qed.

Lemma pt_ok_ext m m' pgdir l l' : (∀ x, in_page pgdir x → m' x = m x) → (∀ v, v ∈ l' → v ∈ l) →
  pt_ok m pgdir l → pt_ok m' pgdir l'.
Proof.
  intros Hx Hl [[? ?] Ht Hi]. assert (∀ i, 0 ≤ i < 1024 → pde m' pgdir i = pde m pgdir i) as E
    by (intros; by apply pde_ext).
  constructor; [split; [done|naive_solver]|..]; unfold has_table, table in *.
  - intros i Hr. rewrite E by done. intros Hp. destruct (Ht i Hr Hp) as (? & ? & ?). naive_solver.
  - intros i j Hr Hr'. rewrite !E by done. by apply Hi.
Qed.

(** A store in a table changes one entry. *)
Lemma pt_store m pgdir l va v : pt_ok m pgdir l → has_table m pgdir (PDX va) = true → 0 ≤ v < 2 ^ 32 →
  let a := table m pgdir (PDX va) + 4 * PTX va in let m' := store32 a v m in
  pt_ok m' pgdir l ∧ (∀ i, 0 ≤ i < 1024 → pde m' pgdir i = pde m pgdir i) ∧
  (∀ va', pte m' pgdir va' = if (PDX va' =? PDX va) && (PTX va' =? PTX va) then v else pte m pgdir va').
Proof.
  intros Hok Hp Hv a m'. destruct (pk_table _ _ _ Hok _ (PDX_range va) Hp) as (Hta & Htl & Htd).
  destruct (pk_dir _ _ _ Hok) as [Hd _].
  pose proof (PTX_range va). pose proof (PDX_range va). set (t := table m pgdir (PDX va)) in *.
  assert (∀ x, in_page pgdir x → m' x = m x) as Hx.
  { intros x Hx. apply store32_out. unfold in_page in *.
    pose proof (page_apart t pgdir x (proj1 Hta) (proj1 Hd) Htd) as Hap. unfold in_page, PGSIZE in *. lia. }
  assert (∀ i, 0 ≤ i < 1024 → pde m' pgdir i = pde m pgdir i) as E by (intros; by apply pde_ext).
  split_and!; [eapply pt_ok_ext; [exact Hx| |exact Hok]; auto|done|].
  intros va'. unfold pte. pose proof (PDX_range va'). pose proof (PTX_range va').
  unfold has_table, table. rewrite !E by done. fold (has_table m pgdir (PDX va')) (table m pgdir (PDX va')).
  destruct (has_table m pgdir (PDX va')) eqn:Ht'.
  2:{ destruct (Z.eqb_spec (PDX va') (PDX va)) as [E'|]; [|done]. rewrite E' in Ht'. congruence. }
  destruct (Z.eqb_spec (PDX va') (PDX va)) as [Ed|Ed]; simpl.
  - rewrite Ed. fold t. destruct (Z.eqb_spec (PTX va') (PTX va)) as [Et|Et].
    + rewrite Et. by apply load32_store32.
    + apply load32_ext. intros x ?. apply store32_out. unfold a. lia.
  - destruct (pk_table _ _ _ Hok _ (PDX_range va') Ht') as (Hta' & _ & _).
    apply load32_ext. intros x Hxx. apply store32_out. unfold a.
    assert (table m pgdir (PDX va') ≠ t) as Hne.
    { intros E'. apply Ed. by apply (pk_inj _ _ _ Hok). }
    pose proof (page_apart _ t x (proj1 Hta') (proj1 Hta) Hne). unfold in_page, PGSIZE in *. lia.
Qed.

(** The number of page tables. *)
Definition tables m pgdir : nat := length (filter (λ i, has_table m pgdir i = true) (seqZ 0 1024)).

Lemma filter_count (p q : Z → bool) (L : list Z) : (∀ i, i ∈ L → p i = q i) →
  length (filter (λ i, p i = true) L) = length (filter (λ i, q i = true) L).
Proof.
  induction L as [|a L IH]; intros H; [done|]. rewrite !filter_cons, (H a) by left.
  specialize (IH ltac:(intros; apply H; by right)). by destruct (decide (q a = true)); simpl; rewrite IH.
Qed.

Lemma filter_count_add (p q : Z → bool) (L : list Z) a : NoDup L → a ∈ L → p a = false → q a = true →
  (∀ i, i ∈ L → i ≠ a → q i = p i) →
  length (filter (λ i, q i = true) L) = S (length (filter (λ i, p i = true) L)).
Proof.
  induction L as [|b L IH]; intros Hnd Ha Hp Hq Hs; [by apply elem_of_nil in Ha|].
  apply NoDup_cons in Hnd as [Hb Hnd]. rewrite !filter_cons. apply elem_of_cons in Ha as [->|Ha].
  - rewrite Hp, Hq. destruct (decide (true = true)); [|done]. destruct (decide (false = true)); [done|].
    simpl. f_equal. apply filter_count. intros i Hi. apply Hs; [by right|]. by intros ->.
  - assert (b ≠ a) by (intros ->; done). rewrite (Hs b) by (done || by left).
    specialize (IH Hnd Ha Hp Hq ltac:(intros i Hi ?; apply Hs; [by right|done])).
    destruct (decide (p b = true)); simpl; by rewrite IH.
Qed.

Lemma filter_missing (p : Z → bool) a (L : list Z) : p a = false → a ∈ L →
  (length (filter (λ i, p i = true) L) < length L)%nat.
Proof.
  intros Hp. induction L as [|b L IH]; intros Ha; [by apply elem_of_nil in Ha|]. rewrite filter_cons.
  apply elem_of_cons in Ha as [->|Ha].
  - rewrite Hp. destruct (decide (false = true)); [done|]. simpl. apply le_n_S, length_filter.
  - specialize (IH Ha). destruct (decide (p b = true)); simpl; lia.
Qed.

Lemma tables_bound m pgdir : (tables m pgdir ≤ 1024)%nat.
Proof. unfold tables. etransitivity; [apply length_filter|]. rewrite length_seqZ. lia. Qed.

Lemma tables_ext m m' pgdir : (∀ i, 0 ≤ i < 1024 → pde m' pgdir i = pde m pgdir i) →
  tables m' pgdir = tables m pgdir.
Proof.
  intros H. unfold tables. apply filter_count. intros i Hi%elem_of_seqZ. unfold has_table. by rewrite H by lia.
Qed.

Lemma tables_add m m' pgdir i : 0 ≤ i < 1024 → has_table m pgdir i = false → has_table m' pgdir i = true →
  (∀ j, 0 ≤ j < 1024 → j ≠ i → pde m' pgdir j = pde m pgdir j) → tables m' pgdir = S (tables m pgdir).
Proof.
  intros Hi Hp Hq H. unfold tables. apply (filter_count_add _ _ _ i); try done.
  - apply NoDup_seqZ.
  - apply elem_of_seqZ. lia.
  - intros j Hj%elem_of_seqZ Hne. unfold has_table. by rewrite H by lia.
Qed.

(** From [s] to [s'] only page-table pages and pages taken from the free list
    [l] change; the free list becomes [l']. *)
Record pt_step (s s' : kmem) pgdir l l' : Prop := mkPtStep {
  ps_rep : kmem_rep kend s' l';
  ps_suffix : ∃ k, l = k ++ l';
  ps_ok : pt_ok (km_mem s') pgdir l';
  ps_mem x : (∀ v, v ∈ l → ¬ in_page v x) → (∀ v, pt_page (km_mem s) pgdir v → ¬ in_page v x) →
    km_mem s' x = km_mem s x;
  ps_pages v : pt_page (km_mem s') pgdir v → pt_page (km_mem s) pgdir v ∨ (v ∈ l ∧ v ∉ l');
  ps_keep v : pt_page (km_mem s) pgdir v → pt_page (km_mem s') pgdir v;
  ps_count : (length l + tables (km_mem s) pgdir = length l' + tables (km_mem s') pgdir)%nat
}.

Lemma pt_step_refl s pgdir l : kmem_rep kend s l → pt_ok (km_mem s) pgdir l → pt_step s s pgdir l l.
Proof. intros. constructor; try done; [by exists []|]. auto. Qed.

Lemma pt_step_trans s s1 s2 pgdir l l1 l2 : kmem_rep kend s l →
  pt_step s s1 pgdir l l1 → pt_step s1 s2 pgdir l1 l2 → pt_step s s2 pgdir l l2.
Proof.
  intros Hr [? [k1 ->] ? M1 P1 K1 C1] [? [k2 ->] ? M2 P2 K2 C2]. constructor; try done.
  - exists (k1 ++ k2). by rewrite (assoc_L (++)).
  - intros x Hl Hp. rewrite M2; [apply M1; auto| |].
    + intros v Hv. apply Hl. apply elem_of_app. by right.
    + intros v [Hv|[Hv _]]%P1; [by apply Hp|by apply Hl].
  - intros v [Hv|[Hv ?]]%P2.
    + destruct (P1 v Hv) as [?|[? Hn]]; [by left|right]. split; [done|].
      intros Hin. apply Hn, elem_of_app. by right.
    + right. split; [apply elem_of_app; by right|done].
  - auto.
  - lia.
Qed.

Lemma p2v_v2p v : page_ok kend v → p2v (v2p v) = v.
Proof.
  intros Hv. destruct (page_pos kend Hend v Hv) as (? & -> & ?). unfold p2v.
  replace (v - KERNBASE + KERNBASE) with v by lia. apply u32_small. lia.
Qed.

Lemma v2p_mod v : page_ok kend v → v2p v mod PGSIZE = 0.
Proof.
  intros Hv. destruct (page_pos kend Hend v Hv) as (? & -> & ?). destruct Hv as [Hv _].
  unfold PGSIZE, KERNBASE in *. rewrite Zminus_mod, Hv. done.
Qed.

Lemma new_pde v : page_ok kend v →
  let e := Z.lor (Z.lor (Z.lor (v2p v) PTE_P) PTE_W) PTE_U in
  flag e PTE_P = true ∧ p2v (PTE_ADDR e) = v ∧ 0 ≤ e < 2 ^ 32.
Proof.
  intros Hv e. pose proof (v2p_mod v Hv) as Hm. destruct (page_pos kend Hend v Hv) as (? & ? & ?).
  assert (e = entry (v2p v) 6) as ->.
  { unfold e, entry, PTE_P, PTE_W, PTE_U. rewrite <- !Z.lor_assoc. done. }
  split_and!.
  - apply entry_present.
  - rewrite entry_addr by (done || unfold PGSIZE; lia). by apply p2v_v2p.
  - apply entry_range; [done|unfold PHYSTOP in *; lia|unfold PGSIZE; lia].
  - apply entry_range; [done|unfold PHYSTOP in *; lia|unfold PGSIZE; lia].
Qed.

(** The memory after a page table [v] for the directory entry [i] is made. *)
Lemma pt_new_table m pgdir i v l : pt_ok m pgdir (v :: l) → page_ok kend v → v ∉ l →
  0 ≤ i < 1024 → has_table m pgdir i = false →
  let e := Z.lor (Z.lor (Z.lor (v2p v) PTE_P) PTE_W) PTE_U in
  let m' := store32 (pgdir + 4 * i) e (CString.memset v 0 PGSIZE m) in
  pt_ok m' pgdir l ∧ has_table m' pgdir i = true ∧ table m' pgdir i = v ∧
  (∀ j, 0 ≤ j < 1024 → j ≠ i → pde m' pgdir j = pde m pgdir j) ∧
  (∀ x, ¬ in_page v x → ¬ in_page pgdir x → m' x = m x) ∧ (∀ x, in_page v x → m' x = 0).
Proof.
  intros [[Hd Hdl] Ht Hin] Hv Hvl Hi Hno e m'. destruct (new_pde v Hv) as (He1 & He2 & He3). fold e in He1, He2, He3.
  assert (v ≠ pgdir) as Hvd by (intros ->; apply Hdl; by left).
  assert (∀ x, ¬ in_page v x → CString.memset v 0 PGSIZE m x = m x) as Hms.
  { intros x Hx. rewrite CString.memset_spec by (unfold PGSIZE; lia). unfold in_page in Hx.
    by replace ((v <=? x) && (x <? v + PGSIZE)) with false by lia. }
  assert (∀ j, 0 ≤ j < 1024 → pde m' pgdir j = if j =? i then e else pde m pgdir j) as Ep.
  { intros j Hj. unfold pde. destruct (Z.eqb_spec j i) as [->|]; [by apply load32_store32|].
    apply load32_ext. intros x Hx. unfold m'. rewrite store32_out by lia. apply Hms.
    apply (page_apart pgdir v); [apply Hd|apply Hv|done|]. unfold in_page, PGSIZE. lia. }
  assert (∀ j, 0 ≤ j < 1024 → j ≠ i → pde m' pgdir j = pde m pgdir j) as Ep'.
  { intros j Hj Hne. rewrite Ep by done. by rewrite (proj2 (Z.eqb_neq _ _) Hne). }
  assert (has_table m' pgdir i = true ∧ table m' pgdir i = v) as [Ti Vi].
  { unfold has_table, table. by rewrite !Ep, Z.eqb_refl by done. }
  split_and!; try done.
  - constructor; [split; [done|]; intros ?; apply Hdl; by right|..].
    + intros j Hj Hp. destruct (decide (j = i)) as [->|Hne].
      * rewrite Vi. done.
      * unfold has_table, table in *. rewrite Ep' in * by done.
        destruct (Ht j Hj Hp) as (? & Hn & ?). split_and!; [done| |done]. intros ?. apply Hn. by right.
    + assert (∀ j, 0 ≤ j < 1024 → j ≠ i → has_table m' pgdir j = true → table m' pgdir j ≠ v) as Hnv.
      { intros j Hj Hne Hp E. unfold has_table, table in *. rewrite Ep' in * by done.
        destruct (Ht j Hj Hp) as (_ & Hn & _). apply Hn. rewrite E. by left. }
      intros j k Hj Hk Hpj Hpk E. destruct (decide (j = i)) as [->|Hj'], (decide (k = i)) as [->|Hk'].
      * done.
      * rewrite Vi in E. exfalso. by apply (Hnv k).
      * rewrite Vi in E. exfalso. by apply (Hnv j).
      * unfold has_table, table in *. rewrite !Ep' in * by done. by apply Hin.
  - intros x Hx Hx'. unfold m'. rewrite store32_out; [by apply Hms|]. unfold in_page, PGSIZE in Hx'. lia.
  - intros x Hx. unfold m'. rewrite store32_out.
    + rewrite CString.memset_spec by (unfold PGSIZE; lia). unfold in_page in Hx.
      by replace ((v <=? x) && (x <? v + PGSIZE)) with true by lia.
    + pose proof (page_apart v pgdir x (proj1 Hv) (proj1 Hd) Hvd Hx). unfold in_page, PGSIZE in *. lia.
Qed.

Lemma load32_zero m a : (∀ x, a ≤ x < a + 4 → m x = 0) → load32 m a = 0.
Proof. intros H. unfold load32. by rewrite !H by lia. Qed.

Lemma pte_new_table m pgdir i v l m' : pt_ok m pgdir (v :: l) → page_ok kend v → 0 ≤ i < 1024 →
  has_table m pgdir i = false → has_table m' pgdir i = true → table m' pgdir i = v →
  (∀ j, 0 ≤ j < 1024 → j ≠ i → pde m' pgdir j = pde m pgdir j) →
  (∀ x, ¬ in_page v x → ¬ in_page pgdir x → m' x = m x) → (∀ x, in_page v x → m' x = 0) →
  ∀ va, pte m' pgdir va = pte m pgdir va.
Proof.
  intros [[Hd Hdl] Ht _] Hv Hi Hno Hti Hvi Hp Hm Hz va. unfold pte.
  pose proof (PDX_range va). pose proof (PTX_range va). destruct (decide (PDX va = i)) as [->|Hne].
  - rewrite Hti, Hvi, Hno. apply load32_zero. intros x ?. apply Hz. unfold in_page, PGSIZE. lia.
  - unfold has_table, table. rewrite Hp by done. fold (has_table m pgdir (PDX va)) (table m pgdir (PDX va)).
    destruct (has_table m pgdir (PDX va)) eqn:E; [|done].
    destruct (Ht _ (PDX_range va) E) as (Hta & Htn & Htd). apply load32_ext. intros x Hx.
    assert (in_page (table m pgdir (PDX va)) x) as Hin by (unfold in_page, PGSIZE; lia).
    apply Hm; [eapply page_apart; [apply Hta|apply Hv| |exact Hin]|eapply page_apart; [apply Hta|apply Hd|done|exact Hin]].
    intros E'. apply Htn. rewrite E'. by left.
Qed.

Lemma walk_alloc_wp s l pgdir va : kmem_rep kend s l → pt_ok (km_mem s) pgdir l →
  wp (walkpgdir pgdir va true) s (λ r s',
    (r = 0 ∧ l = [] ∧ s' = s ∧ (tables (km_mem s) pgdir < 1024)%nat) ∨
    (∃ l', pt_step s s' pgdir l l' ∧ r = table (km_mem s') pgdir (PDX va) + 4 * PTX va ∧ r ≠ 0 ∧
      has_table (km_mem s') pgdir (PDX va) = true ∧
      (∀ va', pte (km_mem s') pgdir va' = pte (km_mem s) pgdir va'))).
Proof.
  intros Hr Hok. unfold walkpgdir. rewrite wp_bind. unfold load. rewrite wp_gets.
  fold (pde (km_mem s) pgdir (PDX va)). fold (has_table (km_mem s) pgdir (PDX va)).
  pose proof (PDX_range va) as Hi. pose proof (PTX_range va).
  destruct (has_table (km_mem s) pgdir (PDX va)) eqn:Et.
  { rewrite wp_ret. right. exists l. fold (table (km_mem s) pgdir (PDX va)).
    destruct (pk_table _ _ _ Hok _ Hi Et) as (Hta & _). pose proof (page_pos kend Hend _ Hta).
    split_and!; try done; [by apply pt_step_refl|lia]. }
  simpl. rewrite wp_bind. wpa (kalloc_wp kend Hend s l Hr). intros r s'. destruct l as [|v l].
  { intros [-> ->]. simpl. rewrite wp_ret. left. split_and!; try done.
    apply (filter_missing _ (PDX va)); [done|]. apply elem_of_seqZ. lia. }
  intros (-> & Hr' & Em). pose proof (kr_pages _ _ _ Hr) as [Hv _]%Forall_cons.
  pose proof (kr_nodup _ _ _ Hr) as [Hvl _]%NoDup_cons. pose proof (page_pos kend Hend v Hv) as (Hv0 & _).
  rewrite (proj2 (Z.eqb_neq v 0)) by lia. unfold memset, store.
  rewrite wp_bind, wp_modify, wp_bind, wp_modify, wp_ret. right. exists l.
  destruct (pt_new_table (km_mem s) pgdir (PDX va) v l Hok Hv Hvl Hi Et) as (Hok' & Ht' & Hv' & Hp' & Hm' & Hz').
  unfold set_mem; simpl. rewrite Em. set (m' := store32 _ _ _) in *.
  assert (pt_page (km_mem s) pgdir pgdir) as Hpd by by left.
  split_and!; try done; [|by rewrite Hv'|lia|by apply (pte_new_table (km_mem s) pgdir (PDX va) v l)].
  constructor; simpl; try done.
  - destruct Hr' as [Hc ? ?]. constructor; try done. simpl. eapply page_chain_ext; [|exact Hc].
    rewrite Em. intros w x Hw Hx. assert (in_page w x) as Hin by (unfold in_page, PGSIZE; lia).
    pose proof (kr_pages _ _ _ Hr) as [_ Hpl]%Forall_cons. rewrite Forall_forall in Hpl.
    destruct (pk_dir _ _ _ Hok) as [Hd Hdl].
    apply Hm'; eapply page_apart; try exact Hin; try apply Hv; try apply Hd; try apply (Hpl w Hw).
    + by intros ->.
    + intros ->. apply Hdl. by right.
  - by exists [v].
  - intros x Hl Hp. apply Hm'; [apply Hl; by left|by apply Hp].
  - intros w [->|(j & Hj & Hpj & ->)]; [by left; left|]. destruct (decide (j = PDX va)) as [->|Hne].
    + right. rewrite Hv'. split; [by left|done].
    + left. right. exists j. unfold has_table, table in *. rewrite Hp' in * by done. done.
  - intros w [->|(j & Hj & Hpj & ->)]; [by left|]. right. exists j. split; [done|].
    assert (j ≠ PDX va) by (intros ->; congruence). unfold has_table, table in *. rewrite Hp' by done. done.
  - rewrite (tables_add (km_mem s) m' pgdir (PDX va)) by done. lia.
Qed.

Lemma same_page a va : a mod PGSIZE = 0 → 0 ≤ a < 2 ^ 32 → 0 ≤ va < 2 ^ 32 →
  (PDX va =? PDX a) && (PTX va =? PTX a) = (a <=? va) && (va <? a + PGSIZE).
Proof.
  intros Ha Hr Hr'. pose proof (same_entry va a Hr' Hr) as He. unfold PGSIZE in *.
  destruct ((a <=? va) && (va <? a + 4096)) eqn:E.
  - assert (va / 4096 = a / 4096) as [E1 E2]%He by (Z.div_mod_to_equations; lia).
    by rewrite E1, E2, !Z.eqb_refl.
  - apply andb_false_iff. rewrite !Z.eqb_neq. destruct (decide (PDX va = PDX a)) as [E1|]; [right|by left].
    intros E2. assert (va / 4096 = a / 4096) as E3 by (by apply He). Z.div_mod_to_equations. lia.
Qed.

(** Storing the entry for [a] keeps everything else. *)
Lemma pt_step_store s pgdir l a v : kmem_rep kend s l → pt_ok (km_mem s) pgdir l →
  has_table (km_mem s) pgdir (PDX a) = true → 0 ≤ v < 2 ^ 32 → a mod PGSIZE = 0 → 0 ≤ a < 2 ^ 32 →
  let s' := set_mem (store32 (table (km_mem s) pgdir (PDX a) + 4 * PTX a) v) s in
  pt_step s s' pgdir l l ∧
  (∀ va, 0 ≤ va < 2 ^ 32 → pte (km_mem s') pgdir va =
    if (a <=? va) && (va <? a + PGSIZE) then v else pte (km_mem s) pgdir va).
Proof.
  intros Hr Hok Ht Hv Ha Har s'.
  destruct (pt_store (km_mem s) pgdir l a v Hok Ht Hv) as (Hok' & Hp & Hpte).
  destruct (pk_table _ _ _ Hok _ (PDX_range a) Ht) as (Hta & Htl & _). pose proof (PTX_range a).
  set (t := table (km_mem s) pgdir (PDX a)) in *.
  assert (∀ x, ¬ in_page t x → km_mem s' x = km_mem s x) as Hm.
  { intros x Hx. apply store32_out. unfold in_page, PGSIZE in Hx. lia. }
  assert (∀ i, 0 ≤ i < 1024 → pde (km_mem s') pgdir i = pde (km_mem s) pgdir i) as Hp' by done.
  split.
  - constructor; try done.
    + destruct Hr as [Hc ? Hpl]. constructor; try done. eapply page_chain_ext; [|exact Hc]. intros w x Hw Hx.
      rewrite Forall_forall in Hpl. apply Hm.
      apply (page_apart w t); [apply (Hpl w Hw)|apply Hta|by intros ->|unfold in_page, PGSIZE; lia].
    + by exists [].
    + intros x _ Hx. apply Hm, Hx. right. exists (PDX a). split; [apply PDX_range|done].
    + intros w [->|(i & Hi & Hpi & ->)]; left; [by left|right]. exists i. unfold has_table, table in *.
      rewrite Hp' in * by done. done.
    + intros w [->|(i & Hi & Hpi & ->)]; [by left|right]. exists i. unfold has_table, table in *.
      rewrite Hp' by done. done.
    + by rewrite (tables_ext (km_mem s) (km_mem s')).
  - intros va Hva. change (km_mem s') with (store32 (t + 4 * PTX a) v (km_mem s)). rewrite Hpte. by rewrite same_page.
Qed.

Lemma mappages_loop_wp n k s l pgdir a pa perm : kmem_rep kend s l → pt_ok (km_mem s) pgdir l →
  a mod PGSIZE = 0 → 0 ≤ a → a + Z.of_nat (S n) * PGSIZE ≤ 2 ^ 32 →
  pa mod PGSIZE = 0 → 0 ≤ pa → pa + Z.of_nat (S n) * PGSIZE ≤ 2 ^ 32 → 0 ≤ perm < PGSIZE → (n < k)%nat →
  (∀ i, (i ≤ n)%nat → flag (pte (km_mem s) pgdir (a + Z.of_nat i * PGSIZE)) PTE_P = false) →
  wp (mappages_loop k pgdir a (a + Z.of_nat n * PGSIZE) pa perm) s (λ r s', ∃ l' j,
    pt_step s s' pgdir l l' ∧
    ((r = 0 ∧ j = S n) ∨ (r = -1 ∧ (j ≤ n)%nat ∧ (length l + tables (km_mem s) pgdir < 1024)%nat)) ∧
    ∀ va, 0 ≤ va < 2 ^ 32 → pte (km_mem s') pgdir va =
      if (a <=? va) && (va <? a + Z.of_nat j * PGSIZE) then entry (pa + (va - a) / PGSIZE * PGSIZE) perm
      else pte (km_mem s) pgdir va).
Proof.
  revert k s l a pa. induction n as [|n IH]; intros k s l a pa Hr Hok Ha Ha0 Har Hpa Hpa0 Hpar Hperm Hk Hun.
  all: destruct k as [|k]; [lia|]; cbn [mappages_loop]; rewrite wp_bind; wpa (walk_alloc_wp s l pgdir a Hr Hok).
  all: intros r s1 [(-> & -> & -> & Hlt)|(l1 & S1 & -> & Hr0 & Ht1 & Hpte1)].
  1,3: simpl; rewrite wp_ret; exists [], 0%nat; split_and!; [by apply pt_step_refl|right; split_and!; [done|lia|done]|];
    intros va Hva; by replace ((a <=? va) && (va <? a + Z.of_nat 0 * PGSIZE)) with false by lia.
  all: rewrite (proj2 (Z.eqb_neq _ 0) Hr0); unfold load; rewrite wp_bind, wp_gets.
  all: specialize (Hun 0%nat ltac:(lia)) as Hun0; rewrite Z.add_0_r in Hun0.
  all: assert (load32 (km_mem s1) (table (km_mem s1) pgdir (PDX a) + 4 * PTX a) = pte (km_mem s1) pgdir a) as ->
    by (unfold pte; by rewrite Ht1); rewrite Hpte1, Hun0; unfold store; rewrite wp_bind, wp_modify; fold (entry pa perm).
  all: unfold PGSIZE in Har, Hpar.
  all: destruct (pt_step_store s1 pgdir l1 a (entry pa perm)) as [S2 Hpte2];
    [apply S1|apply S1|done|apply entry_range; (done || lia)|done|lia|];
    set (s2 := set_mem _ s1) in *; pose proof (pt_step_trans _ _ _ _ _ _ _ Hr S1 S2) as S12.
  - rewrite Z.add_0_r, Z.eqb_refl, wp_ret. exists l1, 1%nat. split_and!; [done|by left|].
    intros va Hva. rewrite Hpte2, Hpte1 by done. replace (Z.of_nat 1 * PGSIZE) with PGSIZE by lia.
    destruct ((a <=? va) && (va <? a + PGSIZE)) eqn:E; [|done]. rewrite Z.div_small by lia. f_equal. lia.
  - rewrite (proj2 (Z.eqb_neq a _)) by (unfold PGSIZE; lia).
    rewrite (u32_small (a + PGSIZE)), (u32_small (pa + PGSIZE)) by (unfold PGSIZE; lia).
    replace (a + Z.of_nat (S n) * PGSIZE) with (a + PGSIZE + Z.of_nat n * PGSIZE) by lia.
    wpa (IH k s2 l1 (a + PGSIZE) (pa + PGSIZE)); [apply S12|apply S12|..].
    all: try (unfold PGSIZE; lia).
    { rewrite <- Ha. unfold PGSIZE. rewrite <- (Z.mod_add a 1 4096) by lia. f_equal. }
    { rewrite <- Hpa. unfold PGSIZE. rewrite <- (Z.mod_add pa 1 4096) by lia. f_equal. }
    { done. }
    { intros i Hi. rewrite Hpte2 by (unfold PGSIZE; lia).
      replace ((a <=? _) && (_ <? a + PGSIZE)) with false by (unfold PGSIZE; lia). rewrite Hpte1.
      replace (a + PGSIZE + Z.of_nat i * PGSIZE) with (a + Z.of_nat (S i) * PGSIZE) by lia. apply Hun. lia. }
    intros r s3 (l3 & j & S3 & Hj & Hpte3). exists l3, (S j). split_and!.
    + by eapply pt_step_trans.
    + pose proof (ps_count _ _ _ _ _ S12).
      destruct Hj as [[-> ->]|(-> & ? & ?)]; [by left|right]. split_and!; [done|lia|lia].
    + intros va Hva. rewrite Hpte3, Hpte2, Hpte1 by done. unfold PGSIZE.
      destruct ((a + 4096 <=? va) && (va <? a + 4096 + Z.of_nat j * 4096)) eqn:E1.
      * replace ((a <=? va) && (va <? a + Z.of_nat (S j) * 4096)) with true by lia. f_equal.
        replace (va - a) with (va - (a + 4096) + 1 * 4096) by lia. rewrite Z.div_add by lia. lia.
      * destruct ((a <=? va) && (va <? a + 4096)) eqn:E2.
        -- replace ((a <=? va) && (va <? a + Z.of_nat (S j) * 4096)) with true by lia.
           rewrite Z.div_small by lia. f_equal. lia.
        -- by replace ((a <=? va) && (va <? a + Z.of_nat (S j) * 4096)) with false by lia.
Qed.
End pt.
