(* ===== verification/VmProps.v ===== *)
(** * Properties of virtual memory (vm.c)

    [mappages], the kernel part of a page table, growing a process and copying
    an address space. *)

From stdpp Require Import base numbers option list sets strings.
From Stdlib Require Import ZArith Lia ZifyBool.
From S2P Require Import Prelude Bytes CString Kalloc Vm VmProofs.
Import Kalloc Vm.
Local Open Scope Z_scope.

Section props.
Variable kend : Z.
Hypothesis Hend : KERNBASE ≤ kend.
Implicit Types (m : CString.mem) (l : list Z) (pgdir va : Z).

(** The entries after [j] pages from [a] on are mapped to [pa] on. *)
Definition mapped m m' pgdir (a : Z) (j : nat) (pa perm : Z) : Prop :=
  ∀ va, 0 ≤ va < 2 ^ 32 → pte m' pgdir va =
    if (a <=? va) && (va <? a + Z.of_nat j * PGSIZE) then entry (pa + (va - a) / PGSIZE * PGSIZE) perm
    else pte m pgdir va.

Lemma mappages_wp n s l pgdir va pa perm : kmem_rep kend s l → pt_ok kend (km_mem s) pgdir l →
  va mod PGSIZE = 0 → 0 ≤ va → va + Z.of_nat (S n) * PGSIZE ≤ 2 ^ 32 →
  pa mod PGSIZE = 0 → 0 ≤ pa → pa + Z.of_nat (S n) * PGSIZE ≤ 2 ^ 32 → 0 ≤ perm < PGSIZE →
  (∀ i, (i ≤ n)%nat → flag (pte (km_mem s) pgdir (va + Z.of_nat i * PGSIZE)) PTE_P = false) →
  wp (mappages pgdir va (Z.of_nat (S n) * PGSIZE) pa perm) s (λ r s', ∃ l' j,
    pt_step kend s s' pgdir l l' ∧
    ((r = 0 ∧ j = S n) ∨ (r = -1 ∧ (j ≤ n)%nat ∧ (length l + tables (km_mem s) pgdir < 1024)%nat)) ∧
    mapped (km_mem s) (km_mem s') pgdir va j pa perm).
Proof.
  intros Hr Hok Ha Ha0 Har Hpa Hpa0 Hpar Hperm Hun. unfold mappages.
  assert (PGROUNDDOWN va = va) as -> by (rewrite PGROUNDDOWN_eq; lia).
  assert (PGROUNDDOWN (u32 (va + Z.of_nat (S n) * PGSIZE - 1)) = va + Z.of_nat n * PGSIZE) as ->.
  { unfold PGSIZE in *. rewrite u32_small by lia. rewrite PGROUNDDOWN_eq. unfold PGSIZE.
    replace (va + Z.of_nat (S n) * 4096 - 1) with (4095 + va + Z.of_nat n * 4096) by lia.
    rewrite Z.mod_add, Z.add_mod, Ha, Z.add_0_r by lia. change ((4095 mod 4096) mod 4096) with 4095. lia. }
  assert (u32 (va + Z.of_nat n * PGSIZE - va) / PGSIZE + 1 = Z.of_nat (S n)) as ->.
  { replace (va + Z.of_nat n * PGSIZE - va) with (Z.of_nat n * PGSIZE) by lia.
    unfold PGSIZE in *. rewrite u32_small, Z.div_mul by lia. lia. }
  rewrite Nat2Z.id. wpa (mappages_loop_wp kend Hend n (S n) s l pgdir va pa perm); try done. lia.
Qed.

(** A zeroed page directory maps nothing. *)
Lemma fresh_pgdir m d l : page_ok kend d → d ∉ l → (∀ x, in_page d x → m x = 0) →
  pt_ok kend m d l ∧ tables m d = 0%nat ∧ (∀ va, pte m d va = 0) ∧ (∀ v, pt_page m d v → v = d).
Proof.
  intros Hd Hl Hz.
  assert (∀ i, 0 ≤ i < 1024 → has_table m d i = false) as Hno.
  { intros i Hi. unfold has_table, pde. rewrite load32_zero; [done|]. intros x ?. apply Hz.
    unfold in_page, PGSIZE. lia. }
  split_and!.
  - constructor; [done|..].
    + intros i Hi. by rewrite Hno.
    + intros i j Hi Hj. by rewrite Hno.
  - unfold tables. rewrite (filter_count _ (λ _, false)) by (intros i Hi%elem_of_seqZ; apply Hno; lia).
    induction (seqZ 0 1024) as [|a L IH]; [done|]. rewrite filter_cons. by destruct (decide (false = true)).
  - intros va. unfold pte. by rewrite Hno by apply PDX_range.
  - intros v [->|(i & Hi & Hp & _)]; [done|]. by rewrite Hno in Hp.
Qed.

(** ** Kernel mappings *)

Definition k_size (k : kmap) : Z := u32 (k_phys_end k - k_phys_start k).
Definition in_kmap (k : kmap) (va : Z) : bool := (k_virt k <=? va) && (va <? k_virt k + k_size k).

Record kmap_ok (k : kmap) : Prop := mkKmapOk {
  ko_virt : 0 ≤ k_virt k ∧ k_virt k mod PGSIZE = 0;
  ko_phys : 0 ≤ k_phys_start k ∧ k_phys_start k mod PGSIZE = 0;
  ko_size : 0 < k_size k ∧ k_size k mod PGSIZE = 0;
  ko_top : k_virt k + k_size k ≤ 2 ^ 32 ∧ k_phys_start k + k_size k ≤ 2 ^ 32;
  ko_perm : 0 ≤ k_perm k < PGSIZE
}.

Lemma kmap_pages k : kmap_ok k → ∃ n, k_size k = Z.of_nat (S n) * PGSIZE.
Proof.
  intros [_ _ [H1 H2] _ _]. exists (Z.to_nat (k_size k / PGSIZE - 1)). unfold PGSIZE in *.
  Z.div_mod_to_equations. lia.
Qed.

Definition k_entry (k : kmap) va : Z :=
  entry (k_phys_start k + (va - k_virt k) / PGSIZE * PGSIZE) (k_perm k).

Lemma setupkvm_loop_wp L s l pgdir : kmem_rep kend s l → pt_ok kend (km_mem s) pgdir l →
  (1024 ≤ length l + tables (km_mem s) pgdir)%nat → Forall kmap_ok L →
  (∀ va, 0 ≤ va < 2 ^ 32 → existsb (λ k, in_kmap k va) L = true → flag (pte (km_mem s) pgdir va) PTE_P = false) →
  (∀ i j k k' va, L !! i = Some k → L !! j = Some k' → in_kmap k va = true → in_kmap k' va = true → i = j) →
  wp (setupkvm_loop pgdir L) s (λ r s', r = pgdir ∧ ∃ l', pt_step kend s s' pgdir l l' ∧
    (∀ va, 0 ≤ va < 2 ^ 32 → existsb (λ k, in_kmap k va) L = false →
      pte (km_mem s') pgdir va = pte (km_mem s) pgdir va) ∧
    (∀ k va, k ∈ L → 0 ≤ va < 2 ^ 32 → in_kmap k va = true → pte (km_mem s') pgdir va = k_entry k va)).
Proof.
  revert s l. induction L as [|k L IH]; intros s l Hr Hok Hen HL Hun Hdis.
  { cbn [setupkvm_loop]. rewrite wp_ret. split; [done|]. exists l.
    split_and!; [by apply pt_step_refl|done|]. by intros k va ?%elem_of_nil. }
  apply Forall_cons in HL as [Hk HL]. destruct (kmap_pages k Hk) as [n En]. pose proof Hk as [[Hv0 Hv] [Hp0 Hp] _ [Ht1 Ht2] Hpm].
  cbn [setupkvm_loop]. rewrite wp_bind. fold (k_size k). rewrite En.
  wpa (mappages_wp n s l pgdir (k_virt k) (k_phys_start k) (k_perm k)); try done; try lia.
  { intros i Hi. apply Hun; [unfold PGSIZE in *; lia|]. simpl. apply orb_true_iff. left.
    unfold in_kmap. rewrite En. unfold PGSIZE. lia. }
  intros r s1 (l1 & j & S1 & Hj & Hm1). destruct Hj as [[-> ->]|(_ & _ & ?)]; [|lia]. simpl.
  assert (∀ va, 0 ≤ va < 2 ^ 32 → pte (km_mem s1) pgdir va = if in_kmap k va then k_entry k va else pte (km_mem s) pgdir va) as Hpte.
  { intros va Hva. rewrite (Hm1 va Hva). unfold in_kmap. by rewrite En. }
  wpa (IH s1 l1); [apply S1|apply S1|pose proof (ps_count _ _ _ _ _ _ S1); lia|done| | |].
  { intros va Hva He. rewrite Hpte by done. destruct (in_kmap k va) eqn:Ek.
    - exfalso. apply existsb_exists in He as (k' & Hk'%list_elem_of_In & Ek').
      apply list_elem_of_lookup in Hk' as [i Hi]. specialize (Hdis 0%nat (S i) k k' va eq_refl Hi Ek Ek'). lia.
    - apply Hun; [done|]. simpl. by rewrite He, orb_true_r. }
  { intros i i' k1 k2 va H1 H2 ? ?. assert (S i = S i') as [=]; [|done]. by eapply (Hdis _ _ k1 k2 va). }
  intros r s2 (-> & l2 & S2 & Hout & Hin). split; [done|]. exists l2. split_and!.
  - by eapply pt_step_trans.
  - intros va Hva [E1 E2]%orb_false_iff. rewrite Hout, Hpte by done. by rewrite E1.
  - intros k' va [->|Hk']%elem_of_cons Hva Ek; [|by apply Hin].
    rewrite Hout, Hpte by (done || (destruct (existsb _ L) eqn:He; [|done]; exfalso;
      apply existsb_exists in He as (k' & [i Hi]%list_elem_of_In%list_elem_of_lookup & Ek');
      specialize (Hdis 0%nat (S i) k k' va eq_refl Hi Ek Ek'); lia)).
    by rewrite Ek.
Qed.

Section setup.
Variable data : Z.
Hypothesis Hdata : data mod PGSIZE = 0 ∧ KERNLINK < data < KERNBASE + PHYSTOP.

Lemma v2p_data : v2p data = data - KERNBASE ∧ v2p data mod PGSIZE = 0.
Proof using Hdata.
  destruct Hdata as [Hm Hr]. unfold v2p, KERNLINK, EXTMEM, KERNBASE, PHYSTOP, PGSIZE in *.
  rewrite u32_small by lia. split; [done|]. by rewrite Zminus_mod, Hm.
Qed.

Lemma kmaps_sizes : k_size (mkKmap KERNBASE 0 EXTMEM PTE_W) = EXTMEM ∧
  k_size (mkKmap KERNLINK (v2p KERNLINK) (v2p data) 0) = data - KERNLINK ∧
  k_size (mkKmap data (v2p data) PHYSTOP PTE_W) = KERNBASE + PHYSTOP - data ∧
  k_size (mkKmap DEVSPACE DEVSPACE 0 PTE_W) = 2 ^ 32 - DEVSPACE.
Proof using Hdata.
  destruct v2p_data as [Ed _]. destruct Hdata as [_ Hr]. unfold k_size.
  cbn [k_phys_end k_phys_start]. rewrite Ed. change (v2p KERNLINK) with EXTMEM.
  unfold KERNLINK, EXTMEM, KERNBASE, PHYSTOP in *.
  split_and!; [done|rewrite u32_small; lia|rewrite u32_small; lia|done].
Qed.

Lemma kmaps_ok : Forall kmap_ok (kmaps data).
Proof using Hdata.
  destruct kmaps_sizes as (H1 & H2 & H3 & H4). destruct v2p_data as [Ed Hdm]. destruct Hdata as [Hm Hr].
  unfold kmaps. repeat (apply Forall_cons; split); [..|apply Forall_nil_2]; constructor; rewrite ?H1, ?H2, ?H3, ?H4;
    cbn [k_virt k_phys_start k_perm]; rewrite ?Ed; change (v2p KERNLINK) with EXTMEM;
    unfold KERNLINK, EXTMEM, KERNBASE, PHYSTOP, DEVSPACE, PGSIZE, PTE_W in *; try (split; [lia|done]); try lia.
  all: split; [lia|]; rewrite Zminus_mod, Hm; reflexivity.
Qed.

Lemma kmaps_disjoint i j k k' va : kmaps data !! i = Some k → kmaps data !! j = Some k' →
  in_kmap k va = true → in_kmap k' va = true → i = j.
Proof using Hdata.
  destruct kmaps_sizes as (H1 & H2 & H3 & H4). destruct Hdata as [_ Hr]. unfold kmaps, in_kmap. intros Hi Hj.
  destruct i as [|[|[|[|i]]]]; simplify_eq/=; destruct j as [|[|[|[|j]]]]; simplify_eq/=; try done;
    rewrite ?H1, ?H2, ?H3, ?H4; cbn [k_virt];
    unfold KERNLINK, EXTMEM, KERNBASE, PHYSTOP, DEVSPACE in *; lia.
Qed.

(** User addresses are not in the kernel's mappings. *)
Lemma kmaps_user va : va < KERNBASE → existsb (λ k, in_kmap k va) (kmaps data) = false.
Proof using Hdata.
  intros Hva. destruct Hdata as [_ Hr]. unfold kmaps, in_kmap. cbn [existsb k_virt].
  unfold KERNLINK, EXTMEM, KERNBASE, PHYSTOP, DEVSPACE in *.
  repeat (rewrite (proj2 (Z.leb_gt _ va)) by lia). done.
Qed.

(** The page table made by [setupkvm]. *)
Lemma setupkvm_wp s d l : kmem_rep kend s (d :: l) → (1024 ≤ length l)%nat →
  wp (setupkvm data) s (λ r s', r = d ∧ ∃ l', kmem_rep kend s' l' ∧ pt_ok kend (km_mem s') d l' ∧
    (∃ k, l = k ++ l') ∧ (length l = length l' + tables (km_mem s') d)%nat ∧
    (∀ x, (∀ v, v ∈ d :: l → ¬ in_page v x) → km_mem s' x = km_mem s x) ∧
    (∀ v, pt_page (km_mem s') d v → v ∈ d :: l ∧ v ∉ l') ∧
    (∀ va, 0 ≤ va < KERNBASE → pte (km_mem s') d va = 0) ∧
    (∀ k va, k ∈ kmaps data → 0 ≤ va < 2 ^ 32 → in_kmap k va = true → pte (km_mem s') d va = k_entry k va)).
Proof using Hend Hdata.
  intros Hr Hlen. pose proof (kr_pages _ _ _ Hr) as [Hd Hl]%Forall_cons.
  pose proof (kr_nodup _ _ _ Hr) as [Hdl Hnd]%NoDup_cons. pose proof (page_pos kend Hend d Hd) as (Hd0 & _).
  unfold setupkvm. rewrite wp_bind. wpa (kalloc_wp kend Hend s _ Hr). intros r s1 (-> & Hr1 & Em1).
  rewrite (proj2 (Z.eqb_neq d 0)) by lia. unfold memset. rewrite wp_bind, wp_modify.
  change (DEVSPACE <? p2v PHYSTOP) with false. cbn iota.
  set (s2 := set_mem (CString.memset d 0 PGSIZE) s1).
  assert (∀ x, km_mem s2 x = if (d <=? x) && (x <? d + PGSIZE) then 0 else km_mem s x) as Hm2.
  { intros x. change (km_mem s2) with (CString.memset d 0 PGSIZE (km_mem s1)). rewrite Em1.
    by rewrite CString.memset_spec by (unfold PGSIZE; lia). }
  assert (∀ x, ¬ in_page d x → km_mem s2 x = km_mem s x) as Hm2'.
  { intros x Hx. rewrite Hm2. unfold in_page in Hx. by replace ((d <=? x) && (x <? d + PGSIZE)) with false by lia. }
  destruct (fresh_pgdir (km_mem s2) d l Hd Hdl) as (Hok2 & Ht2 & Hp2 & Hpg2).
  { intros x Hx. rewrite Hm2. unfold in_page in Hx. by replace ((d <=? x) && (x <? d + PGSIZE)) with true by lia. }
  assert (kmem_rep kend s2 l) as Hr2.
  { destruct Hr1 as [Hc ? ?]. constructor; try done. eapply page_chain_ext; [|exact Hc]. intros w x Hw Hx.
    rewrite Em1. apply Hm2'. rewrite Forall_forall in Hl.
    apply (page_apart w d); [apply (Hl w Hw)|apply Hd|by intros ->|unfold in_page, PGSIZE; lia]. }
  wpa (setupkvm_loop_wp (kmaps data) s2 l d Hr2 Hok2); [rewrite Ht2; lia|apply kmaps_ok|by intros; rewrite Hp2|
    apply kmaps_disjoint|].
  intros r s3 (-> & l3 & S3 & Hout & Hin). split; [done|]. exists l3. destruct S3 as [? [k ?] ? Hm3 Hpg3 _ Hc3].
  split_and!; [done|done|by exists k|lia| | | |done].
  - intros x Hx. rewrite Hm3; [apply Hm2', Hx; by left| |].
    + intros v Hv. apply Hx. by right.
    + intros v ->%Hpg2. apply Hx. by left.
  - intros v [->%Hpg2|[? ?]]%Hpg3; split.
    + by left.
    + subst l. intros ?. apply Hdl, elem_of_app. by right.
    + by right.
    + done.
  - intros va Hva. rewrite Hout; [apply Hp2|unfold KERNBASE in Hva; lia|apply kmaps_user; lia].
Qed.
End setup.

(** ** Filling an address range with fresh pages *)

(** Page tables depend only on the memory of their pages. *)
Lemma pt_ext m m' d l : pt_ok kend m d l → (∀ v x, pt_page m d v → in_page v x → m' x = m x) →
  pt_ok kend m' d l ∧ (∀ va, pte m' d va = pte m d va) ∧ tables m' d = tables m d ∧
  (∀ v, pt_page m' d v ↔ pt_page m d v).
Proof.
  intros Hok Hx. assert (∀ i, 0 ≤ i < 1024 → pde m' d i = pde m d i) as E.
  { intros i Hi. apply pde_ext; [done|]. intros x. apply Hx. by left. }
  split_and!.
  - eapply pt_ok_ext; [|intros v Hv; exact Hv|exact Hok]. intros x. apply Hx. by left.
  - intros va. unfold pte, has_table, table. pose proof (PDX_range va). rewrite !E by done.
    fold (has_table m d (PDX va)) (table m d (PDX va)). destruct (has_table m d (PDX va)) eqn:Ht; [|done].
    apply load32_ext. intros x Hxx. pose proof (PTX_range va). apply (Hx (table m d (PDX va))).
    + right. by exists (PDX va).
    + unfold in_page, PGSIZE. lia.
  - by apply tables_ext.
  - intros v. unfold pt_page, has_table, table. split.
    + intros [->|(i & Hi & Hp & ->)]; [by left|right; exists i]. rewrite E in Hp |- * by done. done.
    + intros [->|(i & Hi & Hp & ->)]; [by left|right; exists i]. rewrite E by done. done.
Qed.

(** [us] are fresh pages mapped from [a] on, with permissions [perm] and
    content [c]. *)
Record extended (d a : Z) (perm : nat → Z) (c : nat → Z → Z) (s s' : kmem) l l' (us : list Z) : Prop := mkExt {
  ex_rep : kmem_rep kend s' l';
  ex_ok : pt_ok kend (km_mem s') d l';
  ex_suffix : ∃ k, l = k ++ l';
  ex_count : (length l + tables (km_mem s) d = length us + length l' + tables (km_mem s') d)%nat;
  ex_nodup : NoDup us;
  ex_fresh u : u ∈ us → u ∈ l ∧ u ∉ l' ∧ ¬ pt_page (km_mem s') d u;
  ex_pte va : 0 ≤ va < 2 ^ 32 → pte (km_mem s') d va =
    if (a <=? va) && (va <? a + Z.of_nat (length us) * PGSIZE)
    then entry (v2p (us !!! Z.to_nat ((va - a) / PGSIZE))) (perm (Z.to_nat ((va - a) / PGSIZE)))
    else pte (km_mem s) d va;
  ex_content i off : (i < length us)%nat → 0 ≤ off < PGSIZE → km_mem s' (us !!! i + off) = c i off;
  ex_mem x : (∀ v, v ∈ l → ¬ in_page v x) → (∀ v, pt_page (km_mem s) d v → ¬ in_page v x) →
    km_mem s' x = km_mem s x;
  ex_pages v : pt_page (km_mem s') d v → pt_page (km_mem s) d v ∨ (v ∈ l ∧ v ∉ l')
}.

Lemma extended_nil d a perm c s l : kmem_rep kend s l → pt_ok kend (km_mem s) d l →
  extended d a perm c s s l l [].
Proof.
  intros Hr Hok. constructor; try done.
  - by exists [].
  - apply NoDup_nil_2.
  - by intros u ?%elem_of_nil.
  - intros va _. change (Z.of_nat (length [])) with 0. rewrite Z.mul_0_l, Z.add_0_r.
    by replace ((a <=? va) && (va <? a)) with false by lia.
  - intros i off ?. simpl in *. lia.
  - auto.
Qed.

Lemma in_page_off v off : 0 ≤ off < PGSIZE → in_page v (v + off).
Proof. unfold in_page. lia. Qed.

Lemma extended_cons d a perm c s s1 s2 l l1 l2 u us : kmem_rep kend s l → pt_ok kend (km_mem s) d l →
  extended d a (λ _, perm 0%nat) (λ _, c 0%nat) s s1 l l1 [u] →
  extended d (a + PGSIZE) (λ i, perm (S i)) (λ i, c (S i)) s1 s2 l1 l2 us →
  extended d a perm c s s2 l l2 (u :: us).
Proof.
  intros Hr Hok [R1 O1 [k1 ->] C1 N1 F1 P1 Y1 M1 G1] [R2 O2 [k2 ->] C2 N2 F2 P2 Y2 M2 G2].
  destruct (F1 u) as (Hu1 & Hu2 & Hu3); [by left|].
  assert (¬ pt_page (km_mem s2) d u) as Hu4. { intros [?|[? _]]%G2; done. }
  pose proof (kr_pages _ _ _ Hr) as Hpl. rewrite Forall_forall in Hpl.
  constructor; try done.
  - exists (k1 ++ k2). by rewrite (assoc_L (++)).
  - simpl in *. lia.
  - apply NoDup_cons. split; [|done]. intros Hin. destruct (F2 u Hin) as (? & _). done.
  - intros w [->|Hw]%elem_of_cons.
    + split_and!; [done| |done]. intros Hin. apply Hu2, elem_of_app. by right.
    + destruct (F2 w Hw) as (? & ? & ?). split_and!; [apply elem_of_app; by right|done|done].
  - intros va Hva. rewrite P2, P1 by done. cbn [length]. unfold PGSIZE in *.
    destruct ((a + 4096 <=? va) && (va <? a + 4096 + Z.of_nat (length us) * 4096)) eqn:E1.
    + replace ((a <=? va) && (va <? a + Z.of_nat (S (length us)) * 4096)) with true by lia.
      assert (Z.to_nat ((va - a) / 4096) = S (Z.to_nat ((va - (a + 4096)) / 4096))) as ->; [|done].
      replace (va - a) with (va - (a + 4096) + 1 * 4096) by lia. rewrite Z.div_add by lia.
      pose proof (Z.div_pos (va - (a + 4096)) 4096 ltac:(lia) ltac:(lia)). lia.
    + destruct ((a <=? va) && (va <? a + Z.of_nat 1 * 4096)) eqn:E2.
      * replace ((a <=? va) && (va <? a + Z.of_nat (S (length us)) * 4096)) with true by lia.
        by rewrite Z.div_small by lia.
      * by replace ((a <=? va) && (va <? a + Z.of_nat (S (length us)) * 4096)) with false by lia.
  - intros [|i] off Hi Hoff; [|by apply Y2; simpl in *; lia].
    change ((u :: us) !!! 0%nat) with u. rewrite M2; [apply (Y1 0%nat); [simpl; lia|done]|..].
    + intros v Hv. apply (page_apart u v); [by apply Hpl|by apply Hpl, elem_of_app; right|by intros ->|by apply in_page_off].
    + intros v Hv. apply (page_apart u v); [by apply Hpl| |by intros ->|by apply in_page_off].
      destruct Hv as [->|(i & Hii & Hp & ->)]; [apply O1|]. by apply (pk_table _ _ _ _ O1).
  - intros x Hl Hp. rewrite M2; [by apply M1| |].
    + intros v Hv. apply Hl, elem_of_app. by right.
    + intros v [?|[? _]]%G1; [by apply Hp|by apply Hl].
  - intros v [?|[? ?]]%G2.
    + destruct (G1 v) as [?|[? Hn]]; [done|by left|right]. split; [done|]. intros ?. apply Hn, elem_of_app. by right.
    + right. split; [apply elem_of_app; by right|done].
Qed.

(** Mapping a page just allocated and filled. *)
Lemma map_page_wp s s1 v l d a perm : kmem_rep kend s (v :: l) → pt_ok kend (km_mem s) d (v :: l) →
  kmem_rep kend s1 l → (∀ x, ¬ in_page v x → km_mem s1 x = km_mem s x) →
  a mod PGSIZE = 0 → 0 ≤ a → a + PGSIZE ≤ 2 ^ 32 → flag (pte (km_mem s) d a) PTE_P = false →
  (1024 ≤ length l + tables (km_mem s) d)%nat → 0 ≤ perm < PGSIZE →
  wp (mappages d a PGSIZE (v2p v) perm) s1 (λ r s', r = 0 ∧ ∃ l',
    extended d a (λ _, perm) (λ _ off, km_mem s1 (v + off)) s s' (v :: l) l' [v]).
Proof.
  intros Hr Hok Hr1 Hm1 Ha Ha0 Har Hun Hen Hperm.
  pose proof (kr_pages _ _ _ Hr) as [Hv Hpl]%Forall_cons. pose proof (kr_nodup _ _ _ Hr) as [Hvl _]%NoDup_cons.
  rewrite Forall_forall in Hpl. pose proof (page_pos kend Hend v Hv) as (? & ? & ?).
  assert (∀ w, pt_page (km_mem s) d w → w ≠ v ∧ page_ok kend w ∧ w ∉ l) as Hpt.
  { destruct Hok as [[Hd Hdl] Ht _]. intros w [->|(i & Hi & Hp & ->)].
    - split_and!; [intros ->; apply Hdl; by left|done|]. intros ?. apply Hdl. by right.
    - destruct (Ht i Hi Hp) as (? & Hn & _). split_and!; [intros E; apply Hn; rewrite E; by left|done|].
      intros ?. apply Hn. by right. }
  assert (pt_ok kend (km_mem s) d l) as Hok'.
  { eapply pt_ok_ext; [intros x _; reflexivity| |exact Hok]. intros w. by right. }
  destruct (pt_ext (km_mem s) (km_mem s1) d l Hok') as (Hok1 & Hpte1 & Ht1 & Hpg1).
  { intros w x Hw Hx. destruct (Hpt w Hw) as (? & Hwo & _). apply Hm1.
    by apply (page_apart w v); [apply Hwo|apply Hv|..]. }
  replace PGSIZE with (Z.of_nat 1 * PGSIZE) at 1 by (unfold PGSIZE; lia).
  wpa (mappages_wp 0 s1 l d a (v2p v) perm); try done.
  { by apply (v2p_mod kend Hend). } { lia. } { unfold PHYSTOP, PGSIZE in *; lia. }
  { intros i Hi. assert (i = 0%nat) as -> by lia. by rewrite Z.add_0_r, Hpte1. }
  intros r s2 (l2 & j & S2 & Hj & Hmap). destruct Hj as [[-> ->]|(_ & _ & ?)]; [|lia].
  split; [done|]. exists l2. destruct S2 as [R2 [k ->] O2 M2 G2 _ C2].
  assert (¬ pt_page (km_mem s2) d v) as Hvp.
  { intros [Hw%Hpg1%Hpt|[? _]]%G2; [by destruct Hw|done]. }
  constructor; try done.
  - by exists (v :: k).
  - simpl. lia.
  - apply NoDup_singleton.
  - intros u ->%list_elem_of_singleton. split_and!; [by left| |done]. intros ?. apply Hvl, elem_of_app. by right.
  - intros va Hva. rewrite (Hmap va Hva), Hpte1. cbn [length].
    destruct ((a <=? va) && (va <? a + Z.of_nat 1 * PGSIZE)) eqn:E; [|done].
    rewrite Z.div_small by (unfold PGSIZE in *; lia). simpl. f_equal. lia.
  - intros i off Hi Hoff. simpl in Hi. assert (i = 0%nat) as -> by lia. change ([v] !!! 0%nat) with v.
    pose proof (in_page_off v off Hoff) as Hin. apply M2.
    + intros w Hw. apply (page_apart v w); [apply Hv|by apply Hpl|by intros ->|done].
    + intros w (Hne & Hwo & _)%Hpg1%Hpt. apply (page_apart v w); [apply Hv|apply Hwo|done|done].
  - intros x Hl Hp. rewrite M2; [apply Hm1, Hl; by left| |].
    + intros w Hw. apply Hl. by right.
    + intros w Hw%Hpg1. by apply Hp.
  - intros w [Hw%Hpg1|[? ?]]%G2; [by left|right]. split; [by right|done].
Qed.

Lemma allocuvm_loop_wp k n s l pgdir a newsz : kmem_rep kend s l → pt_ok kend (km_mem s) pgdir l →
  a mod PGSIZE = 0 → 0 ≤ a → newsz < KERNBASE →
  (k = 0%nat ∧ newsz ≤ a ∨ a + Z.of_nat (k - 1) * PGSIZE < newsz ≤ a + Z.of_nat k * PGSIZE) → (k ≤ n)%nat →
  (∀ i, (i < k)%nat → flag (pte (km_mem s) pgdir (a + Z.of_nat i * PGSIZE)) PTE_P = false) →
  (k + 1024 ≤ length l + tables (km_mem s) pgdir)%nat →
  wp (allocuvm_loop n pgdir a newsz) s (λ b s', b = true ∧ ∃ l' us, length us = k ∧
    extended pgdir a (λ _, Z.lor PTE_W PTE_U) (λ _ _, 0) s s' l l' us).
Proof.
  revert n s l a. induction k as [|k IH]; intros n s l a Hr Hok Ha Ha0 Hsz Hk Hn Hun Hen.
  { assert (allocuvm_loop n pgdir a newsz = mret true) as ->.
    { destruct n; cbn [allocuvm_loop]; by rewrite (proj2 (Z.ltb_ge _ _)) by lia. }
    rewrite wp_ret. split; [done|]. exists l, []. split; [done|]. by apply extended_nil. }
  destruct n as [|n]; [lia|]. cbn [allocuvm_loop]. destruct Hk as [[? _]|Hk]; [lia|].
  replace (Z.of_nat (S k - 1)) with (Z.of_nat k) in Hk by lia. unfold PGSIZE, KERNBASE in Hk, Hsz.
  rewrite (proj2 (Z.ltb_lt _ _)) by lia. rewrite wp_bind.
  destruct l as [|v l]; [pose proof (tables_bound (km_mem s) pgdir); simpl in Hen; lia|].
  wpa (kalloc_wp kend Hend s _ Hr). intros r s1 (-> & Hr1 & Em1).
  pose proof (kr_pages _ _ _ Hr) as [Hv Hpl]%Forall_cons. pose proof (kr_nodup _ _ _ Hr) as [Hvl _]%NoDup_cons.
  pose proof (page_pos kend Hend v Hv) as (? & _). rewrite (proj2 (Z.eqb_neq v 0)) by lia.
  unfold memset. rewrite wp_bind, wp_modify. set (s2 := set_mem _ s1).
  assert (∀ x, km_mem s2 x = if (v <=? x) && (x <? v + PGSIZE) then 0 else km_mem s x) as Hm2.
  { intros x. change (km_mem s2) with (CString.memset v 0 PGSIZE (km_mem s1)). rewrite Em1.
    by rewrite CString.memset_spec by (unfold PGSIZE; lia). }
  assert (∀ x, ¬ in_page v x → km_mem s2 x = km_mem s x) as Hm2'.
  { intros x Hx. rewrite Hm2. unfold in_page in Hx. by replace ((v <=? x) && (x <? v + PGSIZE)) with false by lia. }
  assert (kmem_rep kend s2 l) as Hr2.
  { destruct Hr1 as [Hc ? ?]. constructor; try done. eapply page_chain_ext; [|exact Hc]. intros w x Hw Hx.
    rewrite Em1. apply Hm2'. rewrite Forall_forall in Hpl.
    apply (page_apart w v); [apply (Hpl w Hw)|apply Hv|by intros ->|unfold in_page, PGSIZE; lia]. }
  rewrite wp_bind. wpa (map_page_wp s s2 v l pgdir a (Z.lor PTE_W PTE_U)); try done.
  { unfold PGSIZE. lia. }
  { specialize (Hun 0%nat ltac:(lia)). by rewrite Z.add_0_r in Hun. }
  { simpl in Hen. lia. }
  intros r s3 (-> & l3 & E3). rewrite u32_small by (unfold PGSIZE; lia).
  wpa (IH n s3 l3 (a + PGSIZE)); [apply E3|apply E3|..].
  all: try (unfold PGSIZE, KERNBASE; lia).
  { rewrite <- Ha. unfold PGSIZE. rewrite <- (Z.mod_add a 1 4096) by lia. f_equal. }
  { intros i Hi. rewrite (ex_pte _ _ _ _ _ _ _ _ _ E3) by (unfold PGSIZE; lia). cbn [length].
    replace ((a <=? _) && _) with false by (unfold PGSIZE; lia).
    replace (a + PGSIZE + Z.of_nat i * PGSIZE) with (a + Z.of_nat (S i) * PGSIZE) by lia. apply Hun. lia. }
  { pose proof (ex_count _ _ _ _ _ _ _ _ _ E3). simpl in *. lia. }
  intros b s4 (-> & l4 & us & Hlen & E4). split; [done|]. exists l4, (v :: us). split; [simpl; lia|].
  eapply (extended_cons pgdir a (λ _, _) (λ _ _, 0)); [done|done| |exact E4].
  destruct E3. constructor; try done. intros i off Hi Hoff. rewrite ex_content0 by done. rewrite Hm2.
  by replace ((v <=? v + off) && (v + off <? v + PGSIZE)) with true by lia.
Qed.

(** ** Copying an address space *)

Lemma walk_wp s pgdir va : wp (walkpgdir pgdir va false) s (λ r s', s' = s ∧
  r = if has_table (km_mem s) pgdir (PDX va) then table (km_mem s) pgdir (PDX va) + 4 * PTX va else 0).
Proof.
  unfold walkpgdir, load. rewrite wp_bind, wp_gets. fold (pde (km_mem s) pgdir (PDX va)).
  fold (has_table (km_mem s) pgdir (PDX va)). destruct (has_table _ _ _); simpl; by rewrite wp_ret.
Qed.

(** The entry of a mapped address is found. *)
Lemma walk_present_wp s l pgdir va : pt_ok kend (km_mem s) pgdir l →
  flag (pte (km_mem s) pgdir va) PTE_P = true →
  wp (walkpgdir pgdir va false) s (λ r s', s' = s ∧ r ≠ 0 ∧ load32 (km_mem s) r = pte (km_mem s) pgdir va).
Proof.
  intros Hok Hp. wpa walk_wp. intros r s' [-> ->]. unfold pte in *.
  destruct (has_table (km_mem s) pgdir (PDX va)) eqn:Et; [|done]. split_and!; try done.
  destruct (pk_table _ _ _ _ Hok _ (PDX_range va) Et) as (Hta & _).
  pose proof (page_pos kend Hend _ Hta). pose proof (PTX_range va). lia.
Qed.

(** Writing to a page just allocated keeps the free list. *)
Lemma fill_page s s1 v l f : kmem_rep kend s (v :: l) → kmem_rep kend s1 l → km_mem s1 = km_mem s →
  (∀ x, ¬ in_page v x → f (km_mem s) x = km_mem s x) → kmem_rep kend (set_mem f s1) l.
Proof.
  intros Hr [Hc ? Hpl] Em Hf. constructor; try done. eapply page_chain_ext; [|exact Hc]. intros w x Hw Hx.
  simpl. rewrite Em. pose proof (kr_pages _ _ _ Hr) as [Hv _]%Forall_cons.
  pose proof (kr_nodup _ _ _ Hr) as [Hvl _]%NoDup_cons. rewrite Forall_forall in Hpl.
  apply Hf, (page_apart w v); [apply (Hpl w Hw)|apply Hv|by intros ->|unfold in_page, PGSIZE; lia].
Qed.

Section copy.
Variables (m0 : CString.mem) (P sz : Z) (l0 : list Z).

(** The entry, page and permissions of page [i] of the parent. *)
Definition par_pte (i : nat) : Z := pte m0 P (Z.of_nat i * PGSIZE).
Definition par_page (i : nat) : Z := p2v (PTE_ADDR (par_pte i)).

(** The parent's pages: page tables and user memory. *)
Definition par (v : Z) : Prop := pt_page m0 P v ∨ ∃ i, Z.of_nat i * PGSIZE < sz ∧ v = par_page i.

Hypothesis Hpar_pt : pt_ok kend m0 P l0.
Hypothesis Hpar_map : ∀ i, Z.of_nat i * PGSIZE < sz →
  flag (par_pte i) PTE_P = true ∧ page_ok kend (par_page i) ∧ par_page i ∉ l0.
Hypothesis Hsz : 0 ≤ sz < KERNBASE.

Lemma par_ok v : par v → page_ok kend v ∧ v ∉ l0.
Proof using Hpar_pt Hpar_map.
  intros [[->|(i & Hi & Hp & ->)]|(i & Hi & ->)].
  - apply Hpar_pt.
  - by destruct (pk_table _ _ _ _ Hpar_pt i Hi Hp) as (? & ? & _).
  - by destruct (Hpar_map i Hi) as (_ & ? & ?).
Qed.

(** A page after the copy of another. *)
Lemma copied_page (s s1 : kmem) v l a (s2 := set_mem (CString.memmove v a PGSIZE) s1) :
  kmem_rep kend s (v :: l) → kmem_rep kend s1 l → km_mem s1 = km_mem s →
  (∀ x, km_mem s2 x = if (v <=? x) && (x <? v + PGSIZE) then km_mem s (a + (x - v)) else km_mem s x) ∧
  (∀ x, ¬ in_page v x → km_mem s2 x = km_mem s x) ∧ kmem_rep kend s2 l.
Proof using Hend.
  intros Hr Hr1 Em1.
  assert (∀ x, km_mem s2 x = if (v <=? x) && (x <? v + PGSIZE) then km_mem s (a + (x - v)) else km_mem s x) as Hm2.
  { intros x. change (km_mem s2) with (CString.memmove v a PGSIZE (km_mem s1)). rewrite Em1.
    by rewrite CString.memmove_spec by (unfold PGSIZE; lia). }
  assert (∀ x, ¬ in_page v x → km_mem s2 x = km_mem s x) as Hm2'.
  { intros x Hx. rewrite Hm2. unfold in_page in Hx. by replace ((v <=? x) && (x <? v + PGSIZE)) with false by lia. }
  split_and!; [done|done|]. apply (fill_page s s1 v l _ Hr Hr1 Em1). intros x Hx. rewrite <- (Hm2' x Hx), <- Em1. reflexivity.
Qed.

(** The parent's pages stay apart and as they were when the child grows by pages of
    the free list [l]. *)
Lemma par_kept d va fl ct s s3 l l3 us : extended d va fl ct s s3 l l3 us → Forall (page_ok kend) l → pt_ok kend (km_mem s) d l →
  (∀ w, par w → w ∉ l) → (∀ w, par w → ¬ pt_page (km_mem s) d w) → (∀ w x, par w → in_page w x → km_mem s x = m0 x) →
  (∀ w, par w → ¬ pt_page (km_mem s3) d w) ∧ (∀ w x, par w → in_page w x → km_mem s3 x = m0 x).
Proof using Hpar_pt Hpar_map Hend.
  intros E3 Hl Hok Hpnl Hpd Hpm. split.
  - intros w Hw [?|[? _]]%(ex_pages _ _ _ _ _ _ _ _ _ E3); [by apply (Hpd w)|by apply (Hpnl w)].
  - intros w x Hw Hx. rewrite (ex_mem _ _ _ _ _ _ _ _ _ E3); [by apply (Hpm w)|..].
    + intros u Hu. apply (page_apart w u); [by apply par_ok| |by intros ->; apply (Hpnl u)|done]. rewrite Forall_forall in Hl. by apply Hl.
    + intros u Hu. apply (page_apart w u); [by apply par_ok| |by intros ->; apply (Hpd u)|done].
      destruct Hu as [->|(i & Hii & Hpi & ->)]; [apply Hok|]. by apply (pk_table _ _ _ _ Hok).
Qed.

Lemma copyuvm_loop_wp k n s l d i0 : kmem_rep kend s l → pt_ok kend (km_mem s) d l →
  (∃ q, l0 = q ++ l) → (∀ v, par v → ¬ pt_page (km_mem s) d v) →
  (∀ v x, par v → in_page v x → km_mem s x = m0 x) →
  (k = 0%nat ∧ sz ≤ Z.of_nat i0 * PGSIZE ∨ Z.of_nat (i0 + k - 1) * PGSIZE < sz ≤ Z.of_nat (i0 + k) * PGSIZE) →
  (k ≤ n)%nat →
  (∀ j, (i0 ≤ j < i0 + k)%nat → flag (pte (km_mem s) d (Z.of_nat j * PGSIZE)) PTE_P = false) →
  (k + 1024 ≤ length l + tables (km_mem s) d)%nat →
  wp (copyuvm_loop n P d (Z.of_nat i0 * PGSIZE) sz) s (λ b s', b = true ∧ ∃ l' us, length us = k ∧
    extended d (Z.of_nat i0 * PGSIZE) (λ j, PTE_FLAGS (par_pte (i0 + j)))
      (λ j off, m0 (par_page (i0 + j) + off)) s s' l l' us).
Proof using All.
  revert n s l i0. induction k as [|k IH]; intros n s l i0 Hr Hok [q Hq] Hpd Hpm Hk Hn Hun Hen.
  { assert (copyuvm_loop n P d (Z.of_nat i0 * PGSIZE) sz = mret true) as ->.
    { unfold PGSIZE in *. destruct n; cbn [copyuvm_loop]; by rewrite (proj2 (Z.ltb_ge _ _)) by (unfold PGSIZE; lia). }
    rewrite wp_ret. split; [done|]. exists l, []. split; [done|]. by apply extended_nil. }
  destruct n as [|n]; [lia|]. cbn [copyuvm_loop]. destruct Hk as [[? _]|Hk]; [lia|].
  replace (i0 + S k - 1)%nat with (i0 + k)%nat in Hk by lia. unfold PGSIZE, KERNBASE in Hk, Hsz.
  rewrite (proj2 (Z.ltb_lt _ _)) by (unfold PGSIZE; lia). rewrite wp_bind.
  assert (pt_ok kend m0 P l) as Hpp.
  { eapply pt_ok_ext; [intros x _; reflexivity| |exact Hpar_pt]. intros w Hw. subst l0. apply elem_of_app. by right. }
  destruct (pt_ext m0 (km_mem s) P l Hpp) as (HP & Hpte & _).
  { intros v x Hv. apply Hpm. by left. }
  assert (Z.of_nat i0 * PGSIZE < sz) as Hi0 by (unfold PGSIZE; lia).
  destruct (Hpar_map i0 Hi0) as (Hp0 & Hpg0 & Hpl0).
  wpa (walk_present_wp s l P (Z.of_nat i0 * PGSIZE) HP); [by rewrite Hpte|].
  intros r s1 (-> & Hr0 & Er). rewrite (proj2 (Z.eqb_neq r 0)) by done.
  unfold load. rewrite wp_bind, wp_gets, Er, Hpte. fold (par_pte i0). rewrite Hp0. simpl negb. cbn iota.
  rewrite wp_bind. destruct l as [|v l]; [pose proof (tables_bound (km_mem s) d); simpl in Hen; lia|].
  wpa (kalloc_wp kend Hend s _ Hr). intros r1 s1 (-> & Hr1 & Em1).
  pose proof (kr_pages _ _ _ Hr) as [Hv Hvl]%Forall_cons.
  pose proof (page_pos kend Hend v Hv) as (? & _). rewrite (proj2 (Z.eqb_neq v 0)) by lia.
  rewrite wp_bind, wp_modify. fold (par_page i0). set (s2 := set_mem _ s1).
  destruct (copied_page s s1 v l (par_page i0) Hr Hr1 Em1) as (Hm2 & Hm2' & Hr2). fold s2 in Hm2, Hm2', Hr2.
  rewrite wp_bind. assert (0 ≤ PTE_FLAGS (par_pte i0) < PGSIZE) as Hfl
    by (rewrite PTE_FLAGS_eq; apply Z.mod_pos_bound; unfold PGSIZE; lia).
  wpa (map_page_wp s s2 v l d (Z.of_nat i0 * PGSIZE) (PTE_FLAGS (par_pte i0))); try done.
  { apply Z.mod_mul. unfold PGSIZE. lia. } { unfold PGSIZE. lia. } { unfold PGSIZE. lia. }
  { apply Hun. lia. } { simpl in Hen. lia. }
  intros r3 s3 (-> & l3 & E3). simpl. rewrite u32_small by (unfold PGSIZE; lia).
  replace (Z.of_nat i0 * PGSIZE + PGSIZE) with (Z.of_nat (S i0) * PGSIZE) by lia.
  assert (∀ w, par w → w ∉ v :: l) as Hpnl.
  { intros w [_ Hw]%par_ok Hin. apply Hw. subst l0. apply elem_of_app. by right. }
  wpa (IH n s3 l3 (S i0)); [apply E3|apply E3|..].
  { destruct (ex_suffix _ _ _ _ _ _ _ _ _ E3) as [q' E']. exists (q ++ q'). by rewrite Hq, E', (assoc_L (++)). }
  1-2: by apply (par_kept _ _ _ _ _ _ _ _ _ E3); [constructor|..].
  { unfold PGSIZE. lia. } { lia. }
  { intros j Hj. rewrite (ex_pte _ _ _ _ _ _ _ _ _ E3) by (unfold PGSIZE; lia). cbn [length].
    replace (_ && _) with false by (unfold PGSIZE; lia). apply Hun. lia. }
  { pose proof (ex_count _ _ _ _ _ _ _ _ _ E3). simpl in *. lia. }
  intros b s4 (-> & l4 & us & Hlen & E4). split; [done|]. exists l4, (v :: us). split; [simpl; lia|].
  eapply (extended_cons d _ (λ j, PTE_FLAGS (par_pte (i0 + j))) (λ j off, m0 (par_page (i0 + j) + off))); [done|done|..].
  - destruct E3. rewrite Nat.add_0_r. constructor; try done. intros i off Hi Hoff. rewrite ex_content0 by done. rewrite Hm2.
    replace ((v <=? v + off) && (v + off <? v + PGSIZE)) with true by lia.
    replace (par_page i0 + (v + off - v)) with (par_page i0 + off) by lia.
    apply (Hpm (par_page i0)); [right; by exists i0|by apply in_page_off].
  - replace (Z.of_nat i0 * PGSIZE + PGSIZE) with (Z.of_nat (S i0) * PGSIZE) by lia.
    destruct E4. constructor; try done.
    + intros va Hva. rewrite ex_pte0 by done. by rewrite Nat.add_succ_r.
    + intros i off Hi Hoff. rewrite ex_content0 by done. by rewrite Nat.add_succ_r.
Qed.
End copy.
End props.
