(* ===== verification/VmClaims.v ===== *)
(** * The main theorems about virtual memory (vm.c)

    What mappages, setupkvm, allocuvm and copyuvm do to the mapping of a page
    directory, with a concrete machine on which they run. *)

From stdpp Require Import base numbers option list sets strings.
From Stdlib Require Import ZArith Lia ZifyBool.
From S2P Require Import Prelude Bytes CString Kalloc Vm VmProofs VmProps.
Import Kalloc Vm.
Local Open Scope Z_scope.

Section claims.
Variables kend data : Z.
Hypothesis Hend : KERNBASE ≤ kend.
Hypothesis Hdata : data mod PGSIZE = 0 ∧ KERNLINK < data < KERNBASE + PHYSTOP.
Implicit Types (m : CString.mem) (l : list Z) (pgdir va : Z).

(** C18. [mappages] of [n + 1] unmapped pages maps each page of the range to
    the corresponding physical page with the given permissions and the present
    bit, changes no other entry, keeps the page table well formed (its pages
    distinct, none of them free), takes page-table pages from the free list
    only, and never panics; it returns -1 only if fewer than [1024] pages were
    free or already used as tables of this directory. *)
Theorem mappages_maps n s l pgdir va pa perm : kmem_rep kend s l → pt_ok kend (km_mem s) pgdir l →
  va mod PGSIZE = 0 → 0 ≤ va → va + Z.of_nat (S n) * PGSIZE ≤ 2 ^ 32 →
  pa mod PGSIZE = 0 → 0 ≤ pa → pa + Z.of_nat (S n) * PGSIZE ≤ 2 ^ 32 → 0 ≤ perm < PGSIZE →
  (∀ i, (i ≤ n)%nat → flag (pte (km_mem s) pgdir (va + Z.of_nat i * PGSIZE)) PTE_P = false) →
  wp (mappages pgdir va (Z.of_nat (S n) * PGSIZE) pa perm) s (λ r s', ∃ l' j,
    pt_step kend s s' pgdir l l' ∧
    ((r = 0 ∧ j = S n) ∨ (r = -1 ∧ (j ≤ n)%nat ∧ (length l + tables (km_mem s) pgdir < 1024)%nat)) ∧
    mapped (km_mem s) (km_mem s') pgdir va j pa perm).
Proof using Hend. by apply mappages_wp. Qed.

(** C19. Every page table made by [setupkvm] maps the kernel: the I/O space,
    the kernel text read-only, data and free memory, and the devices, each
    address to its physical address; user addresses are unmapped; only free
    pages are written, and they leave the free list. *)
Theorem setupkvm_maps_kernel s d l : kmem_rep kend s (d :: l) → (1024 ≤ length l)%nat →
  wp (setupkvm data) s (λ r s', r = d ∧ ∃ l', kmem_rep kend s' l' ∧ pt_ok kend (km_mem s') d l' ∧
    (∀ x, (∀ v, v ∈ d :: l → ¬ in_page v x) → km_mem s' x = km_mem s x) ∧
    (∀ va, 0 ≤ va < KERNBASE → pte (km_mem s') d va = 0) ∧
    (∀ k va, k ∈ kmaps data → 0 ≤ va < 2 ^ 32 → in_kmap k va = true → pte (km_mem s') d va = k_entry k va)).
Proof using Hend Hdata.
  intros Hr Hl. wpa (setupkvm_wp kend Hend data Hdata s d l Hr Hl).
  intros r s' (-> & l' & ? & ? & _ & _ & ? & _ & ? & ?). split; [done|]. by exists l'.
Qed.

(** C20. Growing a process: [allocuvm] refuses sizes that reach the kernel,
    leaves a size that is already larger alone, and otherwise, with enough
    free pages, returns the new size with every page between the sizes mapped
    writable and user-accessible to its own fresh zeroed page, and every other
    mapping and page unchanged. *)
Theorem allocuvm_grows s l pgdir oldsz newsz : kmem_rep kend s l → pt_ok kend (km_mem s) pgdir l →
  0 ≤ oldsz < KERNBASE → 0 ≤ newsz →
  let k := Z.to_nat ((newsz + PGSIZE - 1) / PGSIZE - (oldsz + PGSIZE - 1) / PGSIZE) in
  (∀ i, (i < k)%nat → flag (pte (km_mem s) pgdir (PGROUNDUP oldsz + Z.of_nat i * PGSIZE)) PTE_P = false) →
  (k + 1024 ≤ length l + tables (km_mem s) pgdir)%nat →
  wp (allocuvm kend pgdir oldsz newsz) s (λ r s',
    if KERNBASE <=? newsz then r = 0 ∧ s' = s
    else if newsz <? oldsz then r = oldsz ∧ s' = s
    else r = newsz ∧ ∃ l' us, length us = k ∧
      extended kend pgdir (PGROUNDUP oldsz) (λ _, Z.lor PTE_W PTE_U) (λ _ _, 0) s s' l l' us).
Proof using Hend.
  intros Hr Hok Ho Hn k Hun Hen. unfold allocuvm.
  destruct (Z.leb_spec KERNBASE newsz); [by rewrite wp_ret|].
  destruct (Z.ltb_spec newsz oldsz); [by rewrite wp_ret|].
  destruct (PGROUNDUP_eq oldsz) as [Hal Hup]; [lia|unfold KERNBASE, PGSIZE in *; lia|].
  rewrite wp_bind. wpa (allocuvm_loop_wp kend Hend k _ s l pgdir (PGROUNDUP oldsz) newsz); try done.
  - lia.
  - unfold k, PGSIZE in *. clear -Hal Hup Ho Hn H H0. Z.div_mod_to_equations. lia.
  - unfold k, PGSIZE in *. clear -Ho Hn H0. Z.div_mod_to_equations. lia.
  - intros b s' (-> & l' & us & Hlen & E). simpl. rewrite wp_ret. split; [done|]. by exists l', us.
Qed.

(** C21. Copying an address space for fork: with enough free pages,
    [copyuvm] returns a new page directory in which each user page of the
    parent is mapped, with the parent's permissions, to a fresh page of its
    own with the same content; no other user address is mapped, and the
    parent's page tables and memory are as before. *)
Theorem copyuvm_copies s d l P sz : kmem_rep kend s (d :: l) → pt_ok kend (km_mem s) P (d :: l) →
  0 ≤ sz < KERNBASE → let m0 := km_mem s in let k := Z.to_nat ((sz + PGSIZE - 1) / PGSIZE) in
  (∀ i, Z.of_nat i * PGSIZE < sz → flag (par_pte m0 P i) PTE_P = true ∧
    page_ok kend (par_page m0 P i) ∧ par_page m0 P i ∉ d :: l) →
  (k + 1024 ≤ length l)%nat →
  wp (copyuvm kend data P sz) s (λ r s', r = d ∧ ∃ us, length us = k ∧ NoDup us ∧
    (∀ u, u ∈ us → u ∈ l ∧ ¬ pt_page (km_mem s') d u) ∧
    (∀ va, 0 ≤ va < KERNBASE → pte (km_mem s') d va =
      let i := Z.to_nat (va / PGSIZE) in
      if va <? Z.of_nat k * PGSIZE then entry (v2p (us !!! i)) (PTE_FLAGS (par_pte m0 P i)) else 0) ∧
    (∀ i off, (i < k)%nat → 0 ≤ off < PGSIZE → km_mem s' (us !!! i + off) = m0 (par_page m0 P i + off)) ∧
    (∀ v x, par m0 P sz v → in_page v x → km_mem s' x = m0 x)).
Proof using Hend Hdata.
  intros Hr HP Hsz m0 k Hpar Hlen. unfold copyuvm. rewrite wp_bind.
  wpa (setupkvm_wp kend Hend data Hdata s d l Hr); [lia|].
  intros r s1 (-> & l1 & Hr1 & Hok1 & [q Hq] & Hc1 & Hm1 & Hpg1 & Hu1 & _).
  pose proof (kr_pages _ _ _ Hr) as Hpl. rewrite Forall_forall in Hpl.
  pose proof (page_pos kend Hend d) as Hd0. specialize (Hd0 ltac:(apply Hpl; by left)).
  rewrite (proj2 (Z.eqb_neq d 0)) by lia. rewrite wp_bind.
  pose proof (par_ok kend m0 P sz (d :: l) HP Hpar) as Hpo.
  assert (∀ v x, par m0 P sz v → in_page v x → km_mem s1 x = m0 x) as Hpm.
  { intros v x Hv Hx. destruct (Hpo v Hv) as [Hvo Hvl]. apply Hm1. intros w Hw.
    apply (page_apart v w); [apply Hvo|by apply Hpl|by intros ->|done]. }
  assert (∀ v, par m0 P sz v → ¬ pt_page (km_mem s1) d v) as Hpd.
  { intros v [_ Hv]%Hpo [? _]%Hpg1. done. }
  wpa (copyuvm_loop_wp kend Hend m0 P sz (d :: l) HP Hpar Hsz k _ s1 l1 d 0); try done.
  - exists (d :: q). by rewrite Hq.
  - unfold k, PGSIZE in *. clear -Hsz. Z.div_mod_to_equations. lia.
  - unfold k, PGSIZE in *. clear -Hsz. Z.div_mod_to_equations. lia.
  - intros j Hj. rewrite Hu1; [done|]. unfold k, PGSIZE, KERNBASE in *. clear -Hsz Hj. Z.div_mod_to_equations. lia.
  - lia.
  - intros b s2 (-> & l2 & us & Hus & [R2 O2 _ C2 N2 F2 P2 Y2 M2 G2]). simpl. rewrite wp_ret. split; [done|].
    exists us. rewrite Hus in *. split_and!; [done|done| | |done|].
    + intros u Hu. destruct (F2 u Hu) as (Hu1' & _ & ?). split; [|done]. subst l. apply elem_of_app. by right.
    + intros va Hva. rewrite P2 by (unfold KERNBASE in Hva; lia).
      change (Z.of_nat 0 * PGSIZE) with 0. rewrite Z.sub_0_r, Z.add_0_l, (proj2 (Z.leb_le 0 va)) by lia. simpl.
      destruct (va <? Z.of_nat k * PGSIZE); [done|]. by apply Hu1.
    + intros v x Hv Hx. rewrite M2; [by apply (Hpm v)|..].
      * intros w Hw. destruct (Hpo v Hv) as [Hvo Hvl]. assert (w ∈ d :: l) as Hwl.
        { subst l. right. apply elem_of_app. by right. }
        apply (page_apart v w); [apply Hvo|by apply Hpl|by intros ->|done].
      * intros w Hw. destruct (Hpo v Hv) as [Hvo Hvl]. destruct (Hpg1 w Hw) as [Hwl _].
        apply (page_apart v w); [apply Hvo|by apply Hpl|by intros ->|done].
Qed.
End claims.

(** ** A concrete memory

    Free pages from [base] on, linked in order; the rest of memory is zero. *)

Definition free_mem (base : Z) (n : nat) : CString.mem := λ x,
  if (base <=? x) && (x <? base + Z.of_nat n * PGSIZE) then
    let i := (x - base) / PGSIZE in let o := (x - base) mod PGSIZE in
    let next := if i + 1 <? Z.of_nat n then base + (i + 1) * PGSIZE else 0 in
    if o <? 4 then u8 (next / 2 ^ (8 * o)) else 1
  else 0.

Lemma free_mem_next base n (i : nat) : 0 ≤ base → base + Z.of_nat n * PGSIZE < 2 ^ 32 → (i < n)%nat →
  load32 (free_mem base n) (base + Z.of_nat i * PGSIZE) =
  if Z.of_nat i + 1 <? Z.of_nat n then base + (Z.of_nat i + 1) * PGSIZE else 0.
Proof.
  intros Hb Hn Hi. set (next := if _ <? _ then _ else _).
  assert (∀ o, 0 ≤ o < 4 → free_mem base n (base + Z.of_nat i * PGSIZE + o) = u8 (next / 2 ^ (8 * o))) as H.
  { intros o Ho. unfold free_mem.
    rewrite (proj2 (Z.leb_le _ _)), (proj2 (Z.ltb_lt _ (base + Z.of_nat n * PGSIZE))) by (unfold PGSIZE in *; lia). simpl.
    replace (base + Z.of_nat i * PGSIZE + o - base) with (o + Z.of_nat i * PGSIZE) by lia.
    rewrite Z.div_add, Z.mod_add by (unfold PGSIZE; lia).
    rewrite (Z.div_small o), (Z.mod_small o) by (unfold PGSIZE; lia). rewrite (proj2 (Z.ltb_lt o 4)) by lia. done. }
  unfold load32. rewrite <- (Z.add_0_r (base + Z.of_nat i * PGSIZE)) at 1. rewrite !H by lia.
  change (next / 2 ^ (8 * 0)) with (next / 1). rewrite Z.div_1_r.
  apply (u8_bytes next). unfold next. destruct (_ <? _) eqn:E; [|lia]. unfold PGSIZE in *. lia.
Qed.

Lemma free_mem_chain base n k : 0 ≤ base → base + Z.of_nat n * PGSIZE < 2 ^ 32 → (k < n)%nat →
  chain (free_mem base n) (base + Z.of_nat (n - 1 - k) * PGSIZE) (pages (base + Z.of_nat (n - 1 - k) * PGSIZE) (S k)).
Proof.
  intros Hb Hn. induction k as [|k IH]; intros Hk; rewrite pages_cons; cbn [chain]; split; try done.
  - rewrite free_mem_next by (done || lia). by rewrite (proj2 (Z.ltb_ge _ _)) by lia.
  - rewrite free_mem_next by (done || lia). rewrite (proj2 (Z.ltb_lt _ _)) by lia.
    replace (base + (Z.of_nat (n - 1 - S k) + 1) * PGSIZE) with (base + Z.of_nat (n - 1 - k) * PGSIZE) by (unfold PGSIZE; lia).
    replace (base + Z.of_nat (n - 1 - S k) * PGSIZE + PGSIZE) with (base + Z.of_nat (n - 1 - k) * PGSIZE) by (unfold PGSIZE; lia).
    apply IH. lia.
Qed.

Lemma pages_nodup p n : NoDup (pages p n).
Proof.
  unfold pages. apply NoDup_fmap_2; [|apply NoDup_seq]. intros i j E. unfold PGSIZE in E. lia.
Qed.

Lemma free_mem_rep kend base n m : KERNBASE ≤ kend ≤ base → base mod PGSIZE = 0 →
  base + Z.of_nat n * PGSIZE ≤ KERNBASE + PHYSTOP → (0 < n)%nat →
  (∀ v x, v ∈ pages base n → in_page v x → m x = free_mem base n x) →
  kmem_rep kend (mkKmem 1 base m) (pages base n).
Proof.
  intros Hk Hb Hn Hn0 Hm. unfold KERNBASE, PHYSTOP in *. constructor; simpl.
  - eapply page_chain_ext; [intros v x Hv Hx; apply (Hm v); [done|unfold in_page, PGSIZE; lia]|].
    pose proof (free_mem_chain base n (n - 1)) as H. replace (n - 1 - (n - 1))%nat with 0%nat in H by lia.
    replace (S (n - 1)) with n in H by lia. rewrite Z.add_0_r in H. apply H; lia.
  - apply pages_nodup.
  - apply Forall_forall. intros v (i & Hi & ->)%pages_in. split.
    + by rewrite Z.mod_add by (unfold PGSIZE; lia).
    + unfold KERNBASE, PHYSTOP, PGSIZE in *. lia.
Qed.

(** 2048 free pages after the kernel, and a process at [proc0] with one page
    of memory. *)
Definition kend0 : Z := KERNLINK + 16 * PGSIZE.
Definition data0 : Z := KERNLINK + 8 * PGSIZE.
Definition proc0 : Z := kend0 + 2048 * PGSIZE.
Definition mem0 : CString.mem :=
  store32 proc0 (entry (v2p (proc0 + PGSIZE)) 6)
    (store32 (proc0 + PGSIZE) (entry (v2p (proc0 + 2 * PGSIZE)) 6) (free_mem kend0 2048)).
Definition state0 : kmem := mkKmem 1 kend0 mem0.

Lemma state0_rep : kmem_rep kend0 state0 (pages kend0 2048).
Proof.
  apply free_mem_rep; [vm_compute; intuition congruence|reflexivity|vm_compute; congruence|lia|].
  intros v x (i & Hi & ->)%pages_in Hx. unfold mem0, in_page, proc0, kend0, KERNLINK, EXTMEM, KERNBASE, PGSIZE in *.
  rewrite !store32_out by lia. done.
Qed.

Ltac layout0 := unfold proc0, kend0, data0, KERNLINK, EXTMEM, KERNBASE, PHYSTOP, PGSIZE in *.

Lemma mem0_zero x : proc0 + 4 ≤ x → x < proc0 + PGSIZE ∨ proc0 + PGSIZE + 4 ≤ x → mem0 x = 0.
Proof.
  intros H1 H2. unfold mem0. rewrite !store32_out by (layout0; lia).
  unfold free_mem. rewrite (proj2 (Z.ltb_ge x _)), andb_false_r by (layout0; lia). done.
Qed.

Lemma mem0_pde i : 0 ≤ i < 1024 → pde mem0 proc0 i = if i =? 0 then entry (v2p (proc0 + PGSIZE)) 6 else 0.
Proof.
  intros Hi. unfold pde. destruct (Z.eqb_spec i 0) as [->|].
  - rewrite Z.add_0_r. apply load32_store32. vm_compute. intuition congruence.
  - apply load32_zero. intros x Hx. apply mem0_zero; unfold PGSIZE; lia.
Qed.

Lemma mem0_table : has_table mem0 proc0 0 = true ∧ table mem0 proc0 0 = proc0 + PGSIZE.
Proof. unfold has_table, table. rewrite mem0_pde by lia. vm_compute. auto. Qed.

Lemma mem0_ok : pt_ok kend0 mem0 proc0 (pages kend0 2048).
Proof.
  destruct mem0_table as [_ Et].
  assert (∀ j, proc0 + j * PGSIZE ∉ pages kend0 2048 ∨ j < 0) as Hout.
  { intros j. destruct (Z.lt_ge_cases j 0); [by right|left]. intros (i & Hi & E)%pages_in. layout0. lia. }
  assert (∀ i, 0 ≤ i < 1024 → has_table mem0 proc0 i = true → i = 0) as Hz.
  { intros i Hi. unfold has_table. rewrite mem0_pde by done. by destruct (Z.eqb_spec i 0). }
  constructor.
  - split; [vm_compute; intuition congruence|]. destruct (Hout 0) as [H|]; [|lia]. by rewrite Z.add_0_r in H.
  - intros i Hi ->%Hz; [|done]. rewrite Et. split_and!; [vm_compute; intuition congruence..| |layout0; lia].
    destruct (Hout 1) as [H|]; [|lia]. by rewrite Z.mul_1_l in H.
  - intros i j Hi Hj ->%Hz ->%Hz; done.
Qed.

Lemma mem0_pte va : 0 ≤ va < 2 ^ 22 →
  pte mem0 proc0 va = if va <? PGSIZE then entry (v2p (proc0 + 2 * PGSIZE)) 6 else 0.
Proof.
  intros Hva. destruct mem0_table as [Eh Et]. unfold pte.
  assert (PDX va = 0) as -> by (rewrite PDX_eq, Z.div_small by lia; done). rewrite Eh, Et, PTX_eq.
  rewrite (Z.mod_small (va / 2 ^ 12)) by (split; [apply Z.div_pos|apply Z.div_lt_upper_bound]; lia).
  unfold PGSIZE in *. destruct (Z.ltb_spec va 4096).
  - rewrite Z.div_small by lia. change (proc0 + 4096 + 4 * 0) with (proc0 + PGSIZE). unfold mem0.
    rewrite (load32_ext (store32 (proc0 + PGSIZE) (entry (v2p (proc0 + 2 * PGSIZE)) 6) (free_mem kend0 2048))).
    + apply load32_store32. vm_compute. intuition congruence.
    + intros x Hx. apply store32_out. layout0. lia.
  - apply load32_zero. intros x Hx. pose proof (Z.div_le_lower_bound va (2 ^ 12) 1 ltac:(lia) ltac:(lia)).
    apply mem0_zero; unfold PGSIZE in *; lia.
Qed.

Lemma mem0_tables : tables mem0 proc0 = 1%nat.
Proof.
  unfold tables. rewrite (filter_count _ (λ i, i =? 0)); [vm_compute; reflexivity|].
  intros i Hi%elem_of_seqZ. unfold has_table. rewrite mem0_pde by lia. by destruct (Z.eqb_spec i 0).
Qed.

Lemma kend0_ok : KERNBASE ≤ kend0.
Proof. vm_compute. congruence. Qed.

Lemma mappages_maps_witness :
  wp (mappages proc0 PGSIZE (2 * PGSIZE) EXTMEM 6) state0 (λ r s', r = 0 ∧
    pte (km_mem s') proc0 (2 * PGSIZE) = entry (EXTMEM + PGSIZE) 6).
Proof.
  eapply wp_mono; [apply (mappages_maps kend0 kend0_ok 1 state0 (pages kend0 2048) proc0 PGSIZE EXTMEM 6 state0_rep mem0_ok)|];
    [reflexivity|unfold PGSIZE; lia|unfold PGSIZE; lia|reflexivity|unfold EXTMEM; lia|
     unfold EXTMEM, PGSIZE; lia|unfold PGSIZE; lia|..].
  - intros i Hi. rewrite mem0_pte by (unfold PGSIZE; lia).
    by rewrite (proj2 (Z.ltb_ge _ _)) by (unfold PGSIZE; lia).
  - intros r s' (l' & j & _ & Hj & Hm). destruct Hj as [[-> ->]|(_ & _ & H)].
    + split; [reflexivity|]. rewrite (Hm (2 * PGSIZE)) by (vm_compute; intuition congruence). reflexivity.
    + exfalso. unfold pages in H. rewrite length_fmap, length_seq in H. lia.
Defined.

Lemma data0_ok : data0 mod PGSIZE = 0 ∧ KERNLINK < data0 < KERNBASE + PHYSTOP.
Proof. vm_compute. intuition congruence. Qed.

Lemma setupkvm_maps_kernel_witness : wp (setupkvm data0) state0 (λ r s', r = kend0 ∧
  pte (km_mem s') kend0 0 = 0 ∧ pte (km_mem s') kend0 KERNLINK = entry EXTMEM 0).
Proof.
  eapply wp_mono; [apply (setupkvm_maps_kernel kend0 data0 kend0_ok data0_ok state0 kend0 (pages (kend0 + PGSIZE) 2047))|].
  - rewrite <- pages_cons. exact state0_rep.
  - unfold pages. rewrite length_fmap, length_seq. lia.
  - intros r s' (-> & l' & _ & _ & _ & Hu & Hk). split; [reflexivity|]. split.
    + apply Hu. vm_compute. intuition congruence.
    + rewrite (Hk (mkKmap KERNLINK (v2p KERNLINK) (v2p data0) 0)).
      * reflexivity.
      * unfold kmaps. right. left.
      * vm_compute. intuition congruence.
      * vm_compute. reflexivity.
Defined.

Lemma length_pages p n : length (pages p n) = n.
Proof. unfold pages. by rewrite length_fmap, length_seq. Qed.

Lemma allocuvm_grows_witness :
  wp (allocuvm kend0 proc0 PGSIZE (2 * PGSIZE + 1)) state0 (λ r s', r = 2 * PGSIZE + 1 ∧
    flag (pte (km_mem s') proc0 PGSIZE) PTE_P = true ∧
    flag (pte (km_mem s') proc0 (3 * PGSIZE)) PTE_P = false).
Proof.
  eapply wp_mono; [apply (allocuvm_grows kend0 kend0_ok state0 (pages kend0 2048) proc0 PGSIZE (2 * PGSIZE + 1) state0_rep mem0_ok)|];
    [unfold PGSIZE, KERNBASE; lia|unfold PGSIZE; lia|..].
  - change (PGROUNDUP PGSIZE) with PGSIZE. intros i Hi. change (Z.to_nat _) with 2%nat in Hi.
    change (km_mem state0) with mem0. rewrite mem0_pte by (unfold PGSIZE; lia).
    by rewrite (proj2 (Z.ltb_ge _ _)) by (unfold PGSIZE; lia).
  - change (km_mem state0) with mem0. rewrite length_pages, mem0_tables. change (Z.to_nat _) with 2%nat. lia.
  - change (PGROUNDUP PGSIZE) with PGSIZE. change (Z.to_nat _) with 2%nat.
    change (KERNBASE <=? 2 * PGSIZE + 1) with false. change (2 * PGSIZE + 1 <? PGSIZE) with false. cbn iota.
    intros r s' (-> & l' & us & Hus & E). split; [reflexivity|].
    rewrite !(ex_pte _ _ _ _ _ _ _ _ _ _ E) by (unfold PGSIZE; lia). rewrite Hus.
    change (km_mem state0) with mem0.
    change ((PGSIZE <=? PGSIZE) && (PGSIZE <? PGSIZE + Z.of_nat 2 * PGSIZE)) with true.
    change ((PGSIZE <=? 3 * PGSIZE) && (3 * PGSIZE <? PGSIZE + Z.of_nat 2 * PGSIZE)) with false. cbn iota.
    split; [apply entry_present|]. rewrite mem0_pte by (unfold PGSIZE; lia). reflexivity.
Defined.

Lemma copyuvm_copies_witness : wp (copyuvm kend0 data0 proc0 PGSIZE) state0 (λ r s', r = kend0 ∧ ∃ u,
  u ≠ proc0 + 2 * PGSIZE ∧ pte (km_mem s') kend0 0 = entry (v2p u) 7 ∧
  km_mem s' (u + 5) = km_mem state0 (proc0 + 2 * PGSIZE + 5)).
Proof.
  assert (par_pte mem0 proc0 0 = entry (v2p (proc0 + 2 * PGSIZE)) 6) as Ep.
  { unfold par_pte. rewrite mem0_pte by (unfold PGSIZE; lia). reflexivity. }
  assert (par_page mem0 proc0 0 = proc0 + 2 * PGSIZE) as Epg by (unfold par_page; rewrite Ep; reflexivity).
  assert (proc0 + 2 * PGSIZE ∉ pages kend0 2048) as Hnot.
  { intros (i & Hi & E)%pages_in. layout0. lia. }
  eapply wp_mono; [apply (copyuvm_copies kend0 data0 kend0_ok data0_ok state0 kend0 (pages (kend0 + PGSIZE) 2047) proc0 PGSIZE)|].
  - rewrite <- pages_cons. exact state0_rep.
  - rewrite <- pages_cons. exact mem0_ok.
  - unfold PGSIZE, KERNBASE. lia.
  - intros i Hi. assert (i = 0%nat) as -> by (unfold PGSIZE in Hi; lia). change (km_mem state0) with mem0.
    rewrite Epg, Ep. split; [apply entry_present|]. rewrite <- pages_cons.
    split; [vm_compute; intuition congruence|exact Hnot].
  - rewrite length_pages. change (Z.to_nat _) with 1%nat. lia.
  - change (Z.to_nat ((PGSIZE + PGSIZE - 1) / PGSIZE)) with 1%nat. change (km_mem state0) with mem0.
    intros r s' (-> & us & Hus & _ & Hin & Hpte & Hc & _). split; [reflexivity|]. exists (us !!! 0%nat).
    split_and!.
    + intros E. assert (us !!! 0%nat ∈ us) as Hu.
      { apply list_elem_of_lookup. exists 0%nat. apply arr_lookup. lia. }
      apply Hnot. rewrite <- E. rewrite pages_cons. right. apply (Hin _ Hu).
    + rewrite Hpte by (unfold KERNBASE; lia). cbv zeta. change (0 <? Z.of_nat 1 * PGSIZE) with true. cbn iota.
      change (Z.to_nat (0 / PGSIZE)) with 0%nat. rewrite Ep.
      rewrite entry_flags by (reflexivity || (unfold PGSIZE; lia)). reflexivity.
    + rewrite Hc by (unfold PGSIZE; lia). by rewrite Epg.
Defined.

(** When memory runs out between the page and its page table, [allocuvm]
    ignores the failure of [mappages]: it returns the new size although the
    page is not mapped, and the page is lost. *)
Theorem allocuvm_ignores_mappages : 
  let s := mkKmem 1 kend0 (λ _, 0) in
  wp (allocuvm kend0 proc0 0 PGSIZE) s (λ r s',
    r = PGSIZE ∧ flag (pte (km_mem s') proc0 0) PTE_P = false ∧ km_freelist s' = 0).
Proof. vm_compute. auto. Qed.
