(* ===== verification/Block.v ===== *)
(** * The block interface

    What the buffer cache (bio.c over a disk driver) promises to its clients
    log.c and fs.c: the operations on [struct buf *] that those files use
    ([BlockIO]), and their contract ([BlockIOSpec]) in terms of the content of
    the disk, the current content of every block, the blocks pinned by
    [B_DIRTY] and the buffers held ([B_BUSY]) by the caller. *)

From stdpp Require Import base numbers option list gmap strings.
From S2P Require Import Prelude.
Local Open Scope Z_scope.

Definition BSIZE : Z := 512.
Definition MAXOPBLOCKS : Z := 10.
Definition LOGSIZE : Z := MAXOPBLOCKS * 3.
Definition NBUF : Z := MAXOPBLOCKS * 3.
Definition ROOTDEV : Z := 1.

(** The bytes of a [BSIZE] block, each in [0 .. 255]. *)
Abbreviation block := (list Z).
Definition zero_block : block := replicate (Z.to_nat BSIZE) 0.
Arguments zero_block : simpl never.

(** The content of the sectors of a disk. *)
Abbreviation sectors := (gmap Z block).

(** The effect of a sequence of sector writes, oldest first. *)
Definition apply_writes (ws : list (Z * block)) (d : sectors) : sectors :=
  foldl (λ d w, <[w.1 := w.2]> d) d ws.

Lemma apply_writes_app ws1 ws2 d :
  apply_writes (ws1 ++ ws2) d = apply_writes ws2 (apply_writes ws1 d).
Proof. apply foldl_app. Qed.

Lemma apply_writes_notin ws d n :
  n ∉ ws.*1 → apply_writes ws d !! n = d !! n.
Proof.
  revert d. induction ws as [|[m b] ws IH]; intros d Hn; [done|].
  csimpl in *. apply not_elem_of_cons in Hn as [? ?].
  unfold apply_writes in *; simpl. rewrite IH by done. by apply lookup_insert_ne.
Qed.

Lemma if_member (b : bool) (X : gset Z) n : (n ∈ X ↔ b = true) →
  (if b then {[n]} ∪ X else X ∖ {[n]}) = X.
Proof. intros H. destruct b; set_solver. Qed.

Lemma empty_diff (X : gset Z) : ∅ ∖ X = (∅ : gset Z).
Proof. set_solver. Qed.

Class BlockIO (S : Type) := {
  bread : Z → Z → kM S nat;              (** [bread(dev, sector)] *)
  bwrite : nat → kM S unit;              (** [bwrite(b)] *)
  brelse : nat → kM S unit;              (** [brelse(b)] *)
  buf_data : S → nat → block;            (** [b->data] *)
  buf_sector : S → nat → Z;              (** [b->sector] *)
  set_buf_data : nat → block → S → S;    (** stores through [b->data] *)
  set_buf_dirty : nat → S → S            (** [b->flags |= B_DIRTY] *)
}.

(** The sectors of the held buffers. *)
Definition held_sectors (h : gmap nat Z) : gset Z := map_img h.

Class BlockIOSpec (S : Type) `{!BlockIO S} := {
  bio_inv : S → Prop;
  bio_size : S → Z;
  bio_disk : S → sectors;
  bio_writes : S → list (Z * block);
  bio_cur : S → Z → block;
  bio_dirty : S → gset Z;
  bio_held : S → gmap nat Z;

  bio_held_data s b n : bio_inv s → bio_held s !! b = Some n →
    buf_data s b = bio_cur s n ∧ buf_sector s b = n ∧ 0 ≤ n < bio_size s;
  bio_held_inj s b b' n : bio_inv s →
    bio_held s !! b = Some n → bio_held s !! b' = Some n → b = b';
  bio_cur_clean s n : bio_inv s → n ∉ bio_dirty s → n ∉ held_sectors (bio_held s) →
    0 ≤ n < bio_size s → bio_cur s n = bio_disk s !!! n;
  bio_cur_length s n : bio_inv s → 0 ≤ n < bio_size s → length (bio_cur s n) = Z.to_nat BSIZE;

  bread_spec s n : bio_inv s → 0 ≤ n < bio_size s →
    n ∉ held_sectors (bio_held s) →
    n ∈ bio_dirty s ∨ Z.of_nat (size (bio_dirty s ∪ held_sectors (bio_held s))) < NBUF →
    wp (bread ROOTDEV n) s (λ b s', bio_inv s' ∧ bio_size s' = bio_size s ∧
      bio_held s !! b = None ∧ bio_held s' = <[b := n]> (bio_held s) ∧
      bio_dirty s' = bio_dirty s ∧ (∀ m, bio_cur s' m = bio_cur s m) ∧
      bio_disk s' = bio_disk s ∧ bio_writes s' = bio_writes s);
  brelse_spec s b n : bio_inv s → bio_held s !! b = Some n →
    n ∈ bio_dirty s ∨ bio_cur s n = bio_disk s !!! n →
    wp (brelse b) s (λ _ s', bio_inv s' ∧ bio_size s' = bio_size s ∧
      bio_held s' = delete b (bio_held s) ∧
      bio_dirty s' = bio_dirty s ∧ (∀ m, bio_cur s' m = bio_cur s m) ∧
      bio_disk s' = bio_disk s ∧ bio_writes s' = bio_writes s);
  bwrite_spec s b n : bio_inv s → bio_held s !! b = Some n →
    wp (bwrite b) s (λ _ s', bio_inv s' ∧ bio_size s' = bio_size s ∧
      bio_held s' = bio_held s ∧
      bio_dirty s' = bio_dirty s ∖ {[n]} ∧ (∀ m, bio_cur s' m = bio_cur s m) ∧
      bio_disk s' = <[n := bio_cur s n]> (bio_disk s) ∧
      bio_writes s' = bio_writes s ++ [(n, bio_cur s n)]);
  set_buf_data_spec s b n d : bio_inv s → bio_held s !! b = Some n →
    length d = Z.to_nat BSIZE →
    let s' := set_buf_data b d s in
    bio_inv s' ∧ bio_size s' = bio_size s ∧ bio_held s' = bio_held s ∧
    bio_dirty s' = bio_dirty s ∧
    (∀ m, bio_cur s' m = if decide (m = n) then d else bio_cur s m) ∧
    bio_disk s' = bio_disk s ∧ bio_writes s' = bio_writes s;
  set_buf_dirty_spec s b n : bio_inv s → bio_held s !! b = Some n →
    let s' := set_buf_dirty b s in
    bio_inv s' ∧ bio_size s' = bio_size s ∧ bio_held s' = bio_held s ∧
    bio_dirty s' = {[n]} ∪ bio_dirty s ∧ (∀ m, bio_cur s' m = bio_cur s m) ∧
    bio_disk s' = bio_disk s ∧ bio_writes s' = bio_writes s
}.
