(* ===== verification/Ide.v ===== *)
(** * The disk driver (ide.c)

    The queue of requests is a list through the [qnext] fields of the buffers;
    its first buffer is the request that the controller works on.  The
    controller is hardware: the class [Ata] gives the port instructions, and
    [AtaSpec] of IdeProps.v what the driver relies on of an ATA disk controller
    in programmed input/output mode.  A wait for the controller that does not end is modelled
    by a panic; the theorems show that there is none. *)

From stdpp Require Import base numbers option list strings.
From Stdlib Require Import ZArith Lia ZifyBool.
From S2P Require Import Prelude Block.
Local Open Scope Z_scope.

(** The port instructions, on the state of the controller; the string
    instructions move the 512 bytes of a sector. *)
Class Ata (D : Type) := {
  inb : Z → D → Z * D;
  outb : Z → Z → D → D;
  insl : Z → D → block * D;
  outsl : Z → block → D → D
}.

Module Ide.

Definition IDE_BSY : Z := 128.
Definition IDE_DRDY : Z := 64.
Definition IDE_DF : Z := 32.
Definition IDE_ERR : Z := 1.
Definition IDE_CMD_READ : Z := 32.
Definition IDE_CMD_WRITE : Z := 48.

Definition B_BUSY : Z := 1.
Definition B_VALID : Z := 2.
Definition B_DIRTY : Z := 4.

Record ibuf := mkIbuf { flags : Z; dev : Z; sector : Z; qnext : option nat; data : block }.
#[export] Instance ibuf_inhabited : Inhabited ibuf := populate (mkIbuf 0 0 0 None []).

Definition set_flags (f : Z) (b : ibuf) : ibuf := mkIbuf f (dev b) (sector b) (qnext b) (data b).
Definition set_qnext (q : option nat) (b : ibuf) : ibuf := mkIbuf (flags b) (dev b) (sector b) q (data b).
Definition set_data (d : block) (b : ibuf) : ibuf := mkIbuf (flags b) (dev b) (sector b) (qnext b) d.

(** [iwakes] records the calls of wakeup, oldest first. *)
Record ide (D : Type) := mkIde {
  ibufs : list ibuf; idequeue : option nat; havedisk1 : bool; ctl : D; iwakes : list chan }.
#[global] Arguments mkIde {D}.
#[global] Arguments ibufs {D}.
#[global] Arguments idequeue {D}.
#[global] Arguments havedisk1 {D}.
#[global] Arguments ctl {D}.
#[global] Arguments iwakes {D}.

Definition upd (i : nat) (f : ibuf → ibuf) (bs : list ibuf) : list ibuf := <[i := f (bs !!! i)]> bs.

Section driver.
Context {D : Type} `{!Ata D}.
(** How often the status is read before the controller is taken for dead. *)
Variable patience : nat.

Definition on_bufs (f : list ibuf → list ibuf) : kM (ide D) unit :=
  modify (λ s, mkIde (f (ibufs s)) (idequeue s) (havedisk1 s) (ctl s) (iwakes s)).
Definition on_ctl (f : D → D) : kM (ide D) unit :=
  modify (λ s, mkIde (ibufs s) (idequeue s) (havedisk1 s) (f (ctl s)) (iwakes s)).
Definition set_queue (q : option nat) : kM (ide D) unit :=
  modify (λ s, mkIde (ibufs s) q (havedisk1 s) (ctl s) (iwakes s)).
Definition set_havedisk1 (b : bool) : kM (ide D) unit :=
  modify (λ s, mkIde (ibufs s) (idequeue s) b (ctl s) (iwakes s)).
Definition wakeup (c : chan) : kM (ide D) unit :=
  modify (λ s, mkIde (ibufs s) (idequeue s) (havedisk1 s) (ctl s) (iwakes s ++ [c])).

Definition inb_ (port : Z) : kM (ide D) Z := λ s,
  let '(v, d) := inb port (ctl s) in Ok v (mkIde (ibufs s) (idequeue s) (havedisk1 s) d (iwakes s)).
Definition insl_ (port : Z) : kM (ide D) block := λ s,
  let '(v, d) := insl port (ctl s) in Ok v (mkIde (ibufs s) (idequeue s) (havedisk1 s) d (iwakes s)).
Definition outb_ (port v : Z) : kM (ide D) unit := on_ctl (outb port v).
Definition outsl_ (port : Z) (b : block) : kM (ide D) unit := on_ctl (outsl port b).

(** [while(((r = inb(0x1f7)) & (IDE_BSY|IDE_DRDY)) != IDE_DRDY)]. *)
Fixpoint idewait_loop (fuel : nat) : kM (ide D) Z :=
  match fuel with
  | O => panic "idewait: the controller does not answer"
  | S fuel' =>
      r ← inb_ 0x1f7;
      if Z.land r (Z.lor IDE_BSY IDE_DRDY) =? IDE_DRDY then mret r else idewait_loop fuel'
  end.

Definition idewait (checkerr : bool) : kM (ide D) Z :=
  r ← idewait_loop patience;
  if checkerr && negb (Z.land r (Z.lor IDE_DF IDE_ERR) =? 0) then mret (-1) else mret 0.

(** [for(i=0; i<1000; i++) if(inb(0x1f7) != 0)]. *)
Fixpoint find_disk1 (fuel : nat) : kM (ide D) unit :=
  match fuel with
  | O => mret tt
  | S fuel' => r ← inb_ 0x1f7; if negb (r =? 0) then set_havedisk1 true else find_disk1 fuel'
  end.

(** The lock and the interrupt routing that ideinit sets up are elsewhere. *)
Definition ideinit : kM (ide D) unit :=
  _ ← idewait false;
  _ ← outb_ 0x1f6 (Z.lor 0xe0 (Z.shiftl 1 4));
  _ ← find_disk1 1000;
  outb_ 0x1f6 (Z.lor 0xe0 (Z.shiftl 0 4)).

Definition idestart (b : nat) : kM (ide D) unit :=
  _ ← idewait false;
  x ← gets (λ s, ibufs s !!! b);
  _ ← outb_ 0x3f6 0;
  _ ← outb_ 0x1f2 1;
  _ ← outb_ 0x1f3 (Z.land (sector x) 0xff);
  _ ← outb_ 0x1f4 (Z.land (Z.shiftr (sector x) 8) 0xff);
  _ ← outb_ 0x1f5 (Z.land (Z.shiftr (sector x) 16) 0xff);
  _ ← outb_ 0x1f6 (Z.lor (Z.lor 0xe0 (Z.shiftl (Z.land (dev x) 1) 4)) (Z.land (Z.shiftr (sector x) 24) 0x0f));
  if flag (flags x) B_DIRTY then
    _ ← outb_ 0x1f7 IDE_CMD_WRITE;
    outsl_ 0x1f0 (data x)
  else outb_ 0x1f7 IDE_CMD_READ.

Definition ideintr : kM (ide D) unit :=
  q ← gets idequeue;
  match q with
  | None => mret tt
  | Some b =>
      x ← gets (λ s, ibufs s !!! b);
      _ ← set_queue (qnext x);
      _ ← (if negb (flag (flags x) B_DIRTY) then
             r ← idewait true;
             if 0 <=? r then d ← insl_ 0x1f0; on_bufs (upd b (set_data d)) else mret tt
           else mret tt);
      _ ← on_bufs (upd b (λ x, set_flags (setf (flags x) B_VALID) x));
      _ ← on_bufs (upd b (λ x, set_flags (clrf (flags x) B_DIRTY) x));
      _ ← wakeup (ChBuf b);
      q ← gets idequeue;
      match q with None => mret tt | Some b' => idestart b' end
  end.

(** [for(pp=&idequeue; *pp; pp=&( *pp)->qnext); *pp = b], from the buffer [p]. *)
Fixpoint append (fuel : nat) (p b : nat) (bs : list ibuf) : list ibuf :=
  match fuel with
  | O => bs
  | S fuel' =>
      match qnext (bs !!! p) with
      | None => upd p (set_qnext (Some b)) bs
      | Some p' => append fuel' p' b bs
      end
  end.

(** [while((b->flags & (B_VALID|B_DIRTY)) != B_VALID) sleep(b, &idelock)]: one
    round; it is run again after a wakeup. *)
Definition iderw_wait (b : nat) : kM (ide D) unit :=
  f ← gets (λ s, flags (ibufs s !!! b));
  if negb (Z.land f (Z.lor B_VALID B_DIRTY) =? B_VALID) then sleep_on (ChBuf b) else mret tt.

(** Up to the wait. *)
Definition iderw_start (b : nat) : kM (ide D) unit :=
  x ← gets (λ s, ibufs s !!! b);
  h ← gets havedisk1;
  if negb (flag (flags x) B_BUSY) then panic "iderw: buf not busy"
  else if Z.land (flags x) (Z.lor B_VALID B_DIRTY) =? B_VALID then panic "iderw: nothing to do"
  else if negb (dev x =? 0) && negb h then panic "iderw: ide disk 1 not present"
  else
    _ ← on_bufs (upd b (set_qnext None));
    q ← gets idequeue;
    n ← gets (λ s, length (ibufs s));
    _ ← match q with None => set_queue (Some b) | Some p => on_bufs (append n p b) end;
    q ← gets idequeue;
    if decide (q = Some b) then idestart b else mret tt.

Definition iderw (b : nat) : kM (ide D) unit :=
  _ ← iderw_start b;
  iderw_wait b.
End driver.
End Ide.
