(* ===== verification/IdeProps.v ===== *)
(** * Properties of the disk driver

    The driver, over any controller that keeps the contract [AtaSpec],
    implements a queue of disk requests that are served in order. *)

From stdpp Require Import base numbers option list sets strings.
From Stdlib Require Import ZArith Lia ZifyBool.
From S2P Require Import Prelude Block Ide.
Import Ide.
Local Open Scope Z_scope.

(** ** The controller *)

(** The sector and the drive that the registers 0x1f3 to 0x1f6 select. *)
Definition lba (r : Z → Z) : Z :=
  r 0x1f3 + Z.shiftl (r 0x1f4) 8 + Z.shiftl (r 0x1f5) 16 + Z.shiftl (Z.land (r 0x1f6) 0x0f) 24.
Definition drive (r : Z → Z) : Z := Z.land (Z.shiftr (r 0x1f6) 4) 1.

(** The content of the disks, with a sector replaced. *)
Definition media := Z → Z → block.
Definition media_write (dv n : Z) (d : block) (m : media) : media :=
  λ dv' n', if (dv' =? dv) && (n' =? n) then d else m dv' n'.

(** What the driver relies on: the registers hold what is written to them, a
    command works on the sector that they select, a read gives the content of
    the sector and the data of a write become its content; the status reports
    that the controller is busy at most [ata_patience] times, and no error. *)
Class AtaSpec (D : Type) `{!Ata D} := {
  reg : D → Z → Z;
  disks : D → media;
  active : D → option (bool * Z * Z);
  busy : D → nat;
  healthy : D → Prop;
  ata_patience : nat;
  busy_bound d : healthy d → (busy d <= ata_patience)%nat;
  inb_status d : healthy d → let '(v, d') := inb 0x1f7 d in
    (disks d' = disks d ∧ active d' = active d ∧ healthy d') ∧
    (Z.land v 0xc0 = 0x40 → Z.land v 0x21 = 0) ∧ (Z.land v 0xc0 ≠ 0x40 → (busy d' < busy d)%nat);
  outb_control d : healthy d → let d' := outb 0x3f6 0 d in
    disks d' = disks d ∧ active d' = active d ∧ healthy d';
  outb_register d p v : healthy d → 0x1f2 ≤ p ≤ 0x1f6 → 0 ≤ v < 256 → let d' := outb p v d in
    (∀ q, reg d' q = if q =? p then v else reg d q) ∧ disks d' = disks d ∧ active d' = active d ∧ healthy d';
  outb_command d c : healthy d → reg d 0x1f2 = 1 → c = 0x20 ∨ c = 0x30 → let d' := outb 0x1f7 c d in
    disks d' = disks d ∧ active d' = Some (c =? 0x30, drive (reg d), lba (reg d)) ∧ healthy d';
  outsl_data d b dv n : healthy d → active d = Some (true, dv, n) → length b = 512%nat → let d' := outsl 0x1f0 b d in
    disks d' = media_write dv n b (disks d) ∧ active d' = active d ∧ healthy d';
  insl_data d dv n : healthy d → active d = Some (false, dv, n) → let '(b, d') := insl 0x1f0 d in
    b = disks d dv n ∧ disks d' = disks d ∧ healthy d'
}.

(** ** The registers of a request *)

Lemma split_sector n : 0 ≤ n < 2 ^ 28 →
  Z.land n 0xff + Z.shiftl (Z.land (Z.shiftr n 8) 0xff) 8 + Z.shiftl (Z.land (Z.shiftr n 16) 0xff) 16 +
  Z.shiftl (Z.land (Z.shiftr n 24) 0x0f) 24 = n.
Proof.
  intros Hn.
  change 0xff with (Z.ones 8). change 0x0f with (Z.ones 4). rewrite !Z.land_ones, !Z.shiftr_div_pow2, !Z.shiftl_mul_pow2 by lia.
  rewrite (Z.mod_small (n / 2 ^ 24)) by (split; [apply Z.div_pos; lia|apply Z.div_lt_upper_bound; lia]).
  pose proof (Z.div_mod n (2 ^ 8) ltac:(lia)). pose proof (Z.div_mod (n / 2 ^ 8) (2 ^ 8) ltac:(lia)) as H1.
  rewrite Z.div_div in H1 by lia. pose proof (Z.div_mod (n / 2 ^ 16) (2 ^ 8) ltac:(lia)) as H2. rewrite Z.div_div in H2 by lia.
  change (2 ^ 8 * 2 ^ 8) with (2 ^ 16) in *. change (2 ^ 16 * 2 ^ 8) with (2 ^ 24) in *. lia.
Qed.

Lemma device_register dv n : dv = 0 ∨ dv = 1 → let r := Z.lor (Z.lor 0xe0 (Z.shiftl (Z.land dv 1) 4)) (Z.land (Z.shiftr n 24) 0x0f) in
  0 ≤ r < 256 ∧ Z.land r 0x0f = Z.land (Z.shiftr n 24) 0x0f ∧ Z.land (Z.shiftr r 4) 1 = dv.
Proof.
  intros Hdv r. assert (0 ≤ Z.land (Z.shiftr n 24) 0x0f < 16) as Hh.
  { change 0x0f with (Z.ones 4). rewrite Z.land_ones by lia. by apply Z.mod_pos_bound. }
  unfold r. clear r. revert Hh. generalize (Z.land (Z.shiftr n 24) 0x0f). intros h Hh.
  assert (h ∈ seqZ 0 16) as Hin by (apply elem_of_seqZ; lia). clear Hh.
  destruct Hdv as [->| ->]; revert h Hin; apply Forall_forall; vm_compute;
    repeat (apply Forall_cons; split; [split_and!; done|]); apply Forall_nil; done.
Qed.

Lemma land_byte n : 0 ≤ Z.land n 0xff < 256.
Proof. change 0xff with (Z.ones 8). rewrite Z.land_ones by lia. by apply Z.mod_pos_bound. Qed.

(** ** The specification: a queue of requests *)

Record request := mkRequest { r_buf : nat; r_write : bool; r_dev : Z; r_sector : Z; r_data : block }.

(** The data that the buffer holds at the end, and the new content of the disks. *)
Definition serve (r : request) (m : media) : block * media :=
  if r_write r then (r_data r, media_write (r_dev r) (r_sector r) (r_data r) m)
  else (m (r_dev r) (r_sector r), m).

(** A process that holds the buffer fills it and calls iderw, or the controller
    interrupts. *)
Inductive iop := Submit (b : nat) (x : ibuf) | Interrupt.

Definition dirty (x : ibuf) : bool := flag (flags x) B_DIRTY.
Definition request_of (b : nat) (x : ibuf) : request := mkRequest b (dirty x) (dev x) (sector x) (data x).

(** The requests that are completed, in order: the buffer, whether it is then
    valid and clean, and its data. *)
Notation completion := (nat * bool * block)%type.

Fixpoint serve_all (ops : list iop) (m : media) (q : list request) : list completion * media * list request :=
  match ops with
  | [] => ([], m, q)
  | Submit b x :: ops => serve_all ops m (q ++ [request_of b x])
  | Interrupt :: ops =>
      match q with
      | [] => serve_all ops m []
      | r :: q =>
          let '(d, m) := serve r m in
          let '(cs, m, q) := serve_all ops m q in ((r_buf r, true, d) :: cs, m, q)
      end
  end.

(** What one process observes: iderw sleeps on the buffer, an interrupt
    completes the first request. *)
Fixpoint run_ops {D} `{!Ata D} (patience : nat) (ops : list iop) (s : ide D) : option (list completion * ide D) :=
  match ops with
  | [] => Some ([], s)
  | Submit b x :: ops =>
      match iderw patience b (mkIde (<[b := x]> (ibufs s)) (idequeue s) (havedisk1 s) (ctl s) (iwakes s)) with
      | Sleep (ChBuf b') s => if decide (b' = b) then run_ops patience ops s else None
      | _ => None
      end
  | Interrupt :: ops =>
      match ideintr patience s with
      | Ok _ s' =>
          '(cs, s'') ← run_ops patience ops s';
          Some (match idequeue s with
                | Some b => let x := ibufs s' !!! b in (b, Z.land (flags x) (Z.lor B_VALID B_DIRTY) =? B_VALID, data x) :: cs
                | None => cs
                end, s'')
      | _ => None
      end
  end.

(** A request that the registers can hold. *)
Definition request_ok (x : ibuf) : Prop :=
  (dev x = 0 ∨ dev x = 1) ∧ 0 ≤ sector x < 2 ^ 28 ∧ length (data x) = 512%nat.

(** The rules of the callers: the buffer is held, has something to do, and no
    request for it is under way; [q] are the buffers in the queue. *)
Fixpoint ops_ok (disk1 : bool) (n : nat) (ops : list iop) (q : list nat) : Prop :=
  match ops with
  | [] => True
  | Submit b x :: ops =>
      (b < n)%nat ∧ b ∉ q ∧ flag (flags x) B_BUSY = true ∧ Z.land (flags x) (Z.lor B_VALID B_DIRTY) ≠ B_VALID ∧
      request_ok x ∧ (dev x = 0 ∨ disk1 = true) ∧ ops_ok disk1 n ops (q ++ [b])
  | Interrupt :: ops => ops_ok disk1 n ops (tail q)
  end.

Section driver.
Context {D : Type} `{!Ata D} `{!AtaSpec D}.

Definition with_ctl (d : D) (s : ide D) : ide D := mkIde (ibufs s) (idequeue s) (havedisk1 s) d (iwakes s).

(** One more than the controller needs, for the answer itself. *)
Definition patience : nat := S ata_patience.

(** Nothing that the driver relies on has changed. *)
Definition same (d d' : D) : Prop := disks d' = disks d ∧ active d' = active d ∧ healthy d'.

Lemma with_ctl_twice d d' s : with_ctl d (with_ctl d' s) = with_ctl d s.
Proof. done. Qed.

Lemma idewait_loop_spec fuel : ∀ s Q, healthy (ctl s) → (busy (ctl s) < fuel)%nat →
  (∀ v d', Z.land v 0x21 = 0 → same (ctl s) d' → Q v (with_ctl d' s)) → wp (idewait_loop fuel) s Q.
Proof.
  induction fuel as [|fuel IH]; intros s Q Hh Hb HQ; [lia|]. cbn [idewait_loop]. rewrite wp_bind.
  unfold inb_, wp at 1. pose proof (inb_status (ctl s) Hh) as H. destruct (inb 0x1f7 (ctl s)) as [v d'].
  destruct H as ((Hd & Ha & Hh') & H0 & H1). change (Z.lor IDE_BSY IDE_DRDY) with 0xc0. unfold IDE_DRDY.
  destruct (Z.land v 0xc0 =? 64) eqn:E; [apply HQ; [apply H0; lia|done]|].
  apply IH; simpl; [done|assert (busy d' < busy (ctl s))%nat by (apply H1; lia); lia|].
  intros v' d2 Hv (Hd2 & Ha2 & Hh2). rewrite Hd in Hd2. rewrite Ha in Ha2.
  exact (HQ v' d2 Hv (conj Hd2 (conj Ha2 Hh2))).
Qed.

Lemma idewait_spec ce s Q : healthy (ctl s) → (∀ d', same (ctl s) d' → Q 0 (with_ctl d' s)) → wp (idewait patience ce) s Q.
Proof.
  intros Hh HQ. unfold idewait. rewrite wp_bind. apply idewait_loop_spec; [done| |].
  { pose proof (busy_bound _ Hh). unfold patience. lia. }
  intros v d' Hv Hs. change (Z.lor IDE_DF IDE_ERR) with 0x21. rewrite Hv. rewrite andb_false_r. by apply HQ.
Qed.

(** The content of the disks once the request [x] has been started. *)
Definition started (x : ibuf) (m : media) : media :=
  if dirty x then media_write (dev x) (sector x) (data x) m else m.

Lemma outb_registers l : ∀ d, healthy d → Forall (λ pv, 0x1f2 ≤ pv.1 ≤ 0x1f6 ∧ 0 ≤ pv.2 < 256) l →
  let d' := foldl (λ d pv, outb pv.1 pv.2 d) d l in
  (∀ q, reg d' q = foldl (λ r pv q, if q =? pv.1 then pv.2 else r q) (reg d) l q) ∧ disks d' = disks d ∧ healthy d'.
Proof.
  induction l as [|[p v] l IH] using rev_ind; intros d Hd Hl; simpl; [done|]. rewrite !foldl_app. simpl.
  apply Forall_app in Hl as [Hl [[Hp Hv] _]%Forall_cons]. destruct (IH d Hd Hl) as (Hr & Hm & Hh).
  destruct (outb_register _ p v Hh Hp Hv) as (Hr' & Hm' & _ & Hh').
  split_and!; [|by rewrite Hm'|done]. intros q. rewrite Hr'. by rewrite Hr.
Qed.

(** The registers as idestart sets them. *)
Definition request_regs (x : ibuf) : list (Z * Z) :=
  [(0x1f2, 1); (0x1f3, Z.land (sector x) 0xff); (0x1f4, Z.land (Z.shiftr (sector x) 8) 0xff);
   (0x1f5, Z.land (Z.shiftr (sector x) 16) 0xff);
   (0x1f6, Z.lor (Z.lor 0xe0 (Z.shiftl (Z.land (dev x) 1) 4)) (Z.land (Z.shiftr (sector x) 24) 0x0f))].

Lemma request_regs_spec x d : healthy d → request_ok x → let d' := foldl (λ d pv, outb pv.1 pv.2 d) d (request_regs x) in
  reg d' 0x1f2 = 1 ∧ drive (reg d') = dev x ∧ lba (reg d') = sector x ∧ disks d' = disks d ∧ healthy d'.
Proof.
  intros Hd (Hdev & Hsec & _) d'. pose proof (device_register (dev x) (sector x) Hdev) as (Hv6 & Hlow & Hdrv).
  destruct (outb_registers (request_regs x) d Hd) as (Hr & Hm & Hh).
  { pose proof land_byte. repeat (apply Forall_cons; split); cbn [fst snd]; [split; [lia|]; done || lia..|by apply Forall_nil]. }
  fold d' in Hr, Hm, Hh. unfold drive, lba. rewrite !Hr. cbn -[Z.shiftl Z.shiftr Z.land Z.lor Z.add].
  split_and!; [done|done| |done|done]. rewrite Hlow. by apply split_sector.
Qed.

Lemma idestart_spec b s Q : healthy (ctl s) → request_ok (ibufs s !!! b) →
  (∀ d', let x := ibufs s !!! b in healthy d' → active d' = Some (dirty x, dev x, sector x) →
     disks d' = started x (disks (ctl s)) → Q tt (with_ctl d' s)) →
  wp (idestart patience b) s Q.
Proof.
  intros Hh Hok HQ. unfold idestart. rewrite wp_bind. apply idewait_spec; [done|].
  intros d0 (Hd0 & _ & H0). unfold outb_, outsl_, on_ctl, wp, mbind, kM_bind, gets, modify.
  cbn [ibufs with_ctl ctl idequeue havedisk1 iwakes]. set (x := ibufs s !!! b) in *.
  destruct (outb_control _ H0) as (Hd1 & _ & H1).
  destruct (request_regs_spec x _ H1 Hok) as (Hn & Hdrv & Hlba & Hd2 & H2). cbn [foldl request_regs fst snd] in *.
  set (d2 := outb 0x1f6 _ _) in *. rewrite Hd1, Hd0 in Hd2. destruct Hok as (_ & _ & Hlen).
  destruct (flag (flags x) B_DIRTY) eqn:Ef.
  - destruct (outb_command d2 IDE_CMD_WRITE H2 Hn) as (Hd3 & Ha3 & H3); [by right|].
    rewrite Hdrv, Hlba in Ha3. destruct (outsl_data _ _ _ _ H3 Ha3 Hlen) as (Hd4 & Ha4 & H4).
    apply (HQ (outsl 0x1f0 (data x) (outb 0x1f7 IDE_CMD_WRITE d2))); unfold started, dirty; rewrite ?Ef; [done|by rewrite Ha4|].
    by rewrite Hd4, Hd3, Hd2.
  - destruct (outb_command d2 IDE_CMD_READ H2 Hn) as (Hd3 & Ha3 & H3); [by left|].
    rewrite Hdrv, Hlba in Ha3. apply (HQ (outb 0x1f7 IDE_CMD_READ d2)); unfold started, dirty; rewrite ?Ef; [done|done|].
    by rewrite Hd3, Hd2.
Qed.

(** ** The queue *)

(** The queue that starts at [q] is [l]. *)
Fixpoint chain (bs : list ibuf) (q : option nat) (l : list nat) : Prop :=
  match l with
  | [] => q = None
  | b :: l => q = Some b ∧ chain bs (qnext (bs !!! b)) l
  end.

Lemma queue_ext bs bs' q l : (∀ b, b ∈ l → qnext (bs' !!! b) = qnext (bs !!! b)) → chain bs q l → chain bs' q l.
Proof.
  revert q. induction l as [|b l IH]; intros q H; simpl; [done|]. intros [-> Hc]. split; [done|].
  rewrite H by set_solver. apply IH; [set_solver|done].
Qed.

Lemma upd_same i f bs : (i < length bs)%nat → upd i f bs !!! i = f (bs !!! i).
Proof. intros Hi. unfold upd. by apply list_lookup_total_insert_eq. Qed.
Lemma upd_other i j f bs : i ≠ j → upd i f bs !!! j = bs !!! j.
Proof. intros Hi. unfold upd. by apply list_lookup_total_insert_ne. Qed.
Lemma upd_length i f bs : length (upd i f bs) = length bs.
Proof. apply length_insert. Qed.

(** What a request consists of, without the link. *)
Definition core (x : ibuf) : Z * Z * Z * block := (flags x, dev x, sector x, data x).

Lemma append_spec b l : ∀ fuel p bs, chain bs (Some p) l → (length l <= fuel)%nat → NoDup l → b ∉ l →
  Forall (λ c, c < length bs)%nat l → qnext (bs !!! b) = None →
  let bs' := append fuel p b bs in
  chain bs' (Some p) (l ++ [b]) ∧ length bs' = length bs ∧ (∀ c, core (bs' !!! c) = core (bs !!! c)) ∧
  (∀ c, c ∉ l → bs' !!! c = bs !!! c).
Proof.
  induction l as [|p' l IH]; intros [|fuel] p bs Hc Hf Hnd Hb Hlen Hq; simpl in Hc, Hf; try lia; [done|done|].
  destruct Hc as [[= <-] Hc]. apply NoDup_cons in Hnd as [Hp Hnd]. apply Forall_cons in Hlen as [Hpl Hlen].
  cbn [append]. destruct l as [|p2 l].
  - simpl in Hc. rewrite Hc. cbn [app chain]. rewrite upd_same by done. cbn [set_qnext qnext].
    rewrite upd_other by set_solver. split_and!; try done; [by apply upd_length| |].
    + intros c. destruct (decide (p = c)) as [<-|]; [by rewrite upd_same|by rewrite upd_other].
    + intros c Hcl. apply upd_other. set_solver.
  - destruct Hc as [Eq Hc]. rewrite Eq. destruct (IH fuel p2 bs) as (H1 & H2 & H3 & H4); [by split|simpl in *; lia|done|set_solver|done|done|].
    split_and!; [|done|done|]; cbn [app chain] in *.
    + split; [done|]. rewrite H4 by done. rewrite Eq. exact H1.
    + intros c Hcl. apply H4. set_solver.
Qed.

(** ** The simulation *)

Definition waiting (x : ibuf) : Prop :=
  flag (flags x) B_BUSY = true ∧ Z.land (flags x) (Z.lor B_VALID B_DIRTY) ≠ B_VALID ∧ request_ok x.

(** The controller works on the first request of the queue: a write has
    already reached the disk. *)
Definition working (x : ibuf) (m : media) (d : D) : Prop :=
  active d = Some (dirty x, dev x, sector x) ∧ disks d = started x m.

(** The state [s], whose queue is [l], implements the disks [m] and the
    requests [q]. *)
Record implements (m : media) (q : list request) (l : list nat) (s : ide D) : Prop := mkImplements {
  im_chain : chain (ibufs s) (idequeue s) l;
  im_nodup : NoDup l;
  im_len : Forall (λ b, b < length (ibufs s))%nat l;
  im_wait : Forall (λ b, waiting (ibufs s !!! b)) l;
  im_queue : q = map (λ b, request_of b (ibufs s !!! b)) l;
  im_healthy : healthy (ctl s);
  im_work : match l with [] => disks (ctl s) = m | b :: _ => working (ibufs s !!! b) m (ctl s) end }.

Lemma core_waiting x y : core x = core y → waiting x → waiting y.
Proof. destruct x, y. unfold core, waiting, request_ok. simpl. by intros [= -> -> -> ->]. Qed.
Lemma core_request b x y : core x = core y → request_of b x = request_of b y.
Proof. destruct x, y. unfold core, request_of, dirty. simpl. by intros [= -> -> -> ->]. Qed.
Lemma core_working x y m d : core x = core y → working x m d → working y m d.
Proof. destruct x, y. unfold core, working, started, dirty. simpl. by intros [= -> -> -> ->]. Qed.

(** The length of a queue. *)
Lemma queue_length (l : list nat) n : NoDup l → Forall (λ b, b < n)%nat l → (length l <= n)%nat.
Proof.
  intros Hnd Hl. rewrite <- (length_seq n 0). apply submseteq_length, NoDup_submseteq; [done|].
  intros b Hb. rewrite Forall_forall in Hl. apply elem_of_seq. specialize (Hl b Hb). lia.
Qed.

Lemma iderw_sleeps b s (Q : ide D → Prop) : wp (iderw_start patience b) s (λ _ t, Q t ∧ waiting (ibufs t !!! b)) →
  ∃ s', iderw patience b s = Sleep (ChBuf b) s' ∧ Q s'.
Proof.
  intros (a & t & E & HQ & Hw)%wp_Ok. exists t. split; [|done]. unfold iderw, mbind, kM_bind. rewrite E.
  unfold iderw_wait, mbind, kM_bind, gets. destruct Hw as (_ & Hw & _). by destruct (Z.land _ _ =? B_VALID) eqn:Ef; [lia|].
Qed.

(** The buffers of the queue, after a change that keeps the requests. *)
Lemma implements_core m q l s s' : implements m q l s → chain (ibufs s') (idequeue s') l →
  length (ibufs s') = length (ibufs s) → ctl s' = ctl s → (∀ b, b ∈ l → core (ibufs s !!! b) = core (ibufs s' !!! b)) →
  implements m q l s'.
Proof.
  intros [Hc Hnd Hl Hw Hq Hh Hwk] Hc' Hlen Hctl Hcore. split; [done|done|by rewrite Hlen| | |by rewrite Hctl|].
  - rewrite Forall_forall in *. intros b Hb. eapply core_waiting; [by apply Hcore|by apply Hw].
  - rewrite Hq. apply map_ext_in. intros b Hb. apply core_request, Hcore. by apply list_elem_of_In.
  - destruct l as [|b l]; rewrite Hctl; [done|]. eapply core_working; [apply Hcore; set_solver|done].
Qed.

(** A request that is added to a queue. *)
Lemma implements_snoc m q l s b : implements m q l s → l ≠ [] → b ∉ l → (b < length (ibufs s))%nat →
  waiting (ibufs s !!! b) → ∀ s', chain (ibufs s') (idequeue s') (l ++ [b]) → length (ibufs s') = length (ibufs s) →
  ctl s' = ctl s → (∀ c, core (ibufs s !!! c) = core (ibufs s' !!! c)) →
  implements m (q ++ [request_of b (ibufs s !!! b)]) (l ++ [b]) s'.
Proof.
  intros [Hc Hnd Hl Hw Hq Hh Hwk] Hne Hb Hbl Hx s' Hc' Hlen Hctl Hcore.
  assert (∀ c, waiting (ibufs s !!! c) → waiting (ibufs s' !!! c)) as Hww by (intros c; by apply core_waiting).
  split; [done| | | | |by rewrite Hctl|].
  - apply NoDup_app. split_and!; [done|set_solver|apply NoDup_singleton].
  - rewrite Hlen. apply Forall_app. by split; [|apply Forall_singleton].
  - apply Forall_app. split; [|by apply Forall_singleton, Hww]. eapply Forall_impl; [done|]. intros c. apply Hww.
  - rewrite Hq, map_app. simpl. rewrite (core_request b _ _ (Hcore b)). f_equal. apply map_ext. intros c. apply core_request, Hcore.
  - rewrite Hctl. destruct l as [|c l]; [done|]. simpl. eapply core_working; [apply Hcore|done].
Qed.

Lemma submit_spec m q l s b x : implements m q l s → (b < length (ibufs s))%nat → b ∉ l → waiting x →
  (dev x = 0 ∨ havedisk1 s = true) → ∃ s',
  iderw patience b (mkIde (<[b := x]> (ibufs s)) (idequeue s) (havedisk1 s) (ctl s) (iwakes s)) = Sleep (ChBuf b) s' ∧
  implements m (q ++ [request_of b x]) (l ++ [b]) s' ∧ length (ibufs s') = length (ibufs s) ∧ havedisk1 s' = havedisk1 s ∧
  iwakes s' = iwakes s.
Proof.
  intros Him Hb Hbl Hx Hdev. apply iderw_sleeps. pose proof Hx as (Hx1 & Hx2 & Hx3).
  set (bs := upd b (set_qnext None) (<[b := x]> (ibufs s))).
  assert (length bs = length (ibufs s)) as Hlen by (unfold bs; by rewrite upd_length, length_insert).
  assert (bs !!! b = set_qnext None x) as Hbx.
  { unfold bs. rewrite upd_same by (by rewrite length_insert). by rewrite list_lookup_total_insert_eq. }
  assert (∀ c, c ≠ b → bs !!! c = ibufs s !!! c) as Hbo.
  { intros c Hc. unfold bs. rewrite upd_other by done. by apply list_lookup_total_insert_ne. }
  unfold iderw_start. rewrite wp_bind, wp_gets, wp_bind, wp_gets. cbn [ibufs havedisk1].
  rewrite list_lookup_total_insert_eq, Hx1 by done. cbn [negb].
  destruct (Z.land (flags x) _ =? B_VALID) eqn:E1; [lia|]. replace (negb (dev x =? 0) && _) with false.
  2:{ symmetry. apply andb_false_iff. destruct Hdev as [->| ->]; [by left|by right]. }
  unfold on_bufs, set_queue. rewrite wp_bind, wp_modify, wp_bind, wp_gets, wp_bind, wp_gets, wp_bind. cbn [ibufs idequeue].
  fold bs. destruct l as [|p l].
  - pose proof (im_chain _ _ _ _ Him) as Hq. simpl in Hq. rewrite Hq. rewrite wp_modify, wp_bind, wp_gets. cbn [ibufs idequeue].
    rewrite decide_True by done. apply idestart_spec; cbn [ctl ibufs]; [by destruct Him|by rewrite Hbx|]. rewrite Hbx.
    intros d' Hh' Ha' Hd'. cbn [with_ctl ibufs havedisk1]. rewrite Hbx. split; [|done]. split; [|done].
    destruct Him as [_ _ _ _ -> _ Hm]. split; cbn [with_ctl app ibufs idequeue ctl chain]; rewrite ?Hbx.
    + done.
    + apply NoDup_singleton.
    + apply Forall_singleton. lia.
    + apply Forall_singleton. by rewrite Hbx.
    + simpl. by rewrite Hbx.
    + done.
    + split; [done|]. by rewrite <- Hm.
  - assert (implements m q (p :: l) (mkIde bs (idequeue s) (havedisk1 s) (ctl s) (iwakes s))) as Him'.
    { eapply implements_core; [exact Him|..]; cbn [ibufs idequeue ctl]; [|done..|].
      - eapply queue_ext; [|apply (im_chain _ _ _ _ Him)]. intros c Hc. by rewrite Hbo by set_solver.
      - intros c Hc. by rewrite Hbo by set_solver. }
    pose proof (im_chain _ _ _ _ Him') as Hq. cbn [ibufs idequeue] in Hq. pose proof (im_len _ _ _ _ Him') as Hl. simpl in Hl.
    pose proof (im_nodup _ _ _ _ Him) as Hnd. destruct Hq as [Hq Hc]. rewrite Hq, wp_modify, wp_bind, wp_gets. cbn [ibufs idequeue].
    rewrite decide_False by (intros [= ->]; set_solver). rewrite wp_ret.
    destruct (append_spec b (p :: l) (length bs) p bs) as (H1 & H2 & H3 & H4); [by split|by apply queue_length|done..|by rewrite Hbx|].
    split; [|rewrite H4 by done; by rewrite Hbx]. split; [|cbn; by rewrite H2].
    replace (request_of b x) with (request_of b (bs !!! b)) by (by rewrite Hbx).
    apply (implements_snoc _ _ _ _ _ Him'); cbn [ibufs idequeue ctl]; first [done|by rewrite Hlen|by rewrite Hbx|by rewrite <- Hq].
Qed.

Lemma valid_clean f : Z.land (clrf (setf f B_VALID) B_DIRTY) (Z.lor B_VALID B_DIRTY) = B_VALID.
Proof.
  apply Z.bits_inj'. intros i Hi. rewrite Z.land_spec. change B_DIRTY with (2 ^ 2). change B_VALID with (2 ^ 1).
  rewrite testbit_clrf, testbit_setf, Z.lor_spec, !Z.pow2_bits_eqb by lia.
  destruct (1 =? i) eqn:E1, (2 =? i) eqn:E2; rewrite ?orb_true_r, ?orb_false_r, ?andb_false_r; try done; lia.
Qed.

(** Reading the data, when there are data to read. *)
Lemma intr_data_spec b s (Q : unit → ide D → Prop) m : let x := ibufs s !!! b in
  healthy (ctl s) → (b < length (ibufs s))%nat → working x m (ctl s) →
  (∀ bs d, length bs = length (ibufs s) → (∀ c, c ≠ b → bs !!! c = ibufs s !!! c) →
     bs !!! b = set_data (serve (request_of b x) m).1 x → healthy d → disks d = (serve (request_of b x) m).2 →
     Q tt (mkIde bs (idequeue s) (havedisk1 s) d (iwakes s))) →
  wp (if negb (flag (flags x) B_DIRTY) then
        r ← idewait patience true;
        if 0 <=? r then d ← insl_ 0x1f0; on_bufs (upd b (set_data d)) else mret tt
      else mret tt) s Q.
Proof.
  intros x Hh Hb [Ha Hd] HQ. unfold serve, started, request_of, dirty in *. simpl in HQ.
  destruct (flag (flags x) B_DIRTY) eqn:E; cbn [negb].
  - rewrite wp_ret. destruct s. apply HQ; try done. by destruct x eqn:Ex.
  - rewrite wp_bind. apply idewait_spec; [done|]. intros d (Hd' & Ha' & Hh'). cbn [Z.leb Z.compare].
    rewrite wp_bind. unfold insl_, wp at 1. cbn [with_ctl ctl]. rewrite Ha in Ha'. pose proof (insl_data d _ _ Hh' Ha') as H.
    destruct (insl 0x1f0 d) as [v d2]. destruct H as (-> & Hd2 & H2). unfold on_bufs. rewrite wp_modify.
    cbn [ibufs with_ctl idequeue havedisk1 ctl iwakes]. rewrite Hd' in *. rewrite Hd in *. apply HQ; [by rewrite upd_length| |by rewrite upd_same|done|done].
    intros c Hc. by apply upd_other.
Qed.

(** An interrupt completes the first request. *)
Lemma interrupt_spec m r q b l s : implements m (r :: q) (b :: l) s →
  wp (ideintr patience) s (λ _ s',
    let x := ibufs s' !!! b in implements (serve r m).2 q l s' ∧
    flag (flags x) B_BUSY = true ∧ Z.land (flags x) (Z.lor B_VALID B_DIRTY) = B_VALID ∧ data x = (serve r m).1 ∧
    iwakes s' = iwakes s ++ [ChBuf b] ∧ length (ibufs s') = length (ibufs s) ∧ havedisk1 s' = havedisk1 s ∧ r_buf r = b).
Proof.
  intros [[Hq0 Hc] [Hbl Hnd]%NoDup_cons [Hlb Hl]%Forall_cons [Hwb Hw]%Forall_cons Hq Hh Hwk]. injection Hq as -> ->.
  unfold ideintr. rewrite wp_bind, wp_gets, Hq0, wp_bind, wp_gets, wp_bind. unfold set_queue. rewrite wp_modify, wp_bind.
  apply (intr_data_spec b (mkIde (ibufs s) (qnext (ibufs s !!! b)) (havedisk1 s) (ctl s) (iwakes s)) _ m); [done..|].
  cbn [ibufs idequeue havedisk1 iwakes ctl]. intros bs d Hlen Ho Hb Hhd Hdd.
  unfold on_bufs, wakeup. rewrite wp_bind, wp_modify, wp_bind, wp_modify, wp_bind, wp_modify, wp_bind, wp_gets.
  cbn [ibufs idequeue havedisk1 iwakes ctl]. set (bs2 := upd b _ (upd b _ bs)).
  assert (length bs2 = length (ibufs s)) as Hlen2 by (unfold bs2; by rewrite !upd_length).
  assert (∀ c, c ∈ l → bs2 !!! c = ibufs s !!! c) as Ho2.
  { intros c Hcl. assert (c ≠ b) by set_solver. unfold bs2. rewrite !upd_other by done. by apply Ho. }
  assert (bs2 !!! b = set_flags (clrf (setf (flags (ibufs s !!! b)) B_VALID) B_DIRTY) (bs !!! b)) as Hb2.
  { unfold bs2. rewrite !upd_same by (rewrite ?upd_length; by rewrite Hlen). by rewrite Hb. }
  assert (∀ t, ibufs t = bs2 → idequeue t = qnext (ibufs s !!! b) → healthy (ctl t) →
    match l with [] => disks (ctl t) = disks d | b' :: _ => working (bs2 !!! b') (disks d) (ctl t) end →
    implements (disks d) (map (λ b, request_of b (ibufs s !!! b)) l) l t) as Him.
  { intros t Ht1 Ht2 Ht3 Ht4. split; rewrite ?Ht1, ?Ht2; try done.
    - eapply queue_ext; [|done]. intros c Hcl. by rewrite Ho2.
    - by rewrite Hlen2.
    - rewrite Forall_forall in *. intros c Hcl. rewrite Ho2 by done. by apply Hw.
    - apply map_ext_in. intros c Hcl. rewrite Ho2; [done|]. by apply list_elem_of_In. }
  destruct Hwb as (Hbusy & _ & _).
  assert (flag (flags (bs2 !!! b)) B_BUSY = true ∧ Z.land (flags (bs2 !!! b)) (Z.lor B_VALID B_DIRTY) = B_VALID ∧
    data (bs2 !!! b) = (serve (request_of b (ibufs s !!! b)) m).1) as (F1 & F2 & F3).
  { rewrite Hb2, Hb. cbn [set_flags flags data set_data]. split_and!; [|apply valid_clean|done].
    rewrite flag_clrf_bit, flag_setf_bit, Hbusy by done. done. }
  rewrite <- Hdd. destruct l as [|b' l]; [simpl in Hc; rewrite Hc|destruct Hc as [Hc Hc']; rewrite Hc].
  - rewrite wp_ret. cbn [ibufs iwakes havedisk1]. by split_and!.
  - apply idestart_spec; cbn [ibufs ctl]; [done| |].
    { rewrite Ho2 by set_solver. apply Forall_cons in Hw as [Hw _]. apply Hw. }
    intros d' H' Ha' Hd'. cbn [with_ctl ibufs iwakes havedisk1]. split_and!; try done. by apply Him.
Qed.

Lemma idle_interrupt m s : implements m [] [] s → ideintr patience s = Ok tt s.
Proof. intros Him. pose proof (im_chain _ _ _ _ Him) as Hq. simpl in Hq. unfold ideintr, mbind, kM_bind, gets. by rewrite Hq. Qed.

Lemma run_ops_serves ops : ∀ m q l s, implements m q l s → ops_ok (havedisk1 s) (length (ibufs s)) ops l →
  ∃ l' s', run_ops patience ops s = Some ((serve_all ops m q).1.1, s') ∧
    iwakes s' = iwakes s ++ map (λ c, ChBuf c.1.1) (serve_all ops m q).1.1 ∧
    implements (serve_all ops m q).1.2 (serve_all ops m q).2 l' s'.
Proof.
  induction ops as [|[b x|] ops IH]; intros m q l s Him Hok; cbn [run_ops serve_all ops_ok] in *; [by exists l, s; rewrite app_nil_r| |].
  - destruct Hok as (Hb & Hbl & Hf & Hne & Hr & Hdev & Hok).
    destruct (submit_spec m q l s b x Him Hb Hbl (conj Hf (conj Hne Hr)) Hdev) as (s' & -> & Him' & Hlen & Hh & Hwk).
    rewrite decide_True by done. rewrite <- Hwk. apply (IH m _ (l ++ [b]) s'); [done|]. by rewrite Hlen, Hh.
  - destruct l as [|b l].
    { pose proof (im_queue _ _ _ _ Him) as Hq. simpl in Hq. subst q. rewrite (idle_interrupt m) by done.
      destruct (IH m [] [] s Him Hok) as (l' & s' & -> & Hwk & Him'). exists l', s'. split; [|done]. simpl.
      pose proof (im_chain _ _ _ _ Him) as ->. done. }
    destruct q as [|r q]; [by pose proof (im_queue _ _ _ _ Him)|].
    apply interrupt_spec in Him as Hwp. apply wp_Ok in Hwp as ([] & s1 & -> & Him1 & _ & F2 & F3 & Hwk & Hlen & Hh & Hr).
    cbn [tail] in Hok. destruct (serve r m) as [d m'] eqn:Es. cbn [fst snd] in *.
    destruct (IH m' q l s1 Him1) as (l' & s' & -> & Hwk' & Him'); [by rewrite Hlen, Hh|].
    destruct (serve_all ops m' q) as [[cs m2] q2] eqn:Ea. exists l', s'. simpl in *. split_and!; [|by rewrite Hwk', Hwk, Hr, <- app_assoc|done].
    pose proof (im_chain _ _ _ _ Him) as [-> _]. by rewrite F2, F3, Hr.
Qed.

(** C6. The driver implements a queue of requests: whatever processes call
    iderw on buffers that they hold and whenever the controller interrupts, no
    call panics, requests are completed in the order of the calls, a read
    returns what the requests before it have left in the sector and a write
    replaces it, a completed buffer is valid and clean, and its waiters are woken
    up. *)
Theorem ide_serves_in_order (ops : list iop) (bs : list ibuf) (d : D) (disk1 : bool) :
  healthy d → ops_ok disk1 (length bs) ops [] →
  let cs := (serve_all ops (disks d) []).1.1 in
  ∃ s', run_ops patience ops (mkIde bs None disk1 d []) = Some (cs, s') ∧ iwakes s' = map (λ c, ChBuf c.1.1) cs.
Proof.
  intros Hd Hok. destruct (run_ops_serves ops (disks d) [] [] (mkIde bs None disk1 d [])) as (l' & s' & E & Hw & _); [|done|by exists s'].
  split; try done; apply NoDup_nil || apply Forall_nil; done.
Qed.
End driver.

(** ** A controller *)

(** A controller with two disks, which is busy for two readings of its status
    after a command, and then reports [b_status]. *)
Record board := mkBoard { b_regs : Z → Z; b_disks : media; b_active : option (bool * Z * Z); b_busy : nat; b_status : Z }.

#[export] Instance board_ata : Ata board := {|
  inb p d := match b_busy d with
             | O => (b_status d, d)
             | S n => (0x80, mkBoard (b_regs d) (b_disks d) (b_active d) n (b_status d))
             end;
  outb p v d :=
    if p =? 0x1f7 then mkBoard (b_regs d) (b_disks d) (Some (v =? 0x30, drive (b_regs d), lba (b_regs d))) 2 (b_status d)
    else mkBoard (λ q, if q =? p then v else b_regs d q) (b_disks d) (b_active d) (b_busy d) (b_status d);
  insl p d := (match b_active d with Some (false, dv, n) => b_disks d dv n | _ => [] end, d);
  outsl p b d :=
    match b_active d with
    | Some (true, dv, n) => mkBoard (b_regs d) (media_write dv n b (b_disks d)) (b_active d) (b_busy d) (b_status d)
    | _ => d
    end |}.

#[export, refine] Instance board_spec : AtaSpec board := {|
  reg := b_regs; disks := b_disks; active := b_active; busy := b_busy;
  healthy d := (b_busy d <= 2)%nat ∧ b_status d = 0x40; ata_patience := 2 |}.
Proof.
  - by intros d [? _].
  - intros d [Hb Hs]. simpl. destruct (b_busy d) as [|n] eqn:E; simpl; rewrite ?Hs; (split; [split_and!; try done; lia|split; [done|]]); [done|lia].
  - intros d Hh. simpl. split_and!; done || apply Hh.
  - intros d p v Hh Hp Hv. simpl. destruct (p =? 0x1f7) eqn:E; [lia|]. split_and!; done || apply Hh.
  - intros d c Hh Hn Hc. simpl. split_and!; done || apply Hh || (simpl; lia).
  - intros d b dv n Hh Ha Hl. simpl in *. rewrite Ha. split_and!; done || apply Hh.
  - intros d dv n Hh Ha. simpl in *. rewrite Ha. done.
Defined.

Definition good_board : board := mkBoard (λ _, 0) (λ dv n, replicate 512 dv) None 0 0x40.
Definition write_buf (n v : Z) : ibuf := mkIbuf (Z.lor B_BUSY B_DIRTY) 1 n None (replicate 512 v).
Definition read_buf (n : Z) : ibuf := mkIbuf B_BUSY 1 n None (replicate 512 0).

(** Three requests of which two are for the same sector. *)
Lemma ide_serves_in_order_witness : ∃ s,
  run_ops 3 [Submit 0 (write_buf 7 9); Submit 1 (read_buf 7); Submit 2 (read_buf 8); Interrupt; Interrupt; Interrupt]
    (mkIde (replicate 3 (mkIbuf 0 0 0 None [])) None true good_board []) =
  Some ([(0%nat, true, replicate 512 9); (1%nat, true, replicate 512 9); (2%nat, true, replicate 512 1)], s) ∧
  iwakes s = [ChBuf 0; ChBuf 1; ChBuf 2].
Proof.
  set (ops := [Submit 0 (write_buf 7 9); Submit 1 (read_buf 7); Submit 2 (read_buf 8); Interrupt; Interrupt; Interrupt]).
  destruct (ide_serves_in_order (D := board) ops (replicate 3 (mkIbuf 0 0 0 None [])) good_board true) as (s & E & W).
  - split; [simpl; lia|done].
  - cbn [ops ops_ok write_buf read_buf dev sector data flags]. rewrite !length_replicate.
    split_and!; try done; try (by right); try set_solver; (split_and!; [by right|simpl; lia..|apply length_replicate]).
  - assert ((serve_all ops (disks good_board) []).1.1 =
      [(0%nat, true, replicate 512 9); (1%nat, true, replicate 512 9); (2%nat, true, replicate 512 1)]) as Hcs
      by (vm_compute; reflexivity).
    rewrite Hcs in E, W. exists s. split; [exact E|exact W].
Defined.

(** A disk error is not reported: after a read that fails the buffer is marked
    valid, with the data that it had before. *)
Theorem read_error_marks_valid :
  let bad := mkBoard (λ _, 0) (λ _ _, replicate 512 7) None 0 0x41 in
  match run_ops 3 [Submit 0 (read_buf 7); Interrupt] (mkIde [mkIbuf 0 0 0 None []] None true bad []) with
  | Some (cs, _) => cs = [(0%nat, true, replicate 512 0)]
  | None => False
  end.
Proof. vm_compute. done. Qed.
