(* ===== verification/Boot.v ===== *)
(** * The boot loader (bootmain.c)

    The loader reads the kernel, an ELF file that starts at sector 1 of the
    disk, through the same controller that ide.c uses ([Ata], [AtaSpec]).  The
    state is physical memory and the controller.  Addresses, sizes and sector
    numbers are 32 bits wide and wrap around.  The fuel of a wait is that of
    the disk driver; a segment of [count] bytes needs at most two sectors more
    than [count / SECTSIZE], unless the loop runs past the end of the address
    space, in which case it never ends. *)

From stdpp Require Import base numbers option list strings.
From Stdlib Require Import ZArith Lia ZifyBool.
From S2P Require Import Prelude CString Kalloc Block Ide IdeProps.
Local Open Scope Z_scope.

Module Boot.
Import CString Kalloc.

Definition SECTSIZE : Z := 512.
Definition ELF_MAGIC : Z := 0x464C457F.

(** Fields of struct elfhdr and struct proghdr. *)
Definition e_magic (m : mem) (p : Z) : Z := load32 m p.
Definition e_entry (m : mem) (p : Z) : Z := load32 m (p + 24).
Definition e_phoff (m : mem) (p : Z) : Z := load32 m (p + 28).
Definition e_phnum (m : mem) (p : Z) : Z := m (p + 44) + 2 ^ 8 * m (p + 45).
Definition ph_off (m : mem) (p : Z) : Z := load32 m (p + 4).
Definition ph_paddr (m : mem) (p : Z) : Z := load32 m (p + 12).
Definition ph_filesz (m : mem) (p : Z) : Z := load32 m (p + 16).
Definition ph_memsz (m : mem) (p : Z) : Z := load32 m (p + 20).
Definition sizeof_proghdr : Z := 32.

(** The store of the bytes [d] from [a] on, around the end of the address space. *)
Definition store_bytes (a : Z) (d : block) (m : mem) : mem :=
  λ x, if (0 <=? x) && (x <? 2 ^ 32) && (u32 (x - a) <? Z.of_nat (length d)) then d !!! Z.to_nat (u32 (x - a)) else m x.

Section boot.
Context {D : Type} `{!Ata D}.
Variable patience : nat.

Notation state := (mem * D)%type.

(** [while((inb(0x1F7) & 0xC0) != 0x40)]. *)
Fixpoint waitdisk (fuel : nat) (d : D) : option D :=
  match fuel with
  | O => None
  | S fuel' => let '(v, d) := inb 0x1f7 d in if Z.land v 0xc0 =? 0x40 then Some d else waitdisk fuel' d
  end.

Definition readsect (dst offset : Z) (s : state) : option state :=
  d ← waitdisk patience s.2;
  let d := outb 0x1f2 1 d in
  let d := outb 0x1f3 (u8 offset) d in
  let d := outb 0x1f4 (u8 (Z.shiftr offset 8)) d in
  let d := outb 0x1f5 (u8 (Z.shiftr offset 16)) d in
  let d := outb 0x1f6 (u8 (Z.lor (Z.shiftr offset 24) 0xe0)) d in
  let d := outb 0x1f7 0x20 d in
  d ← waitdisk patience d;
  let '(b, d) := insl 0x1f0 d in
  Some (store_bytes dst b s.1, d).

(** [for(; pa < epa; pa += SECTSIZE, offset++) readsect(pa, offset)]. *)
Fixpoint readseg_loop (fuel : nat) (pa epa offset : Z) (s : state) : option state :=
  if pa <? epa then
    match fuel with
    | O => None
    | S fuel' => s ← readsect pa offset s; readseg_loop fuel' (u32 (pa + SECTSIZE)) epa (u32 (offset + 1)) s
    end
  else Some s.

Definition readseg (pa count offset : Z) (s : state) : option state :=
  let epa := u32 (pa + count) in
  let pa := u32 (pa - offset mod SECTSIZE) in
  let offset := u32 (offset / SECTSIZE + 1) in
  readseg_loop (Z.to_nat (count / SECTSIZE + 2)) pa epa offset s.

(** [for(; ph < eph; ph++)]: [fuel] is the number of headers. *)
Fixpoint load_segs (fuel : nat) (ph eph : Z) (s : state) : option state :=
  if ph <? eph then
    match fuel with
    | O => None
    | S fuel' =>
        let pa := ph_paddr s.1 ph in
        s ← readseg pa (ph_filesz s.1 ph) (ph_off s.1 ph) s;
        let m := if ph_filesz s.1 ph <? ph_memsz s.1 ph then
                   stosb (Z.to_nat (ph_memsz s.1 ph - ph_filesz s.1 ph)) (u32 (pa + ph_filesz s.1 ph)) 0 s.1 else s.1 in
        load_segs fuel' (u32 (ph + sizeof_proghdr)) eph (m, s.2)
    end
  else Some s.

(** The address that is jumped to; nothing when the file is not an ELF file. *)
Definition bootmain (s : state) : option (option Z * state) :=
  let elf := 0x10000 in
  s ← readseg elf 4096 0 s;
  if negb (e_magic s.1 elf =? ELF_MAGIC) then Some (None, s)
  else
    let ph := u32 (elf + e_phoff s.1 elf) in
    let eph := u32 (ph + sizeof_proghdr * e_phnum s.1 elf) in
    s ← load_segs (Z.to_nat (e_phnum s.1 elf)) ph eph s;
    Some (Some (e_entry s.1 elf), s).
End boot.

(** ** Reading *)

(** A store that does not reach the end of the address space. *)
Lemma store_bytes_at a d m x : 0 ≤ a → a + Z.of_nat (length d) ≤ 2 ^ 32 →
  store_bytes a d m x = if (a <=? x) && (x <? a + Z.of_nat (length d)) then d !!! Z.to_nat (x - a) else m x.
Proof.
  intros Ha Hd. unfold store_bytes. destruct ((0 <=? x) && (x <? 2 ^ 32)) eqn:Ex; cbn [andb].
  - destruct (Z.leb_spec a x) as [Hx|Hx]; cbn [andb]; [|].
    { rewrite u32_small by lia. by replace (x - a <? Z.of_nat (length d)) with (x <? a + Z.of_nat (length d)) by lia. }
    assert (u32 (x - a) = x - a + 2 ^ 32) as ->; [|by replace (_ <? _) with false by lia].
    unfold u32. symmetry. apply (Z.mod_unique _ _ (-1)); lia.
  - by replace ((a <=? x) && _) with false by lia.
Qed.

Section proofs.
Context {D : Type} `{!Ata D} `{!AtaSpec D}.
Implicit Types (m : mem) (d : D).

Lemma waitdisk_spec fuel : ∀ d, healthy d → (busy d < fuel)%nat → ∃ d', waitdisk fuel d = Some d' ∧ same d d'.
Proof.
  induction fuel as [|fuel IH]; intros d Hd Hb; [lia|]. cbn [waitdisk]. pose proof (inb_status d Hd) as H.
  destruct (inb 0x1f7 d) as [v d']. destruct H as ((H1 & H2 & H3) & _ & H4).
  destruct (Z.land v 0xc0 =? 0x40) eqn:E; [by exists d'|].
  destruct (IH d' H3) as (d2 & E2 & H5 & H6 & H7); [assert (busy d' < busy d)%nat by (apply H4; lia); lia|].
  exists d2. split; [done|]. split_and!; [by rewrite H5|by rewrite H6|done].
Qed.

Lemma waitdisk_ready d : healthy d → ∃ d', waitdisk patience d = Some d' ∧ same d d'.
Proof. intros Hd. apply waitdisk_spec; [done|]. pose proof (busy_bound d Hd). unfold patience. lia. Qed.

Lemma u8_land z : u8 z = Z.land z 0xff.
Proof. change 0xff with (Z.ones 8). by rewrite Z.land_ones. Qed.

Lemma drive_register n : 0 ≤ n < 2 ^ 28 →
  u8 (Z.lor (Z.shiftr n 24) 0xe0) = Z.lor (Z.lor 0xe0 (Z.shiftl (Z.land 0 1) 4)) (Z.land (Z.shiftr n 24) 0x0f).
Proof.
  intros Hn. destruct (device_register 0 n (or_introl eq_refl)) as (Hr & _ & _).
  replace (Z.land (Z.shiftr n 24) 0x0f) with (Z.shiftr n 24) in *.
  - rewrite Z.lor_comm. by apply u8_small.
  - change 0x0f with (Z.ones 4). rewrite Z.land_ones, Z.shiftr_div_pow2, Z.mod_small; try lia.
    split; [apply Z.div_pos; lia|apply Z.div_lt_upper_bound; lia].
Qed.

Lemma readsect_spec dst n m d : healthy d → 0 ≤ n < 2 ^ 28 →
  ∃ d', readsect patience dst n (m, d) = Some (store_bytes dst (disks d 0 n) m, d') ∧ healthy d' ∧ disks d' = disks d.
Proof.
  intros Hd Hn. unfold readsect. destruct (waitdisk_ready d Hd) as (d1 & E1 & Hd1 & _ & H1). cbn [snd]. rewrite E1. cbn [mbind option_bind].
  pose (x := Ide.mkIbuf 0 0 n None (replicate 512 0)).
  destruct (request_regs_spec x d1 H1) as (Hn2 & Hdrv & Hlba & Hd2 & H2); [by split; [left|split; [|apply length_replicate]]|].
  cbn [foldl request_regs fst snd x Ide.sector Ide.dev] in *.
  rewrite <- !u8_land in *. rewrite drive_register by done. set (d2 := outb 0x1f6 _ _) in *.
  destruct (outb_command d2 0x20 H2 Hn2) as (Hd3 & Ha3 & H3); [by left|].
  destruct (waitdisk_ready _ H3) as (d4 & E4 & Hd4 & Ha4 & H4). rewrite E4. cbn [mbind option_bind].
  rewrite Ha3, Hdrv, Hlba in Ha4. pose proof (insl_data d4 _ _ H4 Ha4) as H. destruct (insl 0x1f0 d4) as [b d5].
  destruct H as (-> & Hd5 & H5). exists d5. rewrite Hd5, Hd4, Hd3, Hd2, Hd1. done.
Qed.

(** The bytes of the kernel file. *)
Definition kbyte (d : media) : mem := λ j, d 0 (j / SECTSIZE + 1) !!! Z.to_nat (j mod SECTSIZE).

(** A disk whose sectors have 512 bytes. *)
Definition formatted (d : media) : Prop := ∀ n, length (d 0 n) = 512%nat.

Lemma readseg_loop_spec fuel : ∀ pa epa n m d, healthy d → formatted (disks d) → 0 < n → 0 ≤ pa → epa + SECTSIZE ≤ 2 ^ 32 → (epa - pa) / SECTSIZE + 1 ≤ Z.of_nat fuel →
  n + (epa - pa) / SECTSIZE + 1 ≤ 2 ^ 28 →
  ∃ m' d', readseg_loop patience fuel pa epa n (m, d) = Some (m', d') ∧ healthy d' ∧ disks d' = disks d ∧
    (∀ x, pa ≤ x < epa → m' x = kbyte (disks d) (x - pa + (n - 1) * SECTSIZE)) ∧
    (∀ x, x < pa ∨ epa + SECTSIZE ≤ x → m' x = m x).
Proof.
  unfold SECTSIZE. induction fuel as [|fuel IH]; intros pa epa n m d Hd Hfm Hn Hpa Hepa Hf Hbig; cbn [readseg_loop].
  - destruct (pa <? epa) eqn:E; [|exists m, d; split_and!; try done; lia].
    assert (0 ≤ (epa - pa) / 512) by (apply Z.div_pos; lia). lia.
  - destruct (pa <? epa) eqn:E; [|exists m, d; split_and!; try done; lia].
    assert (0 ≤ (epa - pa) / 512) by (apply Z.div_pos; lia).
    assert ((epa - (pa + 512)) / 512 = (epa - pa) / 512 - 1) as Hq.
    { replace (epa - pa) with (epa - (pa + 512) + 1 * 512) by lia. rewrite Z.div_add by lia. lia. }
    destruct (readsect_spec pa n m d Hd) as (d1 & E1 & H1 & Hd1); [lia|]. rewrite E1. cbn [mbind option_bind].
    unfold SECTSIZE. rewrite (u32_small (pa + 512)), (u32_small (n + 1)) by lia.
    assert (∀ x, store_bytes pa (disks d 0 n) m x = if (pa <=? x) && (x <? pa + 512) then disks d 0 n !!! Z.to_nat (x - pa) else m x) as Hst.
    { intros x. by rewrite store_bytes_at, (Hfm n) by (rewrite ?(Hfm n); lia). }
    destruct (IH (pa + 512) epa (n + 1) (store_bytes pa (disks d 0 n) m) d1) as (m' & d' & E2 & H2 & Hd2 & Hin & Hout);
      [done|by rewrite Hd1|lia..|].
    exists m', d'. split_and!; [done|done|by rewrite Hd2| |].
    + intros x Hx. destruct (decide (pa + 512 ≤ x)) as [Hx'|Hx'].
      * rewrite Hin, Hd1 by lia. f_equal. lia.
      * rewrite Hout, Hst by lia. replace ((pa <=? x) && _) with true by lia.
        unfold kbyte, SECTSIZE. rewrite Z.div_add, Z.mod_add by lia. rewrite Z.div_small, Z.mod_small by lia.
        by replace (0 + (n - 1) + 1) with n by lia.
    + intros x Hx. rewrite Hout, Hst by lia. by replace ((pa <=? x) && _) with false by lia.
Qed.

Lemma readseg_spec pa count off m d : healthy d → formatted (disks d) → 0 ≤ count → 0 ≤ off → off + count < 2 ^ 32 →
  0 ≤ pa - off mod SECTSIZE → pa + count + SECTSIZE ≤ 2 ^ 32 →
  ∃ m' d', readseg patience pa count off (m, d) = Some (m', d') ∧ healthy d' ∧ disks d' = disks d ∧
    (∀ x, pa ≤ x < pa + count → m' x = kbyte (disks d) (off + (x - pa))) ∧
    (∀ x, x < pa - off mod SECTSIZE ∨ pa + count + SECTSIZE ≤ x → m' x = m x).
Proof.
  intros Hd Hfm Hc Ho Hbig Hpa Hepa. unfold readseg. unfold SECTSIZE in *. pose proof (Z.mod_pos_bound off 512 ltac:(lia)) as Hmod.
  pose proof (Z.div_mod off 512 ltac:(lia)) as Hdiv.
  assert ((count + off mod 512) / 512 ≤ count / 512 + 1) as Hq.
  { replace (count / 512 + 1) with ((count + 1 * 512) / 512) by (rewrite Z.div_add by lia; lia). apply Z.div_le_mono; lia. }
  assert (off / 512 + (count + off mod 512) / 512 ≤ 2 ^ 23) as Hsz.
  { rewrite <- Z.div_add_l by lia. apply Z.div_le_upper_bound; lia. }
  assert (0 ≤ off / 512) by (apply Z.div_pos; lia). assert (0 ≤ count / 512) by (apply Z.div_pos; lia).
  rewrite (u32_small (pa + count)), (u32_small (pa - off mod 512)), (u32_small (off / 512 + 1)) by lia.
  destruct (readseg_loop_spec (Z.to_nat (count / 512 + 2)) (pa - off mod 512) (pa + count) (off / 512 + 1) m d)
    as (m' & d' & E & Hh & Hd' & Hin & Hout); [done|done|lia|lia|unfold SECTSIZE; lia|..].
  { unfold SECTSIZE. replace (pa + count - (pa - off mod 512)) with (count + off mod 512) by lia. lia. }
  { unfold SECTSIZE. replace (pa + count - (pa - off mod 512)) with (count + off mod 512) by lia. lia. }
  exists m', d'. split_and!; [done|done|done| |exact Hout]. intros x Hx. rewrite Hin by lia. unfold SECTSIZE. f_equal. lia.
Qed.

(** ** Loading *)

Record segment := mkSegment { sg_pa : Z; sg_filesz : Z; sg_memsz : Z; sg_off : Z }.

(** The program header at [ph] describes the segment. *)
Definition header_at m (ph : Z) (g : segment) : Prop :=
  ph_paddr m ph = sg_pa g ∧ ph_filesz m ph = sg_filesz g ∧ ph_memsz m ph = sg_memsz g ∧ ph_off m ph = sg_off g.
Fixpoint headers_at m (ph : Z) (gs : list segment) : Prop :=
  match gs with [] => True | g :: gs => header_at m ph g ∧ headers_at m (ph + sizeof_proghdr) gs end.

(** Segments in increasing order from [lo] on; the sectors of a segment do not
    reach into the one before, and they end below the end of the address space. *)
Fixpoint segments_ok (lo : Z) (gs : list segment) : Prop :=
  match gs with
  | [] => True
  | g :: gs =>
      lo ≤ sg_pa g - sg_off g mod SECTSIZE ∧ 0 ≤ sg_filesz g ∧ 0 ≤ sg_off g ∧ sg_off g + sg_filesz g < 2 ^ 32 ∧
      sg_pa g + Z.max (sg_filesz g + SECTSIZE) (sg_memsz g) ≤ 2 ^ 32 ∧
      segments_ok (sg_pa g + Z.max (sg_filesz g) (sg_memsz g)) gs
  end.

(** The segment is in memory: its part of the file, and zeroes. *)
Definition loaded (k : mem) m (g : segment) : Prop :=
  (∀ j, 0 ≤ j < sg_filesz g → m (sg_pa g + j) = k (sg_off g + j)) ∧
  (∀ j, sg_filesz g ≤ j < sg_memsz g → m (sg_pa g + j) = 0).

Lemma load32_agree m m' a : (∀ x, a ≤ x < a + 4 → m' x = m x) → load32 m' a = load32 m a.
Proof. intros H. unfold load32. by rewrite !H by lia. Qed.

Lemma header_ext m m' ph g : (∀ x, ph ≤ x < ph + sizeof_proghdr → m' x = m x) → header_at m ph g → header_at m' ph g.
Proof.
  unfold sizeof_proghdr, header_at, ph_paddr, ph_filesz, ph_memsz, ph_off. intros H (H1 & H2 & H3 & H4).
  split_and!; erewrite load32_agree; try done; intros x Hx; apply H; lia.
Qed.

Lemma headers_ext m m' gs : ∀ ph, (∀ x, ph ≤ x < ph + sizeof_proghdr * Z.of_nat (length gs) → m' x = m x) →
  headers_at m ph gs → headers_at m' ph gs.
Proof.
  induction gs as [|g gs IH]; intros ph H; [done|]. intros [H1 H2]. unfold sizeof_proghdr in *. cbn [length] in H. split.
  - eapply header_ext; [|done]. intros x Hx. unfold sizeof_proghdr in Hx. apply H. lia.
  - apply IH; [|done]. intros x Hx. unfold sizeof_proghdr in Hx. apply H. lia.
Qed.

Lemma load_segs_spec gs : ∀ ph lo m d, healthy d → formatted (disks d) → headers_at m ph gs → 0 ≤ ph → ph + sizeof_proghdr * Z.of_nat (length gs) < 2 ^ 32 →
  ph + sizeof_proghdr * Z.of_nat (length gs) ≤ lo → segments_ok lo gs →
  ∃ m' d', load_segs patience (length gs) ph (ph + sizeof_proghdr * Z.of_nat (length gs)) (m, d) = Some (m', d') ∧ healthy d' ∧
    Forall (loaded (kbyte (disks d)) m') gs ∧ ∀ x, x < lo → m' x = m x.
Proof.
  unfold sizeof_proghdr. induction gs as [|g gs IH]; intros ph lo m d Hd Hfm Hh Hph Hend Hlo Hok; cbn [load_segs length] in *.
  { replace (ph <? _) with false by lia. exists m, d. by split_and!. }
  destruct Hh as [Hg Hh]. destruct Hok as (Hpa & Hfs & Ho & Hbig & Htop & Hok). replace (ph <? _) with true by lia. cbn [fst snd].
  pose proof (Z.mod_pos_bound (sg_off g) SECTSIZE ltac:(unfold SECTSIZE; lia)) as Hmod.
  pose proof Hg as (-> & -> & _ & ->).
  destruct (readseg_spec (sg_pa g) (sg_filesz g) (sg_off g) m d) as (m1 & d1 & E1 & H1 & Hd1 & Hin & Hout); [done..|lia|lia|].
  rewrite E1. cbn [mbind option_bind fst snd].
  assert (header_at m1 ph g) as (_ & -> & -> & _).
  { eapply header_ext; [|done]. intros x Hx. unfold sizeof_proghdr in Hx. apply Hout. lia. }
  rewrite (u32_small (sg_pa g + sg_filesz g)) by (unfold SECTSIZE in Htop; lia). set (m2 := if sg_filesz g <? sg_memsz g then _ else m1).
  assert (∀ x, m2 x = if (sg_pa g + sg_filesz g <=? x) && (x <? sg_pa g + sg_memsz g) then 0 else m1 x) as Hm2.
  { intros x. unfold m2. destruct (sg_filesz g <? sg_memsz g) eqn:E.
    - rewrite stosb_spec, Z2Nat.id by lia. by replace (sg_pa g + sg_filesz g + (sg_memsz g - sg_filesz g)) with (sg_pa g + sg_memsz g) by lia.
    - by replace ((_ <=? _) && _) with false by lia. }
  destruct (IH (ph + 32) (sg_pa g + Z.max (sg_filesz g) (sg_memsz g)) m2 d1) as (m' & d' & E2 & H2 & Hall & Hlow);
    [done|by rewrite Hd1| |lia..|done|].
  { eapply headers_ext; [|exact Hh]. unfold sizeof_proghdr. intros x Hx. rewrite Hm2.
    replace ((_ <=? _) && _) with false by lia. apply Hout. lia. }
  unfold sizeof_proghdr. rewrite u32_small by lia.
  replace (ph + 32 * Z.of_nat (S (length gs))) with (ph + 32 + 32 * Z.of_nat (length gs)) by lia. rewrite E2. exists m', d'. split_and!; [done|done| |].
  - rewrite Hd1 in Hall. constructor; [|done]. split.
    + intros j Hj. rewrite Hlow, Hm2 by lia. replace ((_ <=? _) && _) with false by lia. rewrite Hin by lia. f_equal. lia.
    + intros j Hj. rewrite Hlow, Hm2 by lia. by replace ((_ <=? _) && _) with true by lia.
  - intros x Hx. rewrite Hlow, Hm2 by lia. replace ((_ <=? _) && _) with false by lia. apply Hout. lia.
Qed.

(** The headers in the scratch space, where the first page of the file has been
    copied. *)
Lemma scratch_load32 (k : mem) m a : (∀ x, 0x10000 ≤ x < 0x11000 → m x = k (x - 0x10000)) → 0 ≤ a → a + 4 ≤ 4096 →
  load32 m (0x10000 + a) = load32 k a.
Proof.
  intros Hk Ha Ha'. unfold load32. rewrite !Hk by lia. replace (0x10000 + a - 0x10000) with a by lia.
  replace (0x10000 + a + 1 - 0x10000) with (a + 1) by lia. replace (0x10000 + a + 2 - 0x10000) with (a + 2) by lia.
  by replace (0x10000 + a + 3 - 0x10000) with (a + 3) by lia.
Qed.

Lemma scratch_headers (k : mem) m : (∀ x, 0x10000 ≤ x < 0x11000 → m x = k (x - 0x10000)) → ∀ gs a, 0 ≤ a →
  a + sizeof_proghdr * Z.of_nat (length gs) ≤ 4096 → headers_at k a gs → headers_at m (0x10000 + a) gs.
Proof.
  intros Hk. unfold sizeof_proghdr. induction gs as [|g gs IH]; intros a Ha Hl; [done|]. intros [Hg Hgs]. cbn [length] in Hl. split.
  - destruct Hg as (H1 & H2 & H3 & H4). unfold header_at, ph_paddr, ph_filesz, ph_memsz, ph_off in *.
    rewrite <- !Z.add_assoc. rewrite !(scratch_load32 k) by (done || lia). done.
  - rewrite <- Z.add_assoc. apply IH; [unfold sizeof_proghdr; lia..|done].
Qed.

(** C33. The boot loader: if the disk holds an ELF file whose headers are in its
    first page, and whose segments lie above the scratch space in increasing
    order, with their sectors apart and below the end of the 32-bit address space,
    then bootmain puts every segment in place, fills the rest of it with zeroes, and
    jumps to the entry point of the file. *)
Theorem bootmain_loads_kernel (gs : list segment) m d : let k := kbyte (disks d) in
  healthy d → formatted (disks d) → e_magic k 0 = ELF_MAGIC → e_phnum k 0 = Z.of_nat (length gs) →
  0 ≤ e_phoff k 0 → e_phoff k 0 + sizeof_proghdr * Z.of_nat (length gs) ≤ 4096 → headers_at k (e_phoff k 0) gs →
  segments_ok 0x11000 gs →
  ∃ m' d', bootmain patience (m, d) = Some (Some (e_entry k 0), (m', d')) ∧ Forall (loaded k m') gs.
Proof.
  intros k Hd Hfm Hmagic Hnum Hoff Hsize Hh Hok. unfold bootmain.
  destruct (readseg_spec 0x10000 4096 0 m d) as (m1 & d1 & E1 & H1 & Hd1 & Hin & _); [done|done|done || lia..|].
  assert (∀ x, 0x10000 ≤ x < 0x11000 → m1 x = k (x - 0x10000)) as Hk by (intros x Hx; by apply Hin; lia).
  rewrite E1. cbn [mbind option_bind fst snd].
  pose proof (λ a H H', scratch_load32 k m1 a Hk H H') as Hl.
  assert (e_magic m1 0x10000 = ELF_MAGIC) as -> by (rewrite <- Hmagic; by apply (Hl 0)). change (negb (ELF_MAGIC =? ELF_MAGIC)) with false. cbn iota.
  assert (e_phnum m1 0x10000 = Z.of_nat (length gs)) as -> by (rewrite <- Hnum; unfold e_phnum; by rewrite !Hk by lia).
  assert (e_phoff m1 0x10000 = e_phoff k 0) as -> by (by apply (Hl 28)). rewrite Nat2Z.id.
  rewrite (u32_small (0x10000 + _)), u32_small by (unfold sizeof_proghdr in *; lia).
  destruct (load_segs_spec gs (0x10000 + e_phoff k 0) 0x11000 m1 d1) as (m' & d' & E2 & H2 & Hall & Hlow); [done|by rewrite Hd1| |unfold sizeof_proghdr in *; lia..|done|].
  { by apply (scratch_headers k m1 Hk). }
  rewrite E2. cbn [mbind option_bind fst snd]. exists m', d'. rewrite Hd1 in Hall. split; [|done]. do 3 f_equal.
  change (load32 m' (0x10000 + 24) = load32 k 24). rewrite <- (Hl 24) by lia. apply load32_agree. intros x Hx. apply Hlow. lia.
Qed.
End proofs.

(** A sector that starts with the bytes [b]. *)
Definition padded (b : list Z) : block := take 512 (b ++ replicate 512 0).
Lemma length_padded b : length (padded b) = 512%nat.
Proof. unfold padded. rewrite length_take, length_app, length_replicate. lia. Qed.

(** A disk with a file of one segment of four bytes in sector 2, which is
    loaded at 0x100000 with four zeroes after it. *)
Definition boot_board : board :=
  let hdr := [0x7f; 0x45; 0x4c; 0x46] ++ replicate 20 0 ++ [12; 0; 16; 0; 52; 0; 0; 0] ++ replicate 12 0 ++ [1; 0] in
  let ph := replicate 6 0 ++ [1; 0; 0; 0; 0; 2; 0; 0; 0; 0; 0; 0; 0; 0; 16; 0; 4; 0; 0; 0; 8; 0; 0; 0] in
  mkBoard (λ _, 0) (λ _ n, padded (if n =? 1 then hdr ++ ph else if n =? 2 then [1; 2; 3; 4] else [])) None 0 0x40.

Lemma bootmain_loads_kernel_witness : ∃ m' d',
  bootmain patience (λ _, 0xff, boot_board) = Some (Some 0x10000c, (m', d')) ∧ m' 0x100003 = 4 ∧ m' 0x100007 = 0.
Proof.
  destruct (bootmain_loads_kernel [mkSegment 0x100000 4 8 512] (λ _, 0xff) boot_board) as (m' & d' & E & [[H1 H2] _]%Forall_cons).
  - split; [simpl; lia|done].
  - intros n. apply length_padded.
  - vm_compute. reflexivity.
  - vm_compute. reflexivity.
  - vm_compute. discriminate.
  - vm_compute. discriminate.
  - vm_compute. repeat split.
  - split_and!; done.
  - exists m', d'. split; [etrans; [exact E|vm_compute; reflexivity]|]. split.
    + etrans; [apply (H1 3); split; done|vm_compute; reflexivity].
    + apply (H2 7). split; done.
Defined.
End Boot.
