(* ===== verification/Bio.v ===== *)
(** * The buffer cache (bio.c) over the memory disk (memide.c)

    The cache is an array of [NBUF] buffers on a circular doubly linked list
    through [prev]/[next] with the sentinel [bcache.head]; a [struct buf *] is
    an index into the array, index [NBUF] being the sentinel.  The disk keeps,
    beside its sectors, the history of the sector writes it has performed. *)

From stdpp Require Import base numbers option list gmap strings sorting.
From S2P Require Import Prelude Block.
Local Open Scope Z_scope.

Module Bio.

(** ** Data *)

Definition B_BUSY : Z := 1.
Definition B_VALID : Z := 2.
Definition B_DIRTY : Z := 4.

Record buf := mkBuf {
  b_flags : Z;
  b_dev : Z;
  b_sector : Z;
  b_prev : nat;
  b_next : nat;
  b_data : block
}.

#[export] Instance buf_inhabited : Inhabited buf :=
  populate (mkBuf 0 0 0 0 0 zero_block).

Record disk := mkDisk {
  disksize : Z;
  memdisk : sectors;
  dk_writes : list (Z * block)
}.

(** [bwakes] records the [wakeup] calls made, oldest first. *)
Record bcache := mkBcache {
  bufs : list buf;
  bdisk : disk;
  bwakes : list chan
}.

(** The sentinel [&bcache.head]. *)
Definition head : nat := Z.to_nat NBUF.
Arguments head : simpl never.

Definition set_flags (f : Z) (b : buf) : buf :=
  mkBuf f (b_dev b) (b_sector b) (b_prev b) (b_next b) (b_data b).
Definition set_id (dev sector f : Z) (b : buf) : buf :=
  mkBuf f dev sector (b_prev b) (b_next b) (b_data b).
Definition set_prev (p : nat) (b : buf) : buf :=
  mkBuf (b_flags b) (b_dev b) (b_sector b) p (b_next b) (b_data b).
Definition set_next (n : nat) (b : buf) : buf :=
  mkBuf (b_flags b) (b_dev b) (b_sector b) (b_prev b) n (b_data b).
Definition set_data (d : block) (b : buf) : buf :=
  mkBuf (b_flags b) (b_dev b) (b_sector b) (b_prev b) (b_next b) d.

(** [*p = f( *p )] on the buffer array. *)
Definition upd (i : nat) (f : buf → buf) (bs : list buf) : list buf :=
  <[i := f (bs !!! i)]> bs.

Definition on_bufs (f : list buf → list buf) (s : bcache) : bcache :=
  mkBcache (f (bufs s)) (bdisk s) (bwakes s).
Definition wakeup (c : chan) (s : bcache) : bcache :=
  mkBcache (bufs s) (bdisk s) (bwakes s ++ [c]).

Definition disk_write (n : Z) (d : block) (dk : disk) : disk :=
  mkDisk (disksize dk) (<[n := d]> (memdisk dk)) (dk_writes dk ++ [(n, d)]).

(** ** The list operations of binit and brelse *)

(** [b->next->prev = b->prev; b->prev->next = b->next]. *)
Definition unlink (b : nat) (bs : list buf) : list buf :=
  let bs := upd (b_next (bs !!! b)) (set_prev (b_prev (bs !!! b))) bs in
  upd (b_prev (bs !!! b)) (set_next (b_next (bs !!! b))) bs.

(** [b->next = head.next; b->prev = &head; head.next->prev = b; head.next = b]. *)
Definition link_front (b : nat) (bs : list buf) : list buf :=
  let bs := upd b (set_next (b_next (bs !!! head))) bs in
  let bs := upd b (set_prev head) bs in
  let bs := upd (b_next (bs !!! head)) (set_prev b) bs in
  upd head (set_next b) bs.

(** One iteration of the loop of binit, on the buffer [b]. *)
Definition binit_one (bs : list buf) (b : nat) : list buf :=
  let bs := upd b (set_next (b_next (bs !!! head))) bs in
  let bs := upd b (set_prev head) bs in
  let bs := upd b (λ x, set_id (u32 (-1)) (b_sector x) (b_flags x) x) bs in
  let bs := upd (b_next (bs !!! head)) (set_prev b) bs in
  upd head (set_next b) bs.

Definition binit : kM bcache unit :=
  modify (on_bufs (λ bs,
    let bs := upd head (set_prev head) bs in
    let bs := upd head (set_next head) bs in
    foldl binit_one bs (seq 0 head))).

(** The cache as the C runtime leaves it, before [binit]. *)
Definition bss (dk : disk) : bcache :=
  mkBcache (replicate (S head) (mkBuf 0 0 0 0 0 zero_block)) dk [].

(** ** The disk driver: memide.c *)

Definition iderw (b : nat) : kM bcache unit :=
  x ← gets (λ s, bufs s !!! b);
  dsize ← gets (λ s, disksize (bdisk s));
  if negb (flag (b_flags x) B_BUSY) then panic "iderw: buf not busy"
  else if Z.land (b_flags x) (Z.lor B_VALID B_DIRTY) =? B_VALID then
    panic "iderw: nothing to do"
  else if negb (b_dev x =? 1) then panic "iderw: request not for disk 1"
  else if u32 dsize <=? b_sector x then panic "iderw: sector out of range"
  else
    _ ← (if flag (b_flags x) B_DIRTY then
           modify (λ s, mkBcache
             (upd b (λ y, set_flags (clrf (b_flags y) B_DIRTY) y) (bufs s))
             (disk_write (b_sector x) (b_data x) (bdisk s)) (bwakes s))
         else
           modify (λ s, on_bufs (upd b (set_data (memdisk (bdisk s) !!! b_sector x))) s));
    modify (on_bufs (upd b (λ y, set_flags (setf (b_flags y) B_VALID) y))).

(** ** bio.c *)

(** [for(b = head.next; b != &head; b = b->next)], looking for the block. *)
Fixpoint scan_next (fuel : nat) (bs : list buf) (b : nat) (p : buf → bool) : option nat :=
  match fuel with
  | O => None
  | S fuel =>
      if Nat.eqb b head then None
      else if p (bs !!! b) then Some b
      else scan_next fuel bs (b_next (bs !!! b)) p
  end.

(** [for(b = head.prev; b != &head; b = b->prev)], looking for a buffer. *)
Fixpoint scan_prev (fuel : nat) (bs : list buf) (b : nat) (p : buf → bool) : option nat :=
  match fuel with
  | O => None
  | S fuel =>
      if Nat.eqb b head then None
      else if p (bs !!! b) then Some b
      else scan_prev fuel bs (b_prev (bs !!! b)) p
  end.

Definition is_block (dev sector : Z) (x : buf) : bool :=
  (b_dev x =? dev) && (b_sector x =? sector).
Definition is_free (x : buf) : bool :=
  negb (flag (b_flags x) B_BUSY) && negb (flag (b_flags x) B_DIRTY).

Definition bget (dev sector : Z) : kM bcache nat :=
  bs ← gets bufs;
  match scan_next (S head) bs (b_next (bs !!! head)) (is_block dev sector) with
  | Some b =>
      if negb (flag (b_flags (bs !!! b)) B_BUSY) then
        _ ← modify (on_bufs (upd b (λ y, set_flags (setf (b_flags y) B_BUSY) y)));
        mret b
      else sleep_on (ChBuf b)
  | None =>
      match scan_prev (S head) bs (b_prev (bs !!! head)) is_free with
      | Some b =>
          _ ← modify (on_bufs (upd b (set_id dev sector B_BUSY)));
          mret b
      | None => panic "bget: no buffers"
      end
  end.

Definition bread (dev sector : Z) : kM bcache nat :=
  b ← bget dev sector;
  f ← gets (λ s, b_flags (bufs s !!! b));
  _ ← kif (negb (flag f B_VALID)) (iderw b);
  mret b.

Definition bwrite (b : nat) : kM bcache unit :=
  f ← gets (λ s, b_flags (bufs s !!! b));
  if negb (flag f B_BUSY) then panic "bwrite"
  else
    _ ← modify (on_bufs (upd b (λ y, set_flags (setf (b_flags y) B_DIRTY) y)));
    iderw b.

Definition brelse (b : nat) : kM bcache unit :=
  f ← gets (λ s, b_flags (bufs s !!! b));
  if negb (flag f B_BUSY) then panic "brelse"
  else
    _ ← modify (on_bufs (unlink b));
    _ ← modify (on_bufs (link_front b));
    _ ← modify (on_bufs (upd b (λ y, set_flags (clrf (b_flags y) B_BUSY) y)));
    modify (wakeup (ChBuf b)).

#[export] Instance bio_ops : BlockIO bcache := {|
  Block.bread := bread;
  Block.bwrite := bwrite;
  Block.brelse := brelse;
  buf_data s b := b_data (bufs s !!! b);
  buf_sector s b := b_sector (bufs s !!! b);
  set_buf_data b d := on_bufs (upd b (set_data d));
  set_buf_dirty b := on_bufs (upd b (λ y, set_flags (setf (b_flags y) B_DIRTY) y))
|}.

(** ** The ring of buffers

    [chain f x l y]: following [f] from [x] visits [l] and then reaches [y]. *)

Fixpoint chain (f : nat → nat) (x : nat) (l : list nat) (y : nat) : Prop :=
  match l with
  | [] => f x = y
  | a :: l' => f x = a ∧ chain f a l' y
  end.

Definition fupd (i v : nat) (f : nat → nat) (j : nat) : nat :=
  if decide (j = i) then v else f j.

Lemma fupd_eq i v f : fupd i v f i = v.
Proof. unfold fupd. by case_decide. Qed.
Lemma fupd_ne i v f j : j ≠ i → fupd i v f j = f j.
Proof. unfold fupd. by case_decide. Qed.

Lemma chain_app f x l1 a l2 y :
  chain f x (l1 ++ a :: l2) y ↔ chain f x l1 a ∧ chain f a l2 y.
Proof. revert x. induction l1 as [|b l1 IH]; intros x; simpl; [|rewrite IH]; tauto. Qed.

Lemma chain_ext f g x l y :
  (∀ i, i ∈ x :: l → f i = g i) → chain f x l y → chain g x l y.
Proof.
  revert x. induction l as [|b l IH]; intros x Hfg; simpl.
  - rewrite Hfg by set_solver. done.
  - rewrite Hfg by set_solver. intros [-> ?]. split; [done|]. apply IH; set_solver.
Qed.

Lemma chain_head f x l y : chain f x l y → f x = hd y l.
Proof. destruct l; simpl; tauto. Qed.

(** Redirect the last pointer of a chain. *)
Lemma chain_set_last f x l y y' : NoDup (x :: l) →
  chain f x l y → chain (fupd (List.last l x) y' f) x l y'.
Proof.
  revert x. induction l as [|b l IH]; intros x Hnd Hc.
  - simpl. apply fupd_eq.
  - destruct Hc as [Hx Hc]. apply NoDup_cons in Hnd as [Hx' Hnd].
    replace (List.last (b :: l) x) with (List.last l b)
      by (clear; revert b; induction l as [|c l IH]; intros b; [done|]; simpl in *;
          destruct l; [done|]; apply (IH b)).
    split; [|by apply IH]. rewrite fupd_ne; [done|].
    intros ->. apply Hx'. destruct l as [|c l] using rev_ind; [set_solver|].
    rewrite List.last_last. set_solver.
Qed.

Lemma chain_remove f h l1 b l2 : NoDup (h :: l1 ++ b :: l2) →
  chain f h (l1 ++ b :: l2) h →
  chain (fupd (List.last l1 h) (f b) f) h (l1 ++ l2) h.
Proof.
  intros Hnd [H1 H2]%chain_app.
  assert (NoDup (h :: l1)) as Hnd1.
  { apply NoDup_cons in Hnd as [? Hnd]. apply NoDup_app in Hnd as (?&?&?).
    constructor; [set_solver|done]. }
  pose proof (chain_set_last _ _ _ _ (f b) Hnd1 H1) as H1'.
  destruct l2 as [|c l2]; simpl in H2.
  - rewrite app_nil_r. by rewrite H2 in *.
  - destruct H2 as [<- H2]. apply chain_app. split; [done|].
    eapply chain_ext; [|done]. intros i Hi. rewrite fupd_ne; [done|]. intros ->.
    apply NoDup_cons in Hnd as [Hh Hnd]. apply NoDup_app in Hnd as (?&Hd&?).
    destruct l1 as [|d l1 _] using rev_ind; [simpl in *; set_solver|].
    rewrite List.last_last in Hi. apply (Hd d); set_solver.
Qed.

Lemma hd_reverse (l : list nat) x : hd x (reverse l) = List.last l x.
Proof.
  destruct l as [|a l _] using rev_ind; [done|].
  by rewrite List.last_last, reverse_app.
Qed.
Lemma last_reverse (l : list nat) x : List.last (reverse l) x = hd x l.
Proof. by rewrite <-hd_reverse, reverse_involutive. Qed.

Definition nx (bs : list buf) (i : nat) : nat := b_next (bs !!! i).
Definition pv (bs : list buf) (i : nat) : nat := b_prev (bs !!! i).

(** The linked list through [next] and [prev] is the sequence [l], most
    recently used first. *)
Definition ring (bs : list buf) (l : list nat) : Prop :=
  length bs = S head ∧ NoDup (head :: l) ∧ Forall (λ i, (i < head)%nat) l ∧
  chain (nx bs) head l head ∧ chain (pv bs) head (reverse l) head.

(** What a buffer holds apart from its links. *)
Definition pay (b : buf) : Z * Z * Z * block :=
  (b_flags b, b_dev b, b_sector b, b_data b).

Lemma length_upd i f bs : length (upd i f bs) = length bs.
Proof. apply length_insert. Qed.

Lemma lookup_upd i f bs j : (i < length bs)%nat →
  upd i f bs !!! j = if decide (j = i) then f (bs !!! i) else bs !!! j.
Proof.
  intros. unfold upd. rewrite arr_insert by done.
  repeat case_decide; congruence.
Qed.

Lemma nx_set_next i v bs j : (i < length bs)%nat →
  nx (upd i (set_next v) bs) j = fupd i v (nx bs) j.
Proof. intros. unfold nx, fupd. rewrite lookup_upd by done. by case_decide. Qed.
Lemma pv_set_prev i v bs j : (i < length bs)%nat →
  pv (upd i (set_prev v) bs) j = fupd i v (pv bs) j.
Proof. intros. unfold pv, fupd. rewrite lookup_upd by done. by case_decide. Qed.
Lemma nx_set_prev i v bs j : (i < length bs)%nat →
  nx (upd i (set_prev v) bs) j = nx bs j.
Proof. intros. unfold nx. rewrite lookup_upd by done. case_decide; by subst. Qed.
Lemma pv_set_next i v bs j : (i < length bs)%nat →
  pv (upd i (set_next v) bs) j = pv bs j.
Proof. intros. unfold pv. rewrite lookup_upd by done. case_decide; by subst. Qed.
Lemma pay_upd i f bs j : (i < length bs)%nat → (∀ b, pay (f b) = pay b) →
  pay (upd i f bs !!! j) = pay (bs !!! j).
Proof. intros ? Hf. rewrite lookup_upd by done. case_decide; subst; auto. Qed.

Lemma ring_hd bs l : ring bs l → (hd head l < length bs)%nat.
Proof.
  intros (-> & _ & Hl & _). destruct l; simpl; [lia|]. inversion Hl; subst. lia.
Qed.
Lemma ring_last bs l : ring bs l → (List.last l head < length bs)%nat.
Proof.
  intros (-> & _ & Hl & _). destruct l as [|a l _] using rev_ind; [simpl; lia|].
  rewrite List.last_last. apply Forall_app in Hl as [_ Ha]. inversion Ha; subst. lia.
Qed.

Lemma unlink_ring bs l1 b l2 : ring bs (l1 ++ b :: l2) →
  ring (unlink b bs) (l1 ++ l2) ∧ ∀ i, pay (unlink b bs !!! i) = pay (bs !!! i).
Proof.
  intros (Hlen & Hnd & Hlt & Hn & Hp).
  assert (nx bs b = hd head l2) as En by (by apply chain_app in Hn as [_ ?%chain_head]).
  assert (pv bs b = List.last l1 head) as Ep.
  { rewrite reverse_app, reverse_cons, <-app_assoc in Hp.
    apply chain_app in Hp as [_ Hp%chain_head]. by rewrite Hp, hd_reverse. }
  assert (b ≠ hd head l2) as Hne.
  { apply NoDup_cons in Hnd as [Hh Hnd]. apply NoDup_app in Hnd as (?&?&Hnd).
    apply NoDup_cons in Hnd as [Hb _]. destruct l2; simpl; set_solver. }
  apply Forall_app in Hlt as [Hl1 Hl2]. inversion Hl2 as [|?? Hb Hl2']; subst.
  assert (hd head l2 < length bs)%nat as Hh by (destruct l2; simpl; [lia|]; inversion Hl2'; subst; lia).
  assert (List.last l1 head < length bs)%nat as Ht.
  { destruct l1 as [|a l1 _] using rev_ind; [simpl; lia|].
    rewrite List.last_last. apply Forall_app in Hl1 as [_ Ha]. inversion Ha; subst. lia. }
  unfold unlink. fold (nx bs b). fold (pv bs b). rewrite En, Ep.
  set (bs1 := upd (hd head l2) (set_prev (List.last l1 head)) bs).
  assert (length bs1 = length bs) as Hlen1 by apply length_upd.
  assert (b_prev (bs1 !!! b) = List.last l1 head) as ->.
  { unfold bs1. rewrite lookup_upd by done. rewrite decide_False by done. apply Ep. }
  assert (b_next (bs1 !!! b) = hd head l2) as ->.
  { unfold bs1. rewrite lookup_upd by done. rewrite decide_False by done. apply En. }
  split; [|intros i; rewrite pay_upd, ?Hlen1; [|lia|done]; unfold bs1; by rewrite pay_upd].
  split_and!.
  - rewrite length_upd. lia.
  - apply NoDup_cons in Hnd as [Hh' Hnd]. apply NoDup_app in Hnd as (?&Hd&Hnd).
    apply NoDup_cons in Hnd as [? ?]. constructor; [set_solver|].
    apply NoDup_app. split_and!; [done| |done]. intros x ??. apply (Hd x); set_solver.
  - by apply Forall_app.
  - eapply chain_ext; [|apply chain_remove with (b := b); [done|exact Hn]].
    intros i _. rewrite nx_set_next by lia. unfold fupd. rewrite En.
    case_decide; [done|]. unfold bs1. by rewrite nx_set_prev.
  - assert (reverse (l1 ++ b :: l2) = reverse l2 ++ b :: reverse l1) as Er
      by (by rewrite reverse_app, reverse_cons, <-app_assoc).
    rewrite Er in Hp. rewrite reverse_app.
    eapply chain_ext; [|apply chain_remove with (b := b); [|exact Hp]].
    + intros i _. rewrite last_reverse, Ep, pv_set_next by lia.
      unfold bs1. by rewrite pv_set_prev.
    + rewrite <-Er. apply NoDup_cons in Hnd as [? ?]. constructor; [set_solver|].
      by apply NoDup_reverse.
Qed.

Lemma link_front_ring bs b l : ring bs l → (b < head)%nat → b ∉ l →
  ring (link_front b bs) (b :: l) ∧ ∀ i, pay (link_front b bs !!! i) = pay (bs !!! i).
Proof.
  intros Hr Hb Hbl. pose proof (ring_hd _ _ Hr) as Hh.
  destruct Hr as (Hlen & Hnd & Hlt & Hn & Hp).
  pose proof (chain_head _ _ _ _ Hn) as En. unfold link_front. fold (nx bs head). rewrite En.
  set (bs1 := upd b (set_next (hd head l)) bs).
  set (bs2 := upd b (set_prev head) bs1).
  assert (length bs2 = length bs) as Hlen2 by (unfold bs2, bs1; by rewrite !length_upd).
  assert (length bs1 = length bs) as Hlen1 by (unfold bs1; by rewrite !length_upd).
  assert (b_next (bs2 !!! head) = hd head l) as ->.
  { unfold bs2, bs1. rewrite !lookup_upd by (rewrite ?length_upd; lia).
    rewrite !decide_False by lia. apply En. }
  set (bs3 := upd (hd head l) (set_prev b) bs2).
  assert (length bs3 = length bs) as Hlen3 by (unfold bs3; by rewrite !length_upd).
  assert (b ≠ hd head l) as Hne by (destruct l; simpl; [lia|set_solver]).
  assert (NoDup (head :: b :: l)) as Hnd'.
  { apply NoDup_cons in Hnd as [? ?]. constructor; [set_unfold; intuition lia|].
    by constructor. }
  split; [|intros i; unfold bs3, bs2, bs1; rewrite !pay_upd by (rewrite ?length_upd; done || lia); done].
  split_and!; [rewrite length_upd; lia|done|by constructor| |].
  - simpl. split.
    + rewrite nx_set_next by lia. apply fupd_eq.
    + assert (chain (nx bs) (hd head l) (tail l) head ∨ l = []) as Hcase.
      { destruct l; [by right|left]. by destruct Hn. }
      assert (∀ i, i ≠ head → nx (upd head (set_next b) bs3) i = fupd b (hd head l) (nx bs) i) as Hnx.
      { intros i Hi. rewrite nx_set_next by lia. rewrite fupd_ne by done.
        unfold bs3, bs2, bs1.
        by rewrite !nx_set_prev, nx_set_next by (rewrite ?length_upd; lia). }
      destruct l as [|a l]; simpl in *.
      * rewrite Hnx by lia. apply fupd_eq.
      * rewrite Hnx by lia. rewrite fupd_eq. split; [done|].
        destruct Hn as [_ Hn]. eapply chain_ext; [|exact Hn]. intros i Hi.
        rewrite Hnx, fupd_ne; [done|set_solver|].
        apply NoDup_cons in Hnd as [? _]. set_solver.
  - rewrite reverse_cons. apply chain_app. split.
    + eapply chain_ext; [|eapply (chain_set_last _ _ _ _ b); [|exact Hp]].
      2: { apply NoDup_cons in Hnd as [? ?]. constructor; [set_solver|by apply NoDup_reverse]. }
      intros i Hi. rewrite last_reverse, pv_set_next by lia. unfold bs3.
      rewrite pv_set_prev by lia. unfold fupd at 1 2. case_decide; [done|].
      assert (i ≠ b) by (intros ->; set_unfold; destruct Hi; [lia|done]).
      unfold bs2, bs1. by rewrite pv_set_prev, fupd_ne, pv_set_next by (rewrite ?length_upd; lia || done).
    + simpl. rewrite pv_set_next by lia. unfold bs3. rewrite pv_set_prev by lia.
      rewrite fupd_ne by done. unfold bs2. rewrite pv_set_prev by lia. apply fupd_eq.
Qed.

Lemma scan_next_find bs p x l fuel :
  chain (nx bs) x l head → Forall (λ i, (i < head)%nat) l → (length l < fuel)%nat →
  scan_next fuel bs (nx bs x) p = List.find (λ i, p (bs !!! i)) l.
Proof.
  revert x fuel. induction l as [|a l IH]; intros x fuel Hc Hl Hf;
    (destruct fuel as [|fuel]; [simpl in *; lia|]).
  - simpl in *. by rewrite Hc, Nat.eqb_refl.
  - destruct Hc as [-> Hc]. inversion Hl; subst. simpl.
    destruct (Nat.eqb_spec a head); [lia|]. destruct (p (bs !!! a)); [done|].
    apply IH; [done|done|]. simpl in *. lia.
Qed.

Lemma scan_prev_find bs p x l fuel :
  chain (pv bs) x l head → Forall (λ i, (i < head)%nat) l → (length l < fuel)%nat →
  scan_prev fuel bs (pv bs x) p = List.find (λ i, p (bs !!! i)) l.
Proof.
  revert x fuel. induction l as [|a l IH]; intros x fuel Hc Hl Hf;
    (destruct fuel as [|fuel]; [simpl in *; lia|]).
  - simpl in *. by rewrite Hc, Nat.eqb_refl.
  - destruct Hc as [-> Hc]. inversion Hl; subst. simpl.
    destruct (Nat.eqb_spec a head); [lia|]. destruct (p (bs !!! a)); [done|].
    apply IH; [done|done|]. simpl in *. lia.
Qed.

(** ** Invariant and abstract view *)

Definition buf_ok (dk : disk) (b : buf) : Prop :=
  (b_dev b = u32 (-1) ∧ b_flags b = 0) ∨
  (b_dev b = ROOTDEV ∧ 0 ≤ b_sector b < disksize dk ∧
   flag (b_flags b) B_VALID = true ∧ length (b_data b) = Z.to_nat BSIZE ∧
   (is_free b = true → b_data b = memdisk dk !!! b_sector b)).

Definition disk_ok (dk : disk) : Prop :=
  0 ≤ disksize dk < 2 ^ 31 ∧
  ∀ n, 0 ≤ n < disksize dk → length (memdisk dk !!! n) = Z.to_nat BSIZE.

(** At most one buffer per block; clean idle buffers agree with the disk. *)
Definition cache_ok (bs : list buf) (dk : disk) : Prop :=
  (∀ i, (i < head)%nat → buf_ok dk (bs !!! i)) ∧
  (∀ i j, (i < head)%nat → (j < head)%nat →
     b_dev (bs !!! i) = ROOTDEV → b_dev (bs !!! j) = ROOTDEV →
     b_sector (bs !!! i) = b_sector (bs !!! j) → i = j) ∧
  disk_ok dk.

Definition binv (s : bcache) : Prop :=
  (∃ l, ring (bufs s) l ∧ l ≡ₚ seq 0 head) ∧ cache_ok (bufs s) (bdisk s).

Definition cached (bs : list buf) (n : Z) : option nat :=
  List.find (λ i, is_block ROOTDEV n (bs !!! i)) (seq 0 head).

Definition cur (s : bcache) (n : Z) : block :=
  match cached (bufs s) n with
  | Some i => b_data (bufs s !!! i)
  | None => memdisk (bdisk s) !!! n
  end.

Definition dirty (s : bcache) : gset Z :=
  list_to_set ((λ i, b_sector (bufs s !!! i)) <$>
    filter (λ i, flag (b_flags (bufs s !!! i)) B_DIRTY = true) (seq 0 head)).

Definition held (s : bcache) : gmap nat Z :=
  list_to_map ((λ i, (i, b_sector (bufs s !!! i))) <$>
    filter (λ i, flag (b_flags (bufs s !!! i)) B_BUSY = true) (seq 0 head)).

Lemma is_block_true dev n b : is_block dev n b = true ↔ b_dev b = dev ∧ b_sector b = n.
Proof. unfold is_block. rewrite andb_true_iff, !Z.eqb_eq. done. Qed.

Lemma elem_of_dirty s n : n ∈ dirty s ↔
  ∃ i, (i < head)%nat ∧ flag (b_flags (bufs s !!! i)) B_DIRTY = true ∧ b_sector (bufs s !!! i) = n.
Proof.
  unfold dirty. rewrite elem_of_list_to_set, list_elem_of_fmap.
  setoid_rewrite list_elem_of_filter. setoid_rewrite elem_of_seq. naive_solver lia.
Qed.

Lemma lookup_held s i n : held s !! i = Some n ↔
  (i < head)%nat ∧ flag (b_flags (bufs s !!! i)) B_BUSY = true ∧ b_sector (bufs s !!! i) = n.
Proof.
  unfold held. rewrite <-elem_of_list_to_map.
  - rewrite list_elem_of_fmap. setoid_rewrite list_elem_of_filter.
    setoid_rewrite elem_of_seq. naive_solver lia.
  - rewrite <-list_fmap_compose. change (fst ∘ _) with (@id nat).
    rewrite list_fmap_id. apply NoDup_filter, NoDup_seq.
Qed.

Lemma elem_of_held_sectors s n : n ∈ held_sectors (held s) ↔
  ∃ i, (i < head)%nat ∧ flag (b_flags (bufs s !!! i)) B_BUSY = true ∧ b_sector (bufs s !!! i) = n.
Proof.
  unfold held_sectors. rewrite elem_of_map_img. by setoid_rewrite lookup_held.
Qed.

Lemma cached_Some bs dk n i : cache_ok bs dk →
  cached bs n = Some i ↔ (i < head)%nat ∧ b_dev (bs !!! i) = ROOTDEV ∧ b_sector (bs !!! i) = n.
Proof.
  intros (_ & Huniq & _). unfold cached. split.
  - intros [Hin Hb]%List.find_some. apply list_elem_of_In, elem_of_seq in Hin.
    apply is_block_true in Hb. split; [lia|done].
  - intros (Hi & Hd & Hs). destruct (List.find _ _) as [j|] eqn:E.
    + apply List.find_some in E as [Hj Hb]. apply list_elem_of_In, elem_of_seq in Hj.
      apply is_block_true in Hb as [??]. f_equal. apply Huniq; congruence || lia.
    + eapply List.find_none in E; [|apply list_elem_of_In, elem_of_seq; split; [|exact Hi]; lia].
      assert (is_block ROOTDEV n (bs !!! i) = true) by (by apply is_block_true). congruence.
Qed.

Lemma cached_None bs dk n : cache_ok bs dk →
  cached bs n = None ↔ ∀ i, (i < head)%nat → b_dev (bs !!! i) = ROOTDEV → b_sector (bs !!! i) ≠ n.
Proof.
  intros Hok. split.
  - intros Hc i Hi Hd Hs. assert (cached bs n = Some i) by (eapply cached_Some; eauto). congruence.
  - intros Hall. destruct (cached bs n) as [i|] eqn:E; [|done].
    apply (cached_Some _ _ _ _ Hok) in E as (?&?&?). naive_solver.
Qed.

(** [bs'] is [bs] with the content of buffer [i] replaced by that of [b'];
    links are not compared. *)
Definition agree (bs bs' : list buf) (i : nat) (b' : buf) : Prop :=
  ∀ j, pay (bs' !!! j) = if decide (j = i) then pay b' else pay (bs !!! j).

Lemma pay_eq b b' : pay b = pay b' →
  b_flags b = b_flags b' ∧ b_dev b = b_dev b' ∧ b_sector b = b_sector b' ∧ b_data b = b_data b'.
Proof. unfold pay. intros. simplify_eq. done. Qed.

Lemma agree_at bs bs' i b' : agree bs bs' i b' →
  b_flags (bs' !!! i) = b_flags b' ∧ b_dev (bs' !!! i) = b_dev b' ∧
  b_sector (bs' !!! i) = b_sector b' ∧ b_data (bs' !!! i) = b_data b'.
Proof. intros H. specialize (H i). rewrite decide_True in H by done. by apply pay_eq. Qed.

Lemma agree_ne bs bs' i b' j : agree bs bs' i b' → j ≠ i →
  b_flags (bs' !!! j) = b_flags (bs !!! j) ∧ b_dev (bs' !!! j) = b_dev (bs !!! j) ∧
  b_sector (bs' !!! j) = b_sector (bs !!! j) ∧ b_data (bs' !!! j) = b_data (bs !!! j).
Proof. intros H ?. specialize (H j). rewrite decide_False in H by done. by apply pay_eq. Qed.

Lemma buf_ok_pay dk b b' : pay b = pay b' → buf_ok dk b → buf_ok dk b'.
Proof.
  intros (Ef & Ed & Es & Eda)%pay_eq. unfold buf_ok, is_free. by rewrite Ef, Ed, Es, Eda.
Qed.

Lemma buf_ok_dev dk b m : buf_ok dk b → flag (b_flags b) m = true → b_dev b = ROOTDEV.
Proof. intros [[_ ->]|[? _]] Hf; [done|done]. Qed.

(** Rewriting the content of a buffer in place, its block unchanged; the
    disk may change at that block. *)
Section step_same.
Context (bs bs' : list buf) (dk dk' : disk) (i : nat) (b' : buf) (n : Z) (w w' : list chan).
Context (Hok : cache_ok bs dk) (Hi : (i < head)%nat).
Context (Hd : b_dev (bs !!! i) = ROOTDEV) (Hs : b_sector (bs !!! i) = n).
Context (Hd' : b_dev b' = ROOTDEV) (Hs' : b_sector b' = n) (Hb' : buf_ok dk' b').
Context (Hdk : disksize dk' = disksize dk) (Hdk' : disk_ok dk').
Context (Hmem : ∀ m, m ≠ n → memdisk dk' !!! m = memdisk dk !!! m).
Context (Hag : agree bs bs' i b').

Lemma step_same_ids j : (j < head)%nat →
  b_dev (bs' !!! j) = b_dev (bs !!! j) ∧ b_sector (bs' !!! j) = b_sector (bs !!! j).
Proof using All.
  intros Hj. destruct (decide (j = i)) as [->|].
  - destruct (agree_at _ _ _ _ Hag) as (_ & -> & -> & _). by rewrite Hd, Hs.
  - by destruct (agree_ne _ _ _ _ j Hag) as (_ & -> & -> & _).
Qed.

Lemma step_same_other j : (j < head)%nat → j ≠ i →
  b_dev (bs !!! j) = ROOTDEV → b_sector (bs !!! j) ≠ n.
Proof using All.
  intros Hj Hne Hdj Hsj. apply Hne. destruct Hok as (_ & Hu & _). apply Hu; congruence || done.
Qed.

Lemma step_same_ok : cache_ok bs' dk'.
Proof using All.
  split_and!; [| |done].
  - intros j Hj. destruct (decide (j = i)) as [->|Hne].
    + eapply buf_ok_pay; [|exact Hb']. specialize (Hag i). by rewrite decide_True in Hag.
    + eapply buf_ok_pay; [specialize (Hag j); rewrite decide_False in Hag by done; symmetry; exact Hag|].
      destruct Hok as (Hok' & _). destruct (Hok' j Hj) as [|(Hdj & Hr & Hv & Hl & Hf)]; [by left|right].
      rewrite Hdk. split_and!; [done|lia|lia|done|done|]. intros Hfr. rewrite Hmem; [by apply Hf|].
      by apply step_same_other.
  - intros j k Hj Hk. destruct (step_same_ids j Hj) as [-> ->].
    destruct (step_same_ids k Hk) as [-> ->]. by apply Hok.
Qed.

Lemma step_same_cached m : cached bs' m = cached bs m.
Proof using All.
  destruct (cached bs m) as [j|] eqn:E.
  - apply (cached_Some _ _ _ _ Hok) in E as (Hj & ? & ?).
    apply (cached_Some _ _ _ _ step_same_ok). by destruct (step_same_ids j Hj) as [-> ->].
  - rewrite (cached_None _ _ _ Hok) in E. apply (cached_None _ _ _ step_same_ok).
    intros j Hj. destruct (step_same_ids j Hj) as [-> ->]. by apply E.
Qed.

Lemma step_same_cur m :
  cur (mkBcache bs' dk' w') m = if decide (m = n) then b_data b' else cur (mkBcache bs dk w) m.
Proof using All.
  unfold cur; simpl. rewrite step_same_cached. destruct (cached bs m) as [j|] eqn:E.
  - apply (cached_Some _ _ _ _ Hok) in E as (Hj & Hdj & Hsj).
    destruct (decide (j = i)) as [->|Hne].
    + rewrite decide_True by congruence. by destruct (agree_at _ _ _ _ Hag) as (_ & _ & _ & ->).
    + rewrite decide_False by (rewrite <-Hsj; by apply step_same_other).
      by destruct (agree_ne _ _ _ _ j Hag) as (_ & _ & _ & ->).
  - rewrite (cached_None _ _ _ Hok) in E. assert (m ≠ n) by (intros ->; by apply (E i)).
    by rewrite decide_False, Hmem.
Qed.

Lemma step_same_dirty :
  dirty (mkBcache bs' dk' w') = if flag (b_flags b') B_DIRTY then {[n]} ∪ dirty (mkBcache bs dk w)
                                else dirty (mkBcache bs dk w) ∖ {[n]}.
Proof using All.
  assert (∀ m, m ≠ n → m ∈ dirty (mkBcache bs' dk' w') ↔ m ∈ dirty (mkBcache bs dk w)) as Hne.
  { intros m Hm. rewrite !elem_of_dirty; simpl. split; intros (j & Hj & Hf & Hsj);
      (assert (j ≠ i) by (intros ->; destruct (agree_at _ _ _ _ Hag) as (_ & _ & ? & _); congruence));
      destruct (agree_ne _ _ _ _ j Hag) as (E & _ & E' & _); try done;
      exists j; rewrite E, E' in * ; done. }
  assert (n ∈ dirty (mkBcache bs' dk' w') ↔ flag (b_flags b') B_DIRTY = true) as Hn.
  { destruct (agree_at _ _ _ _ Hag) as (Ef & Ed & Es & _). rewrite elem_of_dirty; simpl. split.
    - intros (j & Hj & Hf & Hsj). destruct (decide (j = i)) as [->|Hji]; [by rewrite <-Ef|].
      exfalso. destruct (step_same_ids j Hj) as [E1 E2]. apply (step_same_other j); [done..| |congruence].
      eapply buf_ok_dev; [by apply Hok|].
      destruct (agree_ne _ _ _ _ j Hag) as (E & _); [done|]. rewrite <-E. exact Hf.
    - intros. exists i. rewrite Ef, Es. done. }
  apply set_eq. intros m. destruct (decide (m = n)) as [->|Hm].
  - rewrite Hn. destruct (flag _ _); set_solver.
  - rewrite Hne by done. destruct (flag _ _); set_solver.
Qed.

Lemma step_same_held :
  held (mkBcache bs' dk' w') = if flag (b_flags b') B_BUSY then <[i := n]> (held (mkBcache bs dk w))
                               else delete i (held (mkBcache bs dk w)).
Proof using All.
  destruct (agree_at _ _ _ _ Hag) as (Ef & Ed & Es & _).
  apply map_eq. intros j. apply option_eq. intros m. rewrite lookup_held; simpl.
  destruct (decide (j = i)) as [->|Hne].
  - rewrite Ef, Es. destruct (flag (b_flags b') B_BUSY);
      rewrite ?lookup_insert_eq, ?lookup_delete_eq, Hs';
      (split; [intros (? & ? & ?)|intros ?]; simplify_eq; done).
  - destruct (agree_ne _ _ _ _ j Hag) as (E & _ & E' & _); [done|]. rewrite E, E'.
    destruct (flag (b_flags b') B_BUSY).
    + rewrite lookup_insert_ne by done. by rewrite lookup_held.
    + rewrite lookup_delete_ne by done. by rewrite lookup_held.
Qed.
End step_same.

(** Recycling a clean idle buffer for a block that is not cached. *)
Section step_recycle.
Context (bs bs' : list buf) (dk : disk) (i : nat) (b' : buf) (n : Z) (w w' : list chan).
Context (Hok : cache_ok bs dk) (Hi : (i < head)%nat) (Hfree : is_free (bs !!! i) = true).
Context (Hnone : cached bs n = None) (Hn : 0 ≤ n < disksize dk).
Context (Hd' : b_dev b' = ROOTDEV) (Hs' : b_sector b' = n) (Hda : b_data b' = memdisk dk !!! n).
Context (Hv : flag (b_flags b') B_VALID = true) (Hb : flag (b_flags b') B_BUSY = true).
Context (Hdi : flag (b_flags b') B_DIRTY = false).
Context (Hag : agree bs bs' i b').

Lemma step_recycle_ok : cache_ok bs' dk.
Proof using All.
  pose proof (proj1 (cached_None _ _ _ Hok) Hnone) as Hnone'.
  destruct Hok as (Hok' & Hu & Hdk). split_and!; [| |apply Hdk..].
  - intros j Hj. destruct (decide (j = i)) as [->|Hne].
    + eapply buf_ok_pay; [specialize (Hag i); rewrite decide_True in Hag by done; symmetry; exact Hag|].
      right. rewrite Hs', Hda. split_and!; try (done || lia). by apply Hdk.
    + eapply buf_ok_pay; [specialize (Hag j); rewrite decide_False in Hag by done; symmetry; exact Hag|].
      by apply Hok'.
  - intros j k Hj Hk. destruct (agree_at _ _ _ _ Hag) as (_ & Ed & Es & _).
    destruct (decide (j = i)) as [->|Hji], (decide (k = i)) as [->|Hki]; [done| | |].
    + destruct (agree_ne _ _ _ _ k Hag) as (_ & -> & -> & _); [done|].
      intros _ ? ?. exfalso. apply (Hnone' k); congruence.
    + destruct (agree_ne _ _ _ _ j Hag) as (_ & -> & -> & _); [done|].
      intros ? _ ?. exfalso. apply (Hnone' j); congruence.
    + destruct (agree_ne _ _ _ _ j Hag) as (_ & -> & -> & _); [done|].
      destruct (agree_ne _ _ _ _ k Hag) as (_ & -> & -> & _); [done|]. by apply Hu.
Qed.

Lemma step_recycle_cur m : cur (mkBcache bs' dk w') m = cur (mkBcache bs dk w) m.
Proof using All.
  destruct (agree_at _ _ _ _ Hag) as (_ & Ed & Es & Eda).
  assert (cur (mkBcache bs dk w) n = memdisk dk !!! n) as Hcn by (unfold cur; simpl; by rewrite Hnone).
  destruct (decide (m = n)) as [->|Hm].
  { rewrite Hcn. unfold cur; simpl.
    assert (cached bs' n = Some i) as -> by (apply (cached_Some _ _ _ _ step_recycle_ok); naive_solver congruence).
    congruence. }
  unfold cur; simpl. destruct (cached bs' m) as [j|] eqn:E'.
  - apply (cached_Some _ _ _ _ step_recycle_ok) in E' as (Hj & Hdj & Hsj).
    assert (j ≠ i) as Hji by congruence.
    destruct (agree_ne _ _ _ _ j Hag) as (_ & E1 & E2 & ->); [done|].
    assert (cached bs m = Some j) as -> by (apply (cached_Some _ _ _ _ Hok); naive_solver congruence). done.
  - rewrite (cached_None _ _ _ step_recycle_ok) in E'.
    destruct (cached bs m) as [j|] eqn:E; [|done].
    apply (cached_Some _ _ _ _ Hok) in E as (Hj & Hdj & Hsj).
    destruct (decide (j = i)) as [->|Hji].
    + destruct Hok as (Hok' & _). destruct (Hok' i Hi) as [[Hx _]|(_ & _ & _ & _ & Hclean)].
      * rewrite Hx in Hdj. done.
      * rewrite Hclean, Hsj by done. done.
    + destruct (agree_ne _ _ _ _ j Hag) as (_ & E1 & E2 & _); [done|]. exfalso. apply (E' j); congruence.
Qed.

Lemma is_free_flags b : is_free b = true →
  flag (b_flags b) B_BUSY = false ∧ flag (b_flags b) B_DIRTY = false.
Proof using. unfold is_free. rewrite andb_true_iff, !negb_true_iff. done. Qed.

Lemma step_recycle_dirty : dirty (mkBcache bs' dk w') = dirty (mkBcache bs dk w).
Proof using All.
  destruct (is_free_flags _ Hfree) as [_ Hnd]. destruct (agree_at _ _ _ _ Hag) as (Ef & _).
  apply set_eq. intros m. rewrite !elem_of_dirty; simpl.
  split; intros (j & Hj & Hf & Hs); (assert (j ≠ i) by (intros ->; congruence));
    destruct (agree_ne _ _ _ _ j Hag) as (E & _ & E' & _); try done; exists j; rewrite E, E' in *; done.
Qed.

Lemma step_recycle_held : held (mkBcache bs' dk w') = <[i := n]> (held (mkBcache bs dk w)).
Proof using All.
  destruct (agree_at _ _ _ _ Hag) as (Ef & _ & Es & _).
  apply map_eq. intros j. apply option_eq. intros m. rewrite lookup_held; simpl.
  destruct (decide (j = i)) as [->|Hne].
  - rewrite Ef, Es, Hb, Hs', lookup_insert_eq.
    split; [intros (? & ? & ?)|intros ?]; simplify_eq; done.
  - destruct (agree_ne _ _ _ _ j Hag) as (E & _ & E' & _); [done|]. rewrite E, E'.
    rewrite lookup_insert_ne by done. by rewrite lookup_held.
Qed.
End step_recycle.

(** Some buffer is recyclable when fewer than [NBUF] blocks are pinned or held. *)
Lemma free_exists s : cache_ok (bufs s) (bdisk s) →
  Z.of_nat (size (dirty s ∪ held_sectors (held s))) < NBUF →
  ∃ i, (i < head)%nat ∧ is_free (bufs s !!! i) = true.
Proof.
  intros Hok Hsz.
  destruct (List.find (λ i, is_free (bufs s !!! i)) (seq 0 head)) as [i|] eqn:E.
  { apply List.find_some in E as [Hin ?]. apply list_elem_of_In, elem_of_seq in Hin.
    exists i. split; [lia|done]. }
  exfalso. assert (∀ i, (i < head)%nat → is_free (bufs s !!! i) = false) as Hall.
  { intros i Hi. eapply List.find_none in E; [exact E|].
    apply list_elem_of_In, elem_of_seq. lia. }
  assert (∀ i, (i < head)%nat → ∃ m, flag (b_flags (bufs s !!! i)) m = true ∧ (m = B_BUSY ∨ m = B_DIRTY)) as Hfl.
  { intros i Hi. specialize (Hall i Hi). unfold is_free in Hall.
    apply andb_false_iff in Hall as [?%negb_false_iff|?%negb_false_iff]; eauto. }
  set (L := (λ i, b_sector (bufs s !!! i)) <$> seq 0 head).
  assert (NoDup L) as HndL.
  { apply NoDup_fmap_2_strong; [|apply NoDup_seq]. intros i j Hi Hj Heq.
    apply elem_of_seq in Hi, Hj. destruct Hok as (Hb & Hu & _). apply Hu; try lia.
    - destruct (Hfl i) as (m & ? & _); [lia|]. eapply buf_ok_dev; [apply Hb; lia|done].
    - destruct (Hfl j) as (m & ? & _); [lia|]. eapply buf_ok_dev; [apply Hb; lia|done]. }
  assert ((list_to_set L : gset Z) ⊆ dirty s ∪ held_sectors (held s)) as Hsub.
  { intros n. rewrite elem_of_list_to_set. unfold L. rewrite list_elem_of_fmap.
    intros (i & -> & Hi%elem_of_seq). destruct (Hfl i) as (m & ? & [->| ->]); [lia| |].
    - apply elem_of_union_r, elem_of_held_sectors. exists i. split; [lia|done].
    - apply elem_of_union_l, elem_of_dirty. exists i. split; [lia|done]. }
  apply subseteq_size in Hsub. rewrite size_list_to_set in Hsub by done.
  unfold L in Hsub. rewrite length_fmap, length_seq in Hsub. unfold head in Hsub. lia.
Qed.

Lemma ring_upd bs l i f : ring bs l → (i < length bs)%nat →
  (∀ b, b_next (f b) = b_next b ∧ b_prev (f b) = b_prev b) → ring (upd i f bs) l.
Proof.
  intros (Hl & Hnd & Hlt & Hn & Hp) Hi Hf. split_and!; [by rewrite length_upd|done|done| |].
  - eapply chain_ext; [|exact Hn]. intros j _. unfold nx. rewrite lookup_upd by done.
    case_decide; [|done]. subst. by destruct (Hf (bs !!! i)) as [-> _].
  - eapply chain_ext; [|exact Hp]. intros j _. unfold pv. rewrite lookup_upd by done.
    case_decide; [|done]. subst. by destruct (Hf (bs !!! i)) as [_ ->].
Qed.

Lemma agree_upd bs i f : (i < length bs)%nat → agree bs (upd i f bs) i (f (bs !!! i)).
Proof. intros ? j. rewrite lookup_upd by done. by case_decide. Qed.

Lemma binv_length s : binv s → length (bufs s) = S head.
Proof. intros [(l & (? & _) & _) _]. done. Qed.

(** [scan_next] looks up the block. *)
Lemma scan_cached s n : binv s →
  scan_next (S head) (bufs s) (b_next (bufs s !!! head)) (is_block ROOTDEV n) = cached (bufs s) n.
Proof.
  intros [(l & (Hlen & Hnd & Hlt & Hn & Hp) & Hperm) Hok].
  change (b_next (bufs s !!! head)) with (nx (bufs s) head).
  rewrite (scan_next_find _ _ head l); [|done|done|rewrite Hperm, length_seq; lia].
  destruct (List.find _ l) as [i|] eqn:E; symmetry.
  - apply List.find_some in E as [Hi Hb]. apply (cached_Some _ _ _ _ Hok).
    apply is_block_true in Hb. apply list_elem_of_In in Hi. split; [|done].
    rewrite Forall_forall in Hlt. auto.
  - apply (cached_None _ _ _ Hok). intros i Hi Hd Hs.
    eapply List.find_none in E; [|apply list_elem_of_In; rewrite Hperm; apply elem_of_seq; split; [lia|exact Hi]].
    assert (is_block ROOTDEV n (bufs s !!! i) = true) by (by apply is_block_true). congruence.
Qed.

(** [scan_prev] returns the least recently used free buffer. *)
Lemma scan_lru bs l : ring bs l → (length l ≤ head)%nat →
  scan_prev (S head) bs (b_prev (bs !!! head)) is_free =
    List.find (λ i, is_free (bs !!! i)) (reverse l).
Proof.
  intros (Hlen & Hnd & Hlt & Hn & Hp) Hl.
  apply (scan_prev_find _ _ head (reverse l)); [done| |rewrite length_reverse; lia].
  rewrite Forall_forall in *. intros i Hi. apply Hlt. by apply elem_of_reverse.
Qed.

Lemma bget_hit s n i : binv s → cached (bufs s) n = Some i →
  flag (b_flags (bufs s !!! i)) B_BUSY = false →
  bget ROOTDEV n s = Ok i (on_bufs (upd i (λ y, set_flags (setf (b_flags y) B_BUSY) y)) s).
Proof.
  intros Hinv Hc Hb. unfold bget, mbind, kM_bind, gets. rewrite scan_cached, Hc, Hb by done. done.
Qed.

Lemma bget_miss s n i : binv s → cached (bufs s) n = None →
  scan_prev (S head) (bufs s) (b_prev (bufs s !!! head)) is_free = Some i →
  bget ROOTDEV n s = Ok i (on_bufs (upd i (set_id ROOTDEV n B_BUSY)) s).
Proof.
  intros Hinv Hc Hs. unfold bget, mbind, kM_bind, gets. rewrite scan_cached, Hc, Hs by done. done.
Qed.

Lemma scan_prev_free s : binv s →
  Z.of_nat (size (dirty s ∪ held_sectors (held s))) < NBUF →
  ∃ i, scan_prev (S head) (bufs s) (b_prev (bufs s !!! head)) is_free = Some i ∧
       (i < head)%nat ∧ is_free (bufs s !!! i) = true.
Proof.
  intros [(l & Hr & Hperm) Hok] Hsz. rewrite (scan_lru _ l); [|done|rewrite Hperm, length_seq; lia].
  destruct (free_exists s Hok Hsz) as (j & Hj & Hfj).
  destruct (List.find _ _) as [i|] eqn:E.
  - exists i. apply List.find_some in E as [Hin Hf]. split_and!; [done| |done].
    apply list_elem_of_In in Hin. rewrite elem_of_reverse, Hperm in Hin.
    apply elem_of_seq in Hin. lia.
  - exfalso. eapply List.find_none in E; [|apply list_elem_of_In, elem_of_reverse].
    + rewrite Hfj in E. done.
    + rewrite Hperm. apply elem_of_seq. lia.
Qed.

Lemma not_held_not_busy s n i : binv s → n ∉ held_sectors (held s) →
  cached (bufs s) n = Some i → flag (b_flags (bufs s !!! i)) B_BUSY = false.
Proof.
  intros [_ Hok] Hh (Hi & Hd & Hs)%(cached_Some _ _ _ _ Hok).
  destruct (flag _ _) eqn:E; [|done]. destruct Hh. apply elem_of_held_sectors. eauto.
Qed.

(** A miss reads the block from the disk. *)
Lemma iderw_read s i n : (i < length (bufs s))%nat →
  b_flags (bufs s !!! i) = B_BUSY → b_dev (bufs s !!! i) = ROOTDEV →
  b_sector (bufs s !!! i) = n → 0 ≤ n < disksize (bdisk s) → disksize (bdisk s) < 2 ^ 31 →
  iderw i s = Ok tt (on_bufs (upd i (λ y, set_flags (setf (b_flags y) B_VALID) y))
                      (on_bufs (upd i (set_data (memdisk (bdisk s) !!! n))) s)).
Proof.
  intros Hi Hf Hd Hs Hn Hsz. unfold iderw, mbind, kM_bind, gets. rewrite Hf, Hd, Hs; simpl.
  rewrite u32_small by lia. destruct (Z.leb_spec (disksize (bdisk s)) n); [lia|]. done.
Qed.

(** A dirty buffer is written to the disk. *)
Lemma iderw_write s i n : (i < length (bufs s))%nat →
  flag (b_flags (bufs s !!! i)) B_BUSY = true → flag (b_flags (bufs s !!! i)) B_DIRTY = true →
  b_dev (bufs s !!! i) = ROOTDEV →
  b_sector (bufs s !!! i) = n → 0 ≤ n < disksize (bdisk s) → disksize (bdisk s) < 2 ^ 31 →
  iderw i s = Ok tt (mkBcache
    (upd i (λ y, set_flags (setf (b_flags y) B_VALID) y)
      (upd i (λ y, set_flags (clrf (b_flags y) B_DIRTY) y) (bufs s)))
    (disk_write n (b_data (bufs s !!! i)) (bdisk s)) (bwakes s)).
Proof.
  intros Hi Hb Hdi Hd Hs Hn Hsz. unfold iderw, mbind, kM_bind, gets.
  rewrite Hb, Hdi, Hd, Hs, u32_small by lia. simpl.
  destruct (Z.eqb_spec (Z.land (b_flags (bufs s !!! i)) (Z.lor B_VALID B_DIRTY)) B_VALID) as [E|_].
  { exfalso. unfold flag in Hdi. apply negb_true_iff, Z.eqb_neq in Hdi. apply Hdi.
    assert (Z.land (Z.land (b_flags (bufs s !!! i)) (Z.lor B_VALID B_DIRTY)) B_DIRTY = 0) as E'
      by (by rewrite E). by rewrite <-Z.land_assoc in E'. }
  destruct (Z.leb_spec (disksize (bdisk s)) n); [lia|]. done.
Qed.

(** What a successful [bread] of block [n] into buffer [b] guarantees. *)
Definition bread_post (s : bcache) (n : Z) (b : nat) (s' : bcache) : Prop :=
  binv s' ∧ disksize (bdisk s') = disksize (bdisk s) ∧
  held s !! b = None ∧ held s' = <[b := n]> (held s) ∧
  dirty s' = dirty s ∧ (∀ m, cur s' m = cur s m) ∧
  memdisk (bdisk s') = memdisk (bdisk s) ∧ dk_writes (bdisk s') = dk_writes (bdisk s).

Lemma not_busy_not_held s i : flag (b_flags (bufs s !!! i)) B_BUSY = false → held s !! i = None.
Proof.
  intros Hb. destruct (held s !! i) as [m|] eqn:E; [|done].
  apply lookup_held in E as (_ & ? & _). congruence.
Qed.

Lemma dirty_cached s n i : cache_ok (bufs s) (bdisk s) → (i < head)%nat →
  b_dev (bufs s !!! i) = ROOTDEV → b_sector (bufs s !!! i) = n →
  n ∈ dirty s ↔ flag (b_flags (bufs s !!! i)) B_DIRTY = true.
Proof.
  intros (Hbk & Hu & _) Hi Hd Hs. rewrite elem_of_dirty. split; [|eauto].
  intros (j & Hj & Hf & Hsj). enough (j = i) by congruence.
  apply Hu; try (done || congruence). eapply buf_ok_dev; [by apply Hbk|done].
Qed.

Lemma cur_cached s n i : cache_ok (bufs s) (bdisk s) → (i < head)%nat →
  b_dev (bufs s !!! i) = ROOTDEV → b_sector (bufs s !!! i) = n → cur s n = b_data (bufs s !!! i).
Proof. intros Hok ???. unfold cur. by rewrite (proj2 (cached_Some _ _ _ i Hok)). Qed.

Lemma buf_ok_root dk b : buf_ok dk b → b_dev b = ROOTDEV →
  0 ≤ b_sector b < disksize dk ∧ flag (b_flags b) B_VALID = true ∧
  length (b_data b) = Z.to_nat BSIZE ∧ (is_free b = true → b_data b = memdisk dk !!! b_sector b).
Proof. intros [[-> _]|(_ & ?)]; done. Qed.

Lemma bread_hit s n i : binv s → n ∉ held_sectors (held s) → cached (bufs s) n = Some i →
  wp (bread ROOTDEV n) s (bread_post s n).
Proof.
  intros Hinv Hh Hc. pose proof (binv_length _ Hinv) as Hlen.
  pose proof (not_held_not_busy _ _ _ Hinv Hh Hc) as Hb.
  pose proof Hinv as [(l & Hr & Hperm) Hok]. unfold bread. rewrite wp_bind.
  unfold wp at 1. rewrite (bget_hit _ _ i) by done. wps.
  apply (cached_Some _ _ _ _ Hok) in Hc as (Hi & Hd & Hs).
  pose proof Hok as (Hbok & _ & Hdk). destruct (buf_ok_root _ _ (Hbok i Hi) Hd) as (Hrng & Hv & Hl & Hcl).
  rewrite lookup_upd, decide_True by (done || lia). simpl. rewrite flag_setf_bit, Hv by done.
  set (b' := set_flags (setf (b_flags (bufs s !!! i)) B_BUSY) (bufs s !!! i)).
  assert (flag (b_flags b') B_BUSY = true) as Hbusy
    by (unfold b'; simpl; rewrite flag_setf_bit by done; by rewrite orb_true_r).
  assert (agree (bufs s) (upd i (λ y, set_flags (setf (b_flags y) B_BUSY) y) (bufs s)) i b') as Hag
    by (apply agree_upd; lia).
  assert (buf_ok (bdisk s) b') as Hb'.
  { right. unfold is_free. rewrite Hbusy. unfold b'; simpl. rewrite flag_setf_bit, Hv by done.
    split_and!; done || lia. }
  simpl. unfold wp; simpl. destruct s as [bs dk w]; unfold on_bufs; cbn [bufs bdisk bwakes] in *.
  pose proof (step_same_ok bs _ dk dk i b' n w w Hok Hi Hd Hs Hd Hs Hb' eq_refl Hdk (λ _ _, eq_refl) Hag) as Hok'.
  split_and!; [split; [|done]|done| | | | |done|done]; simpl.
  - exists l. split; [|done]. apply ring_upd; [done|lia|done].
  - by apply not_busy_not_held.
  - rewrite (step_same_held bs _ dk dk i b' n w w) by done. by rewrite Hbusy.
  - rewrite (step_same_dirty bs _ dk dk i b' n w w) by done.
    unfold b'; simpl. rewrite flag_setf_bit, orb_false_r by done.
    by apply if_member, (dirty_cached (mkBcache bs dk w) n i).
  - intros m. rewrite (step_same_cur bs _ dk dk i b' n w w) by done. case_decide; [|done]. subst m.
    by rewrite (cur_cached (mkBcache bs dk w) n i).
Qed.

Lemma bread_miss s n i : binv s → 0 ≤ n < disksize (bdisk s) → cached (bufs s) n = None →
  scan_prev (S head) (bufs s) (b_prev (bufs s !!! head)) is_free = Some i →
  (i < head)%nat → is_free (bufs s !!! i) = true →
  wp (bread ROOTDEV n) s (bread_post s n).
Proof.
  intros Hinv Hn Hc Hscan Hi Hfree. pose proof (binv_length _ Hinv) as Hlen.
  pose proof Hinv as [(l & Hr & Hperm) Hok]. pose proof Hok as (_ & _ & Hdk).
  destruct (is_free_flags _ Hfree) as [Hnb Hnd]. unfold bread. rewrite wp_bind.
  unfold wp at 1. rewrite (bget_miss _ _ i) by done. wps.
  rewrite lookup_upd, decide_True by (done || lia). simpl.
  set (s1 := on_bufs (upd i (set_id ROOTDEV n B_BUSY)) s).
  assert (bufs s1 !!! i = set_id ROOTDEV n B_BUSY (bufs s !!! i)) as Hs1
    by (unfold s1; simpl; rewrite lookup_upd, decide_True by (done || lia); done).
  assert (length (bufs s1) = S head) as Hlen1 by (unfold s1; simpl; by rewrite length_upd).
  unfold wp. rewrite (iderw_read _ _ n); [|lia|by rewrite Hs1..|done|apply Hdk]. simpl.
  set (b' := mkBuf (setf B_BUSY B_VALID) ROOTDEV n (b_prev (bufs s !!! i)) (b_next (bufs s !!! i))
               (memdisk (bdisk s) !!! n)).
  unfold s1, on_bufs; simpl. set (bs' := upd i _ _).
  assert (agree (bufs s) bs' i b') as Hag.
  { intros j. unfold bs'. rewrite !lookup_upd by (rewrite ?length_upd; lia).
    repeat case_decide; done. }
  pose proof (step_recycle_ok _ bs' _ i b' n [] [] Hok Hi Hfree Hc Hn eq_refl eq_refl eq_refl
    eq_refl eq_refl eq_refl Hag) as Hok'.
  destruct s as [bs dk w]; cbn [bufs bdisk bwakes] in *.
  split_and!; [split; [|done]|done| | | | |done|done]; simpl.
  - exists l. split; [|done]. unfold bs'.
    repeat (apply ring_upd; [|rewrite ?length_upd; lia|done]). done.
  - by apply not_busy_not_held.
  - by rewrite (step_recycle_held bs _ dk i b' n w w).
  - by rewrite (step_recycle_dirty bs _ dk i b' n w w).
  - intros m. by rewrite (step_recycle_cur bs _ dk i b' n w w).
Qed.

Lemma bread_wp s n : binv s → 0 ≤ n < disksize (bdisk s) → n ∉ held_sectors (held s) →
  n ∈ dirty s ∨ Z.of_nat (size (dirty s ∪ held_sectors (held s))) < NBUF →
  wp (bread ROOTDEV n) s (bread_post s n).
Proof.
  intros Hinv Hn Hh Hav. destruct (cached (bufs s) n) as [i|] eqn:Hc; [by eapply bread_hit|].
  pose proof Hinv as [_ Hok]. destruct (scan_prev_free s Hinv) as (i & Hscan & Hi & Hfree).
  { destruct Hav as [(j & Hj & Hf & Hsj)%elem_of_dirty|]; [|done]. exfalso.
    apply (proj1 (cached_None _ _ _ Hok) Hc j); [done| |done].
    destruct Hok as (Hbk & _). eapply buf_ok_dev; [by apply Hbk|done]. }
  by eapply bread_miss.
Qed.

(** A held buffer caches its block. *)
Lemma held_buf s b n : binv s → held s !! b = Some n →
  (b < head)%nat ∧ flag (b_flags (bufs s !!! b)) B_BUSY = true ∧
  b_dev (bufs s !!! b) = ROOTDEV ∧ b_sector (bufs s !!! b) = n ∧
  cur s n = b_data (bufs s !!! b) ∧ 0 ≤ n < disksize (bdisk s) ∧
  flag (b_flags (bufs s !!! b)) B_VALID = true ∧ length (cur s n) = Z.to_nat BSIZE.
Proof.
  intros [_ Hok] (Hb & Hbusy & Hs)%lookup_held.
  pose proof Hok as (Hbk & _). pose proof (Hbk b Hb) as Hbo.
  pose proof (buf_ok_dev _ _ _ Hbo Hbusy) as Hd.
  destruct (buf_ok_root _ _ Hbo Hd) as (Hr & Hv & Hl & _).
  rewrite (cur_cached s n b) by done. split_and!; try (done || lia).
Qed.

Lemma unlink_link_ring bs l b : ring bs l → l ≡ₚ seq 0 head → (b < head)%nat →
  ∃ l', ring (link_front b (unlink b bs)) (b :: l') ∧ b :: l' ≡ₚ seq 0 head ∧
    (∀ l1 l2, l = l1 ++ b :: l2 → l' = l1 ++ l2) ∧
    ∀ i, pay (link_front b (unlink b bs) !!! i) = pay (bs !!! i).
Proof.
  intros Hr Hperm Hb.
  assert (b ∈ l) as Hin by (rewrite Hperm; apply elem_of_seq; lia).
  apply list_elem_of_split in Hin as (l1 & l2 & ->).
  destruct (unlink_ring _ _ _ _ Hr) as [Hr1 Hp1].
  destruct Hr as (_ & Hnd & _). apply NoDup_cons in Hnd as [_ Hnd].
  pose proof Hnd as Hnd'. apply NoDup_app in Hnd' as (Hn1 & Hd & [Hb2 Hn2]%NoDup_cons).
  assert (b ∉ l1 ++ l2) as Hbn.
  { rewrite elem_of_app. intros [H1|]; [|done]. apply (Hd b H1). left. }
  destruct (link_front_ring _ b _ Hr1 Hb Hbn) as [Hr2 Hp2].
  exists (l1 ++ l2). split_and!; [done| | |].
  - rewrite <-Hperm. apply Permutation_middle.
  - intros k1 k2 Heq. by destruct (NoDup_split_unique b l1 l2 k1 k2) as [-> ->].
  - intros i. by rewrite Hp2, Hp1.
Qed.

(** What an operation on a held buffer leaves alone. *)
Definition keep (s s' : bcache) : Prop :=
  binv s' ∧ disksize (bdisk s') = disksize (bdisk s).

Lemma brelse_wp s b n : binv s → held s !! b = Some n →
  n ∈ dirty s ∨ cur s n = memdisk (bdisk s) !!! n →
  wp (brelse b) s (λ _ s', keep s s' ∧ held s' = delete b (held s) ∧
    dirty s' = dirty s ∧ (∀ m, cur s' m = cur s m) ∧ bdisk s' = bdisk s ∧
    bwakes s' = bwakes s ++ [ChBuf b]).
Proof.
  intros Hinv Hh Hcl. pose proof (binv_length _ Hinv) as Hlen.
  destruct (held_buf _ _ _ Hinv Hh) as (Hb & Hbusy & Hd & Hs & Hcur & Hr & Hv & Hl).
  pose proof Hinv as [(l & Hring & Hperm) Hok]. pose proof Hok as (Hbk & _ & Hdk).
  destruct (unlink_link_ring _ _ b Hring Hperm Hb) as (l' & Hring' & Hperm' & _ & Hpay).
  unfold brelse. wps. rewrite Hbusy. wps.
  unfold on_bufs, wakeup; cbn [bufs bdisk bwakes].
  set (b' := set_flags (clrf (b_flags (bufs s !!! b)) B_BUSY) (bufs s !!! b)).
  set (bs' := upd b _ _).
  assert (length (link_front b (unlink b (bufs s))) = S head) as Hlen' by apply Hring'.
  assert (agree (bufs s) bs' b b') as Hag.
  { intros j. unfold bs'. rewrite lookup_upd by lia. case_decide; [subst j|apply Hpay].
    specialize (Hpay b). apply pay_eq in Hpay as (E1 & E2 & E3 & E4).
    unfold pay, b'; simpl. by rewrite E1, E2, E3, E4. }
  pose proof (dirty_cached s n b Hok Hb Hd Hs) as Hdc.
  assert (flag (b_flags b') B_DIRTY = flag (b_flags (bufs s !!! b)) B_DIRTY) as Hdi
    by (unfold b'; simpl; rewrite flag_clrf_bit by done; apply andb_true_r).
  assert (flag (b_flags b') B_BUSY = false) as Hnb
    by (unfold b'; simpl; rewrite flag_clrf_bit by done; apply andb_false_r).
  assert (buf_ok (bdisk s) b') as Hb'.
  { right. unfold is_free. rewrite Hnb, Hdi. unfold b'; simpl. rewrite flag_clrf_bit, Hv by done.
    rewrite <-Hcur, Hs. split_and!; try (done || lia). intros Hnd.
    destruct Hcl as [Hin|]; [|done]. apply Hdc in Hin. by rewrite Hin in Hnd. }
  destruct s as [bs dk w]; cbn [bufs bdisk bwakes] in *.
  unfold keep, binv; cbn [bufs bdisk bwakes].
  pose proof (step_same_ok bs bs' dk dk b b' n w w Hok Hb Hd Hs Hd Hs Hb' eq_refl Hdk (λ _ _, eq_refl) Hag) as Hok'.
  split_and!; [eexists; split; [|exact Hperm']; apply ring_upd; [done|lia|done]|apply Hok'..|done| | | |done|done].
  - rewrite (step_same_held bs _ dk dk b b' n w) by done. by rewrite Hnb.
  - rewrite (step_same_dirty bs _ dk dk b b' n w), Hdi by done. by apply if_member.
  - intros m. rewrite (step_same_cur bs _ dk dk b b' n w) by done. case_decide; [by subst m|done].
Qed.

Lemma bwrite_wp s b n : binv s → held s !! b = Some n →
  wp (bwrite b) s (λ _ s', keep s s' ∧ held s' = held s ∧
    dirty s' = dirty s ∖ {[n]} ∧ (∀ m, cur s' m = cur s m) ∧
    bdisk s' = disk_write n (cur s n) (bdisk s)).
Proof.
  intros Hinv Hh. pose proof (binv_length _ Hinv) as Hlen.
  destruct (held_buf _ _ _ Hinv Hh) as (Hb & Hbusy & Hd & Hs & Hcur & Hr & Hv & Hl).
  pose proof Hinv as [(l & Hring & Hperm) Hok]. pose proof Hok as (Hbk & _ & Hdk).
  unfold bwrite. wps. rewrite Hbusy. wps. set (s1 := on_bufs _ s).
  assert (bufs s1 !!! b = set_flags (setf (b_flags (bufs s !!! b)) B_DIRTY) (bufs s !!! b)) as Hs1
    by (unfold s1; simpl; rewrite lookup_upd, decide_True by (done || lia); done).
  assert (length (bufs s1) = S head) as Hlen1 by (unfold s1; simpl; by rewrite length_upd).
  unfold wp. rewrite (iderw_write s1 b n); [|lia|rewrite Hs1; simpl..|done|apply Hdk].
  2: by rewrite flag_setf_bit, Hbusy by done.
  2: rewrite flag_setf_bit by done; by rewrite orb_true_r.
  2: done. 2: done.
  unfold s1; simpl. rewrite lookup_upd, decide_True by (done || lia). simpl. rewrite <-Hcur.
  set (b' := set_flags (setf (clrf (setf (b_flags (bufs s !!! b)) B_DIRTY) B_DIRTY) B_VALID) (bufs s !!! b)).
  set (bs' := upd b _ _).
  assert (agree (bufs s) bs' b b') as Hag.
  { intros j. unfold bs'. rewrite !lookup_upd by (rewrite ?length_upd; lia). repeat case_decide; done. }
  assert (flag (b_flags b') B_DIRTY = false) as Hnd.
  { unfold b'; simpl. rewrite flag_setf_bit, flag_clrf_bit by done. by rewrite andb_false_r. }
  assert (flag (b_flags b') B_BUSY = true) as Hbb.
  { unfold b'; simpl. by rewrite flag_setf_bit, flag_clrf_bit, flag_setf_bit, Hbusy by done. }
  set (dk' := disk_write n (cur s n) (bdisk s)).
  assert (disk_ok dk') as Hdk'.
  { split; [apply Hdk|]. intros m Hm. unfold dk'; simpl. destruct (decide (m = n)) as [->|].
    - by rewrite lookup_total_insert_eq.
    - rewrite lookup_total_insert_ne by done. by apply Hdk. }
  assert (buf_ok dk' b') as Hb'.
  { right. unfold is_free. rewrite Hbb. unfold b'; simpl.
    rewrite Hs, flag_setf_bit, orb_true_r, <-Hcur by done. split_and!; done || lia. }
  assert (∀ m, m ≠ n → memdisk dk' !!! m = memdisk (bdisk s) !!! m) as Hmem
    by (intros m Hm; unfold dk'; simpl; by rewrite lookup_total_insert_ne).
  destruct s as [bs dk w]; cbn [bufs bdisk bwakes] in *.
  unfold keep, binv; cbn [bufs bdisk bwakes].
  pose proof (step_same_ok bs bs' dk dk' b b' n w w Hok Hb Hd Hs Hd Hs Hb' eq_refl Hdk' Hmem Hag) as Hok'.
  split_and!; [exists l; split; [|done]|apply Hok'..|done| | | |done].
  - unfold bs'. repeat (apply ring_upd; [|rewrite ?length_upd; lia|done]). done.
  - rewrite (step_same_held bs _ dk dk' b b' n w), Hbb by done. by apply insert_id.
  - rewrite (step_same_dirty bs _ dk dk' b b' n w) by done. by rewrite Hnd.
  - intros m. rewrite (step_same_cur bs _ dk dk' b b' n w) by done. case_decide; [by subst m|done].
Qed.

(** An assignment to a field of a held buffer that keeps its block and leaves
    it busy and valid. *)
Lemma held_upd s b n f : binv s → held s !! b = Some n →
  let x := bufs s !!! b in
  (∀ y, b_next (f y) = b_next y ∧ b_prev (f y) = b_prev y) →
  b_dev (f x) = b_dev x → b_sector (f x) = b_sector x →
  flag (b_flags (f x)) B_BUSY = true → flag (b_flags (f x)) B_VALID = true →
  length (b_data (f x)) = Z.to_nat BSIZE →
  let s' := on_bufs (upd b f) s in
  binv s' ∧ held s' = held s ∧ bdisk s' = bdisk s ∧
  dirty s' = (if flag (b_flags (f x)) B_DIRTY then {[n]} ∪ dirty s else dirty s ∖ {[n]}) ∧
  ∀ m, cur s' m = if decide (m = n) then b_data (f x) else cur s m.
Proof.
  intros Hinv Hh x Hlk Hfd Hfs Hfb Hfv Hfl s'. pose proof (binv_length _ Hinv) as Hlen.
  destruct (held_buf _ _ _ Hinv Hh) as (Hb & Hbusy & Hd & Hs & Hcur & Hr & Hv & Hl).
  pose proof Hinv as [(l & Hring & Hperm) Hok]. pose proof Hok as (_ & _ & Hdk).
  assert (agree (bufs s) (upd b f (bufs s)) b (f x)) as Hag by (apply agree_upd; lia).
  assert (b_dev (f x) = ROOTDEV) as Hd' by (by rewrite Hfd).
  assert (b_sector (f x) = n) as Hs' by (by rewrite Hfs).
  assert (buf_ok (bdisk s) (f x)) as Hb'.
  { right. unfold is_free. rewrite Hfb, Hfv, Hfl, Hs', Hd'. split_and!; done || lia. }
  destruct s as [bs dk w]; unfold s', binv, on_bufs; cbn [bufs bdisk bwakes] in *.
  pose proof (step_same_ok bs _ dk dk b _ n w w Hok Hb Hd Hs Hd' Hs' Hb' eq_refl Hdk (λ _ _, eq_refl) Hag) as Hok'.
  split_and!; [exists l; split; [apply ring_upd; [done|lia|done]|done]|apply Hok'..| |done| |].
  - rewrite (step_same_held bs _ dk dk b (f x) n w), Hfb by done. by apply insert_id.
  - by rewrite (step_same_dirty bs _ dk dk b (f x) n w).
  - intros m. by rewrite (step_same_cur bs _ dk dk b (f x) n w).
Qed.

(** The buffer cache implements the block interface. *)
#[export] Program Instance bio_spec : BlockIOSpec bcache := {|
  bio_inv := binv;
  bio_size s := disksize (bdisk s);
  bio_disk s := memdisk (bdisk s);
  bio_writes s := dk_writes (bdisk s);
  bio_cur := cur;
  bio_dirty := dirty;
  bio_held := held
|}.
Next Obligation.
  intros s b n Hinv Hh. destruct (held_buf _ _ _ Hinv Hh) as (?&?&?&?&?&?&?&?). done.
Qed.
Next Obligation.
  intros s b b' n Hinv Hh Hh'. destruct (held_buf _ _ _ Hinv Hh) as (?&?&?&?&?&?&?&?).
  destruct (held_buf _ _ _ Hinv Hh') as (?&?&?&?&?&?&?&?). destruct Hinv as [_ (_ & Hu & _)].
  apply Hu; congruence || done.
Qed.
Next Obligation.
  intros s n [_ Hok] Hd Hh Hn. cbn. unfold cur. destruct (cached _ _) as [i|] eqn:E; [|done].
  apply (cached_Some _ _ _ _ Hok) in E as (Hi & Hdi & Hs). pose proof Hok as (Hbk & _).
  destruct (buf_ok_root _ _ (Hbk i Hi) Hdi) as (_ & _ & _ & Hcl). rewrite Hcl, Hs; [done|].
  apply andb_true_iff. split; apply negb_true_iff.
  - destruct (flag _ B_BUSY) eqn:E; [|done]. destruct Hh. apply elem_of_held_sectors. eauto.
  - destruct (flag _ B_DIRTY) eqn:E; [|done]. destruct Hd. apply elem_of_dirty. eauto.
Qed.
Next Obligation.
  intros s n [_ Hok] Hn. cbn in *. unfold cur. destruct (cached _ _) as [i|] eqn:E; [|by apply Hok].
  apply (cached_Some _ _ _ _ Hok) in E as (Hi & Hdi & Hs). pose proof Hok as (Hbk & _).
  by destruct (buf_ok_root _ _ (Hbk i Hi) Hdi) as (_ & _ & ? & _).
Qed.
Next Obligation. intros s n. apply bread_wp. Qed.
Next Obligation.
  intros s b n Hinv Hh Hcl. eapply wp_mono; [by eapply brelse_wp|].
  intros [] s' ([] & ? & ? & ? & Hdk & _). cbn. by rewrite ?Hdk.
Qed.
Next Obligation.
  intros s b n Hinv Hh. eapply wp_mono; [by eapply bwrite_wp|].
  intros [] s' ([] & ? & ? & ? & Hdk). cbn. by rewrite ?Hdk.
Qed.
Next Obligation.
  intros s b n d Hinv Hh Hd s'. destruct (held_buf _ _ _ Hinv Hh) as (?&?&?&?&?&?&?&?).
  destruct (held_upd s b n (set_data d) Hinv Hh) as (? & ? & Hdk & Hdi & ?); try done.
  split_and!; try done. cbn -[dirty]. rewrite Hdi. apply if_member, (dirty_cached s n b); try done. apply Hinv.
Qed.
Next Obligation.
  intros s b n Hinv Hh s'. destruct (held_buf _ _ _ Hinv Hh) as (?&?&?&?&?&?&?&?).
  destruct (held_upd s b n (λ y, set_flags (setf (b_flags y) B_DIRTY) y) Hinv Hh)
    as (? & ? & Hdk & Hdi & Hc); cbn -[flag setf]; try done.
  1,2: rewrite flag_setf_bit by done; by apply orb_true_iff; left.
  1: congruence.
  split_and!; try done.
  - unfold s'. cbn -[dirty] in *. rewrite Hdi, flag_setf_bit, orb_true_r by done. done.
  - intros m. unfold s'. cbn -[cur] in *. rewrite Hc. case_decide; congruence.
Qed.

End Bio.
