(* ===== verification/BioProps.v ===== *)
(** * Properties of the buffer cache

    The state [binit] sets up, the least-recently-used discipline of the
    buffer list, and what [bread], [bget] and [brelse] guarantee. *)

From stdpp Require Import base numbers option list gmap strings sorting.
From S2P Require Import Prelude Block Bio.
Import Bio.
Local Open Scope Z_scope.


(** A disk of [n] sectors of zeroes. *)
Definition blank (n : nat) : disk :=
  mkDisk (Z.of_nat n) (list_to_map ((λ i, (Z.of_nat i, zero_block)) <$> seq 0 n)) [].

Lemma blank_lookup n m : 0 ≤ m < Z.of_nat n → memdisk (blank n) !! m = Some zero_block.
Proof.
  intros Hm. unfold blank; cbn [memdisk]. apply elem_of_list_to_map.
  - rewrite <-list_fmap_compose. apply NoDup_fmap_2; [|apply NoDup_seq].
    intros i j; simpl. lia.
  - apply list_elem_of_fmap. exists (Z.to_nat m). split; [f_equal; lia|].
    apply elem_of_seq. lia.
Qed.

Lemma blank_ok n : Z.of_nat n < 2 ^ 31 → disk_ok (blank n).
Proof.
  intros Hn. split; [simpl; lia|]. intros m Hm. simpl in Hm.
  by rewrite (lookup_total_correct _ _ _ (blank_lookup n m Hm)).
Qed.

(** The buffers after [binit]: chained most recently linked first, none in use. *)
Definition fresh_bufs : list buf :=
  foldl binit_one (upd head (set_next head) (upd head (set_prev head)
    (replicate (S head) (mkBuf 0 0 0 0 0 zero_block)))) (seq 0 head).

Lemma fresh_ring : ring fresh_bufs (reverse (seq 0 head)).
Proof.
  split; [vm_compute; reflexivity|].
  split; [apply (bool_decide_eq_true_1 _); vm_compute; reflexivity|].
  split; [apply (bool_decide_eq_true_1 _); vm_compute; reflexivity|].
  split; vm_compute; repeat split.
Qed.

Lemma fresh_unused_all : Forall (λ b, b_dev b = u32 (-1) ∧ b_flags b = 0) (take head fresh_bufs).
Proof. apply (bool_decide_eq_true_1 _). vm_compute. reflexivity. Qed.

Lemma fresh_head_idle : flag (b_flags (fresh_bufs !!! head)) B_BUSY = false.
Proof. vm_compute. reflexivity. Qed.

Lemma binit_run dk : binit (bss dk) = Ok tt (mkBcache fresh_bufs dk []).
Proof. unfold binit, bss, modify, on_bufs, fresh_bufs. cbn [bufs bdisk bwakes]. done. Qed.

#[local] Opaque fresh_bufs.

Lemma fresh_unused i : (i < head)%nat →
  b_dev (fresh_bufs !!! i) = u32 (-1) ∧ b_flags (fresh_bufs !!! i) = 0.
Proof.
  intros Hi. pose proof fresh_unused_all as Hall. rewrite Forall_forall in Hall. apply Hall.
  apply list_elem_of_lookup. exists i. rewrite lookup_take, decide_True by done.
  apply arr_lookup. destruct fresh_ring as (-> & _). lia.
Qed.

Lemma fresh_binv dk w : disk_ok dk → binv (mkBcache fresh_bufs dk w).
Proof.
  intros Hdk. split.
  - eexists. split; [apply fresh_ring|]. apply reverse_Permutation.
  - split_and!; [| |apply Hdk..]; cbn [bufs bdisk].
    + intros i Hi. left. by apply fresh_unused.
    + intros i j Hi Hj Hd. rewrite (proj1 (fresh_unused i Hi)) in Hd. discriminate Hd.
Qed.

Lemma fresh_view dk w : disk_ok dk → let s := mkBcache fresh_bufs dk w in
  held s = ∅ ∧ dirty s = ∅ ∧ ∀ n, cur s n = memdisk dk !!! n.
Proof.
  intros Hdk s. split_and!.
  - apply map_eq. intros i. rewrite lookup_empty. apply not_busy_not_held.
    destruct (decide (i < head)%nat) as [Hi|Hi].
    + unfold s; cbn [bufs]. rewrite (proj2 (fresh_unused i Hi)). reflexivity.
    + unfold s; cbn [bufs]. destruct (decide (i = head)) as [->|]; [apply fresh_head_idle|].
      rewrite list_lookup_total_alt, lookup_ge_None_2; [done|]. destruct fresh_ring as (-> & _). lia.
  - apply set_eq. intros n. rewrite elem_of_dirty, elem_of_empty. split; [|intros []].
    intros (i & Hi & Hf & _). unfold s in Hf; cbn [bufs] in Hf.
    rewrite (proj2 (fresh_unused i Hi)) in Hf. discriminate Hf.
  - intros n. unfold cur. assert (cached fresh_bufs n = None) as Hc.
    { apply (cached_None _ dk); [apply (fresh_binv dk w Hdk)|]. intros i Hi Hd.
      rewrite (proj1 (fresh_unused i Hi)) in Hd. discriminate Hd. }
    unfold s; cbn [bufs bdisk]. by rewrite Hc.
Qed.

(** C5. [bread] of a block that nobody holds, when the block is pinned or a
    buffer can be recycled, returns a buffer that is busy, valid, caches that
    block and holds its current content; no block's content and no sector of
    the disk changes, and the cache invariant is kept. *)
Theorem bread_correct s n : binv s → 0 ≤ n < disksize (bdisk s) →
  n ∉ held_sectors (held s) →
  n ∈ dirty s ∨ Z.of_nat (size (dirty s ∪ held_sectors (held s))) < NBUF →
  ∃ b s', Bio.bread ROOTDEV n s = Ok b s' ∧ binv s' ∧
    let x := bufs s' !!! b in
    b_dev x = ROOTDEV ∧ b_sector x = n ∧ flag (b_flags x) B_BUSY = true ∧
    flag (b_flags x) B_VALID = true ∧ b_data x = cur s n ∧
    (∀ m, cur s' m = cur s m) ∧ memdisk (bdisk s') = memdisk (bdisk s).
Proof.
  intros Hinv Hn Hh Hav. pose proof (bread_wp s n Hinv Hn Hh Hav) as Hwp.
  apply wp_Ok in Hwp as (b & s' & Hr & Hinv' & _ & _ & Hheld & _ & Hcur & Hmem & _).
  exists b, s'. split; [done|]. split; [done|].
  destruct (held_buf s' b n Hinv') as (? & ? & ? & ? & Hc & ? & ? & _); [by rewrite Hheld, lookup_insert_eq|].
  rewrite Hcur in Hc. cbv zeta. split_and!; congruence || done.
Qed.

Definition cache40 : bcache := mkBcache fresh_bufs (blank 40) [].

Lemma cache40_inv : binv cache40.
Proof. apply fresh_binv, blank_ok. lia. Qed.

Lemma cache40_avail :
  (3 ∉ held_sectors (held cache40)) ∧
  Z.of_nat (size (dirty cache40 ∪ held_sectors (held cache40))) < NBUF.
Proof.
  destruct (fresh_view (blank 40) []) as (Hh & Hd & _); [apply blank_ok; lia|].
  unfold cache40. rewrite Hh, Hd. unfold held_sectors.
  rewrite map_img_empty_L, union_empty_l_L, size_empty. clear.
  split; [apply not_elem_of_empty|reflexivity].
Qed.

Lemma bread_correct_witness : binv cache40 ∧ ∃ b s',
  Bio.bread ROOTDEV 3 cache40 = Ok b s' ∧ binv s' ∧
    let x := bufs s' !!! b in
    b_dev x = ROOTDEV ∧ b_sector x = 3 ∧ flag (b_flags x) B_BUSY = true ∧
    flag (b_flags x) B_VALID = true ∧ b_data x = cur cache40 3 ∧
    (∀ m, cur s' m = cur cache40 m) ∧ memdisk (bdisk s') = memdisk (bdisk cache40).
Proof.
  split; [apply cache40_inv|].
  apply (bread_correct cache40 3); [apply cache40_inv|cbn; lia|apply cache40_avail|].
  right. apply cache40_avail.
Defined.

(** The buffer list is a least-recently-used list: a miss of [bget]
    recycles the clean idle buffer furthest from the front of the list and
    panics exactly when there is none, and [brelse] moves the released buffer
    to the front, keeping the order of the others. *)
Theorem cache_lru s l : binv s → ring (bufs s) l →
  (∀ n, cached (bufs s) n = None →
     bget ROOTDEV n s =
       match List.find (λ i, is_free (bufs s !!! i)) (reverse l) with
       | Some b => Ok b (on_bufs (upd b (set_id ROOTDEV n B_BUSY)) s)
       | None => Panic "bget: no buffers"
       end) ∧
  (∀ b n l1 l2, held s !! b = Some n → l = l1 ++ b :: l2 →
     wp (Bio.brelse b) s (λ _ s', ring (bufs s') (b :: l1 ++ l2))).
Proof.
  intros Hinv Hr. pose proof (binv_length _ Hinv) as Hlen.
  assert (length l ≤ head)%nat as Hl.
  { destruct Hr as (_ & Hnd & Hlt & _). apply NoDup_cons in Hnd as [_ Hnd].
    rewrite <-(length_seq head 0). apply submseteq_length, NoDup_submseteq; [done|].
    intros i Hi. rewrite Forall_forall in Hlt. apply elem_of_seq. specialize (Hlt i Hi). lia. }
  split.
  - intros n Hc. unfold bget, mbind, kM_bind, gets. rewrite scan_cached, Hc, (scan_lru _ l) by done.
    by destruct (List.find _ _).
  - intros b n l1 l2 Hh ->. destruct (held_buf _ _ _ Hinv Hh) as (Hb & Hbusy & _).
    unfold Bio.brelse. wps. rewrite Hbusy. wps. unfold on_bufs; cbn [bufs].
    destruct (unlink_ring _ _ _ _ Hr) as [Hr1 _].
    destruct Hr as (_ & Hnd & _). apply NoDup_cons in Hnd as [_ Hnd].
    destruct (link_front_ring _ b _ Hr1 Hb) as [Hr2 _].
    { apply NoDup_app in Hnd as (_ & Hd & [Hb2 _]%NoDup_cons).
      rewrite elem_of_app. intros [H1|]; [|done]. apply (Hd b H1). left. }
    apply ring_upd; [done| |done]. destruct Hr2 as (-> & _). lia.
Qed.

Lemma cache_lru_witness : ring (bufs cache40) (reverse (seq 0 head)) ∧
  bget ROOTDEV 7 cache40 = Ok 0%nat (on_bufs (upd 0 (set_id ROOTDEV 7 B_BUSY)) cache40).
Proof.
  split; [apply fresh_ring|].
  destruct (cache_lru cache40 (reverse (seq 0 head)) cache40_inv fresh_ring) as [H _].
  rewrite H; [vm_compute; reflexivity|]. vm_compute. reflexivity.
Defined.

(** No lost wakeup on a buffer: while a process holds the buffer of block
    [n], [bget] of that block sleeps on the buffer's channel without changing
    the cache, and the holder's [brelse] wakes exactly that channel, after
    which the same [bget] succeeds and returns the released buffer. *)
Theorem bget_waits_for_holder s b n : binv s → held s !! b = Some n →
  n ∈ dirty s ∨ cur s n = memdisk (bdisk s) !!! n →
  bget ROOTDEV n s = Sleep (ChBuf b) s ∧
  wp (Bio.brelse b) s (λ _ s', bwakes s' = bwakes s ++ [ChBuf b] ∧
    wp (bget ROOTDEV n) s' (λ b' _, b' = b)).
Proof.
  intros Hinv Hh Hcl. destruct (held_buf _ _ _ Hinv Hh) as (Hb & Hbusy & Hd & Hs & Hcur & _).
  split.
  - unfold bget, mbind, kM_bind, gets. rewrite scan_cached by done.
    rewrite (proj2 (cached_Some _ _ n b (proj2 Hinv))) by done. by rewrite Hbusy.
  - unfold wp at 1. pose proof (brelse_wp s b n Hinv Hh Hcl) as Hwp. revert Hwp. unfold wp.
    assert (∀ s', Bio.brelse b s = Ok tt s' →
      b_dev (bufs s' !!! b) = ROOTDEV ∧ b_sector (bufs s' !!! b) = n) as Hid.
    { intros s'. unfold Bio.brelse, mbind, kM_bind, gets, modify. rewrite Hbusy. simpl.
      intros [= <-]. simpl. destruct Hinv as [(l & Hr & Hp) _].
      destruct (unlink_link_ring _ _ b Hr Hp Hb) as (l' & Hr' & _ & _ & Hpay).
      destruct Hr' as (Hlen' & _). specialize (Hpay b). apply pay_eq in Hpay as (_ & Hd' & Hs' & _).
      rewrite lookup_upd, decide_True by (done || lia). simpl. by rewrite Hd', Hs'. }
    destruct (Bio.brelse b s) as [[] s'| |]; [|done..].
    intros ([Hinv' _] & Hheld & _ & _ & _ & Hw). split; [done|].
    destruct (Hid s' eq_refl) as [Hd' Hs']. rewrite (bget_hit s' n b); [done|done| |].
    + by apply (cached_Some _ _ _ _ (proj2 Hinv')).
    + destruct (flag (b_flags (bufs s' !!! b)) B_BUSY) eqn:E; [|done].
      assert (held s' !! b = Some n) as Hx by (apply lookup_held; eauto).
      rewrite Hheld, lookup_delete_eq in Hx. done.
Qed.

Definition cache40_held : bcache :=
  match Bio.bread ROOTDEV 3 cache40 with Ok _ s => s | _ => cache40 end.

Lemma bget_waits_for_holder_witness : held cache40_held !! 0%nat = Some 3 ∧
  bget ROOTDEV 3 cache40_held = Sleep (ChBuf 0) cache40_held.
Proof.
  assert (binv cache40_held ∧ held cache40_held !! 0%nat = Some 3 ∧
    cur cache40_held 3 = memdisk (bdisk cache40_held) !!! 3) as (Hi & Hh & Hc).
  { split_and!; [|vm_compute; reflexivity..].
    destruct cache40_avail as [H1 H2].
    pose proof (bread_wp cache40 3 cache40_inv ltac:(cbn; lia) H1 (or_intror H2)) as H.
    unfold cache40_held. revert H. unfold wp.
    destruct (Bio.bread ROOTDEV 3 cache40); [intros [H _]; exact H|intros []..]. }
  split; [done|]. exact (proj1 (bget_waits_for_holder cache40_held 0 3 Hi Hh (or_intror Hc))).
Defined.
