(* ===== verification/Log.v ===== *)
(** * The write-ahead log (log.c)

    [lstate C] is [struct log] over a block cache [C]; the functions are those
    of log.c in the same order.  A lock-protected section runs atomically; the
    [wakeup] calls made are recorded in [lg_wakes]. *)

From stdpp Require Import base numbers option list gmap strings.
From S2P Require Import Prelude Bytes Block.
Local Open Scope Z_scope.

(** ** The super block (fs.h, readsb of fs.c) *)

Record superblock := mkSb {
  sb_size : Z;
  sb_nblocks : Z;
  sb_ninodes : Z;
  sb_nlog : Z
}.

Definition sb_decode (d : bytes) : superblock :=
  mkSb (get32 d 0) (get32 d 4) (get32 d 8) (get32 d 12).

Definition readsb {S} `{!BlockIO S} (dev : Z) : kM S superblock :=
  bp ← bread dev 1;
  sb ← gets (λ s, sb_decode (buf_data s bp));
  _ ← brelse bp;
  mret sb.

Module Log.

(** ** Data *)

Record lstate (C : Type) := mkLog {
  lg_start : Z;
  lg_size : Z;
  lg_outstanding : Z;
  lg_committing : bool;
  lg_dev : Z;
  lh_n : Z;
  lh_sector : list Z;
  lg_wakes : list chan;
  lg_cache : C
}.
Arguments mkLog {C} _ _ _ _ _ _ _ _ _.
Arguments lg_start {C} _. Arguments lg_size {C} _. Arguments lg_outstanding {C} _.
Arguments lg_committing {C} _. Arguments lg_dev {C} _. Arguments lh_n {C} _.
Arguments lh_sector {C} _. Arguments lg_wakes {C} _. Arguments lg_cache {C} _.

(** [sizeof(struct logheader)]: [n] and [LOGSIZE] sector numbers. *)
Definition sizeof_logheader : Z := 4 + 4 * LOGSIZE.

Section log.
Context {C : Type} `{!BlockIO C}.
Implicit Types s : lstate C.

Definition set_cache (c : C) (s : lstate C) : lstate C :=
  mkLog (lg_start s) (lg_size s) (lg_outstanding s) (lg_committing s) (lg_dev s)
    (lh_n s) (lh_sector s) (lg_wakes s) c.
Definition set_lh (n : Z) (sec : list Z) (s : lstate C) : lstate C :=
  mkLog (lg_start s) (lg_size s) (lg_outstanding s) (lg_committing s) (lg_dev s)
    n sec (lg_wakes s) (lg_cache s).
Definition set_outstanding (o : Z) (s : lstate C) : lstate C :=
  mkLog (lg_start s) (lg_size s) o (lg_committing s) (lg_dev s)
    (lh_n s) (lh_sector s) (lg_wakes s) (lg_cache s).
Definition set_committing (b : bool) (s : lstate C) : lstate C :=
  mkLog (lg_start s) (lg_size s) (lg_outstanding s) b (lg_dev s)
    (lh_n s) (lh_sector s) (lg_wakes s) (lg_cache s).
Definition set_geometry (start size dev : Z) (s : lstate C) : lstate C :=
  mkLog start size (lg_outstanding s) (lg_committing s) dev
    (lh_n s) (lh_sector s) (lg_wakes s) (lg_cache s).
Definition log_wakeup (s : lstate C) : lstate C :=
  mkLog (lg_start s) (lg_size s) (lg_outstanding s) (lg_committing s) (lg_dev s)
    (lh_n s) (lh_sector s) (lg_wakes s ++ [ChLog]) (lg_cache s).

(** Operations of the cache, on the log's state. *)
Definition lift {A} (m : kM C A) : kM (lstate C) A := zoom lg_cache set_cache m.

#[export] Instance log_block_ops : BlockIO (lstate C) := {|
  bread dev n := lift (bread dev n);
  bwrite b := lift (bwrite b);
  brelse b := lift (brelse b);
  buf_data s b := buf_data (lg_cache s) b;
  buf_sector s b := buf_sector (lg_cache s) b;
  set_buf_data b d s := set_cache (set_buf_data b d (lg_cache s)) s;
  set_buf_dirty b s := set_cache (set_buf_dirty b (lg_cache s)) s
|}.

(** ** The on-disk header: [n] at offset 0, [sector[i]] at [4 + 4 * i] *)

Definition hdr_n (d : bytes) : Z := i32 (get32 d 0).
Definition hdr_sector (d : bytes) (i : nat) : Z := i32 (get32 d (4 + 4 * i)).

(** [for (i = 0; i < n; i++) hb->sector[i] = sec[i]] into the header block. *)
Fixpoint hdr_fill (n i : nat) (sec : list Z) (d : bytes) : bytes :=
  match n with
  | O => d
  | S n' => hdr_fill n' (S i) sec (put32 d (4 + 4 * i) (sec !!! i))
  end.

(** ** log.c *)

Definition install_trans : kM (lstate C) unit :=
  n ← gets lh_n;
  kfor (Z.to_nat n) 0 (λ tail,
    s ← kget;
    lbuf ← bread (lg_dev s) (u32 (lg_start s + tail + 1));
    dbuf ← bread (lg_dev s) (u32 (lh_sector s !!! Z.to_nat tail));
    _ ← modify (λ s, set_buf_data dbuf (buf_data s lbuf) s);
    _ ← bwrite dbuf;
    _ ← brelse lbuf;
    brelse dbuf).

(** A store to [log.lh.sector[i]], which has [LOGSIZE] elements. *)
Definition store_sector (i : nat) (v : Z) : kM (lstate C) unit :=
  s ← kget;
  if decide (i < length (lh_sector s))%nat
  then modify (λ s, set_lh (lh_n s) (<[i := v]> (lh_sector s)) s)
  else panic "log.lh.sector: index out of bounds".

Definition read_head : kM (lstate C) unit :=
  s ← kget;
  buf ← bread (lg_dev s) (u32 (lg_start s));
  lh ← gets (λ s, buf_data s buf);
  _ ← modify (λ s, set_lh (hdr_n lh) (lh_sector s) s);
  _ ← kfor (Z.to_nat (hdr_n lh)) 0 (λ i, store_sector (Z.to_nat i) (hdr_sector lh (Z.to_nat i)));
  brelse buf.

Definition write_head : kM (lstate C) unit :=
  s ← kget;
  buf ← bread (lg_dev s) (u32 (lg_start s));
  _ ← modify (λ s, set_buf_data buf (put32 (buf_data s buf) 0 (lh_n s)) s);
  _ ← modify (λ s, set_buf_data buf
        (hdr_fill (Z.to_nat (lh_n s)) 0 (lh_sector s) (buf_data s buf)) s);
  _ ← bwrite buf;
  brelse buf.

Definition recover_from_log : kM (lstate C) unit :=
  _ ← read_head;
  _ ← install_trans;
  _ ← modify (λ s, set_lh 0 (lh_sector s) s);
  write_head.

Definition initlog : kM (lstate C) unit :=
  if BSIZE <=? sizeof_logheader then panic "initlog: too big logheader"
  else
    sb ← readsb ROOTDEV;
    _ ← modify (set_geometry (i32 (sb_size sb - sb_nlog sb)) (i32 (sb_nlog sb)) ROOTDEV);
    recover_from_log.

(** One pass of the loop of begin_op: [sleep] means the process waits on
    [&log] and, when woken, runs the loop again. *)
Definition begin_op : kM (lstate C) unit :=
  s ← kget;
  if lg_committing s then sleep_on ChLog
  else if LOGSIZE <? lh_n s + (lg_outstanding s + 1) * MAXOPBLOCKS then sleep_on ChLog
  else modify (λ s, set_outstanding (lg_outstanding s + 1) s).

Definition write_log : kM (lstate C) unit :=
  n ← gets lh_n;
  kfor (Z.to_nat n) 0 (λ tail,
    s ← kget;
    to ← bread (lg_dev s) (u32 (lg_start s + tail + 1));
    from ← bread (lg_dev s) (u32 (lh_sector s !!! Z.to_nat tail));
    _ ← modify (λ s, set_buf_data to (buf_data s from) s);
    _ ← bwrite to;
    _ ← brelse from;
    brelse to).

Definition commit : kM (lstate C) unit :=
  n ← gets lh_n;
  if 0 <? n then
    _ ← write_log;
    _ ← write_head;
    _ ← install_trans;
    _ ← modify (λ s, set_lh 0 (lh_sector s) s);
    write_head
  else mret tt.

(** The two critical sections of end_op, before and after [commit]. *)
Definition end_op_enter : kM (lstate C) bool :=
  _ ← modify (λ s, set_outstanding (lg_outstanding s - 1) s);
  s ← kget;
  if lg_committing s then panic "log.committing"
  else if lg_outstanding s =? 0 then
    _ ← modify (set_committing true);
    mret true
  else
    _ ← modify log_wakeup;
    mret false.

Definition end_op_leave : kM (lstate C) unit :=
  _ ← modify (set_committing false);
  modify log_wakeup.

Definition end_op : kM (lstate C) unit :=
  do_commit ← end_op_enter;
  if (do_commit : bool) then
    _ ← commit;
    end_op_leave
  else mret tt.

(** [for (i = 0; i < log.lh.n; i++) if (log.lh.sector[i] == sector) break]. *)
Fixpoint log_index (n i : nat) (sec : list Z) (sector : Z) : nat :=
  match n with
  | O => i
  | S n' => if sec !!! i =? sector then i else log_index n' (S i) sec sector
  end.

Definition log_write (b : nat) : kM (lstate C) unit :=
  s ← kget;
  if (LOGSIZE <=? lh_n s) || (lg_size s - 1 <=? lh_n s) then panic "too big a transaction"
  else if lg_outstanding s <? 1 then panic "log_write outside of trans"
  else
    let i := log_index (Z.to_nat (lh_n s)) 0 (lh_sector s) (i32 (buf_sector s b)) in
    _ ← store_sector i (i32 (buf_sector s b));
    _ ← kif (Z.of_nat i =? lh_n s) (modify (λ s, set_lh (lh_n s + 1) (lh_sector s) s));
    modify (set_buf_dirty b).

End log.

End Log.
