(* ===== verification/LogProofs.v ===== *)
(** * Correctness of the log (log.c)

    The on-disk log as a pure function of the disk ([installs], [logical]),
    the invariant of the in-memory log, and the specification of every
    function of log.c over any block layer that satisfies [BlockIOSpec]. *)

From stdpp Require Import base numbers option list gmap strings.
From S2P Require Import Prelude Bytes Block Log.
Import Log.
Local Open Scope Z_scope.

(** ** What a disk with a log means *)

(** The home writes that the on-disk log at [start] asks for. *)
Definition installs (start : Z) (d : sectors) : list (Z * block) :=
  (λ i, (hdr_sector (d !!! start) i, d !!! (start + 1 + Z.of_nat i)))
    <$> seq 0 (Z.to_nat (hdr_n (d !!! start))).

(** The file-system content a disk stands for: its log replayed. *)
Definition logical (start : Z) (d : sectors) : sectors := apply_writes (installs start d) d.

(** A header that names home blocks only, and not too many. *)
Definition hdr_ok (start : Z) (h : block) : Prop :=
  0 ≤ hdr_n h < LOGSIZE ∧
  ∀ i, (i < Z.to_nat (hdr_n h))%nat → 2 ≤ hdr_sector h i < start.

Section disk.
Implicit Types d : sectors.

Lemma apply_writes_in ws d d' m :
  m ∈ ws.*1 → apply_writes ws d !! m = apply_writes ws d' !! m.
Proof.
  induction ws as [|[n b] ws IH] using rev_ind; [set_solver|].
  rewrite fmap_app, elem_of_app, !apply_writes_app. simpl. intros Hm.
  destruct (decide (m = n)) as [->|]; [by rewrite !lookup_insert_eq|].
  rewrite !lookup_insert_ne by done. apply IH. set_solver.
Qed.

Lemma apply_writes_absorb ws ws' d :
  ws'.*1 ⊆ ws.*1 → apply_writes ws (apply_writes ws' d) = apply_writes ws d.
Proof.
  intros Hsub. apply map_eq. intros m. destruct (decide (m ∈ ws.*1)).
  - by apply apply_writes_in.
  - rewrite !apply_writes_notin; set_solver.
Qed.

Lemma apply_writes_notin_total ws d n :
  n ∉ ws.*1 → apply_writes ws d !!! n = d !!! n.
Proof. intros. rewrite !lookup_total_alt. by rewrite apply_writes_notin. Qed.

(** Every write of [ws] to [m] carries the same block. *)
Lemma apply_writes_const ws d m v :
  m ∈ ws.*1 → (∀ v', (m, v') ∈ ws → v' = v) → apply_writes ws d !!! m = v.
Proof.
  induction ws as [|[n b] ws IH] using rev_ind; [set_solver|].
  rewrite fmap_app, elem_of_app, apply_writes_app. simpl. intros Hm Hv.
  destruct (decide (m = n)) as [->|].
  - rewrite lookup_total_insert. rewrite decide_True by done.
    apply Hv, elem_of_app. right. by apply list_elem_of_singleton.
  - rewrite lookup_total_insert_ne by done. apply IH; [set_solver|].
    intros v' ?. apply Hv, elem_of_app. by left.
Qed.

Lemma installs_fst start d :
  (installs start d).*1 = hdr_sector (d !!! start) <$> seq 0 (Z.to_nat (hdr_n (d !!! start))).
Proof. unfold installs. by rewrite <- list_fmap_compose. Qed.

Lemma installs_home start d n : hdr_ok start (d !!! start) →
  n ∈ (installs start d).*1 → 2 ≤ n < start.
Proof.
  intros [_ H]. rewrite installs_fst, list_elem_of_fmap.
  intros (i & -> & Hi%elem_of_seq). apply H. lia.
Qed.

(** The log area is read only through [installs]. *)
Lemma installs_ext start d d' :
  (∀ n, start ≤ n → d' !!! n = d !!! n) → installs start d' = installs start d.
Proof.
  intros H. unfold installs. rewrite (H start) by lia.
  apply list_fmap_ext. intros i j _. by rewrite H by lia.
Qed.

(** Interrupting the replay anywhere leaves a disk with the same meaning. *)
Lemma logical_prefix start d k : hdr_ok start (d !!! start) →
  logical start (apply_writes (take k (installs start d)) d) = logical start d.
Proof.
  intros Hok. unfold logical.
  assert ((take k (installs start d)).*1 ⊆ (installs start d).*1) as Hsub.
  { intros n. rewrite !list_elem_of_fmap. intros (x & -> & Hx%elem_of_take).
    destruct Hx as (i & Hx & _). exists x. split; [done|]. by eapply list_elem_of_lookup_2. }
  rewrite (installs_ext start d).
  - by apply apply_writes_absorb.
  - intros n Hn. apply apply_writes_notin_total. intros Hin.
    apply Hsub, installs_home in Hin; [lia|done].
Qed.

(** With an empty header the disk means itself. *)
Lemma logical_empty start d : hdr_n (d !!! start) = 0 → logical start d = d.
Proof. intros H. unfold logical, installs. by rewrite H. Qed.

End disk.

(** ** The header encoding *)

Lemma length_hdr_fill n i sec d : length (hdr_fill n i sec d) = length d.
Proof.
  revert i d. induction n as [|n IH]; intros i d; simpl; [done|].
  rewrite IH. apply length_put.
Qed.

Lemma hdr_fill_n n i sec d : hdr_n (hdr_fill n i sec d) = hdr_n d.
Proof.
  revert i d. induction n as [|n IH]; intros i d; simpl; [done|].
  rewrite IH. unfold hdr_n, put32. rewrite get32_put; [done|]. left. lia.
Qed.

Lemma hdr_fill_sector n i sec d j : (4 + 4 * (i + n) ≤ length d)%nat →
  hdr_sector (hdr_fill n i sec d) j =
    if decide (i ≤ j < i + n)%nat then i32 (u32 (sec !!! j)) else hdr_sector d j.
Proof.
  revert i d. induction n as [|n IH]; intros i d Hd; cbn [hdr_fill].
  - rewrite decide_False by lia. done.
  - rewrite IH by (unfold put32; rewrite length_put; lia). unfold hdr_sector.
    destruct (decide (j = i)) as [->|].
    + rewrite decide_False, decide_True by lia. by rewrite get32_put32 by lia.
    + unfold put32. rewrite get32_put by (simpl length; lia).
      repeat case_decide; try done; lia.
Qed.

(** ** The block layer below *)

Section log.
Context {C : Type} `{!BlockIO C} `{HC : !BlockIOSpec C}.
Implicit Types (c : C) (s : lstate C).

(** [c'] is [c] after the writes [ws], with [held], [dirty] and [cur] as given. *)
Record bstep c c' (held : gmap nat Z) (dirty : gset Z) (cur : Z → block)
    (ws : list (Z * block)) : Prop := mkBstep {
  bs_inv : bio_inv c';
  bs_size : bio_size c' = bio_size c;
  bs_held : bio_held c' = held;
  bs_dirty : bio_dirty c' = dirty;
  bs_cur : ∀ m, bio_cur c' m = cur m;
  bs_disk : bio_disk c' = apply_writes ws (bio_disk c);
  bs_writes : bio_writes c' = bio_writes c ++ ws
}.

(** Two blocks are held, the content of [x] is copied over [y], [y] is
    written, and both are released: the common tail of [write_log] and
    [install_trans]. *)
Definition copy_block (src dst : nat) : kM (lstate C) unit :=
  _ ← modify (λ s, set_buf_data dst (buf_data s src) s);
  _ ← bwrite dst;
  _ ← brelse src;
  brelse dst.

Lemma held_sectors_singleton b n : held_sectors {[b := n]} = ({[n]} : gset Z).
Proof. unfold held_sectors. apply map_img_singleton_L. Qed.

Lemma copy_block_wp s src dst x y :
  bio_inv (lg_cache s) → bio_held (lg_cache s) = {[src := x; dst := y]} → src ≠ dst → x ≠ y →
  x ∈ bio_dirty (lg_cache s) ∨ bio_cur (lg_cache s) x = bio_disk (lg_cache s) !!! x →
  wp (copy_block src dst) s (λ _ s', ∃ c', s' = set_cache c' s ∧
    bstep (lg_cache s) c' ∅ (bio_dirty (lg_cache s) ∖ {[y]})
      (λ m, if decide (m = y) then bio_cur (lg_cache s) x else bio_cur (lg_cache s) m)
      [(y, bio_cur (lg_cache s) x)]).
Proof.
  set (c := lg_cache s). intros Hinv Hheld Hsd Hxy Hx. unfold copy_block. wps. fold c.
  assert (bio_held c !! src = Some x) as Hs by (rewrite Hheld; by simplify_map_eq).
  assert (bio_held c !! dst = Some y) as Hd by (rewrite Hheld; by simplify_map_eq).
  destruct (bio_held_data c src x Hinv Hs) as (Es & _ & Hxr). rewrite Es.
  destruct (set_buf_data_spec c dst y (bio_cur c x) Hinv Hd) as (Hinv1 & Z1 & H1 & D1 & C1 & K1 & W1).
  { by apply bio_cur_length. }
  set (c1 := set_buf_data dst (bio_cur c x) c) in *. unfold lift. wps.
  wpa bwrite_spec; [done|by rewrite H1|].
  intros _ c2 (Hinv2 & Z2 & H2 & D2 & C2 & K2 & W2). simpl. wps.
  assert (bio_cur c1 y = bio_cur c x) as Ey by (rewrite C1; by rewrite decide_True).
  rewrite Ey in K2, W2.
  wpa brelse_spec; [done|by rewrite H2, H1| |].
  { rewrite D2, C2, C1, D1, K2, K1, decide_False by done.
    rewrite lookup_total_insert_ne by done. destruct Hx; [left; set_solver|by right]. }
  intros _ c3 (Hinv3 & Z3 & H3 & D3 & C3 & K3 & W3). simpl. wps.
  wpa brelse_spec; [done|by rewrite H3, H2, H1, lookup_delete_ne| |].
  { right. rewrite C3, C2, Ey, K3, K2. by rewrite lookup_total_insert, decide_True. }
  intros _ c4 (Hinv4 & Z4 & H4 & D4 & C4 & K4 & W4). simpl.
  exists c4. split; [done|]. constructor; try congruence.
  - rewrite H4, H3, H2, H1, Hheld. apply map_eq. intros i.
    destruct (decide (i = src)), (decide (i = dst)); by simplify_map_eq.
  - intros m. by rewrite C4, C3, C2, C1.
  - rewrite K4, K3, K2, K1. done.
Qed.

(** ** Sequences of block writes *)

Definition cur_writes (ws : list (Z * block)) (f : Z → block) : Z → block :=
  foldl (λ f w m, if decide (m = w.1) then w.2 else f m) f ws.

(** [c'] is [c] after writing the blocks [ws] through to the disk. *)
Definition wrote c c' (ws : list (Z * block)) : Prop :=
  bstep c c' (bio_held c) (bio_dirty c ∖ list_to_set ws.*1) (cur_writes ws (bio_cur c)) ws.

Lemma cur_writes_app ws1 ws2 f : cur_writes (ws1 ++ ws2) f = cur_writes ws2 (cur_writes ws1 f).
Proof. apply foldl_app. Qed.

Lemma cur_writes_ext ws f g m : (∀ m, f m = g m) → cur_writes ws f m = cur_writes ws g m.
Proof.
  revert f g. induction ws as [|w ws IH]; intros f g Hfg; [apply Hfg|].
  simpl. apply IH. intros k. by rewrite Hfg.
Qed.

Lemma cur_writes_notin ws f m : m ∉ ws.*1 → cur_writes ws f m = f m.
Proof.
  revert f. induction ws as [|w ws IH]; intros f Hm; [done|].
  csimpl in *. apply not_elem_of_cons in Hm as [? ?].
  unfold cur_writes in *; simpl. by rewrite IH, decide_False.
Qed.

Lemma cur_writes_in ws f d m : m ∈ ws.*1 → cur_writes ws f m = apply_writes ws d !!! m.
Proof.
  induction ws as [|[n b] ws IH] using rev_ind; [set_solver|].
  rewrite fmap_app, elem_of_app, cur_writes_app, apply_writes_app. simpl. intros Hm.
  case_decide as Hd; subst; [by rewrite lookup_total_insert, decide_True|].
  rewrite lookup_total_insert_ne by done. apply IH. set_solver.
Qed.

Lemma wrote_refl c : bio_inv c → wrote c c [].
Proof.
  intros. constructor; try done; csimpl; [set_solver|by rewrite app_nil_r].
Qed.

Lemma wrote_trans c1 c2 c3 ws1 ws2 :
  wrote c1 c2 ws1 → wrote c2 c3 ws2 → wrote c1 c3 (ws1 ++ ws2).
Proof.
  intros [] []. constructor; try congruence.
  - rewrite bs_dirty1, bs_dirty0, fmap_app, list_to_set_app_L. set_solver.
  - intros m. rewrite bs_cur1, cur_writes_app. by apply cur_writes_ext.
  - by rewrite bs_disk1, bs_disk0, apply_writes_app.
  - by rewrite bs_writes1, bs_writes0, app_assoc.
Qed.

(** Reading two distinct blocks into two buffers. *)
Lemma bread2_wp s x y (k : nat → nat → kM (lstate C) unit) (Q : unit → lstate C → Prop) :
  let c := lg_cache s in
  bio_inv c → bio_held c = ∅ → x ≠ y → 0 ≤ x < bio_size c → 0 ≤ y < bio_size c →
  Z.of_nat (size (bio_dirty c)) < NBUF →
  y ∈ bio_dirty c ∨ Z.of_nat (size (bio_dirty c)) + 1 < NBUF →
  (∀ b1 b2 c', b1 ≠ b2 →
    bstep c c' {[b1 := x; b2 := y]} (bio_dirty c) (bio_cur c) [] →
    wp (k b1 b2) (set_cache c' s) Q) →
  wp (b1 ← bread ROOTDEV x; b2 ← bread ROOTDEV y; k b1 b2) s Q.
Proof.
  intros c Hinv Hh Hxy Hx Hy Hsz Hy' Hk. wps. unfold lift. wps. fold c.
  wpa bread_spec; [done|done|rewrite Hh; unfold held_sectors; by rewrite map_img_empty_L|right|].
  { rewrite Hh. unfold held_sectors. by rewrite map_img_empty_L, (right_id_L ∅ (∪)). }
  intros b1 c1 (I1 & Z1 & _ & H1 & D1 & C1 & K1 & W1). simpl. wps.
  rewrite Hh in H1. rewrite insert_empty in H1.
  wpa bread_spec; [done|by rewrite Z1| | |].
  - rewrite H1, held_sectors_singleton. set_solver.
  - rewrite D1, H1, held_sectors_singleton. destruct Hy' as [|Hy']; [by left|right].
    eapply Z.le_lt_trans; [|exact Hy'].
    pose proof (size_union_alt (bio_dirty c) {[x]}) as E.
    assert (size (({[x]} : gset Z) ∖ bio_dirty c) ≤ 1)%nat.
    { rewrite <- (size_singleton (C := gset Z) x). apply subseteq_size. set_solver. }
    lia.
  - intros b2 c2 (I2 & Z2 & N2 & H2 & D2 & C2 & K2 & W2). simpl.
    apply Hk.
    + intros ->. by rewrite H1, lookup_singleton in N2; case_decide.
    + constructor; simpl; try congruence.
      * rewrite H2, H1. apply insert_insert_ne. intros ->.
        by rewrite H1, lookup_singleton in N2; case_decide.
      * by rewrite app_nil_r, W2.
Qed.

(** ** The in-memory log *)

Definition logged s : list Z := take (Z.to_nat (lh_n s)) (lh_sector s).

(** The geometry, and a transaction of distinct home blocks that fits. *)
Record lh_ok s : Prop := mkLhOk {
  lo_inv : bio_inv (lg_cache s);
  lo_dev : lg_dev s = ROOTDEV;
  lo_start : 2 ≤ lg_start s;
  lo_size : 1 ≤ lg_size s ≤ LOGSIZE;
  lo_disk : lg_start s + lg_size s ≤ bio_size (lg_cache s) < 2 ^ 31;
  lo_n : 0 ≤ lh_n s < lg_size s;
  lo_len : length (lh_sector s) = Z.to_nat LOGSIZE;
  lo_home : ∀ n, n ∈ logged s → 2 ≤ n < lg_start s
}.

Lemma logged_lookup s i : lh_ok s → (i < Z.to_nat (lh_n s))%nat →
  logged s !! i = Some (lh_sector s !!! i).
Proof.
  intros [] Hi. unfold logged. rewrite lookup_take_lt by done.
  apply arr_lookup. rewrite lo_len0. lia.
Qed.

Lemma logged_home s i : lh_ok s → (i < Z.to_nat (lh_n s))%nat →
  2 ≤ lh_sector s !!! i < lg_start s.
Proof.
  intros Hok Hi. apply lo_home; [done|].
  eapply list_elem_of_lookup_2. by apply logged_lookup.
Qed.

Lemma length_logged s : lh_ok s → length (logged s) = Z.to_nat (lh_n s).
Proof. intros []. unfold logged. rewrite length_take, lo_len0. lia. Qed.

(** The writes of the two copying loops, as a function of the state before. *)
Definition log_area s (n : nat) : list (Z * block) :=
  (λ i, (lg_start s + 1 + Z.of_nat i, bio_cur (lg_cache s) (lh_sector s !!! i))) <$> seq 0 n.
Definition home_area s (n : nat) : list (Z * block) :=
  (λ i, (lh_sector s !!! i, bio_cur (lg_cache s) (lg_start s + 1 + Z.of_nat i))) <$> seq 0 n.

Lemma log_area_fst s n m : m ∈ (log_area s n).*1 ↔ lg_start s < m ≤ lg_start s + Z.of_nat n.
Proof.
  unfold log_area. rewrite <- list_fmap_compose, list_elem_of_fmap. split.
  - intros (i & -> & Hi%elem_of_seq). simpl. lia.
  - intros. exists (Z.to_nat (m - lg_start s - 1)). rewrite elem_of_seq. simpl. lia.
Qed.

Lemma home_area_fst s n : lh_ok s → (n ≤ Z.to_nat (lh_n s))%nat →
  (home_area s n).*1 = take n (logged s).
Proof.
  intros Hok Hn. apply list_eq. intros i. unfold home_area.
  rewrite <- list_fmap_compose, list_lookup_fmap.
  destruct (decide (i < n)%nat).
  - rewrite lookup_seq_lt, lookup_take_lt, logged_lookup by (done || lia). done.
  - rewrite lookup_seq_ge, lookup_take_ge by lia. done.
Qed.

Lemma home_area_home s n m : lh_ok s → (n ≤ Z.to_nat (lh_n s))%nat →
  m ∈ (home_area s n).*1 → 2 ≤ m < lg_start s.
Proof.
  intros Hok Hn. rewrite home_area_fst by done. intros Hm.
  apply lo_home; [done|]. apply elem_of_take in Hm as (i & Hi & _).
  by eapply list_elem_of_lookup_2.
Qed.

(** Snoc forms, for the loop step. *)
Lemma log_area_S s n : log_area s (S n) =
  log_area s n ++ [(lg_start s + 1 + Z.of_nat n, bio_cur (lg_cache s) (lh_sector s !!! n))].
Proof. unfold log_area. by rewrite seq_S, fmap_app. Qed.
Lemma home_area_S s n : home_area s (S n) =
  home_area s n ++ [(lh_sector s !!! n, bio_cur (lg_cache s) (lg_start s + 1 + Z.of_nat n))].
Proof. unfold home_area. by rewrite seq_S, fmap_app. Qed.

(** Reading blocks into buffers and then writing one back. *)
Lemma bstep_wrote c c1 c2 h (x y : Z) : bio_held c = ∅ →
  bstep c c1 h (bio_dirty c) (bio_cur c) [] →
  bstep c1 c2 ∅ (bio_dirty c1 ∖ {[y]})
    (λ m, if decide (m = y) then bio_cur c1 x else bio_cur c1 m) [(y, bio_cur c1 x)] →
  wrote c c2 [(y, bio_cur c x)].
Proof.
  intros Hh [] []. constructor; try congruence; csimpl.
  - rewrite bs_dirty1, bs_dirty0. set_solver.
  - intros m. rewrite bs_cur1, !bs_cur0. done.
  - by rewrite bs_disk1, bs_disk0, bs_cur0.
  - by rewrite bs_writes1, bs_writes0, app_nil_r, bs_cur0.
Qed.

(** One iteration: read log block [x] and home block [y], copy one over the
    other ([src] to [dst]), write and release. *)
Lemma copy_iter_wp s (x y : Z) (home : bool) :
  let c := lg_cache s in
  bio_inv c → bio_held c = ∅ → x ≠ y → 0 ≤ x < bio_size c → 0 ≤ y < bio_size c →
  x ∉ bio_dirty c → Z.of_nat (size (bio_dirty c)) < NBUF →
  y ∈ bio_dirty c ∨ Z.of_nat (size (bio_dirty c)) + 1 < NBUF →
  (home = true ∨ y ∈ bio_dirty c ∨ bio_cur c y = bio_disk c !!! y) →
  wp (b1 ← bread ROOTDEV x; b2 ← bread ROOTDEV y;
      if home then copy_block b1 b2 else copy_block b2 b1) s
    (λ _ s', ∃ c', s' = set_cache c' s ∧
      wrote c c' [if home then (y, bio_cur c x) else (x, bio_cur c y)]).
Proof.
  intros c Hinv Hh Hxy Hx Hy Hxd Hsz Hy' Hsrc.
  apply bread2_wp; try done. intros b1 b2 c1 Hb B1. destruct (B1).
  assert (bio_cur c x = bio_disk c !!! x) as Ex.
  { apply bio_cur_clean; try done. rewrite Hh. unfold held_sectors. by rewrite map_img_empty_L. }
  destruct home.
  - wpa copy_block_wp; try done; [right; simpl; by rewrite bs_cur0, bs_disk0|].
    simpl. intros _ s' (c2 & -> & B2). exists c2. split; [done|]. by eapply bstep_wrote.
  - wpa (copy_block_wp _ b2 b1 y x); simpl; try done; [rewrite bs_held0; by apply insert_insert_ne| |].
    { rewrite bs_dirty0, bs_cur0, bs_disk0. destruct Hsrc as [|Hsrc]; done. }
    simpl. intros _ s' (c2 & -> & B2). exists c2. split; [done|]. by eapply bstep_wrote.
Qed.

(** ** The functions of log.c *)

(** The modified blocks of the transaction reach the log area, in order. *)
Lemma write_log_wp s : lh_ok s → bio_held (lg_cache s) = ∅ →
  bio_dirty (lg_cache s) = list_to_set (logged s) → NoDup (logged s) →
  wp write_log s (λ _ s', ∃ c', s' = set_cache c' s ∧
    wrote (lg_cache s) c' (log_area s (Z.to_nat (lh_n s)))).
Proof.
  intros Hok Hh Hd Hnd. unfold write_log. wps.
  eapply wp_mono; [apply (wp_kfor _ 0 _ (λ j t, ∃ c', t = set_cache c' s ∧
    wrote (lg_cache s) c' (log_area s (Z.to_nat j))))|].
  - exists (lg_cache s). split; [by destruct s|]. apply wrote_refl, Hok.
  - intros j t Hj (c1 & -> & W). wps. rewrite (lo_dev s Hok).
    pose proof (lo_disk s Hok). pose proof (lo_start s Hok). pose proof (lo_n s Hok).
    pose proof (lo_size s Hok).
    pose proof (logged_home s (Z.to_nat j) Hok ltac:(lia)).
    rewrite !u32_small by lia. destruct (W).
    assert (bio_dirty c1 = bio_dirty (lg_cache s)) as E.
    { rewrite bs_dirty0, Hd. apply set_eq. intros m.
      rewrite elem_of_difference, !elem_of_list_to_set, log_area_fst.
      split; [tauto|]. intros Hm. split; [done|]. apply lo_home in Hm; [lia|done]. }
    assert (Z.of_nat (size (bio_dirty c1)) < NBUF).
    { rewrite E, Hd, size_list_to_set, length_logged by done. unfold NBUF, LOGSIZE in *. lia. }
    assert (lh_sector s !!! Z.to_nat j ∈ bio_dirty c1).
    { rewrite E, Hd, elem_of_list_to_set. eapply list_elem_of_lookup_2.
      apply logged_lookup; [done|lia]. }
    rewrite <- !wp_bind.
    wpa (copy_iter_wp (set_cache c1 s) (lg_start s + j + 1) (lh_sector s !!! Z.to_nat j) false);
      simpl; try congruence; try tauto; try lia.
    + rewrite E, Hd, elem_of_list_to_set. intros Hm%lo_home; [lia|done].
    + intros _ s' (c2 & -> & W2). exists c2. split; [done|].
      replace (Z.to_nat (j + 1)) with (S (Z.to_nat j)) by lia. rewrite log_area_S.
      eapply wrote_trans; [done|].
      rewrite bs_cur0, cur_writes_notin in W2 by (rewrite log_area_fst; lia).
      by replace (lg_start s + 1 + Z.of_nat (Z.to_nat j)) with (lg_start s + j + 1) by lia.
  - simpl. intros _ s' (c' & ? & HW). exists c'. split; [done|]. by rewrite Z.add_0_l, Nat2Z.id in HW.
Qed.

(** While the log is installed there is a buffer for every block read. *)
Lemma install_avail j s (dirty : gset Z) : lh_ok s → (j < Z.to_nat (lh_n s))%nat →
  (dirty = ∅ ∖ list_to_set (take j (logged s))) ∨
    (dirty = list_to_set (logged s) ∖ list_to_set (take j (logged s)) ∧ NoDup (logged s)) →
  Z.of_nat (size dirty) < NBUF ∧
  (lh_sector s !!! j ∈ dirty ∨ Z.of_nat (size dirty) + 1 < NBUF) ∧
  (∀ m, m ∈ dirty → 2 ≤ m < lg_start s).
Proof.
  intros Hok Hj [->|[-> Hnd]].
  { replace (∅ ∖ list_to_set (take j (logged s)) : gset Z) with (∅ : gset Z) by set_solver.
    rewrite size_empty. unfold NBUF, MAXOPBLOCKS. split_and!; [lia|lia|set_solver]. }
  pose proof (lo_size s Hok). pose proof (lo_n s Hok).
  pose proof (logged_lookup s j Hok Hj) as El. split_and!.
  - eapply Z.le_lt_trans; [apply Nat2Z.inj_le, subseteq_size, subseteq_difference_l; reflexivity|].
    rewrite size_list_to_set, length_logged by done. unfold NBUF, LOGSIZE in *. lia.
  - left. rewrite elem_of_difference, !elem_of_list_to_set. split.
    + by eapply list_elem_of_lookup_2.
    + intros (k & Hk & ?)%elem_of_take. pose proof (NoDup_lookup _ _ _ _ Hnd Hk El). lia.
  - intros m. rewrite elem_of_difference, elem_of_list_to_set. intros [? _]. by apply lo_home.
Qed.

(** Every home block named in the log receives its log block. *)
Lemma install_trans_wp s : lh_ok s → bio_held (lg_cache s) = ∅ →
  bio_dirty (lg_cache s) = ∅ ∨
    (bio_dirty (lg_cache s) = list_to_set (logged s) ∧ NoDup (logged s)) →
  wp install_trans s (λ _ s', ∃ c', s' = set_cache c' s ∧
    wrote (lg_cache s) c' (home_area s (Z.to_nat (lh_n s)))).
Proof.
  intros Hok Hh Hd. unfold install_trans. wps.
  eapply wp_mono; [apply (wp_kfor _ 0 _ (λ j t, ∃ c', t = set_cache c' s ∧
    wrote (lg_cache s) c' (home_area s (Z.to_nat j))))|].
  - exists (lg_cache s). split; [by destruct s|]. apply wrote_refl, Hok.
  - intros j t Hj (c1 & -> & W). wps. rewrite (lo_dev s Hok).
    pose proof (lo_disk s Hok). pose proof (lo_start s Hok). pose proof (lo_n s Hok).
    pose proof (lo_size s Hok).
    pose proof (logged_home s (Z.to_nat j) Hok ltac:(lia)).
    rewrite !u32_small by lia. destruct (W). rewrite home_area_fst in bs_dirty0 by (done || lia).
    destruct (install_avail (Z.to_nat j) s (bio_dirty c1)) as (? & ? & ?);
      [done|lia|by rewrite bs_dirty0; destruct Hd as [->|[-> ?]]; auto|].
    rewrite <- !wp_bind.
    wpa (copy_iter_wp (set_cache c1 s) (lg_start s + j + 1) (lh_sector s !!! Z.to_nat j) true);
      simpl; try congruence; try tauto; try lia.
    + intros Hm. cut (2 ≤ lg_start s + j + 1 < lg_start s); [lia|by auto].
    + intros _ s' (c2 & -> & W2). exists c2. split; [done|].
      replace (Z.to_nat (j + 1)) with (S (Z.to_nat j)) by lia. rewrite home_area_S.
      eapply wrote_trans; [done|].
      rewrite bs_cur0, cur_writes_notin in W2
        by (intros Hm%home_area_home; [lia|done|lia]).
      by replace (lg_start s + 1 + Z.of_nat (Z.to_nat j)) with (lg_start s + j + 1) by lia.
  - simpl. intros _ s' (c' & ? & HW). exists c'. split; [done|].
    by rewrite Z.add_0_l, Nat2Z.id in HW.
Qed.

(** The header block that [write_head] writes over the header [old]. *)
Definition head_block (n : Z) (sec : list Z) (old : block) : block :=
  hdr_fill (Z.to_nat n) 0 sec (put32 old 0 n).

Lemma length_head_block n sec old : length (head_block n sec old) = length old.
Proof. unfold head_block, put32. by rewrite length_hdr_fill, length_put. Qed.

Lemma head_block_n n sec old : 0 ≤ n < LOGSIZE → length old = Z.to_nat BSIZE →
  hdr_n (head_block n sec old) = n.
Proof.
  intros Hn Hl. unfold head_block. rewrite hdr_fill_n. unfold hdr_n.
  unfold LOGSIZE, MAXOPBLOCKS, BSIZE in *.
  rewrite get32_put32, u32_small by lia. apply i32_small. lia.
Qed.

Lemma head_block_sector n sec old i : 0 ≤ n < LOGSIZE → length old = Z.to_nat BSIZE →
  (i < Z.to_nat n)%nat → 0 ≤ sec !!! i < 2 ^ 31 →
  hdr_sector (head_block n sec old) i = sec !!! i.
Proof.
  intros Hn Hl Hi Hs. unfold head_block, LOGSIZE, MAXOPBLOCKS, BSIZE in *.
  rewrite hdr_fill_sector, decide_True by (unfold put32; rewrite ?length_put; lia).
  rewrite u32_small, i32_small by lia. done.
Qed.

Lemma write_head_wp s : lh_ok s → bio_held (lg_cache s) = ∅ →
  lg_start s ∉ bio_dirty (lg_cache s) → Z.of_nat (size (bio_dirty (lg_cache s))) < NBUF →
  wp write_head s (λ _ s', ∃ c', s' = set_cache c' s ∧
    wrote (lg_cache s) c' [(lg_start s,
      head_block (lh_n s) (lh_sector s) (bio_cur (lg_cache s) (lg_start s)))]).
Proof.
  intros Hok Hh Hd Hsz. pose proof (lo_disk s Hok) as G1. pose proof (lo_start s Hok) as G2.
  pose proof (lo_size s Hok) as G3.
  unfold write_head, lift. wps. unfold lift. wps. rewrite (lo_dev s Hok), u32_small by lia.
  wpa bread_spec; [apply Hok|lia|rewrite Hh; unfold held_sectors; by rewrite map_img_empty_L| |].
  { right. rewrite Hh. unfold held_sectors. by rewrite map_img_empty_L, (right_id_L ∅ (∪)). }
  intros b c1 (I1 & Z1 & _ & H1 & D1 & C1 & K1 & W1). wps.
  assert (bio_held c1 !! b = Some (lg_start s)) as Hb by (rewrite H1; by simplify_map_eq).
  destruct (bio_held_data c1 b _ I1 Hb) as (E1 & _ & Hr). rewrite E1, C1.
  assert (length (bio_cur (lg_cache s) (lg_start s)) = Z.to_nat BSIZE) as Hlen
    by (apply bio_cur_length; [apply Hok|lia]).
  set (d1 := put32 (bio_cur (lg_cache s) (lg_start s)) 0 (lh_n s)).
  destruct (set_buf_data_spec c1 b _ d1 I1 Hb) as (I2 & Z2 & H2 & D2 & C2 & K2 & W2).
  { unfold d1, put32. by rewrite length_put. }
  set (c2 := set_buf_data b d1 c1) in *.
  assert (bio_held c2 !! b = Some (lg_start s)) as Hb2 by by rewrite H2.
  destruct (bio_held_data c2 b _ I2 Hb2) as (E2 & _ & _). rewrite E2, C2, decide_True by done.
  set (d2 := hdr_fill _ _ _ _).
  destruct (set_buf_data_spec c2 b _ d2 I2 Hb2) as (I3 & Z3 & H3 & D3 & C3 & K3 & W3).
  { unfold d2, d1, put32. by rewrite length_hdr_fill, length_put. }
  set (c3 := set_buf_data b d2 c2) in *.
  wpa bwrite_spec; [done|by rewrite H3|].
  intros _ c4 (I4 & Z4 & H4 & D4 & C4 & K4 & W4). wps.
  rewrite C3, decide_True in K4, W4 by done.
  wpa brelse_spec; [done|by rewrite H4, H3| |].
  { right. rewrite C4, C3, K4. by rewrite lookup_total_insert, !decide_True. }
  intros _ c5 (I5 & Z5 & H5 & D5 & C5 & K5 & W5). exists c5. split; [done|].
  constructor; try congruence; csimpl.
  - rewrite H5, H4, H3, H2, H1, Hh. by rewrite insert_empty, delete_singleton_eq.
  - rewrite D5, D4, D3, D2, D1. set_solver.
  - intros m. rewrite C5, C4, C3, C2, C1. repeat case_decide; done.
  - rewrite K5, K4, K3, K2, K1. done.
  - by rewrite W5, W4, W3, W2, W1.
Qed.

(** ** Commit *)

(** The super block describes a log of [size] blocks at [start]. *)
Definition sb_log (start size : Z) (d : sectors) : Prop :=
  i32 (sb_size (sb_decode (d !!! 1)) - sb_nlog (sb_decode (d !!! 1))) = start ∧
  i32 (sb_nlog (sb_decode (d !!! 1))) = size.

(** The invariant of the log between any two operations of a client: the
    pinned blocks are exactly those of the transaction, all distinct, and the
    on-disk log is empty. *)
Record log_inv s : Prop := mkLogInv {
  li_ok : lh_ok s;
  li_dirty : bio_dirty (lg_cache s) = list_to_set (logged s);
  li_nodup : NoDup (logged s);
  li_held : ∀ b n, bio_held (lg_cache s) !! b = Some n → n < lg_start s;
  li_head : hdr_n (bio_disk (lg_cache s) !!! lg_start s) = 0;
  li_sb : sb_log (lg_start s) (lg_size s) (bio_disk (lg_cache s))
}.

(** The home writes of a commit. *)
Definition home_final s : list (Z * block) :=
  (λ n, (n, bio_cur (lg_cache s) n)) <$> logged s.

(** All the disk writes of a commit, in order. *)
Definition commit_writes s : list (Z * block) :=
  let h := head_block (lh_n s) (lh_sector s) (bio_cur (lg_cache s) (lg_start s)) in
  if 0 <? lh_n s then
    log_area s (Z.to_nat (lh_n s)) ++ [(lg_start s, h)] ++
    home_final s ++ [(lg_start s, head_block 0 (lh_sector s) h)]
  else [].

Lemma home_final_fst s : (home_final s).*1 = logged s.
Proof. unfold home_final. rewrite <- list_fmap_compose. apply list_fmap_id. Qed.

Lemma logged_eq s : lh_ok s →
  logged s = (λ i, lh_sector s !!! i) <$> seq 0 (Z.to_nat (lh_n s)).
Proof.
  intros Hok. apply list_eq. intros i. rewrite list_lookup_fmap.
  destruct (decide (i < Z.to_nat (lh_n s))%nat).
  - by rewrite logged_lookup, lookup_seq_lt.
  - rewrite lookup_seq_ge by lia. apply lookup_ge_None_2. rewrite length_logged; [lia|done].
Qed.

(** The state between the two halves of [commit]. *)
Lemma home_area_logged s c' h : lh_ok s →
  wrote (lg_cache s) c' (log_area s (Z.to_nat (lh_n s)) ++ [(lg_start s, h)]) →
  home_area (set_cache c' s) (Z.to_nat (lh_n s)) = home_final s.
Proof.
  intros Hok []. unfold home_final, home_area. rewrite logged_eq by done.
  rewrite <- list_fmap_compose. apply list_fmap_ext. intros i j [-> Hi]%lookup_seq.
  simpl. f_equal. rewrite bs_cur0, cur_writes_app.
  rewrite (cur_writes_notin [_]) by (csimpl; rewrite list_elem_of_singleton; lia).
  erewrite (cur_writes_in _ _ ∅) by (apply log_area_fst; lia).
  apply apply_writes_const; [apply log_area_fst; lia|].
  intros v' Hv. unfold log_area in Hv. apply list_elem_of_fmap in Hv as (k & Hk & _).
  simplify_eq. by replace k with i by lia.
Qed.

(** [lh_ok] depends on the cache through its invariant and size only. *)
Lemma lh_ok_cache s c' : lh_ok s → bio_inv c' → bio_size c' = bio_size (lg_cache s) →
  lh_ok (set_cache c' s).
Proof. intros [] ? E. constructor; simpl; rewrite ?E; done. Qed.

Lemma lh_ok_clear s sec : lh_ok s → length sec = Z.to_nat LOGSIZE → lh_ok (set_lh 0 sec s).
Proof.
  intros [] ?. constructor; simpl; try done; [lia|]. intros n Hn. by apply not_elem_of_nil in Hn.
Qed.

Lemma lh_ok_reset s n sec c c' : lh_ok (set_cache c (set_lh n sec s)) → bio_inv c' →
  bio_size c' = bio_size c → lh_ok (set_cache c' (set_lh 0 sec s)).
Proof.
  intros Hok ??. apply (lh_ok_cache (set_cache c (set_lh 0 sec s))); [|done..].
  by apply (lh_ok_clear (set_cache c (set_lh n sec s))), (lo_len _ Hok).
Qed.

Lemma lh_ok_avail s : lh_ok s → NoDup (logged s) →
  Z.of_nat (size (list_to_set (logged s) : gset Z)) < NBUF ∧
  lg_start s ∉ (list_to_set (logged s) : gset Z).
Proof.
  intros Hok Hnd. split.
  - rewrite size_list_to_set, length_logged by done.
    destruct Hok. unfold NBUF, LOGSIZE in *. lia.
  - rewrite elem_of_list_to_set. intros ?%lo_home; [lia|done].
Qed.

Lemma log_area_logged s n : lh_ok s → (n ≤ Z.to_nat (lh_n s))%nat →
  list_to_set (logged s) ∖ list_to_set (log_area s n).*1 = (list_to_set (logged s) : gset Z).
Proof.
  intros Hok Hn. apply set_eq. intros m.
  rewrite elem_of_difference, !elem_of_list_to_set, log_area_fst.
  split; [tauto|]. intros Hm. split; [done|]. apply lo_home in Hm; [lia|done].
Qed.

Lemma commit_run s : log_inv s → bio_held (lg_cache s) = ∅ → 0 < lh_n s →
  wp commit s (λ _ s', ∃ c', s' = set_cache c' (set_lh 0 (lh_sector s) s) ∧
    wrote (lg_cache s) c' (commit_writes s)).
Proof.
  intros [Hok Hd Hnd _ _ _] Hh Hn. unfold commit, commit_writes. wps.
  rewrite (proj2 (Z.ltb_lt _ _) Hn). wps.
  destruct (lh_ok_avail s Hok Hnd) as [Hsz Hst].
  wpa write_log_wp; try done. intros _ s1 (c1 & -> & W1). wps.
  destruct (W1).
  assert (bio_dirty c1 = list_to_set (logged s)) as D1
    by (by rewrite bs_dirty0, Hd, log_area_logged).
  wpa write_head_wp; simpl; [by apply lh_ok_cache|congruence|by rewrite D1|by rewrite D1|].
  intros _ s2 (c2 & -> & W2). wps.
  rewrite bs_cur0, cur_writes_notin in W2 by (rewrite log_area_fst; lia).
  pose proof (wrote_trans _ _ _ _ _ W1 W2) as W12. destruct (W2).
  assert (bio_dirty c2 = list_to_set (logged s)) as D2.
  { rewrite bs_dirty1, D1. csimpl. apply set_eq. intros m. set_solver. }
  wpa install_trans_wp; [apply (lh_ok_cache s); [done|done|congruence]|simpl; congruence|by right|].
  intros _ s3 (c3 & -> & W3). simpl lh_n in W3. wps.
  change (set_cache c2 (set_cache c1 s)) with (set_cache c2 s) in W3.
  erewrite home_area_logged in W3 by done. simpl in W3. destruct (W3).
  pose proof (wrote_trans _ _ _ _ _ W12 W3) as W13. rewrite <- app_assoc in W13.
  assert (bio_dirty c3 = ∅) as D3.
  { rewrite bs_dirty2, D2, home_final_fst. apply difference_diag_L. }
  wpa write_head_wp; simpl.
  - apply (lh_ok_clear (set_cache c3 s)); [|apply Hok]. apply lh_ok_cache; [done|done|congruence].
  - congruence.
  - rewrite D3. apply not_elem_of_empty.
  - rewrite D3, size_empty. done.
  - intros _ s4 (c4 & -> & W4). exists c4. split; [done|]. simpl in W4.
    destruct W13. rewrite bs_cur3, 2!cur_writes_app in W4.
    rewrite cur_writes_notin in W4
      by (rewrite home_final_fst; intros ?%lo_home; [lia|done]).
    simpl in W4. rewrite decide_True in W4 by done.
    pose proof (wrote_trans _ _ _ _ _ (wrote_trans _ _ _ _ _ W12 W3) W4) as W.
    by rewrite <- !app_assoc in W.
Qed.

(** ** Recovery *)

(** The state when [initlog] is called at boot: nothing is cached dirty or
    held; the disk has a super block and a well-formed log. *)
Record boot_ok (start size : Z) s : Prop := mkBootOk {
  bo_inv : bio_inv (lg_cache s);
  bo_held : bio_held (lg_cache s) = ∅;
  bo_dirty : bio_dirty (lg_cache s) = ∅;
  bo_len : length (lh_sector s) = Z.to_nat LOGSIZE;
  bo_start : 2 ≤ start;
  bo_size : 1 ≤ size ≤ LOGSIZE;
  bo_disk : start + size ≤ bio_size (lg_cache s) < 2 ^ 31;
  bo_sb : sb_log start size (bio_disk (lg_cache s));
  bo_hdr : hdr_ok start (bio_disk (lg_cache s) !!! start);
  bo_fits : hdr_n (bio_disk (lg_cache s) !!! start) < size
}.

Definition sector_load (h : block) (n : nat) (sec : list Z) : list Z :=
  (hdr_sector h <$> seq 0 n) ++ drop n sec.

Lemma sector_load_S h n sec : (n < length sec)%nat →
  <[n := hdr_sector h n]> (sector_load h n sec) = sector_load h (S n) sec.
Proof.
  intros Hn. unfold sector_load. rewrite insert_app_r_alt by (rewrite length_fmap, length_seq; lia).
  rewrite length_fmap, length_seq, Nat.sub_diag, seq_S, fmap_app, <- app_assoc. simpl. f_equal.
  rewrite (drop_S sec (sec !!! n) n) by by apply arr_lookup. done.
Qed.

Lemma length_sector_load h n sec : (n ≤ length sec)%nat → length (sector_load h n sec) = length sec.
Proof.
  intros. unfold sector_load. rewrite length_app, length_fmap, length_seq, length_drop. lia.
Qed.

Lemma clean_cur c n : bio_inv c → bio_held c = ∅ → bio_dirty c = ∅ → 0 ≤ n < bio_size c →
  bio_cur c n = bio_disk c !!! n.
Proof.
  intros ? Hh Hd ?. apply bio_cur_clean; try done; [by rewrite Hd; set_solver|].
  rewrite Hh. unfold held_sectors. by rewrite map_img_empty_L.
Qed.

(** Reading one block of a clean cache and releasing it, with [f] in between. *)
Lemma bread_clean_wp {A} s n (k : nat → kM (lstate C) A) (Q : A → lstate C → Prop) :
  bio_inv (lg_cache s) → bio_held (lg_cache s) = ∅ → bio_dirty (lg_cache s) = ∅ →
  0 ≤ n < bio_size (lg_cache s) →
  (∀ b c', buf_data c' b = bio_disk (lg_cache s) !!! n →
    bstep (lg_cache s) c' {[b := n]} ∅ (bio_cur (lg_cache s)) [] →
    wp (k b) (set_cache c' s) Q) →
  wp (b ← bread ROOTDEV n; k b) s Q.
Proof.
  intros Hi Hh Hd Hn Hk. wps. unfold lift. wps.
  wpa bread_spec; try done.
  { rewrite Hh. unfold held_sectors. by rewrite map_img_empty_L. }
  { right. rewrite Hh, Hd. unfold held_sectors. by rewrite map_img_empty_L. }
  intros b c1 (I1 & Z1 & _ & H1 & D1 & C1 & K1 & W1). wps.
  rewrite Hh, insert_empty in H1. apply Hk.
  - destruct (bio_held_data c1 b n I1) as (-> & _); [rewrite H1; by simplify_map_eq|].
    by rewrite C1, clean_cur.
  - constructor; rewrite ?app_nil_r; try congruence; simpl; congruence.
Qed.

Lemma brelse_clean_wp s c0 b n : bio_held c0 = ∅ → bio_dirty c0 = ∅ → bio_inv c0 →
  bstep c0 (lg_cache s) {[b := n]} ∅ (bio_cur c0) [] →
  wp (brelse b) s (λ _ s', ∃ c', s' = set_cache c' s ∧ wrote c0 c' []).
Proof.
  intros Hh Hd Hi []. wps. unfold lift. wps.
  assert (bio_held (lg_cache s) !! b = Some n) as Hb by (rewrite bs_held0; by simplify_map_eq).
  destruct (bio_held_data _ b n bs_inv0 Hb) as (_ & _ & Hn).
  wpa brelse_spec; [done|done| |].
  { right. rewrite bs_cur0, bs_disk0. apply clean_cur; try done. by rewrite <- bs_size0. }
  intros _ c1 (I1 & Z1 & H1 & D1 & C1 & K1 & W1). exists c1. split; [done|].
  constructor; csimpl; try congruence.
  - rewrite H1, bs_held0, Hh. by rewrite delete_singleton_eq.
  - rewrite D1, bs_dirty0, Hd. set_solver.
  - by rewrite K1, bs_disk0.
Qed.

Lemma read_head_wp s n h : bio_inv (lg_cache s) → bio_held (lg_cache s) = ∅ →
  bio_dirty (lg_cache s) = ∅ → lg_dev s = ROOTDEV → 0 ≤ lg_start s < bio_size (lg_cache s) →
  bio_size (lg_cache s) < 2 ^ 31 →
  h = bio_disk (lg_cache s) !!! lg_start s → n = hdr_n h → 0 ≤ n < LOGSIZE →
  length (lh_sector s) = Z.to_nat LOGSIZE →
  wp read_head s (λ _ s', ∃ c',
    s' = set_cache c' (set_lh n (sector_load h (Z.to_nat n) (lh_sector s)) s) ∧
    wrote (lg_cache s) c' []).
Proof.
  intros Hi Hh Hd Hdev Hst Hsz -> -> Hn Hlen. unfold read_head.
  rewrite wp_bind, wp_kget, Hdev, u32_small by lia.
  apply bread_clean_wp; [done..|]. intros b c1 Hb B1. wps. rewrite Hb.
  set (h := bio_disk _ !!! _) in *.
  eapply wp_mono; [apply (wp_kfor _ 0 _ (λ j t, t =
    set_cache c1 (set_lh (hdr_n h) (sector_load h (Z.to_nat j) (lh_sector s)) s)))|].
  - done.
  - intros j t Hj ->. unfold store_sector. wps.
    rewrite length_sector_load, decide_True by lia. wps. f_equal.
    rewrite sector_load_S by lia. by replace (Z.to_nat (j + 1)) with (S (Z.to_nat j)) by lia.
  - intros _ s' ->. rewrite Z.add_0_l, Nat2Z.id.
    wpa (brelse_clean_wp _ (lg_cache s) b (lg_start s)); try done.
Qed.

(** After the header is read, the in-memory transaction is the on-disk log. *)
Lemma load_ok start size s c' : boot_ok start size s → let h := bio_disk (lg_cache s) !!! start in
  let s1 := set_cache c' (set_lh (hdr_n h) (sector_load h (Z.to_nat (hdr_n h)) (lh_sector s))
              (set_geometry start size ROOTDEV s)) in
  wrote (lg_cache s) c' [] →
  lh_ok s1 ∧ home_area s1 (Z.to_nat (lh_n s1)) = installs start (bio_disk (lg_cache s)).
Proof.
  intros Hb h s1 [].
  destruct Hb as [? Hheld Hdirty Hl ? ? ? ? [Hn Hs] ?]. fold h in Hn, Hs, bo_fits0.
  assert (logged s1 = hdr_sector h <$> seq 0 (Z.to_nat (hdr_n h))) as El.
  { unfold logged, s1, sector_load. simpl. apply take_app_length'.
    by rewrite length_fmap, length_seq. }
  split.
  - constructor; simpl; try done; [congruence|lia|rewrite length_sector_load; lia|].
    intros m. rewrite El, list_elem_of_fmap. intros (i & -> & Hi%elem_of_seq). apply Hs. lia.
  - unfold home_area, installs. simpl. fold h. apply list_fmap_ext. intros i j [-> Hi]%lookup_seq.
    simpl. f_equal.
    + unfold sector_load. rewrite lookup_total_app_l by (rewrite length_fmap, length_seq; lia).
      rewrite list_lookup_total_alt, list_lookup_fmap, lookup_seq_lt by lia. done.
    + rewrite bs_cur0. simpl. apply clean_cur; try done. lia.
Qed.

Lemma initlog_run start size s : boot_ok start size s →
  wp initlog s (λ _ s', ∃ c' sec,
    s' = set_cache c' (set_lh 0 sec (set_geometry start size ROOTDEV s)) ∧
    lh_ok s' ∧
    wrote (lg_cache s) c' (installs start (bio_disk (lg_cache s)) ++
      [(start, head_block 0 sec (bio_disk (lg_cache s) !!! start))])).
Proof.
  intros Hb. destruct (Hb) as [? Hh Hd ? ? ? ? [Hsb1 Hsb2] Hhdr ?]. simpl in Hsb1, Hsb2.
  unfold initlog. replace (BSIZE <=? sizeof_logheader) with false by reflexivity.
  unfold readsb. rewrite wp_bind.
  apply bread_clean_wp; [done..|lia|]. intros b c0 Eb B0. wps. rewrite Eb.
  wpa (brelse_clean_wp (set_cache c0 s) (lg_cache s) b 1); [done..|].
  intros _ s0 (c1 & -> & W1). wps. rewrite Hsb1, Hsb2. unfold recover_from_log. wps. destruct (W1).
  set (h := bio_disk (lg_cache s) !!! start).
  wpa (read_head_wp _ (hdr_n h) h); simpl; try congruence; try lia;
    [by rewrite bs_dirty0, Hd, empty_diff|by rewrite bs_disk0|apply Hhdr|].
  intros _ s2 (c2 & -> & W2). wps. pose proof (wrote_trans _ _ _ _ _ W1 W2) as W12.
  destruct (load_ok start size s c2 Hb W12) as [Hok Hinst]. fold h in Hok, Hinst.
  destruct (W12).
  wpa install_trans_wp; [exact Hok|simpl; congruence|left; simpl; by rewrite bs_dirty1, Hd, empty_diff|].
  intros _ s3 (c3 & -> & W3). wps. simpl lg_cache in W3. simpl lh_n in Hinst, W3.
  match type of W3 with wrote _ _ ?w => change w with (home_area
    (set_cache c2 (set_lh (hdr_n h) (sector_load h (Z.to_nat (hdr_n h)) (lh_sector s))
      (set_geometry start size ROOTDEV s))) (Z.to_nat (hdr_n h))) in W3 end.
  rewrite Hinst in W3. pose proof (wrote_trans _ _ _ _ _ W12 W3) as W13. simpl in W13. destruct (W13).
  set (sec := sector_load _ _ _) in *.
  assert (bio_dirty c3 = ∅) as D3 by (by rewrite bs_dirty2, Hd, empty_diff).
  wpa write_head_wp; simpl.
  - by eapply lh_ok_reset; [exact Hok|done|simpl; congruence].
  - congruence.
  - rewrite D3. apply not_elem_of_empty.
  - by rewrite D3.
  - intros _ s4 (c4 & -> & W4). simpl in W4. exists c4, sec. split; [done|].
    rewrite bs_cur2, cur_writes_notin in W4 by (intros ?%installs_home; [lia|done]).
    rewrite clean_cur in W4 by (done || lia).
    pose proof (wrote_trans _ _ _ _ _ W13 W4) as W. split; [|done]. destruct W.
    by eapply lh_ok_reset; [exact Hok|done|simpl; congruence].
Qed.

(** ** The disk at every point of a commit *)

Lemma hdr_ok_empty start size h : 1 ≤ size → hdr_n h = 0 → hdr_ok start h ∧ hdr_n h < size.
Proof.
  intros ? E. unfold hdr_ok. rewrite E. split; [|lia]. split; [done|]. simpl. lia.
Qed.

Section crash.
Variable s : lstate C.
Hypothesis Hinv : log_inv s.
Hypothesis Hh : bio_held (lg_cache s) = ∅.
Let c := lg_cache s.
Let start := lg_start s.
Let n := Z.to_nat (lh_n s).
Let h := head_block (lh_n s) (lh_sector s) (bio_cur c start).

(** The disk right after the commit point. *)
Let d1 : sectors := apply_writes (log_area s n ++ [(start, h)]) (bio_disk c).

Lemma crash_len : length (bio_cur c start) = Z.to_nat BSIZE.
Proof using Hinv.
  destruct Hinv as [[] _ _ _ _ _]. apply bio_cur_length; [done|]. unfold start, c. lia.
Qed.

Lemma crash_d1_start : d1 !!! start = h.
Proof using. unfold d1. rewrite apply_writes_app. simpl. by rewrite lookup_total_insert, decide_True. Qed.

Lemma crash_hdr : hdr_n h = lh_n s ∧ ∀ i, (i < n)%nat → hdr_sector h i = lh_sector s !!! i.
Proof using Hinv.
  pose proof (li_ok s Hinv) as Hok. pose proof (lo_n s Hok). pose proof (lo_size s Hok).
  pose proof (lo_disk s Hok). pose proof crash_len. split.
  - apply head_block_n; [lia|done].
  - intros i Hi. pose proof (logged_home s i Hok Hi).
    apply head_block_sector; [lia|done|done|lia].
Qed.

Lemma crash_hdr_ok : hdr_ok start h ∧ hdr_n h < lg_size s.
Proof using Hinv.
  destruct crash_hdr as [En Es]. pose proof (li_ok s Hinv) as Hok. pose proof (lo_n s Hok).
  pose proof (lo_size s Hok). unfold hdr_ok. rewrite En. split; [split; [lia|]|lia].
  intros i Hi. rewrite Es by done. by apply logged_home.
Qed.

Lemma crash_installs : installs start d1 = home_final s.
Proof using Hinv.
  destruct crash_hdr as [En Es]. pose proof (li_ok s Hinv) as Hok.
  unfold installs. rewrite crash_d1_start, En.
  unfold home_final. rewrite logged_eq, <- list_fmap_compose by done.
  apply list_fmap_ext. intros i j [-> Hi]%lookup_seq. simpl in *. rewrite Es by done. f_equal.
  unfold d1. rewrite apply_writes_app. simpl. rewrite lookup_total_insert_ne by (unfold start; lia).
  apply apply_writes_const; [apply log_area_fst; unfold start, n in *; lia|].
  intros v' Hv. unfold log_area in Hv. apply list_elem_of_fmap in Hv as (k & Hk & _).
  unfold start in *. simplify_eq. by replace k with i by lia.
Qed.

Lemma length_log_area : length (log_area s n) = n.
Proof using. unfold log_area. by rewrite length_fmap, length_seq. Qed.

(** Home blocks are untouched until the commit point. *)
Lemma crash_before k m : (k ≤ n)%nat → m ≤ start →
  apply_writes (take k (log_area s n)) (bio_disk c) !!! m = bio_disk c !!! m.
Proof using.
  intros Hk Hm. apply apply_writes_notin_total. rewrite fmap_take. intros (i & Hi & _)%elem_of_take.
  apply list_elem_of_lookup_2, log_area_fst in Hi. unfold start in *. lia.
Qed.

Lemma crash_d1_home m : 0 ≤ m < start → d1 !!! m = bio_disk c !!! m.
Proof using.
  intros Hm. unfold d1. rewrite apply_writes_app. simpl. rewrite lookup_total_insert_ne by lia.
  rewrite <- (crash_before n m) by lia. by rewrite take_ge by (rewrite length_log_area; lia).
Qed.

(** After it, the disk means the new content. *)
Lemma crash_after m : 0 ≤ m < start → logical start d1 !!! m = bio_cur c m.
Proof using Hinv Hh.
  intros Hm. unfold logical. rewrite crash_installs. pose proof (li_ok s Hinv) as Hok.
  destruct (decide (m ∈ logged s)) as [Hin|Hout].
  - apply apply_writes_const; [by rewrite home_final_fst|].
    intros v' Hv. unfold home_final in Hv. apply list_elem_of_fmap in Hv as (k & Hk & _).
    by simplify_eq.
  - rewrite apply_writes_notin_total, crash_d1_home by (rewrite ?home_final_fst; done).
    symmetry. unfold c. apply bio_cur_clean; [apply Hok| | |].
    + by rewrite (li_dirty s Hinv), elem_of_list_to_set.
    + rewrite Hh. unfold held_sectors. by rewrite map_img_empty_L.
    + destruct Hok. unfold start in *. lia.
Qed.

(** A prefix of the writes of a commit, by its length. *)
Lemma commit_prefix k : 0 < lh_n s →
  let ws := take k (commit_writes s) in
  if decide (k ≤ n)%nat then ws = take k (log_area s n)
  else ∃ j, ws = (log_area s n ++ [(start, h)]) ++ take j (home_final s) ∨
    ws = (log_area s n ++ [(start, h)]) ++ home_final s ++ [(start, head_block 0 (lh_sector s) h)].
Proof using.
  intros Hn. unfold commit_writes. rewrite (proj2 (Z.ltb_lt _ _) Hn). cbv zeta.
  fold n start c h. case_decide as Hk.
  - by rewrite take_app_le by (rewrite length_log_area; done).
  - rewrite (app_assoc (log_area s n)).
    rewrite (take_app_ge (log_area s n ++ _)) by (rewrite length_app, length_log_area; simpl; lia).
    set (j := (k - _)%nat). destruct (decide (j ≤ length (home_final s))%nat).
    + exists j. left. by rewrite (take_app_le (home_final s)).
    + exists j. right. rewrite (take_ge (home_final s ++ _)); [done|].
      rewrite length_app. simpl. lia.
Qed.

(** Every disk that a crash during a commit can leave is one that recovery
    accepts, and it means the old content up to the commit point and the new
    content from then on. *)
Lemma commit_crash_disk k : let d := apply_writes (take k (commit_writes s)) (bio_disk c) in
  hdr_ok start (d !!! start) ∧ hdr_n (d !!! start) < lg_size s ∧
  ∀ m, 0 ≤ m < start →
    logical start d !!! m = if decide (k ≤ n)%nat then bio_disk c !!! m else bio_cur c m.
Proof using Hinv Hh.
  pose proof (li_ok s Hinv) as Hok. pose proof (lo_n s Hok) as Hn. pose proof (lo_size s Hok).
  pose proof (li_head s Hinv) as Hhd. fold start c in Hhd.
  assert (∀ d : sectors, hdr_n (d !!! start) = 0 →
    hdr_ok start (d !!! start) ∧ hdr_n (d !!! start) < lg_size s) as H0
    by (intros d; apply hdr_ok_empty; lia).
  destruct (decide (lh_n s = 0)) as [E|Hpos].
  { unfold commit_writes. rewrite E. simpl. rewrite take_nil. simpl.
    destruct (H0 _ Hhd) as [??]. split_and!; [done|done|]. intros m Hm.
    rewrite logical_empty by done. case_decide; [done|]. symmetry. unfold c.
    apply clean_cur; [apply Hok|done| |destruct Hok; unfold start in *; lia].
    rewrite (li_dirty s Hinv). unfold logged. by rewrite E. }
  intros d. pose proof (commit_prefix k ltac:(lia)) as Hp. unfold d. case_decide as Hk.
  { rewrite Hp. pose proof (crash_before k start Hk ltac:(lia)) as Es.
    rewrite <- Es in Hhd. destruct (H0 _ Hhd) as [??]. split_and!; [done|done|].
    intros m Hm. rewrite logical_empty by done. apply crash_before; [done|lia]. }
  destruct Hp as (j & [-> | ->]); rewrite apply_writes_app; fold d1.
  - assert (apply_writes (take j (home_final s)) d1 !!! start = h) as ->.
    { rewrite apply_writes_notin_total, crash_d1_start; [done|]. rewrite fmap_take, home_final_fst.
      intros (i & Hi & _)%elem_of_take. apply list_elem_of_lookup_2, lo_home in Hi; [|done].
      unfold start in *. lia. }
    destruct crash_hdr_ok. split_and!; [done|done|]. intros m Hm.
    rewrite <- crash_installs, logical_prefix by by rewrite crash_d1_start. by apply crash_after.
  - rewrite apply_writes_app. simpl. set (d2 := <[start := _]> _).
    assert (hdr_n (d2 !!! start) = 0) as E2.
    { unfold d2. rewrite lookup_total_insert, decide_True by done. apply head_block_n; [done|].
      unfold h. rewrite length_head_block. apply crash_len. }
    destruct (H0 _ E2). split_and!; [done|done|]. intros m Hm. rewrite logical_empty by done.
    unfold d2. rewrite lookup_total_insert_ne by lia.
    rewrite <- crash_installs. by apply crash_after.
Qed.

(** No write of a commit goes to the super block. *)
Lemma commit_writes_sb k : apply_writes (take k (commit_writes s)) (bio_disk c) !!! 1 = bio_disk c !!! 1.
Proof using Hinv.
  apply apply_writes_notin_total. rewrite fmap_take. intros (i & Hi & _)%elem_of_take.
  apply list_elem_of_lookup_2 in Hi. revert Hi. pose proof (li_ok s Hinv) as Hok.
  pose proof (lo_start s Hok). unfold commit_writes. destruct (0 <? lh_n s); [|by intros ?%elem_of_nil].
  rewrite !fmap_app, !elem_of_app, log_area_fst, home_final_fst. csimpl.
  rewrite !list_elem_of_singleton. intros [?|[?|[Hi|?]]]; try lia.
  apply lo_home in Hi; [lia|done].
Qed.
End crash.
End log.

(** ** Adding a block to the transaction *)

Section log_write.
Context {C : Type} `{!BlockIO C} `{HC : !BlockIOSpec C}.
Implicit Types s : lstate C.

Lemma log_index_spec n i sec x : let j := log_index n i sec x in
  (i ≤ j ≤ i + n)%nat ∧ (∀ k, (i ≤ k < j)%nat → sec !!! k ≠ x) ∧
  ((j < i + n)%nat → sec !!! j = x).
Proof.
  revert i. induction n as [|n IH]; intros i; simpl; [split_and!; lia|].
  destruct (Z.eqb_spec (sec !!! i) x); [split_and!; (done || lia)|].
  destruct (IH (S i)) as ([? ?] & Hne & He). split_and!; [lia|lia| |intros; apply He; lia].
  intros k Hk. destruct (decide (k = i)) as [->|]; [done|]. apply Hne. lia.
Qed.

(** The transaction after [log_write] of block [n]. *)
Definition log_add (n : Z) (l : list Z) : list Z := if decide (n ∈ l) then l else l ++ [n].

Lemma log_write_logged s x : lh_ok s → lh_n s + 1 ≤ LOGSIZE →
  let i := log_index (Z.to_nat (lh_n s)) 0 (lh_sector s) x in
  (i < length (lh_sector s))%nat ∧
  take (Z.to_nat (if Z.of_nat i =? lh_n s then lh_n s + 1 else lh_n s)) (<[i := x]> (lh_sector s))
    = log_add x (logged s) ∧
  ((Z.of_nat i =? lh_n s) = true ↔ x ∉ logged s).
Proof.
  intros Hok Hn i. pose proof (lo_n s Hok). pose proof (lo_len s Hok) as Hl.
  destruct (log_index_spec (Z.to_nat (lh_n s)) 0 (lh_sector s) x) as (Hi & Hne & Heq). fold i in Hi, Hne, Heq.
  assert (i < length (lh_sector s))%nat as Hlt by (rewrite Hl; lia). split; [done|].
  unfold log_add. destruct (Z.eqb_spec (Z.of_nat i) (lh_n s)) as [E|E].
  - assert (x ∉ logged s) as Hx.
    { rewrite logged_eq, list_elem_of_fmap by done. intros (k & -> & Hk%elem_of_seq).
      apply (Hne k); [lia|done]. }
    rewrite decide_False by done. split; [|tauto].
    replace (Z.to_nat (lh_n s + 1)) with (S i) by lia. unfold logged.
    replace (Z.to_nat (lh_n s)) with i by lia.
    rewrite (take_S_r _ i x) by (rewrite list_lookup_insert_eq by done; done).
    by rewrite take_insert_ge by lia.
  - assert (x ∈ logged s) as Hx.
    { rewrite <- Heq by lia. eapply list_elem_of_lookup_2. apply logged_lookup; [done|lia]. }
    rewrite decide_True by done. split; [|split; [done|tauto]].
    rewrite list_insert_id; [done|]. rewrite <- Heq by lia. by apply arr_lookup.
Qed.

(** [log_write] of a held home block, with room in the log and an operation
    outstanding, pins the block and adds it to the transaction once. *)
Lemma log_write_wp s b n : log_inv s → bio_held (lg_cache s) !! b = Some n → 2 ≤ n →
  lh_n s < lg_size s - 1 → 1 ≤ lg_outstanding s →
  wp (log_write b) s (λ _ s', log_inv s' ∧ logged s' = log_add n (logged s) ∧
    lg_outstanding s' = lg_outstanding s ∧ lg_start s' = lg_start s ∧ lg_size s' = lg_size s ∧
    lg_committing s' = lg_committing s ∧
    bio_held (lg_cache s') = bio_held (lg_cache s) ∧
    bio_disk (lg_cache s') = bio_disk (lg_cache s) ∧
    bio_size (lg_cache s') = bio_size (lg_cache s) ∧
    bio_writes (lg_cache s') = bio_writes (lg_cache s) ∧
    ∀ m, bio_cur (lg_cache s') m = bio_cur (lg_cache s) m).
Proof.
  intros [Hok Hd Hnd Hhd Hh Hsb] Hb Hn2 Hroom Hout. pose proof (lo_size s Hok) as Hsz.
  pose proof (lo_n s Hok) as Hn. pose proof (lo_disk s Hok) as Hdk.
  destruct (bio_held_data _ b n (lo_inv s Hok) Hb) as (_ & Es & Hr).
  destruct (log_write_logged s n Hok ltac:(lia)) as (Hi & Hl & Hiff).
  unfold log_write. wps.
  replace ((LOGSIZE <=? lh_n s) || (lg_size s - 1 <=? lh_n s)) with false by (symmetry; lia).
  rewrite (proj2 (Z.ltb_ge _ _) Hout). rewrite Es, i32_small by lia.
  set (i := log_index _ _ _ _) in *. unfold store_sector. wps. rewrite decide_True by done. wps.
  destruct (set_buf_dirty_spec (lg_cache s) b n (lo_inv s Hok) Hb) as (I & Z1 & H1 & D1 & C1 & K1 & W1).
  assert (∀ s', lg_cache s' = set_buf_dirty b (lg_cache s) → lg_dev s' = lg_dev s →
    lg_start s' = lg_start s → lg_size s' = lg_size s → 0 ≤ lh_n s' < lg_size s →
    length (lh_sector s') = length (lh_sector s) → logged s' = log_add n (logged s) → log_inv s') as Hfin.
  { intros s' Ec Ed Est Esz En El Elg. constructor.
    - destruct (Hok). constructor; rewrite ?Ec, ?Ed, ?Est, ?Esz; try done; [lia|congruence|].
      intros m. rewrite Elg. unfold log_add. case_decide; [by apply lo_home|].
      rewrite elem_of_app, list_elem_of_singleton. intros [?| ->]; [by apply lo_home|].
      apply Hhd in Hb. lia.
    - rewrite Ec, D1, Elg, Hd. unfold log_add. case_decide; [|rewrite list_to_set_app_L; set_solver].
      apply set_eq. intros m. rewrite elem_of_union, elem_of_singleton, elem_of_list_to_set.
      naive_solver.
    - rewrite Elg. unfold log_add. case_decide; [done|]. apply NoDup_app. split_and!; [done| |apply NoDup_singleton].
      intros m Hm ->%list_elem_of_singleton. done.
    - rewrite Ec, H1, Est. done.
    - by rewrite Ec, K1, Est.
    - by rewrite Ec, K1, Est, Esz. }
  unfold kif. destruct (Z.of_nat i =? lh_n s) eqn:E; wps; (split; [apply Hfin|]);
    simpl; rewrite ?length_insert; try done; try lia; tauto.
Qed.
End log_write.
