(* ===== verification/Txn.v ===== *)
(** * The transaction interface

    What the log (log.c) promises to the file system (fs.c) inside a
    [begin_op]/[end_op] pair: the cache operations and [log_write], in terms of
    the current content of the home blocks, the blocks of the transaction and
    the buffers held.  [TxnSpec] is the contract; the instance at the end of
    the file discharges it for log.c over any block layer. *)

From stdpp Require Import base numbers option list gmap strings.
From S2P Require Import Prelude Bytes Block Log LogProofs.
Import Log.
Local Open Scope Z_scope.

Class TxnIO (S : Type) `{!BlockIO S} := {
  log_write : nat → kM S unit            (** [log_write(b)] *)
}.

(** What a transaction runs on: the content of the disk, the writes made to it so
    far, its size, and the number of operations that are running. *)
Record base := mkBase { base_disk : sectors; base_writes : list (Z * block); base_size : Z; base_ops : Z }.
Definition base_at (d : base) (n : Z) : block := base_disk d !!! n.
Coercion base_at : base >-> Funclass.

Class TxnSpec (S : Type) `{!BlockIO S} `{!TxnIO S} := {
  tx_inv : S → Prop;
  tx_home : S → Z;                  (** the home blocks are [0 .. tx_home - 1] *)
  tx_cap : S → Z;                   (** blocks a transaction can have *)
  tx_base : S → base;               (** the disk, as when the transaction started *)
  tx_cur : S → Z → block;
  tx_logged : S → gset Z;
  tx_held : S → gmap nat Z;

  tx_cap_bound s : tx_inv s → tx_cap s < NBUF;
  tx_held_data s b n : tx_inv s → tx_held s !! b = Some n →
    buf_data s b = tx_cur s n ∧ buf_sector s b = n ∧ 0 ≤ n < tx_home s;
  tx_held_inj s b b' n : tx_inv s →
    tx_held s !! b = Some n → tx_held s !! b' = Some n → b = b';
  tx_cur_length s n : tx_inv s → 0 ≤ n < tx_home s → length (tx_cur s n) = Z.to_nat BSIZE;
  tx_clean s n : tx_inv s → 0 ≤ n < tx_home s → n ∉ held_sectors (tx_held s) →
    n ∈ tx_logged s ∨ tx_cur s n = tx_base s n;

  tx_bread s n : tx_inv s → 0 ≤ n < tx_home s → n ∉ held_sectors (tx_held s) →
    Z.of_nat (size (tx_logged s)) + Z.of_nat (size (tx_held s)) < NBUF →
    wp (bread ROOTDEV n) s (λ b s', tx_inv s' ∧ tx_home s' = tx_home s ∧ tx_cap s' = tx_cap s ∧
      tx_base s' = tx_base s ∧ tx_held s !! b = None ∧ tx_held s' = <[b := n]> (tx_held s) ∧
      tx_logged s' = tx_logged s ∧ (∀ m, tx_cur s' m = tx_cur s m));
  tx_brelse s b n : tx_inv s → tx_held s !! b = Some n →
    n ∈ tx_logged s ∨ tx_cur s n = tx_base s n →
    wp (brelse b) s (λ _ s', tx_inv s' ∧ tx_home s' = tx_home s ∧ tx_cap s' = tx_cap s ∧
      tx_base s' = tx_base s ∧ tx_held s' = delete b (tx_held s) ∧
      tx_logged s' = tx_logged s ∧ (∀ m, tx_cur s' m = tx_cur s m));
  tx_set_data s b n d : tx_inv s → tx_held s !! b = Some n → length d = Z.to_nat BSIZE →
    let s' := set_buf_data b d s in
    tx_inv s' ∧ tx_home s' = tx_home s ∧ tx_cap s' = tx_cap s ∧
    tx_base s' = tx_base s ∧ tx_held s' = tx_held s ∧ tx_logged s' = tx_logged s ∧
    (∀ m, tx_cur s' m = if decide (m = n) then d else tx_cur s m);
  tx_log_write s b n : tx_inv s → tx_held s !! b = Some n → 2 ≤ n →
    Z.of_nat (size (tx_logged s)) < tx_cap s →
    wp (log_write b) s (λ _ s', tx_inv s' ∧ tx_home s' = tx_home s ∧ tx_cap s' = tx_cap s ∧
      tx_base s' = tx_base s ∧ tx_held s' = tx_held s ∧ tx_logged s' = {[n]} ∪ tx_logged s ∧
      (∀ m, tx_cur s' m = tx_cur s m))
}.

(** ** log.c implements it *)

Section log_txn.
Context {C : Type} `{!BlockIO C} `{HC : !BlockIOSpec C}.
Implicit Types s : lstate C.

#[export] Instance log_txn_ops : TxnIO (lstate C) := {| log_write := Log.log_write |}.

(** In a transaction: an operation is outstanding and no commit is running. *)
Definition txn_inv s : Prop := log_inv s ∧ 1 ≤ lg_outstanding s ∧ lg_committing s = false.

(** A cache operation that writes nothing keeps the log invariant. *)
Lemma log_inv_cache s c' : log_inv s → bio_inv c' → bio_size c' = bio_size (lg_cache s) →
  bio_dirty c' = bio_dirty (lg_cache s) → bio_disk c' = bio_disk (lg_cache s) →
  (∀ b n, bio_held c' !! b = Some n → n < lg_start s) → log_inv (set_cache c' s).
Proof.
  intros [] ? ? Hd Hk ?. constructor; try done; simpl.
  - by apply lh_ok_cache.
  - by rewrite Hd.
  - by rewrite Hk.
  - by rewrite Hk.
Qed.

Lemma held_sectors_size (h : gmap nat Z) (X : gset Z) (k : Z) :
  Z.of_nat (size X) + Z.of_nat (size h) < k → Z.of_nat (size (X ∪ held_sectors h)) < k.
Proof.
  intros Hk. eapply Z.le_lt_trans; [|exact Hk]. rewrite <- Nat2Z.inj_add. apply inj_le.
  rewrite size_union_alt. apply Nat.add_le_mono_l.
  transitivity (size (held_sectors h)); [apply subseteq_size; set_solver|].
  clear. unfold held_sectors. induction h as [|i x m Hi IH] using map_ind.
  - by rewrite map_img_empty_L, size_empty.
  - rewrite map_size_insert_None by done.
    rewrite (map_img_insert_notin_L _ _ _ Hi). rewrite size_union_alt, size_singleton.
    transitivity (S (size (map_img m ∖ {[x]} : gset Z))); [done|]. apply le_n_S.
    etransitivity; [|exact IH]. apply subseteq_size. set_solver.
Qed.

Lemma log_inv_size s : log_inv s → Z.of_nat (size (bio_dirty (lg_cache s))) = lh_n s.
Proof.
  intros [Hok -> Hnd _ _ _]. rewrite size_list_to_set, length_logged by done.
  pose proof (lo_n s Hok). lia.
Qed.

Lemma log_add_set n l : (list_to_set (log_add n l) : gset Z) = {[n]} ∪ list_to_set l.
Proof.
  unfold log_add. case_decide.
  - apply set_eq. intros m. rewrite elem_of_union, elem_of_singleton, elem_of_list_to_set. naive_solver.
  - rewrite list_to_set_app_L. set_solver.
Qed.

#[export] Program Instance log_txn_spec : TxnSpec (lstate C) := {|
  tx_inv := txn_inv;
  tx_home s := lg_start s;
  tx_cap s := lg_size s - 1;
  tx_base s := mkBase (bio_disk (lg_cache s)) (bio_writes (lg_cache s)) (bio_size (lg_cache s)) (lg_outstanding s);
  tx_cur s := bio_cur (lg_cache s);
  tx_logged s := bio_dirty (lg_cache s);
  tx_held s := bio_held (lg_cache s)
|}.
Next Obligation. intros s ([Hok _ _ _ _ _] & _). destruct Hok. unfold NBUF, LOGSIZE in *. lia. Qed.
Next Obligation.
  intros s b n ([Hok _ _ Hh _ _] & _) Hb. destruct (bio_held_data _ b n (lo_inv s Hok) Hb) as (? & ? & ?).
  specialize (Hh b n Hb). split_and!; [done|done|lia|done].
Qed.
Next Obligation. intros s b b' n ([Hok _ _ _ _ _] & _). apply bio_held_inj, Hok. Qed.
Next Obligation.
  intros s n ([Hok _ _ _ _ _] & _) Hn. apply bio_cur_length; [apply Hok|]. destruct Hok. lia.
Qed.
Next Obligation.
  intros s n ([Hok _ _ _ _ _] & _) Hn Hh. simpl in *.
  destruct (decide (n ∈ bio_dirty (lg_cache s))); [by left|right].
  apply bio_cur_clean; try done; [apply Hok|destruct Hok; lia].
Qed.
Next Obligation.
  intros s n (Hinv & Ho & Hc) Hn Hh Hsz. simpl in *. unfold lift. wps.
  pose proof (li_ok s Hinv) as Hok.
  wpa bread_spec; [apply Hok|destruct Hok; lia|done|right; by apply held_sectors_size|].
  intros b c1 (I1 & Z1 & N1 & H1 & D1 & C1 & K1 & W1). simpl. rewrite K1, W1, Z1.
  split_and!; try done. split; [|done]. apply log_inv_cache; try done.
  intros b' n'. rewrite H1, lookup_insert_Some.
  intros [[_ <-]|[_ Hb]]; [lia|]. by eapply (li_held s Hinv).
Qed.
Next Obligation.
  intros s b n (Hinv & Ho & Hc) Hb Hst. simpl in *. unfold lift. wps.
  pose proof (li_ok s Hinv) as Hok.
  wpa brelse_spec; [apply Hok|done|exact Hst|].
  intros _ c1 (I1 & Z1 & H1 & D1 & C1 & K1 & W1). simpl. rewrite K1, W1, Z1. split_and!; try done.
  split; [|done]. apply log_inv_cache; try done. intros b' n'. rewrite H1, lookup_delete_Some.
  intros [_ Hb']. by eapply (li_held s Hinv).
Qed.
Next Obligation.
  intros s b n d (Hinv & Ho & Hc) Hb Hl. simpl in *. pose proof (li_ok s Hinv) as Hok.
  destruct (set_buf_data_spec (lg_cache s) b n d (lo_inv s Hok) Hb Hl) as (I1 & Z1 & H1 & D1 & C1 & K1 & W1).
  rewrite K1, W1, Z1. split_and!; try done. split; [|done]. apply log_inv_cache; try done.
  rewrite H1. apply (li_held s Hinv).
Qed.
Next Obligation.
  intros s b n (Hinv & Ho & Hc) Hb Hn Hsz. simpl in *. rewrite log_inv_size in Hsz by done.
  wpa (log_write_wp s b n); try done.
  intros _ s' (Hinv' & El & Eo & Es & Ez & Ec & Eh & Ek & Ebs & Ew & Ecur). rewrite Ek, Ew, Ebs, Eo.
  assert (bio_dirty (lg_cache s') = {[n]} ∪ bio_dirty (lg_cache s)) as Ed.
  { by rewrite (li_dirty s' Hinv'), (li_dirty s Hinv), El, log_add_set. }
  split_and!; try done; try congruence. split_and!; [done|lia|congruence].
Qed.
End log_txn.

(** ** Runs of transaction operations

    [tgo s s' h W f]: from [s] to [s'] the blocks [W] have been added to the
    transaction, the buffers [h] are held and the content is [f]. *)

Section runs.
Context {T : Type} `{!BlockIO T} `{!TxnIO T} `{HT : !TxnSpec T}.
Implicit Types s : T.

Record tgo s s' (h : gmap nat Z) (W : gset Z) (f : Z → block) : Prop := mkTgo {
  tg_inv : tx_inv s';
  tg_home : tx_home s' = tx_home s;
  tg_cap : tx_cap s' = tx_cap s;
  tg_base : tx_base s' = tx_base s;
  tg_held : tx_held s' = h;
  tg_logged : tx_logged s' = W ∪ tx_logged s;
  tg_cur : ∀ m, tx_cur s' m = f m
}.

(** Content with block [n] replaced. *)
Definition fupd (f : Z → block) (n : Z) (d : block) : Z → block :=
  λ m, if decide (m = n) then d else f m.

Lemma tgo_refl s : tx_inv s → tgo s s (tx_held s) ∅ (tx_cur s).
Proof. intros. constructor; try done. by rewrite (left_id_L ∅ (∪)). Qed.

(** The number of blocks a run may still log and buffers it may still hold. *)
Definition troom s (W : gset Z) : Z :=
  tx_cap s - Z.of_nat (size (W ∪ tx_logged s)) - Z.of_nat (size (tx_held s)).

Lemma tgo_bread s s1 h W f n : tgo s s1 h W f → 0 ≤ n < tx_home s → n ∉ held_sectors h →
  Z.of_nat (size (W ∪ tx_logged s)) + Z.of_nat (size h) < NBUF →
  wp (bread ROOTDEV n) s1 (λ b s2, h !! b = None ∧ tgo s s2 (<[b := n]> h) W f ∧ buf_data s2 b = f n).
Proof.
  intros [I Hh Hc Hb Hd Hl Hf] Hn Hnh Hsz.
  wpa tx_bread; [done|by rewrite Hh|by rewrite Hd|by rewrite Hl, Hd|].
  intros b s2 (I2 & H2 & C2 & B2 & N2 & D2 & L2 & F2). rewrite Hd in N2, D2.
  split; [done|]. split; [constructor; congruence|].
  destruct (tx_held_data s2 b n I2) as (-> & _); [rewrite D2; apply lookup_insert_eq|].
  by rewrite F2.
Qed.

Lemma tgo_brelse s s1 h W f b n : tgo s s1 h W f → h !! b = Some n →
  n ∉ held_sectors (tx_held s) → n ∈ W ∨ f n = tx_cur s n → tx_inv s →
  wp (brelse b) s1 (λ _ s2, tgo s s2 (delete b h) W f).
Proof.
  intros [I Hh Hc Hb Hd Hl Hf] Hbn Hns Hst Hi.
  destruct (tx_held_data s1 b n I) as (_ & _ & Hr); [by rewrite Hd|].
  wpa tx_brelse; [done|by rewrite Hd| |].
  { rewrite Hl, Hf, Hb. destruct Hst as [?|Hst]; [set_solver|]. rewrite Hst.
    destruct (tx_clean s n) as [?|?]; try done; [by rewrite <- Hh|set_solver|by right]. }
  intros _ s2 (I2 & H2 & C2 & B2 & D2 & L2 & F2).
  constructor; congruence.
Qed.

Lemma tgo_set s s1 h W f b n d : tgo s s1 h W f → h !! b = Some n → length d = Z.to_nat BSIZE →
  tgo s (set_buf_data b d s1) h W (fupd f n d).
Proof.
  intros [I Hh Hc Hb Hd Hl Hf] Hbn Hlen.
  destruct (tx_set_data s1 b n d I) as (I2 & H2 & C2 & B2 & D2 & L2 & F2); [by rewrite Hd|done|].
  constructor; try congruence. intros m. rewrite F2. unfold fupd. case_decide; [done|]. apply Hf.
Qed.

Lemma tgo_log_write s s1 h W f b n : tgo s s1 h W f → h !! b = Some n → 2 ≤ n →
  Z.of_nat (size (W ∪ tx_logged s)) < tx_cap s →
  wp (log_write b) s1 (λ _ s2, tgo s s2 h ({[n]} ∪ W) f).
Proof.
  intros [I Hh Hc Hb Hd Hl Hf] Hbn Hn Hsz.
  wpa tx_log_write; [done|by rewrite Hd|done|by rewrite Hl, Hc|].
  intros _ s2 (I2 & H2 & C2 & B2 & D2 & L2 & F2). constructor; try congruence.
  rewrite L2, Hl. by rewrite (assoc_L (∪)).
Qed.
End runs.
