(* ===== verification/LogProps.v ===== *)
(** * Properties of the log

    Atomicity of commit under crashes, recovery, the effect of [log_write],
    and the admission protocol of [begin_op] and [end_op]. *)

From stdpp Require Import base numbers option list gmap strings.
From S2P Require Import Prelude Bytes Block Bio BioProps Log LogProofs Txn.
Import Log.
Local Open Scope Z_scope.


Section log.
Context {C : Type} `{!BlockIO C} `{HC : !BlockIOSpec C}.
Implicit Types s : lstate C.

(** The machine after a reboot with disk content [d] of [size] sectors: an
    empty cache and the zeroed [struct log]. *)
Record rebooted (size : Z) (d : sectors) s : Prop := mkRebooted {
  rb_inv : bio_inv (lg_cache s);
  rb_held : bio_held (lg_cache s) = ∅;
  rb_dirty : bio_dirty (lg_cache s) = ∅;
  rb_size : bio_size (lg_cache s) = size;
  rb_disk : bio_disk (lg_cache s) = d;
  rb_len : length (lh_sector s) = Z.to_nat LOGSIZE
}.

(** The invariant does not depend on the fields of the admission protocol. *)
Lemma log_inv_ctl s s' : log_inv s →
  lg_start s' = lg_start s → lg_size s' = lg_size s → lg_dev s' = lg_dev s → lh_n s' = lh_n s →
  lh_sector s' = lh_sector s → lg_cache s' = lg_cache s → log_inv s'.
Proof.
  destruct s, s'; simpl. intros [[] ? ? ? ? ?] -> -> -> -> -> ->.
  constructor; done || by constructor.
Qed.

Lemma initlog_wp start size s : boot_ok start size s →
  wp initlog s (λ _ s', log_inv s' ∧ lh_n s' = 0 ∧ lg_start s' = start ∧ lg_size s' = size ∧
    lg_outstanding s' = lg_outstanding s ∧ lg_committing s' = lg_committing s ∧
    bio_held (lg_cache s') = ∅ ∧ bio_size (lg_cache s') = bio_size (lg_cache s) ∧
    (∀ m, 0 ≤ m < start →
      bio_disk (lg_cache s') !!! m = logical start (bio_disk (lg_cache s)) !!! m ∧
      bio_cur (lg_cache s') m = logical start (bio_disk (lg_cache s)) !!! m) ∧
    ∃ hd, bio_writes (lg_cache s') =
      bio_writes (lg_cache s) ++ installs start (bio_disk (lg_cache s)) ++ [(start, hd)] ∧
      hdr_n hd = 0).
Proof.
  intros Hb. pose proof Hb as [? Hh Hd ? ? ? ? Hsb Hhdr ?].
  wpa initlog_run; [done|]. intros _ s' (c' & sec & -> & Hok & W). simpl. destruct W.
  set (h0 := head_block 0 sec _) in *. set (ws := installs start _) in *.
  assert (bio_dirty c' = ∅) as D by (by rewrite bs_dirty, Hd, empty_diff).
  assert (hdr_n h0 = 0) as Eh.
  { apply head_block_n; [done|]. rewrite <- (clean_cur (lg_cache s)) by (done || lia).
    apply bio_cur_length; [done|lia]. }
  assert (∀ m, 0 ≤ m < start → bio_disk c' !!! m = logical start (bio_disk (lg_cache s)) !!! m) as Hm.
  { intros m Hm. rewrite bs_disk, apply_writes_app. simpl. by rewrite lookup_total_insert_ne by lia. }
  assert (bio_disk c' !!! 1 = bio_disk (lg_cache s) !!! 1) as E1.
  { rewrite Hm by lia. apply apply_writes_notin_total. intros ?%installs_home; [lia|done]. }
  split_and!; try done.
  - constructor; simpl; try done; [apply NoDup_nil_2| | |].
    + intros b n. rewrite bs_held, Hh. by rewrite lookup_empty.
    + rewrite bs_disk, apply_writes_app. simpl. by rewrite lookup_total_insert, decide_True.
    + unfold sb_log. by rewrite E1.
  - by rewrite bs_held.
  - intros m Hr. split; [by apply Hm|]. rewrite clean_cur; [by apply Hm|done|by rewrite bs_held|done|lia].
  - by exists h0.
Qed.

Lemma rebooted_boot_ok s k s0 : log_inv s → bio_held (lg_cache s) = ∅ →
  rebooted (bio_size (lg_cache s))
    (apply_writes (take k (commit_writes s)) (bio_disk (lg_cache s))) s0 →
  boot_ok (lg_start s) (lg_size s) s0.
Proof.
  intros Hinv Hh []. destruct (commit_crash_disk s Hinv Hh k) as (Hk & Hs & _).
  pose proof (li_sb s Hinv) as Hsb. destruct (li_ok s Hinv).
  constructor; try done; rewrite ?rb_size0, ?rb_disk0; try done.
  unfold sb_log. by rewrite commit_writes_sb.
Qed.

(** What a reboot finds after [k] writes of a commit. *)
Lemma commit_crash s k s0 : log_inv s → bio_held (lg_cache s) = ∅ →
  rebooted (bio_size (lg_cache s)) (apply_writes (take k (commit_writes s)) (bio_disk (lg_cache s))) s0 →
  wp initlog s0 (λ _ s', log_inv s' ∧ lh_n s' = 0 ∧ lg_start s' = lg_start s ∧
    ((k ≤ Z.to_nat (lh_n s))%nat ∧ (∀ m, 0 ≤ m < lg_start s →
        bio_disk (lg_cache s') !!! m = bio_disk (lg_cache s) !!! m) ∨
     (Z.to_nat (lh_n s) < k)%nat ∧ (∀ m, 0 ≤ m < lg_start s →
        bio_disk (lg_cache s') !!! m = bio_cur (lg_cache s) m))).
Proof.
  intros Hinv Hh Hrb. pose proof (rebooted_boot_ok s k s0 Hinv Hh Hrb) as Hb.
  wpa initlog_wp; [done|]. simpl. intros _ s' (Hinv' & Hn & Hst & _ & _ & _ & _ & _ & Hm & _).
  split_and!; [done|done|done|].
  destruct (commit_crash_disk s Hinv Hh k) as (_ & _ & Hl). rewrite <- (rb_disk _ _ _ Hrb) in Hl.
  case_decide as Hk; [left|right]; (split; [lia|]); intros m Hr; rewrite (proj1 (Hm m Hr)), Hl by done; done.
Qed.

(** C2. Commit is atomic under crashes.  Let the machine stop after any number
    [k] of the disk writes of a commit and reboot: the disk writes are those
    of [commit_writes], and [initlog] restores a consistent log in which every
    home block has its content from before the transaction, if the header had
    not been written yet, or every home block has its content from after the
    transaction, if it had. *)
Theorem commit_atomic s k s0 : log_inv s → bio_held (lg_cache s) = ∅ →
  rebooted (bio_size (lg_cache s))
    (apply_writes (take k (commit_writes s)) (bio_disk (lg_cache s))) s0 →
  wp commit s (λ _ s', bio_writes (lg_cache s') = bio_writes (lg_cache s) ++ commit_writes s) ∧
  wp initlog s0 (λ _ s', log_inv s' ∧ lh_n s' = 0 ∧
    ((k ≤ Z.to_nat (lh_n s))%nat ∧ (∀ m, 0 ≤ m < lg_start s →
        bio_disk (lg_cache s') !!! m = bio_disk (lg_cache s) !!! m) ∨
     (Z.to_nat (lh_n s) < k)%nat ∧ (∀ m, 0 ≤ m < lg_start s →
        bio_disk (lg_cache s') !!! m = bio_cur (lg_cache s) m))).
Proof.
  intros Hinv Hh Hrb. split.
  - destruct (decide (0 < lh_n s)).
    + wpa commit_run; try done. intros _ s' (c' & -> & []). done.
    + unfold commit, commit_writes. wps. rewrite (proj2 (Z.ltb_ge _ _)) by lia.
      by rewrite wp_ret, app_nil_r.
  - wpa (commit_crash s k); try done. intros _ s' (? & ? & _ & ?). done.
Qed.

(** A complete commit ends with an empty header, after all home blocks. *)
Lemma commit_full s : log_inv s → 0 < lh_n s →
  (Z.to_nat (lh_n s) < length (commit_writes s))%nat ∧
  hdr_n (apply_writes (commit_writes s) (bio_disk (lg_cache s)) !!! lg_start s) = 0 ∧
  ∀ m, m ∈ logged s → m ∈ (commit_writes s).*1.
Proof.
  intros Hinv Hn. unfold commit_writes. rewrite (proj2 (Z.ltb_lt _ _) Hn). cbv zeta. split_and!.
  - rewrite !length_app, length_log_area. simpl. lia.
  - rewrite !apply_writes_app. simpl. rewrite lookup_total_insert, decide_True by done.
    apply head_block_n; [done|]. rewrite length_head_block. by apply crash_len.
  - intros m Hm. rewrite !fmap_app, !elem_of_app, home_final_fst. tauto.
Qed.

(** Without a crash, [commit] leaves an empty log and every home block on
    disk with its current content, which does not change. *)
Lemma commit_wp s : log_inv s → bio_held (lg_cache s) = ∅ →
  wp commit s (λ _ s', ∃ c', s' = set_cache c' (set_lh 0 (lh_sector s) s) ∧ log_inv s' ∧
    bio_held c' = ∅ ∧ bio_writes c' = bio_writes (lg_cache s) ++ commit_writes s ∧
    ∀ m, 0 ≤ m < lg_start s →
      bio_disk c' !!! m = bio_cur (lg_cache s) m ∧ bio_cur c' m = bio_cur (lg_cache s) m).
Proof.
  intros Hinv Hh. pose proof (li_ok s Hinv) as Hok.
  destruct (decide (lh_n s = 0)) as [E|Hn].
  { unfold commit. wps. rewrite E. simpl. rewrite wp_ret. exists (lg_cache s).
    assert (bio_dirty (lg_cache s) = ∅) as Hd by (rewrite (li_dirty s Hinv); unfold logged; by rewrite E).
    replace (set_cache (lg_cache s) (set_lh 0 (lh_sector s) s)) with s
      by (rewrite <- E; by destruct s). split_and!; try done.
    { unfold commit_writes. by rewrite E, app_nil_r. } intros m Hm.
    by rewrite clean_cur by (done || apply Hok || (destruct Hok; lia)). }
  pose proof (lo_n s Hok). wpa commit_run; try done; [lia|].
  intros _ s' (c' & -> & W). exists c'. split; [done|]. destruct W.
  destruct (commit_full s Hinv ltac:(lia)) as (Hlen & Hhd & Hsub).
  destruct (commit_crash_disk s Hinv Hh (length (commit_writes s))) as (_ & _ & Hl).
  pose proof (commit_writes_sb s Hinv (length (commit_writes s))) as Esb.
  rewrite take_ge, <- bs_disk in Hl, Esb by done. rewrite <- bs_disk in Hhd.
  assert (∀ m, 0 ≤ m < lg_start s → bio_disk c' !!! m = bio_cur (lg_cache s) m) as Hl'.
  { intros m Hm. specialize (Hl m Hm). by rewrite decide_False, logical_empty in Hl by (done || lia). }
  assert (bio_dirty c' = ∅) as D.
  { rewrite bs_dirty, (li_dirty s Hinv). apply set_eq. intros m.
    rewrite elem_of_difference, !elem_of_list_to_set, elem_of_empty. naive_solver. }
  split_and!; [|by rewrite bs_held|done|].
  - constructor; simpl; try done.
    + apply (lh_ok_clear (set_cache c' s)); [|apply Hok]. by apply lh_ok_cache.
    + apply NoDup_nil_2.
    + intros b n. rewrite bs_held, Hh. by rewrite lookup_empty.
    + unfold sb_log. rewrite Esb. apply Hinv.
  - intros m Hm. split; [by apply Hl'|]. rewrite clean_cur; [by apply Hl'|done|by rewrite bs_held|done|].
    rewrite bs_size. destruct Hok. lia.
Qed.

(** The writes of the last [end_op] are those of its commit. *)
Lemma end_op_last s : log_inv s → bio_held (lg_cache s) = ∅ → lg_outstanding s = 1 → lg_committing s = false →
  wp end_op s (λ _ s', log_inv s' ∧ lh_n s' = 0 ∧ lg_committing s' = false ∧ lg_outstanding s' = 0 ∧ lg_start s' = lg_start s ∧
    lg_wakes s' = lg_wakes s ++ [ChLog] ∧ bio_writes (lg_cache s') = bio_writes (lg_cache s) ++ commit_writes s ∧
    ∀ m, 0 ≤ m < lg_start s → bio_disk (lg_cache s') !!! m = bio_cur (lg_cache s) m ∧ bio_cur (lg_cache s') m = bio_cur (lg_cache s) m).
Proof.
  intros Hinv Hh Ho Hc. unfold end_op, end_op_enter. wps. rewrite Hc, (proj2 (Z.eqb_eq (lg_outstanding s - 1) 0)) by lia. wps.
  wpa (commit_wp (set_committing true (set_outstanding (lg_outstanding s - 1) s))); [by apply (log_inv_ctl s)|done|].
  intros _ s' (c' & -> & Hinv' & Hh' & Hw & Hm). unfold end_op_leave. wps.
  split_and!; try done; [by eapply log_inv_ctl|simpl; lia].
Qed.

(** [end_op] with no buffer held.  It only gives back the operation's
    reservation and wakes the waiters while other operations are running; the
    last one commits: the log is empty, every home block is on disk with its
    current content, the content is unchanged, and waiters are woken. *)
Theorem end_op_commits s : log_inv s → bio_held (lg_cache s) = ∅ →
  1 ≤ lg_outstanding s → lg_committing s = false →
  wp end_op s (λ _ s', log_inv s' ∧ lg_committing s' = false ∧
    lg_outstanding s' = lg_outstanding s - 1 ∧ lg_wakes s' = lg_wakes s ++ [ChLog] ∧
    (∀ m, 0 ≤ m < lg_start s → bio_cur (lg_cache s') m = bio_cur (lg_cache s) m) ∧
    if decide (lg_outstanding s = 1) then
      lh_n s' = 0 ∧ ∀ m, 0 ≤ m < lg_start s → bio_disk (lg_cache s') !!! m = bio_cur (lg_cache s) m
    else logged s' = logged s ∧ bio_disk (lg_cache s') = bio_disk (lg_cache s)).
Proof.
  intros Hinv Hh Ho Hc. destruct (decide (lg_outstanding s = 1)) as [E|E].
  - wpa end_op_last; try done. intros _ s' (? & ? & ? & ? & _ & ? & _ & Hm).
    split_and!; try done; [lia|intros m Hr; by apply Hm..].
  - unfold end_op, end_op_enter. wps. rewrite Hc, (proj2 (Z.eqb_neq (lg_outstanding s - 1) 0)) by lia. wps.
    split_and!; try done. by apply (log_inv_ctl s).
Qed.

(** The disk after a prefix of the writes of a recovery. *)
Lemma recovery_prefix start size d hd k : 2 ≤ start → 1 ≤ size → hdr_ok start (d !!! start) →
  hdr_n (d !!! start) < size → hdr_n hd = 0 →
  let d' := apply_writes (take k (installs start d ++ [(start, hd)])) d in
  hdr_ok start (d' !!! start) ∧ hdr_n (d' !!! start) < size ∧ d' !!! 1 = d !!! 1 ∧
  ∀ m, 0 ≤ m < start → logical start d' !!! m = logical start d !!! m.
Proof.
  intros Hst Hsz Hok Hn Hhd. cbv zeta.
  destruct (decide (k ≤ length (installs start d))%nat) as [Hk|Hk].
  - rewrite take_app_le by done.
    assert (∀ m, m < 2 ∨ start ≤ m →
      apply_writes (take k (installs start d)) d !!! m = d !!! m) as E.
    { intros m Hm. apply apply_writes_notin_total. rewrite fmap_take.
      intros (i & Hi & _)%elem_of_take. apply list_elem_of_lookup_2, installs_home in Hi; [lia|done]. }
    rewrite !E by lia. split_and!; try done. intros m _. by rewrite logical_prefix.
  - rewrite take_ge by (rewrite length_app; simpl; lia). rewrite apply_writes_app. simpl.
    set (d' := <[start := hd]> _).
    assert (d' !!! start = hd) as Es by (unfold d'; by rewrite lookup_total_insert, decide_True).
    destruct (hdr_ok_empty start size hd Hsz Hhd) as [??]. rewrite Es. split_and!; try done.
    + unfold d'. rewrite lookup_total_insert_ne by lia. apply apply_writes_notin_total.
      intros ?%installs_home; [lia|done].
    + intros m Hm. rewrite (logical_empty _ d') by by rewrite Es.
      unfold d'. by rewrite lookup_total_insert_ne by lia.
Qed.

(** C3. Recovery replays the log and survives crashes.  From any disk with a
    well-formed log, [initlog] leaves an empty log and every home block with
    the content the log gives it; and if the machine stops after any number of
    the disk writes of that recovery, the next boot's [initlog] reaches the
    same home content. *)
Theorem recovery_idempotent start size s : boot_ok start size s →
  wp initlog s (λ _ s', ∃ ws,
    bio_writes (lg_cache s') = bio_writes (lg_cache s) ++ ws ∧ log_inv s' ∧ lh_n s' = 0 ∧
    (∀ m, 0 ≤ m < start →
      bio_disk (lg_cache s') !!! m = logical start (bio_disk (lg_cache s)) !!! m) ∧
    ∀ k s0, rebooted (bio_size (lg_cache s)) (apply_writes (take k ws) (bio_disk (lg_cache s))) s0 →
      wp initlog s0 (λ _ s1, log_inv s1 ∧ lh_n s1 = 0 ∧ ∀ m, 0 ≤ m < start →
        bio_disk (lg_cache s1) !!! m = bio_disk (lg_cache s') !!! m)).
Proof.
  intros Hb. pose proof Hb as [? ? ? ? ? ? ? Hsb ? ?]. wpa initlog_wp; [done|]. simpl.
  intros _ s' (Hinv & Hn & _ & _ & _ & _ & _ & _ & Hm & hd & Hw & Hhd).
  eexists. split; [exact Hw|]. split; [done|]. split; [done|]. split; [intros m Hr; by apply Hm|].
  intros k s0 []. destruct (recovery_prefix start size (bio_disk (lg_cache s)) hd k)
    as (Hok & Hsz & E1 & Hl); try done; [lia|].
  assert (boot_ok start size s0) as Hb0.
  { constructor; rewrite ?rb_size0, ?rb_disk0; try done. unfold sb_log. by rewrite E1. }
  wpa initlog_wp; [done|]. simpl. intros _ s1 (Hinv1 & Hn1 & _ & _ & _ & _ & _ & _ & Hm1 & _).
  split_and!; [done|done|]. intros m Hr.
  rewrite (proj1 (Hm1 m Hr)), (proj1 (Hm m Hr)), rb_disk0. by apply Hl.
Qed.
End log.

(** ** A concrete file-system disk

    64 sectors, of which the last 30 are the log, as the super block says. *)

Definition sb_image (size nblocks ninodes nlog : Z) : block :=
  put32 (put32 (put32 (put32 zero_block 0 size) 4 nblocks) 8 ninodes) 12 nlog.

Definition disk64 : Bio.disk :=
  Bio.mkDisk 64 (<[1 := sb_image 64 20 8 30]> (Bio.memdisk (blank 64))) [].

Definition boot_state (dk : Bio.disk) : lstate Bio.bcache :=
  mkLog 0 0 0 false 0 0 (replicate (Z.to_nat LOGSIZE) 0) [] (Bio.mkBcache fresh_bufs dk []).

#[local] Existing Instances Bio.bio_ops Bio.bio_spec.
#[local] Opaque fresh_bufs.

Lemma disk64_lookup m : 0 ≤ m < 64 →
  Bio.memdisk disk64 !!! m = if decide (m = 1) then sb_image 64 20 8 30 else zero_block.
Proof.
  intros Hm. unfold disk64. cbn [Bio.memdisk]. case_decide; subst.
  - by rewrite lookup_total_insert, decide_True.
  - rewrite lookup_total_insert_ne by done. apply lookup_total_correct, blank_lookup. lia.
Qed.

Lemma disk64_ok : Bio.disk_ok disk64.
Proof.
  split; [cbn; lia|]. cbn [Bio.disksize disk64]. intros m Hm. rewrite disk64_lookup by done.
  case_decide; [vm_compute; reflexivity|done].
Qed.

Lemma boot64_rebooted : rebooted 64 (Bio.memdisk disk64) (boot_state disk64).
Proof.
  destruct (fresh_view disk64 [] disk64_ok) as (Hh & Hd & _).
  unfold boot_state. apply mkRebooted; cbn [lg_cache lh_sector].
  - exact (fresh_binv _ [] disk64_ok).
  - exact Hh.
  - exact Hd.
  - cbn [bio_size Bio.bio_spec]. reflexivity.
  - cbn [bio_disk Bio.bio_spec]. reflexivity.
  - apply length_replicate.
Qed.

Lemma boot64_ok : boot_ok 34 30 (boot_state disk64).
Proof.
  destruct boot64_rebooted as [Hi Hh Hd Hs Hk Hl].
  constructor; [exact Hi|exact Hh|exact Hd|exact Hl|lia|unfold LOGSIZE, MAXOPBLOCKS; lia|rewrite Hs; lia|..];
    rewrite Hk; clear.
  - unfold sb_log. rewrite disk64_lookup, decide_True by lia. vm_compute. auto.
  - rewrite disk64_lookup, decide_False by lia. apply hdr_ok_empty with (size := 1); [lia|].
    vm_compute. reflexivity.
  - rewrite disk64_lookup, decide_False by lia. vm_compute. reflexivity.
Qed.

(** A file-system operation that overwrites block [n] with [d], up to [end_op]. *)
Definition write_op {C} `{!BlockIO C} (n : Z) (d : block) : kM (lstate C) unit :=
  _ ← begin_op;
  b ← bread ROOTDEV n;
  _ ← modify (set_buf_data b d);
  _ ← Txn.log_write b;
  brelse b.

Section write_op.
Context {C : Type} `{!BlockIO C} `{HC : !BlockIOSpec C}.
Implicit Types s : lstate C.

Lemma begin_op_txn s : log_inv s → lg_committing s = false → 0 ≤ lg_outstanding s →
  lh_n s + (lg_outstanding s + 1) * MAXOPBLOCKS ≤ LOGSIZE →
  wp begin_op s (λ _ s', s' = set_outstanding (lg_outstanding s + 1) s ∧ txn_inv s').
Proof.
  intros Hinv Hc Ho Hn. unfold begin_op. wps. rewrite Hc, (proj2 (Z.ltb_ge _ _)) by lia. wps.
  split; [done|]. split_and!; [by apply (log_inv_ctl s)|simpl; lia|done].
Qed.

Lemma write_op_wp s n d : log_inv s → lg_committing s = false → lg_outstanding s = 0 →
  lh_n s = 0 → bio_held (lg_cache s) = ∅ → 2 ≤ n < lg_start s → 2 ≤ lg_size s →
  length d = Z.to_nat BSIZE →
  wp (write_op n d) s (λ _ s', txn_inv s' ∧ bio_held (lg_cache s') = ∅).
Proof.
  intros Hinv Hc Ho Hn Hh Hr Hsz Hd. unfold write_op.
  rewrite wp_bind. wpa begin_op_txn; [done|done|lia|by rewrite Hn, Ho|].
  intros _ s1 (-> & I1). set (s1 := set_outstanding _ _) in *.
  rewrite wp_bind. wpa tx_bread; [done|simpl; lia| | |].
  { simpl. rewrite Hh. unfold held_sectors. rewrite map_img_empty_L. apply not_elem_of_empty. }
  { simpl. rewrite Hh, map_size_empty, log_inv_size, Hn by done. done. }
  intros b s2 (I2 & M2 & P2 & _ & _ & H2 & L2 & _). rewrite wp_bind, wp_modify.
  assert (tx_held s2 !! b = Some n) as Hb by (rewrite H2; apply lookup_insert_eq).
  destruct (tx_set_data s2 b n d I2 Hb Hd) as (I3 & M3 & P3 & _ & H3 & L3 & _).
  set (s3 := set_buf_data b d s2) in *.
  rewrite wp_bind. wpa tx_log_write; [done|by rewrite H3|lia| |].
  { rewrite L3, L2, P3, P2. simpl. rewrite log_inv_size, Hn by done. lia. }
  intros _ s4 (I4 & M4 & P4 & _ & H4 & L4 & _).
  wpa tx_brelse; [done|by rewrite H4, H3|left; rewrite L4; set_solver|].
  intros _ s5 (I5 & _ & _ & _ & H5 & _). split; [done|].
  transitivity (tx_held s5); [done|]. rewrite H5, H4, H3, H2. simpl. rewrite Hh.
  by rewrite delete_insert_eq, delete_empty.
Qed.
End write_op.

(** Boot, and one operation that writes block 5. *)
Definition tx64 : lstate Bio.bcache :=
  final (_ ← initlog; write_op 5 (put32 zero_block 0 7)) (boot_state disk64).

Lemma tx64_ok : txn_inv tx64 ∧ bio_held (lg_cache tx64) = ∅.
Proof.
  apply (wp_final _ _ (λ s, txn_inv s ∧ bio_held (lg_cache s) = ∅)).
  rewrite wp_bind. wpa initlog_wp; [apply boot64_ok|].
  intros _ s1 (I1 & N1 & St1 & Sz1 & O1 & Cm1 & H1 & _).
  apply write_op_wp; [exact I1|exact Cm1|exact O1|exact N1|exact H1|lia|lia|].
  vm_compute. reflexivity.
Qed.

#[local] Transparent fresh_bufs.
Lemma tx64_run : lh_n tx64 = 1 ∧ lg_outstanding tx64 = 1 ∧ lg_size tx64 = 30 ∧ lg_start tx64 = 34.
Proof. vm_compute. auto. Qed.
#[local] Opaque fresh_bufs tx64.

(** The machine rebooted with the disk a crash in the commit of [tx64] leaves. *)
Definition crash64 (k : nat) : lstate Bio.bcache :=
  boot_state (Bio.mkDisk 64 (apply_writes (take k (commit_writes tx64)) (bio_disk (lg_cache tx64))) []).

#[local] Transparent fresh_bufs tx64.
Lemma crash64_disk : Bio.disk_ok (Bio.bdisk (lg_cache (crash64 2))) ∧ bio_size (lg_cache tx64) = 64.
Proof.
  split; [|vm_compute; reflexivity]. split; [vm_compute; split; [discriminate|reflexivity]|].
  assert (Forall (λ n, length (Bio.memdisk (Bio.bdisk (lg_cache (crash64 2))) !!! n) = Z.to_nat BSIZE)
    (seqZ 0 64)) as H by (apply (bool_decide_eq_true_1 _); vm_compute; reflexivity).
  intros n Hn. rewrite Forall_forall in H. apply H, elem_of_seqZ. exact Hn.
Qed.
#[local] Opaque fresh_bufs tx64.

Lemma crash64_rebooted : rebooted (bio_size (lg_cache tx64))
  (apply_writes (take 2 (commit_writes tx64)) (bio_disk (lg_cache tx64))) (crash64 2).
Proof.
  destruct crash64_disk as [Hok ->]. unfold crash64, boot_state in *. cbn [lg_cache Bio.bdisk] in Hok.
  destruct (fresh_view _ [] Hok) as (Hh & Hd & _).
  apply mkRebooted; cbn [lg_cache lh_sector].
  - exact (fresh_binv _ [] Hok).
  - exact Hh.
  - exact Hd.
  - cbn [bio_size Bio.bio_spec]. reflexivity.
  - cbn [bio_disk Bio.bio_spec]. reflexivity.
  - apply length_replicate.
Qed.

Lemma commit_atomic_witness : log_inv tx64 ∧ wp initlog (crash64 2) (λ _ s', log_inv s' ∧
  bio_disk (lg_cache s') !!! 5 = bio_cur (lg_cache tx64) 5).
Proof.
  destruct tx64_ok as [[Hinv _] Hh]. destruct tx64_run as (Hn & _ & _ & Hst).
  split; [exact Hinv|].
  destruct (commit_atomic tx64 2 (crash64 2) Hinv Hh crash64_rebooted) as [_ H].
  eapply wp_mono; [exact H|]. cbv beta. rewrite Hn, Hst.
  intros _ s' (Hinv' & _ & [[Hk _]|[_ Hm]]); [exfalso; change (Z.to_nat 1) with 1%nat in Hk; lia|].
  split; [exact Hinv'|]. apply Hm. lia.
Defined.

Lemma end_op_commits_witness : lg_outstanding tx64 = 1 ∧
  wp end_op tx64 (λ _ s', log_inv s' ∧ lh_n s' = 0 ∧
    bio_disk (lg_cache s') !!! 5 = bio_cur (lg_cache tx64) 5).
Proof.
  destruct tx64_ok as [(Hinv & Ho & Hc) Hh]. destruct tx64_run as (Hn & Ho1 & _ & Hst).
  split; [exact Ho1|].
  pose proof (end_op_commits tx64 Hinv Hh Ho Hc) as H.
  eapply wp_mono; [exact H|]. cbv beta. intros _ s' (Hinv' & _ & _ & _ & _ & Hd).
  rewrite (decide_True _ _ Ho1), Hst in Hd. destruct Hd as [H0 Hm].
  split; [exact Hinv'|]. split; [exact H0|]. apply Hm. lia.
Defined.

Lemma recovery_idempotent_witness : boot_ok 34 30 (boot_state disk64) ∧
  wp initlog (boot_state disk64) (λ _ s', log_inv s' ∧ lh_n s' = 0).
Proof.
  split; [exact boot64_ok|].
  eapply wp_mono; [exact (recovery_idempotent 34 30 (boot_state disk64) boot64_ok)|]. cbv beta.
  intros _ s' (ws & _ & Hinv & Hn & _). split; [exact Hinv|exact Hn].
Defined.
