(* ===== verification/LogProto.v ===== *)
(** * The admission protocol of the log

    [begin_op] reserves [MAXOPBLOCKS] log blocks for each operation and the
    last [end_op] commits.  The operations running are interleaved at the
    critical sections of log.c by the relation [op_step]; its reachable states
    are those of any schedule of file-system operations. *)

From stdpp Require Import base numbers option list gmap strings relations.
From S2P Require Import Prelude Bytes Block Bio BioProps Log LogProofs LogProps.
Import Log.
Local Open Scope Z_scope.

Section proto.
Context {C : Type} `{!BlockIO C}.
Implicit Types s : lstate C.







(** What [commit] may change of the log: the header and the cache. *)
Definition ctl s : Z * bool * nat * Z := (lg_outstanding s, lg_committing s, length (lh_sector s), lg_size s).
Definition same_lh s s' : Prop := ctl s' = ctl s ∧ lh_n s' = lh_n s.



#[local] Instance same_lh_refl : Reflexive same_lh.
Proof. by intros s. Qed.
#[local] Instance same_lh_trans : Transitive same_lh.
Proof. intros ??? [? ?] [? ?]. split; congruence. Qed.












End proto.

(** ** Three operations on the concrete disk *)

#[local] Existing Instances Bio.bio_ops.



(** [n] blocks from [lo] on are read, logged and released. *)
Definition log_blocks (lo : Z) (n : nat) : kM (lstate Bio.bcache) unit :=
  kfor n lo (λ i, b ← bread ROOTDEV i; _ ← log_write b; brelse b).

(** The reservation exceeds the capacity of the log that mkfs makes: with
    [nlog = LOGSIZE] one of the log's blocks is the header, and three admitted
    operations that write [MAXOPBLOCKS] distinct blocks each make [log_write]
    panic on the last block, while 29 blocks are accepted. *)
Theorem log_capacity_one_short :
  (_ ← initlog; _ ← begin_op; _ ← begin_op; _ ← begin_op;
   _ ← log_blocks 2 10; _ ← log_blocks 12 10; log_blocks 22 10) (boot_state disk64)
    = Panic "too big a transaction" ∧
  lh_n (final (_ ← initlog; _ ← begin_op; _ ← begin_op; _ ← begin_op;
    _ ← log_blocks 2 10; _ ← log_blocks 12 10; log_blocks 22 9) (boot_state disk64)) = 29.
Proof. split; vm_compute; reflexivity. Qed.
