(* ===== verification/Fs.v ===== *)
(** * The file system (fs.c)

    Block allocator, inodes, file content, directories and path names.  The
    allocator works on the transaction layer [T] alone; the rest on [fstate],
    the inode cache over [T].  An inode pointer is the index of its entry in
    the inode cache. *)

From stdpp Require Import base numbers option list gmap strings.
From S2P Require Import Prelude Bytes CString Block Log Txn.
Local Open Scope Z_scope.

Module Fs.

(** ** Layout (fs.h, param.h, stat.h) *)

Definition NDIRECT : Z := 12.
Definition NINDIRECT : Z := BSIZE / 4.
Definition MAXFILE : Z := NDIRECT + NINDIRECT.
Definition sizeof_dinode : Z := 64.
Definition IPB : Z := BSIZE / sizeof_dinode.
Definition IBLOCK (i : Z) : Z := i / IPB + 2.
Definition BPB : Z := BSIZE * 8.
Definition BBLOCK (b ninodes : Z) : Z := b / BPB + ninodes / IPB + 3.
Definition DIRSIZ : Z := 14.
Definition sizeof_dirent : Z := 16.
Definition ROOTINO : Z := 1.
Definition NINODE : Z := 50.
Definition NDEV : Z := 10.
Definition T_DIR : Z := 1.
Definition T_FILE : Z := 2.
Definition T_DEV : Z := 3.
Definition I_BUSY : Z := 1.
Definition I_VALID : Z := 2.

(** ** Blocks *)

(** [data[bi/8] & (1 << (bi % 8))], and setting and clearing that bit. *)
Definition bit_mask (bi : Z) : Z := Z.shiftl 1 (bi mod 8).
Definition bit_used (d : block) (bi : Z) : bool :=
  negb (Z.land (d !!! Z.to_nat (bi / 8)) (bit_mask bi) =? 0).
Definition bit_set (bi : Z) (d : block) : block :=
  <[Z.to_nat (bi / 8) := u8 (Z.lor (d !!! Z.to_nat (bi / 8)) (bit_mask bi))]> d.
Definition bit_clear (bi : Z) (d : block) : block :=
  <[Z.to_nat (bi / 8) := u8 (Z.land (d !!! Z.to_nat (bi / 8)) (Z.lnot (bit_mask bi)))]> d.

Section blocks.
Context {T : Type} `{!BlockIO T} `{!TxnIO T}.

Definition bzero (dev bno : Z) : kM T unit :=
  bp ← bread dev (u32 bno);
  _ ← modify (set_buf_data bp zero_block);
  _ ← log_write bp;
  brelse bp.

(** [for(bi = 0; bi < BPB && b + bi < sb.size; bi++)] up to the first free
    bit; [n] iterations are left before [bi] reaches [BPB]. *)
Fixpoint scan_bits (n : nat) (bi b size : Z) (d : block) : option Z :=
  match n with
  | O => None
  | S n' =>
      if b + bi <? size then
        if bit_used d bi then scan_bits n' (bi + 1) b size d else Some bi
      else None
  end.

(** [for(b = 0; b < sb.size; b += BPB)]; [n] bitmap blocks are left. *)
Fixpoint balloc_loop (n : nat) (dev b : Z) (sb : superblock) : kM T Z :=
  match n with
  | O => panic "balloc: out of blocks"
  | S n' =>
      bp ← bread dev (BBLOCK b (sb_ninodes sb));
      d ← gets (λ s, buf_data s bp);
      match scan_bits (Z.to_nat BPB) 0 b (sb_size sb) d with
      | Some bi =>
          _ ← modify (λ s, set_buf_data bp (bit_set bi (buf_data s bp)) s);
          _ ← log_write bp;
          _ ← brelse bp;
          _ ← bzero dev (b + bi);
          mret (b + bi)
      | None =>
          _ ← brelse bp;
          balloc_loop n' dev (b + BPB) sb
      end
  end.

Definition balloc (dev : Z) : kM T Z :=
  sb ← readsb dev;
  balloc_loop (Z.to_nat ((sb_size sb + BPB - 1) / BPB)) dev 0 sb.

Definition bfree (dev b : Z) : kM T unit :=
  sb ← readsb dev;
  bp ← bread dev (BBLOCK b (sb_ninodes sb));
  let bi := b mod BPB in
  d ← gets (λ s, buf_data s bp);
  if negb (bit_used d bi) then panic "freeing free block"
  else
    _ ← modify (λ s, set_buf_data bp (bit_clear bi (buf_data s bp)) s);
    _ ← log_write bp;
    brelse bp.
End blocks.

(** ** Inodes *)

(** struct inode (file.h). *)
Record inode := mkInode {
  i_dev : Z;
  i_inum : Z;
  i_ref : Z;
  i_flags : Z;
  i_type : Z;
  i_major : Z;
  i_minor : Z;
  i_nlink : Z;
  i_size : Z;
  i_addrs : list Z
}.

#[export] Instance inode_inhabited : Inhabited inode :=
  populate (mkInode 0 0 0 0 0 0 0 0 0 (replicate 13 0)).

Definition i_set_ref (r : Z) (ip : inode) : inode :=
  mkInode (i_dev ip) (i_inum ip) r (i_flags ip) (i_type ip) (i_major ip) (i_minor ip)
    (i_nlink ip) (i_size ip) (i_addrs ip).
Definition i_set_flags (f : Z) (ip : inode) : inode :=
  mkInode (i_dev ip) (i_inum ip) (i_ref ip) f (i_type ip) (i_major ip) (i_minor ip)
    (i_nlink ip) (i_size ip) (i_addrs ip).
Definition i_set_id (dev inum : Z) (ip : inode) : inode :=
  mkInode dev inum 1 0 (i_type ip) (i_major ip) (i_minor ip) (i_nlink ip) (i_size ip) (i_addrs ip).
Definition i_set_type (t : Z) (ip : inode) : inode :=
  mkInode (i_dev ip) (i_inum ip) (i_ref ip) (i_flags ip) t (i_major ip) (i_minor ip)
    (i_nlink ip) (i_size ip) (i_addrs ip).
Definition i_set_dev (major minor nlink : Z) (ip : inode) : inode :=
  mkInode (i_dev ip) (i_inum ip) (i_ref ip) (i_flags ip) (i_type ip) major minor nlink
    (i_size ip) (i_addrs ip).
Definition i_set_nlink (n : Z) (ip : inode) : inode :=
  i_set_dev (i_major ip) (i_minor ip) n ip.
Definition i_set_size (sz : Z) (ip : inode) : inode :=
  mkInode (i_dev ip) (i_inum ip) (i_ref ip) (i_flags ip) (i_type ip) (i_major ip) (i_minor ip)
    (i_nlink ip) sz (i_addrs ip).
Definition i_set_addrs (a : list Z) (ip : inode) : inode :=
  mkInode (i_dev ip) (i_inum ip) (i_ref ip) (i_flags ip) (i_type ip) (i_major ip) (i_minor ip)
    (i_nlink ip) (i_size ip) a.

(** The offset of [struct dinode] number [inum] in its block, and its fields:
    [type], [major], [minor], [nlink] are [short]s at 0, 2, 4, 6; [size] is at
    8 and [addrs] at 12. *)
Definition dinode_off (inum : Z) : nat := Z.to_nat (inum mod IPB * sizeof_dinode).

Definition dinode_type (d : block) (o : nat) : Z := i16 (get16 d o).

(** [*ip] with the fields copied from the disk inode at offset [o] of [d]. *)
Definition dinode_load (d : block) (o : nat) (ip : inode) : inode :=
  mkInode (i_dev ip) (i_inum ip) (i_ref ip) (i_flags ip)
    (i16 (get16 d o)) (i16 (get16 d (o + 2))) (i16 (get16 d (o + 4))) (i16 (get16 d (o + 6)))
    (get32 d (o + 8)) ((λ i, get32 d (o + 12 + 4 * i)%nat) <$> seq 0 13).

(** [memmove(dip->addrs, ip->addrs, sizeof(ip->addrs))]. *)
Definition put_addrs (d : block) (o : nat) (a : list Z) : block :=
  foldl (λ d i, put32 d (o + 4 * i) (a !!! i)) d (seq 0 13).

(** The block with the fields of [*ip] stored in the disk inode at [o]. *)
Definition dinode_store (d : block) (o : nat) (ip : inode) : block :=
  put_addrs (put32 (put16 (put16 (put16 (put16 d o (i_type ip)) (o + 2) (i_major ip))
    (o + 4) (i_minor ip)) (o + 6) (i_nlink ip)) (o + 8) (i_size ip)) (o + 12) (i_addrs ip).

Record fstate (T : Type) := mkFs {
  fs_inodes : list inode;         (** [icache.inode] *)
  fs_wakes : list chan;           (** channels of the [wakeup] calls made *)
  fs_txn : T
}.
Arguments mkFs {T} _ _ _.
Arguments fs_inodes {T} _. Arguments fs_wakes {T} _. Arguments fs_txn {T} _.

Section inodes.
Context {T : Type} `{!BlockIO T} `{!TxnIO T}.
Implicit Types s : fstate T.

Definition set_txn (t : T) (s : fstate T) : fstate T := mkFs (fs_inodes s) (fs_wakes s) t.
Definition lift {A} (m : kM T A) : kM (fstate T) A := zoom fs_txn set_txn m.
Definition inode_at (s : fstate T) (ip : nat) : inode := fs_inodes s !!! ip.
Definition upd_inode (ip : nat) (f : inode → inode) (s : fstate T) : fstate T :=
  mkFs (<[ip := f (inode_at s ip)]> (fs_inodes s)) (fs_wakes s) (fs_txn s).
Definition iwakeup (ip : nat) (s : fstate T) : fstate T :=
  mkFs (fs_inodes s) (fs_wakes s ++ [ChInode ip]) (fs_txn s).
Definition ibuf (s : fstate T) (bp : nat) : block := buf_data (fs_txn s) bp.
Definition set_ibuf (bp : nat) (d : block) (s : fstate T) : fstate T :=
  set_txn (set_buf_data bp d (fs_txn s)) s.

(** The scan of iget: the entry that caches the inode, or the first empty
    entry. *)
Fixpoint iget_scan (l : list inode) (i : nat) (empty : option nat) (dev inum : Z) :
    option nat * option nat :=
  match l with
  | [] => (None, empty)
  | ip :: l' =>
      if (0 <? i_ref ip) && (i_dev ip =? dev) && (i_inum ip =? inum) then (Some i, empty)
      else iget_scan l' (S i)
             (match empty with None => if i_ref ip =? 0 then Some i else None | _ => empty end)
             dev inum
  end.

Definition iget (dev inum : Z) : kM (fstate T) nat :=
  s ← kget;
  match iget_scan (fs_inodes s) 0 None dev inum with
  | (Some ip, _) =>
      _ ← modify (upd_inode ip (λ x, i_set_ref (i_ref x + 1) x));
      mret ip
  | (None, None) => panic "iget: no inodes"
  | (None, Some ip) =>
      _ ← modify (upd_inode ip (i_set_id dev inum));
      mret ip
  end.

(** [for(inum = 1; inum < sb.ninodes; inum++)]; [n] inodes are left. *)
Fixpoint ialloc_loop (n : nat) (dev inum type : Z) : kM (fstate T) nat :=
  match n with
  | O => panic "ialloc: no inodes"
  | S n' =>
      bp ← lift (bread dev (IBLOCK inum));
      d ← gets (λ s, ibuf s bp);
      if dinode_type d (dinode_off inum) =? 0 then
        _ ← modify (λ s, set_ibuf bp
              (put (ibuf s bp) (dinode_off inum) (replicate (Z.to_nat sizeof_dinode) 0)) s);
        _ ← modify (λ s, set_ibuf bp (put16 (ibuf s bp) (dinode_off inum) type) s);
        _ ← lift (log_write bp);
        _ ← lift (brelse bp);
        iget dev inum
      else
        _ ← lift (brelse bp);
        ialloc_loop n' dev (inum + 1) type
  end.

Definition ialloc (dev type : Z) : kM (fstate T) nat :=
  sb ← lift (readsb dev);
  ialloc_loop (Z.to_nat (sb_ninodes sb - 1)) dev 1 type.

Definition iupdate (ip : nat) : kM (fstate T) unit :=
  x ← gets (λ s, inode_at s ip);
  bp ← lift (bread (i_dev x) (IBLOCK (i_inum x)));
  _ ← modify (λ s, set_ibuf bp (dinode_store (ibuf s bp) (dinode_off (i_inum x)) x) s);
  _ ← lift (log_write bp);
  lift (brelse bp).

Definition idup (ip : nat) : kM (fstate T) nat :=
  _ ← modify (upd_inode ip (λ x, i_set_ref (i_ref x + 1) x));
  mret ip.

(** A process that finds [I_BUSY] set sleeps and then tests it again. *)
Definition ilock (ip : nat) : kM (fstate T) unit :=
  x ← gets (λ s, inode_at s ip);
  if i_ref x <? 1 then panic "ilock"
  else if flag (i_flags x) I_BUSY then sleep_on (ChInode ip)
  else
    _ ← modify (upd_inode ip (λ x, i_set_flags (setf (i_flags x) I_BUSY) x));
    if flag (i_flags x) I_VALID then mret tt
    else
      bp ← lift (bread (i_dev x) (IBLOCK (i_inum x)));
      d ← gets (λ s, ibuf s bp);
      _ ← modify (upd_inode ip (dinode_load d (dinode_off (i_inum x))));
      _ ← lift (brelse bp);
      _ ← modify (upd_inode ip (λ x, i_set_flags (setf (i_flags x) I_VALID) x));
      y ← gets (λ s, inode_at s ip);
      if i_type y =? 0 then panic "ilock: no type" else mret tt.

Definition iunlock (ip : nat) : kM (fstate T) unit :=
  x ← gets (λ s, inode_at s ip);
  if negb (flag (i_flags x) I_BUSY) || (i_ref x <? 1) then panic "iunlock"
  else
    _ ← modify (upd_inode ip (λ x, i_set_flags (clrf (i_flags x) I_BUSY) x));
    modify (iwakeup ip).

(** ** Inode content *)

Definition set_addr (ip : nat) (i : nat) (a : Z) : kM (fstate T) unit :=
  modify (upd_inode ip (λ x, i_set_addrs (<[i := a]> (i_addrs x)) x)).

(** [if((addr = ip->addrs[i]) == 0) ip->addrs[i] = addr = balloc(ip->dev)]. *)
Definition addr_alloc (ip : nat) (i : nat) : kM (fstate T) Z :=
  x ← gets (λ s, inode_at s ip);
  if i_addrs x !!! i =? 0 then
    addr ← lift (balloc (i_dev x));
    _ ← set_addr ip i addr;
    mret addr
  else mret (i_addrs x !!! i).

Definition bmap (ip : nat) (bn : Z) : kM (fstate T) Z :=
  if bn <? NDIRECT then addr_alloc ip (Z.to_nat bn)
  else
    let bn := bn - NDIRECT in
    if bn <? NINDIRECT then
      x ← gets (λ s, inode_at s ip);
      addr ← addr_alloc ip (Z.to_nat NDIRECT);
      bp ← lift (bread (i_dev x) addr);
      a ← gets (λ s, get32 (ibuf s bp) (4 * Z.to_nat bn));
      addr ← (if a =? 0 then
                addr ← lift (balloc (i_dev x));
                _ ← modify (λ s, set_ibuf bp (put32 (ibuf s bp) (4 * Z.to_nat bn) addr) s);
                _ ← lift (log_write bp);
                mret addr
              else mret a);
      _ ← lift (brelse bp);
      mret addr
    else panic "bmap: out of range".

Definition itrunc (ip : nat) : kM (fstate T) unit :=
  _ ← kfor (Z.to_nat NDIRECT) 0 (λ i,
        x ← gets (λ s, inode_at s ip);
        let a := i_addrs x !!! Z.to_nat i in
        if a =? 0 then mret tt
        else
          _ ← lift (bfree (i_dev x) a);
          set_addr ip (Z.to_nat i) 0);
  x ← gets (λ s, inode_at s ip);
  let ind := i_addrs x !!! Z.to_nat NDIRECT in
  _ ← (if ind =? 0 then mret tt
       else
         bp ← lift (bread (i_dev x) ind);
         _ ← kfor (Z.to_nat NINDIRECT) 0 (λ j,
               a ← gets (λ s, get32 (ibuf s bp) (4 * Z.to_nat j));
               if a =? 0 then mret tt else lift (bfree (i_dev x) a));
         _ ← lift (brelse bp);
         _ ← lift (bfree (i_dev x) ind);
         set_addr ip (Z.to_nat NDIRECT) 0);
  _ ← modify (upd_inode ip (i_set_size 0));
  iupdate ip.

Definition iput (ip : nat) : kM (fstate T) unit :=
  x ← gets (λ s, inode_at s ip);
  _ ← (if (i_ref x =? 1) && flag (i_flags x) I_VALID && (i_nlink x =? 0) then
         if flag (i_flags x) I_BUSY then panic "iput busy"
         else
           _ ← modify (upd_inode ip (λ x, i_set_flags (setf (i_flags x) I_BUSY) x));
           _ ← itrunc ip;
           _ ← modify (upd_inode ip (i_set_type 0));
           _ ← iupdate ip;
           _ ← modify (upd_inode ip (i_set_flags 0));
           modify (iwakeup ip)
       else mret tt);
  modify (upd_inode ip (λ x, i_set_ref (i_ref x - 1) x)).

Definition iunlockput (ip : nat) : kM (fstate T) unit :=
  _ ← iunlock ip;
  iput ip.

(** struct stat. *)
Record stat := mkStat { st_type : Z; st_dev : Z; st_ino : Z; st_nlink : Z; st_size : Z }.

Definition stati (ip : nat) : kM (fstate T) stat :=
  gets (λ s, let x := inode_at s ip in
    mkStat (i_type x) (i32 (i_dev x)) (i_inum x) (i_nlink x) (i_size x)).
End inodes.

(** ** Reading and writing *)

(** The device switch: [devsw[major].read] and [devsw[major].write], [None]
    being a null pointer.  A device's read yields its result and the bytes it
    stored; its write takes the bytes. *)
Record devsw (T : Type) := mkDevsw {
  dev_read : Z → option (nat → Z → kM (fstate T) (Z * bytes));
  dev_write : Z → option (nat → bytes → Z → kM (fstate T) Z)
}.
Arguments dev_read {T} _ _. Arguments dev_write {T} _ _.

Section content.
Context {T : Type} `{!BlockIO T} `{!TxnIO T}.
Variable dsw : devsw T.

(** [for(tot=0; tot<n; tot+=m, off+=m, dst+=m)]; each pass of the loop but the
    first and the last moves a whole block, so [n / BSIZE + 2] passes do. *)
Fixpoint readi_loop (fuel : nat) (ip : nat) (n tot off : Z) (dst : bytes) : kM (fstate T) bytes :=
  if tot <? n then
    match fuel with
    | O => panic "readi: loop bound"
    | S fuel' =>
        x ← gets (λ s, inode_at s ip);
        addr ← bmap ip (off / BSIZE);
        bp ← lift (bread (i_dev x) addr);
        let m := Z.min (n - tot) (BSIZE - off mod BSIZE) in
        d ← gets (λ s, slice (ibuf s bp) (Z.to_nat (off mod BSIZE)) (Z.to_nat m));
        _ ← lift (brelse bp);
        readi_loop fuel' ip n (tot + m) (off + m) (dst ++ d)
    end
  else mret dst.

(** The result is the return value and the bytes stored through [dst]. *)
Definition readi (ip : nat) (off n : Z) : kM (fstate T) (Z * bytes) :=
  x ← gets (λ s, inode_at s ip);
  if i_type x =? T_DEV then
    if (i_major x <? 0) || (NDEV <=? i_major x) then mret (-1, [])
    else match dev_read dsw (i_major x) with
         | None => mret (-1, [])
         | Some rd => rd ip n
         end
  else if (i_size x <? off) || (u32 (off + n) <? off) then mret (-1, [])
  else
    let n := if i_size x <? u32 (off + n) then i_size x - off else n in
    d ← readi_loop (Z.to_nat (n / BSIZE + 2)) ip n 0 off [];
    mret (i32 n, d).

Fixpoint writei_loop (fuel : nat) (ip : nat) (src : bytes) (n tot off : Z) : kM (fstate T) Z :=
  if tot <? n then
    match fuel with
    | O => panic "writei: loop bound"
    | S fuel' =>
        x ← gets (λ s, inode_at s ip);
        addr ← bmap ip (off / BSIZE);
        bp ← lift (bread (i_dev x) addr);
        let m := Z.min (n - tot) (BSIZE - off mod BSIZE) in
        _ ← modify (λ s, set_ibuf bp
              (put (ibuf s bp) (Z.to_nat (off mod BSIZE)) (slice src (Z.to_nat tot) (Z.to_nat m))) s);
        _ ← lift (log_write bp);
        _ ← lift (brelse bp);
        writei_loop fuel' ip src n (tot + m) (off + m)
    end
  else mret off.

Definition writei (ip : nat) (src : bytes) (off n : Z) : kM (fstate T) Z :=
  x ← gets (λ s, inode_at s ip);
  if i_type x =? T_DEV then
    if (i_major x <? 0) || (NDEV <=? i_major x) then mret (-1)
    else match dev_write dsw (i_major x) with
         | None => mret (-1)
         | Some wr => wr ip src n
         end
  else if (i_size x <? off) || (u32 (off + n) <? off) then mret (-1)
  else if MAXFILE * BSIZE <? u32 (off + n) then mret (-1)
  else
    off ← writei_loop (Z.to_nat (n / BSIZE + 2)) ip src n 0 off;
    y ← gets (λ s, inode_at s ip);
    _ ← (if (0 <? n) && (i_size y <? off) then
           _ ← modify (upd_inode ip (i_set_size off));
           iupdate ip
         else mret tt);
    mret (i32 n).

(** ** Directories *)

Definition namecmp (s t : list Z) : Z := CString.strncmp (Z.to_nat DIRSIZ) s t.

(** struct dirent: [inum] at 0, [name] at 2. *)
Definition de_inum (de : bytes) : Z := get16 de 0.
Definition de_name (de : bytes) : bytes := slice de 2 (Z.to_nat DIRSIZ).
Definition de_make (inum : Z) (name : bytes) : bytes := le16 inum ++ name.

(** [for(off = 0; off < dp->size; off += sizeof(de))]; the bound of [n] passes
    is the number of entries of the directory. *)
Fixpoint dirlookup_loop (n : nat) (dp : nat) (name : list Z) (off : Z) :
    kM (fstate T) (option (nat * Z)) :=
  x ← gets (λ s, inode_at s dp);
  if off <? i_size x then
    match n with
    | O => panic "dirlookup: loop bound"
    | S n' =>
        r ← readi dp off sizeof_dirent;
        if negb (r.1 =? sizeof_dirent) then panic "dirlink read"
        else if de_inum r.2 =? 0 then dirlookup_loop n' dp name (off + sizeof_dirent)
        else if namecmp name (de_name r.2) =? 0 then
          ip ← iget (i_dev x) (de_inum r.2);
          mret (Some (ip, off))
        else dirlookup_loop n' dp name (off + sizeof_dirent)
    end
  else mret None.

Definition dir_bound (size : Z) : nat := Z.to_nat (size / sizeof_dirent + 1).

(** The entry's inode, and the offset stored in [*poff]. *)
Definition dirlookup (dp : nat) (name : list Z) : kM (fstate T) (option (nat * Z)) :=
  x ← gets (λ s, inode_at s dp);
  if negb (i_type x =? T_DIR) then panic "dirlookup not DIR"
  else dirlookup_loop (dir_bound (i_size x)) dp name 0.

(** The offset of the first empty entry, or the size. *)
Fixpoint dirlink_scan (n : nat) (dp : nat) (off : Z) : kM (fstate T) Z :=
  x ← gets (λ s, inode_at s dp);
  if off <? i_size x then
    match n with
    | O => panic "dirlink: loop bound"
    | S n' =>
        r ← readi dp off sizeof_dirent;
        if negb (r.1 =? sizeof_dirent) then panic "dirlink read"
        else if de_inum r.2 =? 0 then mret off
        else dirlink_scan n' dp (off + sizeof_dirent)
    end
  else mret off.

Definition dirlink (dp : nat) (name : list Z) (inum : Z) : kM (fstate T) Z :=
  found ← dirlookup dp name;
  match found with
  | Some (ip, _) => _ ← iput ip; mret (-1)
  | None =>
      x ← gets (λ s, inode_at s dp);
      off ← dirlink_scan (dir_bound (i_size x)) dp 0;
      r ← writei dp (de_make inum (CString.strncpy (Z.to_nat DIRSIZ) name)) off sizeof_dirent;
      if negb (r =? sizeof_dirent) then panic "dirlink" else mret 0
  end.
End content.

(** ** Paths *)

Definition slash : Z := 47.

(** [while( *path == '/') path++]. *)
Fixpoint skip_slashes (path : list Z) : list Z :=
  match path with
  | c :: path' => if c =? slash then skip_slashes path' else path
  | [] => []
  end.

(** [while( *path != '/' && *path != 0) path++]: the element and the rest. *)
Fixpoint path_elem (path : list Z) : list Z * list Z :=
  match path with
  | c :: path' =>
      if (c =? slash) || (c =? 0) then ([], path)
      else let '(e, r) := path_elem path' in (c :: e, r)
  | [] => ([], [])
  end.

(** [name] is the buffer of [DIRSIZ] bytes; the result is the rest of the path
    and the new content of the buffer. *)
Definition skipelem (path name : list Z) : option (list Z * list Z) :=
  let path := skip_slashes path in
  if CString.deref path =? 0 then None
  else
    let '(s, rest) := path_elem path in
    let name' :=
      if Z.of_nat (length s) >=? DIRSIZ then take (Z.to_nat DIRSIZ) s
      else s ++ 0 :: drop (S (length s)) name in
    Some (skip_slashes rest, name').

Section paths.
Context {T : Type} `{!BlockIO T} `{!TxnIO T}.
Variable dsw : devsw T.

(** Each pass removes an element from the path, so the length of the path
    bounds the passes. *)
Fixpoint namex_loop (fuel : nat) (ip : nat) (path : list Z) (nameiparent : bool) (name : list Z) :
    kM (fstate T) (option nat * list Z) :=
  match skipelem path name with
  | None =>
      if nameiparent then _ ← iput ip; mret (None, name) else mret (Some ip, name)
  | Some (path', name') =>
      match fuel with
      | O => panic "namex: loop bound"
      | S fuel' =>
          _ ← ilock ip;
          x ← gets (λ s, inode_at s ip);
          if negb (i_type x =? T_DIR) then _ ← iunlockput ip; mret (None, name')
          else if nameiparent && (CString.deref path' =? 0) then
            _ ← iunlock ip; mret (Some ip, name')
          else
            next ← dirlookup dsw ip name';
            match next with
            | None => _ ← iunlockput ip; mret (None, name')
            | Some (next, _) => _ ← iunlockput ip; namex_loop fuel' next path' nameiparent name'
            end
      end
  end.

(** [cwd] is [proc->cwd]; the result is the inode, if found, and the content
    of [name]. *)
Definition namex (cwd : nat) (path : list Z) (nameiparent : bool) (name : list Z) :
    kM (fstate T) (option nat * list Z) :=
  ip ← (if CString.deref path =? slash then iget ROOTDEV ROOTINO else idup cwd);
  namex_loop (length path) ip path nameiparent name.

Definition namei (cwd : nat) (path : list Z) : kM (fstate T) (option nat) :=
  r ← namex cwd path false (replicate (Z.to_nat DIRSIZ) 0);
  mret r.1.

Definition nameiparent (cwd : nat) (path name : list Z) : kM (fstate T) (option nat * list Z) :=
  namex cwd path true name.
End paths.
End Fs.
