(* ===== verification/Kernel.v ===== *)
(** * The state of the kernel

    The state that file.c, proc.c, sysfile.c, sysproc.c, exec.c and trap.c
    work on: physical memory with its allocator, the file system, the file
    table, the pipes, the process table, the console and the tick counter, as
    seen by the CPU that runs.  [k_proc] is the per-CPU variable [proc].  A pipe is known
    by the address of its page, a file or process by its index in its table.
    A process that sleeps is marked so in the process table. *)

From stdpp Require Import base numbers option list gmap strings.
From S2P Require Import Prelude Bytes CString Kalloc Pipe Console Vm Block Log Txn Fs.
Local Open Scope Z_scope.

Module Kernel.
Import Kalloc Fs.

Definition NPROC : Z := 64.
Definition NOFILE : Z := 16.
Definition NFILE : Z := 100.
Definition NHANDLER : Z := 257.
Definition KSTACKSIZE : Z := 4096.

(** ** Processes (proc.h, x86.h) *)

Inductive procstate := UNUSED | EMBRYO | SLEEPING | RUNNABLE | RUNNING | ZOMBIE.
#[export] Instance procstate_eq_dec : EqDecision procstate.
Proof. solve_decision. Defined.

Record trapframe := mkTf {
  tf_edi : Z; tf_esi : Z; tf_ebp : Z; tf_oesp : Z; tf_ebx : Z; tf_edx : Z; tf_ecx : Z; tf_eax : Z;
  tf_gs : Z; tf_fs : Z; tf_es : Z; tf_ds : Z; tf_trapno : Z;
  tf_err : Z; tf_eip : Z; tf_cs : Z; tf_eflags : Z; tf_esp : Z; tf_ss : Z
}.

Definition tf_zero : trapframe := mkTf 0 0 0 0 0 0 0 0 0 0 0 0 0 0 0 0 0 0 0.

Definition tf_set_eax (v : Z) (t : trapframe) : trapframe :=
  mkTf (tf_edi t) (tf_esi t) (tf_ebp t) (tf_oesp t) (tf_ebx t) (tf_edx t) (tf_ecx t) v
    (tf_gs t) (tf_fs t) (tf_es t) (tf_ds t) (tf_trapno t) (tf_err t) (tf_eip t) (tf_cs t)
    (tf_eflags t) (tf_esp t) (tf_ss t).
Definition tf_set_eip_esp (eip esp : Z) (t : trapframe) : trapframe :=
  mkTf (tf_edi t) (tf_esi t) (tf_ebp t) (tf_oesp t) (tf_ebx t) (tf_edx t) (tf_ecx t) (tf_eax t)
    (tf_gs t) (tf_fs t) (tf_es t) (tf_ds t) (tf_trapno t) (tf_err t) eip (tf_cs t)
    (tf_eflags t) esp (tf_ss t).

(** Where a context resumes: [trapret] is the word above it on the stack. *)
Record context := mkContext { c_edi : Z; c_esi : Z; c_ebx : Z; c_ebp : Z; c_eip : Z }.

Record proc := mkProc {
  p_sz : Z;
  p_pgdir : Z;
  p_kstack : Z;
  p_state : procstate;
  p_pid : Z;
  p_parent : option nat;
  p_tf : trapframe;
  p_context : context;
  p_chan : option chan;
  p_killed : Z;
  p_ofile : list (option nat);
  p_cwd : option nat;
  p_name : bytes;
  p_handler : list Z
}.

(** A slot of the table at boot: the table is in the bss segment. *)
Definition proc_zero : proc :=
  mkProc 0 0 0 UNUSED 0 None tf_zero (mkContext 0 0 0 0 0) None 0 (replicate (Z.to_nat NOFILE) None)
    None (replicate 16 0) (replicate (Z.to_nat NHANDLER) 0).
#[export] Instance proc_inhabited : Inhabited proc := populate proc_zero.

Section setters.
Implicit Types p : proc.
Definition p_set_sz (v : Z) p : proc :=
  mkProc v (p_pgdir p) (p_kstack p) (p_state p) (p_pid p) (p_parent p) (p_tf p) (p_context p) (p_chan p)
    (p_killed p) (p_ofile p) (p_cwd p) (p_name p) (p_handler p).
Definition p_set_pgdir (v : Z) p : proc :=
  mkProc (p_sz p) v (p_kstack p) (p_state p) (p_pid p) (p_parent p) (p_tf p) (p_context p) (p_chan p)
    (p_killed p) (p_ofile p) (p_cwd p) (p_name p) (p_handler p).
Definition p_set_kstack (v : Z) p : proc :=
  mkProc (p_sz p) (p_pgdir p) v (p_state p) (p_pid p) (p_parent p) (p_tf p) (p_context p) (p_chan p)
    (p_killed p) (p_ofile p) (p_cwd p) (p_name p) (p_handler p).
Definition p_set_state (v : procstate) p : proc :=
  mkProc (p_sz p) (p_pgdir p) (p_kstack p) v (p_pid p) (p_parent p) (p_tf p) (p_context p) (p_chan p)
    (p_killed p) (p_ofile p) (p_cwd p) (p_name p) (p_handler p).
Definition p_set_pid (v : Z) p : proc :=
  mkProc (p_sz p) (p_pgdir p) (p_kstack p) (p_state p) v (p_parent p) (p_tf p) (p_context p) (p_chan p)
    (p_killed p) (p_ofile p) (p_cwd p) (p_name p) (p_handler p).
Definition p_set_parent (v : option nat) p : proc :=
  mkProc (p_sz p) (p_pgdir p) (p_kstack p) (p_state p) (p_pid p) v (p_tf p) (p_context p) (p_chan p)
    (p_killed p) (p_ofile p) (p_cwd p) (p_name p) (p_handler p).
Definition p_set_tf (v : trapframe) p : proc :=
  mkProc (p_sz p) (p_pgdir p) (p_kstack p) (p_state p) (p_pid p) (p_parent p) v (p_context p) (p_chan p)
    (p_killed p) (p_ofile p) (p_cwd p) (p_name p) (p_handler p).
Definition p_set_context (v : context) p : proc :=
  mkProc (p_sz p) (p_pgdir p) (p_kstack p) (p_state p) (p_pid p) (p_parent p) (p_tf p) v (p_chan p)
    (p_killed p) (p_ofile p) (p_cwd p) (p_name p) (p_handler p).
Definition p_set_chan (v : option chan) p : proc :=
  mkProc (p_sz p) (p_pgdir p) (p_kstack p) (p_state p) (p_pid p) (p_parent p) (p_tf p) (p_context p) v
    (p_killed p) (p_ofile p) (p_cwd p) (p_name p) (p_handler p).
Definition p_set_killed (v : Z) p : proc :=
  mkProc (p_sz p) (p_pgdir p) (p_kstack p) (p_state p) (p_pid p) (p_parent p) (p_tf p) (p_context p) (p_chan p)
    v (p_ofile p) (p_cwd p) (p_name p) (p_handler p).
Definition p_set_ofile (v : list (option nat)) p : proc :=
  mkProc (p_sz p) (p_pgdir p) (p_kstack p) (p_state p) (p_pid p) (p_parent p) (p_tf p) (p_context p) (p_chan p)
    (p_killed p) v (p_cwd p) (p_name p) (p_handler p).
Definition p_set_cwd (v : option nat) p : proc :=
  mkProc (p_sz p) (p_pgdir p) (p_kstack p) (p_state p) (p_pid p) (p_parent p) (p_tf p) (p_context p) (p_chan p)
    (p_killed p) (p_ofile p) v (p_name p) (p_handler p).
Definition p_set_name (v : bytes) p : proc :=
  mkProc (p_sz p) (p_pgdir p) (p_kstack p) (p_state p) (p_pid p) (p_parent p) (p_tf p) (p_context p) (p_chan p)
    (p_killed p) (p_ofile p) (p_cwd p) v (p_handler p).
Definition p_set_handler (v : list Z) p : proc :=
  mkProc (p_sz p) (p_pgdir p) (p_kstack p) (p_state p) (p_pid p) (p_parent p) (p_tf p) (p_context p) (p_chan p)
    (p_killed p) (p_ofile p) (p_cwd p) (p_name p) v.
End setters.

(** ** Open files (file.h) *)

Inductive fdtype := FD_NONE | FD_PIPE | FD_INODE.

Record file := mkFile {
  f_type : fdtype;
  f_ref : Z;
  f_readable : Z;
  f_writable : Z;
  f_pipe : Z;           (** the address of the pipe *)
  f_ip : nat;
  f_off : Z
}.
#[export] Instance file_inhabited : Inhabited file := populate (mkFile FD_NONE 0 0 0 0 0 0).

Definition f_set_ref (r : Z) (f : file) : file :=
  mkFile (f_type f) r (f_readable f) (f_writable f) (f_pipe f) (f_ip f) (f_off f).
Definition f_set_type (t : fdtype) (f : file) : file :=
  mkFile t (f_ref f) (f_readable f) (f_writable f) (f_pipe f) (f_ip f) (f_off f).
Definition f_set_off (o : Z) (f : file) : file :=
  mkFile (f_type f) (f_ref f) (f_readable f) (f_writable f) (f_pipe f) (f_ip f) o.

(** ** The kernel *)

(** [ptable] with [nextpid] and [initproc]. *)
Record ptab := mkPtab { pt_proc : list proc; pt_nextpid : Z; pt_initproc : option nat }.

(** The registers of the CPU that decide its address space and the kernel
    stack it enters on a trap: [cr3], [ts.ss0], [ts.esp0]. *)
Record cpuregs := mkCpuregs { r_cr3 : Z; r_ss0 : Z; r_esp0 : Z }.

Record kernel (T : Type) := mkKernel {
  k_kmem : kmem;
  k_fs : fstate T;
  k_ftable : list file;
  k_pipes : gmap Z Pipe.pipe;
  k_ptab : ptab;
  k_proc : option nat;
  k_ticks : Z;
  k_kpgdir : Z;
  k_cpu : cpuregs;
  k_cons : Console.cons;
  k_shift : Z;                   (** [shift] of kbdgetc *)
  k_outw : list (Z * Z)          (** the port writes of sys_halt *)
}.
Arguments mkKernel {T} _ _ _ _ _ _ _ _ _ _ _ _.
Arguments k_kmem {T} _. Arguments k_fs {T} _. Arguments k_ftable {T} _. Arguments k_pipes {T} _.
Arguments k_ptab {T} _. Arguments k_proc {T} _. Arguments k_ticks {T} _. Arguments k_kpgdir {T} _.
Arguments k_cpu {T} _. Arguments k_cons {T} _. Arguments k_shift {T} _. Arguments k_outw {T} _.

Section kernel.
Context {T : Type}.
Implicit Types k : kernel T.

Definition set_kmem (m : kmem) k : kernel T :=
  mkKernel m (k_fs k) (k_ftable k) (k_pipes k) (k_ptab k) (k_proc k) (k_ticks k) (k_kpgdir k)
    (k_cpu k) (k_cons k) (k_shift k) (k_outw k).
Definition set_fs (s : fstate T) k : kernel T :=
  mkKernel (k_kmem k) s (k_ftable k) (k_pipes k) (k_ptab k) (k_proc k) (k_ticks k) (k_kpgdir k)
    (k_cpu k) (k_cons k) (k_shift k) (k_outw k).
Definition set_ftable (l : list file) k : kernel T :=
  mkKernel (k_kmem k) (k_fs k) l (k_pipes k) (k_ptab k) (k_proc k) (k_ticks k) (k_kpgdir k)
    (k_cpu k) (k_cons k) (k_shift k) (k_outw k).
Definition set_pipes (m : gmap Z Pipe.pipe) k : kernel T :=
  mkKernel (k_kmem k) (k_fs k) (k_ftable k) m (k_ptab k) (k_proc k) (k_ticks k) (k_kpgdir k)
    (k_cpu k) (k_cons k) (k_shift k) (k_outw k).
Definition set_ptab (t : ptab) k : kernel T :=
  mkKernel (k_kmem k) (k_fs k) (k_ftable k) (k_pipes k) t (k_proc k) (k_ticks k) (k_kpgdir k)
    (k_cpu k) (k_cons k) (k_shift k) (k_outw k).
Definition set_proc (i : option nat) k : kernel T :=
  mkKernel (k_kmem k) (k_fs k) (k_ftable k) (k_pipes k) (k_ptab k) i (k_ticks k) (k_kpgdir k)
    (k_cpu k) (k_cons k) (k_shift k) (k_outw k).
Definition set_ticks (t : Z) k : kernel T :=
  mkKernel (k_kmem k) (k_fs k) (k_ftable k) (k_pipes k) (k_ptab k) (k_proc k) t (k_kpgdir k)
    (k_cpu k) (k_cons k) (k_shift k) (k_outw k).
Definition set_kpgdir (v : Z) k : kernel T :=
  mkKernel (k_kmem k) (k_fs k) (k_ftable k) (k_pipes k) (k_ptab k) (k_proc k) (k_ticks k) v
    (k_cpu k) (k_cons k) (k_shift k) (k_outw k).
Definition set_cpu (c : cpuregs) k : kernel T :=
  mkKernel (k_kmem k) (k_fs k) (k_ftable k) (k_pipes k) (k_ptab k) (k_proc k) (k_ticks k) (k_kpgdir k)
    c (k_cons k) (k_shift k) (k_outw k).
Definition set_cons (c : Console.cons) k : kernel T :=
  mkKernel (k_kmem k) (k_fs k) (k_ftable k) (k_pipes k) (k_ptab k) (k_proc k) (k_ticks k) (k_kpgdir k)
    (k_cpu k) c (k_shift k) (k_outw k).
Definition set_shift (v : Z) k : kernel T :=
  mkKernel (k_kmem k) (k_fs k) (k_ftable k) (k_pipes k) (k_ptab k) (k_proc k) (k_ticks k) (k_kpgdir k)
    (k_cpu k) (k_cons k) v (k_outw k).
Definition set_outw (l : list (Z * Z)) k : kernel T :=
  mkKernel (k_kmem k) (k_fs k) (k_ftable k) (k_pipes k) (k_ptab k) (k_proc k) (k_ticks k) (k_kpgdir k)
    (k_cpu k) (k_cons k) (k_shift k) l.
End kernel.

(** ** The process table *)

Definition proc_at (t : ptab) (i : nat) : proc := pt_proc t !!! i.
Definition upd_proc (i : nat) (f : proc → proc) (t : ptab) : ptab :=
  mkPtab (<[i := f (proc_at t i)]> (pt_proc t)) (pt_nextpid t) (pt_initproc t).

(** The loop of wakeup1 over the table. *)
Definition wakeup1 (c : chan) (t : ptab) : ptab :=
  mkPtab ((λ p, if decide (p_state p = SLEEPING ∧ p_chan p = Some c) then p_set_state RUNNABLE p else p)
            <$> pt_proc t) (pt_nextpid t) (pt_initproc t).

(** What sleep does before it calls sched. *)
Definition go_to_sleep (i : nat) (c : chan) (t : ptab) : ptab :=
  upd_proc i (λ p, p_set_state SLEEPING (p_set_chan (Some c) p)) t.

Section lift.
Context {T : Type}.

(** [cprintf(fmt, ...)]. *)
Definition kprintf (fmt : list Z) (args : list Console.arg) : kM (kernel T) unit :=
  match Console.cprintf fmt args with
  | None => panic "cprintf arguments"
  | Some cs =>
      s ← gets k_cons;
      match Console.consputs cs s with
      | None => panic "wild store"
      | Some s' => modify (set_cons s')
      end
  end.
Implicit Types k : kernel T.

(** [proc] is a null pointer only in the scheduler and before the first
    process runs; using it then is a fault in the kernel. *)
Definition myproc : kM (kernel T) nat :=
  k ← kget;
  match k_proc k with None => panic "trap" | Some i => mret i end.

Definition cur {A} (f : proc → A) : kM (kernel T) A :=
  i ← myproc;
  gets (λ k, f (proc_at (k_ptab k) i)).

Definition upd_at (i : nat) (f : proc → proc) : kM (kernel T) unit :=
  modify (λ k, set_ptab (upd_proc i f (k_ptab k)) k).

Definition upd_cur (f : proc → proc) : kM (kernel T) unit :=
  i ← myproc;
  upd_at i f.

Definition wakeup (c : chan) : kM (kernel T) unit :=
  modify (λ k, set_ptab (wakeup1 c (k_ptab k)) k).

Definition sleep {A} (c : chan) : kM (kernel T) A :=
  k ← kget;
  match k_proc k with
  | None => panic "sleep"
  | Some i =>
      _ ← modify (λ k, set_ptab (go_to_sleep i c (k_ptab k)) k);
      sleep_on c
  end.

(** A call into a component: when it sleeps, so does the process. *)
Definition call {S A} (get : kernel T → S) (set : S → kernel T → kernel T) (m : kM S A) : kM (kernel T) A := λ k,
  match m (get k) with
  | Ok a s => Ok a (set s k)
  | Panic msg => Panic msg
  | Sleep c s => sleep c (set s k)
  end.

Definition in_mem {A} (m : kM kmem A) : kM (kernel T) A := call k_kmem set_kmem m.
Definition in_fs {A} (m : kM (fstate T) A) : kM (kernel T) A := call k_fs set_fs m.
End lift.

(** ** User memory

    The address space the CPU is in: [va] as the paging hardware translates it
    in kernel mode (CR0.WP is set, so a write needs a writable page), to the
    address at which the kernel maps the same byte.  A fault is a trap taken
    in the kernel, which panics. *)

Definition translate (m : CString.mem) (pgdir va : Z) (wr : bool) : option Z :=
  let pde := load32 m (pgdir + 4 * Vm.PDX va) in
  if flag pde Vm.PTE_P && (negb wr || flag pde Vm.PTE_W) then
    let pte := load32 m (p2v (Vm.PTE_ADDR pde) + 4 * Vm.PTX va) in
    if flag pte Vm.PTE_P && (negb wr || flag pte Vm.PTE_W) then
      Some (p2v (Vm.PTE_ADDR pte) + va mod PGSIZE)
    else None
  else None.

Fixpoint user_load (n : nat) (m : CString.mem) (pgdir va : Z) : option bytes :=
  match n with
  | O => Some []
  | S n' =>
      a ← translate m pgdir va false;
      l ← user_load n' m pgdir (u32 (va + 1));
      Some (m a :: l)
  end.

Fixpoint user_store (l : bytes) (m : CString.mem) (pgdir va : Z) : option CString.mem :=
  match l with
  | [] => Some m
  | b :: l' =>
      a ← translate m pgdir va true;
      user_store l' (CString.store a b m) pgdir (u32 (va + 1))
  end.

Section user.
Context {T : Type}.

Definition uload (va n : Z) : kM (kernel T) bytes :=
  pgdir ← gets (λ k, p2v (r_cr3 (k_cpu k)));
  m ← gets (λ k, km_mem (k_kmem k));
  match user_load (Z.to_nat n) m pgdir va with
  | None => panic "trap"
  | Some l => mret l
  end.

Definition ustore (va : Z) (l : bytes) : kM (kernel T) unit :=
  pgdir ← gets (λ k, p2v (r_cr3 (k_cpu k)));
  m ← gets (λ k, km_mem (k_kmem k));
  match user_store l m pgdir va with
  | None => panic "trap"
  | Some m' => modify (λ k, set_kmem (set_mem (λ _, m') (k_kmem k)) k)
  end.

(** [*(int* )va] and [*(int* )va = v]. *)
Definition uload32 (va : Z) : kM (kernel T) Z :=
  l ← uload va 4;
  mret (get32 l 0).
Definition ustore32 (va v : Z) : kM (kernel T) unit := ustore va (le32 v).
End user.
End Kernel.
