(* ===== verification/File.v ===== *)
(** * Open files (file.c) and the pipes behind them (pipe.c)

    The file table with its reference counts, and reading, writing and closing
    through it.  An address is a user address; the bytes a call reads or writes
    there go through the page table of the process. *)

From stdpp Require Import base numbers option list gmap strings.
From S2P Require Import Prelude Bytes Kalloc Pipe Block Log Txn Fs Kernel.
Local Open Scope Z_scope.

(** A layer with file system operations (log.c). *)
Class OpIO (T : Type) := {
  begin_op : kM T unit;
  end_op : kM T unit
}.

#[export] Instance log_op_io {C} `{!BlockIO C} : OpIO (Log.lstate C) := {|
  begin_op := Log.begin_op;
  end_op := Log.end_op
|}.

Module File.
Import Kernel.

(** The table of file.c. *)
Definition file_at (l : list file) (f : nat) : file := l !!! f.
Definition upd_file (f : nat) (g : file → file) (l : list file) : list file := <[f := g (file_at l f)]> l.

(** The first entry with [ref == 0]. *)
Fixpoint free_file (l : list file) : option nat :=
  match l with
  | [] => None
  | f :: l' => if f_ref f =? 0 then Some 0%nat else S <$> free_file l'
  end.

Section file.
Context {T : Type} `{!BlockIO T} `{!TxnIO T} `{!OpIO T}.
Variables (kend : Z) (dsw : Fs.devsw T).
Implicit Types k : kernel T.

Definition get_file (f : nat) : kM (kernel T) file := gets (λ k, file_at (k_ftable k) f).
Definition set_file (f : nat) (g : file → file) : kM (kernel T) unit :=
  modify (λ k, set_ftable (upd_file f g (k_ftable k)) k).
Definition in_op {A} (m : kM T A) : kM (kernel T) A := in_fs (Fs.lift m).

Definition filealloc : kM (kernel T) (option nat) :=
  k ← kget;
  match free_file (k_ftable k) with
  | Some f => _ ← set_file f (f_set_ref 1); mret (Some f)
  | None => mret None
  end.

Definition filedup (f : nat) : kM (kernel T) nat :=
  x ← get_file f;
  if f_ref x <? 1 then panic "filedup"
  else
    _ ← set_file f (f_set_ref (f_ref x + 1));
    mret f.

(** ** Pipes *)

Definition pipe_chan (p : Z) (c : Pipe.pchan) : chan :=
  match c with Pipe.NRead => ChPipeRead p | Pipe.NWrite => ChPipeWrite p end.

Fixpoint wake_all (p : Z) (ws : list Pipe.pchan) : kM (kernel T) unit :=
  match ws with
  | [] => mret tt
  | c :: ws' => _ ← wakeup (pipe_chan p c); wake_all p ws'
  end.

Definition get_pipe (p : Z) : kM (kernel T) Pipe.pipe :=
  k ← kget;
  match k_pipes k !! p with None => panic "trap" | Some x => mret x end.
Definition set_pipe (p : Z) (x : Pipe.pipe) : kM (kernel T) unit :=
  modify (λ k, set_pipes (<[p := x]> (k_pipes k)) k).

Definition pipeclose (p : Z) (writable : bool) : kM (kernel T) unit :=
  x ← get_pipe p;
  let '(x', ws, freed) := Pipe.pipeclose writable x in
  _ ← set_pipe p x';
  _ ← wake_all p ws;
  if freed then
    _ ← modify (λ k, set_pipes (delete p (k_pipes k)) k);
    in_mem (Kalloc.kfree kend p)
  else mret tt.

Definition pipewrite (p addr n : Z) : kM (kernel T) Z :=
  killed ← cur p_killed;
  buf ← uload addr n;
  x ← get_pipe p;
  let '(x', ws, _, r) := Pipe.pipewrite buf 0 n (negb (killed =? 0)) x in
  _ ← set_pipe p x';
  _ ← wake_all p ws;
  match r with
  | Pipe.Return r => mret r
  | Pipe.Block c => sleep (pipe_chan p c)
  end.

Definition piperead (p addr n : Z) : kM (kernel T) Z :=
  killed ← cur p_killed;
  x ← get_pipe p;
  let '(x', ws, cs, r) := Pipe.piperead n (negb (killed =? 0)) x in
  _ ← set_pipe p x';
  _ ← ustore addr cs;
  _ ← wake_all p ws;
  match r with
  | Pipe.Return r => mret r
  | Pipe.Block c => sleep (pipe_chan p c)
  end.

(** ** Closing, reading and writing *)

Definition fileclose (f : nat) : kM (kernel T) unit :=
  x ← get_file f;
  if f_ref x <? 1 then panic "fileclose"
  else if 0 <? f_ref x - 1 then set_file f (f_set_ref (f_ref x - 1))
  else
    _ ← set_file f (λ x, f_set_type FD_NONE (f_set_ref 0 x));
    match f_type x with
    | FD_PIPE => pipeclose (f_pipe x) (negb (f_writable x =? 0))
    | FD_INODE =>
        _ ← in_op begin_op;
        _ ← in_fs (Fs.iput (f_ip x));
        in_op end_op
    | FD_NONE => mret tt
    end.

(** struct stat in memory: [type] is a short at 0, [dev] at 4, [ino] at 8,
    [nlink] a short at 12, [size] at 16; the padding is not written. *)
Definition store_stat (st : Z) (x : Fs.stat) : kM (kernel T) unit :=
  _ ← ustore st (le16 (Fs.st_type x));
  _ ← ustore32 (u32 (st + 4)) (Fs.st_dev x);
  _ ← ustore32 (u32 (st + 8)) (Fs.st_ino x);
  _ ← ustore (u32 (st + 12)) (le16 (Fs.st_nlink x));
  ustore32 (u32 (st + 16)) (Fs.st_size x).

Definition filestat (f : nat) (st : Z) : kM (kernel T) Z :=
  x ← get_file f;
  match f_type x with
  | FD_INODE =>
      _ ← in_fs (Fs.ilock (f_ip x));
      r ← in_fs (Fs.stati (f_ip x));
      _ ← store_stat st r;
      _ ← in_fs (Fs.iunlock (f_ip x));
      mret 0
  | _ => mret (-1)
  end.

Definition fileread (f : nat) (addr n : Z) : kM (kernel T) Z :=
  x ← get_file f;
  if f_readable x =? 0 then mret (-1)
  else match f_type x with
  | FD_PIPE => piperead (f_pipe x) addr n
  | FD_INODE =>
      _ ← in_fs (Fs.ilock (f_ip x));
      rd ← in_fs (Fs.readi dsw (f_ip x) (f_off x) (u32 n));
      _ ← ustore addr rd.2;
      _ ← kif (0 <? rd.1) (set_file f (λ y, f_set_off (u32 (f_off y + rd.1)) y));
      _ ← in_fs (Fs.iunlock (f_ip x));
      mret rd.1
  | FD_NONE => panic "fileread"
  end.

Definition filewrite_max : Z := (LOGSIZE - 1 - 1 - 2) / 2 * 512.

(** [while(i < n)]: [n / filewrite_max + 1] passes are enough. *)
Fixpoint filewrite_loop (fuel : nat) (f : nat) (addr n i : Z) : kM (kernel T) Z :=
  if i <? n then
    match fuel with
    | O => panic "filewrite: loop bound"
    | S fuel' =>
        let n1 := if filewrite_max <? n - i then filewrite_max else n - i in
        _ ← in_op begin_op;
        x ← get_file f;
        _ ← in_fs (Fs.ilock (f_ip x));
        src ← uload (u32 (addr + i)) n1;
        r ← in_fs (Fs.writei dsw (f_ip x) src (f_off x) n1);
        _ ← kif (0 <? r) (set_file f (λ y, f_set_off (u32 (f_off y + r)) y));
        _ ← in_fs (Fs.iunlock (f_ip x));
        _ ← in_op end_op;
        if r <? 0 then mret i
        else if negb (r =? n1) then panic "short filewrite"
        else filewrite_loop fuel' f addr n (i + r)
    end
  else mret i.

Definition filewrite (f : nat) (addr n : Z) : kM (kernel T) Z :=
  x ← get_file f;
  if f_writable x =? 0 then mret (-1)
  else match f_type x with
  | FD_PIPE => pipewrite (f_pipe x) addr n
  | FD_INODE =>
      i ← filewrite_loop (Z.to_nat (n / filewrite_max + 1)) f addr n 0;
      mret (if i =? n then n else -1)
  | FD_NONE => panic "filewrite"
  end.

(** ** pipealloc *)

Definition close_opt (f : option nat) : kM (kernel T) unit :=
  match f with Some f => fileclose f | None => mret tt end.

(** The code after [bad]; at each [goto] the pipe has not been allocated. *)
Definition pipealloc_bad (f0 f1 : option nat) : kM (kernel T) (option (nat * nat)) :=
  _ ← close_opt f0;
  _ ← close_opt f1;
  mret None.

(** The pipe's page keeps the bytes it had. *)
Definition page_bytes (k : kernel T) (p : Z) : list Z :=
  (λ i : nat, Kalloc.km_mem (k_kmem k) (p + Z.of_nat i)) <$> seq 0 (Z.to_nat Pipe.PIPESIZE).

Definition f_set_pipe (rd wr p : Z) (f : file) : file := mkFile FD_PIPE (f_ref f) rd wr p (f_ip f) (f_off f).

Definition pipealloc : kM (kernel T) (option (nat * nat)) :=
  f0 ← filealloc;
  match f0 with
  | None => pipealloc_bad None None
  | Some f0 =>
      f1 ← filealloc;
      match f1 with
      | None => pipealloc_bad (Some f0) None
      | Some f1 =>
          p ← in_mem Kalloc.kalloc;
          if p =? 0 then pipealloc_bad (Some f0) (Some f1)
          else
            _ ← modify (λ k, set_pipes (<[p := Pipe.pipe_init (page_bytes k p)]> (k_pipes k)) k);
            _ ← set_file f0 (f_set_pipe 1 0 p);
            _ ← set_file f1 (f_set_pipe 0 1 p);
            mret (Some (f0, f1))
      end
  end.
End file.
End File.
