(* ===== verification/Proc.v ===== *)
(** * Processes (proc.c)

    The process table and the life of a process: creation, growth, exit, wait,
    sleep, wakeup, kill and scheduling.  The table operations that run under
    [ptable.lock] are functions on [ptab]; the handlers around them run on the
    kernel state.  [exit] and [yield] end in [sched], which gives the CPU back
    to the scheduler. *)

From stdpp Require Import base numbers option list gmap strings.
From S2P Require Import Prelude Bytes CString Kalloc Console Vm Spinlock Block Log Txn Fs Kernel File.
Local Open Scope Z_scope.

Module Proc.
Import Kernel.

Definition SEG_KDATA : Z := 2.
Definition SEG_UCODE : Z := 4.
Definition SEG_UDATA : Z := 5.
Definition DPL_USER : Z := 3.

(** ** The table *)

(** [for(p = ptable.proc; p < &ptable.proc[NPROC]; p++)] up to the first entry
    that satisfies [f]. *)
Fixpoint first (f : proc → bool) (l : list proc) : option nat :=
  match l with
  | [] => None
  | p :: l' => if f p then Some 0%nat else S <$> first f l'
  end.

Definition is_state (st : procstate) (p : proc) : bool := bool_decide (p_state p = st).

(** The part of allocproc under the lock. *)
Definition init_slot (pid : Z) (p : proc) : proc :=
  p_set_handler (replicate 256 (-1) ++ drop 256 (p_handler p)) (p_set_pid pid (p_set_state EMBRYO p)).

Definition alloc_slot (t : ptab) : option (nat * ptab) :=
  i ← first (is_state UNUSED) (pt_proc t);
  let t' := upd_proc i (init_slot (pt_nextpid t)) t in
  Some (i, mkPtab (pt_proc t') (i32 (pt_nextpid t + 1)) (pt_initproc t')).

(** [p->parent == q]. *)
Definition is_child (q : nat) (p : proc) : bool := bool_decide (p_parent p = Some q).

(** The loop of exit that passes the children of [i] to init; the number of
    entries left is [n]. *)
Fixpoint reparent_loop (n : nat) (j i : nat) (t : ptab) : ptab :=
  match n with
  | O => t
  | S n' =>
      let t' :=
        if is_child i (proc_at t j) then
          let t1 := upd_proc j (p_set_parent (pt_initproc t)) t in
          if is_state ZOMBIE (proc_at t1 j) then
            match pt_initproc t1 with Some q => wakeup1 (ChProc q) t1 | None => t1 end
          else t1
        else t in
      reparent_loop n' (S j) i t'
  end.

(** The part of exit under the lock. *)
Definition exit_table (i : nat) (t : ptab) : ptab :=
  let t1 := match p_parent (proc_at t i) with Some q => wakeup1 (ChProc q) t | None => t end in
  let t2 := reparent_loop (length (pt_proc t1)) 0 i t1 in
  upd_proc i (p_set_state ZOMBIE) t2.

(** The scan of wait: the first zombie child and [havekids]. *)
Definition zombie_child (i : nat) (p : proc) : bool := is_child i p && is_state ZOMBIE p.
Definition wait_scan (i : nat) (t : ptab) : option nat * bool :=
  (first (zombie_child i) (pt_proc t), existsb (is_child i) (pt_proc t)).

(** What wait does to the slot of the child. *)
Definition reap_slot (p : proc) : proc :=
  p_set_killed 0 (p_set_name (<[0%nat := 0]> (p_name p)) (p_set_parent None
    (p_set_pid 0 (p_set_state UNUSED (p_set_kstack 0 p))))).

(** The loop of kill: the result is [None] when no process has the pid. *)
Definition kill_slot (p : proc) : proc :=
  let p := p_set_killed 1 p in
  if is_state SLEEPING p then p_set_state RUNNABLE p else p.
Definition kill_table (pid : Z) (t : ptab) : option ptab :=
  i ← first (λ p, p_pid p =? pid) (pt_proc t);
  Some (upd_proc i kill_slot t).

Section proc.
Context {T : Type} `{!BlockIO T} `{!TxnIO T} `{!OpIO T}.
Variables (kend data : Z) (dsw : Fs.devsw T).
(** The address of forkret, and the image of initcode.S that the linker
    embeds. *)
Variables (forkret_addr : Z) (initcode : bytes).
Implicit Types k : kernel T.

(** ** Address spaces (vm.c) *)

Definition lcr3 (v : Z) k : kernel T := set_cpu (mkCpuregs v (r_ss0 (k_cpu k)) (r_esp0 (k_cpu k))) k.

Definition switchkvm : kM (kernel T) unit := modify (λ k, lcr3 (Kalloc.v2p (k_kpgdir k)) k).

Definition kvmalloc : kM (kernel T) unit :=
  d ← in_mem (Vm.setupkvm data);
  _ ← modify (set_kpgdir d);
  switchkvm.

Definition switchuvm (i : nat) : kM (kernel T) unit :=
  kstack ← cur p_kstack;
  _ ← modify (λ k, set_cpu (mkCpuregs (r_cr3 (k_cpu k)) (SEG_KDATA * 8) (u32 (kstack + KSTACKSIZE))) k);
  p ← gets (λ k, proc_at (k_ptab k) i);
  if p_pgdir p =? 0 then panic "switchuvm: no pgdir"
  else modify (lcr3 (Kalloc.v2p (p_pgdir p))).

(** ** Creation *)

Definition allocproc : kM (kernel T) (option nat) :=
  k ← kget;
  match alloc_slot (k_ptab k) with
  | None => mret None
  | Some (i, t) =>
      _ ← modify (set_ptab t);
      s ← in_mem Kalloc.kalloc;
      _ ← upd_at i (p_set_kstack s);
      if s =? 0 then _ ← upd_at i (p_set_state UNUSED); mret None
      else
        _ ← upd_at i (p_set_context (mkContext 0 0 0 0 forkret_addr));
        mret (Some i)
  end.

(** The trap frame of the first process. *)
Definition init_tf : trapframe :=
  let ds := Z.lor (SEG_UDATA * 8) DPL_USER in
  mkTf 0 0 0 0 0 0 0 0 0 0 ds ds 0 0 0 (Z.lor (SEG_UCODE * 8) DPL_USER) Spinlock.FL_IF Kalloc.PGSIZE ds.

(** "initcode" and "/". *)
Definition initcode_name : bytes := [105; 110; 105; 116; 99; 111; 100; 101].
Definition root_path : bytes := [47].

Definition copy_name (src : bytes) (p : proc) : proc :=
  p_set_name (Bytes.put (p_name p) 0 (CString.safestrcpy 16 src)) p.

(** [p] is used without a test that allocproc found a slot. *)
Definition userinit : kM (kernel T) unit :=
  p ← allocproc;
  _ ← modify (λ k, set_ptab (mkPtab (pt_proc (k_ptab k)) (pt_nextpid (k_ptab k)) p) k);
  match p with
  | None => panic "trap"
  | Some i =>
      d ← in_mem (Vm.setupkvm data);
      _ ← upd_at i (p_set_pgdir d);
      if d =? 0 then panic "userinit: out of memory?"
      else
        _ ← in_mem (Vm.inituvm d initcode);
        _ ← upd_at i (p_set_sz Kalloc.PGSIZE);
        _ ← upd_at i (p_set_tf init_tf);
        _ ← upd_at i (copy_name initcode_name);
        ip ← in_fs (Fs.namei dsw 0 root_path);
        _ ← upd_at i (p_set_cwd ip);
        upd_at i (p_set_state RUNNABLE)
  end.

Definition growproc (n : Z) : kM (kernel T) Z :=
  i ← myproc;
  sz ← cur p_sz;
  pgdir ← cur p_pgdir;
  sz' ← (if 0 <? n then in_mem (Vm.allocuvm kend pgdir sz (u32 (sz + n)))
         else if n <? 0 then in_mem (Vm.deallocuvm kend pgdir sz (u32 (sz + n)))
         else mret sz);
  if negb (n =? 0) && (sz' =? 0) then mret (-1)
  else
    _ ← upd_cur (p_set_sz sz');
    _ ← switchuvm i;
    mret 0.

Definition dup_fd (np : nat) (fd : Z) : kM (kernel T) unit :=
  fs ← cur p_ofile;
  match fs !!! Z.to_nat fd with
  | None => mret tt
  | Some f =>
      g ← File.filedup f;
      upd_at np (λ p, p_set_ofile (<[Z.to_nat fd := Some g]> (p_ofile p)) p)
  end.

(** [idup(proc->cwd)]; [cwd] is never null in a running process. *)
Definition dup_cwd (np : nat) : kM (kernel T) unit :=
  cwd ← cur p_cwd;
  match cwd with
  | None => panic "trap"
  | Some ip =>
      ip ← in_fs (Fs.idup ip);
      upd_at np (p_set_cwd (Some ip))
  end.

Definition fork : kM (kernel T) Z :=
  np ← allocproc;
  match np with
  | None => mret (-1)
  | Some np =>
      i ← myproc;
      pgdir ← cur p_pgdir;
      sz ← cur p_sz;
      d ← in_mem (Vm.copyuvm kend data pgdir sz);
      _ ← upd_at np (p_set_pgdir d);
      if d =? 0 then
        kstack ← gets (λ k, p_kstack (proc_at (k_ptab k) np));
        _ ← in_mem (Kalloc.kfree kend kstack);
        _ ← upd_at np (p_set_kstack 0);
        _ ← upd_at np (p_set_state UNUSED);
        mret (-1)
      else
        _ ← upd_at np (p_set_sz sz);
        _ ← upd_at np (p_set_parent (Some i));
        tf ← cur p_tf;
        _ ← upd_at np (p_set_tf (tf_set_eax 0 tf));
        _ ← kfor (Z.to_nat NOFILE) 0 (dup_fd np);
        _ ← dup_cwd np;
        name ← cur p_name;
        _ ← upd_at np (copy_name name);
        pid ← gets (λ k, p_pid (proc_at (k_ptab k) np));
        _ ← upd_at np (p_set_state RUNNABLE);
        mret pid
  end.

(** ** Giving up the CPU *)

(** The test of the process state that sched makes; the locks and the
    interrupt flag are those of the spinlock component. *)
Definition sched {A} (c : chan) : kM (kernel T) A :=
  st ← cur p_state;
  if decide (st = RUNNING) then panic "sched running" else sleep_on c.

Definition yield {A} : kM (kernel T) A :=
  _ ← upd_cur (p_set_state RUNNABLE);
  sched ChYield.

(** ** Termination *)

Definition close_fd (fd : Z) : kM (kernel T) unit :=
  fs ← cur p_ofile;
  match fs !!! Z.to_nat fd with
  | None => mret tt
  | Some f =>
      _ ← File.fileclose kend f;
      upd_cur (λ p, p_set_ofile (<[Z.to_nat fd := None]> (p_ofile p)) p)
  end.

Definition exit {A} : kM (kernel T) A :=
  i ← myproc;
  init ← gets (λ k, pt_initproc (k_ptab k));
  if decide (init = Some i) then panic "init exiting"
  else
    _ ← kfor (Z.to_nat NOFILE) 0 close_fd;
    _ ← File.in_op begin_op;
    cwd ← cur p_cwd;
    _ ← (match cwd with Some ip => in_fs (Fs.iput ip) | None => panic "trap" end);
    _ ← File.in_op end_op;
    _ ← upd_cur (p_set_cwd None);
    _ ← modify (λ k, set_ptab (exit_table i (k_ptab k)) k);
    sched ChExit.

(** One pass of the loop of wait; a process that sleeps makes the next pass
    when it is woken up. *)
Definition wait : kM (kernel T) Z :=
  i ← myproc;
  t ← gets k_ptab;
  match wait_scan i t with
  | (Some j, _) =>
      p ← gets (λ k, proc_at (k_ptab k) j);
      _ ← in_mem (Kalloc.kfree kend (p_kstack p));
      _ ← in_mem (Vm.freevm kend (p_pgdir p));
      _ ← upd_at j reap_slot;
      mret (p_pid p)
  | (None, havekids) =>
      killed ← cur p_killed;
      if negb havekids || negb (killed =? 0) then mret (-1)
      else sleep (ChProc i)
  end.

Definition kill (pid : Z) : kM (kernel T) Z :=
  k ← kget;
  match kill_table pid (k_ptab k) with
  | Some t => _ ← modify (set_ptab t); mret 0
  | None => mret (-1)
  end.

(** ** The process listing *)

Definition state_name (s : procstate) : list Z :=
  match s with
  | UNUSED => str "unused"
  | EMBRYO => str "embryo"
  | SLEEPING => str "sleep "
  | RUNNABLE => str "runble"
  | RUNNING => str "run   "
  | ZOMBIE => str "zombie"
  end.

(** [for(i=0; i<10 && pc[i] != 0; i++) cprintf(" %p", pc[i])]. *)
Fixpoint dump_pcs (pcs : list Z) : option (list Z) :=
  match pcs with
  | [] => Some []
  | pc :: pcs' =>
      if pc =? 0 then Some []
      else a ← Console.cprintf (str " %p") [Console.AInt pc]; b ← dump_pcs pcs'; Some (a ++ b)
  end.

(** The line of one process; its stack is read from the memory [m]. *)
Definition dump_line (m : CString.mem) (p : proc) : option (list Z) :=
  if decide (p_state p = UNUSED) then Some []
  else
    a ← Console.cprintf (str "%d %s %s")
          [Console.AInt (p_pid p); Console.AStr (Some (state_name (p_state p))); Console.AStr (Some (p_name p))];
    b ← (if decide (p_state p = SLEEPING)
         then dump_pcs (Spinlock.getcallerpcs m (u32 (c_ebp (p_context p) + 8))) else Some []);
    Some (a ++ b ++ [10]).

Fixpoint dump_lines (m : CString.mem) (l : list proc) : option (list Z) :=
  match l with
  | [] => Some []
  | p :: l' => a ← dump_line m p; b ← dump_lines m l'; Some (a ++ b)
  end.

Definition procdump (k : kernel T) (s : Console.cons) : option Console.cons :=
  cs ← dump_lines (Kalloc.km_mem (k_kmem k)) (pt_proc (k_ptab k));
  Console.consputs cs s.

(** ** The scheduler

    [swtch] is the switch to the context of [proc] and back: what the process
    does until it gives up the CPU. *)

Variable swtch : kM (kernel T) unit.

(** The inner loop of scheduler from entry [i] on, with [n] entries left; the
    result is the list of the processes switched to. *)
Fixpoint scheduler_loop (n i : nat) : kM (kernel T) (list nat) :=
  match n with
  | O => mret []
  | S n' =>
      p ← gets (λ k, proc_at (k_ptab k) i);
      if negb (is_state RUNNABLE p) then scheduler_loop n' (S i)
      else
        _ ← modify (set_proc (Some i));
        _ ← switchuvm i;
        _ ← upd_at i (p_set_state RUNNING);
        _ ← swtch;
        _ ← switchkvm;
        _ ← modify (set_proc None);
        l ← scheduler_loop n' (S i);
        mret (i :: l)
  end.

(** One pass of the outer loop. *)
Definition scheduler : kM (kernel T) (list nat) :=
  n ← gets (λ k, length (pt_proc (k_ptab k)));
  scheduler_loop n 0.
End proc.
End Proc.
