(* ===== verification/ProcProto.v ===== *)
(** * Processes on several CPUs

    The critical sections of proc.c under [ptable.lock] as the steps of a
    system of CPUs and processes, with every interleaving of them, and the
    invariants of the process table: who runs where, process ids, parents, and
    that no wakeup of [wait] is lost. *)

From stdpp Require Import base numbers option list gmap strings.
From Stdlib Require Import ZArith Lia ZifyBool.
From S2P Require Import Prelude Bytes Kernel Proc.
Import Kernel Proc.
Local Open Scope Z_scope.

(** ** The system *)

(** The table, the process each CPU runs, and the forks in progress: the
    parent and the slot of the child. *)
Record psys := mkPsys { sy_tab : ptab; sy_cpu : list (option nat); sy_fork : list (nat * nat) }.

(** Process [i] runs on CPU [c]. *)
Definition on_cpu (cs : list (option nat)) (c i : nat) : Prop := cs !! c = Some (Some i).

Definition forking (fs : list (nat * nat)) (i : nat) : Prop := i ∈ fs.*1.

Inductive pstep : psys → psys → Prop :=
(** scheduler switches to a process; yield and sleep switch back *)
| st_sched t cs fs c i : cs !! c = Some None → (i < length (pt_proc t))%nat →
    p_state (proc_at t i) = RUNNABLE →
    pstep (mkPsys t cs fs) (mkPsys (upd_proc i (p_set_state RUNNING) t) (<[c := Some i]> cs) fs)
| st_yield t cs fs c i : on_cpu cs c i →
    pstep (mkPsys t cs fs) (mkPsys (upd_proc i (p_set_state RUNNABLE) t) (<[c := None]> cs) fs)
| st_sleep t cs fs c i ch : on_cpu cs c i → (∀ q, ch ≠ ChProc q) →
    pstep (mkPsys t cs fs) (mkPsys (go_to_sleep i ch t) (<[c := None]> cs) fs)
| st_resume t cs fs c i : on_cpu cs c i →
    pstep (mkPsys t cs fs) (mkPsys (upd_proc i (p_set_chan None) t) cs fs)
| st_wakeup t cs fs ch :
    pstep (mkPsys t cs fs) (mkPsys (wakeup1 ch t) cs fs)
| st_kill t cs fs pid t' : kill_table pid t = Some t' →
    pstep (mkPsys t cs fs) (mkPsys t' cs fs)
(** fork: the slot, its failure, the parent pointer, the last write *)
| st_fork_alloc t cs fs c i j t' : on_cpu cs c i → ¬ forking fs i → pt_nextpid t < 2 ^ 31 - 1 →
    alloc_slot t = Some (j, t') →
    pstep (mkPsys t cs fs) (mkPsys t' cs ((i, j) :: fs))
| st_fork_fail t cs fs1 fs2 c i j : on_cpu cs c i → p_parent (proc_at t j) = None →
    pstep (mkPsys t cs (fs1 ++ (i, j) :: fs2)) (mkPsys (upd_proc j (p_set_state UNUSED) t) cs (fs1 ++ fs2))
| st_fork_parent t cs fs c i j : on_cpu cs c i → (i, j) ∈ fs →
    pstep (mkPsys t cs fs) (mkPsys (upd_proc j (p_set_parent (Some i)) t) cs fs)
| st_fork_done t cs fs1 fs2 c i j : on_cpu cs c i → p_parent (proc_at t j) = Some i →
    pstep (mkPsys t cs (fs1 ++ (i, j) :: fs2)) (mkPsys (upd_proc j (p_set_state RUNNABLE) t) cs (fs1 ++ fs2))
(** exit and wait *)
| st_exit t cs fs c i : on_cpu cs c i → ¬ forking fs i → pt_initproc t ≠ Some i →
    pstep (mkPsys t cs fs) (mkPsys (exit_table i t) (<[c := None]> cs) fs)
| st_reap t cs fs c i j havekids : on_cpu cs c i → ¬ forking fs i → wait_scan i t = (Some j, havekids) →
    pstep (mkPsys t cs fs) (mkPsys (upd_proc j reap_slot t) cs fs)
| st_wait_sleep t cs fs c i : on_cpu cs c i → ¬ forking fs i → wait_scan i t = (None, true) →
    p_killed (proc_at t i) = 0 →
    pstep (mkPsys t cs fs) (mkPsys (go_to_sleep i (ChProc i) t) (<[c := None]> cs) fs).

(** ** The invariant *)

Definition alive (st : procstate) : Prop := st = SLEEPING ∨ st = RUNNABLE ∨ st = RUNNING.
Definition waiting (q : nat) (p : proc) : Prop := p_state p = SLEEPING ∧ p_chan p = Some (ChProc q).

Definition pst (t : ptab) (i : nat) : procstate := p_state (proc_at t i).
Definition valid (t : ptab) (i : nat) : Prop := (i < length (pt_proc t))%nat.

(** A CPU runs a process that is [RUNNING], and no two run the same. *)
Record run_inv (t : ptab) (cs : list (option nat)) : Prop := mkRunInv {
  in_cpu c i : on_cpu cs c i → valid t i ∧ pst t i = RUNNING;
  in_cpu_inj c c' i : on_cpu cs c i → on_cpu cs c' i → c = c';
  in_running i : valid t i → pst t i = RUNNING → ∃ c, on_cpu cs c i
}.

Record pid_inv (t : ptab) : Prop := mkPidInv {
  in_next : 0 < pt_nextpid t < 2 ^ 31;
  in_pid i : valid t i → 0 ≤ p_pid (proc_at t i) < pt_nextpid t;
  in_pid_used i : valid t i → pst t i ≠ UNUSED → p_pid (proc_at t i) ≠ 0;
  in_pid_inj i j : valid t i → valid t j →
    p_pid (proc_at t i) = p_pid (proc_at t j) → p_pid (proc_at t i) ≠ 0 → i = j
}.

(** The parent of a process is alive; a slot that is being set up belongs to
    a fork. *)
Record kin_inv (t : ptab) (fs : list (nat * nat)) : Prop := mkKinInv {
  in_init : ∃ q, pt_initproc t = Some q ∧ valid t q ∧ alive (pst t q) ∧ p_parent (proc_at t q) = None;
  in_self i : valid t i → p_parent (proc_at t i) ≠ Some i;
  in_parent i : valid t i → pst t i ≠ UNUSED → pst t i ≠ EMBRYO →
    pt_initproc t = Some i ∨ ∃ q, p_parent (proc_at t i) = Some q ∧ valid t q ∧ alive (pst t q);
  in_unused i : valid t i → pst t i = UNUSED → p_parent (proc_at t i) = None;
  in_embryo i : valid t i → pst t i = EMBRYO → ∃ q, (q, i) ∈ fs;
  in_fork i j : (i, j) ∈ fs → valid t i ∧ alive (pst t i) ∧ valid t j ∧ pst t j = EMBRYO ∧
    (p_parent (proc_at t j) = None ∨ p_parent (proc_at t j) = Some i);
  in_fork_nd : NoDup fs.*1 ∧ NoDup fs.*2
}.

(** A process sleeps in [wait] on its own address, and only when it has no
    zombie child. *)
Record wait_inv (t : ptab) : Prop := mkWaitInv {
  in_chan i q : valid t i → waiting q (proc_at t i) → q = i;
  in_wait i q : valid t i → valid t q → pst t i = ZOMBIE →
    p_parent (proc_at t i) = Some q → ¬ waiting q (proc_at t q)
}.

Record psys_inv (s : psys) : Prop := mkPsysInv {
  si_run : run_inv (sy_tab s) (sy_cpu s);
  si_pid : pid_inv (sy_tab s);
  si_kin : kin_inv (sy_tab s) (sy_fork s);
  si_wait : wait_inv (sy_tab s)
}.

(** ** The table operations, slot by slot *)

Lemma length_upd_proc i f t : length (pt_proc (upd_proc i f t)) = length (pt_proc t).
Proof. apply length_insert. Qed.

Lemma proc_at_upd i f t j : (i < length (pt_proc t))%nat →
  proc_at (upd_proc i f t) j = if decide (i = j) then f (proc_at t i) else proc_at t j.
Proof. intros Hi. unfold proc_at at 1, upd_proc. simpl. by rewrite arr_insert. Qed.

Lemma length_wakeup1 c t : length (pt_proc (wakeup1 c t)) = length (pt_proc t).
Proof. apply length_fmap. Qed.

Lemma proc_at_wakeup1 c t j : (j < length (pt_proc t))%nat → proc_at (wakeup1 c t) j =
  if decide (p_state (proc_at t j) = SLEEPING ∧ p_chan (proc_at t j) = Some c)
  then p_set_state RUNNABLE (proc_at t j) else proc_at t j.
Proof.
  intros Hj. unfold proc_at, wakeup1. simpl. rewrite list_lookup_total_alt, list_lookup_fmap.
  by rewrite (arr_lookup _ _ Hj).
Qed.

Lemma first_Some f l i : first f l = Some i → (i < length l)%nat ∧ f (l !!! i) = true.
Proof.
  revert i. induction l as [|p l IH]; intros i; simpl; [done|]. destruct (f p) eqn:E.
  - intros [= <-]. split; [lia|done].
  - intros (j & Hj & ->)%fmap_Some. destruct (IH j Hj). split; [lia|done].
Qed.

Lemma first_None f l i : first f l = None → (i < length l)%nat → f (l !!! i) = false.
Proof.
  revert i. induction l as [|p l IH]; intros i; simpl; [lia|]. destruct (f p) eqn:E; [done|].
  intros Hn%fmap_None Hi. destruct i as [|i]; [done|]. apply IH; [done|lia].
Qed.

Lemma on_cpu_insert cs c x c' i : (c < length cs)%nat →
  on_cpu (<[c := x]> cs) c' i ↔ (c' = c ∧ x = Some i) ∨ (c' ≠ c ∧ on_cpu cs c' i).
Proof.
  intros Hc. unfold on_cpu. destruct (decide (c' = c)) as [->|Hne].
  - rewrite list_lookup_insert_eq by done. naive_solver.
  - rewrite list_lookup_insert_ne by done. naive_solver.
Qed.

Lemma on_cpu_lt cs c i : on_cpu cs c i → (c < length cs)%nat.
Proof. apply lookup_lt_Some. Qed.

(** ** Every step keeps the invariant *)

(** The steps that only make living processes run, stop or sleep. *)
Record same_kin (t t' : ptab) : Prop := mkSameKin {
  sk_len : length (pt_proc t') = length (pt_proc t);
  sk_init : pt_initproc t' = pt_initproc t;
  sk_next : pt_nextpid t' = pt_nextpid t;
  sk_pid i : valid t i → p_pid (proc_at t' i) = p_pid (proc_at t i);
  sk_parent i : valid t i → p_parent (proc_at t' i) = p_parent (proc_at t i);
  sk_state i : valid t i → pst t' i = pst t i ∨ (alive (pst t i) ∧ alive (pst t' i))
}.

Lemma same_kin_valid t t' i : same_kin t t' → valid t' i ↔ valid t i.
Proof. intros []. unfold valid. by rewrite sk_len0. Qed.

Lemma alive_not st : alive st → st ≠ UNUSED ∧ st ≠ EMBRYO ∧ st ≠ ZOMBIE.
Proof. by intros [-> | [-> | ->]]. Qed.

Lemma same_kin_alive t t' i : same_kin t t' → valid t i → alive (pst t' i) ↔ alive (pst t i).
Proof. intros [] Hi. destruct (sk_state0 i Hi) as [->|[??]]; tauto. Qed.

Lemma same_kin_st t t' i st : same_kin t t' → valid t i → ¬ alive st → pst t' i = st ↔ pst t i = st.
Proof. intros [] Hi Hst. destruct (sk_state0 i Hi) as [->|[??]]; [done|]. by split; intros <-. Qed.

Lemma dead_states : ¬ alive UNUSED ∧ ¬ alive EMBRYO ∧ ¬ alive ZOMBIE.
Proof. split_and!; intros [?|[?|?]]; done. Qed.

Lemma same_kin_pid t t' : same_kin t t' → pid_inv t → pid_inv t'.
Proof.
  intros Hk []. pose proof (same_kin_valid t t') as Hv. destruct dead_states as (? & _ & _).
  pose proof Hk as []. constructor; rewrite ?sk_next0; [done| | |].
  - intros i Hi. rewrite sk_pid0; apply Hv in Hi; auto.
  - intros i Hi. apply Hv in Hi; [|done]. rewrite (same_kin_st t t'), sk_pid0 by done. auto.
  - intros i j Hi Hj. apply Hv in Hi, Hj; [|done..]. rewrite !sk_pid0 by done. auto.
Qed.

Lemma same_kin_kin t t' fs : same_kin t t' → kin_inv t fs → kin_inv t' fs.
Proof.
  intros Hk []. pose proof (λ i, same_kin_valid t t' i Hk) as Hv. destruct dead_states as (? & ? & _).
  pose proof (λ i, same_kin_alive t t' i Hk) as Ha. pose proof Hk as []. constructor; rewrite ?sk_init0.
  - destruct in_init0 as (q & ? & ? & ? & ?). exists q. rewrite Hv, Ha, sk_parent0 by done. done.
  - intros i Hi. rewrite Hv in Hi. rewrite sk_parent0 by done. auto.
  - intros i Hi. rewrite Hv in Hi. rewrite !(same_kin_st t t'), sk_parent0 by done. intros ??.
    destruct (in_parent0 i) as [?|(q & ? & ? & ?)]; [done..|by left|right].
    exists q. rewrite Hv, Ha by done. done.
  - intros i Hi. rewrite Hv in Hi. rewrite !(same_kin_st t t'), sk_parent0 by done. auto.
  - intros i Hi. rewrite Hv in Hi. rewrite !(same_kin_st t t') by done. auto.
  - intros i j (? & ? & ? & ? & ?)%in_fork0. rewrite !Hv, Ha, (same_kin_st t t'), sk_parent0 by done. done.
  - done.
Qed.

Lemma same_kin_wait t t' : same_kin t t' →
  (∀ i q, valid t i → waiting q (proc_at t' i) → waiting q (proc_at t i)) → wait_inv t → wait_inv t'.
Proof.
  intros Hk Hw []. pose proof (λ i, same_kin_valid t t' i Hk) as Hv. destruct dead_states as (_ & _ & ?).
  pose proof Hk as []. constructor.
  - intros i q Hi. rewrite Hv in Hi. intros Hq%Hw; eauto.
  - intros i q. rewrite !Hv. intros Hi Hq. rewrite (same_kin_st t t'), sk_parent0 by done.
    intros Hz Hp Hq'%Hw; [|done]. exact (in_wait0 i q Hi Hq Hz Hp Hq').
Qed.

(** The CPUs, when a step does not switch, switches away or switches to. *)
Lemma run_same t t' cs : length (pt_proc t') = length (pt_proc t) →
  (∀ i, valid t i → pst t' i = RUNNING ↔ pst t i = RUNNING) → run_inv t cs → run_inv t' cs.
Proof.
  intros Hl Hs []. assert (∀ i, valid t' i ↔ valid t i) as Hv by (unfold valid; by rewrite Hl). constructor.
  - intros c i Hc. destruct (in_cpu0 c i Hc). by rewrite Hv, Hs.
  - done.
  - intros i. rewrite Hv. intros Hi. rewrite Hs by done. auto.
Qed.

Lemma run_leave t t' cs c i : length (pt_proc t') = length (pt_proc t) → on_cpu cs c i →
  (∀ j, valid t j → pst t' j = RUNNING ↔ pst t j = RUNNING ∧ j ≠ i) →
  run_inv t cs → run_inv t' (<[c := None]> cs).
Proof.
  intros Hl Hc Hs []. assert (∀ i, valid t' i ↔ valid t i) as Hv by (unfold valid; by rewrite Hl).
  pose proof (on_cpu_lt _ _ _ Hc) as Hlt. constructor.
  - intros c' j [[_ ?]|[Hne Hj]]%on_cpu_insert; [done| |done]. destruct (in_cpu0 c' j Hj).
    rewrite Hv, Hs by done. split_and!; try done. intros ->. by apply Hne, (in_cpu_inj0 _ _ i).
  - intros c1 c2 j [[_ ?]|[? ?]]%on_cpu_insert [[_ ?]|[? ?]]%on_cpu_insert; try done. by eapply in_cpu_inj0.
  - intros j. rewrite Hv. intros Hj. rewrite Hs by done. intros [Hr Hne].
    destruct (in_running0 j Hj Hr) as [c' Hc']. exists c'. apply on_cpu_insert; [done|]. right.
    split; [|done]. intros ->. unfold on_cpu in *. congruence.
Qed.

Lemma run_enter t t' cs c i : length (pt_proc t') = length (pt_proc t) → cs !! c = Some None → valid t i →
  pst t i ≠ RUNNING → (∀ j, valid t j → pst t' j = RUNNING ↔ pst t j = RUNNING ∨ j = i) →
  run_inv t cs → run_inv t' (<[c := Some i]> cs).
Proof.
  intros Hl Hc Hi Hn Hs []. assert (∀ i, valid t' i ↔ valid t i) as Hv by (unfold valid; by rewrite Hl).
  pose proof (lookup_lt_Some _ _ _ Hc) as Hlt.
  assert (∀ c', ¬ on_cpu cs c' i) as Hno by (intros c' Hc'; by destruct (in_cpu0 c' i Hc')). constructor.
  - intros c' j [[_ [= ->]]|[Hne Hj]]%on_cpu_insert; [rewrite Hv, Hs by done; auto| |done].
    destruct (in_cpu0 c' j Hj). rewrite Hv, Hs by done. auto.
  - intros c1 c2 j [[-> E1]|[? ?]]%on_cpu_insert [[-> E2]|[? ?]]%on_cpu_insert; simplify_eq; try done.
    + by destruct (Hno c2).
    + by destruct (Hno c1).
    + by eapply in_cpu_inj0.
  - intros j. rewrite Hv. intros Hj. rewrite Hs by done. intros [Hr| ->].
    + destruct (in_running0 j Hj Hr) as [c' Hc']. exists c'. apply on_cpu_insert; [done|]. right.
      split; [|done]. intros ->. unfold on_cpu in *. congruence.
    + exists c. apply on_cpu_insert; [done|]. by left.
Qed.

(** One slot changes. *)
Lemma pst_upd i f t j : valid t i →
  pst (upd_proc i f t) j = if decide (i = j) then p_state (f (proc_at t i)) else pst t j.
Proof. intros Hi. unfold pst. rewrite proc_at_upd by done. by case_decide. Qed.

Lemma same_kin_upd i f t : valid t i →
  (∀ p, p_pid (f p) = p_pid p) → (∀ p, p_parent (f p) = p_parent p) →
  p_state (f (proc_at t i)) = pst t i ∨ (alive (pst t i) ∧ alive (p_state (f (proc_at t i)))) →
  same_kin t (upd_proc i f t).
Proof.
  intros Hi Hp Hq Hs. constructor; [apply length_upd_proc|done|done| | |]; intros j Hj.
  - rewrite proc_at_upd by done. case_decide; [subst; apply Hp|done].
  - rewrite proc_at_upd by done. case_decide; [subst; apply Hq|done].
  - rewrite pst_upd by done. case_decide; subst; auto.
Qed.

Lemma waiting_upd i f t j q : valid t i →
  (waiting q (f (proc_at t i)) → waiting q (proc_at t i)) →
  waiting q (proc_at (upd_proc i f t) j) → waiting q (proc_at t j).
Proof. intros Hi Hf. rewrite proc_at_upd by done. case_decide; [by subst|done]. Qed.

Lemma alive_running : alive RUNNING. Proof. by right; right. Qed.
Lemma alive_runnable : alive RUNNABLE. Proof. by right; left. Qed.
Lemma alive_sleeping : alive SLEEPING. Proof. by left. Qed.
#[local] Hint Resolve alive_running alive_runnable alive_sleeping : core.

Lemma sched_inv t cs fs c i : cs !! c = Some None → valid t i → pst t i = RUNNABLE →
  psys_inv (mkPsys t cs fs) →
  psys_inv (mkPsys (upd_proc i (p_set_state RUNNING) t) (<[c := Some i]> cs) fs).
Proof.
  intros Hc Hi Hs [Hr Hp Hk Hw]. simpl in *.
  assert (same_kin t (upd_proc i (p_set_state RUNNING) t)) as Hsk.
  { apply same_kin_upd; try done. rewrite Hs. auto. }
  constructor; simpl; eauto using same_kin_pid, same_kin_kin.
  - eapply run_enter; [apply length_upd_proc|done|done|congruence| |done].
    intros j Hj. rewrite pst_upd by done. case_decide; [subst; simpl; tauto|]. naive_solver.
  - eapply same_kin_wait; [done| |done]. intros j q Hj. apply waiting_upd; [done|]. by intros [? ?].
Qed.

(** A step that takes process [i] off its CPU, into state [st]. *)
Lemma leave_inv t cs fs c i f : on_cpu cs c i →
  (∀ p, p_pid (f p) = p_pid p) → (∀ p, p_parent (f p) = p_parent p) →
  (∀ p, alive (p_state (f p)) ∧ p_state (f p) ≠ RUNNING) →
  (wait_inv t → wait_inv (upd_proc i f t)) →
  psys_inv (mkPsys t cs fs) → psys_inv (mkPsys (upd_proc i f t) (<[c := None]> cs) fs).
Proof.
  intros Hc Hpid Hpar Hst Hwt [Hr Hp Hk Hw]. simpl in *. destruct (in_cpu t cs Hr c i Hc) as [Hi Hs].
  assert (same_kin t (upd_proc i f t)) as Hsk.
  { apply same_kin_upd; try done. right. rewrite Hs. split; [auto|apply Hst]. }
  constructor; simpl; eauto using same_kin_pid, same_kin_kin.
  eapply run_leave; [apply length_upd_proc|done| |done].
  intros j Hj. rewrite pst_upd by done. case_decide; [|naive_solver]. subst.
  split; [intros H; by destruct (Hst (proc_at t j))|tauto].
Qed.

Lemma yield_inv t cs fs c i : on_cpu cs c i → psys_inv (mkPsys t cs fs) →
  psys_inv (mkPsys (upd_proc i (p_set_state RUNNABLE) t) (<[c := None]> cs) fs).
Proof.
  intros Hc Hi. eapply leave_inv; [done|done|done|by simpl; auto| |done]. destruct Hi as [Hr _ _ _].
  destruct (in_cpu _ _ Hr c i Hc) as [Hi Hs]. simpl in *. apply same_kin_wait.
  - apply same_kin_upd; try done. rewrite Hs. auto.
  - intros j q Hj. apply waiting_upd; [done|]. by intros [? ?].
Qed.

Lemma sleep_inv t cs fs c i ch : on_cpu cs c i → (∀ q, ch ≠ ChProc q) → psys_inv (mkPsys t cs fs) →
  psys_inv (mkPsys (go_to_sleep i ch t) (<[c := None]> cs) fs).
Proof.
  intros Hc Hch Hi. eapply leave_inv; [done|done|done|by simpl; auto| |done]. destruct Hi as [Hr _ _ _].
  destruct (in_cpu _ _ Hr c i Hc) as [Hi Hs]. simpl in *. apply same_kin_wait.
  - apply same_kin_upd; try done. rewrite Hs. auto.
  - intros j q Hj. apply waiting_upd; [done|]. intros [_ [= ->]]. by destruct (Hch q).
Qed.

Lemma resume_inv t cs fs c i : on_cpu cs c i → psys_inv (mkPsys t cs fs) →
  psys_inv (mkPsys (upd_proc i (p_set_chan None) t) cs fs).
Proof.
  intros Hc [Hr Hp Hk Hw]. simpl in *. destruct (in_cpu t cs Hr c i Hc) as [Hi Hs].
  assert (same_kin t (upd_proc i (p_set_chan None) t)) as Hsk by (apply same_kin_upd; auto).
  constructor; simpl; eauto using same_kin_pid, same_kin_kin.
  - eapply run_same; [apply length_upd_proc| |done]. intros j Hj. rewrite pst_upd by done. case_decide; [by subst|done].
  - eapply same_kin_wait; [done| |done]. intros j q Hj. apply waiting_upd; [done|]. by intros [_ ?].
Qed.

(** wakeup1 makes sleeping processes runnable. *)
Lemma wakeup1_slot ch t j : valid t j →
  proc_at (wakeup1 ch t) j = proc_at t j ∨
  (pst t j = SLEEPING ∧ proc_at (wakeup1 ch t) j = p_set_state RUNNABLE (proc_at t j)).
Proof. intros Hj. rewrite proc_at_wakeup1 by done. case_decide as H; [|by left]. destruct H. by right. Qed.

Lemma wakeup1_kin ch t : same_kin t (wakeup1 ch t).
Proof.
  constructor; [apply length_wakeup1|done|done| | |]; intros j Hj; unfold pst;
    destruct (wakeup1_slot ch t j Hj) as [->|[E ->]]; simpl; auto. right. unfold pst in E. rewrite E. auto.
Qed.

Lemma wakeup1_waiting ch t j q : valid t j → waiting q (proc_at (wakeup1 ch t) j) → waiting q (proc_at t j).
Proof. intros Hj. destruct (wakeup1_slot ch t j Hj) as [->|[E ->]]; [done|]. by intros [? ?]. Qed.

(** Nobody waits on the channel afterwards. *)
Lemma wakeup1_none q t j : valid t j → ¬ waiting q (proc_at (wakeup1 (ChProc q) t) j).
Proof. intros Hj. rewrite proc_at_wakeup1 by done. unfold waiting. case_decide; simpl; naive_solver. Qed.

Lemma wakeup_inv t cs fs ch : psys_inv (mkPsys t cs fs) → psys_inv (mkPsys (wakeup1 ch t) cs fs).
Proof.
  intros [Hr Hp Hk Hw]. pose proof (wakeup1_kin ch t).
  constructor; simpl in *; eauto using same_kin_pid, same_kin_kin.
  - eapply run_same; [apply length_wakeup1| |done]. intros j Hj. unfold pst.
    destruct (wakeup1_slot ch t j Hj) as [->|[E ->]]; [done|]. unfold pst in E. rewrite E. done.
  - eapply same_kin_wait; [done| |done]. intros j q Hj. by apply wakeup1_waiting.
Qed.

Lemma kill_inv t cs fs pid t' : kill_table pid t = Some t' →
  psys_inv (mkPsys t cs fs) → psys_inv (mkPsys t' cs fs).
Proof.
  intros (i & [Hi _]%first_Some & [= <-])%bind_Some [Hr Hp Hk Hw]. simpl in *.
  assert (∀ p, p_state (kill_slot p) = if decide (p_state p = SLEEPING) then RUNNABLE else p_state p) as Hst.
  { intros p. unfold kill_slot, is_state. simpl. case_decide; [by rewrite bool_decide_true|by rewrite bool_decide_false]. }
  assert (same_kin t (upd_proc i kill_slot t)) as Hsk.
  { apply same_kin_upd; try done; [| |rewrite Hst; unfold pst; case_decide as E; [rewrite E; auto|auto]];
      intros p; unfold kill_slot; by destruct (is_state _ _). }
  constructor; simpl; eauto using same_kin_pid, same_kin_kin.
  - eapply run_same; [apply length_upd_proc| |done]. intros j Hj. rewrite pst_upd by done. case_decide; [subst|done].
    rewrite Hst. unfold pst. case_decide as E; [rewrite E|]; done.
  - eapply same_kin_wait; [done| |done]. intros j q Hj. apply waiting_upd; [done|]. intros [Hs Hch].
    rewrite Hst in Hs. case_decide; [done|]. split; [done|]. unfold kill_slot in Hch. by destruct (is_state _ _).
Qed.

Lemma wait_sleep_inv t cs fs c i : on_cpu cs c i → wait_scan i t = (None, true) →
  psys_inv (mkPsys t cs fs) → psys_inv (mkPsys (go_to_sleep i (ChProc i) t) (<[c := None]> cs) fs).
Proof.
  intros Hc Hsc Hi. eapply leave_inv; [done|done|done|by simpl; auto| |done]. destruct Hi as [Hr _ _ _].
  destruct (in_cpu _ _ Hr c i Hc) as [Hi Hs]. simpl in *. intros [Hch Hwt]. unfold valid in *.
  constructor; unfold valid; rewrite length_upd_proc.
  - intros j q Hj. rewrite proc_at_upd by done. case_decide; [|by apply Hch]. subst. by intros [_ [= ->]].
  - intros j q Hj Hq. rewrite pst_upd, !proc_at_upd by done. case_decide as E1; [by subst|]. intros Hz Hp.
    case_decide as E2; [subst q|exact (Hwt j q Hj Hq Hz Hp)]. intros _.
    injection Hsc as Hn _. pose proof (first_None _ _ j Hn Hj) as Hf. unfold pst, proc_at in *.
    unfold zombie_child, is_child, is_state in Hf. rewrite Hp, Hz in Hf. by rewrite !bool_decide_true in Hf.
Qed.

(** A slot of a process that does not run changes. *)
Lemma run_upd t cs j f : valid t j → pst t j ≠ RUNNING → p_state (f (proc_at t j)) ≠ RUNNING →
  run_inv t cs → run_inv (upd_proc j f t) cs.
Proof.
  intros Hj Hs Hf. apply run_same; [apply length_upd_proc|]. intros k Hk. rewrite pst_upd by done.
  case_decide; [by subst|done].
Qed.

Lemma wait_upd t j f : valid t j → p_state (f (proc_at t j)) ≠ SLEEPING → p_state (f (proc_at t j)) ≠ ZOMBIE →
  wait_inv t → wait_inv (upd_proc j f t).
Proof.
  intros Hj Hs Hz [Hch Hwt]. unfold valid in *. constructor; unfold valid; rewrite length_upd_proc.
  - intros k q Hk. rewrite proc_at_upd by done. case_decide; [|by apply Hch]. by intros [? _].
  - intros k q Hk Hq. rewrite pst_upd, !proc_at_upd by done. case_decide; [done|]. intros Hzk Hp.
    case_decide; [by intros [? _]|]. exact (Hwt k q Hk Hq Hzk Hp).
Qed.

(** What the allocation of slot [j] does. *)
Record allocated (t t' : ptab) (j : nat) : Prop := mkAllocated {
  al_valid : valid t j;
  al_unused : pst t j = UNUSED;
  al_len : length (pt_proc t') = length (pt_proc t);
  al_init : pt_initproc t' = pt_initproc t;
  al_next : pt_nextpid t' = i32 (pt_nextpid t + 1);
  al_at k : proc_at t' k = if decide (j = k) then init_slot (pt_nextpid t) (proc_at t j) else proc_at t k
}.

Lemma alloc_slot_Some t j t' : alloc_slot t = Some (j, t') → allocated t t' j.
Proof.
  intros (i & [Hi Hs]%first_Some & [= -> <-])%bind_Some. constructor; try done.
  - by apply bool_decide_eq_true in Hs.
  - apply length_upd_proc.
  - intros k. by apply (proc_at_upd j (init_slot (pt_nextpid t)) t k).
Qed.

Lemma allocated_valid t t' j k : allocated t t' j → valid t' k ↔ valid t k.
Proof. intros []. unfold valid. by rewrite al_len0. Qed.

Lemma allocated_pst t t' j k : allocated t t' j → pst t' k = if decide (j = k) then EMBRYO else pst t k.
Proof. intros []. unfold pst. rewrite al_at0. by case_decide. Qed.

Lemma alloc_pid t t' j : allocated t t' j → pt_nextpid t < 2 ^ 31 - 1 → pid_inv t → pid_inv t'.
Proof.
  intros Ha Hn [Hn0 Hpid Hused Hinj]. pose proof (λ k, allocated_valid t t' j k Ha) as Hv.
  pose proof (λ k, allocated_pst t t' j k Ha) as Hst. pose proof (al_at _ _ _ Ha) as Hat.
  constructor; rewrite ?(al_next _ _ _ Ha), ?i32_small by lia; [lia| | |].
  - intros k Hk%Hv. rewrite Hat. pose proof (Hpid k Hk). case_decide; simpl; lia.
  - intros k Hk%Hv. rewrite Hst, Hat. case_decide; simpl; [lia|auto].
  - intros k l Hk%Hv Hl%Hv. rewrite !Hat. pose proof (Hpid k Hk). pose proof (Hpid l Hl).
    repeat case_decide; simpl; subst; intros; auto; lia.
Qed.

Lemma alloc_kin t t' j fs i : allocated t t' j → valid t i → pst t i = RUNNING → ¬ forking fs i →
  kin_inv t fs → kin_inv t' ((i, j) :: fs).
Proof.
  intros Ha Hi Hsi Hnf [Hinit Hself Hpar Hun Hem Hfk [Hnd1 Hnd2]]. pose proof (λ k, allocated_valid t t' j k Ha) as Hv.
  pose proof (λ k, allocated_pst t t' j k Ha) as Hst. pose proof Ha as [Hj Hu _ Hini _ Hat].
  assert (∀ k, alive (pst t k) → alive (pst t' k)) as Hal.
  { intros k Hk. rewrite Hst. case_decide; [|done]. subst k. rewrite Hu in Hk. by destruct (alive_not _ Hk). }
  assert (∀ k, p_parent (proc_at t' k) = p_parent (proc_at t k)) as Hpp.
  { intros k. rewrite Hat. case_decide; [by subst|done]. }
  constructor; rewrite ?Hini.
  - destruct Hinit as (q & ? & ? & ? & ?). exists q. rewrite Hv, Hpp. auto.
  - intros k Hk%Hv. rewrite Hpp. auto.
  - intros k Hk%Hv. rewrite Hst, Hat. case_decide; [done|]. intros ??.
    destruct (Hpar k) as [?|(q & ? & ? & ?)]; [done..|by left|right]. exists q. rewrite Hv. auto.
  - intros k Hk%Hv. rewrite Hst, Hat. case_decide; [done|auto].
  - intros k Hk%Hv. rewrite Hst. case_decide as E; [subst; exists i; by left|].
    intros Hek. destruct (Hem k Hk Hek) as [q ?]. exists q. by right.
  - intros a b [[= -> ->]|Hab]%elem_of_cons; rewrite !Hv.
    + rewrite Hat, !Hst, decide_False, !decide_True by congruence. rewrite Hsi. split_and!; auto. left. by apply Hun.
    + destruct (Hfk a b Hab) as (? & ? & ? & Hb & ?). rewrite Hat, (Hst b), !(decide_False (P := j = b)) by congruence. split_and!; auto.
  - split; apply NoDup_cons; (split; [|done]); [done|].
    intros ([a b] & E & Hab)%list_elem_of_fmap. simpl in E. subst b. destruct (Hfk a j Hab) as (_ & _ & _ & Hb & _). congruence.
Qed.

Lemma fork_alloc_inv t cs fs c i j t' : on_cpu cs c i → ¬ forking fs i → pt_nextpid t < 2 ^ 31 - 1 →
  alloc_slot t = Some (j, t') → psys_inv (mkPsys t cs fs) → psys_inv (mkPsys t' cs ((i, j) :: fs)).
Proof.
  intros Hc Hnf Hn Ha%alloc_slot_Some [Hr Hp Hk Hw]. simpl in *. destruct (in_cpu t cs Hr c i Hc) as [Hi Hsi].
  pose proof (λ k, allocated_valid t t' j k Ha) as Hv. pose proof (λ k, allocated_pst t t' j k Ha) as Hst.
  constructor; simpl; [|by eapply alloc_pid|by eapply alloc_kin|].
  - eapply run_same; [by destruct Ha| |done]. intros k Hk'. rewrite Hst. case_decide; [|done].
    subst k. by rewrite (al_unused _ _ _ Ha).
  - destruct Hw as [Hch Hwt]. pose proof (al_at _ _ _ Ha) as Hat. constructor.
    + intros k q Hk'%Hv. rewrite Hat. case_decide; [by intros [? _]|]. by apply Hch.
    + intros k q Hk'%Hv Hq%Hv. rewrite Hst, !Hat. case_decide; [done|]. intros Hz Hpq.
      case_decide; [by intros [? _]|]. exact (Hwt k q Hk' Hq Hz Hpq).
Qed.

(** A slot of a fork changes: its parent pointer, or it leaves the list. *)
Lemma pid_upd t j f : valid t j → (∀ p, p_pid (f p) = p_pid p) → pst t j ≠ UNUSED → pid_inv t →
  pid_inv (upd_proc j f t).
Proof.
  intros Hj Hf Hs [Hn Hpid Hused Hinj]. assert (∀ k, p_pid (proc_at (upd_proc j f t) k) = p_pid (proc_at t k)) as Hp.
  { intros k. rewrite proc_at_upd by done. case_decide; [subst; apply Hf|done]. }
  unfold valid in *. constructor; [done| | |]; unfold valid; rewrite length_upd_proc.
  - intros k Hk. rewrite Hp. auto.
  - intros k Hk. rewrite Hp, pst_upd by done. case_decide; [subst; intros _|]; auto.
  - intros k l Hk Hl. rewrite !Hp. auto.
Qed.

Lemma fork_split (fs1 fs2 : list (nat * nat)) i j a b :
  NoDup (fs1 ++ (i, j) :: fs2).*1 → NoDup (fs1 ++ (i, j) :: fs2).*2 →
  (a, b) ∈ fs1 ++ fs2 ↔ (a, b) ∈ fs1 ++ (i, j) :: fs2 ∧ b ≠ j.
Proof.
  rewrite !fmap_app, !fmap_cons. simpl. intros _ (Hn2 & Hd & Hn2')%NoDup_app.
  apply NoDup_cons in Hn2' as [Hn3 _]. rewrite !elem_of_app, elem_of_cons. split.
  - intros Hab. split; [tauto|]. intros ->. destruct Hab as [Hab|Hab].
    + apply (Hd j); [|by left]. apply list_elem_of_fmap. by exists (a, j).
    + apply Hn3, list_elem_of_fmap. by exists (a, j).
  - intros [[?|[[= -> ->]|?]] ?]; auto. done.
Qed.

Lemma fork_drop_nd (fs1 fs2 : list (nat * nat)) ij :
  NoDup (fs1 ++ ij :: fs2).*1 ∧ NoDup (fs1 ++ ij :: fs2).*2 → NoDup (fs1 ++ fs2).*1 ∧ NoDup (fs1 ++ fs2).*2.
Proof.
  rewrite !fmap_app, !fmap_cons. intros [H1 H2].
  split; [apply (sublist_NoDup _ _ H1)|apply (sublist_NoDup _ _ H2)]; (apply sublist_app; [done|by apply sublist_cons]).
Qed.

Lemma drop_kin t fs1 fs2 i j f : let fs := fs1 ++ (i, j) :: fs2 in kin_inv t fs →
  (p_state (f (proc_at t j)) = UNUSED ∧ p_parent (f (proc_at t j)) = None) ∨
  (p_state (f (proc_at t j)) = RUNNABLE ∧ p_parent (f (proc_at t j)) = Some i) →
  kin_inv (upd_proc j f t) (fs1 ++ fs2).
Proof.
  intros fs [Hinit Hself Hpar Hun Hem Hfk Hnd] Hf. pose proof Hnd as [Hnd1 Hnd2].
  assert ((i, j) ∈ fs) as Hij by (apply elem_of_app; right; by left).
  destruct (Hfk i j Hij) as (Hi & Hai & Hj & Hej & Hpj).
  assert (∀ k, pst (upd_proc j f t) k = if decide (j = k) then p_state (f (proc_at t j)) else pst t k) as Hst
    by (intros; by apply pst_upd).
  assert (∀ k, proc_at (upd_proc j f t) k = if decide (j = k) then f (proc_at t j) else proc_at t k) as Hat
    by (intros; by apply proc_at_upd).
  assert (∀ k, valid (upd_proc j f t) k ↔ valid t k) as Hv by (intros; unfold valid; by rewrite length_upd_proc).
  assert (∀ k, alive (pst t k) → alive (pst (upd_proc j f t) k)) as Hal.
  { intros k Hk. rewrite Hst. case_decide; [|done]. subst k. rewrite Hej in Hk. by destruct (alive_not _ Hk) as (_ & ? & _). }
  assert (i ≠ j) as Hne by (intros ->; rewrite Hej in Hai; by destruct (alive_not _ Hai) as (_ & ? & _)).
  constructor.
  - destruct Hinit as (q & ? & ? & Haq & ?). exists q. rewrite Hv, Hat, decide_False; auto.
    intros ->. rewrite Hej in Haq. by destruct (alive_not _ Haq) as (_ & ? & _).
  - intros k Hk%Hv. rewrite Hat. case_decide; [|auto]. subst k. destruct Hf as [[_ ->]|[_ ->]]; congruence.
  - intros k Hk%Hv. rewrite Hst, Hat. case_decide.
    + intros ??. destruct Hf as [[? _]|[_ Hp]]; [done|]. right. exists i. rewrite Hp, Hv. auto.
    + intros ??. destruct (Hpar k) as [?|(q & ? & ? & ?)]; [done..|by left|right]. exists q. rewrite Hv. auto.
  - intros k Hk%Hv. rewrite Hst, Hat. case_decide; [|auto]. intros. destruct Hf as [[_ ?]|[? _]]; congruence.
  - intros k Hk%Hv. rewrite Hst. case_decide; [by destruct Hf as [[-> _]|[-> _]]|].
    intros Hek. destruct (Hem k Hk Hek) as [q Hq]. exists q. by apply (fork_split fs1 fs2 i j).
  - intros a b Hab. apply (fork_split fs1 fs2 i j) in Hab as [Hab Hbj]; [|done..].
    destruct (Hfk a b Hab) as (? & ? & ? & Hb & ?).
    rewrite !Hv, Hat, (Hst b), !(decide_False (P := j = b)) by congruence. split_and!; auto.
  - by eapply fork_drop_nd.
Qed.

Lemma fork_fail_inv t cs fs1 fs2 i j : p_parent (proc_at t j) = None →
  psys_inv (mkPsys t cs (fs1 ++ (i, j) :: fs2)) →
  psys_inv (mkPsys (upd_proc j (p_set_state UNUSED) t) cs (fs1 ++ fs2)).
Proof.
  intros Hpar [Hr Hp Hk Hw]. simpl in *.
  destruct (in_fork _ _ Hk i j) as (_ & _ & Hj & Hs & _); [apply elem_of_app; right; by left|].
  constructor; simpl.
  - apply run_upd; [done|congruence|done|done].
  - apply pid_upd; [done|done|congruence|done].
  - eapply drop_kin; [done|]. by left.
  - by apply wait_upd.
Qed.

Lemma fork_done_inv t cs fs1 fs2 i j : p_parent (proc_at t j) = Some i →
  psys_inv (mkPsys t cs (fs1 ++ (i, j) :: fs2)) →
  psys_inv (mkPsys (upd_proc j (p_set_state RUNNABLE) t) cs (fs1 ++ fs2)).
Proof.
  intros Hpar [Hr Hp Hk Hw]. simpl in *.
  destruct (in_fork _ _ Hk i j) as (_ & _ & Hj & Hs & _); [apply elem_of_app; right; by left|].
  constructor; simpl.
  - apply run_upd; [done|congruence|done|done].
  - apply pid_upd; [done|done|congruence|done].
  - eapply drop_kin; [done|]. by right.
  - by apply wait_upd.
Qed.

Lemma fork_parent_inv t cs fs i j : (i, j) ∈ fs → psys_inv (mkPsys t cs fs) →
  psys_inv (mkPsys (upd_proc j (p_set_parent (Some i)) t) cs fs).
Proof.
  intros Hij [Hr Hp Hk Hw]. simpl in *. destruct (in_fork _ _ Hk i j Hij) as (_ & _ & Hj & Hs & _).
  unfold pst in Hs. constructor; simpl.
  - apply run_upd; simpl; [done|unfold pst; congruence|congruence|done].
  - apply pid_upd; [done|done|unfold pst; congruence|done].
  - set (t' := upd_proc j (p_set_parent (Some i)) t).
    assert (∀ k, pst t' k = pst t k) as Hst.
    { intros k. unfold t'. rewrite pst_upd by done. case_decide; [by subst|done]. }
    assert (∀ k, k ≠ j → proc_at t' k = proc_at t k) as Hat.
    { intros k Hne. unfold t'. rewrite proc_at_upd, decide_False by done. done. }
    assert (∀ k, valid t' k ↔ valid t k) as Hv by (intros; unfold valid; unfold t'; by rewrite length_upd_proc).
    destruct Hk as [Hinit Hself Hpar Hun Hem Hfk Hnd]. destruct (Hfk i j Hij) as (_ & Hai & _ & Hej & _).
    constructor; [|intros k|intros k|intros k|intros k| |done].
    + destruct Hinit as (q & ? & ? & Haq & ?). exists q. rewrite Hv, Hst, Hat; auto.
      intros ->. rewrite Hej in Haq. by destruct (alive_not _ Haq) as (_ & ? & _).
    + intros Hk%Hv. destruct (decide (k = j)) as [->|]; [|rewrite Hat; auto]. unfold t'.
      rewrite proc_at_upd, decide_True by done. intros [= <-]. rewrite Hej in Hai.
      by destruct (alive_not _ Hai) as (_ & ? & _).
    + intros Hk%Hv. rewrite Hst. intros H1 H2. rewrite Hat by (intros ->; unfold pst in H2; congruence).
      destruct (Hpar k) as [?|(q & ? & ? & ?)]; [done..|by left|right]. exists q. rewrite Hv, Hst. auto.
    + intros Hk%Hv. rewrite Hst. intros H1. rewrite Hat by (intros ->; unfold pst in H1; congruence). auto.
    + intros Hk%Hv. rewrite Hst. auto.
    + intros a b Hab. destruct (Hfk a b Hab) as (? & ? & ? & Hb & ?). rewrite !Hv, !Hst. split_and!; auto.
      destruct (decide (b = j)) as [->|Hne]; [|by rewrite Hat]. right. unfold t'.
      rewrite proc_at_upd, decide_True by done. simpl. destruct Hnd as [_ Hnd].
      apply list_elem_of_lookup in Hij as [x Hx], Hab as [y Hy].
      assert (x = y) as ->; [|congruence]. eapply (NoDup_lookup fs.*2); [done| |]; rewrite list_lookup_fmap;
        [by rewrite Hx|by rewrite Hy].
  - apply wait_upd; simpl; [done|congruence|congruence|done].
Qed.

Lemma wait_scan_Some i t j b : wait_scan i t = (Some j, b) →
  valid t j ∧ pst t j = ZOMBIE ∧ p_parent (proc_at t j) = Some i.
Proof.
  intros [= [Hj [Hc Hz]%andb_true_iff]%first_Some _]. apply bool_decide_eq_true in Hc, Hz. done.
Qed.

Lemma reap_inv t cs fs i j b : wait_scan i t = (Some j, b) →
  psys_inv (mkPsys t cs fs) → psys_inv (mkPsys (upd_proc j reap_slot t) cs fs).
Proof.
  intros (Hj & Hz & _)%wait_scan_Some [Hr Hp Hk Hw]. simpl in *. set (t' := upd_proc j reap_slot t).
  assert (∀ k, pst t' k = if decide (j = k) then UNUSED else pst t k) as Hst by (intros; by apply pst_upd).
  assert (∀ k, proc_at t' k = if decide (j = k) then reap_slot (proc_at t j) else proc_at t k) as Hat
    by (intros; by apply proc_at_upd).
  assert (∀ k, valid t' k ↔ valid t k) as Hv by (intros; unfold valid, t'; by rewrite length_upd_proc).
  assert (∀ k, alive (pst t k) → j ≠ k) as Hne.
  { intros k Hk' ->. rewrite Hz in Hk'. by destruct (alive_not _ Hk') as (_ & _ & ?). }
  constructor; simpl; fold t'.
  - apply run_upd; [done|congruence|done|done].
  - destruct Hp as [Hn Hpid Hused Hinj]. constructor; [done| | |].
    + intros k Hk'%Hv. rewrite Hat. case_decide; simpl; [split; [done|apply Hn]|auto].
    + intros k Hk'%Hv. rewrite Hst, Hat. case_decide; [done|auto].
    + intros k l Hk'%Hv Hl%Hv. rewrite !Hat. repeat case_decide; subst; simpl; auto; congruence.
  - destruct Hk as [Hinit Hself Hpar Hun Hem Hfk Hnd]. constructor; [|intros k|intros k|intros k|intros k| |done].
    + destruct Hinit as (q & ? & ? & Haq & ?). exists q. rewrite Hv, Hst, Hat, !decide_False; auto.
    + intros Hk%Hv. rewrite Hat. case_decide; [done|auto].
    + intros Hk%Hv. rewrite Hst, Hat. case_decide; [done|]. intros ??.
      destruct (Hpar k) as [?|(q & ? & ? & ?)]; [done..|by left|right]. exists q. rewrite Hv, Hst, decide_False; auto.
    + intros Hk%Hv. rewrite Hst, Hat. case_decide; [done|auto].
    + intros Hk%Hv. rewrite Hst. case_decide; [done|auto].
    + intros a b' Hab. destruct (Hfk a b' Hab) as (? & ? & ? & Hb & ?).
      assert (j ≠ b') by congruence. rewrite !Hv, !Hst, Hat, !decide_False by auto. auto.
  - by apply wait_upd.
Qed.

(** The loop of exit over the entries in [D]. *)
Record reparented (D : nat → bool) (i : nat) (t t' : ptab) : Prop := mkReparented {
  rp_len : length (pt_proc t') = length (pt_proc t);
  rp_init : pt_initproc t' = pt_initproc t;
  rp_next : pt_nextpid t' = pt_nextpid t;
  rp_pid k : valid t k → p_pid (proc_at t' k) = p_pid (proc_at t k);
  rp_chan k : valid t k → p_chan (proc_at t' k) = p_chan (proc_at t k);
  rp_state k : valid t k → pst t' k = pst t k ∨ (pst t k = SLEEPING ∧ pst t' k = RUNNABLE);
  rp_parent k : valid t k → p_parent (proc_at t' k) =
    if D k && is_child i (proc_at t k) then pt_initproc t else p_parent (proc_at t k);
  rp_woken k q l : valid t k → valid t l → D k = true → is_child i (proc_at t k) = true → pst t k = ZOMBIE →
    pt_initproc t = Some q → ¬ waiting q (proc_at t' l)
}.

Lemma reparented_waiting D i t t' k q : reparented D i t t' → valid t k →
  waiting q (proc_at t' k) → waiting q (proc_at t k).
Proof.
  intros [] Hk [Hs Hc]. rewrite rp_chan0 in Hc by done. split; [|done].
  destruct (rp_state0 k Hk) as [E|[_ E]]; unfold pst in E; congruence.
Qed.

Lemma reparented_refl D i t : (∀ k, valid t k → D k = true → is_child i (proc_at t k) = false) → reparented D i t t.
Proof.
  intros HD. constructor; try done; auto.
  - intros k Hk. destruct (D k) eqn:E; simpl; [|done]. by rewrite HD.
  - intros k q l Hk _ HDk Hc. by rewrite HD in Hc.
Qed.

Lemma reparented_trans D1 D2 i t1 t2 t3 :
  (∀ k, D1 k = true → D2 k = false) →
  reparented D1 i t1 t2 → reparented D2 i t2 t3 → reparented (λ k, D1 k || D2 k) i t1 t3.
Proof.
  intros HD [] H2. pose proof H2 as []. assert (∀ k, valid t2 k ↔ valid t1 k) as Hv by (unfold valid; by rewrite rp_len0).
  assert (∀ k, valid t1 k → D1 k = false → p_parent (proc_at t2 k) = p_parent (proc_at t1 k)) as Hpp.
  { intros k Hk E. by rewrite rp_parent0, E. }
  assert (∀ k, valid t1 k → D1 k = false → is_child i (proc_at t2 k) = is_child i (proc_at t1 k)) as Hcc.
  { intros k Hk E. unfold is_child. by rewrite Hpp. }
  constructor; try (intros k Hk; pose proof (proj2 (Hv k) Hk) as Hk2).
  - congruence.
  - congruence.
  - congruence.
  - by rewrite rp_pid1, rp_pid0.
  - by rewrite rp_chan1, rp_chan0.
  - destruct (rp_state0 k Hk) as [E|[E1 E2]], (rp_state1 k Hk2) as [E'|[E1' E2']]; rewrite ?E, ?E' in *; auto;
      right; split; congruence.
  - rewrite rp_parent1 by done. destruct (D1 k) eqn:E; simpl.
    + rewrite (HD k E). simpl. by rewrite rp_parent0, E.
    + rewrite Hcc, rp_init0, Hpp by done. done.
  - intros k q l Hk Hl HDk Hc Hz Hq. destruct (D1 k) eqn:E; simpl in HDk.
    + intros Hwt%(reparented_waiting D2 i t2 t3); [|done|by apply Hv]. by eapply (rp_woken0 k q l).
    + eapply (rp_woken1 k q l); try done; [by apply Hv|by apply Hv|by rewrite Hcc| |congruence].
      destruct (rp_state0 k Hk) as [->|[? _]]; congruence.
Qed.

Definition reparent_step (j i : nat) (t : ptab) : ptab :=
  if is_child i (proc_at t j) then
    let t1 := upd_proc j (p_set_parent (pt_initproc t)) t in
    if is_state ZOMBIE (proc_at t1 j) then
      match pt_initproc t1 with Some q => wakeup1 (ChProc q) t1 | None => t1 end
    else t1
  else t.

Lemma reparent_step_spec j i t : valid t j → reparented (Nat.eqb j) i t (reparent_step j i t).
Proof.
  intros Hj. unfold reparent_step. destruct (is_child i (proc_at t j)) eqn:Hc.
  2:{ apply reparented_refl. by intros k _ <-%Nat.eqb_eq. }
  set (t1 := upd_proc j (p_set_parent (pt_initproc t)) t). cbv zeta.
  assert (∀ k, proc_at t1 k = if decide (j = k) then p_set_parent (pt_initproc t) (proc_at t j) else proc_at t k) as Hat
    by (intros; by apply proc_at_upd).
  assert (∀ k, p_pid (proc_at t1 k) = p_pid (proc_at t k) ∧ p_chan (proc_at t1 k) = p_chan (proc_at t k) ∧
    pst t1 k = pst t k ∧ p_parent (proc_at t1 k) =
      if (j =? k)%nat && is_child i (proc_at t k) then pt_initproc t else p_parent (proc_at t k)) as H1.
  { intros k. unfold pst. rewrite Hat. destruct (Nat.eqb_spec j k); [subst|by rewrite decide_False].
    rewrite decide_True, Hc by done. done. }
  assert (length (pt_proc t1) = length (pt_proc t)) as Hl by apply length_upd_proc.
  destruct (is_state ZOMBIE (proc_at t1 j)) eqn:Hz; [destruct (pt_initproc t1) as [q|] eqn:Hq|].
  - constructor; try done; try (intros k Hk; destruct (H1 k) as (E1 & E2 & E3 & E4);
      assert (valid t1 k) as Hk1 by (unfold valid; by rewrite Hl)).
    + by rewrite length_wakeup1.
    + destruct (wakeup1_slot (ChProc q) t1 k Hk1) as [->|[_ ->]]; [done|]. done.
    + destruct (wakeup1_slot (ChProc q) t1 k Hk1) as [->|[_ ->]]; [done|]. done.
    + unfold pst. destruct (wakeup1_slot (ChProc q) t1 k Hk1) as [->|[E ->]]; [by left|]. right. split; [unfold pst in *; congruence|done].
    + destruct (wakeup1_slot (ChProc q) t1 k Hk1) as [->|[_ ->]]; [done|]. done.
    + intros k q' l Hk' Hl' _ _ _ Hq'. assert (q' = q) as -> by (unfold t1 in Hq; simpl in Hq; congruence).
      apply wakeup1_none. unfold valid. by rewrite Hl.
  - constructor; try done; try (intros k Hk; by destruct (H1 k) as (E1 & E2 & E3 & E4); auto).
    intros k q l _ _ _ _ _ Hq'. unfold t1 in Hq. simpl in Hq. congruence.
  - constructor; try done; try (intros k Hk; by destruct (H1 k) as (E1 & E2 & E3 & E4); auto).
    intros k q l _ _ E%Nat.eqb_eq _ Hzk. subst k. destruct (H1 j) as (_ & _ & E3 & _).
    apply bool_decide_eq_false in Hz. unfold pst in *. congruence.
Qed.

Lemma reparent_loop_spec n j i t : (j + n)%nat = length (pt_proc t) →
  reparented (λ k, (j <=? k)%nat) i t (reparent_loop n j i t).
Proof.
  revert j t. induction n as [|n IH]; intros j t Hl.
  - simpl. apply reparented_refl. unfold valid. intros k Hk E%Nat.leb_le. lia.
  - cbn [reparent_loop]. change (let _ := _ in _) with (reparent_loop n (S j) i (reparent_step j i t)).
    pose proof (reparent_step_spec j i t ltac:(unfold valid; lia)) as H1.
    assert (S j + n = length (pt_proc (reparent_step j i t)))%nat as Hl' by (rewrite (rp_len _ _ _ _ H1); lia).
    assert (∀ k, (j =? k)%nat = true → (S j <=? k)%nat = false) as HD by lia.
    destruct (reparented_trans _ _ _ _ _ _ HD H1 (IH _ _ Hl')). assert (∀ k, (j =? k)%nat || (S j <=? k)%nat = (j <=? k)%nat) as E by lia.
    constructor; try done; intros k; [rewrite <- E; apply rp_parent0|rewrite <- E; apply rp_woken0].
Qed.

(** The state of the table when process [i] exits. *)
Record exited (i : nat) (t t' : ptab) : Prop := mkExited {
  ex_len : length (pt_proc t') = length (pt_proc t);
  ex_init : pt_initproc t' = pt_initproc t;
  ex_next : pt_nextpid t' = pt_nextpid t;
  ex_pid k : valid t k → p_pid (proc_at t' k) = p_pid (proc_at t k);
  ex_self : pst t' i = ZOMBIE;
  ex_state k : valid t k → k ≠ i → pst t' k = pst t k ∨ (pst t k = SLEEPING ∧ pst t' k = RUNNABLE);
  ex_parent k : valid t k → p_parent (proc_at t' k) =
    if is_child i (proc_at t k) then pt_initproc t else p_parent (proc_at t k);
  ex_waiting k q : valid t k → waiting q (proc_at t' k) → waiting q (proc_at t k);
  ex_woken q l : valid t l → p_parent (proc_at t i) = Some q → ¬ waiting q (proc_at t' l);
  ex_adopted k q l : valid t k → valid t l → is_child i (proc_at t k) = true → pst t k = ZOMBIE →
    pt_initproc t = Some q → ¬ waiting q (proc_at t' l)
}.

Lemma exit_table_spec i t : valid t i → exited i t (exit_table i t).
Proof.
  intros Hi. unfold exit_table.
  set (t1 := match p_parent (proc_at t i) with Some q => wakeup1 (ChProc q) t | None => t end).
  assert (length (pt_proc t1) = length (pt_proc t)) as Hl1.
  { unfold t1. destruct (p_parent _); [apply length_wakeup1|done]. }
  assert (∀ k, valid t1 k ↔ valid t k) as Hv1 by (intros; unfold valid; by rewrite Hl1).
  assert (∀ k, valid t k → proc_at t1 k = proc_at t k ∨
    (pst t k = SLEEPING ∧ proc_at t1 k = p_set_state RUNNABLE (proc_at t k))) as H1.
  { intros k Hk. unfold t1. destruct (p_parent (proc_at t i)); [by apply wakeup1_slot|by left]. }
  assert (∀ q l, valid t l → p_parent (proc_at t i) = Some q → ¬ waiting q (proc_at t1 l)) as Hw1.
  { intros q l Hl E. unfold t1. rewrite E. by apply wakeup1_none. }
  assert (pt_initproc t1 = pt_initproc t ∧ pt_nextpid t1 = pt_nextpid t) as [Hi1 Hn1].
  { unfold t1. by destruct (p_parent (proc_at t i)). }
  pose proof (reparent_loop_spec (length (pt_proc t1)) 0 i t1 eq_refl) as H2.
  set (t2 := reparent_loop _ 0 i t1) in *. pose proof H2 as [].
  assert (∀ k, valid t2 k ↔ valid t k) as Hv2 by (intros; unfold valid; by rewrite rp_len0, Hl1).
  assert (valid t2 i) as Hi2 by (by apply Hv2).
  assert (∀ k q, valid t k → waiting q (proc_at t2 k) → waiting q (proc_at t1 k)) as Hw2.
  { intros k q Hk. eapply reparented_waiting; [exact H2|]. by apply Hv1. }
  assert (∀ k, valid t k → is_child i (proc_at t1 k) = is_child i (proc_at t k)) as Hc1.
  { intros k Hk. by destruct (H1 k Hk) as [->|[_ ->]]. }
  assert (∀ k q, valid t k → waiting q (proc_at (upd_proc i (p_set_state ZOMBIE) t2) k) → waiting q (proc_at t2 k)) as Hw3.
  { intros k q _. apply waiting_upd; [done|]. by intros [? _]. }
  assert (∀ k, valid t k → pst t2 k = pst t k ∨ (pst t k = SLEEPING ∧ pst t2 k = RUNNABLE)) as Hs2.
  { intros k Hk. destruct (rp_state0 k) as [E|[E1 E2]]; [by apply Hv1| |].
    - unfold pst in *. rewrite E. destruct (H1 k Hk) as [->|[? ->]]; auto.
    - unfold pst in *. destruct (H1 k Hk) as [E|[? E]]; rewrite E in E1; [by right|done]. }
  constructor.
  - rewrite length_upd_proc. congruence.
  - simpl. congruence.
  - simpl. congruence.
  - intros k Hk. rewrite proc_at_upd by done. rewrite <- Hv1 in Hk.
    assert (p_pid (proc_at t2 k) = p_pid (proc_at t k)) as E.
    { rewrite rp_pid0 by done. apply Hv1 in Hk. by destruct (H1 k Hk) as [->|[_ ->]]. }
    case_decide; [subst k|]; exact E.
  - rewrite pst_upd by done. by rewrite decide_True.
  - intros k Hk Hne. rewrite pst_upd, decide_False by done. auto.
  - intros k Hk. rewrite proc_at_upd by done.
    assert (p_parent (proc_at t2 k) = if is_child i (proc_at t k) then pt_initproc t else p_parent (proc_at t k)) as E.
    { rewrite rp_parent0 by (by apply Hv1). simpl. rewrite Hc1, Hi1 by done.
      destruct (is_child i _); [done|]. by destruct (H1 k Hk) as [->|[_ ->]]. }
    case_decide; [subst k|]; exact E.
  - intros k q Hk Hq%Hw3%Hw2; [|done..]. destruct (H1 k Hk) as [E|[_ E]]; rewrite E in Hq; [done|by destruct Hq].
  - intros q l Hl Hp Hq%Hw3%Hw2; [|done..]. by eapply Hw1.
  - intros k q l Hk Hl Hc Hz Hq Hwt%Hw3; [|done]. eapply (rp_woken0 k q l); try done; [by apply Hv1|by apply Hv1|by rewrite Hc1| |congruence].
    unfold pst in *. destruct (H1 k Hk) as [->|[? _]]; [done|congruence].
Qed.

Lemma exit_kin t t' fs i : exited i t t' → valid t i → pst t i = RUNNING → ¬ forking fs i → pt_initproc t ≠ Some i →
  kin_inv t fs → kin_inv t' fs.
Proof.
  intros Hex Hi Hs Hnf Hni [Hinit Hself Hpar Hun Hem Hfk Hnd]. pose proof Hex as [].
  assert (∀ k, valid t' k ↔ valid t k) as Hv by (intros; unfold valid; by rewrite ex_len0).
  assert (∀ k, valid t k → k ≠ i → alive (pst t k) → alive (pst t' k)) as Hal.
  { intros k Hk Hne Ha. destruct (ex_state0 k Hk Hne) as [->|[_ ->]]; auto. }
  assert (∀ k st, valid t k → pst t' k = st → ¬ alive st → st ≠ ZOMBIE → pst t k = st) as Hst.
  { intros k st Hk <- Hna Hz. destruct (decide (k = i)) as [->|Hne]; [done|].
    destruct (ex_state0 k Hk Hne) as [->|[_ E]]; [done|]. rewrite E in Hna. by destruct Hna; auto. }
  destruct Hinit as (q0 & Hq0 & Hvq & Haq & Hpq). destruct dead_states as (Hd1 & Hd2 & _).
  assert (q0 ≠ i) as Hq0i by congruence.
  assert (∀ p, is_child i p = true ↔ p_parent p = Some i) as Hch by (intros; apply bool_decide_eq_true).
  constructor.
  - exists q0. rewrite Hv, ex_init0, ex_parent0 by done. split_and!; auto.
    destruct (is_child i (proc_at t q0)) eqn:E; [apply Hch in E; congruence|done].
  - intros k Hk%Hv. rewrite ex_parent0 by done. destruct (is_child i (proc_at t k)) eqn:E; [|auto].
    apply Hch in E. intros E'. congruence.
  - intros k Hk%Hv Hnu Hne. rewrite ex_init0, ex_parent0 by done.
    destruct (is_child i (proc_at t k)) eqn:E; [right; exists q0; rewrite Hv; auto|].
    assert (pst t k ≠ UNUSED ∧ pst t k ≠ EMBRYO) as [Hnu' Hne'].
    { destruct (decide (k = i)) as [->|Hki]; [by rewrite Hs|]. destruct (ex_state0 k Hk Hki) as [E'|[E' _]]; rewrite E' in *; done. }
    destruct (Hpar k) as [?|(q & ? & ? & ?)]; [done..|by left|]. right. exists q. rewrite Hv. split_and!; auto.
    apply Hal; auto. intros ->. apply not_true_iff_false in E. by apply E, Hch.
  - intros k Hk%Hv Hu%Hst; [|done..]. rewrite ex_parent0 by done. destruct (is_child i (proc_at t k)) eqn:E; [|auto].
    apply Hch in E. rewrite Hun in E by done. done.
  - intros k Hk%Hv He%Hst; [|done..]. auto.
  - intros a b Hab. destruct (Hfk a b Hab) as (Ha & Haa & Hb & Heb & Hpb).
    assert (a ≠ i) as Hai by (intros ->; apply Hnf, list_elem_of_fmap; by exists (i, b)).
    assert (b ≠ i) as Hbi by congruence. rewrite !Hv, ex_parent0 by done. split_and!; auto.
    + destruct (ex_state0 b Hb Hbi) as [->|[? _]]; congruence.
    + destruct (is_child i (proc_at t b)) eqn:E; [|done]. apply Hch in E. destruct Hpb; congruence.
  - done.
Qed.

Lemma exit_inv t cs fs c i : on_cpu cs c i → ¬ forking fs i → pt_initproc t ≠ Some i →
  psys_inv (mkPsys t cs fs) → psys_inv (mkPsys (exit_table i t) (<[c := None]> cs) fs).
Proof.
  intros Hc Hnf Hni [Hr Hp Hk Hw]. simpl in *. destruct (in_cpu t cs Hr c i Hc) as [Hi Hs].
  pose proof (exit_table_spec i t Hi) as Hex. set (t' := exit_table i t) in *. pose proof Hex as [].
  assert (∀ k, valid t' k ↔ valid t k) as Hv by (intros; unfold valid; by rewrite ex_len0).
  assert (∀ p, is_child i p = true ↔ p_parent p = Some i) as Hch by (intros; apply bool_decide_eq_true).
  constructor; simpl; fold t'.
  - eapply run_leave; [done|done| |done]. intros k Hk'. destruct (decide (k = i)) as [->|Hne].
    + rewrite ex_self0. naive_solver.
    + destruct (ex_state0 k Hk' Hne) as [->|[-> ->]]; naive_solver.
  - destruct Hp as [Hn Hpid Hused Hinj]. constructor; rewrite ?ex_next0; [done| | |].
    + intros k Hk'%Hv. rewrite ex_pid0 by done. auto.
    + intros k Hk'%Hv Hu. rewrite ex_pid0 by done. apply Hused; [done|].
      destruct (decide (k = i)) as [->|Hne]; [congruence|]. destruct (ex_state0 k Hk' Hne) as [E|[E _]]; congruence.
    + intros k l Hk'%Hv Hl%Hv. rewrite !ex_pid0 by done. auto.
  - eapply exit_kin; eauto.
  - destruct Hw as [Hchan Hwt]. destruct (in_init _ _ Hk) as (q0 & Hq0 & _). constructor.
    + intros k q Hk'%Hv Hq%ex_waiting0; eauto.
    + intros k q Hk'%Hv Hq%Hv Hz. rewrite ex_parent0 by done. destruct (decide (k = i)) as [->|Hne].
      * pose proof (in_self _ _ Hk i Hi) as Hself. destruct (is_child i (proc_at t i)) eqn:E; [by apply Hch in E|].
        intros Hpq. by apply ex_woken0.
      * assert (pst t k = ZOMBIE) as Hzk by (destruct (ex_state0 k Hk' Hne) as [E|[_ E]]; congruence).
        destruct (is_child i (proc_at t k)) eqn:E.
        -- intros Hq'. by apply (ex_adopted0 k q q).
        -- intros Hpq Hq'%ex_waiting0; [|done]. exact (Hwt k q Hk' Hq Hzk Hpq Hq').
Qed.

Lemma pstep_inv s s' : pstep s s' → psys_inv s → psys_inv s'.
Proof.
  destruct 1; eauto using sched_inv, yield_inv, sleep_inv, resume_inv, wakeup_inv, kill_inv, fork_alloc_inv,
    fork_fail_inv, fork_parent_inv, fork_done_inv, exit_inv, reap_inv, wait_sleep_inv.
Qed.

Lemma psteps_inv s s' : rtc pstep s s' → psys_inv s → psys_inv s'.
Proof. induction 1; eauto using pstep_inv. Qed.

(** ** From boot on *)

(** The table after userinit: init in slot 0, with pid 1. *)
Definition boot_tab : ptab :=
  mkPtab (<[0%nat := p_set_state RUNNABLE (init_slot 1 proc_zero)]> (replicate (Z.to_nat NPROC) proc_zero)) 2 (Some 0%nat).
Definition boot (ncpu : nat) : psys := mkPsys boot_tab (replicate ncpu None) [].

Lemma boot_slot i : valid boot_tab i → i = 0%nat ∨ (i ≠ 0%nat ∧ proc_at boot_tab i = proc_zero).
Proof.
  intros Hi. destruct (decide (i = 0%nat)) as [->|Hne]; [by left|]. right. split; [done|].
  unfold proc_at, boot_tab. cbn [pt_proc]. rewrite arr_insert_ne by done. apply lookup_total_replicate_2.
  unfold valid in Hi. cbn [boot_tab pt_proc] in Hi. by rewrite length_insert, length_replicate in Hi.
Qed.

Lemma boot_inv n : psys_inv (boot n).
Proof.
  assert (∀ c i, ¬ on_cpu (replicate n None) c i) as Hno.
  { intros c i [Hc _]%lookup_replicate. done. }
  constructor; simpl.
  - constructor; [intros c i Hc; by destruct (Hno c i)|intros c c' i Hc; by destruct (Hno c i)|].
    intros i Hi Hs. destruct (boot_slot i Hi) as [->|[_ E]]; [done|]. unfold pst in Hs. by rewrite E in Hs.
  - constructor; [done| | |].
    + intros i Hi. destruct (boot_slot i Hi) as [->|[_ E]]; [done|]. rewrite E. done.
    + intros i Hi. unfold pst. destruct (boot_slot i Hi) as [->|[_ E]]; [done|]. by rewrite E.
    + intros i j Hi Hj. destruct (boot_slot i Hi) as [->|[_ Ei]], (boot_slot j Hj) as [->|[_ Ej]];
        rewrite ?Ei, ?Ej; done.
  - constructor.
    + exists 0%nat. split_and!; [done|unfold valid; simpl; lia|by right; left|done].
    + intros i Hi. destruct (boot_slot i Hi) as [->|[_ E]]; [done|]. by rewrite E.
    + intros i Hi. unfold pst. destruct (boot_slot i Hi) as [->|[_ E]]; [by left|]. by rewrite E.
    + intros i Hi. unfold pst. destruct (boot_slot i Hi) as [->|[_ E]]; [done|]. by rewrite E.
    + intros i Hi. unfold pst. destruct (boot_slot i Hi) as [->|[_ E]]; [done|]. by rewrite E.
    + intros i j Hij. by apply not_elem_of_nil in Hij.
    + split; apply NoDup_nil_2.
  - constructor.
    + intros i q Hi [Hs _]. destruct (boot_slot i Hi) as [->|[_ E]]; [done|]. by rewrite E in Hs.
    + intros i q Hi _ Hs. unfold pst in Hs. destruct (boot_slot i Hi) as [->|[_ E]]; [done|]. by rewrite E in Hs.
Qed.


(** C13. No exit goes unnoticed: the parent of a zombie is alive and does not
    sleep in [wait], in every interleaving, also when the parent is init and
    adopted the zombie. *)
Theorem zombie_parent_not_waiting ncpu s z : rtc pstep (boot ncpu) s →
  valid (sy_tab s) z → p_state (proc_at (sy_tab s) z) = ZOMBIE → pt_initproc (sy_tab s) ≠ Some z →
  ∃ q, p_parent (proc_at (sy_tab s) z) = Some q ∧ alive (p_state (proc_at (sy_tab s) q)) ∧
    ¬ (p_state (proc_at (sy_tab s) q) = SLEEPING ∧ p_chan (proc_at (sy_tab s) q) = Some (ChProc q)).
Proof.
  intros Hr Hz Hs Hi. destruct (psteps_inv _ _ Hr (boot_inv ncpu)) as [_ _ Hk Hw].
  destruct (in_parent _ _ Hk z Hz) as [?|(q & Hp & Hq & Ha)]; unfold pst in *; [congruence..|done|].
  exists q. split_and!; [done|done|]. exact (in_wait _ Hw z q Hz Hq Hs Hp).
Qed.

(** A run: init forks a child and waits, and the child exits. *)
Definition child_tab : ptab :=
  let t := upd_proc 0 (p_set_state RUNNING) boot_tab in
  let t := match alloc_slot t with Some (_, t') => t' | None => t end in
  let t := upd_proc 1 (p_set_state RUNNABLE) (upd_proc 1 (p_set_parent (Some 0%nat)) t) in
  go_to_sleep 0 (ChProc 0) (upd_proc 1 (p_set_state RUNNING) t).
Definition child_exited : psys := mkPsys (exit_table 1 child_tab) [None; None] [].

Lemma child_exited_reachable : rtc pstep (boot 2) child_exited.
Proof.
  eapply rtc_l; [apply (st_sched _ _ _ 0 0); vm_compute; [done|lia|done]|].
  eapply rtc_l; [eapply (st_fork_alloc _ _ _ 0 0 1); [done|by intros ?%not_elem_of_nil|done|reflexivity]|].
  eapply rtc_l; [apply (st_fork_parent _ _ _ 0 0 1); [done|by left]|].
  eapply rtc_l; [apply (st_fork_done _ _ [] [] 0 0 1); [done|by vm_compute]|].
  eapply rtc_l; [apply (st_sched _ _ _ 1 1); [done|vm_compute; lia|by vm_compute]|].
  eapply rtc_l; [apply (st_wait_sleep _ _ _ 0 0); [done|by intros ?%not_elem_of_nil|by vm_compute|by vm_compute]|].
  eapply rtc_l; [apply (st_exit _ _ _ 1 1); [done|by intros ?%not_elem_of_nil|by vm_compute]|].
  apply rtc_refl.
Qed.


Lemma zombie_parent_not_waiting_witness :
  ∃ q, p_parent (proc_at (sy_tab child_exited) 1) = Some q ∧ alive (p_state (proc_at (sy_tab child_exited) q)) ∧
    ¬ (p_state (proc_at (sy_tab child_exited) q) = SLEEPING ∧
       p_chan (proc_at (sy_tab child_exited) q) = Some (ChProc q)).
Proof.
  apply (zombie_parent_not_waiting 2 child_exited 1 child_exited_reachable); [vm_compute; lia|by vm_compute|by vm_compute].
Defined.

(** ** kill(0) *)

Lemma first_Some_min f l i k : first f l = Some i → (k < i)%nat → f (l !!! k) = false.
Proof.
  revert i k. induction l as [|p l IH]; intros i k; simpl; [done|]. destruct (f p) eqn:Ef.
  - intros [= <-]. lia.
  - intros (j & Hj & ->)%fmap_Some Hk. destruct k as [|k]; [done|]. simpl. apply (IH j); [done|lia].
Qed.

Lemma first_is f l i : (i < length l)%nat → f (l !!! i) = true → (∀ k, (k < i)%nat → f (l !!! k) = false) →
  first f l = Some i.
Proof.
  revert i. induction l as [|p l IH]; intros i Hi Hf Hmin; simpl in *; [lia|].
  destruct i as [|i]; simpl in *; [by rewrite Hf|]. pose proof (Hmin 0%nat ltac:(lia)) as H0. simpl in H0. rewrite H0.
  rewrite (IH i); [done|lia|done|]. intros k Hk. apply (Hmin (S k)). lia.
Qed.

(** [kill(0)] does not fail: the id of a free slot is 0, so it succeeds
    and marks the free slot as killed, and allocproc does not clear the mark.
    In every reachable state where the first free slot has id 0, the next
    process created after a [kill(0)] is killed from birth. *)
Theorem kill_zero_kills_next_process ncpu s j t' : rtc pstep (boot ncpu) s →
  alloc_slot (sy_tab s) = Some (j, t') → p_pid (proc_at (sy_tab s) j) = 0 →
  ∃ t1 t2, kill_table 0 (sy_tab s) = Some t1 ∧ alloc_slot t1 = Some (j, t2) ∧
    p_killed (proc_at t2 j) = 1 ∧ p_state (proc_at t2 j) = EMBRYO.
Proof.
  intros Hr (i & Hf & [= -> <-])%bind_Some Hp0. destruct (psteps_inv _ _ Hr (boot_inv ncpu)) as [_ Hp _ _].
  set (t := sy_tab s) in *. pose proof (first_Some _ _ _ Hf) as [Hj Hu]. apply bool_decide_eq_true in Hu.
  assert (first (λ p, p_pid p =? 0) (pt_proc t) = Some j) as Hk.
  { apply first_is; [done|by apply Z.eqb_eq|]. intros k Hk. apply Z.eqb_neq.
    apply (in_pid_used _ Hp k); [unfold valid; lia|]. pose proof (first_Some_min _ _ _ k Hf Hk) as Hn.
    by apply bool_decide_eq_false in Hn. }
  set (t1 := upd_proc j kill_slot t).
  assert (∀ k, proc_at t1 k = if decide (j = k) then kill_slot (proc_at t j) else proc_at t k) as Hat
    by (intros; by apply proc_at_upd).
  assert (p_state (kill_slot (proc_at t j)) = UNUSED) as Hks.
  { unfold kill_slot, is_state, proc_at. cbn [p_state p_set_killed]. rewrite Hu. done. }
  assert (p_killed (kill_slot (proc_at t j)) = 1) as Hkk by (unfold kill_slot; by destruct (is_state _ _)).
  assert (first (is_state UNUSED) (pt_proc t1) = Some j) as Hf1.
  { apply first_is; [unfold t1; by rewrite length_upd_proc| |].
    - change (pt_proc t1 !!! j) with (proc_at t1 j). rewrite Hat, decide_True by done. unfold is_state. by rewrite Hks.
    - intros k Hkj. change (pt_proc t1 !!! k) with (proc_at t1 k). rewrite Hat, decide_False by lia.
      exact (first_Some_min _ _ _ k Hf Hkj). }
  exists t1. eexists. split_and!; [unfold kill_table; by rewrite Hk|unfold alloc_slot; by rewrite Hf1|..].
  - change (p_killed (proc_at (upd_proc j (init_slot (pt_nextpid t1)) t1) j) = 1).
    rewrite proc_at_upd, decide_True by (done || (unfold t1; by rewrite length_upd_proc)). simpl.
    rewrite Hat, decide_True by done. done.
  - change (p_state (proc_at (upd_proc j (init_slot (pt_nextpid t1)) t1) j) = EMBRYO).
    rewrite proc_at_upd, decide_True by (done || (unfold t1; by rewrite length_upd_proc)). done.
Qed.

Lemma kill_zero_kills_next_process_witness :
  ∃ t1 t2, kill_table 0 boot_tab = Some t1 ∧ alloc_slot t1 = Some (1%nat, t2) ∧
    p_killed (proc_at t2 1) = 1 ∧ p_state (proc_at t2 1) = EMBRYO.
Proof.
  eapply (kill_zero_kills_next_process 1 (boot 1)); [apply rtc_refl|reflexivity|by vm_compute].
Defined.
