(* ===== verification/ProcProps.v ===== *)
(** * Properties of the process handlers

    One pass of the scheduler gives the CPU to every process that is ready and that
    no other CPU takes. *)

From stdpp Require Import base numbers option list gmap strings sorting.
From Stdlib Require Import ZArith Lia ZifyBool.
From S2P Require Import Prelude Bytes Kalloc Console Vm Block Log Txn Fs Kernel File Proc ProcProto.
Import Kernel Proc.
Local Open Scope Z_scope.

(** ** The scheduler *)

Section scheduler.
Context {T : Type}.
Implicit Types k : kernel T.

(** Entry [j] is ready to run. *)
Definition ready (k : kernel T) (j : nat) : Prop := p_state (proc_at (k_ptab k) j) = RUNNABLE.

(** A process that is ready has an address space. *)
Definition spaces (k : kernel T) : Prop := ∀ j, ready k j → p_pgdir (proc_at (k_ptab k) j) ≠ 0.

(** The CPU is set up for process [i]: it is the current process and marked running,
    its page directory is loaded, and a trap will switch to its kernel stack. *)
Record dispatched (k : kernel T) (i : nat) : Prop := mkDispatched {
  di_proc : k_proc k = Some i;
  di_state : p_state (proc_at (k_ptab k) i) = RUNNING;
  di_cr3 : r_cr3 (k_cpu k) = Kalloc.v2p (p_pgdir (proc_at (k_ptab k) i));
  di_ss0 : r_ss0 (k_cpu k) = SEG_KDATA * 8;
  di_esp0 : r_esp0 (k_cpu k) = u32 (p_kstack (proc_at (k_ptab k) i) + KSTACKSIZE)
}.

(** What a process that was dispatched, and the other CPUs meanwhile, may do before it
    gives the CPU back: anything, but the table keeps its size and ready processes
    have address spaces. *)
Definition gives_back (swtch : kM (kernel T) unit) : Prop :=
  ∀ k i, dispatched k i → spaces k →
    wp swtch k (λ _ k', spaces k' ∧ length (pt_proc (k_ptab k')) = length (pt_proc (k_ptab k))).

(** Process [j], when it is ready, is not taken by another CPU while process [i] runs. *)
Definition left_alone (swtch : kM (kernel T) unit) (j : nat) : Prop :=
  ∀ k i, dispatched k i → spaces k → j ≠ i → ready k j → wp swtch k (λ _ k', ready k' j).

Lemma switchuvm_wp k i : k_proc k = Some i → p_pgdir (proc_at (k_ptab k) i) ≠ 0 →
  wp (switchuvm i) k (λ _ k', k_ptab k' = k_ptab k ∧ k_proc k' = k_proc k ∧
    k_cpu k' = mkCpuregs (Kalloc.v2p (p_pgdir (proc_at (k_ptab k) i))) (SEG_KDATA * 8) (u32 (p_kstack (proc_at (k_ptab k) i) + KSTACKSIZE))).
Proof.
  intros Hp Hd. unfold switchuvm, cur, myproc. wps. unfold wp at 1. rewrite Hp. simpl. wps.
  rewrite (proj2 (Z.eqb_neq _ _) Hd). by wps.
Qed.

(** Everything before the switch. *)
Lemma dispatch_wp {A} k i (m : kM (kernel T) A) (Q : A → kernel T → Prop) : ready k i → spaces k → (i < length (pt_proc (k_ptab k)))%nat →
  (∀ k', dispatched k' i → spaces k' → length (pt_proc (k_ptab k')) = length (pt_proc (k_ptab k)) →
    (∀ j, j ≠ i → ready k j → ready k' j) → wp m k' Q) →
  wp (_ ← modify (set_proc (Some i)); _ ← switchuvm i; _ ← upd_at i (p_set_state RUNNING); m) k Q.
Proof.
  intros Hr Hsp Hi HQ. rewrite wp_bind, wp_modify, wp_bind. set (k1 := set_proc (Some i) k).
  eapply wp_mono; [apply (switchuvm_wp k1 i); [done|by apply Hsp]|]. change (k_ptab k1) with (k_ptab k).
  intros _ k2 (E2 & Ep2 & Ec2). unfold upd_at. rewrite wp_bind, wp_modify.
  set (k3 := set_ptab _ k2). assert (k_ptab k3 = upd_proc i (p_set_state RUNNING) (k_ptab k)) as E3.
  { change (upd_proc i (p_set_state RUNNING) (k_ptab k2) = upd_proc i (p_set_state RUNNING) (k_ptab k)). by rewrite E2. }
  assert (∀ j, j ≠ i → proc_at (k_ptab k3) j = proc_at (k_ptab k) j) as Hj3.
  { intros j Hne. by rewrite E3, proc_at_upd, decide_False by done. }
  assert (proc_at (k_ptab k3) i = p_set_state RUNNING (proc_at (k_ptab k) i)) as Hi3 by (by rewrite E3, proc_at_upd, decide_True).
  apply HQ.
  - constructor; [exact Ep2|by rewrite Hi3|..]; rewrite ?Hi3; change (k_cpu k3) with (k_cpu k2); by rewrite Ec2.
  - intros j. unfold ready. destruct (decide (j = i)) as [->|Hne]; [by rewrite Hi3|]. rewrite Hj3 by done. apply Hsp.
  - by rewrite E3, length_upd_proc.
  - intros j Hne. unfold ready. by rewrite Hj3.
Qed.

Lemma scheduler_loop_wp swtch n i k : gives_back swtch → spaces k →
  (i + n)%nat = length (pt_proc (k_ptab k)) →
  wp (scheduler_loop swtch n i) k (λ l k', (∀ j, (i ≤ j < i + n)%nat → left_alone swtch j → ready k j → j ∈ l) ∧
    Forall (λ j, i ≤ j)%nat l ∧ StronglySorted lt l).
Proof.
  intros Hg. revert i k. induction n as [|n IH]; intros i k Hsp Hl; cbn [scheduler_loop].
  { wps. split_and!; [lia|constructor|constructor]. }
  rewrite wp_bind, wp_gets. destruct (is_state RUNNABLE (proc_at (k_ptab k) i)) eqn:Hr; cbn [negb].
  - apply bool_decide_eq_true in Hr. apply dispatch_wp; [done|done|lia|]. intros k3 Hd3 Hsp3 Hl3 Hrd3.
    assert (wp swtch k3 (λ _ k', (spaces k' ∧ length (pt_proc (k_ptab k')) = length (pt_proc (k_ptab k3))) ∧
      ∀ j, j ≠ i → left_alone swtch j → ready k3 j → ready k' j)) as Hsw.
    { pose proof (Hg k3 i Hd3 Hsp3) as H. unfold wp in *. destruct (swtch k3) as [[] k'| |] eqn:E; try done. split; [done|].
      intros j Hne Hla Hrj. specialize (Hla k3 i Hd3 Hsp3 Hne Hrj). unfold wp in Hla. by rewrite E in Hla. }
    rewrite wp_bind. eapply wp_mono; [exact Hsw|]. intros _ k4 ((Hsp4 & Hl4) & Hrd4).
    rewrite wp_bind. unfold switchkvm. rewrite wp_modify, wp_bind, wp_modify, wp_bind.
    set (k5 := set_proc None _). eapply wp_mono.
    { apply (IH (S i) k5); [exact Hsp4|]. change (k_ptab k5) with (k_ptab k4). rewrite Hl4, Hl3. lia. }
    intros l k6 (Hall & Hge & Hso). wps. split_and!.
    + intros j Hj Hla Hrj. destruct (decide (j = i)) as [->|Hne]; [by left|]. right. apply Hall; [lia|done|].
      apply Hrd4; [done|done|]. by apply Hrd3.
    + constructor; [lia|]. eapply Forall_impl; [done|]. simpl. lia.
    + constructor; [done|]. eapply Forall_impl; [done|]. simpl. lia.
  - apply bool_decide_eq_false in Hr. eapply wp_mono; [apply (IH (S i) k); [done|lia]|].
    intros l k' (Hall & Hge & Hso). split_and!; [|eapply Forall_impl; [done|simpl; lia]|done].
    intros j Hj Hla Hrj. destruct (decide (j = i)) as [->|Hne]; [done|]. apply Hall; [lia|done..].
Qed.

(** C14. The scheduler passes over nobody.  [swtch] is what a process, and the other
    CPUs meanwhile, do until the process gives up the CPU; it is only ever called with
    the CPU set up for a process that was ready: current, marked running, its page
    directory loaded and its kernel stack in the task state.  Then one pass over the
    table ends, switches to processes in the order of the table, each at most once,
    and switches to every process that was ready when the pass began, unless another
    CPU takes it before the pass is there. *)
Theorem scheduler_runs_every_ready_process swtch k : gives_back swtch → spaces k →
  wp (scheduler swtch) k (λ l _, StronglySorted lt l ∧
    ∀ j, (j < length (pt_proc (k_ptab k)))%nat → ready k j → left_alone swtch j → j ∈ l).
Proof.
  intros Hg Hsp. unfold scheduler. rewrite wp_bind, wp_gets.
  eapply wp_mono; [apply (scheduler_loop_wp swtch _ 0 k Hg Hsp); lia|].
  intros l _ (Hall & _ & Hso). split; [done|]. intros j Hj Hr Hla. apply Hall; [lia|done..].
Qed.
End scheduler.

(** Every process yields at once. *)
Definition yields {T} : kM (kernel T) unit :=
  k ← kget;
  match k_proc k with
  | Some i => upd_at i (λ p, if decide (p_pgdir p = 0) then p else p_set_state RUNNABLE p)
  | None => panic "sched"
  end.

Lemma yields_wp {T} (k : kernel T) i : dispatched k i → spaces k →
  wp yields k (λ _ k', spaces k' ∧ length (pt_proc (k_ptab k')) = length (pt_proc (k_ptab k)) ∧ ∀ j, j ≠ i → ready k j → ready k' j).
Proof.
  intros [Hp Hr _ _ _] Hsp. unfold yields. wps. rewrite Hp. unfold upd_at. wps.
  assert (∀ j, j ≠ i → proc_at (upd_proc i (λ p, if decide (p_pgdir p = 0) then p else p_set_state RUNNABLE p) (k_ptab k)) j
    = proc_at (k_ptab k) j) as Hj.
  { intros j Hne. unfold proc_at, upd_proc. simpl. by rewrite arr_insert_ne. }
  split_and!; [|apply length_insert|].
  - intros j. unfold ready. simpl. destruct (decide (j = i)) as [->|Hne]; [|rewrite Hj by done; apply Hsp].
    destruct (decide (i < length (pt_proc (k_ptab k)))%nat) as [Hi|Hi].
    + rewrite proc_at_upd, decide_True by done. case_decide; [by rewrite Hr|done].
    + unfold proc_at, upd_proc. simpl. rewrite list_insert_ge by lia. apply Hsp.
  - intros j Hne. unfold ready. simpl. by rewrite Hj.
Qed.

(** Two ready processes, in slots 1 and 3 of a table of five. *)
Definition ready_proc : proc := p_set_pgdir 4096 (p_set_state RUNNABLE proc_zero).
Definition sched_k : kernel unit :=
  mkKernel (Kalloc.mkKmem 0 0 (λ _, 0)) (Fs.mkFs [] [] tt) [] ∅
    (mkPtab [proc_zero; ready_proc; proc_zero; ready_proc; proc_zero] 3 None) None 0 4096 (mkCpuregs 0 0 0)
    (Console.mkCons (Console.mkInput [] 0 0 0) (Console.mkScreen [] 0) []) 0 [].

Lemma scheduler_runs_every_ready_process_witness :
  wp (scheduler yields) sched_k (λ l _, 1%nat ∈ l ∧ 3%nat ∈ l).
Proof.
  eapply wp_mono; [apply (scheduler_runs_every_ready_process yields sched_k)|].
  - intros k i Hd Hsp. eapply wp_mono; [by apply (yields_wp k i)|]. by intros [] k' (? & ? & _).
  - intros j. unfold ready. destruct j as [|[|[|[|[|j]]]]]; vm_compute; congruence.
  - intros l k' [_ H]. split; (apply H; [simpl; lia|done|]); intros k i Hd Hsp Hne Hr;
      (eapply wp_mono; [by apply (yields_wp k i)|]); intros [] k'' (_ & _ & Hk); by apply Hk.
Defined.
