(* ===== verification/Syscall.v ===== *)
(** * System call arguments (syscall.c)

    The arguments of a system call are words above the user's stack pointer,
    read through the page table of the process after a check against its
    size. *)

From stdpp Require Import base numbers option list gmap strings.
From S2P Require Import Prelude Bytes Kalloc Block Log Txn Fs Kernel.
Local Open Scope Z_scope.

Module Syscall.
Import Kernel.

Section syscall.
Context {T : Type}.
Implicit Types k : kernel T.

(** The result is [None] where the code returns -1; otherwise the [int]. *)
Definition fetchint (addr : Z) : kM (kernel T) (option Z) :=
  sz ← cur p_sz;
  if (sz <=? addr) || (sz <? u32 (addr + 4)) then mret None
  else
    v ← uload32 addr;
    mret (Some (i32 v)).

(** [for(s = *pp; s < ep; s++)] with [n] bytes before [ep]: the bytes before
    the NUL. *)
Fixpoint fetchstr_loop (n : nat) (s : Z) : kM (kernel T) (option bytes) :=
  match n with
  | O => mret None
  | S n' =>
      c ← uload s 1;
      if c !!! 0%nat =? 0 then mret (Some [])
      else
        r ← fetchstr_loop n' (s + 1);
        mret ((c !!! 0%nat ::.) <$> r)
  end.

(** The string itself; its length is the value returned. *)
Definition fetchstr (addr : Z) : kM (kernel T) (option bytes) :=
  sz ← cur p_sz;
  if sz <=? addr then mret None
  else fetchstr_loop (Z.to_nat (sz - addr)) addr.

Definition argint (n : Z) : kM (kernel T) (option Z) :=
  tf ← cur p_tf;
  fetchint (u32 (tf_esp tf + 4 + 4 * n)).

(** The pointer. *)
Definition argptr (n size : Z) : kM (kernel T) (option Z) :=
  i ← argint n;
  match i with
  | None => mret None
  | Some i =>
      sz ← cur p_sz;
      if (sz <=? u32 i) || (sz <? u32 (u32 i + size)) then mret None
      else mret (Some (u32 i))
  end.

Definition argstr (n : Z) : kM (kernel T) (option bytes) :=
  addr ← argint n;
  match addr with
  | None => mret None
  | Some addr => fetchstr (u32 addr)
  end.
End syscall.
End Syscall.
