(* ===== verification/Sysproc.v ===== *)
(** * Process system calls (sysproc.c)

    The handlers around proc.c, and [signal], which registers signal handlers
    in the process structure. *)

From stdpp Require Import base numbers option list gmap strings.
From S2P Require Import Prelude Bytes Kalloc Vm Block Log Txn Fs Kernel File Proc Syscall.
Local Open Scope Z_scope.

Module Sysproc.
Import Kernel Syscall.

(** ** The layout of the process table

    A [struct proc] is 288 words: sz, pgdir, kstack, state, pid, parent, tf,
    context, chan, killed, 16 words of ofile, cwd, 4 words of name and 257 of
    handler. *)

Definition PROC_WORDS : Z := 288.
Definition HANDLER_OFF : Z := 31.

(** The word of [name] at word [w]. *)
Definition name_store (w v : Z) (p : proc) : proc := p_set_name (Bytes.put32 (p_name p) (4 * Z.to_nat w) v) p.

(** [p] with [v] stored in word [w]; a store over a pointer to a kernel object
    or over the state is not modelled. *)
Definition word_store (w v : Z) (p : proc) : option proc :=
  if w =? 0 then Some (p_set_sz (u32 v) p)
  else if w =? 1 then Some (p_set_pgdir (u32 v) p)
  else if w =? 2 then Some (p_set_kstack (u32 v) p)
  else if w =? 4 then Some (p_set_pid (i32 v) p)
  else if w =? 9 then Some (p_set_killed (i32 v) p)
  else if (27 <=? w) && (w <? 31) then Some (name_store (w - 27) v p)
  else if HANDLER_OFF <=? w then Some (p_set_handler (<[Z.to_nat (w - HANDLER_OFF) := i32 v]> (p_handler p)) p)
  else None.

(** [ptable.proc[i].handler[n] = v], with the slot that the word of the store
    falls into; [None] outside of the table or where [word_store] is. *)
Definition handler_store (i : nat) (n v : Z) (t : ptab) : option ptab :=
  let a := PROC_WORDS * Z.of_nat i + HANDLER_OFF + n in
  if (0 <=? a) && (a <? PROC_WORDS * Z.of_nat (length (pt_proc t))) then
    let j := Z.to_nat (a / PROC_WORDS) in
    p ← word_store (a mod PROC_WORDS) v (proc_at t j);
    Some (upd_proc j (λ _, p) t)
  else None.

Section sysproc.
Context {T : Type} `{!BlockIO T} `{!TxnIO T} `{!OpIO T}.
Variables (kend data forkret_addr : Z).
Implicit Types k : kernel T.

Definition sys_fork : kM (kernel T) Z := Proc.fork kend data forkret_addr.
Definition sys_exit : kM (kernel T) Z := Proc.exit kend.
Definition sys_wait : kM (kernel T) Z := Proc.wait kend.

Definition sys_kill : kM (kernel T) Z :=
  pid ← argint 0;
  match pid with
  | None => mret (-1)
  | Some pid => Proc.kill pid
  end.

Definition sys_getpid : kM (kernel T) Z := cur p_pid.

Definition sys_sbrk : kM (kernel T) Z :=
  n ← argint 0;
  match n with
  | None => mret (-1)
  | Some n =>
      sz ← cur p_sz;
      r ← Proc.growproc kend n;
      if r <? 0 then mret (-1) else mret (i32 sz)
  end.

(** One pass of the loop; [ticks - ticks0 < n] compares unsigned numbers. *)
Definition sys_sleep_loop (ticks0 n : Z) : kM (kernel T) Z :=
  ticks ← gets k_ticks;
  if u32 (ticks - ticks0) <? u32 n then
    killed ← cur p_killed;
    if negb (killed =? 0) then mret (-1) else sleep ChTicks
  else mret 0.

Definition sys_sleep : kM (kernel T) Z :=
  n ← argint 0;
  match n with
  | None => mret (-1)
  | Some n =>
      ticks0 ← gets k_ticks;
      sys_sleep_loop ticks0 n
  end.

Definition sys_uptime : kM (kernel T) Z := gets (λ k, i32 (k_ticks k)).

(** "Shutdown" has eight letters. *)
Definition sys_halt : kM (kernel T) Z :=
  _ ← kfor 8 0 (λ _, modify (λ k, set_outw (k_outw k ++ [(45060, 8192)]) k));
  mret 0.

(** [signum0] and [handler0] are what the uninitialised variables [signum] and
    [handler] hold, which they keep when argint fails. *)
Definition sys_signal (signum0 handler0 : Z) : kM (kernel T) Z :=
  signum ← argint 0;
  handler ← argint 1;
  let signum := default signum0 signum in
  let handler := default handler0 handler in
  i ← myproc;
  t ← gets k_ptab;
  match handler_store i (if signum =? -1 then 256 else signum) handler t with
  | None => panic "wild store"
  | Some t' =>
      _ ← modify (set_ptab t');
      mret handler
  end.
End sysproc.
End Sysproc.
