(* ===== verification/Sysfile.v ===== *)
(** * File system calls (sysfile.c)

    Argument checking, and the calls into file.c and fs.c inside a
    transaction.  A path is the string of bytes that argstr found. *)

From stdpp Require Import base numbers option list gmap strings.
From S2P Require Import Prelude Bytes CString Kalloc Vm Block Log Txn Fs Kernel File Proc Syscall.
Local Open Scope Z_scope.

Module Sysfile.
Import Kernel Syscall.

Definition O_RDONLY : Z := 0.
Definition O_WRONLY : Z := 1.
Definition O_RDWR : Z := 2.
Definition O_CREATE : Z := 512.

(** "." and "..". *)
Definition dot : bytes := [46].
Definition dotdot : bytes := [46; 46].

(** The first null entry of [proc->ofile]. *)
Fixpoint free_fd (l : list (option nat)) : option nat :=
  match l with
  | [] => None
  | x :: l' => match x with None => Some 0%nat | Some _ => S <$> free_fd l' end
  end.

Section sysfile.
Context {T : Type} `{!BlockIO T} `{!TxnIO T} `{!OpIO T}.
Variables (kend : Z) (dsw : Fs.devsw T).
Implicit Types k : kernel T.

Definition begin_op : kM (kernel T) unit := File.in_op begin_op.
Definition end_op : kM (kernel T) unit := File.in_op end_op.
Definition ilock (ip : nat) : kM (kernel T) unit := in_fs (Fs.ilock ip).
Definition iunlock (ip : nat) : kM (kernel T) unit := in_fs (Fs.iunlock ip).
Definition iput (ip : nat) : kM (kernel T) unit := in_fs (Fs.iput ip).
Definition iunlockput (ip : nat) : kM (kernel T) unit := in_fs (Fs.iunlockput ip).
Definition iupdate (ip : nat) : kM (kernel T) unit := in_fs (Fs.iupdate ip).
Definition inode (ip : nat) : kM (kernel T) Fs.inode := gets (λ k, Fs.inode_at (k_fs k) ip).
Definition set_inode (ip : nat) (f : Fs.inode → Fs.inode) : kM (kernel T) unit :=
  in_fs (modify (Fs.upd_inode ip f)).
Definition add_nlink (d : Z) (x : Fs.inode) : Fs.inode := Fs.i_set_nlink (i16 (Fs.i_nlink x + d)) x.

(** [proc->cwd] is used for a relative path only. *)
Definition start (path : bytes) : kM (kernel T) nat :=
  cwd ← cur p_cwd;
  match cwd with
  | Some ip => mret ip
  | None => if CString.deref path =? Fs.slash then mret 0%nat else panic "trap"
  end.
Definition namei (path : bytes) : kM (kernel T) (option nat) :=
  cwd ← start path;
  in_fs (Fs.namei dsw cwd path).
(** The second component is the content of [name]. *)
Definition nameiparent (path : bytes) : kM (kernel T) (option nat * bytes) :=
  cwd ← start path;
  in_fs (Fs.nameiparent dsw cwd path (replicate (Z.to_nat Fs.DIRSIZ) 0)).

(** ** Descriptors *)

(** The descriptor and the file. *)
Definition argfd (n : Z) : kM (kernel T) (option (nat * nat)) :=
  fd ← argint n;
  match fd with
  | None => mret None
  | Some fd =>
      if (fd <? 0) || (NOFILE <=? fd) then mret None
      else
        l ← cur p_ofile;
        mret ((λ f, (Z.to_nat fd, f)) <$> l !!! Z.to_nat fd)
  end.

Definition set_ofile (fd : nat) (f : option nat) : kM (kernel T) unit :=
  upd_cur (λ p, p_set_ofile (<[fd := f]> (p_ofile p)) p).

Definition fdalloc (f : nat) : kM (kernel T) (option nat) :=
  l ← cur p_ofile;
  match free_fd l with
  | None => mret None
  | Some fd => _ ← set_ofile fd (Some f); mret (Some fd)
  end.

Definition sys_dup : kM (kernel T) Z :=
  a ← argfd 0;
  match a with
  | None => mret (-1)
  | Some (_, f) =>
      fd ← fdalloc f;
      match fd with
      | None => mret (-1)
      | Some fd => _ ← File.filedup f; mret (Z.of_nat fd)
      end
  end.

(** The arguments of read and write: the file, the buffer and the count. *)
Definition rw_args : kM (kernel T) (option (nat * Z * Z)) :=
  a ← argfd 0;
  match a with
  | None => mret None
  | Some (_, f) =>
      n ← argint 2;
      match n with
      | None => mret None
      | Some n =>
          p ← argptr 1 n;
          mret ((λ p, (f, p, n)) <$> p)
      end
  end.

Definition sys_read : kM (kernel T) Z :=
  a ← rw_args;
  match a with
  | None => mret (-1)
  | Some (f, p, n) => File.fileread dsw f p n
  end.

Definition sys_write : kM (kernel T) Z :=
  a ← rw_args;
  match a with
  | None => mret (-1)
  | Some (f, p, n) => File.filewrite dsw f p n
  end.

Definition sys_close : kM (kernel T) Z :=
  a ← argfd 0;
  match a with
  | None => mret (-1)
  | Some (fd, f) =>
      _ ← set_ofile fd None;
      _ ← File.fileclose kend f;
      mret 0
  end.

Definition sizeof_stat : Z := 20.

Definition sys_fstat : kM (kernel T) Z :=
  a ← argfd 0;
  match a with
  | None => mret (-1)
  | Some (_, f) =>
      st ← argptr 1 sizeof_stat;
      match st with
      | None => mret (-1)
      | Some st => File.filestat f st
      end
  end.

(** ** Links *)

(** The code after [bad] in sys_link. *)
Definition link_bad (ip : nat) : kM (kernel T) Z :=
  _ ← ilock ip;
  _ ← set_inode ip (add_nlink (-1));
  _ ← iupdate ip;
  _ ← iunlockput ip;
  _ ← end_op;
  mret (-1).

Definition sys_link : kM (kernel T) Z :=
  old ← argstr 0;
  match old with None => mret (-1) | Some old =>
  new ← argstr 1;
  match new with None => mret (-1) | Some new =>
  _ ← begin_op;
  ip ← namei old;
  match ip with
  | None => _ ← end_op; mret (-1)
  | Some ip =>
      _ ← ilock ip;
      x ← inode ip;
      if Fs.i_type x =? Fs.T_DIR then
        _ ← iunlockput ip;
        _ ← end_op;
        mret (-1)
      else
        _ ← set_inode ip (add_nlink 1);
        _ ← iupdate ip;
        _ ← iunlock ip;
        dn ← nameiparent new;
        match dn with
        | (None, _) => link_bad ip
        | (Some dp, name) =>
            _ ← ilock dp;
            y ← inode dp;
            x ← inode ip;
            r ← (if negb (Fs.i_dev y =? Fs.i_dev x) then mret (-1)
                 else in_fs (Fs.dirlink dsw dp name (Fs.i_inum x)));
            if r <? 0 then
              _ ← iunlockput dp;
              link_bad ip
            else
              _ ← iunlockput dp;
              _ ← iput ip;
              _ ← end_op;
              mret 0
        end
  end end end.

(** [for(off=2*sizeof(de); off<dp->size; off+=sizeof(de))] *)
Fixpoint isdirempty_loop (n : nat) (dp : nat) (off : Z) : kM (kernel T) bool :=
  x ← inode dp;
  if off <? Fs.i_size x then
    match n with
    | O => panic "isdirempty: loop bound"
    | S n' =>
        r ← in_fs (Fs.readi dsw dp off Fs.sizeof_dirent);
        if negb (r.1 =? Fs.sizeof_dirent) then panic "isdirempty: readi"
        else if negb (Fs.de_inum r.2 =? 0) then mret false
        else isdirempty_loop n' dp (off + Fs.sizeof_dirent)
    end
  else mret true.

Definition isdirempty (dp : nat) : kM (kernel T) bool :=
  x ← inode dp;
  isdirempty_loop (Fs.dir_bound (Fs.i_size x)) dp (2 * Fs.sizeof_dirent).

(** The code after [bad] in sys_unlink. *)
Definition unlink_bad (dp : nat) : kM (kernel T) Z :=
  _ ← iunlockput dp;
  _ ← end_op;
  mret (-1).

Definition sys_unlink : kM (kernel T) Z :=
  path ← argstr 0;
  match path with None => mret (-1) | Some path =>
  _ ← begin_op;
  dn ← nameiparent path;
  match dn with
  | (None, _) => _ ← end_op; mret (-1)
  | (Some dp, name) =>
      _ ← ilock dp;
      if (Fs.namecmp name dot =? 0) || (Fs.namecmp name dotdot =? 0) then unlink_bad dp
      else
        e ← in_fs (Fs.dirlookup dsw dp name);
        match e with
        | None => unlink_bad dp
        | Some (ip, off) =>
            _ ← ilock ip;
            x ← inode ip;
            if Fs.i_nlink x <? 1 then panic "unlink: nlink < 1"
            else
              empty ← (if Fs.i_type x =? Fs.T_DIR then isdirempty ip else mret true);
              if negb empty then
                _ ← iunlockput ip;
                unlink_bad dp
              else
                r ← in_fs (Fs.writei dsw dp (replicate (Z.to_nat Fs.sizeof_dirent) 0) off Fs.sizeof_dirent);
                if negb (r =? Fs.sizeof_dirent) then panic "unlink: writei"
                else
                  x ← inode ip;
                  _ ← (if Fs.i_type x =? Fs.T_DIR then
                         _ ← set_inode dp (add_nlink (-1));
                         iupdate dp
                       else mret tt);
                  _ ← iunlockput dp;
                  _ ← set_inode ip (add_nlink (-1));
                  _ ← iupdate ip;
                  _ ← iunlockput ip;
                  _ ← end_op;
                  mret 0
        end
  end end.

(** ** Creating and opening *)

(** The result is the locked inode; [None] is a null pointer. *)
Definition create (path : bytes) (type major minor : Z) : kM (kernel T) (option nat) :=
  dn ← nameiparent path;
  match dn with
  | (None, _) => mret None
  | (Some dp, name) =>
      _ ← ilock dp;
      e ← in_fs (Fs.dirlookup dsw dp name);
      match e with
      | Some (ip, _) =>
          _ ← iunlockput dp;
          _ ← ilock ip;
          x ← inode ip;
          if (type =? Fs.T_FILE) && (Fs.i_type x =? Fs.T_FILE) then mret (Some ip)
          else
            _ ← iunlockput ip;
            mret None
      | None =>
          y ← inode dp;
          ip ← in_fs (Fs.ialloc (Fs.i_dev y) type);
          _ ← ilock ip;
          _ ← set_inode ip (Fs.i_set_dev (i16 major) (i16 minor) 1);
          _ ← iupdate ip;
          x ← inode ip;
          _ ← (if type =? Fs.T_DIR then
                 _ ← set_inode dp (add_nlink 1);
                 _ ← iupdate dp;
                 y ← inode dp;
                 r ← in_fs (Fs.dirlink dsw ip dot (Fs.i_inum x));
                 if r <? 0 then panic "create dots"
                 else
                   r ← in_fs (Fs.dirlink dsw ip dotdot (Fs.i_inum y));
                   if r <? 0 then panic "create dots" else mret tt
               else mret tt);
          r ← in_fs (Fs.dirlink dsw dp name (Fs.i_inum x));
          if r <? 0 then panic "create: dirlink"
          else
            _ ← iunlockput dp;
            mret (Some ip)
      end
  end.

Definition f_set_inode (ip : nat) (rd wr : bool) (f : file) : file :=
  mkFile FD_INODE (f_ref f) (if rd then 1 else 0) (if wr then 1 else 0) (f_pipe f) ip 0.

(** The inode to open, locked; [None] after [end_op]. *)
Definition open_inode (path : bytes) (omode : Z) : kM (kernel T) (option nat) :=
  if flag omode O_CREATE then
    ip ← create path Fs.T_FILE 0 0;
    match ip with
    | None => _ ← end_op; mret None
    | Some ip => mret (Some ip)
    end
  else
    ip ← namei path;
    match ip with
    | None => _ ← end_op; mret None
    | Some ip =>
        _ ← ilock ip;
        x ← inode ip;
        if (Fs.i_type x =? Fs.T_DIR) && negb (omode =? O_RDONLY) then
          _ ← iunlockput ip;
          _ ← end_op;
          mret None
        else mret (Some ip)
    end.

Definition open_fail (ip : nat) : kM (kernel T) Z :=
  _ ← iunlockput ip;
  _ ← end_op;
  mret (-1).

Definition sys_open : kM (kernel T) Z :=
  path ← argstr 0;
  match path with None => mret (-1) | Some path =>
  omode ← argint 1;
  match omode with None => mret (-1) | Some omode =>
  _ ← begin_op;
  ip ← open_inode path omode;
  match ip with
  | None => mret (-1)
  | Some ip =>
      f ← File.filealloc;
      match f with
      | None => open_fail ip
      | Some f =>
          fd ← fdalloc f;
          match fd with
          | None => _ ← File.fileclose kend f; open_fail ip
          | Some fd =>
              _ ← iunlock ip;
              _ ← end_op;
              _ ← File.set_file f (f_set_inode ip (negb (flag omode O_WRONLY))
                    (flag omode O_WRONLY || flag omode O_RDWR));
              mret (Z.of_nat fd)
          end
      end
  end end end.

(** [create] inside a transaction, for sys_mkdir and sys_mknod. *)
Definition make_node (path : option bytes) (type : Z) (dev : option (Z * Z)) : kM (kernel T) Z :=
  ip ← (match path, dev with
        | Some path, Some (major, minor) => create path type major minor
        | _, _ => mret None
        end);
  match ip with
  | None => _ ← end_op; mret (-1)
  | Some ip =>
      _ ← iunlockput ip;
      _ ← end_op;
      mret 0
  end.

Definition sys_mkdir : kM (kernel T) Z :=
  _ ← begin_op;
  path ← argstr 0;
  make_node path Fs.T_DIR (Some (0, 0)).

Definition sys_mknod : kM (kernel T) Z :=
  _ ← begin_op;
  path ← argstr 0;
  major ← (match path with Some _ => argint 1 | None => mret None end);
  minor ← (match major with Some _ => argint 2 | None => mret None end);
  make_node path Fs.T_DEV (match major, minor with Some a, Some b => Some (a, b) | _, _ => None end).

Definition sys_chdir : kM (kernel T) Z :=
  _ ← begin_op;
  path ← argstr 0;
  ip ← (match path with Some path => namei path | None => mret None end);
  match ip with
  | None => _ ← end_op; mret (-1)
  | Some ip =>
      _ ← ilock ip;
      x ← inode ip;
      if negb (Fs.i_type x =? Fs.T_DIR) then
        _ ← iunlockput ip;
        _ ← end_op;
        mret (-1)
      else
        _ ← iunlock ip;
        cwd ← cur p_cwd;
        _ ← (match cwd with Some c => iput c | None => panic "trap" end);
        _ ← end_op;
        _ ← upd_cur (p_set_cwd (Some ip));
        mret 0
  end.

(** Both files are closed when a descriptor is missing. *)
Definition pipe_fail (rf wf : nat) : kM (kernel T) Z :=
  _ ← File.fileclose kend rf;
  _ ← File.fileclose kend wf;
  mret (-1).

Definition sys_pipe : kM (kernel T) Z :=
  fd ← argptr 0 8;
  match fd with None => mret (-1) | Some fd =>
  p ← File.pipealloc kend;
  match p with None => mret (-1) | Some (rf, wf) =>
  fd0 ← fdalloc rf;
  match fd0 with
  | None => pipe_fail rf wf
  | Some fd0 =>
      fd1 ← fdalloc wf;
      match fd1 with
      | None =>
          _ ← set_ofile fd0 None;
          pipe_fail rf wf
      | Some fd1 =>
          _ ← ustore32 fd (Z.of_nat fd0);
          _ ← ustore32 (u32 (fd + 4)) (Z.of_nat fd1);
          mret 0
      end
  end end end.
End sysfile.
End Sysfile.
