(* ===== verification/Exec.v ===== *)
(** * exec (exec.c, loaduvm of vm.c, sys_exec of sysfile.c, elf.h)

    Loading a program: its ELF headers, its segments, the user stack with the
    arguments, and the switch to the new address space. *)

From stdpp Require Import base numbers option list gmap strings.
From S2P Require Import Prelude Bytes CString Kalloc Vm Block Log Txn Fs Kernel File Proc Syscall Sysfile.
Local Open Scope Z_scope.

Module Exec.
Import Kernel Syscall.

Definition MAXARG : Z := 32.
Definition ELF_MAGIC : Z := 1179403647.
Definition ELF_PROG_LOAD : Z := 1.

(** ** ELF headers *)

Definition sizeof_elfhdr : Z := 52.
Definition elf_magic (h : bytes) : Z := get32 h 0.
Definition elf_entry (h : bytes) : Z := get32 h 24.
Definition elf_phoff (h : bytes) : Z := get32 h 28.
Definition elf_phnum (h : bytes) : Z := get16 h 44.

Definition sizeof_proghdr : Z := 32.
Definition ph_type (h : bytes) : Z := get32 h 0.
Definition ph_off (h : bytes) : Z := get32 h 4.
Definition ph_vaddr (h : bytes) : Z := get32 h 8.
Definition ph_filesz (h : bytes) : Z := get32 h 16.
Definition ph_memsz (h : bytes) : Z := get32 h 20.

(** The last element of the path: [for(last=s=path; *s; s++)]. *)
Fixpoint last_elem (s last : bytes) : bytes :=
  match s with
  | [] => last
  | c :: s' => if c =? 0 then last else last_elem s' (if c =? Fs.slash then s' else last)
  end.

Section exec.
Context {T : Type} `{!BlockIO T} `{!TxnIO T} `{!OpIO T}.
Variables (kend data : Z) (dsw : Fs.devsw T).
Implicit Types k : kernel T.

(** [for(i = 0; i < sz; i += PGSIZE)], at most [n] pages; the bytes go to the
    page at [p2v(pa)]. *)
Fixpoint loaduvm_loop (n : nat) (pgdir addr : Z) (ip : nat) (offset sz i : Z) : kM (kernel T) Z :=
  if i <? sz then
    match n with
    | O => panic "loaduvm: loop bound"
    | S n' =>
        pte ← in_mem (Vm.walkpgdir pgdir (u32 (addr + i)) false);
        if pte =? 0 then panic "loaduvm: address should exist"
        else
          e ← in_mem (Vm.load pte);
          let pa := Vm.PTE_ADDR e in
          let m := if sz - i <? Kalloc.PGSIZE then sz - i else Kalloc.PGSIZE in
          rd ← in_fs (Fs.readi dsw ip (u32 (offset + i)) m);
          _ ← in_mem (modify (Kalloc.set_mem (Vm.store_bytes (Kalloc.p2v pa) rd.2)));
          if negb (rd.1 =? m) then mret (-1)
          else loaduvm_loop n' pgdir addr ip offset sz (u32 (i + Kalloc.PGSIZE))
    end
  else mret 0.

Definition loaduvm (pgdir addr : Z) (ip : nat) (offset sz : Z) : kM (kernel T) Z :=
  if negb (addr mod Kalloc.PGSIZE =? 0) then panic "loaduvm: addr must be page aligned"
  else loaduvm_loop (Z.to_nat (sz / Kalloc.PGSIZE + 1)) pgdir addr ip offset sz 0.

(** The loop over the program headers, [n] of them left: the size of the
    image, or [None] at [goto bad]. *)
Fixpoint load_segments (n : nat) (ip : nat) (pgdir off sz : Z) : kM (kernel T) (option Z) :=
  match n with
  | O => mret (Some sz)
  | S n' =>
      rd ← in_fs (Fs.readi dsw ip (u32 off) sizeof_proghdr);
      if negb (rd.1 =? sizeof_proghdr) then mret None
      else
        let ph := rd.2 in
        if negb (ph_type ph =? ELF_PROG_LOAD) then load_segments n' ip pgdir (off + sizeof_proghdr) sz
        else if ph_memsz ph <? ph_filesz ph then mret None
        else
          sz' ← in_mem (Vm.allocuvm kend pgdir sz (u32 (ph_vaddr ph + ph_memsz ph)));
          if sz' =? 0 then mret None
          else
            r ← loaduvm pgdir (ph_vaddr ph) ip (ph_off ph) (ph_filesz ph);
            if r <? 0 then mret None
            else load_segments n' ip pgdir (off + sizeof_proghdr) sz'
  end.

(** The loop over the arguments: the stack pointer and the addresses of the
    strings, or [None] at [goto bad]. *)
Fixpoint push_args (argv : list bytes) (argc : Z) (pgdir sp : Z) (ustack : list Z) :
    kM (kernel T) (option (Z * list Z)) :=
  match argv with
  | [] => mret (Some (sp, ustack))
  | a :: argv' =>
      if MAXARG <=? argc then mret None
      else
        let n := CString.strlen a + 1 in
        let sp := Z.land (u32 (sp - n)) (Z.lnot 3) in
        r ← in_mem (Vm.copyout pgdir sp (take (Z.to_nat (n - 1)) a ++ [0]));
        if r <? 0 then mret None
        else push_args argv' (argc + 1) pgdir sp (ustack ++ [sp])
  end.

(** The code after [bad]; [ip] while the inode is held. *)
Definition exec_bad (pgdir : Z) (ip : option nat) : kM (kernel T) Z :=
  _ ← (if pgdir =? 0 then mret tt else in_mem (Vm.freevm kend pgdir));
  _ ← (match ip with
       | Some ip => _ ← Sysfile.iunlockput ip; Sysfile.end_op
       | None => mret tt
       end);
  mret (-1).

(** The user stack and the switch to the new image. *)
Definition exec_commit (path : bytes) (argv : list bytes) (pgdir sz entry : Z) : kM (kernel T) Z :=
  let sz := Kalloc.PGROUNDUP sz in
  sz ← in_mem (Vm.allocuvm kend pgdir sz (u32 (sz + 2 * Kalloc.PGSIZE)));
  if sz =? 0 then exec_bad pgdir None
  else
    _ ← in_mem (Vm.clearpteu pgdir (u32 (sz - 2 * Kalloc.PGSIZE)));
    a ← push_args argv 0 pgdir sz [];
    match a with
    | None => exec_bad pgdir None
    | Some (sp, args) =>
        let argc := Z.of_nat (length args) in
        let ustack := [4294967295; argc; u32 (sp - (argc + 1) * 4)] ++ args ++ [0] in
        let sp := u32 (sp - (3 + argc + 1) * 4) in
        r ← in_mem (Vm.copyout pgdir sp (mjoin (le32 <$> ustack)));
        if r <? 0 then exec_bad pgdir None
        else
          _ ← upd_cur (Proc.copy_name (last_elem path path));
          old ← cur p_pgdir;
          _ ← upd_cur (p_set_pgdir pgdir);
          _ ← upd_cur (p_set_sz sz);
          _ ← upd_cur (λ p, p_set_tf (tf_set_eip_esp entry sp (p_tf p)) p);
          i ← myproc;
          _ ← Proc.switchuvm i;
          _ ← in_mem (Vm.freevm kend old);
          mret 0
    end.

(** [elf0] is what the uninitialised [elf] holds.  [readi(...) < sizeof(elf)]
    compares unsigned numbers. *)
Definition exec (elf0 : bytes) (path : bytes) (argv : list bytes) : kM (kernel T) Z :=
  _ ← Sysfile.begin_op;
  ip ← Sysfile.namei dsw path;
  match ip with
  | None => _ ← Sysfile.end_op; mret (-1)
  | Some ip =>
      _ ← Sysfile.ilock ip;
      rd ← in_fs (Fs.readi dsw ip 0 sizeof_elfhdr);
      let elf := Bytes.put elf0 0 rd.2 in
      if u32 rd.1 <? sizeof_elfhdr then exec_bad 0 (Some ip)
      else if negb (elf_magic elf =? ELF_MAGIC) then exec_bad 0 (Some ip)
      else
        pgdir ← in_mem (Vm.setupkvm data);
        if pgdir =? 0 then exec_bad 0 (Some ip)
        else
          sz ← load_segments (Z.to_nat (elf_phnum elf)) ip pgdir (i32 (elf_phoff elf)) 0;
          match sz with
          | None => exec_bad pgdir (Some ip)
          | Some sz =>
              _ ← Sysfile.iunlockput ip;
              _ ← Sysfile.end_op;
              exec_commit path argv pgdir sz (elf_entry elf)
          end
  end.

(** [for(i=0;; i++)]: [n] entries of [argv] are left. *)
Fixpoint fetch_argv (n : nat) (uargv : Z) : kM (kernel T) (option (list bytes)) :=
  match n with
  | O => mret None
  | S n' =>
      uarg ← fetchint uargv;
      match uarg with
      | None => mret None
      | Some uarg =>
          if uarg =? 0 then mret (Some [])
          else
            s ← fetchstr (u32 uarg);
            match s with
            | None => mret None
            | Some s =>
                l ← fetch_argv n' (u32 (uargv + 4));
                mret ((s ::.) <$> l)
            end
      end
  end.

Definition sys_exec (elf0 : bytes) : kM (kernel T) Z :=
  path ← argstr 0;
  match path with None => mret (-1) | Some path =>
  uargv ← argint 1;
  match uargv with None => mret (-1) | Some uargv =>
  argv ← fetch_argv (Z.to_nat MAXARG) (u32 uargv);
  match argv with None => mret (-1) | Some argv => exec elf0 path argv end end end.
End exec.
End Exec.
