(* ===== verification/Trap.v ===== *)
(** * Traps and system calls (trap.c, syscall of syscall.c)

    The dispatch of system calls and interrupts, and the delivery of SIGFPE to
    a handler of the process. *)

From stdpp Require Import base numbers option list gmap strings.
From S2P Require Import Prelude Bytes Console Kbd Kalloc Vm Block Log Txn Fs Kernel File Proc Syscall Sysproc Sysfile Exec.
Local Open Scope Z_scope.

Module Trap.
Import Kernel Syscall.

Definition SIGFPE : Z := 0.
Definition T_DIVIDE : Z := 0.
Definition T_SYSCALL : Z := 64.
Definition T_IRQ0 : Z := 32.
Definition IRQ_TIMER : Z := 0.
Definition IRQ_KBD : Z := 1.
Definition IRQ_COM1 : Z := 4.
Definition IRQ_IDE : Z := 14.
Definition IRQ_SPURIOUS : Z := 31.

(** What the code reads without having written it: the variables of
    sys_signal and exec. *)
Record stack_junk := mkJunk { j_signum : Z; j_handler : Z; j_elf : bytes }.

(** What the hardware holds when an interrupt comes: the scan codes in the
    keyboard controller, the bytes in the serial port, the id of the CPU and
    its register cr2. *)
Record devices := mkDevices { d_codes : list Z; d_serial : list Z; d_cpuid : Z; d_cr2 : Z }.

Section trap.
Context {T : Type} `{!BlockIO T} `{!TxnIO T} `{!OpIO T}.
Variables (kend data forkret_addr : Z) (dsw : Fs.devsw T).
Implicit Types k : kernel T.

(** [syscalls[num]]; SYS_fork is 1 and SYS_signal is 23. *)
Definition syscalls (j : stack_junk) (num : Z) : option (kM (kernel T) Z) :=
  match num with
  | 1 => Some (Sysproc.sys_fork kend data forkret_addr)
  | 2 => Some (Sysproc.sys_exit kend)
  | 3 => Some (Sysproc.sys_wait kend)
  | 4 => Some (Sysfile.sys_pipe kend)
  | 5 => Some (Sysfile.sys_read dsw)
  | 6 => Some Sysproc.sys_kill
  | 7 => Some (Exec.sys_exec kend data dsw (j_elf j))
  | 8 => Some Sysfile.sys_fstat
  | 9 => Some (Sysfile.sys_chdir dsw)
  | 10 => Some Sysfile.sys_dup
  | 11 => Some Sysproc.sys_getpid
  | 12 => Some (Sysproc.sys_sbrk kend)
  | 13 => Some Sysproc.sys_sleep
  | 14 => Some Sysproc.sys_uptime
  | 15 => Some (Sysfile.sys_open kend dsw)
  | 16 => Some (Sysfile.sys_write dsw)
  | 17 => Some (Sysfile.sys_mknod dsw)
  | 18 => Some (Sysfile.sys_unlink dsw)
  | 19 => Some (Sysfile.sys_link dsw)
  | 20 => Some (Sysfile.sys_mkdir dsw)
  | 21 => Some (Sysfile.sys_close kend)
  | 22 => Some Sysproc.sys_halt
  | 23 => Some (Sysproc.sys_signal (j_signum j) (j_handler j))
  | _ => None
  end.

Definition syscall (j : stack_junk) : kM (kernel T) unit :=
  tf ← cur p_tf;
  match syscalls j (i32 (tf_eax tf)) with
  | Some f =>
      r ← f;
      upd_cur (λ p, p_set_tf (tf_set_eax (u32 r) (p_tf p)) p)
  | None =>
      pid ← cur p_pid;
      name ← cur p_name;
      _ ← kprintf (str "%d %s: unknown sys call %d" ++ [10])
            [Console.AInt pid; Console.AStr (Some name); Console.AInt (i32 (tf_eax tf))];
      upd_cur (λ p, p_set_tf (tf_set_eax (u32 (-1)) (p_tf p)) p)
  end.

(** [if(proc->killed) exit()]. *)
Definition exit_if_killed : kM (kernel T) unit :=
  killed ← cur p_killed;
  if negb (killed =? 0) then Proc.exit kend else mret tt.

(** ** Interrupts *)

(** The loop of consoleintr over the characters that its argument yields: the
    console changes, and readers are woken up when a line is complete. *)
Fixpoint consoleintr (cs : list Z) : kM (kernel T) unit :=
  match cs with
  | [] => mret tt
  | c :: cs' =>
      k ← kget;
      match Console.consoleintr_char (Proc.procdump k) c (k_cons k) with
      | None => panic "wild store"
      | Some (s', w) =>
          _ ← modify (set_cons s');
          _ ← kif w (wakeup ChInput);
          consoleintr cs'
      end
  end.

Definition kbdintr (codes : list Z) : kM (kernel T) unit :=
  shift ← gets k_shift;
  let '(cs, shift') := Kbd.kbd_input shift codes in
  _ ← modify (set_shift shift');
  consoleintr cs.

Definition timerintr (cpuid : Z) : kM (kernel T) unit :=
  if cpuid =? 0 then
    _ ← modify (λ k, set_ticks (u32 (k_ticks k + 1)) k);
    wakeup ChTicks
  else mret tt.

(** ** Signals *)

(** The frame that a divide error pushes for the handler of SIGFPE. *)
Definition deliver (tf : trapframe) (handler restorer : Z) : kM (kernel T) trapframe :=
  let sp d := u32 (tf_esp tf - d) in
  _ ← ustore32 (sp 4) 116;
  _ ← ustore32 (sp 8) (tf_ebp tf);
  _ ← ustore32 (sp 12) (tf_eax tf);
  _ ← ustore32 (sp 16) (tf_ecx tf);
  _ ← ustore32 (sp 20) (tf_edx tf);
  _ ← ustore32 (sp 24) SIGFPE;
  _ ← ustore32 (sp 28) restorer;
  mret (tf_set_eip_esp (u32 handler) (sp 28) tf).

(** The default case: a trap that nothing handles kills the process.  What is
    printed before a panic is left out. *)
Definition trap_default (d : devices) (tf : trapframe) : kM (kernel T) trapframe :=
  p ← gets k_proc;
  if decide (p = None) then panic "trap"
  else if Z.land (tf_cs tf) 3 =? 0 then panic "trap"
  else
    pid ← cur p_pid;
    name ← cur p_name;
    _ ← kprintf (str "pid %d %s: trap %d err %d on cpu %d eip 0x%x addr 0x%x--kill proc" ++ [10])
          [Console.AInt pid; Console.AStr (Some name); Console.AInt (tf_trapno tf); Console.AInt (tf_err tf);
           Console.AInt (d_cpuid d); Console.AInt (tf_eip tf); Console.AInt (d_cr2 d)];
    _ ← upd_cur (p_set_killed 1);
    mret tf.

Definition divide (d : devices) (tf : trapframe) : kM (kernel T) trapframe :=
  h ← cur p_handler;
  if negb (h !!! Z.to_nat SIGFPE =? -1) then
    deliver tf (h !!! Z.to_nat SIGFPE) (h !!! 256%nat)
  else trap_default d tf.

(** The switch on the trap number; ideintr of memide.c does nothing. *)
Definition dispatch (d : devices) (tf : trapframe) :
    kM (kernel T) trapframe :=
  let n := tf_trapno tf in
  if n =? T_IRQ0 + IRQ_TIMER then _ ← timerintr (d_cpuid d); mret tf
  else if n =? T_IRQ0 + IRQ_IDE then mret tf
  else if n =? T_IRQ0 + IRQ_IDE + 1 then mret tf
  else if n =? T_IRQ0 + IRQ_KBD then _ ← kbdintr (d_codes d); mret tf
  else if n =? T_IRQ0 + IRQ_COM1 then _ ← consoleintr (d_serial d); mret tf
  else if (n =? T_IRQ0 + 7) || (n =? T_IRQ0 + IRQ_SPURIOUS) then
    _ ← kprintf (str "cpu%d: spurious interrupt at %x:%x" ++ [10])
          [Console.AInt (d_cpuid d); Console.AInt (tf_cs tf); Console.AInt (tf_eip tf)];
    mret tf
  else if n =? T_DIVIDE then divide d tf
  else trap_default d tf.

(** [if(proc && proc->killed && (tf->cs&3) == DPL_USER) exit()]. *)
Definition exit_if_user_killed (tf : trapframe) : kM (kernel T) unit :=
  p ← gets k_proc;
  if decide (p = None) then mret tt
  else
    killed ← cur p_killed;
    if negb (killed =? 0) && (Z.land (tf_cs tf) 3 =? Proc.DPL_USER) then Proc.exit kend else mret tt.

(** The result is the trap frame to return to.  After a yield the last test
    is made when the process runs again ([trap_resume]). *)
Definition trap (j : stack_junk) (d : devices) (tf : trapframe) :
    kM (kernel T) trapframe :=
  if tf_trapno tf =? T_SYSCALL then
    _ ← exit_if_killed;
    _ ← upd_cur (p_set_tf tf);
    _ ← syscall j;
    _ ← exit_if_killed;
    cur p_tf
  else
    tf ← dispatch d tf;
    _ ← exit_if_user_killed tf;
    p ← gets k_proc;
    if decide (p = None) then mret tf
    else
      st ← cur p_state;
      if decide (st = RUNNING) then
        if tf_trapno tf =? T_IRQ0 + IRQ_TIMER then Proc.yield
        else _ ← exit_if_user_killed tf; mret tf
      else _ ← exit_if_user_killed tf; mret tf.

Definition trap_resume (tf : trapframe) : kM (kernel T) trapframe :=
  _ ← exit_if_user_killed tf;
  mret tf.
End trap.
End Trap.
