(* ===== verification/Signal.v ===== *)
(** * Signals (the SIGFPE case of trap.c, restorer.h)

    The round trip of a signal: the kernel pushes a frame on the user stack and
    returns to the handler; the handler returns to [restorer], which pops the
    frame. *)

From stdpp Require Import base numbers option list gmap strings.
From Stdlib Require Import ZArith Lia ZifyBool.
From S2P Require Import Prelude Bytes CString Kalloc Vm Block Log Txn Fs Kernel File Proc Syscall Sysproc Trap ProcProto.
Local Open Scope Z_scope.

Module Signal.
Import Kernel.
Import Kalloc(PGSIZE, load32, store32, p2v, km_mem, set_mem).

(** ** The restorer *)

Record regs := mkRegs { r_eax : Z; r_ecx : Z; r_edx : Z; r_ebp : Z; r_esp : Z; r_eip : Z }.

(** An address as the paging hardware translates it in user mode: the entries at
    both levels must have the user bit, besides what [translate] asks for. *)
Definition translate_user (m : CString.mem) (pgdir va : Z) (wr : bool) : option Z :=
  let pde := load32 m (pgdir + 4 * Vm.PDX va) in
  let pte := load32 m (p2v (Vm.PTE_ADDR pde) + 4 * Vm.PTX va) in
  if flag pde Vm.PTE_U && flag pte Vm.PTE_U then translate m pgdir va wr else None.

(** Loads and stores of bytes through a translation of addresses; [None] is a page
    fault. *)
Fixpoint load_by (tr : Z → bool → option Z) (n : nat) (m : CString.mem) (va : Z) : option bytes :=
  match n with
  | O => Some []
  | S n' =>
      a ← tr va false;
      l ← load_by tr n' m (u32 (va + 1));
      Some (m a :: l)
  end.

Fixpoint store_by (tr : CString.mem → Z → bool → option Z) (l : bytes) (m : CString.mem) (va : Z) : option CString.mem :=
  match l with
  | [] => Some m
  | b :: l' =>
      a ← tr m va true;
      store_by tr l' (CString.store a b m) (u32 (va + 1))
  end.

(** Those of a program. *)
Definition prog_load (n : nat) (m : CString.mem) (pgdir va : Z) : option bytes := load_by (translate_user m pgdir) n m va.
Definition prog_store (l : bytes) (m : CString.mem) (pgdir va : Z) : option CString.mem :=
  store_by (λ m, translate_user m pgdir) l m va.

(** Those of the kernel. *)
Lemma user_store_by l m pgdir va : user_store l m pgdir va = store_by (λ m, translate m pgdir) l m va.
Proof. revert m va. induction l as [|b l IH]; intros m va; [done|]. cbn [user_store store_by]. destruct (translate _ _ _ _); [apply IH|done]. Qed.

(** A word that a program reads. *)
Definition user_word (m : CString.mem) (pgdir va : Z) : option Z :=
  l ← prog_load 4 m pgdir va;
  Some (get32 l 0).

(** restorer, which runs in user mode, as it is compiled: [push %ebp; mov %esp,%ebp], the statements of
    its body, and [pop %ebp; ret]. *)
Definition restorer (m : CString.mem) (pgdir : Z) (r : regs) : option (CString.mem * regs) :=
  let sp := u32 (r_esp r - 4) in
  m ← prog_store (le32 (r_ebp r)) m pgdir sp;
  let ebp := sp in
  edx ← user_word m pgdir (u32 (ebp + 8));
  ecx ← user_word m pgdir (u32 (ebp + 12));
  eax ← user_word m pgdir (u32 (ebp + 16));
  let ebp := u32 (ebp + 20) in
  let esp := ebp in
  ebp ← user_word m pgdir esp;
  let esp := u32 (esp + 4) in
  eip ← user_word m pgdir esp;
  Some (m, mkRegs eax ecx edx ebp (u32 (esp + 4)) eip).

(** ** A page of user memory *)

(** Page number [P] of the address space is mapped for the program, writable, at the
    kernel address [q], and the page does not hold the entries that map it. *)
Record user_page (m : CString.mem) (pgdir P q : Z) : Prop := mkUserPage {
  up_pde : let e := load32 m (pgdir + 4 * Vm.PDX (P * PGSIZE)) in
    flag e Vm.PTE_P = true ∧ flag e Vm.PTE_W = true ∧ flag e Vm.PTE_U = true;
  up_pte : let t := p2v (Vm.PTE_ADDR (load32 m (pgdir + 4 * Vm.PDX (P * PGSIZE)))) in
    let e := load32 m (t + 4 * Vm.PTX (P * PGSIZE)) in
    flag e Vm.PTE_P = true ∧ flag e Vm.PTE_W = true ∧ flag e Vm.PTE_U = true ∧ q = p2v (Vm.PTE_ADDR e) ∧
    (t + 4 * Vm.PTX (P * PGSIZE) + 4 ≤ q ∨ q + PGSIZE ≤ t + 4 * Vm.PTX (P * PGSIZE));
  up_out : pgdir + 4 * Vm.PDX (P * PGSIZE) + 4 ≤ q ∨ q + PGSIZE ≤ pgdir + 4 * Vm.PDX (P * PGSIZE)
}.

Lemma PDX_page va : Vm.PDX (va / PGSIZE * PGSIZE) = Vm.PDX va.
Proof.
  unfold Vm.PDX, Vm.PDXSHIFT, PGSIZE. f_equal. rewrite !Z.shiftr_div_pow2 by lia.
  change (2 ^ 22) with (4096 * 1024). rewrite <- !Z.div_div by lia. by rewrite Z.div_mul by lia.
Qed.

Lemma PTX_page va : Vm.PTX (va / PGSIZE * PGSIZE) = Vm.PTX va.
Proof.
  unfold Vm.PTX, Vm.PTXSHIFT, PGSIZE. f_equal. rewrite !Z.shiftr_div_pow2 by lia.
  change (2 ^ 12) with 4096. by rewrite Z.div_mul by lia.
Qed.

Lemma translate_page m pgdir P q va wr : user_page m pgdir P q → va / PGSIZE = P →
  translate m pgdir va wr = Some (q + va mod PGSIZE).
Proof.
  intros [(H1 & H2 & _) (H3 & H4 & _ & -> & _) _] <-. rewrite PDX_page, ?PTX_page in *. unfold translate.
  rewrite H1, H2, H3, H4. by rewrite orb_true_r.
Qed.

Lemma translate_user_page m pgdir P q va wr : user_page m pgdir P q → va / PGSIZE = P →
  translate_user m pgdir va wr = Some (q + va mod PGSIZE).
Proof.
  intros Hp Hva. rewrite <- (translate_page m pgdir P q va wr Hp Hva). subst P.
  destruct Hp as [(_ & _ & H1) (_ & _ & H2 & _) _]. rewrite PDX_page, ?PTX_page in *. unfold translate_user. cbv zeta. by rewrite H1, H2.
Qed.

(** Stores in the page leave the mapping alone. *)
Lemma user_page_store m pgdir P q a v : user_page m pgdir P q → q ≤ a → a + 4 ≤ q + PGSIZE →
  user_page (store32 a v m) pgdir P q.
Proof.
  intros [Hd (H3 & H4 & H5 & Hq & Ht) Ho] Ha Ha'.
  assert (load32 (store32 a v m) (pgdir + 4 * Vm.PDX (P * PGSIZE)) = load32 m (pgdir + 4 * Vm.PDX (P * PGSIZE))) as E1.
  { apply Kalloc.load32_ext. intros x Hx. apply Kalloc.store32_out. lia. }
  constructor; cbv zeta in *; rewrite ?E1; [done| |done].
  assert (load32 (store32 a v m) (p2v (Vm.PTE_ADDR (load32 m (pgdir + 4 * Vm.PDX (P * PGSIZE)))) + 4 * Vm.PTX (P * PGSIZE)) =
    load32 m (p2v (Vm.PTE_ADDR (load32 m (pgdir + 4 * Vm.PDX (P * PGSIZE)))) + 4 * Vm.PTX (P * PGSIZE))) as E2.
  { apply Kalloc.load32_ext. intros x Hx. apply Kalloc.store32_out. lia. }
  rewrite E2. done.
Qed.

(** A word inside the page. *)
Definition in_word (P va : Z) : Prop := va / PGSIZE = P ∧ (va + 3) / PGSIZE = P ∧ 0 ≤ va < 2 ^ 32 - 3.

Lemma in_word_mod P va d : in_word P va → 0 ≤ d ≤ 3 → (va + d) / PGSIZE = P ∧ (va + d) mod PGSIZE = va mod PGSIZE + d.
Proof. unfold in_word, PGSIZE. intros (? & ? & ?) Hd. Z.div_mod_to_equations. lia. Qed.

Lemma in_word_range P va : in_word P va → 0 ≤ va mod PGSIZE ∧ va mod PGSIZE + 4 ≤ PGSIZE.
Proof. unfold in_word, PGSIZE. intros (? & ? & ?). Z.div_mod_to_equations. lia. Qed.

Lemma user_page_byte m pgdir P q a b : user_page m pgdir P q → q ≤ a < q + PGSIZE →
  user_page (CString.store a b m) pgdir P q.
Proof.
  intros [Hd (H3 & H4 & H5 & Hq & Ht) Ho] Ha.
  assert (∀ x, x + 4 ≤ q ∨ q + PGSIZE ≤ x → load32 (CString.store a b m) x = load32 m x) as E.
  { intros x Hx. apply Kalloc.load32_ext. intros y Hy. unfold CString.store.
    rewrite (proj2 (Z.eqb_neq y a)) by lia. done. }
  constructor; cbv zeta in *; rewrite ?(E (pgdir + _)) by done; [done| |done]. rewrite E by done. done.
Qed.

Lemma store_word (tr : CString.mem → Z → bool → option Z) m pgdir P q va v :
  (∀ m va, user_page m pgdir P q → va / PGSIZE = P → tr m va true = Some (q + va mod PGSIZE)) →
  user_page m pgdir P q → in_word P va → store_by tr (le32 v) m va = Some (store32 (q + va mod PGSIZE) v m).
Proof.
  intros Htr Hp Hw. pose proof (in_word_range _ _ Hw) as Hr. destruct (in_word_mod P va 0 Hw ltac:(lia)) as [E0 F0].
  destruct (in_word_mod P va 1 Hw ltac:(lia)) as [E1 F1]. destruct (in_word_mod P va 2 Hw ltac:(lia)) as [E2 F2].
  destruct (in_word_mod P va 3 Hw ltac:(lia)) as [E3 F3]. destruct Hw as (_ & _ & Hva). rewrite Z.add_0_r in *.
  unfold le32. cbn [store_by]. rewrite (u32_small (va + 1)) by lia. rewrite (u32_small (va + 1 + 1)) by lia.
  rewrite (u32_small (va + 1 + 1 + 1)) by lia.
  replace (va + 1 + 1 + 1) with (va + 3) by lia. replace (va + 1 + 1) with (va + 2) by lia.
  assert (∀ d, 0 ≤ d ≤ 3 → q ≤ q + (va mod PGSIZE + d) < q + PGSIZE) as Hin by lia.
  rewrite (Htr m va Hp E0). cbn [mbind option_bind].
  assert (user_page (CString.store (q + va mod PGSIZE) (u8 v) m) pgdir P q) as Hp1 by (apply user_page_byte; [done|lia]).
  rewrite (Htr _ _ Hp1 E1), F1. cbn [mbind option_bind].
  set (m1 := CString.store _ _ m) in *.
  assert (user_page (CString.store (q + (va mod PGSIZE + 1)) (u8 (v / 2 ^ 8)) m1) pgdir P q) as Hp2
    by (apply user_page_byte; [done|lia]).
  rewrite (Htr _ _ Hp2 E2), F2. cbn [mbind option_bind].
  set (m2 := CString.store _ _ m1) in *.
  assert (user_page (CString.store (q + (va mod PGSIZE + 2)) (u8 (v / 2 ^ 16)) m2) pgdir P q) as Hp3
    by (apply user_page_byte; [done|lia]).
  rewrite (Htr _ _ Hp3 E3), F3. cbn [mbind option_bind]. f_equal. unfold store32, m2, m1.
  by rewrite !Z.add_assoc.
Qed.

Lemma user_store_word m pgdir P q va v : user_page m pgdir P q → in_word P va →
  user_store (le32 v) m pgdir va = Some (store32 (q + va mod PGSIZE) v m).
Proof. intros. rewrite user_store_by. apply (store_word _ m pgdir P); [|done..]. intros. by apply (translate_page _ _ P). Qed.

Lemma prog_store_word m pgdir P q va v : user_page m pgdir P q → in_word P va →
  prog_store (le32 v) m pgdir va = Some (store32 (q + va mod PGSIZE) v m).
Proof. intros. apply (store_word _ m pgdir P); [|done..]. intros. by apply (translate_user_page _ _ P). Qed.

Lemma user_word_page m pgdir P q va : user_page m pgdir P q → in_word P va →
  user_word m pgdir va = Some (load32 m (q + va mod PGSIZE)).
Proof.
  intros Hp Hw. destruct (in_word_mod P va 0 Hw ltac:(lia)) as [E0 F0].
  destruct (in_word_mod P va 1 Hw ltac:(lia)) as [E1 F1]. destruct (in_word_mod P va 2 Hw ltac:(lia)) as [E2 F2].
  destruct (in_word_mod P va 3 Hw ltac:(lia)) as [E3 F3]. destruct Hw as (_ & _ & Hva). rewrite Z.add_0_r in *.
  unfold user_word, prog_load. cbn [load_by]. rewrite (u32_small (va + 1)) by lia. rewrite (u32_small (va + 1 + 1)) by lia.
  rewrite (u32_small (va + 1 + 1 + 1)) by lia.
  replace (va + 1 + 1 + 1) with (va + 3) by lia. replace (va + 1 + 1) with (va + 2) by lia.
  rewrite (translate_user_page m pgdir P q va false Hp E0), (translate_user_page m pgdir P q _ false Hp E1),
    (translate_user_page m pgdir P q _ false Hp E2), (translate_user_page m pgdir P q _ false Hp E3), F1, F2, F3.
  cbn [mbind option_bind]. f_equal. unfold get32, load32. simpl. by rewrite !Z.add_assoc.
Qed.

(** ** Words after stores *)

Lemma store32_u32 a v m x : store32 a (u32 v) m x = store32 a v m x.
Proof.
  rewrite !Kalloc.store32_eq. unfold u32, u8.
  assert (∀ k, 0 ≤ k ≤ 24 → (v mod 2 ^ 32 / 2 ^ k) mod 2 ^ 8 = (v / 2 ^ k) mod 2 ^ 8) as E.
  { intros k Hk. apply Z.bits_inj'. intros j Hj. rewrite <- !Z.land_ones, <- !Z.shiftr_div_pow2 by lia.
    rewrite !Z.land_spec, !Z.shiftr_spec, Z.land_spec by lia. destruct (decide (j < 8)).
    - rewrite (Z.ones_spec_low 32 (j + k)) by lia. by rewrite andb_true_r.
    - rewrite (Z.ones_spec_high 8 j) by lia. by rewrite !andb_false_r. }
  pose proof (E 0 ltac:(lia)) as E0. rewrite !Z.div_1_r in E0.
  by rewrite (E 24), (E 16), (E 8), E0 by lia.
Qed.

Lemma load32_store32_eq a v m : load32 (store32 a v m) a = u32 v.
Proof.
  rewrite <- (Kalloc.load32_store32 a (u32 v) m) by apply u32_range.
  apply Kalloc.load32_ext. intros x _. symmetry. apply store32_u32.
Qed.

Lemma load32_store32_ne a b v m : a + 4 ≤ b ∨ b + 4 ≤ a → load32 (store32 b v m) a = load32 m a.
Proof. intros H. apply Kalloc.load32_ext. intros x Hx. apply Kalloc.store32_out. lia. Qed.

(** ** Delivery *)

Section deliver.
Context {T : Type}.
Implicit Types k : kernel T.

Definition kmem_of k : CString.mem := km_mem (k_kmem k).
Definition pgdir_of k : Z := p2v (r_cr3 (k_cpu k)).
Definition with_mem (m : CString.mem) k : kernel T := set_kmem (set_mem (λ _, m) (k_kmem k)) k.

Lemma ustore32_page k va v P q : user_page (kmem_of k) (pgdir_of k) P q → in_word P va →
  ustore32 va v k = Ok tt (with_mem (store32 (q + va mod PGSIZE) v (kmem_of k)) k).
Proof.
  intros Hp Hw. unfold ustore32, ustore, mbind, kM_bind, gets.
  by rewrite (user_store_word (km_mem (k_kmem k)) (p2v (r_cr3 (k_cpu k))) P q va v Hp Hw).
Qed.

(** The seven words of the frame, from the stack pointer down. *)
Definition frame (tf : trapframe) (restorer_addr : Z) : list Z :=
  [116; tf_ebp tf; tf_eax tf; tf_ecx tf; tf_edx tf; Trap.SIGFPE; restorer_addr].

(** The memory after the pushes. *)
Fixpoint push_all (a : Z) (l : list Z) (m : CString.mem) : CString.mem :=
  match l with
  | [] => m
  | v :: l' => push_all (a - 4) l' (store32 (a - 4) v m)
  end.

(** The frame lies in one page. *)
Definition frame_room (P S : Z) : Prop := 28 ≤ S < 2 ^ 32 ∧ (S - 28) / PGSIZE = P ∧ (S - 1) / PGSIZE = P.

Lemma frame_word P S d : frame_room P S → 4 ≤ d ≤ 28 →
  in_word P (S - d) ∧ (S - d) mod PGSIZE = (S - 28) mod PGSIZE + 28 - d.
Proof. unfold frame_room, in_word, PGSIZE. intros (? & ? & ?) Hd. Z.div_mod_to_equations. lia. Qed.

(** The stores of [deliver], [d] bytes below the stack pointer, and what
    follows. *)
Fixpoint pushes {A} (S d : Z) (l : list Z) (c : kM (kernel T) A) : kM (kernel T) A :=
  match l with
  | [] => c
  | v :: l' => _ ← ustore32 (u32 (S - d)) v; pushes S (d + 4) l' c
  end.

Lemma deliver_eq tf h r : Trap.deliver (T := T) tf h r =
  pushes (tf_esp tf) 4 (frame tf r) (mret (tf_set_eip_esp (u32 h) (u32 (tf_esp tf - 28)) tf)).
Proof. reflexivity. Qed.

Lemma with_mem_with_mem m m' k : with_mem m (with_mem m' k) = with_mem m k.
Proof. done. Qed.

Lemma pushes_page {A} l S d (c : kM (kernel T) A) k m P q : user_page m (pgdir_of k) P q → frame_room P S → 4 ≤ d →
  d + 4 * Z.of_nat (length l) ≤ 32 →
  pushes S d l c (with_mem m k) =
    c (with_mem (push_all (q + (S - 28) mod PGSIZE + 28 - (d - 4)) l m) k).
Proof.
  intros Hp Hr. revert d m Hp. induction l as [|v l IH]; intros d m Hp Hd Hl; cbn [pushes push_all]; [done|].
  simpl length in Hl. destruct (frame_word P S d Hr) as [Hw Em]; [lia|]. pose proof (in_word_range _ _ Hw) as Hin.
  unfold mbind, kM_bind. rewrite u32_small by (destruct Hr; lia).
  rewrite (ustore32_page (with_mem m k) (S - d) v P q Hp Hw), with_mem_with_mem.
  change (kmem_of (with_mem m k)) with m. rewrite IH; [|apply user_page_store; [exact Hp|destruct Hin; lia|destruct Hin; lia]|lia|lia].
  replace (q + (S - d) mod PGSIZE) with (q + (S - 28) mod PGSIZE + 28 - (d - 4) - 4) by lia.
  do 3 f_equal. lia.
Qed.

Lemma with_mem_id k : with_mem (kmem_of k) k = k.
Proof. by destruct k as [[] ? ? ? ? ? ? ? ? ? ? ?]. Qed.

Lemma deliver_pushes k tf h r P q : user_page (kmem_of k) (pgdir_of k) P q → frame_room P (tf_esp tf) →
  Trap.deliver tf h r k = Ok (tf_set_eip_esp (u32 h) (tf_esp tf - 28) tf)
    (with_mem (push_all (q + (tf_esp tf - 28) mod PGSIZE + 28) (frame tf r) (kmem_of k)) k).
Proof.
  intros Hp Hr. rewrite deliver_eq. rewrite <- (with_mem_id k) at 1.
  rewrite (pushes_page (frame tf r) _ 4 _ k (kmem_of k) P q Hp Hr); [|lia|simpl; lia].
  unfold mret, kM_ret. rewrite (u32_small (tf_esp tf - 28)) by (destruct Hr; lia).
  replace (q + (tf_esp tf - 28) mod PGSIZE + 28 - (4 - 4)) with (q + (tf_esp tf - 28) mod PGSIZE + 28) by lia.
  reflexivity.
Qed.
End deliver.

(** What the frame holds: word [j] is [4 * (j + 1)] bytes below [a]. *)
Lemma push_all_out a l m x : a ≤ x ∨ x < a - 4 * Z.of_nat (length l) → push_all a l m x = m x.
Proof.
  revert a m. induction l as [|v l IH]; intros a m Hx; simpl in *; [done|].
  rewrite IH by lia. apply Kalloc.store32_out. lia.
Qed.

Lemma push_all_word a l m j v : l !! j = Some v → load32 (push_all a l m) (a - 4 * (Z.of_nat j + 1)) = u32 v.
Proof.
  revert a m j. induction l as [|w l IH]; intros a m j Hj; [done|]. destruct j as [|j]; simpl in Hj; cbn [push_all].
  - simplify_eq. replace (a - 4 * (Z.of_nat 0 + 1)) with (a - 4) by lia.
    rewrite <- (load32_store32_eq (a - 4) v m). apply Kalloc.load32_ext. intros x Hx. apply push_all_out. lia.
  - replace (a - 4 * (Z.of_nat (S j) + 1)) with (a - 4 - 4 * (Z.of_nat j + 1)) by lia. by apply IH.
Qed.

Lemma push_all_page m pgdir P q a l : user_page m pgdir P q → q + 4 * Z.of_nat (length l) ≤ a → a ≤ q + PGSIZE →
  user_page (push_all a l m) pgdir P q.
Proof.
  revert a m. induction l as [|v l IH]; intros a m Hp Ha Hb; simpl in *; [done|].
  apply IH; [apply user_page_store; [done|lia|lia]|lia|lia].
Qed.

(** ** The round trip *)

Definition u32_ok (z : Z) : Prop := 0 ≤ z < 2 ^ 32.

(** The registers of the interrupted code that the frame holds. *)
Definition saved_ok (tf : trapframe) : Prop :=
  u32_ok (tf_ebp tf) ∧ u32_ok (tf_eax tf) ∧ u32_ok (tf_ecx tf) ∧ u32_ok (tf_edx tf).

(** What restorer does with five words above it. *)
Lemma restorer_pops m pgdir P q S r edx ecx eax ebp eip : user_page m pgdir P q → frame_room P S →
  r_esp r = S - 24 → let a := q + (S - 28) mod PGSIZE in
  load32 m (a + 8) = edx → load32 m (a + 12) = ecx → load32 m (a + 16) = eax →
  load32 m (a + 20) = ebp → load32 m (a + 24) = eip →
  restorer m pgdir r = Some (store32 a (r_ebp r) m, mkRegs eax ecx edx ebp (u32 S) eip).
Proof.
  intros Hp Hr Hesp a H1 H2 H3 H4 H5. pose proof Hr as (HS & _).
  assert (∀ d, 4 ≤ d ≤ 28 → in_word P (S - d) ∧ q + (S - d) mod PGSIZE = a + 28 - d) as Hw.
  { intros d Hd. destruct (frame_word P S d Hr Hd) as [Hin Em]. split; [done|]. rewrite Em. unfold a. lia. }
  unfold restorer. rewrite Hesp. replace (S - 24 - 4) with (S - 28) by lia. rewrite (u32_small (S - 28)) by lia.
  destruct (Hw 28 ltac:(lia)) as [Hw28 E28]. rewrite (prog_store_word m pgdir P q (S - 28) (r_ebp r) Hp Hw28).
  fold a. cbn [mbind option_bind]. set (m' := store32 a (r_ebp r) m).
  assert (user_page m' pgdir P q) as Hp'.
  { pose proof (in_word_range _ _ Hw28) as [? ?]. apply user_page_store; [exact Hp|unfold a; lia|unfold a; lia]. }
  assert (∀ e v, 8 ≤ e ≤ 24 → load32 m (a + e) = v → user_word m' pgdir (u32 (S - 28 + e)) = Some v) as Hword.
  { intros e v He <-. replace (S - 28 + e) with (S - (28 - e)) by lia. rewrite u32_small by lia.
    destruct (Hw (28 - e) ltac:(lia)) as [Hwd Ed]. rewrite (user_word_page m' pgdir P q (S - (28 - e)) Hp' Hwd), Ed.
    replace (a + 28 - (28 - e)) with (a + e) by lia. f_equal. apply load32_store32_ne. lia. }
  rewrite (Hword 8 edx ltac:(lia) H1). cbn [mbind option_bind].
  rewrite (Hword 12 ecx ltac:(lia) H2). cbn [mbind option_bind].
  rewrite (Hword 16 eax ltac:(lia) H3). cbn [mbind option_bind].
  rewrite (Hword 20 ebp ltac:(lia) H4). cbn [mbind option_bind].
  rewrite !u32_add_l. replace (S - 28 + 20 + 4) with (S - 28 + 24) by lia.
  rewrite (Hword 24 eip ltac:(lia) H5). cbn [mbind option_bind].
  do 3 f_equal. rewrite <- Z.add_assoc, u32_add_l. f_equal. lia.
Qed.

Section claim.
Context {T : Type} `{!BlockIO T} `{!TxnIO T} `{!OpIO T}.
Variables (kend data forkret_addr : Z) (dsw : Fs.devsw T).
Implicit Types k : kernel T.

(** The way of a divide error through trap when the process has a handler: the frame
    is delivered, and the tests of the killed flag and of the timer let it pass. *)
Lemma trap_divide k i j d tf tf' m' : k_proc k = Some i → p_killed (proc_at (k_ptab k) i) = 0 →
  tf_trapno tf = Trap.T_DIVIDE → tf_trapno tf' = tf_trapno tf → let h := p_handler (proc_at (k_ptab k) i) in
  h !!! 0%nat ≠ -1 → Trap.deliver tf (h !!! 0%nat) (h !!! 256%nat) k = Ok tf' (with_mem m' k) →
  Trap.trap kend data forkret_addr dsw j d tf k = Ok tf' (with_mem m' k).
Proof.
  intros Hi Hk Hn Hn' h Hh Hd. assert (Trap.dispatch (T := T) d tf = Trap.divide d tf) as Edis by (unfold Trap.dispatch; rewrite Hn; reflexivity).
  assert (Trap.divide d tf k = Ok tf' (with_mem m' k)) as Ediv.
  { unfold Trap.divide, cur, myproc, mbind, kM_bind, kget, gets, mret, kM_ret. rewrite Hi. change (Z.to_nat Trap.SIGFPE) with 0%nat.
    fold h. rewrite (proj2 (Z.eqb_neq _ _) Hh). exact Hd. }
  set (k' := with_mem m' k) in *. assert (Trap.exit_if_user_killed kend tf' k' = Ok tt k') as Eex.
  { unfold Trap.exit_if_user_killed, cur, myproc, mbind, kM_bind, kget, gets, mret, kM_ret. change (k_proc k') with (k_proc k).
    rewrite Hi, decide_False by done. cbv beta iota. change (k_proc k') with (k_proc k). rewrite Hi. cbv beta iota.
    change (k_ptab k') with (k_ptab k). by rewrite Hk. }
  unfold Trap.trap. rewrite Hn, Edis. change (Trap.T_DIVIDE =? Trap.T_SYSCALL) with false. cbv iota.
  unfold mbind at 1, kM_bind at 1. rewrite Ediv. unfold mbind at 1, kM_bind at 1. rewrite Eex.
  unfold cur, myproc, mbind, kM_bind, kget, gets, mret, kM_ret. change (k_proc k') with (k_proc k). rewrite Hi, decide_False by done.
  cbv beta iota. change (k_proc k') with (k_proc k). rewrite Hi. cbv beta iota. rewrite Hn', Hn.
  change (Trap.T_DIVIDE =? Trap.T_IRQ0 + Trap.IRQ_TIMER) with false. case_decide; cbv beta iota; by rewrite Eex.
Qed.

(** C25. A signal and its return are transparent but for the place.  When a process
    that is not killed and has a handler for SIGFPE divides by zero, [trap] returns to
    the handler, with the signal number as its argument and the registered restorer as
    its return address on the stack of the program; and whatever the handler does to
    the registers, if it leaves the words above its frame alone, the restorer, run in
    user mode, brings back eax, ecx, edx, ebp and esp as they were at the divide error.
    It resumes at address 0x74, wherever the error was; trap.c calls this the address
    of the next instruction, which it is in one test program. *)
Theorem signal_roundtrip k i j d tf P q : let p := proc_at (k_ptab k) i in
  k_proc k = Some i → p_killed p = 0 → tf_trapno tf = Trap.T_DIVIDE → p_handler p !!! 0%nat ≠ -1 →
  user_page (kmem_of k) (pgdir_of k) P q → frame_room P (tf_esp tf) → saved_ok tf →
  let S := tf_esp tf in
  ∃ tf' k', Trap.trap kend data forkret_addr dsw j d tf k = Ok tf' k' ∧
    tf_eip tf' = u32 (p_handler p !!! 0%nat) ∧ tf_esp tf' = S - 28 ∧
    user_word (kmem_of k') (pgdir_of k') (S - 28) = Some (u32 (p_handler p !!! 256%nat)) ∧
    user_word (kmem_of k') (pgdir_of k') (S - 24) = Some Trap.SIGFPE ∧
    ∀ m regs, user_page m (pgdir_of k') P q →
      (∀ x, (S - 24) mod PGSIZE ≤ x - q < (S - 24) mod PGSIZE + 24 → m x = kmem_of k' x) →
      r_esp regs = S - 24 →
      ∃ m', restorer m (pgdir_of k') regs =
        Some (m', mkRegs (tf_eax tf) (tf_ecx tf) (tf_edx tf) (tf_ebp tf) S 116).
Proof.
  intros p Hi Hkl Hn Hh Hp Hr (Hebp & Heax & Hecx & Hedx) S. pose proof Hr as (HS & _).
  set (h := p_handler p !!! 0%nat) in *. set (r := p_handler p !!! 256%nat).
  set (a := q + (S - 28) mod PGSIZE). set (l := frame tf r).
  assert (∀ d, 4 ≤ d ≤ 28 → in_word P (S - d) ∧ q + (S - d) mod PGSIZE = a + 28 - d) as Hw.
  { intros e He. destruct (frame_word P S e Hr He) as [Hin Em]. split; [done|]. rewrite Em. unfold a. lia. }
  set (m1 := push_all (a + 28) l (kmem_of k)). set (k' := with_mem m1 k).
  exists (tf_set_eip_esp (u32 h) (S - 28) tf), k'. split.
  { apply (trap_divide k i); [done..|]. fold p h r. apply (deliver_pushes k tf h r P q Hp Hr). }
  change (kmem_of k') with m1. change (pgdir_of k') with (pgdir_of k).
  assert (user_page m1 (pgdir_of k) P q) as Hp1.
  { destruct (Hw 28 ltac:(lia)) as [H28 E28]. destruct (Hw 4 ltac:(lia)) as [H4 E4].
    pose proof (in_word_range _ _ H28) as [? ?]. pose proof (in_word_range _ _ H4) as [? ?].
    apply push_all_page; [exact Hp|unfold a, l; simpl length; lia|lia]. }
  assert (∀ j v, l !! j = Some v → load32 m1 (a + 28 - 4 * (Z.of_nat j + 1)) = u32 v) as Hl
    by (intros; by apply push_all_word).
  split_and!; [done|done| | |].
  - destruct (Hw 28 ltac:(lia)) as [H28 E28]. rewrite (user_word_page m1 _ P q (S - 28) Hp1 H28), E28.
    f_equal. exact (Hl 6%nat r eq_refl).
  - destruct (Hw 24 ltac:(lia)) as [H24 E24]. rewrite (user_word_page m1 _ P q (S - 24) Hp1 H24), E24.
    f_equal. exact (Hl 5%nat Trap.SIGFPE eq_refl).
  - intros m regs Hpm Hsame Hesp. eexists.
    destruct (Hw 24 ltac:(lia)) as [H24 E24].
    assert (∀ j v, (j < 5)%nat → l !! j = Some v → u32_ok v → load32 m (a + (24 - 4 * Z.of_nat j)) = v) as Hm.
    { intros j' v Hj Hv Hok. rewrite <- (u32_small v Hok), <- (Hl j' v Hv).
      replace (a + 28 - 4 * (Z.of_nat j' + 1)) with (a + (24 - 4 * Z.of_nat j')) by lia.
      apply Kalloc.load32_ext. intros x Hx. apply Hsame. lia. }
    rewrite (restorer_pops m (pgdir_of k) P q S regs (tf_edx tf) (tf_ecx tf) (tf_eax tf) (tf_ebp tf) 116 Hpm Hr Hesp
      (Hm 4%nat _ ltac:(lia) eq_refl Hedx) (Hm 3%nat _ ltac:(lia) eq_refl Hecx) (Hm 2%nat _ ltac:(lia) eq_refl Heax)
      (Hm 1%nat _ ltac:(lia) eq_refl Hebp) (Hm 0%nat 116 ltac:(lia) eq_refl ltac:(unfold u32_ok; lia))).
    rewrite (u32_small S) by lia. reflexivity.
Qed.
End claim.

(** A process with one stack page, at user address 4096: the directory is at
    physical address 0x1000, the page table at 0x2000, the page at 0x3000. *)
Definition sig_mem : CString.mem :=
  store32 (Kalloc.KERNBASE + 8192 + 4) (12288 + 7) (store32 (Kalloc.KERNBASE + 4096) (8192 + 7) (λ _, 0)).
Definition sig_kernel : kernel unit :=
  mkKernel (Kalloc.mkKmem 0 0 sig_mem) (Fs.mkFs [] [] tt) [] ∅ (mkPtab [proc_zero; proc_zero] 3 None) (Some 0%nat) 0 4096
    (mkCpuregs 4096 0 0) (Console.Console.mkCons (Console.Console.mkInput [] 0 0 0) (Console.Console.mkScreen [] 0) []) 0 [].
Definition sig_tf : trapframe := mkTf 0 0 8100 0 0 5 7 9 0 0 0 0 0 0 100 27 512 8192 43.

Lemma sig_page : user_page (kmem_of sig_kernel) (pgdir_of sig_kernel) 1 (Kalloc.KERNBASE + 12288).
Proof. constructor; [by vm_compute|split_and!; [by vm_compute|by vm_compute|by vm_compute|by vm_compute|left; by vm_compute]|left; by vm_compute]. Qed.

(** Its process has the handler at 48 and the restorer at 96. *)
Definition sig_proc : proc := p_set_handler (<[256%nat := 96]> (<[0%nat := 48]> (replicate 257 (-1)))) (p_set_state RUNNING proc_zero).
Definition sig_kernel_h : kernel unit := set_ptab (mkPtab [sig_proc; proc_zero] 3 None) sig_kernel.

(** No file system is involved. *)
#[local] Instance no_blocks : BlockIO unit :=
  {| bread _ _ := panic "no disk"; bwrite _ := panic "no disk"; brelse _ := panic "no disk";
     buf_data _ _ := []; buf_sector _ _ := 0; set_buf_data _ _ t := t; set_buf_dirty _ t := t |}.
#[local] Instance no_txn : TxnIO unit := {| log_write _ := panic "no disk" |}.
#[local] Instance no_op : File.OpIO unit := {| File.begin_op := mret tt; File.end_op := mret tt |}.

Lemma signal_roundtrip_witness :
  ∃ tf' k', Trap.trap 0 0 0 (Fs.mkDevsw _ (λ _, None) (λ _, None)) (Trap.mkJunk 0 0 []) (Trap.mkDevices [] [] 0 0) sig_tf sig_kernel_h = Ok tf' k' ∧
    tf_eip tf' = 48 ∧ tf_esp tf' = 8164 ∧ user_word (kmem_of k') (pgdir_of k') 8164 = Some 96.
Proof.
  destruct (signal_roundtrip 0 0 0 (Fs.mkDevsw _ (λ _, None) (λ _, None)) sig_kernel_h 0
    (Trap.mkJunk 0 0 []) (Trap.mkDevices [] [] 0 0) sig_tf 1 (Kalloc.KERNBASE + 12288))
    as (tf' & k' & H1 & H2 & H3 & H4 & _); [..|exact sig_page| | |].
  - reflexivity.
  - reflexivity.
  - reflexivity.
  - vm_compute. congruence.
  - vm_compute. split_and!; congruence.
  - vm_compute. split_and!; congruence.
  - exists tf', k'. by split_and!.
Defined.
End Signal.
