(* ===== verification/Gates.v ===== *)
(** * Segments, gates and the trap entry code

    The descriptors that seginit (vm.c) and tvinit (trap.c) set up with the
    macros of mmu.h, as the processor reads them, and the code that vectors.pl
    and trapasm.S put between an interrupt and trap.  The stack is the list of
    its words, the top first. *)

From stdpp Require Import base numbers option list strings.
From Stdlib Require Import ZArith Lia ZifyBool.
From S2P Require Import Prelude Kernel Proc Trap.
Import Kernel Proc Trap.
Local Open Scope Z_scope.

Module Gates.

(** ** Bit fields *)

(** A structure of bit fields, the lowest first, given by widths and values. *)
Fixpoint pack (ws vs : list Z) : Z :=
  match ws, vs with
  | w :: ws, v :: vs => v mod 2 ^ w + 2 ^ w * pack ws vs
  | _, _ => 0
  end.

(** The fields of a word. *)
Fixpoint unpack (ws : list Z) (x : Z) : list Z :=
  match ws with
  | [] => []
  | w :: ws => x mod 2 ^ w :: unpack ws (x / 2 ^ w)
  end.

(** ** Segment descriptors (mmu.h, vm.c) *)

Definition STA_X : Z := 8.
Definition STA_W : Z := 2.
Definition STA_R : Z := 2.
Definition SEG_KCODE : Z := 1.
Definition SEG_KCPU : Z := 3.
Definition NSEGS : nat := 7.

(** lim_15_0, base_15_0, base_23_16, type, s, dpl, p, lim_19_16, avl, rsv1, db,
    g, base_31_24. *)
Definition segdesc : list Z := [16; 16; 8; 4; 1; 2; 1; 4; 1; 1; 1; 1; 8].

Definition SEG (type base lim dpl : Z) : Z :=
  pack segdesc
    [ Z.land (Z.shiftr lim 12) 0xffff; Z.land (u32 base) 0xffff; Z.land (Z.shiftr (u32 base) 16) 0xff; type; 1; dpl; 1;
      Z.shiftr (u32 lim) 28; 0; 0; 1; 1; Z.shiftr (u32 base) 24 ].

(** The base, the last offset and the privilege level of a segment, and whether
    it holds code. *)
Definition seg_meaning (d : Z) : option (Z * Z * Z * bool) :=
  match unpack segdesc d with
  | [l0; b0; b1; type; s; dpl; p; l1; _; _; _; g; b2] =>
      if (p =? 1) && (s =? 1) then
        let l := l0 + l1 * 2 ^ 16 in
        Some (b0 + b1 * 2 ^ 16 + b2 * 2 ^ 24, if g =? 1 then l * 4096 + 4095 else l, dpl, Z.testbit type 3)
      else None
  | _ => None
  end.

(** Offsets in struct cpu, and the size of a descriptor. *)
Definition cpu_gdt : Z := 112.
Definition cpu_cpu : Z := 180.
Definition sizeof_segdesc : Z := 8.

(** lidt and lgdt: the operand of the instruction, three words of 16 bits. *)
Definition pseudo_descriptor (p size : Z) : list Z := [u16 (size - 1); u16 p; u16 (Z.shiftr (u32 p) 16)].

(** The stores of seginit to the table of the CPU at [c], which was [gdt]. *)
Definition seg_table (c : Z) (gdt : list Z) : list Z :=
  let gdt := <[Z.to_nat SEG_KCODE := SEG (Z.lor STA_X STA_R) 0 0xffffffff 0]> gdt in
  let gdt := <[Z.to_nat SEG_KDATA := SEG STA_W 0 0xffffffff 0]> gdt in
  let gdt := <[Z.to_nat SEG_UCODE := SEG (Z.lor STA_X STA_R) 0 0xffffffff DPL_USER]> gdt in
  let gdt := <[Z.to_nat SEG_UDATA := SEG STA_W 0 0xffffffff DPL_USER]> gdt in
  <[Z.to_nat SEG_KCPU := SEG STA_W (c + cpu_cpu) 8 0]> gdt.

(** The registers that it loads. *)
Record segregs := mkSegregs { gdtr : list Z; gs : Z }.

(** The address of [%gs:off] with the table [gdt]: the processor adds the base of
    the segment that the selector [gs] names. *)
Definition gs_addr (gdt : list Z) (gs off : Z) : option Z :=
  match gdt !! Z.to_nat (gs / 8) ≫= seg_meaning with Some (base, _, _, _) => Some (base + off) | None => None end.

(** A store through %gs to the words [m] of memory; without a segment it faults. *)
Definition gs_store (gdt : list Z) (gs off v : Z) (m : Z → Z) : option (Z → Z) :=
  a ← gs_addr gdt gs off; Some (λ x, if x =? a then v else m x).

(** [c] is the address of cpus[cpunum()]; [cpu] is %gs:0 and [proc] is %gs:4. *)
Definition seginit (c : Z) (gdt : list Z) (m : Z → Z) : option (list Z * segregs * (Z → Z)) :=
  let gdt := seg_table c gdt in
  let r := mkSegregs (pseudo_descriptor (c + cpu_gdt) (Z.of_nat NSEGS * sizeof_segdesc)) (SEG_KCPU * 8) in
  m ← gs_store gdt (gs r) 0 c m;
  m ← gs_store gdt (gs r) 4 0 m;
  Some (gdt, r, m).

(** ** Gates (mmu.h, trap.c) *)

Definition STS_IG32 : Z := 14.
Definition STS_TG32 : Z := 15.

(** off_15_0, cs, args, rsv1, type, s, dpl, p, off_31_16. *)
Definition gatedesc : list Z := [16; 16; 5; 3; 4; 1; 2; 1; 16].

Definition SETGATE (istrap : bool) (sel off d : Z) : Z :=
  pack gatedesc
    [ Z.land (u32 off) 0xffff; sel; 0; 0; if istrap then STS_TG32 else STS_IG32; 0; d; 1; Z.shiftr (u32 off) 16 ].

(** The loop of tvinit over the first [n] gates, and the system call gate. *)
Fixpoint set_gates (n : nat) (vectors : nat → Z) : list Z :=
  match n with
  | O => []
  | S n' => set_gates n' vectors ++ [SETGATE false (SEG_KCODE * 8) (vectors n') 0]
  end.
Definition tvinit (vectors : nat → Z) : list Z :=
  <[Z.to_nat T_SYSCALL := SETGATE true (SEG_KCODE * 8) (vectors (Z.to_nat T_SYSCALL)) DPL_USER]> (set_gates 256 vectors).

(** What idtinit loads; [idt] is the address of the table, of descriptors of
    eight bytes. *)
Definition idtinit (idt : Z) : list Z := pseudo_descriptor idt (256 * 8).

(** ** Entry and return (vectors.pl, trapasm.S) *)

(** The registers of a program in user mode. *)
Record regs := mkRegs {
  r_eax : Z; r_ecx : Z; r_edx : Z; r_ebx : Z; r_esp : Z; r_ebp : Z; r_esi : Z; r_edi : Z;
  r_ds : Z; r_es : Z; r_fs : Z; r_gs : Z; r_eip : Z; r_cs : Z; r_eflags : Z; r_ss : Z }.

(** The exceptions for which the processor pushes an error code. *)
Definition has_error_code (i : Z) : bool := (i =? 8) || ((10 <=? i) && (i <=? 14)) || (i =? 17).

(** What the processor pushes on the kernel stack when it leaves user mode. *)
Definition cpu_enter (i err : Z) (r : regs) : list Z :=
  (if has_error_code i then [err] else []) ++ [r_eip r; r_cs r; r_eflags r; r_esp r; r_ss r].

(** The entry of vector [i]: the test of vectors.pl decides whether it pushes 0. *)
Definition vector (i : Z) (stack : list Z) : list Z :=
  let stack := if negb ((i =? 8) || ((10 <=? i) && (i <=? 14)) || (i =? 17)) then 0 :: stack else stack in
  i :: stack.

(** The pushes of alltraps: pushl %ds, %es, %fs, %gs and pushal; [oesp] is the
    stack pointer before pushal. *)
Definition alltraps (r : regs) (oesp : Z) (stack : list Z) : list Z :=
  let stack := r_gs r :: r_fs r :: r_es r :: r_ds r :: stack in
  r_edi r :: r_esi r :: r_ebp r :: oesp :: r_ebx r :: r_edx r :: r_ecx r :: r_eax r :: stack.

(** struct trapframe over the words at the stack pointer. *)
Definition frame (stack : list Z) : option trapframe :=
  match stack with
  | [edi; esi; ebp; oesp; ebx; edx; ecx; eax; gs; fs; es; ds; trapno; err; eip; cs; eflags; esp; ss] =>
      Some (mkTf edi esi ebp oesp ebx edx ecx eax gs fs es ds trapno err eip cs eflags esp ss)
  | _ => None
  end.
Definition frame_words (t : trapframe) : list Z :=
  [tf_edi t; tf_esi t; tf_ebp t; tf_oesp t; tf_ebx t; tf_edx t; tf_ecx t; tf_eax t; tf_gs t; tf_fs t; tf_es t; tf_ds t;
   tf_trapno t; tf_err t; tf_eip t; tf_cs t; tf_eflags t; tf_esp t; tf_ss t].

(** trapret: popal, which skips the stack pointer, popl %gs, %fs, %es, %ds,
    addl $8, %esp, iret. *)
Definition trapret (stack : list Z) : option regs :=
  match stack with
  | edi :: esi :: ebp :: _ :: ebx :: edx :: ecx :: eax :: gs :: fs :: es :: ds :: _ :: _ ::
    eip :: cs :: eflags :: esp :: ss :: _ =>
      Some (mkRegs eax ecx edx ebx esp ebp esi edi ds es fs gs eip cs eflags ss)
  | _ => None
  end.

(** ** Properties of bit fields *)

Lemma unpack_pack ws : ∀ vs, Forall (λ w, 0 ≤ w) ws → length vs = length ws →
  unpack ws (pack ws vs) = zip_with (λ w v, v mod 2 ^ w) ws vs.
Proof.
  induction ws as [|w ws IH]; intros [|v vs] Hw Hl; try done. apply Forall_cons in Hw as [Hw Hws]. simpl.
  assert (0 < 2 ^ w) by (by apply Z.pow_pos_nonneg).
  replace (v mod 2 ^ w + 2 ^ w * pack ws vs) with (pack ws vs * 2 ^ w + v mod 2 ^ w) by lia.
  rewrite Z.add_mod, Z.mod_mul, Z.add_0_l, !Z.mod_mod by lia.
  rewrite Z.div_add_l, (Z.div_small (v mod 2 ^ w)), Z.add_0_r by (lia || by apply Z.mod_pos_bound). f_equal. apply IH; [done|].
  by injection Hl.
Qed.

(** ** How the processor reads the descriptors *)

(** The selector, the offset, the privilege level that software needs to use
    the gate, and whether interrupts stay enabled. *)
Definition gate_meaning (d : Z) : option (Z * Z * Z * bool) :=
  match unpack gatedesc d with
  | [o0; cs; _; _; type; s; dpl; p; o1] =>
      if (p =? 1) && (s =? 0) && ((type =? 14) || (type =? 15)) then Some (cs, o0 + o1 * 2 ^ 16, dpl, type =? 15) else None
  | _ => None
  end.

(** [int i] in a program that runs at privilege level [cpl]: the gate may be
    used, and leads to ring 0 code. *)
Definition int_allowed (idt gdt : list Z) (cpl : Z) (i : nat) : bool :=
  match idt !! i ≫= gate_meaning with
  | Some (cs, _, dpl, _) =>
      (cpl <=? dpl) && match gdt !! Z.to_nat (cs / 8) ≫= seg_meaning with
                       | Some (_, _, sdpl, code) => code && (sdpl =? 0)
                       | None => false
                       end
  | None => false
  end.

(** ** Theorems *)

Lemma split_offset o : 0 ≤ o < 2 ^ 32 → Z.land o 0xffff mod 2 ^ 16 + Z.shiftr o 16 mod 2 ^ 16 * 2 ^ 16 = o.
Proof.
  intros Ho. change 0xffff with (Z.ones 16). rewrite Z.land_ones, Z.shiftr_div_pow2, Z.mod_mod by lia.
  rewrite (Z.mod_small (o / 2 ^ 16)) by (split; [apply Z.div_pos; lia|apply Z.div_lt_upper_bound; lia]).
  pose proof (Z.div_mod o (2 ^ 16) ltac:(lia)). lia.
Qed.

Lemma split_base b : 0 ≤ b < 2 ^ 32 →
  Z.land b 0xffff mod 2 ^ 16 + Z.land (Z.shiftr b 16) 0xff mod 2 ^ 8 * 2 ^ 16 + Z.shiftr b 24 mod 2 ^ 8 * 2 ^ 24 = b.
Proof.
  intros Hb. change 0xffff with (Z.ones 16). change 0xff with (Z.ones 8).
  rewrite !Z.land_ones, !Z.shiftr_div_pow2, !Z.mod_mod by lia.
  rewrite (Z.mod_small (b / 2 ^ 24)) by (split; [apply Z.div_pos; lia|apply Z.div_lt_upper_bound; lia]).
  pose proof (Z.div_mod b (2 ^ 16) ltac:(lia)). pose proof (Z.div_mod (b / 2 ^ 16) (2 ^ 8) ltac:(lia)) as H2.
  rewrite Z.div_div in H2 by lia. change (2 ^ 16 * 2 ^ 8) with (2 ^ 24) in *. lia.
Qed.

Lemma gate_spec istrap sel off d : 0 ≤ sel < 2 ^ 16 → 0 ≤ off < 2 ^ 32 → 0 ≤ d < 4 →
  gate_meaning (SETGATE istrap sel off d) = Some (sel, off, d, istrap).
Proof.
  intros Hs Ho Hd. unfold gate_meaning, SETGATE.
  rewrite unpack_pack by (done || by repeat constructor). cbn [gatedesc zip_with]. rewrite u32_small by done.
  rewrite split_offset by done. rewrite (Z.mod_small sel), (Z.mod_small d) by done. by destruct istrap.
Qed.

Lemma set_gates_lookup n vectors i : (i < n)%nat →
  set_gates n vectors !! i = Some (SETGATE false (SEG_KCODE * 8) (vectors i) 0).
Proof.
  induction n as [|n IH]; intros Hi; [lia|]. cbn [set_gates].
  assert (length (set_gates n vectors) = n) as Hl.
  { clear. induction n as [|n IH]; simpl; [done|]. rewrite length_app. simpl. lia. }
  destruct (decide (i = n)) as [->|].
  - rewrite lookup_app_r, Hl, Nat.sub_diag by lia. done.
  - rewrite lookup_app_l by lia. apply IH. lia.
Qed.

Lemma set_gates_length n vectors : length (set_gates n vectors) = n.
Proof. induction n as [|n IH]; simpl; [done|]. rewrite length_app. simpl. lia. Qed.

Lemma tvinit_lookup vectors i : (i < 256)%nat →
  tvinit vectors !! i = Some (SETGATE (i =? 64)%nat (SEG_KCODE * 8) (vectors i) (if (i =? 64)%nat then DPL_USER else 0)).
Proof.
  intros Hi. unfold tvinit. change (Z.to_nat T_SYSCALL) with 64%nat. destruct (i =? 64)%nat eqn:E.
  - replace i with 64%nat by lia. apply list_lookup_insert_eq. rewrite set_gates_length. lia.
  - rewrite list_lookup_insert_ne by lia. by apply set_gates_lookup.
Qed.

Lemma kcpu_meaning c gdt : length gdt = NSEGS → 0 ≤ c < 2 ^ 32 - 256 →
  seg_table c gdt !! Z.to_nat SEG_KCPU ≫= seg_meaning = Some (c + cpu_cpu, 4095, 0, false).
Proof.
  intros Hl Ha. unfold seg_table. destruct gdt as [|g0 [|g1 [|g2 [|g3 [|g4 [|g5 [|g6 []]]]]]]]; try done.
  change (seg_meaning (SEG STA_W (c + cpu_cpu) 8 0) = Some (c + cpu_cpu, 4095, 0, false)). assert (0 ≤ c + cpu_cpu < 2 ^ 32) by (unfold cpu_cpu; lia).
  unfold seg_meaning, SEG. rewrite unpack_pack by (done || by repeat constructor). cbn [segdesc zip_with].
  by rewrite u32_small, split_base by done.
Qed.

(** The segments of seginit: flat code and data segments for the kernel and for
    user programs, of privilege levels 0 and 3; the processor is given the table
    of this CPU, all seven entries of it, and [cpu] and [proc] are the fields of
    this CPU's structure, which are all of memory that changes. *)
Theorem seginit_segments (c : Z) (gdt : list Z) (m : Z → Z) : length gdt = NSEGS → 0 ≤ c < 2 ^ 32 - 256 →
  ∃ gdt' r m', seginit c gdt m = Some (gdt', r, m') ∧ let g i := gdt' !! Z.to_nat i ≫= seg_meaning in
  g SEG_KCODE = Some (0, 2 ^ 32 - 1, 0, true) ∧ g SEG_KDATA = Some (0, 2 ^ 32 - 1, 0, false) ∧
  g SEG_UCODE = Some (0, 2 ^ 32 - 1, 3, true) ∧ g SEG_UDATA = Some (0, 2 ^ 32 - 1, 3, false) ∧
  (∃ l b0 b1, gdtr r = [l; b0; b1] ∧ b0 + b1 * 2 ^ 16 = c + cpu_gdt ∧ l + 1 = Z.of_nat (length gdt') * sizeof_segdesc) ∧
  gs_addr gdt' (gs r) 0 = Some (c + cpu_cpu) ∧ m' (c + cpu_cpu) = c ∧ m' (c + cpu_cpu + 4) = 0 ∧
  ∀ x, x ≠ c + cpu_cpu → x ≠ c + cpu_cpu + 4 → m' x = m x.
Proof.
  intros Hl Ha. pose proof (kcpu_meaning c gdt Hl Ha) as Hk. assert (0 ≤ c + cpu_gdt < 2 ^ 32) as Hg by (unfold cpu_gdt; lia).
  assert (∀ off, gs_addr (seg_table c gdt) (SEG_KCPU * 8) off = Some (c + cpu_cpu + off)) as Hgs.
  { intros off. unfold gs_addr. change (SEG_KCPU * 8 / 8) with SEG_KCPU. by rewrite Hk. }
  eexists _, _, _. split; [unfold seginit, gs_store; cbn [gs]; rewrite !Hgs; reflexivity|]. cbv zeta. cbn [gdtr gs].
  assert (length (seg_table c gdt) = NSEGS) as Hl' by (unfold seg_table; by rewrite !length_insert).
  split_and!; [by destruct gdt as [|g0 [|g1 [|g2 [|g3 [|g4 [|g5 [|g6 []]]]]]]]..| | | | |].
  - eexists _, _, _. split; [reflexivity|]. rewrite Hl'. split; [|done]. rewrite u32_small by done. unfold u16. rewrite Z.shiftr_div_pow2 by lia.
    rewrite (Z.mod_small (_ / _)) by (split; [apply Z.div_pos; lia|apply Z.div_lt_upper_bound; lia]).
    pose proof (Z.div_mod (c + cpu_gdt) (2 ^ 16) ltac:(lia)). lia.
  - by rewrite Hgs, Z.add_0_r.
  - replace (c + cpu_cpu =? c + cpu_cpu + 4) with false by lia. by replace (c + cpu_cpu =? c + cpu_cpu + 0) with true by lia.
  - by replace (c + cpu_cpu + 4 =? c + cpu_cpu + 4) with true by lia.
  - intros x H1 H2. replace (x =? c + cpu_cpu + 4) with false by lia. by replace (x =? c + cpu_cpu + 0) with false by lia.
Qed.

(** The processor's entry, the vector and alltraps. *)
Definition enter (i err oesp : Z) (r : regs) : list Z := alltraps r oesp (vector i (cpu_enter i err r)).

(** The entry code gives trap the same frame for every vector, whether or
    not the processor pushes an error code: the registers of the program, the
    vector and the error code (0 if there is none); and when trap returns,
    trapret restores the program with the registers that are then in the
    frame. *)
Theorem trap_frame_roundtrip (i err oesp : Z) (r : regs) :
  frame (enter i err oesp r) = Some (mkTf (r_edi r) (r_esi r) (r_ebp r) oesp (r_ebx r) (r_edx r) (r_ecx r) (r_eax r)
    (r_gs r) (r_fs r) (r_es r) (r_ds r) i (if has_error_code i then err else 0)
    (r_eip r) (r_cs r) (r_eflags r) (r_esp r) (r_ss r)) ∧
  trapret (enter i err oesp r) = Some r ∧
  ∀ t, frame (frame_words t) = Some t ∧
    trapret (frame_words t) = Some (mkRegs (tf_eax t) (tf_ecx t) (tf_edx t) (tf_ebx t) (tf_esp t) (tf_ebp t) (tf_esi t)
      (tf_edi t) (tf_ds t) (tf_es t) (tf_fs t) (tf_gs t) (tf_eip t) (tf_cs t) (tf_eflags t) (tf_ss t)).
Proof.
  unfold enter, vector, cpu_enter. fold (has_error_code i). destruct (has_error_code i), r; by repeat split; destruct t.
Qed.

(** C22. A user program can enter the kernel by an int instruction through the
    system call gate only; every gate, for interrupts and exceptions, leads to
    its own vector in the kernel's code segment, and only the system call gate
    leaves interrupts enabled. *)
Theorem only_syscall_from_user (vectors : nat → Z) (c : Z) (gdt : list Z) (i : nat) :
  (∀ j, 0 ≤ vectors j < 2 ^ 32) → length gdt = NSEGS → (i < 256)%nat →
  let idt := tvinit vectors in
  int_allowed idt (seg_table c gdt) 3 i = (Z.of_nat i =? T_SYSCALL) ∧
  int_allowed idt (seg_table c gdt) 0 i = true ∧
  ∃ dpl, idt !! i ≫= gate_meaning = Some (SEG_KCODE * 8, vectors i, dpl, Z.of_nat i =? T_SYSCALL).
Proof.
  intros Hv Hl Hi idt. unfold int_allowed, idt. rewrite tvinit_lookup by done. cbn [mbind option_bind].
  rewrite gate_spec by (done || apply Hv || by destruct (i =? 64)%nat).
  assert (seg_table c gdt !! Z.to_nat (SEG_KCODE * 8 / 8) ≫= seg_meaning = Some (0, 2 ^ 32 - 1, 0, true)) as ->.
  { unfold seg_table. destruct gdt as [|g0 [|g1 [|g2 [|g3 [|g4 [|g5 [|g6 []]]]]]]]; try done. }
  replace (Z.of_nat i =? T_SYSCALL) with (i =? 64)%nat by (unfold T_SYSCALL; lia).
  destruct (i =? 64)%nat; split_and!; try done; by eexists.
Qed.

Lemma only_syscall_from_user_witness :
  int_allowed (tvinit (λ i, 4096)) (seg_table 4096 (replicate 7 0)) 3 64 = true ∧
  int_allowed (tvinit (λ i, 4096)) (seg_table 4096 (replicate 7 0)) 3 14 = false.
Proof.
  split.
  - apply (only_syscall_from_user (λ i, 4096) 4096 (replicate 7 0) 64); [lia|done|lia].
  - apply (only_syscall_from_user (λ i, 4096) 4096 (replicate 7 0) 14); [lia|done|lia].
Defined.
End Gates.
