(* ===== verification/Intr.v ===== *)
(** * Interrupt controllers and the timer (picirq.c, ioapic.c, timer.c)

    The programming of the two 8259A controllers, of the I/O APIC and of the
    interval timer, as sequences of accesses to ports and to device memory.  The
    machine is a parameter ([Bus]); the classes [PicSpec] and [IoapicSpec] state
    what the data sheets say that the writes do, and the theorems are about any
    machine that keeps them. *)

From stdpp Require Import base numbers option list.
From Stdlib Require Import ZArith Lia ZifyBool.
From S2P Require Import Prelude Trap.
Import Trap.
Local Open Scope Z_scope.

(** Ports, and 32-bit registers in memory. *)
Class Bus (D : Type) := {
  bus_inb : Z → D → Z * D;
  bus_outb : Z → Z → D → D;
  bus_ldl : Z → D → Z * D;
  bus_stl : Z → Z → D → D
}.

Module Intr.

(** ** picirq.c *)

Definition IO_PIC1 : Z := 0x20.
Definition IO_PIC2 : Z := 0xA0.
Definition IRQ_SLAVE : Z := 2.

Section pic.
Context {D : Type} `{!Bus D}.

(** The variable [irqmask], a ushort, and the machine. *)
Record pics := mkPics { irqmask : Z; pdev : D }.

Definition out (port v : Z) (s : pics) : pics := mkPics (irqmask s) (bus_outb port (u8 v) (pdev s)).

(** Its initial value. *)
Definition irqmask_init : Z := Z.land 0xFFFF (Z.lnot (Z.shiftl 1 IRQ_SLAVE)).

Definition picsetmask (mask : Z) (s : pics) : pics :=
  let s := mkPics mask (pdev s) in
  let s := out (IO_PIC1 + 1) mask s in
  out (IO_PIC2 + 1) (Z.shiftr mask 8) s.

Definition picenable (irq : Z) (s : pics) : pics :=
  picsetmask (u16 (Z.land (irqmask s) (Z.lnot (Z.shiftl 1 irq)))) s.

Definition picinit (s : pics) : pics :=
  let s := out (IO_PIC1 + 1) 0xFF s in
  let s := out (IO_PIC2 + 1) 0xFF s in
  let s := out IO_PIC1 0x11 s in
  let s := out (IO_PIC1 + 1) T_IRQ0 s in
  let s := out (IO_PIC1 + 1) (Z.shiftl 1 IRQ_SLAVE) s in
  let s := out (IO_PIC1 + 1) 0x3 s in
  let s := out IO_PIC2 0x11 s in
  let s := out (IO_PIC2 + 1) (T_IRQ0 + 8) s in
  let s := out (IO_PIC2 + 1) IRQ_SLAVE s in
  let s := out (IO_PIC2 + 1) 0x3 s in
  let s := out IO_PIC1 0x68 s in
  let s := out IO_PIC1 0x0a s in
  let s := out IO_PIC2 0x68 s in
  let s := out IO_PIC2 0x0a s in
  if negb (irqmask s =? 0xFFFF) then picsetmask (irqmask s) s else s.

(** ** timer.c *)

Definition IO_TIMER1 : Z := 0x40.
Definition TIMER_FREQ : Z := 1193182.
Definition TIMER_DIV (x : Z) : Z := (TIMER_FREQ + x / 2) / x.
Definition TIMER_MODE : Z := IO_TIMER1 + 3.
Definition TIMER_SEL0 : Z := 0x00.
Definition TIMER_RATEGEN : Z := 0x04.
Definition TIMER_16BIT : Z := 0x30.

Definition timerinit (s : pics) : pics :=
  let s := out TIMER_MODE (Z.lor (Z.lor TIMER_SEL0 TIMER_RATEGEN) TIMER_16BIT) s in
  let s := out IO_TIMER1 (TIMER_DIV 100 mod 256) s in
  let s := out IO_TIMER1 (TIMER_DIV 100 / 256) s in
  picenable IRQ_TIMER s.

(** ** ioapic.c *)

Definition IOAPIC : Z := 0xFEC00000.
Definition REG_ID : Z := 0x00.
Definition REG_VER : Z := 0x01.
Definition REG_TABLE : Z := 0x10.
Definition INT_DISABLED : Z := 0x00010000.

(** [data] follows [reg] and three words of padding. *)
Definition ioapicread (reg : Z) (d : D) : Z * D := bus_ldl (IOAPIC + 16) (bus_stl IOAPIC reg d).
Definition ioapicwrite (reg data : Z) (d : D) : D := bus_stl (IOAPIC + 16) data (bus_stl IOAPIC reg d).

(** The loop over the table from entry [i]. *)
Fixpoint ioapic_clear (n : nat) (i : Z) (d : D) : D :=
  match n with
  | O => d
  | S n' =>
      let d := ioapicwrite (REG_TABLE + 2 * i) (Z.lor INT_DISABLED (T_IRQ0 + i)) d in
      let d := ioapicwrite (REG_TABLE + 2 * i + 1) 0 d in
      ioapic_clear n' (i + 1) d
  end.

(** The result tells whether the message about the id is printed. *)
Definition ioapicinit (ismp : bool) (ioapicid : Z) (d : D) : bool * D :=
  if negb ismp then (false, d)
  else
    let '(v, d) := ioapicread REG_VER d in
    let maxintr := Z.land (Z.shiftr v 16) 0xFF in
    let '(v, d) := ioapicread REG_ID d in
    let id := Z.shiftr v 24 in
    (negb (id =? ioapicid), ioapic_clear (Z.to_nat (maxintr + 1)) 0 d).

Definition ioapicenable (ismp : bool) (irq cpunum : Z) (d : D) : D :=
  if negb ismp then d
  else
    let d := ioapicwrite (REG_TABLE + 2 * irq) (T_IRQ0 + irq) d in
    ioapicwrite (REG_TABLE + 2 * irq + 1) (u32 (Z.shiftl cpunum 24)) d.
End pic.
#[global] Arguments mkPics {D}.
#[global] Arguments pics : clear implicits.

(** ** What the 8259A does *)

(** [wait] counts the initialisation words that are still to come. *)
Record chip := mkChip { wait : nat; base : Z; cascade : Z; icw4 : Z; level : bool; mask : Z }.

(** A write to the command port: ICW1 starts the initialisation of a cascaded
    controller with four words, and clears the mask; the other commands do not
    matter here. *)
Definition chip_cmd (v : Z) (c : chip) : chip :=
  if Z.testbit v 4 then mkChip 3 (base c) (cascade c) (icw4 c) (Z.testbit v 3) 0 else c.

(** A write to the data port: the word that is expected, or the mask. *)
Definition chip_data (v : Z) (c : chip) : chip :=
  match wait c with
  | 3%nat => mkChip 2 (Z.land v 0xF8) (cascade c) (icw4 c) (level c) (mask c)
  | 2%nat => mkChip 1 (base c) v (icw4 c) (level c) (mask c)
  | 1%nat => mkChip 0 (base c) (cascade c) v (level c) (mask c)
  | _ => mkChip 0 (base c) (cascade c) (icw4 c) (level c) v
  end.

Class PicSpec (D : Type) `{!Bus D} := {
  pic1 : D → chip;
  pic2 : D → chip;
  pic_cmd1 v d : pic1 (bus_outb IO_PIC1 v d) = chip_cmd v (pic1 d) ∧ pic2 (bus_outb IO_PIC1 v d) = pic2 d;
  pic_data1 v d : pic1 (bus_outb (IO_PIC1 + 1) v d) = chip_data v (pic1 d) ∧ pic2 (bus_outb (IO_PIC1 + 1) v d) = pic2 d;
  pic_cmd2 v d : pic2 (bus_outb IO_PIC2 v d) = chip_cmd v (pic2 d) ∧ pic1 (bus_outb IO_PIC2 v d) = pic1 d;
  pic_data2 v d : pic2 (bus_outb (IO_PIC2 + 1) v d) = chip_data v (pic2 d) ∧ pic1 (bus_outb (IO_PIC2 + 1) v d) = pic1 d
}.

(** The vector on which line [irq] interrupts the processor.  The lines from 8 on
    are those of the slave, which needs its line of the master. *)
Definition chip_vector (c : chip) (line : Z) : option Z := if Z.testbit (mask c) line then None else Some (base c + line).
Definition pic_vector {D} `{!Bus D} `{!PicSpec D} (d : D) (irq : Z) : option Z :=
  if irq <? 8 then chip_vector (pic1 d) irq
  else if Z.testbit (cascade (pic1 d)) (cascade (pic2 d)) then
    _ ← chip_vector (pic1 d) (cascade (pic2 d)); chip_vector (pic2 d) (irq - 8)
  else None.

Section pic_props.
Context {D : Type} `{!Bus D} `{!PicSpec D}.
Implicit Types (s : pics D) (d : D).

(** After the initialisation: both controllers wait for nothing, have their
    vectors and their connection, and the mask is the variable. *)
Record pic_ready s : Prop := mkReady {
  rd_pic1 : pic1 (pdev s) = mkChip 0 32 4 3 false (u8 (irqmask s));
  rd_pic2 : pic2 (pdev s) = mkChip 0 40 2 3 false (u8 (Z.shiftr (irqmask s) 8));
  rd_range : 0 ≤ irqmask s < 2 ^ 16
}.

Lemma out_spec s port v : pdev (out port v s) = bus_outb port (u8 v) (pdev s) ∧ irqmask (out port v s) = irqmask s.
Proof. done. Qed.

Lemma picsetmask_ready s m w1 w2 : pic1 (pdev s) = mkChip 0 32 4 3 false w1 → pic2 (pdev s) = mkChip 0 40 2 3 false w2 →
  0 ≤ m < 2 ^ 16 → pic_ready (picsetmask m s) ∧ irqmask (picsetmask m s) = m.
Proof.
  intros H1 H2 Hm. unfold picsetmask, out. cbn [pdev irqmask]. split; [|done]. split; cbn [pdev irqmask]; [| |done].
  - rewrite (proj2 (pic_data2 _ _)), (proj1 (pic_data1 _ _)), H1. done.
  - rewrite (proj1 (pic_data2 _ _)), (proj2 (pic_data1 _ _)), H2. done.
Qed.

Lemma picinit_ready s : irqmask s = irqmask_init → pic_ready (picinit s) ∧ irqmask (picinit s) = irqmask_init.
Proof.
  intros Hm. unfold picinit. set (s0 := out IO_PIC2 0x0a _).
  assert (irqmask s0 = irqmask_init) as -> by done. change (negb (irqmask_init =? 65535)) with true. cbv iota.
  apply (picsetmask_ready s0 irqmask_init 0 0); [| |done]; unfold s0, out; cbn [pdev irqmask].
  all: repeat first [rewrite (proj2 (pic_cmd2 _ _))|rewrite (proj2 (pic_data2 _ _))|rewrite (proj1 (pic_cmd1 _ _))|rewrite (proj1 (pic_data1 _ _))
    |rewrite (proj2 (pic_cmd1 _ _))|rewrite (proj2 (pic_data1 _ _))|rewrite (proj1 (pic_cmd2 _ _))|rewrite (proj1 (pic_data2 _ _))]; reflexivity.
Qed.

Lemma picenable_ready s irq : pic_ready s → 0 ≤ irq → pic_ready (picenable irq s) ∧
  ∀ n, 0 ≤ n < 16 → Z.testbit (irqmask (picenable irq s)) n = Z.testbit (irqmask s) n && negb (n =? irq).
Proof.
  intros [H1 H2 Hr] Hi. unfold picenable. set (m := Z.land _ _). destruct (picsetmask_ready s (u16 m) _ _ H1 H2) as [Hr' ->].
  { unfold u16. apply Z.mod_pos_bound. lia. }
  split; [done|]. intros n Hn. unfold u16, m. rewrite Z.mod_pow2_bits_low, Z.land_spec, Z.lnot_spec, Z.shiftl_spec by lia. f_equal. f_equal.
  destruct (Z.eqb_spec n irq) as [->|]; [by rewrite Z.sub_diag|]. destruct (decide (n < irq)); [apply Z.testbit_neg_r; lia|].
  apply Z.bits_above_log2; [lia|]. change (Z.log2 1) with 0. lia.
Qed.

(** A line is open when its bit in the mask is clear. *)
Lemma pic_vector_ready s irq : pic_ready s → Z.testbit (irqmask s) 2 = false → 0 ≤ irq < 16 →
  pic_vector (pdev s) irq = if Z.testbit (irqmask s) irq then None else Some (T_IRQ0 + irq).
Proof.
  intros [H1 H2 Hr] Hs Hi. assert (∀ n, 0 ≤ n < 8 → Z.testbit (u8 (irqmask s)) n = Z.testbit (irqmask s) n) as Hlow.
  { intros n Hn. unfold u8. change 256 with (2 ^ 8). by rewrite Z.mod_pow2_bits_low by lia. }
  assert (∀ n, 0 ≤ n < 8 → Z.testbit (u8 (Z.shiftr (irqmask s) 8)) n = Z.testbit (irqmask s) (n + 8)) as Hhigh.
  { intros n Hn. unfold u8. change 256 with (2 ^ 8). rewrite Z.mod_pow2_bits_low by lia. by rewrite Z.shiftr_spec by lia. }
  unfold pic_vector, chip_vector. rewrite H1, H2. cbn [mask base cascade]. destruct (irq <? 8) eqn:E.
  - rewrite Hlow by lia. done.
  - change (Z.testbit 4 2) with true. rewrite Hlow, Hs by lia. cbn [mbind option_bind]. rewrite Hhigh by lia.
    replace (irq - 8 + 8) with irq by lia. destruct (Z.testbit (irqmask s) irq); [done|]. f_equal. change T_IRQ0 with 32. lia.
Qed.

Lemma enable_all_ready irqs s : pic_ready s → Forall (λ irq, 0 ≤ irq < 16) irqs → pic_ready (foldl (λ s irq, picenable irq s) s irqs) ∧
  ∀ n, 0 ≤ n < 16 → Z.testbit (irqmask (foldl (λ s irq, picenable irq s) s irqs)) n = Z.testbit (irqmask s) n && negb (existsb (Z.eqb n) irqs).
Proof.
  revert s. induction irqs as [|irq irqs IH]; intros s Hs Hok; simpl.
  { split; [done|]. intros n Hn. by rewrite andb_true_r. }
  apply Forall_cons in Hok as [Hi Hok]. destruct (picenable_ready s irq Hs ltac:(lia)) as [Hs' Hb].
  destruct (IH _ Hs' Hok) as [Hr Hm]. split; [done|]. intros n Hn. rewrite Hm, Hb by done. by rewrite negb_orb, andb_assoc.
Qed.

(** C36. The interrupt controllers: after picinit and any calls of picenable,
    on any machine whose controllers behave as 8259As, line [irq] interrupts the
    processor on vector [T_IRQ0 + irq] when it was enabled, and not at all when it
    was not (line 2, which carries the slave, is always open); the controllers
    are edge-triggered. *)
Theorem pic_routes_irqs s irqs irq : irqmask s = irqmask_init → Forall (λ irq, 0 ≤ irq < 16) irqs → 0 ≤ irq < 16 →
  let s' := foldl (λ s irq, picenable irq s) (picinit s) irqs in
  pic_vector (pdev s') irq = (if decide (irq = IRQ_SLAVE ∨ irq ∈ irqs) then Some (T_IRQ0 + irq) else None) ∧
  level (pic1 (pdev s')) = false ∧ level (pic2 (pdev s')) = false.
Proof.
  intros Hm Hok Hi s'. destruct (picinit_ready s Hm) as [Hr0 Hm0]. destruct (enable_all_ready irqs _ Hr0 Hok) as [Hr Hb]. fold s' in Hr, Hb.
  assert (∀ n, 0 ≤ n < 16 → Z.testbit (irqmask s') n = negb (n =? 2) && negb (existsb (Z.eqb n) irqs)) as Hbit.
  { intros n Hn. rewrite Hb, Hm0 by done. f_equal. unfold irqmask_init. rewrite Z.land_spec, Z.lnot_spec, Z.shiftl_spec by lia.
    change 0xFFFF with (Z.ones 16). rewrite Z.ones_spec_low by lia. simpl. destruct (Z.eqb_spec n 2) as [->|]; [done|].
    unfold IRQ_SLAVE. destruct (decide (n < 2)); [rewrite Z.testbit_neg_r by lia; done|].
    rewrite Z.bits_above_log2; [done|lia|]. change (Z.log2 1) with 0. lia. }
  split; [|by rewrite (rd_pic1 _ Hr), (rd_pic2 _ Hr)]. rewrite pic_vector_ready by (done || rewrite Hbit by lia; done). rewrite Hbit by done.
  assert (existsb (Z.eqb irq) irqs = true ↔ irq ∈ irqs) as He.
  { rewrite existsb_exists. setoid_rewrite Z.eqb_eq. rewrite list_elem_of_In. naive_solver. }
  unfold IRQ_SLAVE. case_decide as Hd; destruct (Z.eqb_spec irq 2), (existsb (Z.eqb irq) irqs); simpl; try done; naive_solver.
Qed.
End pic_props.

(** A machine with nothing but the two controllers. *)
#[export] Instance two_pics : Bus (chip * chip) := {
  bus_inb _ d := (0, d);
  bus_outb port v d :=
    if port =? IO_PIC1 then (chip_cmd v d.1, d.2) else if port =? IO_PIC1 + 1 then (chip_data v d.1, d.2)
    else if port =? IO_PIC2 then (d.1, chip_cmd v d.2) else if port =? IO_PIC2 + 1 then (d.1, chip_data v d.2) else d;
  bus_ldl _ d := (0, d);
  bus_stl _ _ d := d
}.
#[export] Instance two_pics_spec : PicSpec (chip * chip).
Proof. refine {| pic1 d := fst d; pic2 d := snd d |}; by intros v []. Defined.

Lemma pic_routes_irqs_witness : let d := mkChip 2 0 0 0 true 0 in let s := foldl (λ s irq, picenable irq s) (picinit (mkPics irqmask_init (d, d))) [1; 14] in
  pic_vector (pdev s) 14 = Some 46 ∧ pic_vector (pdev s) 4 = None.
Proof.
  intros d s. split.
  - apply (pic_routes_irqs (mkPics irqmask_init (d, d)) [1; 14] 14); [done|by repeat constructor|done].
  - apply (pic_routes_irqs (mkPics irqmask_init (d, d)) [1; 14] 4); [done|by repeat constructor|done].
Defined.

(** ** What the I/O APIC does *)

(** A selected register and the registers behind the data word.  The entries of
    the table keep what is written to them, but for the two status bits. *)
Class IoapicSpec (D : Type) `{!Bus D} := {
  iosel : D → Z;
  ioreg : D → Z → Z;
  io_select v d : 0 ≤ v < 256 → iosel (bus_stl IOAPIC v d) = v ∧ ∀ r, ioreg (bus_stl IOAPIC v d) r = ioreg d r;
  io_write v d : REG_TABLE ≤ iosel d → Z.testbit v 12 = false → Z.testbit v 14 = false →
    ∀ r, ioreg (bus_stl (IOAPIC + 16) v d) r = if r =? iosel d then v else ioreg d r;
  io_read d : (bus_ldl (IOAPIC + 16) d).1 = ioreg d (iosel d) ∧ ∀ r, ioreg (bus_ldl (IOAPIC + 16) d).2 r = ioreg d r
}.

(** The vector and the processor of line [irq], if it is not disabled. *)
Definition io_route {D} `{!Bus D} `{!IoapicSpec D} (d : D) (irq : Z) : option (Z * Z) :=
  let lo := ioreg d (REG_TABLE + 2 * irq) in
  if Z.testbit lo 16 then None else Some (lo mod 256, Z.shiftr (ioreg d (REG_TABLE + 2 * irq + 1)) 24).

(** The number of the last entry. *)
Definition io_last {D} `{!Bus D} `{!IoapicSpec D} (d : D) : Z := Z.land (Z.shiftr (ioreg d REG_VER) 16) 0xFF.

(** The processor of the last request for [irq]. *)
Definition last_cpu (irq : Z) (reqs : list (Z * Z)) : option Z :=
  foldl (λ r q, if q.1 =? irq then Some q.2 else r) None reqs.

Section ioapic_props.
Context {D : Type} `{!Bus D} `{!IoapicSpec D}.
Implicit Types (d : D).

Lemma ioapicwrite_spec reg v d : REG_TABLE ≤ reg < 256 → Z.testbit v 12 = false → Z.testbit v 14 = false →
  ∀ r, ioreg (ioapicwrite reg v d) r = if r =? reg then v else ioreg d r.
Proof.
  intros Hr H1 H2 r. unfold ioapicwrite, REG_TABLE in *. destruct (io_select reg d ltac:(lia)) as [Hs Hk].
  rewrite io_write by (rewrite ?Hs; done || apply Hr). by rewrite Hs, Hk.
Qed.
Lemma ioapicread_spec reg d : 0 ≤ reg < 256 → (ioapicread reg d).1 = ioreg d reg ∧ ∀ r, ioreg (ioapicread reg d).2 r = ioreg d r.
Proof.
  intros Hr. unfold ioapicread. destruct (io_select reg d Hr) as [Hs Hk]. destruct (io_read (bus_stl IOAPIC reg d)) as [-> Hk'].
  split; [by rewrite Hs, Hk|]. intros r. by rewrite Hk', Hk.
Qed.

(** The words that are written have the status bits clear. *)
Lemma low_word_bits v : 0 ≤ v < 256 → Z.testbit v 12 = false ∧ Z.testbit v 14 = false ∧ Z.testbit v 16 = false.
Proof.
  intros Hv. destruct (decide (v = 0)) as [->|]; [by rewrite !Z.bits_0|].
  assert (Z.log2 v < 8) by (apply Z.log2_lt_pow2; lia). rewrite !Z.bits_above_log2 by lia. done.
Qed.

(** Two writes to one entry. *)
Lemma entry_write irq lo hi d : 0 ≤ irq < 120 → Z.testbit lo 12 = false → Z.testbit lo 14 = false → Z.testbit hi 12 = false → Z.testbit hi 14 = false →
  let d' := ioapicwrite (REG_TABLE + 2 * irq + 1) hi (ioapicwrite (REG_TABLE + 2 * irq) lo d) in
  io_route d' irq = (if Z.testbit lo 16 then None else Some (lo mod 256, Z.shiftr hi 24)) ∧
  ∀ j, j ≠ irq → io_route d' j = io_route d j.
Proof.
  intros Hi H1 H2 H3 H4 d'. assert (∀ r, ioreg d' r = if r =? REG_TABLE + 2 * irq + 1 then hi else if r =? REG_TABLE + 2 * irq then lo else ioreg d r) as E.
  { intros r. unfold d'. rewrite !ioapicwrite_spec by (done || unfold REG_TABLE; lia). done. }
  unfold io_route. split; [|intros j Hj]; rewrite !E.
  - replace (_ =? REG_TABLE + 2 * irq + 1) with false by lia. rewrite !Z.eqb_refl. done.
  - replace (REG_TABLE + 2 * j =? _) with false by lia. replace (REG_TABLE + 2 * j =? _) with false by lia.
    replace (REG_TABLE + 2 * j + 1 =? _) with false by lia. by replace (REG_TABLE + 2 * j + 1 =? _) with false by lia.
Qed.

Lemma lor_disabled v : 0 ≤ v < 256 → let x := Z.lor INT_DISABLED v in Z.testbit x 12 = false ∧ Z.testbit x 14 = false ∧ Z.testbit x 16 = true.
Proof. intros Hv x. destruct (low_word_bits v Hv) as (H1 & H2 & H3). unfold x. by rewrite !Z.lor_spec, H1, H2, H3. Qed.

Lemma ioapic_clear_spec n i d : 0 ≤ i → i + Z.of_nat n ≤ 120 →
  ∀ j, io_route (ioapic_clear n i d) j = if (i <=? j) && (j <? i + Z.of_nat n) then None else io_route d j.
Proof.
  revert i d. induction n as [|n IH]; intros i d Hi Hn j; cbn [ioapic_clear].
  { by replace ((i <=? j) && (j <? i + Z.of_nat 0)) with false by lia. }
  rewrite IH by lia. destruct (lor_disabled (T_IRQ0 + i) ltac:(unfold T_IRQ0; lia)) as (H1 & H2 & H3).
  destruct (entry_write i (Z.lor INT_DISABLED (T_IRQ0 + i)) 0 d ltac:(lia) H1 H2 eq_refl eq_refl) as [Ei Ej].
  destruct (decide (j = i)) as [->|Hne].
  - replace ((i + 1 <=? i) && _) with false by lia. rewrite Ei, H3. by replace ((i <=? i) && _) with true by lia.
  - rewrite Ej by done. by replace ((i + 1 <=? j) && (j <? i + 1 + Z.of_nat n)) with ((i <=? j) && (j <? i + Z.of_nat (S n))) by lia.
Qed.

Lemma ioapicenable_spec irq cpu d : 0 ≤ irq < 120 → 0 ≤ cpu < 256 → let d' := ioapicenable true irq cpu d in
  io_route d' irq = Some (T_IRQ0 + irq, cpu) ∧ ∀ j, j ≠ irq → io_route d' j = io_route d j.
Proof.
  intros Hi Hc. assert (0 ≤ T_IRQ0 + irq < 256) as Hv by (unfold T_IRQ0; lia). destruct (low_word_bits _ Hv) as (H1 & H2 & H3).
  assert (u32 (Z.shiftl cpu 24) = Z.shiftl cpu 24) as E by (apply u32_small; rewrite Z.shiftl_mul_pow2 by lia; lia).
  unfold ioapicenable. cbn [negb]. rewrite E.
  destruct (entry_write irq (T_IRQ0 + irq) (Z.shiftl cpu 24) d Hi H1 H2) as [-> Ej].
  - by rewrite Z.shiftl_spec_low by lia.
  - by rewrite Z.shiftl_spec_low by lia.
  - split; [|done]. rewrite H3, Z.mod_small by done. do 2 f_equal. rewrite Z.shiftr_shiftl_l by lia. by rewrite Z.shiftl_0_r.
Qed.

(** The I/O APIC: on a multiprocessor, after ioapicinit and any calls of
    ioapicenable, on any machine whose I/O APIC behaves as the data sheet says,
    line [irq] interrupts the processor that the last call for it named, on vector
    [T_IRQ0 + irq], and a line that was never enabled interrupts none. *)
Theorem ioapic_routes_irqs d id reqs irq : io_last d < 120 → Forall (λ q, 0 ≤ q.1 ≤ io_last d ∧ 0 ≤ q.2 < 256) reqs → 0 ≤ irq ≤ io_last d →
  let d' := foldl (λ d q, ioapicenable true q.1 q.2 d) (ioapicinit true id d).2 reqs in
  io_route d' irq = (λ cpu, (T_IRQ0 + irq, cpu)) <$> last_cpu irq reqs.
Proof.
  intros Hl Hok Hi d'. set (d0 := (ioapicinit true id d).2) in *. assert (io_route d0 irq = None) as H0.
  { unfold d0, ioapicinit. cbn [negb]. destruct (ioapicread_spec REG_VER d ltac:(done)) as [E1 K1]. destruct (ioapicread REG_VER d) as [v d1].
    simpl in E1, K1. destruct (ioapicread_spec REG_ID d1 ltac:(done)) as [_ K2]. destruct (ioapicread REG_ID d1) as [v2 d2]. simpl.
    rewrite E1. fold (io_last d). assert (0 ≤ io_last d) by lia. rewrite ioapic_clear_spec by lia. by replace (_ && _) with true by lia. }
  unfold last_cpu, d'. assert (io_route d0 irq = (λ cpu, (T_IRQ0 + irq, cpu)) <$> None) as H by done. clear H0. revert H.
  generalize (@None Z). clearbody d0. clear d'. revert d0. induction reqs as [|[q c] reqs IH]; intros d0 r Hr; [done|].
  apply Forall_cons in Hok as [[Hq Hc] Hok]. simpl in *. apply (IH Hok).
  destruct (ioapicenable_spec q c d0 ltac:(lia) Hc) as [Eq En]. destruct (Z.eqb_spec q irq) as [<-|Hne]; [by rewrite Eq|]. by rewrite En by done.
Qed.
End ioapic_props.

(** A machine with nothing but an I/O APIC of 24 lines: the selected register and
    the registers that were written. *)
#[export] Instance one_ioapic : Bus (Z * (Z → Z)) := {
  bus_inb _ d := (0, d);
  bus_outb _ _ d := d;
  bus_ldl _ d := (d.2 d.1, d);
  bus_stl a v d := if a =? IOAPIC then (v, d.2) else (d.1, λ r, if r =? d.1 then v else d.2 r)
}.
#[export] Instance one_ioapic_spec : IoapicSpec (Z * (Z → Z)).
Proof. refine {| iosel d := fst d; ioreg d := snd d |}; by intros. Defined.

Lemma ioapic_routes_irqs_witness : let d := foldl (λ d q, ioapicenable true q.1 q.2 d) (ioapicinit true 0 (0, λ r, 0x170011)).2 [(14, 1); (1, 0); (14, 3)] in
  io_route d 14 = Some (46, 3) ∧ io_route d 4 = None.
Proof.
  intros d. split.
  - apply (ioapic_routes_irqs (0, λ r, 0x170011) 0 [(14, 1); (1, 0); (14, 3)] 14); [done|repeat constructor; done|done].
  - apply (ioapic_routes_irqs (0, λ r, 0x170011) 0 [(14, 1); (1, 0); (14, 3)] 4); [done|repeat constructor; done|done].
Defined.
End Intr.
