(* ===== verification/Lapic.v ===== *)
(** * The local APIC and the start of the other processors (lapic.c, main.c)

    The programming of the local interrupt controller, of the clock in the CMOS
    memory, and startothers.  The machine is a parameter ([Bus] of Intr.v); the
    class [LapicSpec] states what the manual says of the registers. *)

From stdpp Require Import base numbers option list strings.
From Stdlib Require Import ZArith Lia ZifyBool.
From S2P Require Import Prelude CString Kalloc Spinlock Kernel Trap Intr.
Import Kalloc Kernel Trap Intr.
Local Open Scope Z_scope.

Module Lapic.

(** ** Registers, as indices of words *)

Definition ID : Z := 0x0020 / 4.
Definition VER : Z := 0x0030 / 4.
Definition TPR : Z := 0x0080 / 4.
Definition EOI : Z := 0x00B0 / 4.
Definition SVR : Z := 0x00F0 / 4.
Definition ENABLE : Z := 0x00000100.
Definition ESR : Z := 0x0280 / 4.
Definition ICRLO : Z := 0x0300 / 4.
Definition INIT : Z := 0x00000500.
Definition STARTUP : Z := 0x00000600.
Definition DELIVS : Z := 0x00001000.
Definition ASSERT : Z := 0x00004000.
Definition LEVEL : Z := 0x00008000.
Definition BCAST : Z := 0x00080000.
Definition ICRHI : Z := 0x0310 / 4.
Definition TIMER : Z := 0x0320 / 4.
Definition X1 : Z := 0x0000000B.
Definition PERIODIC : Z := 0x00020000.
Definition PCINT : Z := 0x0340 / 4.
Definition LINT0 : Z := 0x0350 / 4.
Definition LINT1 : Z := 0x0360 / 4.
Definition ERROR : Z := 0x0370 / 4.
Definition MASKED : Z := 0x00010000.
Definition TICR : Z := 0x0380 / 4.
Definition TDCR : Z := 0x03E0 / 4.
Definition IRQ_ERROR : Z := 19.

Definition CMOS_PORT : Z := 0x70.
Definition CMOS_RETURN : Z := 0x71.

Section lapic.
Context {D : Type} `{!Bus D}.
(** The variable [lapic], which mpinit sets; 0 when there is none. *)
Variable lapic : Z.

Definition lapicr (index : Z) (d : D) : Z * D := bus_ldl (lapic + 4 * index) d.
Definition lapicw (index value : Z) (d : D) : D := (lapicr ID (bus_stl (lapic + 4 * index) (u32 value) d)).2.

(** [while(lapic[ICRLO] & DELIVS)]; [None] when [fuel] reads are not enough. *)
Fixpoint delivered (fuel : nat) (d : D) : option D :=
  match fuel with
  | O => None
  | S fuel' => let '(v, d) := lapicr ICRLO d in if flag v DELIVS then delivered fuel' d else Some d
  end.

Definition lapicinit (fuel : nat) (d : D) : option D :=
  if lapic =? 0 then Some d
  else
    let d := lapicw SVR (Z.lor ENABLE (T_IRQ0 + IRQ_SPURIOUS)) d in
    let d := lapicw TDCR X1 d in
    let d := lapicw TIMER (Z.lor PERIODIC (T_IRQ0 + IRQ_TIMER)) d in
    let d := lapicw TICR 10000000 d in
    let d := lapicw LINT0 MASKED d in
    let d := lapicw LINT1 MASKED d in
    let '(v, d) := lapicr VER d in
    let d := if 4 <=? Z.land (Z.shiftr v 16) 0xFF then lapicw PCINT MASKED d else d in
    let d := lapicw ERROR (T_IRQ0 + IRQ_ERROR) d in
    let d := lapicw ESR 0 d in
    let d := lapicw ESR 0 d in
    let d := lapicw EOI 0 d in
    let d := lapicw ICRHI 0 d in
    let d := lapicw ICRLO (Z.lor (Z.lor BCAST INIT) LEVEL) d in
    d ← delivered fuel d;
    Some (lapicw TPR 0 d).

(** The message about interrupts is printed the first time; [n] is the static
    variable.  The result is the number, whether the message is printed, and
    [n]. *)
Definition cpunum (eflags n : Z) (d : D) : Z * bool * Z * D :=
  let '(p, n) := if flag eflags Spinlock.FL_IF then (n =? 0, i32 (n + 1)) else (false, n) in
  if negb (lapic =? 0) then let '(v, d) := lapicr ID d in (Z.shiftr v 24, p, n, d) else (0, p, n, d).

Definition lapiceoi (d : D) : D := if negb (lapic =? 0) then lapicw EOI 0 d else d.

(** A store of a ushort. *)
Definition store16 (a v : Z) (m : CString.mem) : CString.mem := CString.store (a + 1) (u8 (v / 2 ^ 8)) (CString.store a (u8 v) m).

(** The warm reset vector at 40:67, and the interrupts to the processor. *)
Definition lapicstartap (apicid addr : Z) (m : CString.mem) (d : D) : CString.mem * D :=
  let d := bus_outb CMOS_PORT 0xF d in
  let d := bus_outb (CMOS_PORT + 1) 0x0A d in
  let wrv := p2v (Z.lor (Z.shiftl 0x40 4) 0x67) in
  let m := store16 wrv 0 m in
  let m := store16 (wrv + 2) (u16 (Z.shiftr addr 4)) m in
  let d := lapicw ICRHI (Z.shiftl apicid 24) d in
  let d := lapicw ICRLO (Z.lor (Z.lor INIT LEVEL) ASSERT) d in
  let d := lapicw ICRLO (Z.lor INIT LEVEL) d in
  let d := lapicw ICRHI (Z.shiftl apicid 24) d in
  let d := lapicw ICRLO (Z.lor STARTUP (Z.shiftr addr 12)) d in
  let d := lapicw ICRHI (Z.shiftl apicid 24) d in
  let d := lapicw ICRLO (Z.lor STARTUP (Z.shiftr addr 12)) d in
  (m, d).

(** ** main.c: startothers *)

(** The image of entryother.S, the addresses of mpenter and entrypgdir, and what
    a processor does from its startup interrupt until it sets [started]; [None]
    when it never does. *)
Variable entryother_start entryother_size mpenter entrypgdir : Z.
Variable ap : Z → kmem * D → option (kmem * D).

(** [c->id], for the processors from number [c] on; interrupts are disabled. *)
Fixpoint start_loop (ids : list Z) (c : Z) (s : kmem * D) : option (kmem * D) :=
  match ids with
  | [] => Some s
  | id :: ids =>
      let '(me, _, _, d) := cpunum 0 0 s.2 in
      let code := p2v 0x7000 in
      if c =? me then start_loop ids (c + 1) (s.1, d)
      else
        match kalloc s.1 with
        | Ok stack k =>
            let m := store32 (code - 4) (u32 (stack + KSTACKSIZE)) (km_mem k) in
            let m := store32 (code - 8) mpenter m in
            let m := store32 (code - 12) (v2p entrypgdir) m in
            let '(m, d) := lapicstartap id (v2p code) m d in
            s ← ap c (set_mem (λ _, m) k, d);
            start_loop ids (c + 1) s
        | _ => None
        end
  end.

Definition startothers (ids : list Z) (s : kmem * D) : option (kmem * D) :=
  let m := CString.memmove (p2v 0x7000) entryother_start entryother_size in
  start_loop ids 0 (set_mem m s.1, s.2).
End lapic.

(** ** What the local APIC does *)

(** The bits of a register that software may set; none in a register that does not
    keep what is written to it. *)
Definition writable (i : Z) : Z :=
  foldr (λ p r, if i =? p.1 then p.2 else r) 0
    [(SVR, 0x1ff); (TDCR, 0xb); (TIMER, 0x300ff); (TICR, 0xffffffff); (LINT0, 0x1a7ff); (LINT1, 0x1a7ff); (PCINT, 0x107ff);
     (ERROR, 0x100ff); (ICRHI, 0xff000000); (TPR, 0xff)].
Definition keeps (i : Z) : bool := negb (writable i =? 0).

(** The registers that change only when they are written: these, the number of the
    processor and the version. *)
Definition stable (i : Z) : bool := keeps i || (i =? ID) || (i =? VER).

(** A write that is not a command, sets no reserved bit, and does not disable the
    controller, which would mask its interrupts. *)
Definition legal (i v : Z) : bool :=
  negb (i =? ICRLO) && (negb (keeps i) || (Z.land v (writable i) =? v)) && (negb (i =? SVR) || Z.testbit v 8).

(** [lsent] are the interrupts that were sent to processors, oldest first, each
    with its destination and command; a command is pending for the next [ldelay]
    reads, at most [patience]. *)
Class LapicSpec (D : Type) `{!Bus D} (lapic : Z) (patience : nat) := {
  lreg : D → Z → Z;
  lsent : D → list (Z * Z);
  ldelay : D → nat;
  lapic_write i v d : legal i v = true → let d' := bus_stl (lapic + 4 * i) v d in
    lsent d' = lsent d ∧ (∀ j, stable j = true → j ≠ i → lreg d' j = lreg d j) ∧ (keeps i = true → lreg d' i = v);
  lapic_command v d : let d' := bus_stl (lapic + 4 * ICRLO) v d in
    lsent d' = lsent d ++ [(Z.shiftr (lreg d ICRHI) 24, v)] ∧ ∀ j, stable j = true → lreg d' j = lreg d j;
  lapic_read i d : i = ID ∨ i = VER ∨ i = ICRLO → let r := bus_ldl (lapic + 4 * i) d in
    (i ≠ ICRLO → r.1 = lreg d i) ∧ lsent r.2 = lsent d ∧ ∀ j, stable j = true → lreg r.2 j = lreg d j;
  lapic_pending d : (ldelay d ≤ patience)%nat ∧ let r := bus_ldl (lapic + 4 * ICRLO) d in
    flag r.1 DELIVS = true → (ldelay r.2 < ldelay d)%nat;
  lapic_port p v d : lsent (bus_outb p v d) = lsent d ∧ ∀ j, stable j = true → lreg (bus_outb p v d) j = lreg d j
}.

Section lapic_props.
Context {D : Type} `{!Bus D} (lapic : Z) (patience : nat) `{HL : !LapicSpec D lapic patience}.
Implicit Types (d : D).
Notation lreg := (lreg (LapicSpec := HL)).
Notation lsent := (lsent (LapicSpec := HL)).

(** The part of the controller that a read leaves alone. *)
Definition calm d d' : Prop := lsent d' = lsent d ∧ ∀ j, stable j = true → lreg d' j = lreg d j.

Lemma lapicr_calm i d : i = ID ∨ i = VER ∨ i = ICRLO → calm d (lapicr lapic i d).2.
Proof. intros Hi. destruct (lapic_read i d Hi) as (_ & R1 & R2). done. Qed.

Lemma keeps_stable j : keeps j = true → stable j = true.
Proof. unfold stable. by intros ->. Qed.

Lemma lapicw_spec i v d : legal i (u32 v) = true → let d' := lapicw lapic i v d in
  lsent d' = lsent d ∧ (∀ j, stable j = true → j ≠ i → lreg d' j = lreg d j) ∧ (keeps i = true → lreg d' i = u32 v).
Proof.
  intros Hi. unfold lapicw. destruct (lapic_write i (u32 v) d Hi) as (H1 & H2 & H3).
  destruct (lapicr_calm ID (bus_stl (lapic + 4 * i) (u32 v) d)) as (R1 & R2); [by left|]. cbv zeta. rewrite R1. split_and!; [done| |].
  - intros j Hj Hne. rewrite R2 by done. by apply H2.
  - intros Hk. rewrite R2 by (by apply keeps_stable). by apply H3.
Qed.

Lemma lapicw_command v d : let d' := lapicw lapic ICRLO v d in
  lsent d' = lsent d ++ [(Z.shiftr (lreg d ICRHI) 24, u32 v)] ∧ ∀ j, stable j = true → lreg d' j = lreg d j.
Proof.
  unfold lapicw. destruct (lapic_command (u32 v) d) as (H1 & H2).
  destruct (lapicr_calm ID (bus_stl (lapic + 4 * ICRLO) (u32 v) d)) as (R1 & R2); [by left|]. cbv zeta. rewrite R1. split; [done|].
  intros j Hj. rewrite R2 by done. by apply H2.
Qed.

Lemma delivered_spec fuel d : (patience < fuel)%nat → ∃ d', delivered lapic fuel d = Some d' ∧ calm d d'.
Proof.
  intros Hf. destruct (lapic_pending d) as [Hd _]. assert (ldelay d < fuel)%nat as Hl by lia. clear Hf Hd. revert d Hl.
  induction fuel as [|fuel IH]; intros d Hl; [lia|]. cbn [delivered]. destruct (lapic_pending d) as [_ Hp].
  destruct (lapicr_calm ICRLO d) as (R1 & R2); [by right; right|]. unfold lapicr in *. destruct (bus_ldl (lapic + 4 * ICRLO) d) as [v d']. simpl in *.
  destruct (flag v DELIVS); [|by exists d']. destruct (IH d' ltac:(specialize (Hp eq_refl); lia)) as (d2 & -> & E1 & E2).
  exists d2. split; [done|]. split; [by rewrite E1|]. intros j Hj. by rewrite E2, R2.
Qed.

(** A sequence of such writes. *)
Definition writes (l : list (Z * Z)) d : D := foldl (λ d w, lapicw lapic w.1 w.2 d) d l.
Definition written (j v : Z) (l : list (Z * Z)) : Z := foldl (λ v w, if w.1 =? j then u32 w.2 else v) v l.

Lemma writes_spec l d : Forall (λ w, legal w.1 (u32 w.2) = true) l →
  lsent (writes l d) = lsent d ∧ (∀ j, keeps j = true → lreg (writes l d) j = written j (lreg d j) l) ∧
  (∀ j, stable j = true → j ∉ l.*1 → lreg (writes l d) j = lreg d j).
Proof.
  revert d. induction l as [|[i v] l IH]; intros d Hl; [done|]. apply Forall_cons in Hl as [Hi Hl]. simpl in *.
  destruct (lapicw_spec i v d Hi) as (S1 & S2 & S3). destruct (IH (lapicw lapic i v d) Hl) as (E1 & E2 & E3).
  split_and!; [by rewrite E1| |].
  - intros j Hj. rewrite E2 by done. f_equal. destruct (Z.eqb_spec i j) as [<-|]; [by apply S3|by apply S2, not_eq_sym; [apply keeps_stable|]].
  - intros j Hst [Hne Hj]%not_elem_of_cons. rewrite E3 by done. by apply S2.
Qed.

(** lapicinit ends, whenever the controller delivers its commands within
    [patience] reads, and leaves the local APIC enabled, with the spurious vector
    63, a periodic timer interrupt on vector 32 every ten million counts, the
    error interrupt on vector 51, the external lines masked and every priority
    accepted; it sends one message, the broadcast that synchronises the
    arbitration. *)
Theorem lapicinit_configures fuel d : lapic ≠ 0 → (patience < fuel)%nat → ∃ d', lapicinit lapic fuel d = Some d' ∧
  lreg d' SVR = 0x100 + 63 ∧ lreg d' TIMER = 0x20000 + 32 ∧ lreg d' TDCR = X1 ∧ lreg d' TICR = 10000000 ∧ lreg d' ERROR = 51 ∧
  lreg d' LINT0 = MASKED ∧ lreg d' LINT1 = MASKED ∧ (4 ≤ Z.land (Z.shiftr (lreg d VER) 16) 0xFF → lreg d' PCINT = MASKED) ∧
  lreg d' TPR = 0 ∧ lsent d' = lsent d ++ [(0, Z.lor (Z.lor BCAST INIT) LEVEL)].
Proof.
  intros H0 Hf. unfold lapicinit. rewrite (proj2 (Z.eqb_neq _ _) H0).
  set (l1 := [(SVR, Z.lor ENABLE (T_IRQ0 + IRQ_SPURIOUS)); (TDCR, X1); (TIMER, Z.lor PERIODIC (T_IRQ0 + IRQ_TIMER)); (TICR, 10000000); (LINT0, MASKED); (LINT1, MASKED)]).
  match goal with |- context [lapicr lapic VER ?x] => change x with (writes l1 d) end.
  destruct (writes_spec l1 d ltac:(by repeat constructor)) as (W1 & W2 & W3). set (d1 := writes l1 d) in *.
  unfold lapicr at 1. destruct (lapic_read VER d1) as (R0 & R1 & R2); [by right; left|]. destruct (bus_ldl (lapic + 4 * VER) d1) as [v d2]. simpl in R0, R1, R2.
  rewrite R0 by done. assert (lreg d1 VER = lreg d VER) as -> by (apply W3; [done|by apply (bool_decide_unpack _)]).
  set (b := 4 <=? _). set (l2 := (if b then [(PCINT, MASKED)] else []) ++ [(ERROR, T_IRQ0 + IRQ_ERROR); (ESR, 0); (ESR, 0); (EOI, 0); (ICRHI, 0)]).
  match goal with |- context [lapicw lapic ICRLO ?v ?x] => replace x with (writes l2 d2) by (unfold l2; by destruct b) end.
  destruct (writes_spec l2 d2 ltac:(unfold l2; destruct b; by repeat constructor)) as (V1 & V2 & V3). set (d3 := writes l2 d2) in *.
  destruct (lapicw_command (Z.lor (Z.lor BCAST INIT) LEVEL) d3) as (C1 & C2). set (d4 := lapicw lapic ICRLO _ d3) in *.
  destruct (delivered_spec fuel d4 Hf) as (d5 & -> & E1 & E2). cbn [mbind option_bind].
  destruct (lapicw_spec TPR 0 d5 ltac:(done)) as (T1 & T2 & T3).
  assert (∀ j, keeps j = true → j ≠ TPR → lreg (lapicw lapic TPR 0 d5) j = written j (written j (lreg d j) l1) l2) as Hk.
  { intros j Hj Hne. rewrite T2, E2, C2 by (done || by apply keeps_stable). rewrite V2, R2, W2 by (done || by apply keeps_stable). done. }
  eexists. split; [reflexivity|]. rewrite !Hk by done. unfold l2.
  split_and!; try (by destruct b).
  - intros Hv. assert (b = true) as -> by (by apply Z.leb_le). done.
  - by rewrite T3.
  - rewrite T1, E1, C1, V1, R1, W1. rewrite V2 by done. unfold l2. by destruct b.
Qed.

(** The interrupts that start processor [id] at the page of [addr]. *)
Definition ipis (id addr : Z) : list (Z * Z) :=
  [(id, Z.lor (Z.lor INIT LEVEL) ASSERT); (id, Z.lor INIT LEVEL); (id, Z.lor STARTUP (Z.shiftr addr 12)); (id, Z.lor STARTUP (Z.shiftr addr 12))].

Lemma icr_dest id d : 0 ≤ id < 256 → let d' := lapicw lapic ICRHI (Z.shiftl id 24) d in
  Z.shiftr (lreg d' ICRHI) 24 = id ∧ lsent d' = lsent d ∧ lreg d' ID = lreg d ID.
Proof.
  intros Hi. assert (u32 (Z.shiftl id 24) = Z.shiftl id 24) as Eu by (apply u32_small; rewrite Z.shiftl_mul_pow2 by lia; lia).
  assert (Z.land (Z.shiftl id 24) (Z.shiftl 0xff 24) = Z.shiftl id 24) as El.
  { rewrite <- Z.shiftl_land. change 0xff with (Z.ones 8). by rewrite Z.land_ones, Z.mod_small by lia. }
  destruct (lapicw_spec ICRHI (Z.shiftl id 24) d) as (S1 & S2 & S3).
  { rewrite Eu. unfold legal. change (writable ICRHI) with (Z.shiftl 0xff 24). rewrite El, Z.eqb_refl. by rewrite orb_true_r. }
  cbv zeta. rewrite S3, Eu by done. split_and!; [|done|by apply S2]. by rewrite Z.shiftr_shiftl_l, Z.shiftl_0_r by lia.
Qed.

Lemma lapicstartap_spec id m d : 0 ≤ id < 256 → let '(m', d') := lapicstartap lapic id 0x7000 m d in
  lsent d' = lsent d ++ ipis id 0x7000 ∧ lreg d' ID = lreg d ID ∧ ∀ x, x < KERNBASE + 0x467 ∨ KERNBASE + 0x46b ≤ x → m' x = m x.
Proof.
  intros Hid. unfold lapicstartap. cbv zeta.
  destruct (lapic_port CMOS_PORT 0xF d) as [P1 P2]. destruct (lapic_port (CMOS_PORT + 1) 0x0A (bus_outb CMOS_PORT 0xF d)) as [Q1 Q2].
  set (d0 := bus_outb (CMOS_PORT + 1) _ _) in *. destruct (icr_dest id d0 Hid) as (A1 & A2 & A3). set (d1 := lapicw lapic ICRHI _ d0) in *.
  destruct (lapicw_command (Z.lor (Z.lor INIT LEVEL) ASSERT) d1) as [B1 B2]. set (d2 := lapicw lapic ICRLO _ d1) in *.
  destruct (lapicw_command (Z.lor INIT LEVEL) d2) as [C1 C2]. set (d3 := lapicw lapic ICRLO _ d2) in *.
  destruct (icr_dest id d3 Hid) as (E1 & E2 & E3). set (d4 := lapicw lapic ICRHI _ d3) in *.
  destruct (lapicw_command (Z.lor STARTUP (Z.shiftr 0x7000 12)) d4) as [F1 F2]. set (d5 := lapicw lapic ICRLO _ d4) in *.
  destruct (icr_dest id d5 Hid) as (G1 & G2 & G3). set (d6 := lapicw lapic ICRHI _ d5) in *.
  destruct (lapicw_command (Z.lor STARTUP (Z.shiftr 0x7000 12)) d6) as [I1 I2]. split_and!.
  - rewrite I1, G1, G2, F1, E1, E2, C1, B2, A1, B1, A1, A2, Q1, P1 by done. by rewrite <- !app_assoc.
  - rewrite I2, G3, F2, E3, C2, B2, A3, Q2, P2 by done. done.
  - intros x Hx. change (p2v (Z.lor (Z.shiftl 64 4) 103)) with (KERNBASE + 0x467). unfold store16, CString.store.
    repeat match goal with |- context [if ?b then _ else _] => replace b with false by (first [lia|symmetry; apply bool_decide_false; lia]) end. done.
Qed.

(** ** Starting the other processors *)

Section others.
Context (kend entryother_start entryother_size mpenter entrypgdir : Z) (ap : Z → kmem * D → option (kmem * D)).

(** The image of the entry code, as the linker placed it. *)
Context (image : Z → Z).
Notation code := (KERNBASE + 0x7000).

(** The entry code is in place. *)
Definition code_there (s : kmem * D) : Prop := ∀ i, 0 ≤ i < entryother_size → km_mem s.1 (code + i) = image i.

(** What a processor finds when its startup interrupt comes: the entry code, the
    stack that was made for it, where to go and which page directory to use. *)
Record launched (id stack : Z) (s : kmem * D) : Prop := mkLaunched {
  la_code : code_there s;
  la_stack : load32 (km_mem s.1) (code - 4) = stack + KSTACKSIZE;
  la_enter : load32 (km_mem s.1) (code - 8) = mpenter;
  la_pgdir : load32 (km_mem s.1) (code - 12) = v2p entrypgdir;
  la_ipis : ∃ l, lsent s.2 = l ++ ipis id 0x7000
}.

(** A processor that finds this, and a stack that no one else has, starts; it
    leaves the free pages and the entry code as they are. *)
Context (Hap : ∀ c id stack s free, launched id stack s → kmem_rep kend s.1 free → page_ok kend stack → stack ∉ free →
  ∃ s', ap c s = Some s' ∧ kmem_rep kend s'.1 free ∧ code_there s' ∧ lsent s'.2 = lsent s.2 ∧ lreg s'.2 ID = lreg s.2 ID).
Context (Hend : code + entryother_size ≤ kend) (Hsize : 0 ≤ entryother_size) (Hlapic : lapic ≠ 0).
Context (Henter : 0 ≤ mpenter < 2 ^ 32).

Lemma kmem_rep_low s free m : kmem_rep kend s free → (∀ x, kend ≤ x → m x = km_mem s x) → kmem_rep kend (set_mem (λ _, m) s) free.
Proof.
  intros [Hc Hn Hp] Hm. split; [|done|done]. simpl. eapply page_chain_ext, Hc. intros v x Hv Hx. apply Hm.
  rewrite Forall_forall in Hp. destruct (Hp v Hv) as [_ ?]. lia.
Qed.

(** The words below the entry code, and the launch. *)
Lemma launch s c id stack free k : kalloc s.1 = Ok stack k → km_mem k = km_mem s.1 → kmem_rep kend k free → page_ok kend stack → stack ∉ free →
  code_there s → 0 ≤ id < 256 →
  let m := store32 (code - 12) (v2p entrypgdir) (store32 (code - 8) mpenter (store32 (code - 4) (u32 (stack + KSTACKSIZE)) (km_mem k))) in
  ∃ s', (let '(m, d) := lapicstartap lapic id 0x7000 m s.2 in ap c (set_mem (λ _, m) k, d)) = Some s' ∧
    kmem_rep kend s'.1 free ∧ code_there s' ∧ lsent s'.2 = lsent s.2 ++ ipis id 0x7000 ∧ lreg s'.2 ID = lreg s.2 ID.
Proof.
  intros Hk Em Hrep Hpg Hst Hcode Hid m. pose proof (lapicstartap_spec id m s.2 Hid) as H. destruct (lapicstartap lapic id 0x7000 m s.2) as [m' d'].
  destruct H as (Hs & Hi & Hm'). assert (∀ x, x < code - 12 ∨ code ≤ x → m x = km_mem k x) as Hm.
  { intros x Hx. unfold m. rewrite !store32_out by lia. done. }
  assert (KERNBASE = 2147483648) as HK by done. destruct Hpg as [Hp1 Hp2]. assert (PHYSTOP = 234881024) as HP by done.
  destruct (Hap c id stack (set_mem (λ _, m') k, d') free) as (s' & E & R1 & R2 & R3 & R4); [|apply kmem_rep_low; [done|]|done|done|].
  - split; simpl.
    + intros i Hi'. simpl. rewrite Hm', Hm by lia. rewrite Em. by apply Hcode.
    + rewrite (load32_ext m) by (intros; apply Hm'; lia). unfold m. rewrite !(load32_ext _ (store32 _ _ _)) by (intros; apply store32_out; lia).
      rewrite load32_store32 by apply u32_range. unfold KSTACKSIZE. rewrite u32_small by lia. done.
    + rewrite (load32_ext m) by (intros; apply Hm'; lia). unfold m. rewrite (load32_ext _ (store32 _ _ _)) by (intros; apply store32_out; lia).
      by apply load32_store32.
    + rewrite (load32_ext m) by (intros; apply Hm'; lia). unfold m. apply load32_store32. unfold v2p. apply u32_range.
    + by exists (lsent s.2).
  - intros x Hx. rewrite Hm', Hm by lia. done.
  - exists s'. simpl in *. rewrite R3, R4. done.
Qed.

(** The processors that are to be started, from number [c] on. *)
Fixpoint others (ids : list Z) (c me : Z) : list Z :=
  match ids with [] => [] | id :: ids => (if c =? me then [] else [id]) ++ others ids (c + 1) me end.

Lemma cpunum_spec d : ∃ d', cpunum lapic 0 0 d = (Z.shiftr (lreg d ID) 24, false, 0, d') ∧ lsent d' = lsent d ∧ lreg d' ID = lreg d ID.
Proof.
  unfold cpunum. change (flag 0 Spinlock.FL_IF) with false. cbv iota beta. rewrite (proj2 (Z.eqb_neq _ _) Hlapic). cbn [negb].
  unfold lapicr. destruct (lapic_read ID d) as (R0 & R1 & R2); [by left|]. destruct (bus_ldl (lapic + 4 * ID) d) as [v d']. simpl in *.
  exists d'. rewrite R0, R2 by done. done.
Qed.

Lemma start_loop_spec ids c s free : kmem_rep kend s.1 free → code_there s → Forall (λ id, 0 ≤ id < 256) ids →
  let os := others ids c (Z.shiftr (lreg s.2 ID) 24) in (length os ≤ length free)%nat → ∃ s',
  start_loop lapic mpenter entrypgdir ap ids c s = Some s' ∧ kmem_rep kend s'.1 (drop (length os) free) ∧
  lsent s'.2 = lsent s.2 ++ concat ((λ id, ipis id 0x7000) <$> os).
Proof.
  assert (KERNBASE ≤ kend) as HK by (unfold KERNBASE in *; lia).
  revert c s free. induction ids as [|id ids IH]; intros c s free Hrep Hcode Hok os Hlen; subst os; cbn [others start_loop] in *.
  { exists s. by rewrite app_nil_r. }
  apply Forall_cons in Hok as [Hid Hok]. destruct (cpunum_spec s.2) as (d1 & -> & D1 & D2). cbv zeta.
  set (me := Z.shiftr (lreg s.2 ID) 24) in *. assert (Z.shiftr (lreg d1 ID) 24 = me) as Eme by (unfold me; by rewrite D2).
  destruct (c =? me).
  { destruct (IH (c + 1) (s.1, d1) free Hrep Hcode Hok) as (s' & E & R & S); [simpl; by rewrite Eme|]. simpl in *. rewrite Eme, D1 in *. by exists s'. }
  destruct free as [|stack free]; [simpl in Hlen; lia|]. pose proof (kalloc_wp kend HK s.1 (stack :: free) Hrep) as Hka. unfold wp in Hka.
  destruct (kalloc s.1) as [r k| |] eqn:Ek; try done. destruct Hka as (-> & Hrep1 & Em).
  destruct Hrep as [_ Hnd Hpg]. apply NoDup_cons in Hnd as [Hni _]. apply Forall_cons in Hpg as [Hpg _].
  destruct (launch (s.1, d1) c id stack free k Ek Em Hrep1 Hpg Hni Hcode Hid) as (s1 & E1 & R1 & C1 & S1 & I1).
  change (p2v 0x7000) with code. change (v2p code) with 0x7000. cbv zeta in E1. destruct (lapicstartap _ _ _ _ _) as [m2 d2]. simpl in E1. rewrite E1. cbn [mbind option_bind].
  simpl in I1, S1. destruct (IH (c + 1) s1 free R1 C1 Hok) as (s' & E & R & S); [simpl in Hlen; rewrite I1, Eme; lia|].
  rewrite I1, Eme in R, S. exists s'. split_and!; [done|done|]. rewrite S, S1, D1. by rewrite <- app_assoc.
Qed.

(** C35. Starting the other processors: on a multiprocessor whose local APIC
    behaves as the manual says, startothers returns when a processor that finds
    the entry code, a stack of its own, the address of mpenter and the page
    directory at the place where entryother.S looks for them starts: every
    processor but this one is sent, in order, the interrupts that reset it and
    start it at 0x7000, and each takes one page from the free list. *)
Theorem startothers_starts_all ids s free : kmem_rep kend s.1 free →
  (∀ i, 0 ≤ i < entryother_size → km_mem s.1 (entryother_start + i) = image i) → Forall (λ id, 0 ≤ id < 256) ids →
  let os := others ids 0 (Z.shiftr (lreg s.2 ID) 24) in (length os ≤ length free)%nat → ∃ s',
  startothers lapic entryother_start entryother_size mpenter entrypgdir ap ids s = Some s' ∧
  kmem_rep kend s'.1 (drop (length os) free) ∧ lsent s'.2 = lsent s.2 ++ concat ((λ id, ipis id 0x7000) <$> os).
Proof.
  intros Hrep Himg Hok os Hlen. unfold startothers. change (p2v 0x7000) with code.
  set (m := CString.memmove code entryother_start entryother_size (km_mem s.1)).
  change (set_mem (CString.memmove code entryother_start entryother_size) s.1) with (set_mem (λ _, m) s.1).
  apply (start_loop_spec ids 0 (set_mem (λ _, m) s.1, s.2) free); [|intros i Hi|done|done]; unfold m; simpl.
  - apply kmem_rep_low; [done|]. intros x Hx. rewrite CString.memmove_spec by done. by replace ((_ <=? x) && (x <? _)) with false by lia.
  - rewrite CString.memmove_spec by done. replace ((_ <=? _) && (_ <? _)) with true by lia. rewrite <- (Himg i Hi). f_equal. lia.
Qed.
End others.
End lapic_props.

(** A machine with nothing but a local APIC of number 0 that delivers at once. *)
Definition apic_base : Z := 0xFEE00000.
#[export] Instance one_lapic : Bus ((Z → Z) * list (Z * Z)) := {
  bus_inb _ d := (0, d);
  bus_outb _ _ d := d;
  bus_ldl a d := (if a =? apic_base + 4 * ICRLO then 0 else d.1 ((a - apic_base) / 4), d);
  bus_stl a v d := let i := (a - apic_base) / 4 in
    if i =? ICRLO then (d.1, d.2 ++ [(Z.shiftr (d.1 ICRHI) 24, v)]) else (λ j, if j =? i then v else d.1 j, d.2)
}.
#[export] Instance one_lapic_spec : LapicSpec ((Z → Z) * list (Z * Z)) apic_base 0.
Proof.
  assert (∀ i, (apic_base + 4 * i - apic_base) / 4 = i) as E.
  { intros i. replace (apic_base + 4 * i - apic_base) with (i * 4) by lia. by rewrite Z.div_mul. }
  refine {| lreg d := fst d; lsent d := snd d; ldelay _ := 0%nat |}.
  - intros i v d Hi. assert (i ≠ ICRLO) as Hne by (by intros ->). unfold bus_stl, one_lapic. rewrite E, (proj2 (Z.eqb_neq _ _) Hne). cbn [fst snd]. rewrite Z.eqb_refl. split_and!; [done| |done].
    intros j _ Hj. by rewrite (proj2 (Z.eqb_neq _ _) Hj).
  - intros v d. unfold bus_stl, one_lapic. by rewrite E.
  - intros i d _. unfold bus_ldl, one_lapic. split; [|done]. intros Hi. replace (apic_base + 4 * i =? _) with false by lia. by rewrite E.
  - intros d. split; [done|]. unfold bus_ldl, one_lapic. rewrite Z.eqb_refl. done.
  - done.
Defined.

Lemma lapicinit_configures_witness : ∃ d', lapicinit apic_base 1 (λ _, 0, []) = Some d' ∧ lreg d' TIMER = 0x20000 + 32.
Proof.
  destruct (lapicinit_configures apic_base 0 1 (λ _, 0, []) ltac:(done) ltac:(lia)) as (d' & E & _ & H & _). by exists d'.
Defined.

Lemma startothers_starts_all_witness :
  let p := KERNBASE + 0x400000 in let k := mkKmem 0 p (λ _, 0) in ∃ s',
  startothers apic_base 0 16 (KERNBASE + 0x100200) (KERNBASE + 0x102000) (λ _ s, Some s) [0; 1] (k, (λ _, 0, [])) = Some s' ∧
  kmem_rep p s'.1 [] ∧ lsent s'.2 = ipis 1 0x7000.
Proof.
  intros p k. set (d := (λ _ : Z, 0, @nil (Z * Z))).
  destruct (startothers_starts_all apic_base 0 p 0 16 (KERNBASE + 0x100200) (KERNBASE + 0x102000) (λ _ s, Some s) (λ _, 0)) with
    (ids := [0; 1]) (s := (k, d)) (free := [p]) as (s' & E & R & S); try done.
  - intros c id stack s free Hl Hr _ _. exists s. split_and!; try done. apply Hl.
  - split; [by vm_compute|by apply NoDup_singleton|apply Forall_singleton]. by vm_compute.
  - by repeat constructor.
  - exists s'. split_and!; [exact E|exact R|exact S].
Defined.
End Lapic.
