(* ===== verification/Rtc.v ===== *)
(** * The clock (lapic.c: cmostime)

    The clock in the CMOS memory is read through two ports, one field at a time,
    while it goes on.  The machine is a parameter ([Bus] of Intr.v); [RtcSpec]
    states what the clock does. *)

From stdpp Require Import base numbers option list.
From Stdlib Require Import ZArith Lia ZifyBool.
From S2P Require Import Prelude Intr Lapic.
Import Lapic.
Local Open Scope Z_scope.

Module Rtc.

Definition CMOS_STATA : Z := 0x0a.
Definition CMOS_STATB : Z := 0x0b.
Definition CMOS_UIP : Z := 128.
Definition SECS : Z := 0x00.
Definition MINS : Z := 0x02.
Definition HOURS : Z := 0x04.
Definition DAY : Z := 0x07.
Definition MONTH : Z := 0x08.
Definition YEAR : Z := 0x09.

Record rtcdate := mkDate { second : Z; minute : Z; hour : Z; day : Z; month : Z; year : Z }.
#[export] Instance rtcdate_eq_dec : EqDecision rtcdate.
Proof. solve_decision. Defined.

Section rtc.
Context {D : Type} `{!Bus D}.

Definition cmos_read (reg : Z) (d : D) : Z * D := bus_inb CMOS_RETURN (bus_outb CMOS_PORT reg d).

Definition fill_rtcdate (d : D) : rtcdate * D :=
  let '(s, d) := cmos_read SECS d in
  let '(m, d) := cmos_read MINS d in
  let '(h, d) := cmos_read HOURS d in
  let '(dy, d) := cmos_read DAY d in
  let '(mo, d) := cmos_read MONTH d in
  let '(y, d) := cmos_read YEAR d in
  (mkDate s m h dy mo y, d).

(** One pass of the loop: the date, or [None] to try again. *)
Definition rtc_pass (d : D) : option rtcdate * D :=
  let '(t1, d) := fill_rtcdate d in
  let '(a, d) := cmos_read CMOS_STATA d in
  if flag a CMOS_UIP then (None, d)
  else
    let '(t2, d) := fill_rtcdate d in
    if decide (t1 = t2) then (Some t1, d) else (None, d).

Fixpoint rtc_loop (fuel : nat) (d : D) : option (rtcdate * D) :=
  match fuel with
  | O => None
  | S fuel' => match rtc_pass d with (Some t, d) => Some (t, d) | (None, d) => rtc_loop fuel' d end
  end.

Definition conv (x : Z) : Z := u32 (Z.shiftr x 4 * 10 + Z.land x 0xf).

Definition cmostime (fuel : nat) (d : D) : option (rtcdate * D) :=
  let '(sb, d) := cmos_read CMOS_STATB d in
  let bcd := Z.land sb (Z.shiftl 1 2) =? 0 in
  '(t, d) ← rtc_loop fuel d;
  let t := if bcd then mkDate (conv (second t)) (conv (minute t)) (conv (hour t)) (conv (day t)) (conv (month t)) (conv (year t)) else t in
  Some (mkDate (second t) (minute t) (hour t) (day t) (month t) (u32 (year t + 2000)), d).
End rtc.

(** ** What the clock does *)

(** The date at second [t] of the epoch of the clock; [cal] gives the day, the
    month and the year of the century of a day. *)
Definition date_at (cal : Z → Z * Z * Z) (t : Z) : rtcdate :=
  let '(dy, mo, y) := cal (t / 86400) in mkDate (t mod 60) (t / 60 mod 60) (t / 3600 mod 24) dy mo y.

(** A number as the clock keeps it, in binary or as two decimal digits. *)
Definition encode (bcd : bool) (x : Z) : Z := if bcd then x / 10 * 16 + x mod 10 else x.

(** The clock goes on by at most a second during an access to a port. *)
Class RtcSpec (D : Type) `{!Bus D} (bcd : bool) (cal : Z → Z * Z * Z) := {
  cnow : D → Z;
  csel : D → Z;
  rtc_select r d : let d' := bus_outb CMOS_PORT r d in csel d' = r ∧ cnow d ≤ cnow d' ≤ cnow d + 1;
  rtc_read d : let r := bus_inb CMOS_RETURN d in cnow d ≤ cnow r.2 ≤ cnow d + 1 ∧ let t := date_at cal (cnow d) in
    (csel d = SECS → r.1 = encode bcd (second t)) ∧ (csel d = MINS → r.1 = encode bcd (minute t)) ∧
    (csel d = HOURS → r.1 = encode bcd (hour t)) ∧ (csel d = DAY → r.1 = encode bcd (day t)) ∧
    (csel d = MONTH → r.1 = encode bcd (month t)) ∧ (csel d = YEAR → r.1 = encode bcd (year t)) ∧
    (csel d = CMOS_STATB → Z.testbit r.1 2 = negb bcd)
}.

Section rtc_props.
Context {D : Type} `{!Bus D} (bcd : bool) (cal : Z → Z * Z * Z) `{HR : !RtcSpec D bcd cal}.
Implicit Types (d : D) (t : rtcdate).
Notation cnow := (cnow (RtcSpec := HR)).

(** A field is read at some time during the two accesses. *)
Lemma cmos_read_spec r d : let '(v, d') := cmos_read r d in ∃ n, cnow d ≤ n ≤ cnow d' ∧ cnow d' ≤ cnow d + 2 ∧ let t := date_at cal n in
  (r = SECS → v = encode bcd (second t)) ∧ (r = MINS → v = encode bcd (minute t)) ∧ (r = HOURS → v = encode bcd (hour t)) ∧
  (r = DAY → v = encode bcd (day t)) ∧ (r = MONTH → v = encode bcd (month t)) ∧ (r = YEAR → v = encode bcd (year t)) ∧
  (r = CMOS_STATB → Z.testbit v 2 = negb bcd).
Proof.
  unfold cmos_read. destruct (rtc_select r d) as [S1 S2]. set (d1 := bus_outb CMOS_PORT r d) in *. destruct (rtc_read d1) as [R1 R2].
  destruct (bus_inb CMOS_RETURN d1) as [v d']. simpl in R1, R2. rewrite S1 in R2. exists (cnow d1). split_and!; try lia; apply R2.
Qed.

(** The fields of a date that is read, each at a time of its own. *)
Definition encoded (b : bool) t : rtcdate :=
  mkDate (encode b (second t)) (encode b (minute t)) (encode b (hour t)) (encode b (day t)) (encode b (month t)) (encode b (year t)).

Lemma fill_spec d : let '(t, d') := fill_rtcdate d in cnow d ≤ cnow d' ≤ cnow d + 12 ∧
  ∃ n, cnow d ≤ n ≤ cnow d' ∧ second t = encode bcd (n mod 60) ∧ (cnow d' = n → t = encoded bcd (date_at cal n)).
Proof.
  unfold fill_rtcdate.
  pose proof (cmos_read_spec SECS d) as H1. destruct (cmos_read SECS d) as [v1 d1]. destruct H1 as (n1 & I1 & J1 & E1 & _).
  pose proof (cmos_read_spec MINS d1) as H2. destruct (cmos_read MINS d1) as [v2 d2]. destruct H2 as (n2 & I2 & J2 & _ & E2 & _).
  pose proof (cmos_read_spec HOURS d2) as H3. destruct (cmos_read HOURS d2) as [v3 d3]. destruct H3 as (n3 & I3 & J3 & _ & _ & E3 & _).
  pose proof (cmos_read_spec DAY d3) as H4. destruct (cmos_read DAY d3) as [v4 d4]. destruct H4 as (n4 & I4 & J4 & _ & _ & _ & E4 & _).
  pose proof (cmos_read_spec MONTH d4) as H5. destruct (cmos_read MONTH d4) as [v5 d5]. destruct H5 as (n5 & I5 & J5 & _ & _ & _ & _ & E5 & _).
  pose proof (cmos_read_spec YEAR d5) as H6. destruct (cmos_read YEAR d5) as [v6 d6]. destruct H6 as (n6 & I6 & J6 & _ & _ & _ & _ & _ & E6 & _).
  split; [lia|]. specialize (E1 eq_refl). exists n1. split_and!; [lia|lia| |].
  - simpl. rewrite E1. unfold date_at. by destruct (cal _) as [[? ?] ?].
  - intros E. replace n2 with n1 in E2 by lia. replace n3 with n1 in E3 by lia. replace n4 with n1 in E4 by lia.
    replace n5 with n1 in E5 by lia. replace n6 with n1 in E6 by lia. unfold encoded. by rewrite E1, E2, E3, E4, E5, E6.
Qed.

Lemma encode_inj x y : 0 ≤ x < 100 → 0 ≤ y < 100 → encode bcd x = encode bcd y → x = y.
Proof. intros Hx Hy. unfold encode. destruct bcd; [|done]. Z.div_mod_to_equations. lia. Qed.

(** What a pass returns is the date of one moment of the pass. *)
Lemma pass_spec d : let '(o, d') := rtc_pass d in cnow d ≤ cnow d' ∧
  match o with Some t => ∃ n, cnow d ≤ n ≤ cnow d' ∧ t = encoded bcd (date_at cal n) | None => True end.
Proof.
  unfold rtc_pass. pose proof (fill_spec d) as H1. destruct (fill_rtcdate d) as [t1 d1]. destruct H1 as (I1 & n1 & J1 & E1 & F1).
  pose proof (cmos_read_spec CMOS_STATA d1) as H2. destruct (cmos_read CMOS_STATA d1) as [a d2]. destruct H2 as (n2 & I2 & J2 & _).
  destruct (flag a CMOS_UIP); [split; [lia|done]|].
  pose proof (fill_spec d2) as H3. destruct (fill_rtcdate d2) as [t2 d3]. destruct H3 as (I3 & n3 & J3 & E3 & F3).
  destruct (decide (t1 = t2)) as [<-|]; [|split; [lia|done]]. split; [lia|]. exists n1. split; [lia|]. apply F1.
  rewrite E3 in E1. apply encode_inj in E1; [|pose proof (Z.mod_pos_bound n3 60); lia|pose proof (Z.mod_pos_bound n1 60); lia].
  pose proof (Z.div_mod n1 60 ltac:(lia)). pose proof (Z.div_mod n3 60 ltac:(lia)). assert (n3 / 60 = n1 / 60) by lia. lia.
Qed.

Lemma conv_encode x : 0 ≤ x < 100 → (if bcd then conv (encode bcd x) else encode bcd x) = x.
Proof.
  intros Hx. unfold encode, conv. destruct bcd; [|done]. rewrite Z.shiftr_div_pow2 by lia. change 0xf with (Z.ones 4). rewrite Z.land_ones by lia.
  rewrite u32_small; change (2 ^ 4) with 16; Z.div_mod_to_equations; lia.
Qed.

(** The conversion at the end of cmostime. *)
Lemma convert_encoded t : 0 ≤ second t < 100 → 0 ≤ minute t < 100 → 0 ≤ hour t < 100 → 0 ≤ day t < 100 → 0 ≤ month t < 100 → 0 ≤ year t < 100 →
  let e := encoded bcd t in
  let e := if bcd then mkDate (conv (second e)) (conv (minute e)) (conv (hour e)) (conv (day e)) (conv (month e)) (conv (year e)) else e in
  mkDate (second e) (minute e) (hour e) (day e) (month e) (u32 (year e + 2000)) = mkDate (second t) (minute t) (hour t) (day t) (month t) (2000 + year t).
Proof.
  intros Hs Hmi Hh Hd Hm Hy. pose proof (conv_encode _ Hs) as C1. pose proof (conv_encode _ Hmi) as C2. pose proof (conv_encode _ Hh) as C3.
  pose proof (conv_encode _ Hd) as C4. pose proof (conv_encode _ Hm) as C5. pose proof (conv_encode _ Hy) as C6.
  unfold encoded. destruct bcd; cbv zeta; cbn [second minute hour day month year]; rewrite C1, C2, C3, C4, C5, C6, u32_small by lia; f_equal; lia.
Qed.

(** The fields of a date fit into two digits. *)
Definition two_digits t : Prop := 0 ≤ day t < 100 ∧ 0 ≤ month t < 100 ∧ 0 ≤ year t < 100.

(** The first pass from [d] that gives a date; [k] passes do not. *)
Fixpoint calm (k : nat) d : Prop :=
  match rtc_pass d with (Some _, _) => True | (None, d') => match k with O => False | S k' => calm k' d' end end.

Lemma rtc_loop_spec k d : calm k d → ∃ t d' n, rtc_loop (S k) d = Some (encoded bcd t, d') ∧ cnow d ≤ n ≤ cnow d' ∧ t = date_at cal n.
Proof.
  revert d. induction k as [|k IH]; intros d Hc; cbn [rtc_loop calm] in *; pose proof (pass_spec d) as H; destruct (rtc_pass d) as [[t|] d'].
  - destruct H as (_ & n & Hn & ->). by exists (date_at cal n), d', n.
  - done.
  - destruct H as (_ & n & Hn & ->). by exists (date_at cal n), d', n.
  - destruct H as [H _]. destruct (IH d' Hc) as (t & d2 & n & E & Hn & Et). exists t, d2, n. split; [exact E|]. split; [lia|done].
Qed.

(** The clock: cmostime returns as soon as it is not interrupted by an update
    of the clock, and what it returns is the date that the clock had at one
    moment of the call, for both ways in which the clock may keep its numbers,
    although the fields are read one after the other while the clock goes on. *)
Theorem cmostime_consistent k d : (∀ n, two_digits (date_at cal n)) → calm k (cmos_read CMOS_STATB d).2 → ∃ t d' n,
  cmostime (S k) d = Some (mkDate (second t) (minute t) (hour t) (day t) (month t) (2000 + year t), d') ∧
  cnow d ≤ n ≤ cnow d' ∧ t = date_at cal n.
Proof.
  intros Htwo Hc. unfold cmostime. pose proof (cmos_read_spec CMOS_STATB d) as H. destruct (cmos_read CMOS_STATB d) as [sb d1].
  destruct H as (n0 & I0 & _ & _ & _ & _ & _ & _ & _ & Hsb). specialize (Hsb eq_refl). simpl in Hc.
  destruct (rtc_loop_spec k d1 Hc) as (t & d2 & n & -> & Hn & Et). cbn [mbind option_bind].
  assert ((Z.land sb (Z.shiftl 1 2) =? 0) = bcd) as ->.
  { change (Z.shiftl 1 2) with (2 ^ 2). destruct (Z.eqb_spec (Z.land sb (2 ^ 2)) 0) as [E|E].
    - assert (Z.testbit (Z.land sb (2 ^ 2)) 2 = false) as E2 by (rewrite E; apply Z.bits_0). rewrite Z.land_spec, Z.pow2_bits_true, andb_true_r in E2 by lia.
      rewrite E2 in Hsb. by destruct bcd.
    - destruct bcd; [|done]. exfalso. apply E. apply Z.bits_inj'. intros i Hi. rewrite Z.land_spec, Z.bits_0.
      destruct (decide (i = 2)) as [->|]; [by rewrite Hsb|]. by rewrite Z.pow2_bits_false, andb_false_r by lia. }
  exists t, d2, n. split; [|split; [lia|done]]. destruct (Htwo n) as (Hd & Hm & Hy). rewrite <- Et in Hd, Hm, Hy.
  assert (0 ≤ second t < 100 ∧ 0 ≤ minute t < 100 ∧ 0 ≤ hour t < 100) as (Hs & Hmi & Hh).
  { rewrite Et. unfold date_at. destruct (cal _) as [[? ?] ?]. simpl. pose proof (Z.mod_pos_bound n 60). pose proof (Z.mod_pos_bound (n / 60) 60).
    pose proof (Z.mod_pos_bound (n / 3600) 24). lia. }
  by rewrite <- (convert_encoded t).
Qed.
End rtc_props.

(** A clock that goes on by a second every 64 accesses, and keeps decimal digits. *)
Definition some_day (_ : Z) : Z * Z * Z := (15, 11, 26).
Definition clock_now (n : nat) : Z := 1000 + Z.of_nat n / 64.
#[export] Instance slow_clock : Bus (nat * Z) := {
  bus_inb _ d := let t := encoded true (date_at some_day (clock_now d.1)) in
    (if d.2 =? SECS then second t else if d.2 =? MINS then minute t else if d.2 =? HOURS then hour t else if d.2 =? DAY then day t
     else if d.2 =? MONTH then month t else if d.2 =? YEAR then year t else 0, (S d.1, d.2));
  bus_outb _ v d := (S d.1, v);
  bus_ldl _ d := (0, d);
  bus_stl _ _ d := d
}.
#[export] Instance slow_clock_spec : RtcSpec (nat * Z) true some_day.
Proof.
  assert (∀ n, clock_now n ≤ clock_now (S n) ≤ clock_now n + 1) as Hn.
  { intros n. unfold clock_now. pose proof (Z.div_mod (Z.of_nat n) 64). pose proof (Z.mod_pos_bound (Z.of_nat n) 64).
    pose proof (Z.div_mod (Z.of_nat (S n)) 64). pose proof (Z.mod_pos_bound (Z.of_nat (S n)) 64). lia. }
  refine {| cnow d := clock_now d.1; csel d := d.2 |}.
  - intros r [n s]. split; [done|]. apply Hn.
  - intros [n s]. split; [apply Hn|]. simpl. split_and!; by intros ->.
Defined.

(** The first pass is torn by a tick, and the second is not. *)
Lemma cmostime_consistent_witness : ∃ t d' n, cmostime 2 (50%nat, 0) = Some (mkDate (second t) (minute t) (hour t) 15 11 2026, d') ∧
  clock_now 50 ≤ n ≤ clock_now d'.1 ∧ t = date_at some_day n ∧ (rtc_pass (52%nat, 0)).1 = None.
Proof.
  destruct (cmostime_consistent true some_day 1 (50%nat, 0)) as (t & d' & n & E & Hn & Et).
  - intros n. by vm_compute.
  - by vm_compute.
  - exists t, d', n. split_and!; [|apply Hn|apply Hn|done|by vm_compute]. rewrite E, Et. done.
Defined.
End Rtc.
