(* ===== verification/Uart.v ===== *)
(** * The serial port (uart.c)

    The programming of the 8250 and the transfer of characters.  The machine is
    a parameter ([Bus] of Intr.v); [UartSpec] states what the data sheet says of
    the registers, and how bytes arrive from the line. *)

From stdpp Require Import base numbers option list strings.
From Stdlib Require Import ZArith Lia ZifyBool.
From S2P Require Import Prelude Trap Intr.
Import Trap Intr.
Local Open Scope Z_scope.

Module Uart.

Definition COM1 : Z := 0x3f8.

Section uart.
Context {D : Type} `{!Bus D}.

(** The variable [uart], and the state of picirq.c with the machine. *)
Record ustate := mkUstate { uart : bool; upics : pics D }.

Definition udev (s : ustate) : D := pdev (upics s).
Definition set_dev (d : D) (s : ustate) : ustate := mkUstate (uart s) (mkPics (irqmask (upics s)) d).
Definition uout (port v : Z) (s : ustate) : ustate := set_dev (bus_outb port (u8 v) (udev s)) s.
Definition uinb (port : Z) (s : ustate) : Z * ustate := let '(v, d) := bus_inb port (udev s) in (v, set_dev d s).

(** [for(i = 0; i < 128 && !(inb(COM1+5) & 0x20); i++)], from [i] with [n] = 128 - [i];
    microdelay, in lapic.c, does nothing. *)
Fixpoint putc_wait (n : nat) (s : ustate) : ustate :=
  match n with
  | O => s
  | S n' => let '(v, s) := uinb (COM1 + 5) s in if negb (flag v 0x20) then putc_wait n' s else s
  end.

Definition uartputc (c : Z) (s : ustate) : ustate :=
  if negb (uart s) then s else uout (COM1 + 0) c (putc_wait 128 s).

Definition uartgetc (s : ustate) : Z * ustate :=
  if negb (uart s) then (-1, s)
  else
    let '(v, s) := uinb (COM1 + 5) s in
    if negb (flag v 0x01) then (-1, s) else uinb (COM1 + 0) s.

Definition greeting : list Z := str "xv6..." ++ [10].

Definition uartinit (ismp : bool) (s : ustate) : ustate :=
  let s := uout (COM1 + 2) 0 s in
  let s := uout (COM1 + 3) 0x80 s in
  let s := uout (COM1 + 0) (115200 / 9600) s in
  let s := uout (COM1 + 1) 0 s in
  let s := uout (COM1 + 3) 0x03 s in
  let s := uout (COM1 + 4) 0 s in
  let s := uout (COM1 + 1) 0x01 s in
  let '(v, s) := uinb (COM1 + 5) s in
  if v =? 0xFF then s
  else
    let s := mkUstate true (upics s) in
    let '(_, s) := uinb (COM1 + 2) s in
    let '(_, s) := uinb (COM1 + 0) s in
    let s := mkUstate (uart s) (picenable IRQ_COM1 (upics s)) in
    let s := set_dev (ioapicenable ismp IRQ_COM1 0 (udev s)) s in
    foldl (λ s c, uartputc c s) s greeting.

(** What consoleintr takes from uartintr: [while((c = getc()) >= 0)], at most
    [n] characters. *)
Fixpoint uart_chars (n : nat) (s : ustate) : option (list Z * ustate) :=
  match n with
  | O => None
  | S n' =>
      let '(c, s) := uartgetc s in
      if 0 <=? c then '(cs, s) ← uart_chars n' s; Some (c :: cs, s) else Some ([], s)
  end.
End uart.
#[global] Arguments ustate : clear implicits.
#[global] Arguments mkUstate {D}.

(** ** What the 8250 does *)

(** The characters that the transmitter has taken, the byte in the receive buffer
    when there is one that has not been read, the line control register, the divisor
    of the clock, and whether receiving interrupts. *)
Record port := mkPort { line : list Z; rbr : option Z; lcr : Z; divisor : Z; rx_int : bool }.

(** The divisor is unlocked. *)
Definition dlab (p : port) : bool := Z.testbit (lcr p) 7.
(** 8 data bits, 1 stop bit, no parity; 9600 baud. *)
Definition configured (p : port) : Prop := lcr p = 3 ∧ divisor p = 12.

(** What the registers do.  There is one receive buffer: reading it makes it empty,
    and a byte that arrives ([arrive]) replaces one that has not been read.  The
    transmitter is ready after [patience] reads of the status at most: [busy] is how many
    of them still show it busy.  The register that turns off the FIFO does not exist in the
    8250; where it exists, writing it may drop what has been received.  The modem
    control register leaves the port alone unless it turns on the loopback. *)
Class UartSpec (D : Type) `{!Bus D} (patience : nat) := {
  com : D → port;
  busy : D → nat;
  arrive : Z → D → D;
  com_busy d : (busy d ≤ patience)%nat;
  com_status d : let '(v, d') := bus_inb (COM1 + 5) d in
    flag v 0x20 = bool_decide (busy d = 0%nat) ∧ flag v 0x01 = negb (bool_decide (rbr (com d) = None)) ∧ v ≠ 0xFF ∧
    com d' = com d ∧ (busy d' ≤ pred (busy d))%nat;
  com_data d : let '(v, d') := bus_inb (COM1 + 0) d in let p := com d in dlab p = false →
    0 ≤ v < 256 ∧ (∀ b, rbr p = Some b → v = b) ∧ com d' = mkPort (line p) None (lcr p) (divisor p) (rx_int p);
  com_iir d : let '(_, d') := bus_inb (COM1 + 2) d in com d' = com d;
  com_thr v d : let p := com d in lcr p = 3 → busy d = 0%nat →
    com (bus_outb (COM1 + 0) v d) = mkPort (line p ++ [v]) (rbr p) (lcr p) (divisor p) (rx_int p);
  com_dll v d : let p := com d in dlab p = true →
    com (bus_outb (COM1 + 0) v d) = mkPort (line p) (rbr p) (lcr p) (divisor p / 256 * 256 + v) (rx_int p);
  com_dlm v d : let p := com d in dlab p = true →
    com (bus_outb (COM1 + 1) v d) = mkPort (line p) (rbr p) (lcr p) (v * 256 + divisor p mod 256) (rx_int p);
  com_ier v d : let p := com d in dlab p = false →
    com (bus_outb (COM1 + 1) v d) = mkPort (line p) (rbr p) (lcr p) (divisor p) (Z.testbit v 0);
  com_fcr d : let p := com d in ∃ r, (r = rbr p ∨ r = None) ∧
    com (bus_outb (COM1 + 2) 0 d) = mkPort (line p) r (lcr p) (divisor p) (rx_int p);
  com_lcr v d : let p := com d in com (bus_outb (COM1 + 3) v d) = mkPort (line p) (rbr p) v (divisor p) (rx_int p);
  com_mcr v d : Z.testbit v 4 = false → com (bus_outb (COM1 + 4) v d) = com d;
  com_other q v d : q < COM1 ∨ COM1 + 8 ≤ q → com (bus_outb q v d) = com d;
  com_stl a v d : com (bus_stl a v d) = com d;
  com_arrive b d : let p := com d in 0 ≤ b < 256 → configured p →
    com (arrive b d) = mkPort (line p) (Some b) (lcr p) (divisor p) (rx_int p)
}.

(** ** Sending and receiving *)

(** The kernel sends a character, a byte arrives on the line, or the kernel handles
    an interrupt of the port.  A byte comes between these, not in the middle of one. *)
Inductive uop := Send (c : Z) | Arrive (b : Z) | Interrupt.

Section uart_props.
Context {D : Type} `{!Bus D} (patience : nat) `{HU : !UartSpec D patience}.
Implicit Types (s : ustate D) (p : port).
Notation com := (com (UartSpec := HU)).
Notation busy := (busy (UartSpec := HU)).

(** What the console gets, and the state.  An interrupt asks for a character twice: the
    second time there is none. *)
Fixpoint run_uops (ops : list uop) (s : ustate D) : option (list Z * ustate D) :=
  match ops with
  | [] => Some ([], s)
  | Send c :: ops => run_uops ops (uartputc c s)
  | Arrive b :: ops => run_uops ops (set_dev (arrive (UartSpec := HU) b (udev s)) s)
  | Interrupt :: ops => '(cs, s) ← uart_chars 2 s; '(cs', s) ← run_uops ops s; Some (cs ++ cs', s)
  end.

(** The characters that are sent. *)
Definition sent (ops : list uop) : list Z := omap (λ o, match o with Send c => Some (u8 c) | _ => None end) ops.

(** The bytes that an interrupt finds: each one that is not overrun by the next. *)
Fixpoint console_gets (r : option Z) (ops : list uop) : list Z :=
  match ops with
  | [] => []
  | Send _ :: ops => console_gets r ops
  | Arrive b :: ops => console_gets (Some b) ops
  | Interrupt :: ops => match r with Some b => b :: console_gets None ops | None => console_gets None ops end
  end.

(** What arrives is a byte. *)
Definition uop_ok (o : uop) : Prop := match o with Arrive b => 0 ≤ b < 256 | _ => True end.

(** The port of a state, with the transmitter left aside. *)
Definition shows s (l : list Z) (r : option Z) : Prop := com (udev s) = mkPort l r 3 12 true.

Lemma putc_wait_spec n s : uart (putc_wait n s) = uart s ∧ com (udev (putc_wait n s)) = com (udev s) ∧
  ((busy (udev s) < n)%nat → busy (udev (putc_wait n s)) = 0%nat).
Proof.
  revert s. induction n as [|n IH]; intros s; cbn [putc_wait]; [split_and!; [done|done|lia]|].
  unfold uinb. pose proof (com_status (udev s)) as H. destruct (bus_inb (COM1 + 5) (udev s)) as [v d']. destruct H as (H1 & _ & _ & H2 & H3).
  rewrite H1. case_bool_decide as Hb; cbn [negb].
  - split_and!; [done|done|]. intros _. cbn [udev set_dev upics pdev]. rewrite Hb in H3. simpl in H3. lia.
  - destruct (IH (set_dev d' s)) as (E1 & E2 & E3). cbn [udev set_dev upics pdev uart] in *. split_and!; [done|by rewrite E2|].
    intros Hlt. apply E3. lia.
Qed.

Lemma uartputc_spec c s l r : (patience < 128)%nat → uart s = true → shows s l r → uart (uartputc c s) = true ∧ shows (uartputc c s) (l ++ [u8 c]) r.
Proof.
  intros Hp Hu Hs. unfold uartputc. rewrite Hu. cbn [negb]. destruct (putc_wait_spec 128 s) as (E1 & E2 & E3).
  set (s1 := putc_wait 128 s) in *. pose proof (com_busy (udev s)). specialize (E3 ltac:(lia)). split; [simpl; by rewrite E1|].
  unfold shows in *. rewrite Hs in E2. pose proof (com_thr (u8 c) (udev s1)) as H0. cbv zeta in H0. rewrite E2 in H0. by apply H0.
Qed.

Lemma uartputs_spec cs s l r : (patience < 128)%nat → uart s = true → shows s l r →
  let s' := foldl (λ s c, uartputc c s) s cs in uart s' = true ∧ shows s' (l ++ (u8 <$> cs)) r.
Proof.
  intros Hp. revert s l. induction cs as [|c cs IH]; intros s l Hu Hs; simpl; [by rewrite app_nil_r|].
  destruct (uartputc_spec c s l r Hp Hu Hs) as [Hu' Hs']. destruct (IH _ _ Hu' Hs') as [E1 E2]. split; [done|]. by rewrite <- app_assoc in E2.
Qed.

Lemma ioapicenable_com ismp irq cpu (d : D) : com (ioapicenable ismp irq cpu d) = com d.
Proof. unfold ioapicenable, ioapicwrite. destruct ismp; [|done]. cbn [negb]. by rewrite !com_stl. Qed.

Lemma picenable_com irq (q : pics D) : com (pdev (picenable irq q)) = com (pdev q).
Proof. unfold picenable, picsetmask, out. cbn [pdev irqmask]. by rewrite !com_other by (left; done). Qed.

(** Reading the receive buffer of a locked port. *)
Lemma uinb_data s l r : shows s l r → let '(v, s') := uinb (COM1 + 0) s in
  0 ≤ v ∧ (∀ b, r = Some b → v = b) ∧ uart s' = uart s ∧ shows s' l None.
Proof.
  unfold shows, uinb. intros Hs. pose proof (com_data (udev s)) as H. destruct (bus_inb (COM1 + 0) (udev s)) as [v d'].
  cbv zeta in H. rewrite Hs in H. destruct (H eq_refl) as (H1 & H2 & H3). split_and!; [lia|exact H2|done|exact H3].
Qed.

(** The registers as uartinit programs them. *)
Lemma program_port d : let d1 := bus_outb (COM1 + 3) (u8 0x80) (bus_outb (COM1 + 2) (u8 0) d) in
  let d2 := bus_outb (COM1 + 1) (u8 0) (bus_outb (COM1 + 0) (u8 (115200 / 9600)) d1) in
  ∃ r, com (bus_outb (COM1 + 1) (u8 0x01) (bus_outb (COM1 + 4) (u8 0) (bus_outb (COM1 + 3) (u8 0x03) d2))) = mkPort (line (com d)) r 3 12 true.
Proof.
  intros d1 d2. destruct (com_fcr d) as (r & _ & E0). change (u8 0) with 0 in *. exists r.
  assert (com d1 = mkPort (line (com d)) r 0x80 (divisor (com d)) (rx_int (com d))) as E1 by (unfold d1; by rewrite com_lcr, E0).
  assert (com d2 = mkPort (line (com d)) r 0x80 12 (rx_int (com d))) as E2.
  { pose proof (com_dll (u8 (115200 / 9600)) d1) as E. cbv zeta in E. rewrite E1 in E. specialize (E eq_refl). cbn [line rbr lcr divisor rx_int] in E.
    unfold d2. pose proof (com_dlm 0 (bus_outb (COM1 + 0) (u8 (115200 / 9600)) d1)) as E'. cbv zeta in E'. rewrite E in E'. rewrite (E' eq_refl).
    cbn [line rbr lcr divisor rx_int]. change (u8 (115200 / 9600)) with 12. f_equal. by rewrite (Z.add_comm _ 12), Z.mod_add. }
  pose proof (com_ier (u8 0x01) (bus_outb (COM1 + 4) 0 (bus_outb (COM1 + 3) (u8 0x03) d2))) as E3. cbv zeta in E3.
  rewrite com_mcr, com_lcr, E2 in E3 by done. by apply E3.
Qed.

(** The state in which uartinit starts to announce itself. *)
Lemma uartinit_ready ismp s : ∃ s', uart s' = true ∧ shows s' (line (com (udev s))) None ∧
  uartinit ismp s = foldl (λ s c, uartputc c s) s' greeting.
Proof.
  unfold uartinit. set (s7 := uout (COM1 + 1) 1 _). destruct (program_port (udev s)) as [r H7]. change (shows s7 (line (com (udev s))) r) in H7.
  clearbody s7. unfold uinb at 1. pose proof (com_status (udev s7)) as H.
  destruct (bus_inb (COM1 + 5) (udev s7)) as [v d8]. destruct H as (_ & _ & Hff & H8 & _). rewrite (proj2 (Z.eqb_neq v 0xFF) Hff).
  unfold uinb at 1. cbn [udev set_dev upics pdev uart irqmask]. pose proof (com_iir d8) as H9. destruct (bus_inb (COM1 + 2) d8) as [w d9].
  set (s9 := set_dev d9 _). assert (shows s9 (line (com (udev s))) r) as Hs9 by (unfold shows; cbn; by rewrite H9, H8).
  pose proof (uinb_data s9 _ _ Hs9) as H10. destruct (uinb (COM1 + 0) s9) as [x s10]. destruct H10 as (_ & _ & Hu & Hs10).
  eexists. split_and!; [| |reflexivity]; [exact Hu|]. unfold shows, udev in *. cbn [set_dev upics pdev uart irqmask].
  by rewrite ioapicenable_com, picenable_com.
Qed.

Lemma uartgetc_spec s l r : uart s = true → shows s l r → let '(c, s') := uartgetc s in
  match r with Some b => 0 ≤ c ∧ c = b | None => c = -1 end ∧ uart s' = true ∧ shows s' l None.
Proof.
  intros Hu Hs. unfold uartgetc. rewrite Hu. cbn [negb]. unfold uinb at 1. pose proof (com_status (udev s)) as H.
  destruct (bus_inb (COM1 + 5) (udev s)) as [v d1]. destruct H as (_ & Hv & _ & H1 & _).
  assert (shows (set_dev d1 s) l r) as Hs1 by (unfold shows in *; cbn; by rewrite H1). rewrite Hv. unfold shows in Hs at 1. rewrite Hs. cbn [rbr].
  destruct r as [b|]; [rewrite bool_decide_false by done|by rewrite bool_decide_true]. cbn [negb].
  pose proof (uinb_data _ _ _ Hs1) as H. destruct (uinb (COM1 + 0) _) as [x s2]. destruct H as (H2 & H3 & H4 & H5).
  split_and!; [done|by apply H3|by rewrite H4|done].
Qed.

Lemma uart_chars_S n s : uart_chars (S n) s =
  let '(c, s) := uartgetc s in if 0 <=? c then '(cs, s) ← uart_chars n s; Some (c :: cs, s) else Some ([], s).
Proof. done. Qed.

Lemma uart_chars_spec s l r : uart s = true → shows s l r →
  ∃ s', uart_chars 2 s = Some (match r with Some b => [b] | None => [] end, s') ∧ uart s' = true ∧ shows s' l None.
Proof.
  intros Hu Hs. rewrite uart_chars_S. pose proof (uartgetc_spec s l r Hu Hs) as H. destruct (uartgetc s) as [c s1]. destruct H as (Hc & Hu1 & Hs1).
  destruct r as [b|]; [destruct Hc as [Hc <-]|subst c; by exists s1]. rewrite (proj2 (Z.leb_le 0 c)) by done. rewrite uart_chars_S.
  pose proof (uartgetc_spec s1 l None Hu1 Hs1) as H. destruct (uartgetc s1) as [c' s2]. destruct H as (-> & Hu2 & Hs2). by exists s2.
Qed.

Lemma run_uops_spec ops : (patience < 128)%nat → Forall uop_ok ops → ∀ s l r, uart s = true → shows s l r →
  ∃ s' r', run_uops ops s = Some (console_gets r ops, s') ∧ shows s' (l ++ sent ops) r'.
Proof.
  intros Hp. induction 1 as [|o ops Ho Hops IH]; intros s l r Hu Hs; [exists s, r; by rewrite app_nil_r|].
  destruct o as [c|b|]; cbn [run_uops console_gets].
  - destruct (uartputc_spec c s l r Hp Hu Hs) as [Hu' Hs']. destruct (IH _ _ _ Hu' Hs') as (s' & r' & E & H).
    exists s', r'. rewrite <- app_assoc in H. done.
  - apply (IH _ l (Some b)); [done|]. unfold shows in *. cbn [set_dev udev upics pdev]. pose proof (com_arrive b (udev s)) as H. cbv zeta in H.
    rewrite Hs in H. by apply H.
  - destruct (uart_chars_spec s l r Hu Hs) as (s1 & -> & Hu1 & Hs1). cbn [mbind option_bind].
    destruct (IH _ _ _ Hu1 Hs1) as (s' & r' & -> & H). exists s', r'. by destruct r.
Qed.

(** C37. The serial port: on a machine whose transmitter is ready within the 128
    polls, uartinit sets the line to 9600 baud, 8 data bits, 1 stop bit and no parity, with
    receive interrupts on, and drops what was received before.  After that, whatever
    the order in which characters are sent, bytes arrive and interrupts are handled,
    the transmitter takes the greeting and every character given to uartputc, in
    order, and the console gets, in order, each byte that an interrupt finds before the
    next byte overruns it, once. *)
Theorem uart_transfers ismp s ops : (patience < 128)%nat → Forall uop_ok ops →
  ∃ s' r, run_uops ops (uartinit ismp s) = Some (console_gets None ops, s') ∧
    com (udev s') = mkPort (line (com (udev s)) ++ greeting ++ sent ops) r 3 (115200 / 9600) true.
Proof.
  intros Hp Hops. destruct (uartinit_ready ismp s) as (s0 & Hu & Hs & ->).
  destruct (uartputs_spec greeting s0 _ _ Hp Hu Hs) as [Hu1 Hs1].
  destruct (run_uops_spec ops Hp Hops _ _ _ Hu1 Hs1) as (s' & r & E & H). exists s', r. split; [done|]. by rewrite <- app_assoc in H.
Qed.
End uart_props.

(** An 8250 whose transmitter needs one poll per character. *)
Definition one_poll (b : nat) : nat := Nat.min b 1.

#[export] Instance one_uart : Bus (port * nat) := {
  bus_inb q d := let '(p, b) := d in
    if q =? COM1 + 5 then (Z.lor (if decide (one_poll b = 0%nat) then 0x20 else 0) (if decide (rbr p = None) then 0 else 1), (p, pred (one_poll b)))
    else if (q =? COM1 + 0) && negb (dlab p) then (u8 (default 0 (rbr p)), (mkPort (line p) None (lcr p) (divisor p) (rx_int p), b))
    else (0, d);
  bus_outb q v d := let '(p, b) := d in
    if q =? COM1 + 0 then
      if dlab p then (mkPort (line p) (rbr p) (lcr p) (divisor p / 256 * 256 + v) (rx_int p), b)
      else (mkPort (line p ++ [v]) (rbr p) (lcr p) (divisor p) (rx_int p), 1%nat)
    else if q =? COM1 + 1 then
      if dlab p then (mkPort (line p) (rbr p) (lcr p) (v * 256 + divisor p mod 256) (rx_int p), b)
      else (mkPort (line p) (rbr p) (lcr p) (divisor p) (Z.testbit v 0), b)
    else if q =? COM1 + 3 then (mkPort (line p) (rbr p) v (divisor p) (rx_int p), b)
    else d;
  bus_ldl _ d := (0, d);
  bus_stl _ _ d := d
}.

#[export] Instance one_uart_spec : UartSpec (port * nat) 1.
Proof.
  refine {| com := λ d, let p := d.1 in mkPort (line p) (u8 <$> rbr p) (lcr p) (divisor p) (rx_int p);
            busy := λ d, one_poll d.2;
            arrive := λ b d, (mkPort (line d.1) (Some b) (lcr d.1) (divisor d.1) (rx_int d.1), d.2) |}.
  - intros [p b]. simpl. unfold one_poll. lia.
  - intros [[l r c v x] b]. cbn -[Z.lor]. destruct b as [|b], r as [y|]; cbn; rewrite ?Nat.min_0_r; split_and!; done || lia.
  - intros [[l r c v x] b]. cbn -[Z.testbit dlab]. unfold dlab. cbn -[Z.testbit]. destruct (Z.testbit c 7) eqn:Ec; cbn -[Z.testbit]; [done|]. intros _.
    split_and!; [apply Z.mod_pos_bound; lia|apply Z.mod_pos_bound; lia| |done]. destruct r; cbn; [|done]. by intros ? [= <-].
  - intros [p b]. done.
  - intros v [p b]. cbn -[Z.testbit dlab]. unfold dlab. cbn -[Z.testbit]. intros Hc _. rewrite Hc. done.
  - intros v [p b]. cbn -[Z.testbit dlab]. unfold dlab. cbn -[Z.testbit]. intros Hc. rewrite Hc. done.
  - intros v [p b]. cbn -[Z.testbit dlab]. unfold dlab. cbn -[Z.testbit]. intros Hc. rewrite Hc. done.
  - intros v [p b]. cbn -[Z.testbit dlab]. unfold dlab. cbn -[Z.testbit]. intros Hc. rewrite Hc. done.
  - intros [p b]. cbn. eexists. split; [by left|done].
  - intros v [p b]. done.
  - intros v [p b]. done.
  - intros q v [p b] Hq. cbn -[COM1]. unfold COM1 in *. by rewrite !(proj2 (Z.eqb_neq q _)) by lia.
  - done.
  - intros b [p n] q Hb _. subst q. cbn -[u8]. by rewrite (u8_small b).
Defined.

(** A port that was left with a byte in the buffer and another speed. *)
Definition a_port : port * nat := (mkPort [] (Some 7) 0x80 1 false, 0%nat).
Definition quiet : ustate (port * nat) := mkUstate false (mkPics irqmask_init a_port).

(** "h" and "i" are read; of "a" and "b", which come before the next interrupt, "b". *)
Definition busy_line : list uop :=
  [Interrupt; Arrive 104; Interrupt; Send 111; Arrive 105; Send 107; Interrupt; Arrive 97; Arrive 98; Interrupt].

Lemma uart_transfers_witness : ∃ s' r, run_uops 1 busy_line (uartinit true quiet) = Some ([104; 105; 98], s') ∧
  com (udev s') = mkPort (str "xv6..." ++ [10] ++ str "ok") r 3 12 true.
Proof.
  destruct (uart_transfers 1 true quiet busy_line) as (s' & r & E & H); [lia|repeat constructor; done|].
  exists s', r. split; [rewrite E; reflexivity|]. rewrite H. reflexivity.
Defined.
End Uart.
