(* ===== verification/SyscallProps.v ===== *)
(** * Properties of the system call arguments

    The pointer check of argptr is exact for sizes that are not negative; a
    negative size and an unchecked signal number get around it. *)

From stdpp Require Import base numbers option list gmap strings.
From Stdlib Require Import ZArith Lia ZifyBool.
From S2P Require Import Prelude Bytes CString Kalloc Vm Block Log Txn Fs Kernel File Proc Syscall Sysproc ProcProto Signal Console Bio LogProps.
Import Kernel Syscall Sysproc.
Local Open Scope Z_scope.

Section props.
Context {T : Type}.
Implicit Types k : kernel T.

(** The call has the word [v] as its argument [n]. *)
Definition has_arg k (n v : Z) : Prop := argint n k = Ok (Some v) k.

Lemma cur_Ok {A} k i (f : proc → A) : k_proc k = Some i → cur f k = Ok (f (proc_at (k_ptab k) i)) k.
Proof. intros H. unfold cur, myproc, mbind, kM_bind, kget, gets. by rewrite H. Qed.

Lemma argptr_Ok k i n v size : k_proc k = Some i → has_arg k n v →
  argptr n size k = Ok (if (p_sz (proc_at (k_ptab k) i) <=? u32 v) ||
    (p_sz (proc_at (k_ptab k) i) <? u32 (u32 v + size)) then None else Some (u32 v)) k.
Proof.
  intros Hi Ha. unfold argptr, mbind, kM_bind. rewrite Ha. rewrite (cur_Ok k i p_sz Hi). by destruct (_ || _).
Qed.

(** C26. For a process of at most [KERNBASE] bytes and a size that is not
    negative, argptr accepts a pointer exactly when the whole buffer lies in
    the process: there is no way around the check by overflow. *)
Theorem argptr_exact k i n v size : k_proc k = Some i → has_arg k n v →
  0 ≤ p_sz (proc_at (k_ptab k) i) ≤ Kalloc.KERNBASE → 0 ≤ size < 2 ^ 31 →
  argptr n size k = Ok (if bool_decide (u32 v < p_sz (proc_at (k_ptab k) i) ∧ u32 v + size ≤ p_sz (proc_at (k_ptab k) i))
    then Some (u32 v) else None) k.
Proof.
  intros Hi Ha Hsz Hs. rewrite (argptr_Ok k i n v size Hi Ha). set (sz := p_sz _) in *. f_equal.
  pose proof (u32_range v) as Hv. destruct (Z.leb_spec sz (u32 v)) as [Hle|Hlt]; simpl.
  - rewrite bool_decide_false by lia. done.
  - rewrite u32_small by (unfold Kalloc.KERNBASE in *; lia).
    destruct (Z.ltb_spec sz (u32 v + size)); [rewrite bool_decide_false by lia|rewrite bool_decide_true by lia]; done.
Qed.

(** ** Negative counts *)

Section read.
Context `{!BlockIO T} `{!TxnIO T}.
Variable dsw : Fs.devsw T.

Lemma readi_minus_one ip (s : Fs.fstate T) : Fs.i_type (Fs.inode_at s ip) ≠ Fs.T_DEV →
  0 ≤ Fs.i_size (Fs.inode_at s ip) < 2 ^ 31 →
  Fs.readi dsw ip 0 (u32 (-1)) s = Fs.readi dsw ip 0 (Fs.i_size (Fs.inode_at s ip)) s.
Proof.
  intros Ht Hsz. unfold Fs.readi, mbind, kM_bind, gets. set (x := Fs.inode_at s ip) in *. apply Z.eqb_neq in Ht. rewrite Ht.
  change (u32 (0 + u32 (-1))) with 4294967295. rewrite Z.add_0_l. rewrite (u32_small (Fs.i_size x)) by lia.
  change (4294967295 <? 0) with false. replace (Fs.i_size x <? 0) with false by lia.
  replace (Fs.i_size x <? Fs.i_size x) with false by lia. simpl.
  replace (Fs.i_size x <? 4294967295) with true by lia. by rewrite Z.sub_0_r.
Qed.

(** The pointer check lets a count of -1 through, for it only looks at the
    byte before the pointer; and on a file at offset 0 [read(fd, p, -1)] is
    [read(fd, p, size)]: it stores the whole file at [p], however little of the
    process's memory is left there. *)
Theorem read_minus_one_reads_file k k1 i n v f addr : k_proc k = Some i → has_arg k n v →
  0 < u32 v < p_sz (proc_at (k_ptab k) i) →
  let x := File.file_at (k_ftable k) f in
  f_type x = FD_INODE → f_readable x ≠ 0 → f_off x = 0 →
  in_fs (Fs.ilock (f_ip x)) k = Ok tt k1 →
  let ip := Fs.inode_at (k_fs k1) (f_ip x) in
  Fs.i_type ip ≠ Fs.T_DEV → 0 ≤ Fs.i_size ip < 2 ^ 31 →
  argptr n (-1) k = Ok (Some (u32 v)) k ∧
  File.fileread dsw f addr (-1) k = File.fileread dsw f addr (Fs.i_size ip) k.
Proof.
  intros Hi Ha Hv x Ht Hr Ho Hl ip Hd Hsz. split.
  - rewrite (argptr_Ok k i n v (-1) Hi Ha). pose proof (u32_range v).
    replace (u32 (u32 v + -1)) with (u32 v - 1) by (rewrite (u32_small (u32 v + -1)); lia).
    replace (p_sz (proc_at (k_ptab k) i) <=? u32 v) with false by lia.
    by replace (p_sz (proc_at (k_ptab k) i) <? u32 v - 1) with false by lia.
  - unfold File.fileread, File.get_file, mbind, kM_bind, gets. fold x. apply Z.eqb_neq in Hr. rewrite Hr, Ht, Hl, Ho.
    unfold in_fs, call at 1 4. rewrite (u32_small (Fs.i_size ip)) by lia.
    by rewrite (readi_minus_one (f_ip x) (k_fs k1) Hd Hsz).
Qed.
End read.

(** ** Signal numbers *)

Lemma handler_store_size t i v : valid t i →
  handler_store i (-31) v t = Some (upd_proc i (λ _, p_set_sz (u32 v) (proc_at t i)) t).
Proof.
  intros Hi. unfold valid in Hi. unfold handler_store, PROC_WORDS, HANDLER_OFF.
  replace (288 * Z.of_nat i + 31 + -31) with (Z.of_nat i * 288) by lia.
  replace ((0 <=? Z.of_nat i * 288) && (Z.of_nat i * 288 <? 288 * Z.of_nat (length (pt_proc t)))) with true by lia.
  by rewrite Z.mod_mul, Z.div_mul, Nat2Z.id by lia.
Qed.

Lemma handler_store_next t i v : valid t (S i) →
  handler_store i 257 v t = Some (upd_proc (S i) (λ _, p_set_sz (u32 v) (proc_at t (S i))) t).
Proof.
  intros Hi. unfold valid in Hi. unfold handler_store, PROC_WORDS, HANDLER_OFF.
  replace (288 * Z.of_nat i + 31 + 257) with (Z.of_nat (S i) * 288) by lia.
  replace ((0 <=? Z.of_nat (S i) * 288) && (Z.of_nat (S i) * 288 <? 288 * Z.of_nat (length (pt_proc t)))) with true by lia.
  by rewrite Z.mod_mul, Z.div_mul, Nat2Z.id by lia.
Qed.

Lemma sys_signal_Ok k i n v s0 h0 t' : k_proc k = Some i → has_arg k 0 n → has_arg k 1 v →
  handler_store i (if n =? -1 then 256 else n) v (k_ptab k) = Some t' →
  sys_signal s0 h0 k = Ok v (set_ptab t' k).
Proof.
  intros Hi Hn Hv Hs. unfold sys_signal, mbind, kM_bind. rewrite Hn, Hv. unfold myproc, mbind, kM_bind, kget, gets. rewrite Hi.
  cbn [default from_option]. simpl. rewrite Hs. done.
Qed.

(** C40. The signal number is not checked: [signal(-31, v)] sets the size of
    the calling process to [v] and [signal(257, v)] that of the process in the
    next slot, so that any address passes the pointer check of argptr. *)
Theorem signal_number_overwrites_size k i n v s0 h0 j : k_proc k = Some i → has_arg k 0 n → has_arg k 1 v →
  (n = -31 ∧ j = i) ∨ (n = 257 ∧ j = S i) → valid (k_ptab k) j →
  ∃ k', sys_signal s0 h0 k = Ok v k' ∧ p_sz (proc_at (k_ptab k') j) = u32 v.
Proof.
  intros Hi Hn Hv Hj Hval.
  assert (handler_store i (if n =? -1 then 256 else n) v (k_ptab k) =
    Some (upd_proc j (λ _, p_set_sz (u32 v) (proc_at (k_ptab k) j)) (k_ptab k))) as Hs.
  { destruct Hj as [[-> ->]|[-> ->]]; [by apply handler_store_size|by apply handler_store_next]. }
  rewrite (sys_signal_Ok k i n v s0 h0 _ Hi Hn Hv Hs). eexists. split; [done|].
  change (p_sz (proc_at (upd_proc j (λ _, p_set_sz (u32 v) (proc_at (k_ptab k) j)) (k_ptab k)) j) = u32 v).
  rewrite proc_at_upd, decide_True by done. done.
Qed.
End props.

(** ** A concrete process

    Its size is 8192, one page is mapped at 4096 as in [Signal.sig_mem], and
    its arguments are above the stack pointer 8100. *)

Section concrete.
Context {T : Type}.

Definition arg_mem (a0 a1 : Z) : CString.mem :=
  let q := Kalloc.KERNBASE + 12288 in
  Kalloc.store32 (q + 8104 - 4096) a0 (Kalloc.store32 (q + 8108 - 4096) a1 Signal.sig_mem).
Definition arg_tf : trapframe := mkTf 0 0 0 0 0 0 0 0 0 0 0 0 0 0 0 0 0 8100 0.
Definition arg_proc : proc := p_set_tf arg_tf (p_set_sz 8192 proc_zero).

Definition arg_kernel (a0 a1 : Z) (fs : Fs.fstate T) (l : list file) : kernel T :=
  mkKernel (Kalloc.mkKmem 0 0 (arg_mem a0 a1)) fs l ∅ (mkPtab [arg_proc; proc_zero] 3 None) (Some 0%nat) 0 4096
    (mkCpuregs 4096 0 0) (Console.mkCons (Console.mkInput [] 0 0 0) (Console.mkScreen [] 0) []) 0 [].
End concrete.

Definition fs_none : Fs.fstate unit := Fs.mkFs [] [] tt.

Lemma argptr_exact_witness :
  argptr 0 92 (arg_kernel 8100 0 fs_none []) = Ok (Some 8100) (arg_kernel 8100 0 fs_none []) ∧
  argptr 0 93 (arg_kernel 8100 0 fs_none []) = Ok None (arg_kernel 8100 0 fs_none []).
Proof.
  split; rewrite (argptr_exact (arg_kernel 8100 0 fs_none []) 0 0 8100);
    try (vm_compute; reflexivity || (split; congruence)).
Defined.

Lemma signal_number_overwrites_size_witness :
  ∃ k', sys_signal 0 0 (arg_kernel (-31) (-1) fs_none []) = Ok (-1) k' ∧ p_sz (proc_at (k_ptab k') 0) = 4294967295.
Proof.
  apply (signal_number_overwrites_size (arg_kernel (-31) (-1) fs_none []) 0 (-31) (-1) 0 0 0);
    [reflexivity|vm_compute; reflexivity|vm_compute; reflexivity|by left|vm_compute; lia].
Defined.

(** An open file of 300 bytes whose inode is in the inode cache. *)
Definition read_fs : Fs.fstate (Log.lstate Bio.bcache) :=
  Fs.mkFs [Fs.mkInode 1 7 1 2 2 0 0 1 300 (replicate 13 0)] [] (boot_state disk64).
Definition read_kernel : kernel (Log.lstate Bio.bcache) :=
  arg_kernel 1 8191 read_fs [mkFile FD_INODE 1 1 0 0 0 0].

#[local] Existing Instances Bio.bio_ops Log.log_block_ops.
Definition no_devices : Fs.devsw (Log.lstate Bio.bcache) := Fs.mkDevsw _ (λ _, None) (λ _, None).

Lemma read_minus_one_reads_file_witness :
  argptr 1 (-1) read_kernel = Ok (Some 8191) read_kernel ∧
  File.fileread no_devices 0 8191 (-1) read_kernel = File.fileread no_devices 0 8191 300 read_kernel.
Proof.
  apply (read_minus_one_reads_file no_devices read_kernel (set_fs (Fs.upd_inode 0 (λ x, Fs.i_set_flags 3 x) read_fs) read_kernel)
    0 1 8191 0 8191); try reflexivity; try (vm_compute; congruence).
  - vm_compute. split; congruence.
  - vm_compute. split; congruence.
Defined.
