(* ===== verification/TrapProps.v ===== *)
(** * Console input in the kernel

    The console interrupt with the process listing and the wakeup of readers,
    on the whole kernel state. *)

From stdpp Require Import base numbers option list gmap strings.
From Stdlib Require Import ZArith Lia ZifyBool.
From S2P Require Import Prelude Bytes CString Kalloc Spinlock Console ConsoleProps Block Log Txn Fs Kernel File Proc Trap SyscallProps.
Import Kernel Console.
Local Open Scope Z_scope.

(** ** The process listing *)

Lemma dump_pcs_Some pcs : is_Some (Proc.dump_pcs pcs).
Proof.
  induction pcs as [|pc pcs [o E]]; [by eexists|]. cbn [Proc.dump_pcs]. destruct (pc =? 0); [by eexists|].
  rewrite E. by eexists.
Qed.

Lemma dump_line_Some m p : is_Some (Proc.dump_line m p).
Proof.
  unfold Proc.dump_line. case_decide; [by eexists|]. case_decide; [|by eexists].
  destruct (dump_pcs_Some (Spinlock.getcallerpcs m (u32 (c_ebp (p_context p) + 8)))) as [o ->]. by eexists.
Qed.

Lemma dump_lines_Some m l : is_Some (Proc.dump_lines m l).
Proof.
  induction l as [|p l [o E]]; [by eexists|]. cbn [Proc.dump_lines].
  destruct (dump_line_Some m p) as [o' ->]. rewrite E. by eexists.
Qed.

Section lines.
Context {T : Type}.
Implicit Types k : kernel T.

Lemma procdump_prints k : prints (Proc.procdump k).
Proof.
  intros s Hs. unfold Proc.procdump. destruct (dump_lines_Some (Kalloc.km_mem (k_kmem k)) (pt_proc (k_ptab k))) as [cs ->].
  by apply consputs_prints.
Qed.

(** ** Interrupts *)

(** No process sleeps on the console while a line is complete. *)
Definition no_sleeper k : Prop :=
  Forall (λ p, ¬ (p_state p = SLEEPING ∧ p_chan p = Some ChInput)) (pt_proc (k_ptab k)).

Lemma wakeup1_no_sleeper t : Forall (λ p, ¬ (p_state p = SLEEPING ∧ p_chan p = Some ChInput)) (pt_proc (wakeup1 ChInput t)).
Proof. simpl. apply Forall_fmap, Forall_true. intros p. simpl. case_decide as H; [by intros []|done]. Qed.

Record console_ok k (com ed : list Z) : Prop := mkConsoleOk {
  co_input : input_rep (c_input (k_cons k)) com ed;
  co_screen : screen_ok (c_screen (k_cons k));
  co_awake : com = [] ∨ no_sleeper k
}.

Lemma consoleintr_ok cs k com ed : Forall (λ c, 0 ≤ c < 256) cs → console_ok k com ed →
  let l := foldl (λ l c, line_step c l) (com, ed) cs in
  ∃ k', Trap.consoleintr cs k = Ok tt k' ∧ console_ok k' l.1 l.2.
Proof.
  intros Hcs. revert k com ed. induction Hcs as [|c cs Hc Hcs IH]; intros k com ed [Hr Hs Ha]; cbn [foldl Trap.consoleintr].
  { by exists k. }
  destruct (consoleintr_char_ok (Proc.procdump k) c (k_cons k) com ed (procdump_prints k) Hc Hr Hs) as (s1 & w & E & Hr1 & Hs1 & Hw).
  unfold mbind, kM_bind, kget. rewrite E. destruct (line_step c (com, ed)) as [com1 ed1]. simpl in Hr1, Hw.
  set (k1 := if w then set_ptab (wakeup1 ChInput (k_ptab k)) (set_cons s1 k) else set_cons s1 k).
  destruct (IH k1 com1 ed1) as (k2 & E2 & Hk2); [|exists k2; split; [|exact Hk2]; by destruct w].
  destruct w; constructor; try done; [right; apply wakeup1_no_sleeper|]. by rewrite Hw.
Qed.

(** C27. Console input is a line discipline, across the wrap-around of the ring
    indices: each character that an interrupt delivers edits the last line, ends
    it, lists the processes or is dropped, as [line_step] says on lists of
    characters; no echo or listing stores outside of the screen memory; and
    no process is left sleeping for input when a line is complete. *)
Theorem consoleintr_refines_lines cs k com ed : Forall (λ c, 0 ≤ c < 256) cs → console_ok k com ed →
  ∃ k', Trap.consoleintr cs k = Ok tt k' ∧
    console_ok k' (foldl (λ l c, line_step c l) (com, ed) cs).1 (foldl (λ l c, line_step c l) (com, ed) cs).2.
Proof. apply consoleintr_ok. Qed.

(** What is read is the line that was typed and edited: after any
    keystrokes that leave [l] as the first complete line, a [consoleread] of
    enough bytes returns that line with its newline, and the next line is the
    first one then. *)
Theorem consoleread_reads_line cs k n killed l rest ed : Forall (λ c, 0 ≤ c < 256) cs → console_ok k [] [] →
  foldl (λ l c, line_step c l) ([], []) cs = (l ++ 10 :: rest, ed) →
  Forall (λ c, c ≠ 10 ∧ c ≠ ctl 68) l → Z.of_nat (length l) < n →
  ∃ k' i', Trap.consoleintr cs k = Ok tt k' ∧
    consoleread n killed (c_input (k_cons k')) = (i', l ++ [10], RDone (Z.of_nat (length l) + 1)) ∧ input_rep i' rest ed.
Proof.
  intros Hcs Hk El Hl Hn. destruct (consoleintr_ok cs k [] [] Hcs Hk) as (k' & E & [Hr _ _]). rewrite El in Hr.
  destruct (consoleread_line _ n killed l rest ed Hr Hl Hn) as (i' & Ei & Hi). by exists k', i'.
Qed.
End lines.

(** ** A concrete console *)

(** A reader sleeps, and the ring indices are about to wrap around. *)
Definition reader_proc : proc := p_set_state SLEEPING (p_set_chan (Some ChInput) arg_proc).
Definition typing : kernel unit :=
  set_cons cons0 (set_ptab (mkPtab [reader_proc] 3 None) (arg_kernel 0 0 fs_none [])).

Lemma typing_ok : console_ok typing [] [].
Proof. constructor; [exact cons0_input|exact cons0_screen|by left]. Qed.

Lemma consoleintr_refines_lines_witness :
  ∃ k', Trap.consoleintr keys typing = Ok tt k' ∧ console_ok k' [108; 115; 10] [97].
Proof. exact (consoleintr_refines_lines keys typing [] [] keys_ok typing_ok). Defined.

Lemma consoleread_reads_line_witness :
  ∃ k' i', Trap.consoleintr keys typing = Ok tt k' ∧
    consoleread 80 false (c_input (k_cons k')) = (i', [108; 115; 10], RDone 3) ∧ input_rep i' [] [97].
Proof.
  apply (consoleread_reads_line keys typing 80 false [108; 115] [] [97] keys_ok typing_ok);
    [reflexivity|repeat constructor; done|simpl; lia].
Defined.
