(* ===== verification/FileProps.v ===== *)
(** * Reference counts of open files

    The reference count of a file is the number of descriptors, over all
    processes, that point to it.  The calls that open, duplicate, close and
    inherit descriptors keep it so where they return, and where they sleep it
    is off by the references that the sleeping call has in hand. *)

From stdpp Require Import base numbers option list gmap strings.
From Stdlib Require Import ZArith Lia ZifyBool.
From S2P Require Import Prelude Bytes CString Kalloc Vm Pipe Block Log Txn Fs Kernel File Proc ProcProto Syscall Sysproc Sysfile Signal SyscallProps Bio LogProps.
Import Kernel.
Local Open Scope Z_scope.

(** ** Descriptors *)

(** The descriptors of a process that point to [f]. *)
Definition occ (f : nat) (l : list (option nat)) : Z := Z.of_nat (length (filter (λ x, x = Some f) l)).
Definition points (f : nat) (x : option nat) : Z := if decide (x = Some f) then 1 else 0.

Lemma occ_cons f x l : occ f (x :: l) = points f x + occ f l.
Proof. unfold occ, points. rewrite filter_cons. case_decide; simpl; lia. Qed.

Lemma occ_insert f l fd x : (fd < length l)%nat →
  occ f (<[fd := x]> l) = occ f l + points f x - points f (l !!! fd).
Proof.
  revert fd. induction l as [|y l IH]; intros fd Hfd; simpl in Hfd; [lia|].
  destruct fd as [|fd]; simpl; rewrite !occ_cons; [lia|]. rewrite IH by lia. lia.
Qed.

Lemma occ_none f n : occ f (replicate n None) = 0.
Proof. induction n; [done|]. simpl. rewrite occ_cons. unfold points. rewrite decide_False by done. lia. Qed.

(** Over all processes. *)
Fixpoint total (f : nat) (l : list proc) : Z :=
  match l with
  | [] => 0
  | p :: l' => occ f (p_ofile p) + total f l'
  end.

Lemma total_insert f l i p : (i < length l)%nat →
  total f (<[i := p]> l) = total f l + occ f (p_ofile p) - occ f (p_ofile (l !!! i)).
Proof.
  revert i. induction l as [|q l IH]; intros i Hi; simpl in Hi; [lia|].
  destruct i as [|i]; simpl; [lia|]. rewrite IH by lia. lia.
Qed.

Lemma total_fmap f (g : proc → proc) l : (∀ p, p_ofile (g p) = p_ofile p) → total f (g <$> l) = total f l.
Proof. intros Hg. induction l as [|p l IH]; [done|]. rewrite fmap_cons. cbn [total]. by rewrite IH, Hg. Qed.

(** ** The invariant *)

Section inv.
Context {T : Type}.
Implicit Types k : kernel T.

Definition fds_of k (f : nat) : Z := total f (pt_proc (k_ptab k)).

(** [e f] references to file [f] are held by the code that runs and not yet,
    or no longer, in a descriptor. *)
Record files_ok (e : nat → Z) k : Prop := mkFilesOk {
  fo_ref f : (f < length (k_ftable k))%nat → f_ref (File.file_at (k_ftable k) f) = fds_of k f + e f;
  fo_len i : valid (k_ptab k) i → length (p_ofile (proc_at (k_ptab k) i)) = Z.to_nat NOFILE;
  fo_clean i : valid (k_ptab k) i → pst (k_ptab k) i = UNUSED ∨ pst (k_ptab k) i = ZOMBIE →
    p_ofile (proc_at (k_ptab k) i) = replicate (Z.to_nat NOFILE) None;
  fo_file i fd f : valid (k_ptab k) i → p_ofile (proc_at (k_ptab k) i) !! fd = Some (Some f) →
    (f < length (k_ftable k))%nat;
  fo_cur i : k_proc k = Some i → valid (k_ptab k) i ∧ pst (k_ptab k) i = RUNNING
}.

Definition no_extra : nat → Z := λ _, 0.
Definition plus (e : nat → Z) (f : nat) (d : Z) : nat → Z := λ g, e g + (if decide (f = g) then d else 0).

(** The counts while the current process sleeps in a call. *)
Definition asleep (e : nat → Z) k : Prop := files_ok e (set_proc None k).

(** What holds when a computation returns, [Q], and when it sleeps, [R]. *)
Definition wlpR (R : kernel T → Prop) {A} (m : kM (kernel T) A) k (Q : A → kernel T → Prop) : Prop :=
  match m k with
  | Ok a k' => Q a k'
  | Sleep _ k' => R k'
  | Panic _ => True
  end.

Context {R : kernel T → Prop}.
#[local] Abbreviation wlp := (wlpR R).

(** [R] is what is known of a sleep with [e] references in hand. *)
Definition sleeps (e : nat → Z) : Prop := ∀ k', asleep e k' → R k'.

Lemma wlp_ret {A} (a : A) k (Q : A → kernel T → Prop) : Q a k → wlp (mret a) k Q.
Proof. done. Qed.
Lemma wlp_bind {A B} (m : kM (kernel T) A) (f : A → kM (kernel T) B) k (Q : B → kernel T → Prop) :
  wlp m k (λ a k', wlp (f a) k' Q) → wlp (m ≫= f) k Q.
Proof. unfold wlpR, mbind, kM_bind. by destruct (m k). Qed.
Lemma wlp_mono {A} (m : kM (kernel T) A) k (Q Q' : A → kernel T → Prop) : wlp m k Q → (∀ a k', Q a k' → Q' a k') → wlp m k Q'.
Proof. unfold wlpR. destruct (m k); auto. Qed.
Lemma wlp_panic {A} msg k (Q : A → kernel T → Prop) : wlp (panic msg) k Q.
Proof. done. Qed.
Lemma wlp_gets {A} (f : kernel T → A) k (Q : A → kernel T → Prop) : Q (f k) k → wlp (gets f) k Q.
Proof. done. Qed.
Lemma wlp_kget k (Q : kernel T → kernel T → Prop) : Q k k → wlp kget k Q.
Proof. done. Qed.
Lemma wlp_modify (f : kernel T → kernel T) k (Q : unit → kernel T → Prop) : Q tt (f k) → wlp (modify f) k Q.
Proof. done. Qed.

(** Calls that touch neither the files nor the processes, until they put the current
    process to sleep. *)
Definition same_procs k k' : Prop := k_ftable k' = k_ftable k ∧ k_ptab k' = k_ptab k ∧ k_proc k' = k_proc k.
Definition keeps {A} (m : kM (kernel T) A) : Prop := ∀ k,
  match m k with
  | Ok _ k' => same_procs k k'
  | Sleep c k' => ∃ i k1, k_proc k1 = Some i ∧ same_procs k k1 ∧ k' = set_ptab (go_to_sleep i c (k_ptab k1)) k1
  | Panic _ => True
  end.

Lemma keeps_call {S A} (get : kernel T → S) set (m : kM S A) :
  (∀ s k, same_procs k (set s k)) → keeps (call get set m).
Proof.
  intros Hset k. unfold call. destruct (m (get k)) as [a1 s1| |c s1]; [done|done|].
  unfold sleep, mbind, kM_bind, kget. destruct (k_proc (set s1 k)) as [i|] eqn:E; [|done]. simpl. by exists i, (set s1 k).
Qed.
Lemma keeps_fs {A} (m : kM (Fs.fstate T) A) : keeps (in_fs m).
Proof. by apply keeps_call. Qed.
Lemma keeps_mem {A} (m : kM Kalloc.kmem A) : keeps (in_mem m).
Proof. by apply keeps_call. Qed.

Lemma files_ok_keep e k k' : k_ftable k' = k_ftable k → k_ptab k' = k_ptab k → k_proc k' = k_proc k →
  files_ok e k → files_ok e k'.
Proof. intros E1 E2 E3 []. constructor; unfold fds_of; rewrite ?E1, ?E2, ?E3; done. Qed.

(** An update of a slot that leaves its descriptors alone. *)
Lemma upd_proc_ok e k i g : valid (k_ptab k) i →
  (∀ p, p_ofile (g p) = p_ofile p) →
  (p_state (g (proc_at (k_ptab k) i)) = pst (k_ptab k) i ∨
   (k_proc k ≠ Some i ∧ (p_state (g (proc_at (k_ptab k) i)) = UNUSED ∨ p_state (g (proc_at (k_ptab k) i)) = ZOMBIE →
     p_ofile (proc_at (k_ptab k) i) = replicate (Z.to_nat NOFILE) None))) →
  files_ok e k → files_ok e (set_ptab (upd_proc i g (k_ptab k)) k).
Proof.
  intros Hi Hg Hs Hk. pose proof Hk as []. set (t := k_ptab k) in *.
  assert (∀ j, p_ofile (proc_at (upd_proc i g t) j) = p_ofile (proc_at t j)) as Ho.
  { intros j. rewrite proc_at_upd by done. case_decide; [subst; apply Hg|done]. }
  assert (∀ j, valid (upd_proc i g t) j ↔ valid t j) as Hv by (intros; unfold valid; by rewrite length_upd_proc).
  constructor; simpl; fold t.
  - intros f Hf. rewrite fo_ref0 by done. unfold fds_of. simpl. fold t.
    rewrite total_insert by done. rewrite Hg. unfold proc_at. lia.
  - intros j Hj%Hv. rewrite Ho. auto.
  - intros j Hj%Hv. rewrite Ho, pst_upd by done. case_decide; [subst j|auto].
    destruct Hs as [->|[_ Hs]]; [auto|exact Hs].
  - intros j fd f Hj%Hv. rewrite Ho. eauto.
  - intros j Hj. destruct (fo_cur0 j Hj) as [Hvj Hsj]. rewrite Hv, pst_upd by done. split; [done|].
    case_decide; [subst j|done]. destruct Hs as [->|[Hne _]]; done.
Qed.

Lemma go_to_sleep_ok e k i c : k_proc k = Some i → files_ok e k → asleep e (set_ptab (go_to_sleep i c (k_ptab k)) k).
Proof.
  intros Hi Hk. destruct (fo_cur _ _ Hk i Hi) as [Hv Hs].
  apply (upd_proc_ok e (set_proc None k) i (λ p, p_set_state SLEEPING (p_set_chan (Some c) p))); [done|done| |].
  - right. split; [done|]. by intros [?|?].
  - destruct Hk. by constructor.
Qed.

Lemma wlp_keeps {A} (m : kM (kernel T) A) e k (Q : A → kernel T → Prop) : keeps m → files_ok e k → sleeps e →
  (∀ a k', files_ok e k' → k_ptab k' = k_ptab k → k_ftable k' = k_ftable k → k_proc k' = k_proc k → Q a k') → wlp m k Q.
Proof.
  intros Hm He Hsl HQ. specialize (Hm k). unfold wlpR. destruct (m k) as [a k'|msg|c k']; [|done|].
  - destruct Hm as (E1 & E2 & E3). apply HQ; [by eapply files_ok_keep|done..].
  - destruct Hm as (i & k1 & Hi & (E1 & E2 & E3) & ->). apply Hsl. apply go_to_sleep_ok; [done|]. by eapply files_ok_keep.
Qed.
End inv.

(** ** The operations *)

Section ops.
Context {T : Type} {R : kernel T → Prop}.
#[local] Abbreviation wlp := (wlpR R).
Implicit Types k : kernel T.

Lemma files_ok_ext e e' k : (∀ f, (f < length (k_ftable k))%nat → e f = e' f) → files_ok e k → files_ok e' k.
Proof. intros E []. constructor; [|done..]. intros f Hf. rewrite <- E by done. auto. Qed.

Lemma sleeps_ext e e' : (∀ f, e' f = e f) → sleeps (R := R) e → sleeps (R := R) e'.
Proof. intros E H k' Hk. apply H. eapply files_ok_ext; [|exact Hk]. auto. Qed.

Lemma set_file_ok e k f g d : (f < length (k_ftable k))%nat →
  f_ref (g (File.file_at (k_ftable k) f)) = f_ref (File.file_at (k_ftable k) f) + d →
  files_ok e k → files_ok (plus e f d) (set_ftable (File.upd_file f g (k_ftable k)) k).
Proof.
  intros Hf Hg []. unfold File.upd_file. constructor; simpl; rewrite ?length_insert; [|done..].
  intros h Hh. unfold File.file_at at 1. rewrite arr_insert by done. unfold plus, fds_of. simpl.
  case_decide; [subst h; rewrite Hg, fo_ref0 by done; unfold fds_of; lia|]. rewrite Z.add_0_r. by apply fo_ref0.
Qed.

(** A descriptor changes. *)
Lemma ofile_ok e k i fd x : valid (k_ptab k) i → (fd < Z.to_nat NOFILE)%nat →
  pst (k_ptab k) i ≠ UNUSED → pst (k_ptab k) i ≠ ZOMBIE → (∀ f, x = Some f → (f < length (k_ftable k))%nat) →
  files_ok e k →
  files_ok (λ f, e f - points f x + points f (p_ofile (proc_at (k_ptab k) i) !!! fd))
    (set_ptab (upd_proc i (λ p, p_set_ofile (<[fd := x]> (p_ofile p)) p) (k_ptab k)) k).
Proof.
  intros Hi Hfd Hu Hz Hx Hk. pose proof Hk as []. set (t := k_ptab k) in *.
  set (g := λ p, p_set_ofile (<[fd := x]> (p_ofile p)) p).
  assert (∀ j, proc_at (upd_proc i g t) j = if decide (i = j) then g (proc_at t i) else proc_at t j) as Hat
    by (intros; by apply proc_at_upd).
  assert (∀ j, pst (upd_proc i g t) j = pst t j) as Hst.
  { intros j. unfold pst. rewrite Hat. case_decide; [by subst|done]. }
  assert (∀ j, valid (upd_proc i g t) j ↔ valid t j) as Hv by (intros; unfold valid; by rewrite length_upd_proc).
  constructor; simpl; fold t.
  - intros f Hf. rewrite fo_ref0 by done. unfold fds_of. simpl. fold t. rewrite total_insert by done.
    change (p_ofile (g (proc_at t i))) with (<[fd := x]> (p_ofile (proc_at t i))).
    rewrite occ_insert by (rewrite fo_len0; done). unfold proc_at. lia.
  - intros j Hj%Hv. rewrite Hat. case_decide; [subst j|auto]. simpl. rewrite length_insert. auto.
  - intros j Hj%Hv. rewrite Hst, Hat. case_decide; [subst j; intros [?|?]; done|auto].
  - intros j fd' f Hj%Hv. rewrite Hat. case_decide; [subst j|by eauto]. simpl.
    intros [(_ & Hf & _)|[_ Hf]]%list_lookup_insert_Some; [|by eauto]. by apply Hx.
  - intros j Hj. rewrite Hv, Hst. auto.
Qed.

Lemma wakeup_ok e k c : files_ok e k → files_ok e (set_ptab (wakeup1 c (k_ptab k)) k).
Proof.
  intros []. set (t := k_ptab k) in *.
  assert (∀ j, valid (wakeup1 c t) j ↔ valid t j) as Hv by (intros; unfold valid; by rewrite length_wakeup1).
  constructor; simpl; fold t.
  - intros f Hf. rewrite fo_ref0 by done. unfold fds_of. simpl. fold t. rewrite total_fmap; [done|].
    intros p. by case_decide.
  - intros j Hj%Hv. destruct (wakeup1_slot c t j Hj) as [->|[_ ->]]; [auto|]. simpl. auto.
  - intros j Hj%Hv. unfold pst in *. destruct (wakeup1_slot c t j Hj) as [->|[_ ->]]; [auto|]. simpl. by intros [?|?].
  - intros j fd f Hj%Hv. destruct (wakeup1_slot c t j Hj) as [->|[_ ->]]; simpl; eauto.
  - intros j Hj. destruct (fo_cur0 j Hj) as [Hvj Hsj]. rewrite Hv. split; [done|]. unfold pst in *.
    destruct (wakeup1_slot c t j Hvj) as [->|[E ->]]; [done|]. unfold pst in E. congruence.
Qed.

(** ** file.c *)

Lemma myproc_wlp k (Q : nat → kernel T → Prop) : (∀ i, k_proc k = Some i → Q i k) → wlp myproc k Q.
Proof.
  intros HQ. apply wlp_bind, wlp_kget. destruct (k_proc k) as [i|] eqn:E; [apply wlp_ret; by apply HQ|apply wlp_panic].
Qed.
Lemma cur_wlp {A} (g : proc → A) k (Q : A → kernel T → Prop) :
  (∀ i, k_proc k = Some i → Q (g (proc_at (k_ptab k) i)) k) → wlp (cur g) k Q.
Proof. intros HQ. apply wlp_bind, myproc_wlp. intros i Hi. apply wlp_gets, HQ, Hi. Qed.

Lemma free_file_Some l f : File.free_file l = Some f → (f < length l)%nat ∧ f_ref (File.file_at l f) = 0.
Proof.
  revert f. induction l as [|x l IH]; intros f; simpl; [done|]. destruct (Z.eqb_spec (f_ref x) 0).
  - intros [= <-]. split; [lia|done].
  - intros (g & Hg & ->)%fmap_Some. destruct (IH g Hg). split; [lia|done].
Qed.

Lemma filealloc_ok e k : files_ok e k → wlp File.filealloc k (λ r k',
  k_ptab k' = k_ptab k ∧ k_proc k' = k_proc k ∧ length (k_ftable k') = length (k_ftable k) ∧
  match r with
  | Some f => (f < length (k_ftable k))%nat ∧ files_ok (plus e f 1) k'
  | None => files_ok e k'
  end).
Proof.
  intros Hk. apply wlp_bind, wlp_kget. destruct (File.free_file (k_ftable k)) as [f|] eqn:E; [|by apply wlp_ret].
  apply free_file_Some in E as [Hf Hr]. apply wlp_bind, wlp_modify, wlp_ret.
  split_and!; [done|done|apply length_insert|done|]. apply set_file_ok; [done|simpl; lia|done].
Qed.

Lemma filedup_ok e k f : (f < length (k_ftable k))%nat → files_ok e k → wlp (File.filedup f) k (λ r k',
  r = f ∧ k_ptab k' = k_ptab k ∧ k_proc k' = k_proc k ∧ length (k_ftable k') = length (k_ftable k) ∧
  files_ok (plus e f 1) k').
Proof.
  intros Hf Hk. apply wlp_bind, wlp_gets. destruct (_ <? 1); [apply wlp_panic|].
  apply wlp_bind, wlp_modify, wlp_ret. split_and!; [done|done|done|apply length_insert|]. by apply set_file_ok.
Qed.

Lemma wake_all_ok e p ws k : files_ok e k → wlp (File.wake_all p ws) k (λ _ k',
  files_ok e k' ∧ k_proc k' = k_proc k ∧ k_ftable k' = k_ftable k ∧
  ∀ i, valid (k_ptab k) i → valid (k_ptab k') i ∧ p_ofile (proc_at (k_ptab k') i) = p_ofile (proc_at (k_ptab k) i)).
Proof.
  revert k. induction ws as [|c ws IH]; intros k Hk; cbn [File.wake_all]; [by apply wlp_ret|].
  apply wlp_bind, wlp_modify. eapply wlp_mono; [apply IH, wakeup_ok, Hk|]. intros _ k' (H1 & H2 & H3 & H4).
  split_and!; [done|done|done|]. intros i Hi. destruct (H4 i) as [Hv Ho].
  { unfold valid in *. simpl. by rewrite length_fmap. }
  split; [done|]. rewrite Ho. simpl. by destruct (wakeup1_slot (File.pipe_chan p c) (k_ptab k) i Hi) as [->|[_ ->]].
Qed.

Section close.
Context `{!BlockIO T} `{!TxnIO T} `{!OpIO T}.
Variables (kend : Z) (dsw : Fs.devsw T).

(** The descriptors are as before, process by process. *)
Definition same_fds k k' : Prop := k_proc k' = k_proc k ∧ length (k_ftable k') = length (k_ftable k) ∧
  ∀ i, valid (k_ptab k) i → valid (k_ptab k') i ∧ p_ofile (proc_at (k_ptab k') i) = p_ofile (proc_at (k_ptab k) i).

Lemma same_fds_refl k : same_fds k k.
Proof. done. Qed.
Lemma same_fds_keep k k' : k_proc k' = k_proc k → k_ftable k' = k_ftable k → k_ptab k' = k_ptab k → same_fds k k'.
Proof. intros E1 E2 E3. unfold same_fds. by rewrite E1, E2, E3. Qed.
Lemma same_fds_trans k1 k2 k3 : same_fds k1 k2 → same_fds k2 k3 → same_fds k1 k3.
Proof.
  intros (E1 & E2 & H1) (E3 & E4 & H2). split_and!; [congruence|congruence|]. intros i Hi.
  destruct (H1 i Hi) as [Hi2 Ho]. destruct (H2 i Hi2) as [Hi3 Ho']. split; [done|congruence].
Qed.

Lemma pipeclose_ok e p w k : sleeps (R := R) e → files_ok e k → wlp (File.pipeclose kend p w) k (λ _ k', files_ok e k' ∧ same_fds k k').
Proof.
  intros Hsl Hk. unfold File.pipeclose. apply wlp_bind. unfold File.get_pipe. apply wlp_bind, wlp_kget.
  destruct (k_pipes k !! p) as [x|]; [apply wlp_ret|apply wlp_panic].
  destruct (Pipe.pipeclose w x) as [[x' ws] freed]. apply wlp_bind, wlp_modify.
  set (k1 := set_pipes _ k). assert (files_ok e k1) as Hk1 by (by apply (files_ok_keep e k)).
  apply wlp_bind. eapply wlp_mono; [apply (wake_all_ok e p ws k1 Hk1)|]. intros _ k2 (Hk2 & E2 & F2 & H2).
  assert (same_fds k k2) as Hs by (split_and!; [done|by rewrite F2|done]).
  destruct freed; [|by apply wlp_ret]. apply wlp_bind, wlp_modify.
  eapply wlp_keeps; [apply keeps_mem|by apply (files_ok_keep e k2)|done|]. intros _ k3 Hk3 E3 F3 G3. split; [done|].
  eapply same_fds_trans; [exact Hs|]. by apply same_fds_keep.
Qed.

Lemma fileclose_ok e k f : sleeps (R := R) (plus e f (-1)) → (f < length (k_ftable k))%nat → files_ok e k →
  wlp (File.fileclose kend f) k (λ _ k', files_ok (plus e f (-1)) k' ∧ same_fds k k').
Proof.
  intros Hsl Hf Hk. unfold File.fileclose. apply wlp_bind, wlp_gets. set (x := File.file_at (k_ftable k) f).
  destruct (Z.ltb_spec (f_ref x) 1); [apply wlp_panic|]. destruct (Z.ltb_spec 0 (f_ref x - 1)).
  { apply wlp_modify. split; [by apply set_file_ok|]. split_and!; [done|apply length_insert|done]. }
  apply wlp_bind, wlp_modify. set (k1 := set_ftable _ k).
  assert (files_ok (plus e f (-1)) k1) as Hk1 by (apply set_file_ok; [done|simpl; fold x; lia|done]).
  assert (same_fds k k1) as Hs by (split_and!; [done|apply length_insert|done]).
  destruct (f_type x).
  - by apply wlp_ret.
  - eapply wlp_mono; [by apply (pipeclose_ok (plus e f (-1)))|]. intros _ k2 [Hk2 Hs2]. split; [done|].
    by eapply same_fds_trans.
  - apply wlp_bind. eapply wlp_keeps; [apply keeps_fs|exact Hk1|done|]. intros _ k2 Hk2 E2 F2 G2.
    apply wlp_bind. eapply wlp_keeps; [apply keeps_fs|exact Hk2|done|]. intros _ k3 Hk3 E3 F3 G3.
    eapply wlp_keeps; [apply keeps_fs|exact Hk3|done|]. intros _ k4 Hk4 E4 F4 G4. split; [done|].
    eapply same_fds_trans; [exact Hs|]. apply same_fds_keep; congruence.
Qed.
End close.
End ops.

(** ** Calls that keep the files and the processes *)

Section keeping.
Context {T : Type}.
Implicit Types k : kernel T.

Lemma same_procs_trans k1 k2 k3 : same_procs k1 k2 → same_procs k2 k3 → same_procs k1 k3.
Proof. intros (? & ? & ?) (? & ? & ?). split_and!; congruence. Qed.
Lemma keeps_ret {A} (a : A) : keeps (T := T) (mret a).
Proof. done. Qed.
Lemma keep_bind {A B} (m : kM (kernel T) A) (f : A → kM (kernel T) B) :
  keeps m → (∀ a, keeps (f a)) → keeps (m ≫= f).
Proof.
  intros Hm Hf k. specialize (Hm k). unfold mbind, kM_bind. destruct (m k) as [a k1| |]; [|done..].
  specialize (Hf a k1). destruct (f a k1) as [b k2| |c k2]; [by eapply same_procs_trans|done|].
  destruct Hf as (i & k3 & Hi & Hs & ->). exists i, k3. split_and!; [done|by eapply same_procs_trans|done].
Qed.
Lemma keep_gets {A} (f : kernel T → A) : keeps (gets f).
Proof. done. Qed.
Lemma keep_kget : keeps (T := T) kget.
Proof. done. Qed.
Lemma keeps_panic {A} msg : keeps (T := T) (A := A) (panic msg).
Proof. done. Qed.
Lemma keeps_myproc : keeps (T := T) myproc.
Proof. apply keep_bind; [apply keep_kget|]. intros k. destruct (k_proc k); [apply keeps_ret|apply keeps_panic]. Qed.
Lemma keeps_cur {A} (f : proc → A) : keeps (T := T) (cur f).
Proof. apply keep_bind; [apply keeps_myproc|]. intros i. apply keep_gets. Qed.
Lemma keep_modify (f : kernel T → kernel T) : (∀ k, same_procs k (f k)) → keeps (modify f).
Proof. intros Hf k. apply Hf. Qed.
End keeping.

#[local] Hint Resolve keeps_ret keep_gets keep_kget keeps_panic keeps_myproc keeps_cur keeps_fs keeps_mem : keeps.
#[local] Hint Unfold Sysfile.begin_op Sysfile.end_op Sysfile.ilock Sysfile.iunlock Sysfile.iput Sysfile.iunlockput
  Sysfile.iupdate Sysfile.inode Sysfile.set_inode File.in_op : keeps.

(** Split a computation into calls that keep the files and the processes. *)
Ltac keep_step := lazymatch goal with
  | |- keeps (_ ≫= _) => apply keep_bind; [|intros]
  | |- keeps (match ?x with _ => _ end) => destruct x
  | |- keeps (if ?x then _ else _) => destruct x
  | |- _ => progress (autounfold with keeps) || (by auto with keeps)
  end.
Ltac keep := repeat keep_step.

Section keeping2.
Context {T : Type}.
Implicit Types k : kernel T.

Lemma keeps_uload va n : keeps (T := T) (uload va n).
Proof. unfold uload. keep. Qed.
Lemma keeps_ustore va l : keeps (T := T) (ustore va l).
Proof. unfold ustore. keep. Qed.
Lemma keeps_fetchint a : keeps (T := T) (Syscall.fetchint a).
Proof. unfold Syscall.fetchint, uload32. keep. apply keeps_uload. Qed.
Lemma keeps_argint n : keeps (T := T) (Syscall.argint n).
Proof. unfold Syscall.argint. keep. apply keeps_fetchint. Qed.
Lemma keeps_argptr n size : keeps (T := T) (Syscall.argptr n size).
Proof. unfold Syscall.argptr. keep. apply keeps_argint. Qed.
Lemma keeps_fetchstr_loop n s : keeps (T := T) (Syscall.fetchstr_loop n s).
Proof. revert s. induction n as [|n IH]; intros s; cbn [Syscall.fetchstr_loop]; keep; auto using keeps_uload. Qed.
Lemma keeps_argstr n : keeps (T := T) (Syscall.argstr n).
Proof. unfold Syscall.argstr, Syscall.fetchstr. keep; [apply keeps_argint|apply keeps_fetchstr_loop]. Qed.

Context `{!BlockIO T} `{!TxnIO T} `{!OpIO T}.
Variables (kend : Z) (dsw : Fs.devsw T).

Lemma keeps_start path : keeps (T := T) (Sysfile.start path).
Proof. unfold Sysfile.start. keep. Qed.
Lemma keeps_namei path : keeps (Sysfile.namei dsw path).
Proof. unfold Sysfile.namei. keep. apply keeps_start. Qed.
Lemma keeps_nameiparent path : keeps (Sysfile.nameiparent dsw path).
Proof. unfold Sysfile.nameiparent. keep. apply keeps_start. Qed.
Lemma keeps_create path type major minor : keeps (Sysfile.create dsw path type major minor).
Proof. unfold Sysfile.create. keep. apply keeps_nameiparent. Qed.
Lemma keeps_open_inode path omode : keeps (Sysfile.open_inode dsw path omode).
Proof. unfold Sysfile.open_inode. keep; [apply keeps_create|apply keeps_namei]. Qed.
Lemma keeps_open_fail ip : keeps (T := T) (Sysfile.open_fail ip).
Proof. unfold Sysfile.open_fail. keep. Qed.
End keeping2.

(** ** The system calls *)

Section syscalls.
Context {T : Type} `{!BlockIO T} `{!TxnIO T} `{!OpIO T} {R : kernel T → Prop}.
#[local] Abbreviation wlp := (wlpR R).
#[local] Abbreviation sleeps := (sleeps (R := R)).
Variables (kend data forkret_addr : Z) (dsw : Fs.devsw T).
Implicit Types k : kernel T.

(** The descriptor of the current process. *)
Definition fd_is k (fd f : nat) : Prop := ∃ i, k_proc k = Some i ∧ (fd < Z.to_nat NOFILE)%nat ∧
  p_ofile (proc_at (k_ptab k) i) !!! fd = Some f.

Lemma fd_is_file e k fd f : files_ok e k → fd_is k fd f → (f < length (k_ftable k))%nat.
Proof.
  intros [] (i & Hi & Hfd & Ho). destruct (fo_cur0 i Hi) as [Hv _]. eapply (fo_file0 i fd); [done|].
  rewrite <- Ho. apply arr_lookup. by rewrite fo_len0.
Qed.

Lemma argfd_ok e n k : sleeps e → files_ok e k → wlp (Sysfile.argfd n) k (λ r k', files_ok e k' ∧
  match r with Some (fd, f) => fd_is k' fd f | None => True end).
Proof.
  intros Hsl Hk. unfold Sysfile.argfd. apply wlp_bind. eapply wlp_keeps; [apply keeps_argint|exact Hk|done|].
  intros [fd|] k1 Hk1 _ _ _; [|by apply wlp_ret].
  destruct ((fd <? 0) || (NOFILE <=? fd)) eqn:Hfd; [by apply wlp_ret|]. apply wlp_bind, cur_wlp. intros i Hi.
  apply wlp_ret. split; [done|]. destruct (p_ofile (proc_at (k_ptab k1) i) !!! Z.to_nat fd) as [f|] eqn:Ho; simpl; [|done].
  exists i. split_and!; [done|lia|done].
Qed.

Lemma free_fd_Some l fd : Sysfile.free_fd l = Some fd → (fd < length l)%nat ∧ l !!! fd = None.
Proof.
  revert fd. induction l as [|x l IH]; intros fd; simpl; [done|]. destruct x.
  - intros (g & Hg & ->)%fmap_Some. destruct (IH g Hg). split; [lia|done].
  - intros [= <-]. split; [lia|done].
Qed.

Lemma set_ofile_ok e k fd x : (fd < Z.to_nat NOFILE)%nat → (∀ f, x = Some f → (f < length (k_ftable k))%nat) →
  files_ok e k → wlp (Sysfile.set_ofile fd x) k (λ _ k', ∃ i, k_proc k = Some i ∧ k_proc k' = Some i ∧
    k_ftable k' = k_ftable k ∧ p_ofile (proc_at (k_ptab k') i) = <[fd := x]> (p_ofile (proc_at (k_ptab k) i)) ∧
    files_ok (λ f, e f - points f x + points f (p_ofile (proc_at (k_ptab k) i) !!! fd)) k').
Proof.
  intros Hfd Hx Hk. unfold Sysfile.set_ofile, upd_cur, upd_at. apply wlp_bind, myproc_wlp. intros i Hi.
  apply wlp_modify. exists i. destruct (fo_cur _ _ Hk i Hi) as [Hv Hs].
  split_and!; [done|done|done| |apply ofile_ok; [done|done|congruence|congruence|done|done]].
  simpl. rewrite proc_at_upd, decide_True by done. done.
Qed.

Lemma fdalloc_ok e k f : (f < length (k_ftable k))%nat → files_ok e k → wlp (Sysfile.fdalloc f) k (λ r k',
  k_ftable k' = k_ftable k ∧ k_proc k' = k_proc k ∧
  match r with Some fd => files_ok (plus e f (-1)) k' ∧ fd_is k' fd f | None => k' = k end).
Proof.
  intros Hf Hk. unfold Sysfile.fdalloc. apply wlp_bind, cur_wlp. intros i Hi. destruct (fo_cur _ _ Hk i Hi) as [Hv Hs].
  destruct (Sysfile.free_fd _) as [fd|] eqn:E; [|by apply wlp_ret]. apply free_fd_Some in E as [Hfd Hn].
  rewrite (fo_len _ _ Hk i Hv) in Hfd. apply wlp_bind. eapply wlp_mono.
  { apply (set_ofile_ok e); [done|by intros g [= <-]|done]. }
  intros _ k1 (i' & Hi' & Hi1 & Ef & Eo & Hk1). assert (i' = i) as -> by congruence. apply wlp_ret. split_and!; [done|congruence| |].
  - eapply files_ok_ext; [|exact Hk1]. intros g _. rewrite Hn. unfold plus, points.
    rewrite (decide_False (P := None = Some g)) by done. repeat case_decide; simplify_eq; lia.
  - exists i. split_and!; [done|done|]. rewrite Eo, arr_insert_eq; [done|]. by rewrite (fo_len _ _ Hk i Hv).
Qed.

(** The references in hand, file by file. *)
Ltac count_refs := intros g; intros; unfold plus, no_extra, points; rewrite ?(decide_False (P := None = Some g)) by done; repeat case_decide; simplify_eq; lia.
Ltac no_hand := eapply sleeps_ext; [|eassumption]; count_refs.

Lemma sys_dup_ok k : sleeps no_extra → files_ok no_extra k → wlp Sysfile.sys_dup k (λ _, files_ok no_extra).
Proof.
  intros Hsl Hk. unfold Sysfile.sys_dup. apply wlp_bind. eapply wlp_mono; [by apply (argfd_ok no_extra)|].
  intros [[fd f]|] k1 [Hk1 Hfd]; [|by apply wlp_ret]. pose proof (fd_is_file _ _ _ _ Hk1 Hfd) as Hf.
  apply wlp_bind. eapply wlp_mono; [by apply (fdalloc_ok no_extra)|]. intros [fd'|] k2 (E2 & _ & H2).
  - destruct H2 as [Hk2 _]. apply wlp_bind. eapply wlp_mono; [eapply (filedup_ok _ _ f); [by rewrite E2|exact Hk2]|].
    intros _ k3 (_ & _ & _ & _ & Hk3). apply wlp_ret. eapply files_ok_ext; [|exact Hk3].
    intros g _. unfold plus, no_extra. case_decide; lia.
  - subst. by apply wlp_ret.
Qed.

Lemma sys_close_ok k : sleeps no_extra → files_ok no_extra k → wlp (Sysfile.sys_close kend) k (λ _, files_ok no_extra).
Proof.
  intros Hsl Hk. unfold Sysfile.sys_close. apply wlp_bind. eapply wlp_mono; [by apply (argfd_ok no_extra)|].
  intros [[fd f]|] k1 [Hk1 Hfd]; [|by apply wlp_ret]. pose proof (fd_is_file _ _ _ _ Hk1 Hfd) as Hf.
  destruct Hfd as (i & Hi & Hlt & Ho). apply wlp_bind. eapply wlp_mono; [by apply (set_ofile_ok no_extra _ fd None)|].
  intros _ k2 (i' & Hi' & _ & E2 & _ & Hk2). assert (i' = i) as -> by congruence. rewrite Ho in Hk2.
  apply wlp_bind. eapply wlp_mono; [eapply (fileclose_ok kend _ _ f); [|by rewrite E2|exact Hk2]; no_hand|].
  intros _ k3 [Hk3 _]. apply wlp_ret. eapply files_ok_ext; [|exact Hk3].
  intros g _. unfold plus, no_extra, points. rewrite (decide_False (P := None = Some g)) by done.
  repeat case_decide; simplify_eq; lia.
Qed.

Lemma sys_open_ok k : sleeps no_extra → files_ok no_extra k → wlp (Sysfile.sys_open kend dsw) k (λ _, files_ok no_extra).
Proof.
  intros Hsl Hk. unfold Sysfile.sys_open. apply wlp_bind. eapply wlp_keeps; [apply keeps_argstr|exact Hk|done|].
  intros [path|] k1 Hk1 _ _ _; [|by apply wlp_ret]. apply wlp_bind. eapply wlp_keeps; [apply keeps_argint|exact Hk1|done|].
  intros [omode|] k2 Hk2 _ _ _; [|by apply wlp_ret]. apply wlp_bind. eapply wlp_keeps; [apply keeps_fs|exact Hk2|done|].
  intros _ k3 Hk3 _ _ _. apply wlp_bind. eapply wlp_keeps; [apply keeps_open_inode|exact Hk3|done|].
  intros [ip|] k4 Hk4 _ _ _; [|by apply wlp_ret]. apply wlp_bind. eapply wlp_mono; [by apply (filealloc_ok no_extra)|].
  intros [f|] k5 (_ & _ & El & H5).
  2:{ eapply wlp_keeps; [apply keeps_open_fail|exact H5|done|]. by intros. }
  destruct H5 as [Hf Hk5]. apply wlp_bind. eapply wlp_mono; [eapply (fdalloc_ok _ _ f); [by rewrite El|exact Hk5]|].
  intros [fd|] k6 (E6 & _ & H6).
  - destruct H6 as [Hk6 _]. assert (sleeps (plus (plus no_extra f 1) f (-1))) as Hsl' by no_hand.
    apply wlp_bind. eapply wlp_keeps; [apply keeps_fs|exact Hk6|done|]. intros _ k7 Hk7 _ E7 _.
    apply wlp_bind. eapply wlp_keeps; [apply keeps_fs|exact Hk7|done|]. intros _ k8 Hk8 _ E8 _.
    apply wlp_bind, wlp_modify, wlp_ret. eapply files_ok_ext; [|eapply (set_file_ok _ k8 f _ 0); [|simpl; lia|exact Hk8]].
    + intros g _. unfold plus, no_extra. case_decide; lia.
    + rewrite E8, E7, E6. lia.
  - subst k6. apply wlp_bind. eapply wlp_mono; [eapply (fileclose_ok kend _ _ f); [|by rewrite El|exact Hk5]; no_hand|].
    intros _ k6 [Hk6 _]. eapply wlp_keeps; [apply keeps_open_fail|exact Hk6|no_hand|]. intros _ k7 Hk7 _ _ _.
    eapply files_ok_ext; [|exact Hk7]. intros g _. unfold plus, no_extra. case_decide; lia.
Qed.

(** A call of pipe has at most two references in hand. *)
Definition few (e : nat → Z) : Prop := ∀ f, 0 ≤ e f ≤ 2.

Lemma pipealloc_ok k : (∀ e, few e → sleeps e) → files_ok no_extra k → wlp (File.pipealloc kend) k (λ r k',
  match r with
  | Some (f0, f1) => (f0 < length (k_ftable k'))%nat ∧ (f1 < length (k_ftable k'))%nat ∧
      files_ok (plus (plus no_extra f0 1) f1 1) k'
  | None => files_ok no_extra k'
  end).
Proof.
  intros Hsl Hk. unfold File.pipealloc, File.pipealloc_bad, File.close_opt. apply wlp_bind.
  eapply wlp_mono; [by apply (filealloc_ok no_extra)|]. intros [f0|] k1 (_ & _ & E1 & H1); [|by repeat (apply wlp_bind || apply wlp_ret)].
  destruct H1 as [Hf0 Hk1]. apply wlp_bind. eapply wlp_mono; [by eapply filealloc_ok|].
  intros [f1|] k2 (_ & _ & E2 & H2).
  - destruct H2 as [Hf1 Hk2]. apply wlp_bind. eapply wlp_keeps; [apply keeps_mem|exact Hk2|apply Hsl; count_refs|]. intros p k3 Hk3 _ E3 _.
    destruct (p =? 0).
    + apply wlp_bind. eapply wlp_mono; [eapply (fileclose_ok kend _ _ f0); [|rewrite E3, E2; lia|exact Hk3]; apply Hsl; count_refs|].
      intros _ k4 [Hk4 (_ & E4 & _)]. apply wlp_bind.
      eapply wlp_mono; [eapply (fileclose_ok kend _ _ f1); [|rewrite E4, E3; lia|exact Hk4]; apply Hsl; count_refs|].
      intros _ k5 [Hk5 _]. apply wlp_ret. eapply files_ok_ext; [|exact Hk5].
      intros g _. unfold plus, no_extra. repeat case_decide; lia.
    + apply wlp_bind, wlp_modify. set (k4 := set_pipes _ k3).
      assert (files_ok (plus (plus no_extra f0 1) f1 1) k4) as Hk4 by (by apply (files_ok_keep _ k3)).
      apply wlp_bind, wlp_modify. set (k5 := set_ftable _ k4).
      assert (files_ok (plus (plus no_extra f0 1) f1 1) k5) as Hk5.
      { eapply files_ok_ext; [|eapply (set_file_ok _ k4 f0 _ 0); [simpl; rewrite E3, E2; lia|simpl; lia|exact Hk4]].
        intros g _. unfold plus. repeat case_decide; lia. }
      assert (length (k_ftable k5) = length (k_ftable k1)) as E5.
      { transitivity (length (k_ftable k4)); [apply length_insert|]. change (k_ftable k4) with (k_ftable k3). by rewrite E3. }
      apply wlp_bind, wlp_modify, wlp_ret. set (k6 := set_ftable _ k5).
      assert (length (k_ftable k6) = length (k_ftable k5)) as E6 by apply length_insert.
      rewrite E6, E5. split_and!; [lia|lia|].
      eapply files_ok_ext; [|eapply (set_file_ok _ k5 f1 _ 0); [rewrite E5; lia|simpl; lia|exact Hk5]].
      intros g _. unfold plus. repeat case_decide; lia.
  - apply wlp_bind. eapply wlp_mono; [eapply (fileclose_ok kend _ _ f0); [|rewrite E2; lia|exact H2]; apply Hsl; count_refs|].
    intros _ k3 [Hk3 _]. apply wlp_bind, wlp_ret, wlp_ret. eapply files_ok_ext; [|exact Hk3].
    intros g _. unfold plus, no_extra. repeat case_decide; lia.
Qed.

Lemma pipe_fail_ok k rf wf e : sleeps (plus e rf (-1)) → sleeps (plus (plus e rf (-1)) wf (-1)) → (rf < length (k_ftable k))%nat → (wf < length (k_ftable k))%nat →
  files_ok e k → wlp (Sysfile.pipe_fail kend rf wf) k (λ _, files_ok (plus (plus e rf (-1)) wf (-1))).
Proof.
  intros Hs1 Hs2 Hr Hw Hk. unfold Sysfile.pipe_fail. apply wlp_bind. eapply wlp_mono; [by eapply (fileclose_ok kend _ _ rf)|].
  intros _ k1 [Hk1 (_ & E1 & _)]. apply wlp_bind. eapply wlp_mono; [eapply (fileclose_ok kend _ _ wf); [done|by rewrite E1|exact Hk1]|].
  intros _ k2 [Hk2 _]. by apply wlp_ret.
Qed.

Lemma sys_pipe_ok k : (∀ e, few e → sleeps e) → files_ok no_extra k → wlp (Sysfile.sys_pipe kend) k (λ _, files_ok no_extra).
Proof.
  intros Hsl Hk. unfold Sysfile.sys_pipe. apply wlp_bind. eapply wlp_keeps; [apply keeps_argptr|exact Hk|by apply Hsl|].
  intros [fd|] k1 Hk1 _ _ _; [|by apply wlp_ret]. apply wlp_bind. eapply wlp_mono; [by apply pipealloc_ok|].
  intros [[rf wf]|] k2 H2; [|by apply wlp_ret]. destruct H2 as (Hr & Hw & Hk2).
  apply wlp_bind. eapply wlp_mono; [by eapply (fdalloc_ok _ _ rf)|]. intros [fd0|] k3 (E3 & P3 & H3).
  2:{ subst k3. eapply wlp_mono; [eapply pipe_fail_ok; [| |done|done|exact Hk2]; apply Hsl; count_refs|]. intros r k4 Hk4. eapply files_ok_ext; [|exact Hk4].
      intros g _. unfold plus, no_extra. repeat case_decide; lia. }
  destruct H3 as [Hk3 Hfd0]. apply wlp_bind. eapply wlp_mono; [eapply (fdalloc_ok _ _ wf); [by rewrite E3|exact Hk3]|].
  intros [fd1|] k4 (E4 & P4 & H4).
  - destruct H4 as [Hk4 _]. apply wlp_bind. eapply wlp_keeps; [apply keeps_ustore|exact Hk4|apply Hsl; count_refs|]. intros _ k5 Hk5 _ _ _.
    apply wlp_bind. eapply wlp_keeps; [apply keeps_ustore|exact Hk5|apply Hsl; count_refs|]. intros _ k6 Hk6 _ _ _. apply wlp_ret.
    eapply files_ok_ext; [|exact Hk6]. intros g _. unfold plus, no_extra. repeat case_decide; lia.
  - subst k4. destruct Hfd0 as (i & Hi & Hlt & Ho). apply wlp_bind. eapply wlp_mono; [by eapply (set_ofile_ok _ _ fd0 None)|].
    intros _ k4 (i' & Hi' & _ & E4' & _ & Hk4). assert (i' = i) as -> by congruence. rewrite Ho in Hk4.
    eapply wlp_mono; [eapply (pipe_fail_ok k4 rf wf); [| |by rewrite E4', E3|by rewrite E4', E3|exact Hk4]; apply Hsl; count_refs|].
    intros r k5 Hk5. eapply files_ok_ext; [|exact Hk5]. intros g _. unfold plus, no_extra, points.
    rewrite (decide_False (P := None = Some g)) by done. repeat case_decide; simplify_eq; lia.
Qed.

(** ** fork *)

Lemma files_ok_procs e k k' : k_ftable k' = k_ftable k → pt_proc (k_ptab k') = pt_proc (k_ptab k) → k_proc k' = k_proc k →
  files_ok e k → files_ok e k'.
Proof.
  intros E1 E2 E3 []. unfold valid, pst, proc_at in *.
  constructor; unfold fds_of, valid, pst, proc_at; rewrite ?E1, ?E2, ?E3; done.
Qed.

(** The slot that a fork fills: it is not the current process. *)
Definition new_slot k (np : nat) : Prop := valid (k_ptab k) np ∧ pst (k_ptab k) np = EMBRYO ∧ k_proc k ≠ Some np.

(** Updates of the new slot that leave its descriptors alone. *)
Lemma upd_new_ok e k np g : new_slot k np → (∀ p, p_ofile (g p) = p_ofile p) → (∀ p, p_state (g p) = p_state p) →
  files_ok e k → wlp (upd_at np g) k (λ _ k', files_ok e k' ∧ new_slot k' np ∧ k_ftable k' = k_ftable k ∧
    k_proc k' = k_proc k ∧ (∀ i, k_proc k = Some i → proc_at (k_ptab k') i = proc_at (k_ptab k) i) ∧
    p_ofile (proc_at (k_ptab k') np) = p_ofile (proc_at (k_ptab k) np)).
Proof.
  intros (Hv & Hs & Hne) Hg Hg' Hk. apply wlp_modify. split_and!; [|split_and!|done|done| |].
  - apply upd_proc_ok; [done|done|left; apply Hg'|done].
  - unfold valid. simpl. by rewrite length_insert.
  - simpl. rewrite pst_upd, decide_True, Hg' by done. exact Hs.
  - done.
  - intros i Hi. simpl. rewrite proc_at_upd, decide_False by (done || congruence). done.
  - simpl. rewrite proc_at_upd, decide_True, Hg by done. done.
Qed.

(** The fork fails and the slot becomes free again. *)
Lemma upd_unused_ok e k np : new_slot k np → p_ofile (proc_at (k_ptab k) np) = replicate (Z.to_nat NOFILE) None →
  files_ok e k → wlp (upd_at np (p_set_state UNUSED)) k (λ _, files_ok e).
Proof. intros (Hv & Hs & Hne) Ho Hk. apply wlp_modify. apply upd_proc_ok; [done|done|by right|done]. Qed.

Lemma allocproc_ok e k : sleeps e → files_ok e k → wlp (Proc.allocproc forkret_addr) k (λ r k',
  files_ok e k' ∧ match r with
  | Some np => new_slot k' np ∧ p_ofile (proc_at (k_ptab k') np) = replicate (Z.to_nat NOFILE) None
  | None => True
  end).
Proof.
  intros Hsl Hk. unfold Proc.allocproc. apply wlp_bind, wlp_kget.
  destruct (Proc.alloc_slot (k_ptab k)) as [[np t]|] eqn:E; [|by apply wlp_ret].
  pose proof (alloc_slot_Some _ _ _ E) as [Hv Hu Hl _ _ Hat]. apply wlp_bind, wlp_modify. set (k1 := set_ptab t k).
  assert (p_ofile (proc_at (k_ptab k) np) = replicate (Z.to_nat NOFILE) None) as Ho by (eapply fo_clean; [done|done|by left]).
  assert (k_proc k ≠ Some np) as Hne by (intros Hc; destruct (fo_cur _ _ Hk np Hc); congruence).
  assert (files_ok e k1) as Hk1.
  { eapply files_ok_procs; [..|apply (upd_proc_ok e k np (Proc.init_slot (pt_nextpid (k_ptab k))) Hv); [done|by right|exact Hk]].
    - done.
    - by apply bind_Some in E as (i & _ & [= -> <-]).
    - done. }
  assert (new_slot k1 np) as Hn1.
  { split_and!; [unfold valid; simpl; by rewrite Hl| |done]. unfold pst. simpl. rewrite Hat, decide_True by done. done. }
  assert (p_ofile (proc_at (k_ptab k1) np) = replicate (Z.to_nat NOFILE) None) as Ho1.
  { simpl. rewrite Hat, decide_True by done. exact Ho. }
  apply wlp_bind. eapply wlp_keeps; [apply keeps_mem|exact Hk1|done|]. intros s k2 Hk2 E2 F2 G2.
  assert (new_slot k2 np) as Hn2 by (unfold new_slot; by rewrite E2, G2).
  apply wlp_bind. eapply wlp_mono; [by apply (upd_new_ok e)|]. intros _ k3 (Hk3 & Hn3 & _ & _ & _ & Ho3).
  rewrite E2, Ho1 in Ho3. destruct (s =? 0).
  - apply wlp_bind. eapply wlp_mono; [by apply (upd_unused_ok e)|]. intros r k4 Hk4. by apply wlp_ret.
  - apply wlp_bind. eapply wlp_mono; [by apply (upd_new_ok e)|]. intros _ k4 (Hk4 & Hn4 & _ & _ & _ & Ho4).
    apply wlp_ret. rewrite Ho3 in Ho4. done.
Qed.

Lemma wlp_kfor (n : nat) (i : Z) (body : Z → kM (kernel T) unit) (I : Z → kernel T → Prop) s :
  I i s → (∀ j t, i ≤ j < i + Z.of_nat n → I j t → wlp (body j) t (λ _, I (j + 1))) →
  wlp (kfor n i body) s (λ _, I (i + Z.of_nat n)).
Proof.
  revert i s. induction n as [|n IH]; intros i s Hi Hb; cbn [kfor].
  - apply wlp_ret. by rewrite Z.add_0_r.
  - apply wlp_bind. eapply wlp_mono; [apply Hb; [lia|done]|]. intros [] t Ht.
    eapply wlp_mono; [apply IH; [exact Ht|intros; apply Hb; [lia|done]]|]. intros [] u.
    by replace (i + 1 + Z.of_nat n) with (i + Z.of_nat (S n)) by lia.
Qed.

(** The child has the first [j] descriptors. *)
Definition dup_inv (np : nat) (j : Z) k : Prop := files_ok no_extra k ∧ new_slot k np ∧
  ∀ fd, j ≤ Z.of_nat fd < NOFILE → p_ofile (proc_at (k_ptab k) np) !!! fd = None.

Lemma dup_fd_ok np j k : 0 ≤ j < NOFILE → dup_inv np j k → wlp (Proc.dup_fd np j) k (λ _, dup_inv np (j + 1)).
Proof.
  intros Hj (Hk & Hn & Ho). pose proof Hn as (Hv & Hs & Hne). unfold Proc.dup_fd. apply wlp_bind, cur_wlp. intros i Hi.
  destruct (p_ofile (proc_at (k_ptab k) i) !!! Z.to_nat j) as [f|] eqn:E.
  2:{ apply wlp_ret. split_and!; [done|done|]. intros fd Hfd. apply Ho. lia. }
  assert (f < length (k_ftable k))%nat as Hf.
  { eapply (fd_is_file _ k (Z.to_nat j) f Hk). exists i. split_and!; [done|lia|done]. }
  apply wlp_bind. eapply wlp_mono; [by apply (filedup_ok no_extra)|]. intros g k1 (-> & E1 & P1 & L1 & Hk1).
  apply wlp_modify. assert (length (p_ofile (proc_at (k_ptab k) np)) = Z.to_nat NOFILE) as Hlen
    by (by eapply fo_len).
  split_and!; [|split_and!|].
  - eapply files_ok_ext; [|eapply (ofile_ok _ k1 np (Z.to_nat j) (Some f)); rewrite ?E1; [done|lia|congruence|congruence| |exact Hk1]].
    + intros g _. rewrite E1, (Ho (Z.to_nat j)) by lia. unfold plus, no_extra, points.
      rewrite (decide_False (P := None = Some g)) by done. repeat case_decide; simplify_eq; lia.
    + intros g [= <-]. by rewrite L1.
  - unfold valid in *. simpl. rewrite E1. by rewrite length_insert.
  - simpl. rewrite E1, pst_upd, decide_True by done. exact Hs.
  - simpl. congruence.
  - intros fd Hfd. simpl. rewrite E1, proc_at_upd, decide_True by done. simpl.
    rewrite arr_insert_ne by lia. apply Ho. lia.
Qed.

Lemma sys_fork_ok k : sleeps no_extra → files_ok no_extra k → wlp (Sysproc.sys_fork kend data forkret_addr) k (λ _, files_ok no_extra).
Proof.
  intros Hsl Hk. unfold Sysproc.sys_fork, Proc.fork. apply wlp_bind. eapply wlp_mono; [by apply (allocproc_ok no_extra)|].
  intros [np|] k1 [Hk1 H1]; [|by apply wlp_ret]. destruct H1 as [Hn1 Ho1].
  apply wlp_bind, myproc_wlp. intros i Hi. apply wlp_bind, cur_wlp. intros i' _. apply wlp_bind, cur_wlp. intros i'' _.
  apply wlp_bind. eapply wlp_keeps; [apply keeps_mem|exact Hk1|done|]. intros d k2 Hk2 E2 _ G2.
  assert (new_slot k2 np) as Hn2 by (unfold new_slot; by rewrite E2, G2). rewrite <- E2 in Ho1.
  apply wlp_bind. eapply wlp_mono; [by apply (upd_new_ok no_extra)|]. intros rk3 k3 (Hk3 & Hn3 & _ & _ & _ & Ho3).
  rewrite Ho1 in Ho3. destruct (d =? 0).
  - apply wlp_bind, wlp_gets, wlp_bind. eapply wlp_keeps; [apply keeps_mem|exact Hk3|done|]. intros rk4 k4 Hk4 E4 _ G4.
    assert (new_slot k4 np) as Hn4 by (unfold new_slot; by rewrite E4, G4). rewrite <- E4 in Ho3.
    apply wlp_bind. eapply wlp_mono; [by apply (upd_new_ok no_extra)|]. intros rk5 k5 (Hk5 & Hn5 & _ & _ & _ & Ho5).
    apply wlp_bind. eapply wlp_mono; [apply (upd_unused_ok no_extra); [done|congruence|done]|]. intros r k6 Hk6. by apply wlp_ret.
  - apply wlp_bind. eapply wlp_mono; [by apply (upd_new_ok no_extra)|]. intros rk4 k4 (Hk4 & Hn4 & _ & _ & _ & Ho4).
    apply wlp_bind. eapply wlp_mono; [by apply (upd_new_ok no_extra)|]. intros rk5 k5 (Hk5 & Hn5 & _ & _ & _ & Ho5).
    apply wlp_bind, cur_wlp. intros i3 _.
    apply wlp_bind. eapply wlp_mono; [by apply (upd_new_ok no_extra)|]. intros rk6 k6 (Hk6 & Hn6 & _ & _ & _ & Ho6).
    apply wlp_bind. eapply wlp_mono; [apply (wlp_kfor _ _ _ (dup_inv np) k6)|].
    + split_and!; [done|done|]. intros fd Hfd. rewrite Ho6, Ho5, Ho4, Ho3. apply lookup_total_replicate_2. lia.
    + intros j u Hj. apply dup_fd_ok. unfold NOFILE in *. lia.
    + intros rk7 k7 (Hk7 & Hn7 & _). unfold Proc.dup_cwd. apply wlp_bind, wlp_bind, cur_wlp. intros i4 _.
      destruct (p_cwd _) as [ip|]; [|apply wlp_panic]. apply wlp_bind.
      eapply wlp_keeps; [apply keeps_fs|exact Hk7|done|]. intros ip' k8 Hk8 E8 _ G8.
      assert (new_slot k8 np) as Hn8 by (unfold new_slot; by rewrite E8, G8).
      eapply wlp_mono; [by apply (upd_new_ok no_extra)|]. intros rk9 k9 (Hk9 & Hn9 & _).
      apply wlp_bind, cur_wlp. intros i5 _. apply wlp_bind. eapply wlp_mono; [by apply (upd_new_ok no_extra)|].
      intros rk10 k10 (Hk10 & (Hv & Hs & Hne) & _). apply wlp_bind, wlp_gets, wlp_bind, wlp_modify, wlp_ret.
      apply upd_proc_ok; [done|done|right; split; [done|by intros [?|?]]|done].
Qed.

(** The descriptors that exit has closed. *)
Definition close_inv (i : nat) (j : Z) k : Prop := files_ok no_extra k ∧ k_proc k = Some i ∧
  ∀ fd, Z.of_nat fd < j → p_ofile (proc_at (k_ptab k) i) !!! fd = None.

Lemma close_fd_ok i j k : (∀ f, sleeps (plus no_extra f (-1))) → 0 ≤ j < NOFILE → close_inv i j k → wlp (Proc.close_fd kend j) k (λ _, close_inv i (j + 1)).
Proof.
  intros Hsl Hj (Hk & Hi & Ho). destruct (fo_cur _ _ Hk i Hi) as [Hv Hs]. unfold Proc.close_fd. apply wlp_bind, cur_wlp.
  intros i' Hi'. assert (i' = i) as -> by congruence.
  destruct (p_ofile (proc_at (k_ptab k) i) !!! Z.to_nat j) as [f|] eqn:E.
  2:{ apply wlp_ret. split_and!; [done|done|]. intros fd Hfd.
      destruct (decide (fd = Z.to_nat j)) as [->|Hne]; [done|]. apply Ho. lia. }
  assert (f < length (k_ftable k))%nat as Hf.
  { eapply (fd_is_file _ k (Z.to_nat j) f Hk). exists i. split_and!; [done|lia|done]. }
  apply wlp_bind. eapply wlp_mono; [by apply (fileclose_ok kend no_extra)|]. intros rk1 k1 [Hk1 (P1 & L1 & S1)].
  destruct (S1 i Hv) as [Hv1 Ho1]. eapply wlp_mono; [eapply (set_ofile_ok _ k1 (Z.to_nat j) None); [lia|done|exact Hk1]|].
  intros rk2 k2 (i' & Hi1 & Hi2 & _ & Ho2 & Hk2). assert (i' = i) as -> by congruence. split.
  - eapply files_ok_ext; [|exact Hk2]. intros g _. rewrite Ho1, E. unfold plus, no_extra, points.
    rewrite (decide_False (P := None = Some g)) by done. repeat case_decide; simplify_eq; lia.
  - split; [done|]. intros fd Hfd. rewrite Ho2, Ho1. rewrite arr_insert by (rewrite (fo_len _ _ Hk i Hv); lia).
    case_decide; [done|]. apply Ho. lia.
Qed.

Lemma close_all_ok k i : (∀ f, sleeps (plus no_extra f (-1))) → files_ok no_extra k → k_proc k = Some i →
  wlp (kfor (Z.to_nat NOFILE) 0 (Proc.close_fd kend)) k (λ _, close_inv i NOFILE).
Proof.
  intros Hsl Hk Hi. eapply wlp_mono; [apply (wlp_kfor _ _ _ (close_inv i) k)|].
  - split_and!; [done|done|lia].
  - intros j t Hj. apply close_fd_ok; [done|]. unfold NOFILE in *. lia.
  - intros r k' H. exact H.
Qed.

(** ** exit *)

(** The table of exit: children change their parent, sleepers wake up. *)
Definition slot_kept e k (i : nat) (t : ptab) : Prop := files_ok e (set_ptab t k) ∧ length (pt_proc t) = length (pt_proc (k_ptab k)) ∧
  p_ofile (proc_at t i) = p_ofile (proc_at (k_ptab k) i).

Lemma wakeup_kept e k i t c : valid (k_ptab k) i → slot_kept e k i t → slot_kept e k i (wakeup1 c t).
Proof.
  intros Hv (H1 & H2 & H3). split_and!; [exact (wakeup_ok e (set_ptab t k) c H1)|by rewrite length_wakeup1|].
  rewrite <- H3. destruct (wakeup1_slot c t i) as [->|[_ ->]]; [unfold valid in *; lia|done|done].
Qed.

Lemma parent_kept e k i t j q : valid (k_ptab k) i → valid (k_ptab k) j → slot_kept e k i t → slot_kept e k i (upd_proc j (p_set_parent q) t).
Proof.
  intros Hv Hj (H1 & H2 & H3). assert (valid t j) as Hj' by (unfold valid in *; lia). split_and!.
  - apply (upd_proc_ok e (set_ptab t k) j (p_set_parent q)); [done|done|by left|done].
  - by rewrite length_upd_proc.
  - rewrite proc_at_upd by done. case_decide; [by subst|done].
Qed.

Lemma reparent_kept e k i n : valid (k_ptab k) i → ∀ j t, (j + n)%nat = length (pt_proc (k_ptab k)) →
  slot_kept e k i t → slot_kept e k i (Proc.reparent_loop n j i t).
Proof.
  intros Hv. induction n as [|n IH]; intros j t Hn Ht; [done|]. cbn [Proc.reparent_loop]. apply IH; [lia|].
  destruct (Proc.is_child _ _); [|done]. cbv zeta. assert (slot_kept e k i (upd_proc j (p_set_parent (pt_initproc t)) t)) as Ht1
    by (apply parent_kept; [done|unfold valid; lia|done]).
  destruct (Proc.is_state _ _); [|done]. destruct (pt_initproc _); [by apply wakeup_kept|done].
Qed.

Lemma exit_table_ok e k i : valid (k_ptab k) i → p_ofile (proc_at (k_ptab k) i) = replicate (Z.to_nat NOFILE) None →
  files_ok e k → asleep e (set_ptab (Proc.exit_table i (k_ptab k)) k).
Proof.
  intros Hv Ho Hk. assert (files_ok e (set_proc None k)) as Hk' by (destruct Hk; by constructor).
  assert (slot_kept e (set_proc None k) i (k_ptab k)) as H0 by (split_and!; [exact Hk'|done|done]).
  unfold Proc.exit_table. cbv zeta.
  set (t1 := match p_parent (proc_at (k_ptab k) i) with Some q => wakeup1 (ChProc q) (k_ptab k) | None => k_ptab k end).
  assert (slot_kept e (set_proc None k) i t1) as H1 by (unfold t1; destruct (p_parent _); [by apply wakeup_kept|done]).
  destruct (reparent_kept e (set_proc None k) i (length (pt_proc t1)) Hv 0 t1) as (H2 & L2 & O2); [by destruct H1 as (_ & -> & _)|done|].
  set (t2 := Proc.reparent_loop _ 0 i t1) in *.
  apply (upd_proc_ok e (set_ptab t2 (set_proc None k)) i (p_set_state ZOMBIE)); [|done| |exact H2].
  - unfold valid in *. cbn in *. lia.
  - right. split; [done|]. intros _. change (p_ofile (proc_at t2 i) = replicate (Z.to_nat NOFILE) None). rewrite O2. exact Ho.
Qed.

Lemma all_closed k i : files_ok no_extra k → valid (k_ptab k) i →
  (∀ fd, Z.of_nat fd < NOFILE → p_ofile (proc_at (k_ptab k) i) !!! fd = None) →
  p_ofile (proc_at (k_ptab k) i) = replicate (Z.to_nat NOFILE) None.
Proof.
  intros Hk Hv Ho. pose proof (fo_len _ _ Hk i Hv) as Hl. symmetry. apply replicate_as_elem_of. split; [done|]. intros x (fd & Hfd)%list_elem_of_lookup.
  rewrite <- (Ho fd); [by rewrite (list_lookup_total_correct _ _ _ Hfd)|]. apply lookup_lt_Some in Hfd. lia.
Qed.

(** exit never returns, and in each of its sleeps, the last one included, the counts
    are exact but for the file that it is closing. *)
Lemma exit_ok {A} k : sleeps no_extra → (∀ f, sleeps (plus no_extra f (-1))) → files_ok no_extra k →
  wlp (Proc.exit kend : kM (kernel T) A) k (λ _ _, False).
Proof.
  intros Hsl Hsc Hk. unfold Proc.exit. apply wlp_bind, myproc_wlp. intros i Hi. apply wlp_bind, wlp_gets.
  case_decide; [apply wlp_panic|]. apply wlp_bind. eapply wlp_mono; [by apply (close_all_ok k i)|].
  intros _ k1 (Hk1 & Hi1 & Hc1). destruct (fo_cur _ _ Hk1 i Hi1) as [Hv1 _].
  pose proof (all_closed k1 i Hk1 Hv1 Hc1) as Ho1.
  apply wlp_bind. eapply wlp_keeps; [apply keeps_fs|exact Hk1|done|]. intros _ k2 Hk2 E2 _ P2.
  apply wlp_bind, cur_wlp. intros i2 Hi2. assert (i2 = i) as -> by congruence.
  apply wlp_bind. destruct (p_cwd _) as [ip|]; [|apply wlp_panic].
  eapply wlp_keeps; [apply keeps_fs|exact Hk2|done|]. intros _ k3 Hk3 E3 _ P3.
  apply wlp_bind. eapply wlp_keeps; [apply keeps_fs|exact Hk3|done|]. intros _ k4 Hk4 E4 _ P4.
  unfold upd_cur, upd_at. apply wlp_bind, wlp_bind, myproc_wlp. intros i4 Hi4. assert (i4 = i) as -> by congruence.
  destruct (fo_cur _ _ Hk4 i Hi4) as [Hv4 Hs4]. apply wlp_modify, wlp_bind, wlp_modify. set (k5 := set_ptab _ k4).
  assert (files_ok no_extra k5) as Hk5 by (apply upd_proc_ok; [done|done|by left|done]).
  assert (asleep no_extra (set_ptab (Proc.exit_table i (k_ptab k5)) k5)) as Hz.
  { apply exit_table_ok; [unfold valid in *; simpl; by rewrite length_insert| |done].
    simpl. rewrite proc_at_upd, decide_True by done. simpl. by rewrite E4, E3, E2. }
  unfold Proc.sched. apply wlp_bind, cur_wlp. intros i6 _. case_decide; [apply wlp_panic|]. by apply Hsl.
Qed.
End syscalls.

(** ** The claim *)

Inductive fdop := OpDup | OpClose | OpOpen | OpPipe | OpFork | OpExit.

Section claim.
Context {T : Type} `{!BlockIO T} `{!TxnIO T} `{!OpIO T}.
Variables (kend data forkret_addr : Z) (dsw : Fs.devsw T).

(** The calls that change descriptors. *)
Definition run_fdop (o : fdop) : kM (kernel T) Z :=
  match o with
  | OpDup => Sysfile.sys_dup
  | OpClose => Sysfile.sys_close kend
  | OpOpen => Sysfile.sys_open kend dsw
  | OpPipe => Sysfile.sys_pipe kend
  | OpFork => Sysproc.sys_fork kend data forkret_addr
  | OpExit => Proc.exit kend
  end.

(** The references in hand when the call sleeps: none; in pipe at most two to a
    file; and in exit one file may have been closed before its descriptor is cleared. *)
Definition in_hand (o : fdop) (e : nat → Z) : Prop :=
  match o with
  | OpPipe => ∀ f, 0 ≤ e f ≤ 2
  | OpExit => e = no_extra ∨ ∃ f, e = plus no_extra f (-1)
  | _ => e = no_extra
  end.

(** C15. The reference count of every open file is the number of descriptors that
    point to it, over all processes.  [dup], [close], [open], [pipe], [fork] and [exit]
    keep this on every path on which they return, errors included; so no file is
    closed while a descriptor points to it and none is left open without one.  Where
    they put the process to sleep, and in exit also where it leaves for good as a
    zombie without descriptors, the counts are exact as well, with two exceptions:
    [pipe] may have new files in hand, and [exit] closes a file before it clears the
    descriptor.  How a call goes on after a sleep is not part of the model. *)
Theorem file_references_exact (o : fdop) (k : kernel T) : files_ok no_extra k →
  match run_fdop o k with
  | Ok _ k' => files_ok no_extra k'
  | Sleep _ k' => ∃ e, in_hand o e ∧ files_ok e (set_proc None k')
  | Panic _ => True
  end.
Proof.
  intros Hk. set (R := λ k' : kernel T, ∃ e, in_hand o e ∧ asleep e k').
  assert (∀ e, in_hand o e → sleeps (R := R) e) as Hsl by (intros e He k' Hk'; by exists e).
  change (wlpR R (run_fdop o) k (λ _, files_ok no_extra)). destruct o; simpl.
  - apply sys_dup_ok; [by apply Hsl|done].
  - apply sys_close_ok; [by apply Hsl|done].
  - apply sys_open_ok; [by apply Hsl|done].
  - apply sys_pipe_ok; [exact Hsl|done].
  - apply sys_fork_ok; [by apply Hsl|done].
  - eapply wlp_mono; [apply exit_ok; [by apply Hsl; left|intros f; apply Hsl; right; by exists f|done]|done].
Qed.
End claim.

(** ** A process with one open file *)

#[local] Existing Instances Bio.bio_ops Log.log_block_ops.

Definition fd_proc : proc :=
  p_set_state RUNNING (p_set_ofile (<[2%nat := Some 0%nat]> (replicate (Z.to_nat NOFILE) None)) arg_proc).
Definition fd_kernel : kernel (Log.lstate Bio.bcache) :=
  set_ptab (mkPtab [fd_proc; proc_zero] 3 None) (arg_kernel 2 0 read_fs [mkFile FD_INODE 1 1 0 0 0 0; mkFile FD_NONE 0 0 0 0 0 0]).

Lemma fd_kernel_ok : files_ok no_extra fd_kernel.
Proof.
  split.
  - intros [|[|f]] Hf; [reflexivity..|]. simpl in Hf. lia.
  - intros [|[|i]] Hi; [reflexivity..|]. unfold valid in Hi. simpl in Hi. lia.
  - intros [|[|i]] Hi; [by intros [?|?]|reflexivity|]. unfold valid in Hi. simpl in Hi. lia.
  - intros [|[|i]] fd f Hi Hfd; [| |unfold valid in Hi; simpl in Hi; lia].
    + do 16 (destruct fd as [|fd]; [by vm_compute in Hfd; simplify_eq; simpl; lia|]). by destruct fd.
    + do 16 (destruct fd as [|fd]; [by vm_compute in Hfd|]). by destruct fd.
  - intros i [= <-]. split; [unfold valid; simpl; lia|done].
Qed.

Definition fd_kernel_after (o : fdop) : kernel (Log.lstate Bio.bcache) :=
  match run_fdop 0 0 0 no_devices o fd_kernel with Ok _ k | Sleep _ k => k | Panic _ => fd_kernel end.

(** The process duplicates its descriptor, and has two of them. *)
Lemma file_references_exact_witness :
  f_ref (File.file_at (k_ftable (fd_kernel_after OpDup)) 0) = 2 ∧
  fds_of (fd_kernel_after OpDup) 0 = 2.
Proof.
  assert (f_ref (File.file_at (k_ftable (fd_kernel_after OpDup)) 0) = 2) as E by (vm_compute; reflexivity).
  split; [exact E|]. pose proof (file_references_exact 0 0 0 no_devices OpDup fd_kernel fd_kernel_ok) as H.
  assert (run_fdop 0 0 0 no_devices OpDup fd_kernel = Ok 0 (fd_kernel_after OpDup)) as Er by (vm_compute; reflexivity).
  rewrite Er in H. assert (0 < length (k_ftable (fd_kernel_after OpDup)))%nat as Hl by (vm_compute; lia).
  pose proof (fo_ref _ _ H 0 Hl) as Hr. rewrite E in Hr. unfold no_extra in Hr. lia.
Defined.
