(* ===== verification/FsBlocks.v ===== *)
(** * The block allocator of fs.c

    [balloc], [bfree] and [bzero] over any transaction layer that satisfies
    [TxnSpec], in terms of the free bitmap. *)

From stdpp Require Import base numbers option list gmap strings.
From Stdlib Require Import ZArith Lia ZifyBool.
From S2P Require Import Prelude Bytes CString Block Log Txn Fs.
Import Fs.
Local Open Scope Z_scope.

(** ** Bits of a block *)

Lemma bit_mask_pow bi : bit_mask bi = 2 ^ (bi mod 8).
Proof. unfold bit_mask. rewrite Z.shiftl_1_l. done. Qed.

Lemma bit_used_testbit d bi :
  bit_used d bi = Z.testbit (d !!! Z.to_nat (bi / 8)) (bi mod 8).
Proof.
  unfold bit_used. rewrite bit_mask_pow. pose proof (Z.mod_pos_bound bi 8 ltac:(lia)).
  by rewrite <- flag_testbit by lia.
Qed.

Lemma u8_testbit v i : 0 ≤ i < 8 → Z.testbit (u8 v) i = Z.testbit v i.
Proof. intros. unfold u8. by rewrite Z.mod_pow2_bits_low by lia. Qed.

(** The byte and bit of a bit number determine it. *)
Lemma bit_index_inj i j : 0 ≤ i → 0 ≤ j → Z.to_nat (i / 8) = Z.to_nat (j / 8) → i mod 8 = j mod 8 → i = j.
Proof.
  intros Hi Hj H1 H2. pose proof (Z.div_mod i 8 ltac:(lia)). pose proof (Z.div_mod j 8 ltac:(lia)).
  pose proof (Z.div_pos i 8 Hi ltac:(lia)). pose proof (Z.div_pos j 8 Hj ltac:(lia)). lia.
Qed.

Lemma bit_byte_lt bi (d : block) : 0 ≤ bi < BPB → length d = Z.to_nat BSIZE → (Z.to_nat (bi / 8) < length d)%nat.
Proof.
  intros Hbi ->. unfold BPB, BSIZE in *.
  pose proof (Z.div_lt_upper_bound bi 8 512 ltac:(lia) ltac:(lia)).
  pose proof (Z.div_pos bi 8 ltac:(lia) ltac:(lia)). lia.
Qed.

Lemma bit_used_set d bi j : 0 ≤ bi < BPB → 0 ≤ j → length d = Z.to_nat BSIZE →
  bit_used (bit_set bi d) j = (bi =? j) || bit_used d j.
Proof.
  intros Hbi Hj Hl. pose proof (bit_byte_lt bi d Hbi Hl). rewrite !bit_used_testbit. unfold bit_set.
  pose proof (Z.mod_pos_bound j 8 ltac:(lia)). pose proof (Z.mod_pos_bound bi 8 ltac:(lia)).
  rewrite arr_insert by done. case_decide as E.
  - rewrite u8_testbit, Z.lor_spec, bit_mask_pow, Z.pow2_bits_eqb, orb_comm, E by lia. f_equal.
    destruct (Z.eqb_spec (bi mod 8) (j mod 8)), (Z.eqb_spec bi j); subst; try done.
    by destruct (bit_index_inj bi j); try lia.
  - destruct (Z.eqb_spec bi j); [by subst|done].
Qed.

Lemma bit_used_clear d bi j : 0 ≤ bi < BPB → 0 ≤ j → length d = Z.to_nat BSIZE →
  bit_used (bit_clear bi d) j = negb (bi =? j) && bit_used d j.
Proof.
  intros Hbi Hj Hl. pose proof (bit_byte_lt bi d Hbi Hl). rewrite !bit_used_testbit. unfold bit_clear.
  pose proof (Z.mod_pos_bound j 8 ltac:(lia)). pose proof (Z.mod_pos_bound bi 8 ltac:(lia)).
  rewrite arr_insert by done. case_decide as E.
  - rewrite u8_testbit, Z.land_spec, Z.lnot_spec, bit_mask_pow, Z.pow2_bits_eqb, andb_comm, E by lia.
    f_equal. f_equal.
    destruct (Z.eqb_spec (bi mod 8) (j mod 8)), (Z.eqb_spec bi j); subst; try done.
    by destruct (bit_index_inj bi j); try lia.
  - destruct (Z.eqb_spec bi j); [by subst|done].
Qed.

Lemma length_bit_set bi (d : block) : length (bit_set bi d) = length d.
Proof. apply length_insert. Qed.
Lemma length_bit_clear bi (d : block) : length (bit_clear bi d) = length d.
Proof. apply length_insert. Qed.

Lemma scan_bits_spec n bi b size d :
  match scan_bits n bi b size d with
  | Some r => bi ≤ r < bi + Z.of_nat n ∧ b + r < size ∧ bit_used d r = false ∧
      ∀ j, bi ≤ j < r → bit_used d j = true
  | None => ∀ j, bi ≤ j < bi + Z.of_nat n → b + j < size → bit_used d j = true
  end.
Proof.
  revert bi. induction n as [|n IH]; intros bi; simpl; [intros; lia|].
  destruct (Z.ltb_spec (b + bi) size); [|intros; lia].
  destruct (bit_used d bi) eqn:E; [|split_and!; (done || lia)].
  specialize (IH (bi + 1)). destruct (scan_bits n (bi + 1) b size d) as [r|].
  - destruct IH as (? & ? & ? & Hj). split_and!; [lia|lia|lia|done|]. intros j ?.
    destruct (decide (j = bi)) as [->|]; [done|]. apply Hj. lia.
  - intros j ??. destruct (decide (j = bi)) as [->|]; [done|]. apply IH; lia.
Qed.

(** ** The bitmap *)

(** Block [b] is marked in use in the bitmap of a disk with content [f]. *)
Definition used (ninodes : Z) (f : Z → block) (b : Z) : bool :=
  bit_used (f (BBLOCK b ninodes)) (b mod BPB).

(** [x] is the lowest free block. *)
Definition first_free (sb : superblock) (f : Z → block) (x : Z) : Prop :=
  0 ≤ x < sb_size sb ∧ used (sb_ninodes sb) f x = false ∧
  ∀ y, 0 ≤ y < x → used (sb_ninodes sb) f y = true.

(** The super block, inode and bitmap blocks lie before the data blocks,
    which lie in the home area of [home] blocks. *)
Record geometry (sb : superblock) (home : Z) : Prop := mkGeom {
  ge_ninodes : 0 ≤ sb_ninodes sb;
  ge_size : 0 ≤ sb_size sb < 2 ^ 31;
  ge_home : 2 ≤ home ≤ sb_size sb;
  ge_bitmap : BBLOCK (sb_size sb - 1) (sb_ninodes sb) < home
}.

(** The first data block. *)
Definition data_start (sb : superblock) : Z := BBLOCK (sb_size sb - 1) (sb_ninodes sb) + 1.

Lemma BBLOCK_range sb home b : geometry sb home → 0 ≤ b < sb_size sb →
  3 ≤ BBLOCK b (sb_ninodes sb) < data_start sb ∧ data_start sb ≤ home.
Proof.
  intros [] Hb. unfold data_start, BBLOCK, BPB, BSIZE, IPB, sizeof_dinode, BSIZE in *.
  pose proof (Z.div_pos b (512 * 8) ltac:(lia) ltac:(lia)).
  pose proof (Z.div_pos (sb_ninodes sb) (512 / 64) ltac:(lia) ltac:(done)).
  pose proof (Z.div_le_mono b (sb_size sb - 1) (512 * 8) ltac:(lia) ltac:(lia)). lia.
Qed.

Lemma BBLOCK_add b bi ninodes : b mod BPB = 0 → 0 ≤ bi < BPB →
  BBLOCK (b + bi) ninodes = BBLOCK b ninodes ∧ (b + bi) mod BPB = bi.
Proof.
  intros Hb Hbi. unfold BBLOCK, BPB, BSIZE in *.
  pose proof (Z.div_mod b (512 * 8) ltac:(lia)). rewrite Hb in *.
  replace (b + bi) with (bi + b / (512 * 8) * (512 * 8)) by lia.
  rewrite Z.div_add, Z.mod_add by lia. rewrite Z.div_small, Z.mod_small by lia. split; [lia|done].
Qed.

(** ** The functions *)

Section blocks.
Context {T : Type} `{!BlockIO T} `{!TxnIO T} `{HT : !TxnSpec T}.
Implicit Types (s : T) (W X : gset Z).

(** After logging the blocks [W] there is room for [k] more blocks, counting
    a block for each buffer held. *)
Definition room s W (k : Z) : Prop :=
  Z.of_nat (size (W ∪ tx_logged s)) + Z.of_nat (size (tx_held s)) + k ≤ tx_cap s.

Lemma room_mono s W W' k k' : W ⊆ W' → k ≤ k' → room s W' k' → room s W k.
Proof.
  unfold room. intros HW Hk H.
  assert (size (W ∪ tx_logged s) ≤ size (W' ∪ tx_logged s))%nat by (apply subseteq_size; set_solver).
  lia.
Qed.

Lemma room_step s s' W X f k : tgo s s' (tx_held s) W f → room s (X ∪ W) k → room s' X k.
Proof. intros []. unfold room. rewrite tg_cap, tg_held, tg_logged, (assoc_L (∪)). done. Qed.

Lemma tgo_trans s s1 s2 h1 h2 W1 W2 f1 f2 :
  tgo s s1 h1 W1 f1 → tgo s1 s2 h2 W2 f2 → tgo s s2 h2 (W2 ∪ W1) f2.
Proof.
  intros [] []. constructor; try congruence. rewrite tg_logged0, tg_logged. by rewrite (assoc_L (∪)).
Qed.

Lemma tgo_ext s s' h W W' f f' : tgo s s' h W f → W = W' → (∀ m, f m = f' m) → tgo s s' h W' f'.
Proof. intros [] -> Hf. constructor; try done. intros m. by rewrite <- Hf. Qed.

Lemma delete_insert_held (h : gmap nat Z) b n : h !! b = None → delete b (<[b := n]> h) = h.
Proof. intros. by rewrite delete_insert_id. Qed.

(** Reading a block into a buffer. *)
Lemma bread_run {A} s n (k : nat → kM T A) (Q : A → T → Prop) :
  tx_inv s → 0 ≤ n < tx_home s → n ∉ held_sectors (tx_held s) → room s ∅ 0 →
  (∀ b s1, tx_held s !! b = None → tgo s s1 (<[b := n]> (tx_held s)) ∅ (tx_cur s) →
    buf_data s1 b = tx_cur s n → wp (k b) s1 Q) →
  wp (bread ROOTDEV n ≫= k) s Q.
Proof.
  intros Hi Hn Hh Hr Hk. rewrite wp_bind. wpa tgo_bread; [by apply tgo_refl|done|done| |].
  { unfold room in Hr. pose proof (tx_cap_bound s Hi). lia. }
  intros b s1 (Hb & Ht & Hd). by apply Hk.
Qed.

Lemma readsb_wp s : tx_inv s → 1 < tx_home s → 1 ∉ held_sectors (tx_held s) → room s ∅ 0 →
  wp (readsb ROOTDEV) s (λ sb s', sb = sb_decode (tx_cur s 1) ∧ tgo s s' (tx_held s) ∅ (tx_cur s)).
Proof.
  intros Hi Hn Hh Hr. unfold readsb. apply bread_run; [done|lia|done|done|].
  intros b s1 Hb Ht Hd. rewrite wp_bind, wp_gets, wp_bind, Hd.
  wpa tgo_brelse; [done|apply lookup_insert_eq|done|by right|done|].
  intros _ s2 Ht2. rewrite delete_insert_held in Ht2 by done. by rewrite wp_ret.
Qed.

(** The content of the held block [n] is replaced by [d]; the block is logged
    and released. *)
Lemma update_run s n b s1 d : tx_inv s → 2 ≤ n < tx_home s →
  n ∉ held_sectors (tx_held s) → room s ∅ 1 → tx_held s !! b = None →
  length d = Z.to_nat BSIZE → tgo s s1 (<[b := n]> (tx_held s)) ∅ (tx_cur s) →
  wp (_ ← log_write b; brelse b) (set_buf_data b d s1)
    (λ _ s', tgo s s' (tx_held s) {[n]} (fupd (tx_cur s) n d)).
Proof.
  intros Hi Hn Hh Hr Hb Hl Ht. rewrite wp_bind.
  assert (<[b := n]> (tx_held s) !! b = Some n) as Hbn by apply lookup_insert_eq.
  pose proof (tgo_set _ _ _ _ _ _ _ _ Ht Hbn Hl) as Ht1.
  wpa tgo_log_write; [done|done|lia| |].
  { unfold room in Hr. lia. }
  intros _ s2 Ht2. rewrite (right_id_L ∅ (∪)) in Ht2.
  wpa tgo_brelse; [done|done|done|left; set_solver|done|].
  intros _ s3 Ht3. by rewrite delete_insert_held in Ht3.
Qed.

Lemma bzero_wp s n : tx_inv s → 2 ≤ n < tx_home s → n < 2 ^ 32 →
  n ∉ held_sectors (tx_held s) → room s ∅ 1 →
  wp (bzero ROOTDEV n) s (λ _ s', tgo s s' (tx_held s) {[n]} (fupd (tx_cur s) n zero_block)).
Proof.
  intros Hi Hn Hu Hh Hr. unfold bzero. rewrite u32_small by lia.
  apply bread_run; [done|lia|done|by eapply room_mono; [|..|exact Hr]; [done|lia]|].
  intros b s1 Hb Ht Hd. rewrite wp_bind, wp_modify. by apply update_run.
Qed.

(** The content after [balloc] returns [x]. *)
Definition alloc_cur (ninodes x : Z) (f : Z → block) : Z → block :=
  fupd (fupd f (BBLOCK x ninodes) (bit_set (x mod BPB) (f (BBLOCK x ninodes)))) x zero_block.

Section alloc.
Variables (s0 : T) (sb : superblock) (x : Z).
Hypothesis Hgeo : geometry sb (tx_home s0).
Hypothesis Hfree : first_free sb (tx_cur s0) x.
Hypothesis Hx : data_start sb ≤ x < tx_home s0.
Hypothesis Hxh : x ∉ held_sectors (tx_held s0).
Hypothesis Hbh : ∀ b, 0 ≤ b < sb_size sb → BBLOCK b (sb_ninodes sb) ∉ held_sectors (tx_held s0).
Hypothesis Hroom : room s0 {[BBLOCK x (sb_ninodes sb)]} 1.

(** The loop, started at a bitmap block below or at that of [x]. *)
Lemma balloc_loop_wp n s b : tx_inv s → tgo s0 s (tx_held s0) ∅ (tx_cur s0) →
  0 ≤ b → b mod BPB = 0 → b ≤ x < b + Z.of_nat n * BPB →
  wp (balloc_loop n ROOTDEV b sb) s (λ r s', r = x ∧
    tgo s0 s' (tx_held s0) {[x; BBLOCK x (sb_ninodes sb)]} (alloc_cur (sb_ninodes sb) x (tx_cur s0))).
Proof using All.
  destruct Hfree as ([Hx0 Hxs] & Hxf & Hxl). pose proof (ge_size _ _ Hgeo) as Hsz.
  revert s b. induction n as [|n IH]; intros s b Hi Ht Hb0 Hbm Hxb; [lia|]. cbn [balloc_loop].
  pose proof (BBLOCK_range sb _ b Hgeo ltac:(lia)) as Hbr. pose proof (tg_home _ _ _ _ _ Ht) as Eh.
  pose proof (tg_held _ _ _ _ _ Ht) as Ed. pose proof (tg_cur _ _ _ _ _ Ht) as Ec.
  assert (room s {[BBLOCK x (sb_ninodes sb)]} 1) as Hr.
  { eapply room_step; [done|]. by rewrite (right_id_L ∅ (∪)). }
  apply bread_run; [done|lia|rewrite Ed; apply Hbh; lia|by eapply room_mono; [|..|exact Hr]; [set_solver|lia]|].
  intros bp s1 Hbp Ht1 Hd1. rewrite wp_bind, wp_gets, Hd1, Ec.
  pose proof (scan_bits_spec (Z.to_nat BPB) 0 b (sb_size sb) (tx_cur s0 (BBLOCK b (sb_ninodes sb)))) as Hscan.
  rewrite Z.add_0_l, Z2Nat.id in Hscan by (unfold BPB, BSIZE; lia).
  destruct (scan_bits _ _ _ _ _) as [bi|].
  - destruct Hscan as (Hbi & Hbs & Hbf & Hbl). destruct (BBLOCK_add b bi (sb_ninodes sb) Hbm Hbi) as [E1 E2].
    assert (x = b + bi) as ->. (* the scan stops at the first free bit *)
    { destruct (Z.lt_trichotomy x (b + bi)) as [Hlt|[?|Hgt]]; [|done|].
      - destruct (BBLOCK_add b (x - b) (sb_ninodes sb) Hbm ltac:(lia)) as [F1 F2].
        replace (b + (x - b)) with x in F1, F2 by lia. unfold used in Hxf. rewrite F1, F2, Hbl in Hxf; [done|lia].
      - specialize (Hxl (b + bi) ltac:(lia)). unfold used in Hxl. rewrite E1, E2, Hbf in Hxl. done. }
    rewrite E1 in *.
    assert (length (tx_cur s0 (BBLOCK b (sb_ninodes sb))) = Z.to_nat BSIZE) as Hlen.
    { rewrite <- Ec. apply tx_cur_length; [done|lia]. }
    rewrite wp_bind, wp_modify, Hd1, Ec, wp_bind2.
    wpa (update_run s (BBLOCK b (sb_ninodes sb)) bp s1); try done; [lia|rewrite Ed; apply Hbh; lia| |by rewrite length_bit_set|].
    { eapply room_mono; [|..|exact Hr]; [set_solver|lia]. }
    intros _ s2 Ht2. pose proof (tgo_trans _ _ _ _ _ _ _ _ _ Ht Ht2) as Ht02.
    rewrite Ed, (right_id_L ∅ (∪)) in Ht02. rewrite wp_bind.
    wpa bzero_wp; [apply Ht2|rewrite (tg_home _ _ _ _ _ Ht02); lia|lia|by rewrite (tg_held _ _ _ _ _ Ht02)| |].
    { eapply room_step; [exact Ht02|]. by rewrite (left_id_L ∅ (∪)). }
    intros _ s3 Ht3. rewrite wp_ret. split; [done|].
    pose proof (tgo_trans _ _ _ _ _ _ _ _ _ Ht02 Ht3) as Ht03.
    rewrite (tg_held _ _ _ _ _ Ht02) in Ht03. eapply tgo_ext; [exact Ht03|done|].
    intros m. unfold alloc_cur, fupd. rewrite E1, E2.
    case_decide; [done|]. rewrite (tg_cur _ _ _ _ _ Ht02). unfold fupd. case_decide; [done|]. apply Ec.
  - rewrite wp_bind. wpa tgo_brelse; [done|apply lookup_insert_eq|rewrite Ed; apply Hbh; lia|by right|done|].
    intros _ s2 Ht2. rewrite delete_insert_held in Ht2 by done.
    pose proof (tgo_trans _ _ _ _ _ _ _ _ _ Ht Ht2) as Ht02.
    rewrite Ed, (right_id_L ∅ (∪)) in Ht02.
    assert (b + BPB ≤ x).
    { destruct (decide (x < b + BPB)) as [Hlt|]; [|lia].
      destruct (BBLOCK_add b (x - b) (sb_ninodes sb) Hbm ltac:(lia)) as [F1 F2].
      replace (b + (x - b)) with x in F1, F2 by lia. unfold used in Hxf. rewrite F1, F2, Hscan in Hxf; [done|lia..]. }
    apply IH; [apply Ht2|by eapply tgo_ext|unfold BPB, BSIZE in *; lia| |lia].
    by rewrite <- Z.add_mod_idemp_r, Z.mod_same, Z.add_0_r by (unfold BPB, BSIZE; lia).
Qed.
End alloc.

(** A transaction on a file system with super block [sb], in which only
    buffers of data blocks are held. *)
Record fs_ok (sb : superblock) s : Prop := mkFsOk {
  fo_inv : tx_inv s;
  fo_sb : sb_decode (tx_cur s 1) = sb;
  fo_geo : geometry sb (tx_home s);
  fo_held : ∀ m, m ∈ held_sectors (tx_held s) → data_start sb ≤ m
}.

(** Everything below the data blocks but the super block may change. *)
Lemma fs_ok_step sb s s' W f : fs_ok sb s → tgo s s' (tx_held s) W f → f 1 = tx_cur s 1 → fs_ok sb s'.
Proof.
  intros [] [] H1. constructor; try done.
  - by rewrite tg_cur, H1.
  - by rewrite tg_home.
  - by rewrite tg_held.
Qed.

Lemma data_start_low sb home : geometry sb home → 4 ≤ data_start sb ≤ home.
Proof.
  intros H. pose proof (ge_home _ _ H). pose proof (BBLOCK_range sb home (sb_size sb - 1) H ltac:(lia)). lia.
Qed.

Lemma fs_ok_meta sb s m : fs_ok sb s → m < data_start sb → m ∉ held_sectors (tx_held s).
Proof. intros Hok Hm Hin. apply (fo_held _ _ Hok) in Hin. lia. Qed.

Lemma alloc_cur_other ninodes x f m : m ≠ x → m ≠ BBLOCK x ninodes → alloc_cur ninodes x f m = f m.
Proof. intros. unfold alloc_cur, fupd. by rewrite !decide_False. Qed.

Lemma balloc_wp sb s x : fs_ok sb s → first_free sb (tx_cur s) x →
  data_start sb ≤ x < tx_home s → x ∉ held_sectors (tx_held s) →
  room s {[BBLOCK x (sb_ninodes sb)]} 1 →
  wp (balloc ROOTDEV) s (λ r s', r = x ∧
    tgo s s' (tx_held s) {[x; BBLOCK x (sb_ninodes sb)]} (alloc_cur (sb_ninodes sb) x (tx_cur s))).
Proof.
  intros Hok Hf Hx Hxh Hr. pose proof (data_start_low _ _ (fo_geo _ _ Hok)) as Hds.
  pose proof (ge_size _ _ (fo_geo _ _ Hok)). unfold balloc. rewrite wp_bind.
  wpa readsb_wp; [apply Hok|lia|apply (fs_ok_meta sb); [done|lia]|by eapply room_mono; [|..|exact Hr]; [set_solver|lia]|].
  intros sb' s1 [-> Ht]. rewrite (fo_sb _ _ Hok).
  assert (0 ≤ x < Z.of_nat (Z.to_nat ((sb_size sb + BPB - 1) / BPB)) * BPB) as Hb.
  { destruct Hf as ([? ?] & _). unfold BPB, BSIZE in *.
    pose proof (Z.div_mod (sb_size sb + 512 * 8 - 1) (512 * 8) ltac:(lia)).
    pose proof (Z.mod_pos_bound (sb_size sb + 512 * 8 - 1) (512 * 8) ltac:(lia)). lia. }
  apply balloc_loop_wp; try done; [apply Hok| |apply Ht].
  intros b Hb'. apply (fs_ok_meta sb); [done|].
  by apply (BBLOCK_range _ _ b (fo_geo _ _ Hok)).
Qed.

(** The content after [bfree] of [b]. *)
Definition free_cur (ninodes b : Z) (f : Z → block) : Z → block :=
  fupd f (BBLOCK b ninodes) (bit_clear (b mod BPB) (f (BBLOCK b ninodes))).

Lemma bfree_wp sb s b : fs_ok sb s → 0 ≤ b < sb_size sb → room s ∅ 1 →
  used (sb_ninodes sb) (tx_cur s) b = true →
  wp (bfree ROOTDEV b) s (λ _ s',
    tgo s s' (tx_held s) {[BBLOCK b (sb_ninodes sb)]} (free_cur (sb_ninodes sb) b (tx_cur s))).
Proof.
  intros Hok Hb Hr Hu. pose proof (data_start_low _ _ (fo_geo _ _ Hok)) as Hds.
  destruct (BBLOCK_range _ _ b (fo_geo _ _ Hok) Hb) as [Hbb ?].
  unfold bfree. rewrite wp_bind.
  wpa readsb_wp; [apply Hok|lia|apply (fs_ok_meta sb); [done|lia]|by eapply room_mono; [|..|exact Hr]; [done|lia]|].
  intros sb' s1 [-> Ht]. rewrite (fo_sb _ _ Hok).
  pose proof (tg_home _ _ _ _ _ Ht) as Eh. pose proof (tg_held _ _ _ _ _ Ht) as Ed.
  pose proof (tg_cur _ _ _ _ _ Ht) as Ec.
  assert (room s1 ∅ 1) as Hr1 by (eapply room_step; [exact Ht|by rewrite (left_id_L ∅ (∪))]).
  assert (BBLOCK b (sb_ninodes sb) ∉ held_sectors (tx_held s1)) as Hnh
    by (rewrite Ed; apply (fs_ok_meta sb); [done|lia]).
  apply bread_run; [apply Ht|lia|done|by eapply room_mono; [|..|exact Hr1]; [done|lia]|].
  intros bp s2 Hbp Ht2 Hd2. rewrite wp_bind, wp_gets, Hd2, Ec. unfold used in Hu. rewrite Hu. simpl negb. cbv iota.
  rewrite wp_bind, wp_modify, Hd2, Ec.
  wpa (update_run s1 (BBLOCK b (sb_ninodes sb)) bp s2); try done; [apply Ht|lia| |].
  { rewrite length_bit_clear. apply tx_cur_length; [apply Hok|lia]. }
  intros _ s3 Ht3. pose proof (tgo_trans _ _ _ _ _ _ _ _ _ Ht Ht3) as Ht03. rewrite Ed in Ht03.
  eapply tgo_ext; [exact Ht03|by rewrite (right_id_L ∅ (∪))|].
  intros m. unfold free_cur, fupd. case_decide; [done|]. apply Ec.
Qed.

(** The effect of the two on the bitmap. *)
Lemma used_alloc sb home x f b : geometry sb home → 0 ≤ x < sb_size sb → data_start sb ≤ x →
  (∀ b, 0 ≤ b < sb_size sb → length (f (BBLOCK b (sb_ninodes sb))) = Z.to_nat BSIZE) →
  0 ≤ b < sb_size sb →
  used (sb_ninodes sb) (alloc_cur (sb_ninodes sb) x f) b = (x =? b) || used (sb_ninodes sb) f b.
Proof.
  intros Hg Hx Hds Hl Hb. unfold used, alloc_cur, fupd.
  destruct (BBLOCK_range sb home b Hg Hb). rewrite (decide_False (P := _ = x)) by lia.
  pose proof (Z.mod_pos_bound b BPB ltac:(unfold BPB, BSIZE; lia)).
  pose proof (Z.mod_pos_bound x BPB ltac:(unfold BPB, BSIZE; lia)).
  case_decide as E.
  - rewrite E, bit_used_set by (done || lia || auto). f_equal.
    pose proof (Z.div_mod b BPB ltac:(unfold BPB, BSIZE; lia)).
    pose proof (Z.div_mod x BPB ltac:(unfold BPB, BSIZE; lia)). unfold BBLOCK in E.
    destruct (Z.eqb_spec (x mod BPB) (b mod BPB)), (Z.eqb_spec x b); subst; try done. nia.
  - destruct (Z.eqb_spec x b); [by subst|done].
Qed.

Lemma used_free sb home x f b : geometry sb home → 0 ≤ x < sb_size sb →
  (∀ b, 0 ≤ b < sb_size sb → length (f (BBLOCK b (sb_ninodes sb))) = Z.to_nat BSIZE) →
  0 ≤ b < sb_size sb →
  used (sb_ninodes sb) (free_cur (sb_ninodes sb) x f) b = negb (x =? b) && used (sb_ninodes sb) f b.
Proof.
  intros Hg Hx Hl Hb. unfold used, free_cur, fupd.
  pose proof (Z.mod_pos_bound b BPB ltac:(unfold BPB, BSIZE; lia)).
  pose proof (Z.mod_pos_bound x BPB ltac:(unfold BPB, BSIZE; lia)).
  case_decide as E.
  - rewrite E, bit_used_clear by (done || lia || auto). f_equal. f_equal.
    pose proof (Z.div_mod b BPB ltac:(unfold BPB, BSIZE; lia)).
    pose proof (Z.div_mod x BPB ltac:(unfold BPB, BSIZE; lia)). unfold BBLOCK in E.
    destruct (Z.eqb_spec (x mod BPB) (b mod BPB)), (Z.eqb_spec x b); subst; try done. nia.
  - destruct (Z.eqb_spec x b); [by subst|done].
Qed.
End blocks.
