(* ===== verification/FsFile.v ===== *)
(** * Files: block map, reading and writing (fs.c)

    [bmap], [readi] and [writei] in terms of the bytes of a file. *)

From stdpp Require Import base numbers option list gmap strings.
From Stdlib Require Import ZArith Lia ZifyBool.
From S2P Require Import Prelude Bytes CString Block Log Txn Fs FsBlocks.
Import Fs.
Local Open Scope Z_scope.

(** ** Allocation *)

Section bitmap.
Implicit Types (sb : superblock) (f : Z → block).

(** The blocks of the free bitmap. *)
Definition bitmap_blocks sb : gset Z :=
  list_to_set ((λ b, BBLOCK b (sb_ninodes sb)) <$> seqZ 0 (sb_size sb)).

Lemma bitmap_in sb b : 0 ≤ b < sb_size sb → BBLOCK b (sb_ninodes sb) ∈ bitmap_blocks sb.
Proof.
  intros. apply elem_of_list_to_set, list_elem_of_fmap. exists b. split; [done|].
  apply elem_of_seqZ. lia.
Qed.

Lemma bitmap_range sb home m : geometry sb home → m ∈ bitmap_blocks sb → 3 ≤ m < data_start sb.
Proof.
  intros Hg (b & -> & Hb%elem_of_seqZ)%elem_of_list_to_set%list_elem_of_fmap.
  by destruct (BBLOCK_range sb home b Hg ltac:(lia)).
Qed.

(** The free blocks before the log, in increasing order. *)
Definition free_list sb (home : Z) f : list Z :=
  filter (λ b, used (sb_ninodes sb) f b = false) (seqZ 0 home).

(** The blocks before the data blocks are marked in use, and at least [n] data
    blocks are free.  The blocks of the log, from [home] on, may be marked or not:
    mkfs does not mark them. *)
Record alloc_ok sb (home : Z) f (n : nat) : Prop := mkAllocOk {
  ao_home : data_start sb ≤ home ≤ sb_size sb;
  ao_reserved : ∀ b, 0 ≤ b < data_start sb → used (sb_ninodes sb) f b = true;
  ao_free : (n ≤ length (free_list sb home f))%nat
}.

Lemma filter_seqZ_head (p : Z → bool) a n x l :
  filter (λ b, p b = false) (seqZ a n) = x :: l →
  p x = false ∧ a ≤ x < a + n ∧ ∀ y, a ≤ y < x → p y = true.
Proof.
  destruct (Z.le_gt_cases 0 n) as [Hn|]; [|by rewrite seqZ_nil by lia].
  revert a. pattern n. apply natlike_ind; [..|done]; clear n Hn.
  - intros a. by rewrite seqZ_nil by lia.
  - intros n Hn IH a. rewrite seqZ_cons by lia. rewrite Z.pred_succ.
    rewrite filter_cons. destruct (decide (p a = false)) as [Ha|Ha].
    + intros [= <- _]. split_and!; [done|lia|lia|]. intros; lia.
    + intros (Hx & Hr & Hy)%IH. split_and!; [done|lia|lia|]. intros y Hy'.
      destruct (decide (y = a)) as [->|]; [by destruct (p a)|]. apply Hy. lia.
Qed.

Lemma alloc_first sb home f n : alloc_ok sb home f (S n) →
  ∃ x, first_free sb f x ∧ data_start sb ≤ x < home.
Proof.
  intros [Hh Hres Hn]. unfold free_list in Hn.
  destruct (filter _ (seqZ 0 home)) as [|x l] eqn:E; [simpl in Hn; lia|].
  apply (filter_seqZ_head (used (sb_ninodes sb) f)) in E as (Hx & Hr & Hy).
  exists x. split; [split_and!; [lia|lia|done|done]|]. split; [|lia].
  destruct (Z.lt_ge_cases x (data_start sb)); [|done]. by rewrite Hres in Hx by lia.
Qed.

(** [f'] is [f] after [x] has been allocated; block [e] may have changed too. *)
Record allocated sb f f' (x e : Z) : Prop := mkAllocated {
  al_fresh : used (sb_ninodes sb) f x = false;
  al_zero : f' x = zero_block;
  al_used : ∀ b, 0 ≤ b < sb_size sb → used (sb_ninodes sb) f' b = (x =? b) || used (sb_ninodes sb) f b;
  al_same : ∀ m, m ≠ x → m ≠ e → m ∉ bitmap_blocks sb → f' m = f m
}.

Lemma allocated_ext sb f f' g x e : allocated sb f f' x e → (∀ m, g m = f' m) → allocated sb f g x e.
Proof.
  intros [Hfr Hz Hu Hs] Hg. constructor; [done|by rewrite Hg|..].
  - intros b Hb. rewrite <- Hu by done. unfold used. by rewrite Hg.
  - intros m ???. by rewrite Hg, Hs.
Qed.

Lemma allocated_ext_l sb f g f' x e : (∀ m, f m = g m) → allocated sb f f' x e → allocated sb g f' x e.
Proof.
  intros Hg [Hfr Hz Hu Hs].
  assert (∀ b, used (sb_ninodes sb) g b = used (sb_ninodes sb) f b) as E by (intros; unfold used; by rewrite Hg).
  constructor; [by rewrite E|done|..].
  - intros b Hb. by rewrite Hu, E.
  - intros m ???. by rewrite Hs, Hg.
Qed.

Lemma alloc_ok_mono sb home f n n' : (n ≤ n')%nat → alloc_ok sb home f n' → alloc_ok sb home f n.
Proof. intros ? []. constructor; [done..|lia]. Qed.

Lemma filter_ext_in (p q : Z → bool) (l : list Z) : (∀ b, b ∈ l → p b = q b) →
  filter (λ b, p b = false) l = filter (λ b, q b = false) l.
Proof.
  induction l as [|a l IH]; intros H; [done|]. rewrite !filter_cons, (H a) by left.
  by rewrite IH by (intros; apply H; by right).
Qed.

Lemma alloc_ok_used sb home f g n :
  (∀ b, 0 ≤ b < sb_size sb → used (sb_ninodes sb) g b = used (sb_ninodes sb) f b) →
  alloc_ok sb home f n → alloc_ok sb home g n.
Proof.
  intros E [Hh Hres Hn]. constructor; [done|..].
  - intros b Hb. rewrite E by lia. by apply Hres.
  - unfold free_list in *. erewrite filter_ext_in; [exact Hn|]. intros b Hb%elem_of_seqZ. apply E. lia.
Qed.

Lemma alloc_ok_cur sb home f g n : (∀ m, g m = f m) → alloc_ok sb home f n → alloc_ok sb home g n.
Proof. intros Hg. apply alloc_ok_used. intros. unfold used. by rewrite Hg. Qed.

Lemma filter_remove (p q : Z → bool) x (l : list Z) : NoDup l →
  (∀ b, b ∈ l → q b = (x =? b) || p b) →
  (length (filter (λ b, p b = false) l) ≤ S (length (filter (λ b, q b = false) l)))%nat.
Proof.
  induction 1 as [|a l Ha Hnd IH]; intros Hq; [simpl; lia|].
  rewrite !filter_cons. pose proof (Hq a ltac:(left)) as Ea.
  destruct (decide (a = x)) as [->|Hne].
  - rewrite Z.eqb_refl in Ea. simpl in Ea. rewrite Ea. simpl.
    assert (filter (λ b, q b = false) l = filter (λ b, p b = false) l) as ->.
    { apply filter_ext_in. intros b Hb. rewrite Hq by by right.
      destruct (Z.eqb_spec x b); [by subst|done]. }
    case_decide; simpl; lia.
  - replace (x =? a) with false in Ea by lia. simpl in Ea. rewrite Ea.
    specialize (IH ltac:(intros; apply Hq; by right)). case_decide; simpl; lia.
Qed.

Lemma alloc_ok_step sb home f f' x e n : alloc_ok sb home f (S n) → allocated sb f f' x e →
  alloc_ok sb home f' n.
Proof.
  intros [Hh Hres Hn] []. constructor; [done|..].
  - intros b Hb. rewrite al_used0, Hres by lia. apply orb_true_r.
  - unfold free_list in *.
    pose proof (filter_remove (used (sb_ninodes sb) f) (used (sb_ninodes sb) f') x
      (seqZ 0 home) (NoDup_seqZ _ _)) as H.
    apply le_S_n. etransitivity; [exact Hn|]. apply H.
    intros b Hb%elem_of_seqZ. apply al_used0. lia.
Qed.
End bitmap.

(** ** The block map of a file *)

Lemma zero_block_lookup i : (i < 512)%nat → zero_block !!! i = 0.
Proof.
  intros Hi. unfold zero_block. rewrite list_lookup_total_alt, lookup_replicate_2; [done|].
  unfold BSIZE. lia.
Qed.

Section blockmap.
Implicit Types (sb : superblock) (f : Z → block) (a : list Z).

(** The block of index [i] of a file with addresses [a], [0] if there is none;
    index [MAXFILE] stands for the indirect block. *)
Definition fblk f a (i : Z) : Z :=
  if i <? NDIRECT then a !!! Z.to_nat i
  else if i =? MAXFILE then a !!! 12%nat
  else if a !!! 12%nat =? 0 then 0
  else get32 (f (a !!! 12%nat)) (4 * Z.to_nat (i - NDIRECT)).

(** The blocks of a file are distinct data blocks marked in use. *)
Record file_ok sb (home : Z) f a : Prop := mkFileOk {
  fk_len : length a = 13%nat;
  fk_data : ∀ i, 0 ≤ i ≤ MAXFILE → fblk f a i ≠ 0 →
    data_start sb ≤ fblk f a i < home ∧ used (sb_ninodes sb) f (fblk f a i) = true;
  fk_inj : ∀ i j, 0 ≤ i ≤ MAXFILE → 0 ≤ j ≤ MAXFILE → fblk f a i ≠ 0 →
    fblk f a i = fblk f a j → i = j
}.

Lemma file_ok_ind sb home f a : file_ok sb home f a → a !!! 12%nat ≠ 0 →
  data_start sb ≤ a !!! 12%nat < home ∧ used (sb_ninodes sb) f (a !!! 12%nat) = true.
Proof. intros Hok H. by apply (fk_data _ _ _ _ Hok MAXFILE). Qed.

(** The byte at offset [o]. *)
Definition fbyte f a (o : Z) : Z :=
  let b := fblk f a (o / BSIZE) in
  if b =? 0 then 0 else f b !!! Z.to_nat (o mod BSIZE).

(** [f] and [a] become [f'] and [a'] in a way that block [x] is allocated as
    block [i] of the file and zeroed, and no other block of the file moves. *)
Definition fblk_add f a f' a' (i x : Z) : Prop :=
  ∀ j, 0 ≤ j ≤ MAXFILE → fblk f' a' j = if j =? i then x else fblk f a j.

Lemma file_ok_add sb home f a f' a' i x e : file_ok sb home f a → length a' = 13%nat →
  allocated sb f f' x e → data_start sb ≤ x < home → home ≤ sb_size sb → 4 ≤ data_start sb →
  0 ≤ i ≤ MAXFILE → fblk f a i = 0 → fblk_add f a f' a' i x → file_ok sb home f' a'.
Proof.
  intros [Hl Hd Hin] Hl' [Hfr _ Hu _] Hx Hhs Hds Hi Hi0 Hadd.
  assert (∀ j, 0 ≤ j ≤ MAXFILE → fblk f a j ≠ 0 → fblk f a j ≠ x) as Hne.
  { intros j Hj Hj0 E. destruct (Hd j Hj Hj0) as [_ E']. congruence. }
  constructor; [done|..].
  - intros j Hj. rewrite (Hadd j Hj). destruct (Z.eqb_spec j i).
    + intros _. split; [done|]. rewrite Hu, Z.eqb_refl by lia. done.
    + intros Hj0. destruct (Hd j Hj Hj0) as [? E]. split; [done|]. rewrite Hu, E by lia. by rewrite orb_true_r.
  - intros j k Hj Hk. rewrite (Hadd j Hj), (Hadd k Hk).
    destruct (Z.eqb_spec j i), (Z.eqb_spec k i); subst; try done.
    + intros _ E. destruct (Hne k Hk); [lia|done].
    + intros E1 E2. destruct (Hne j Hj E1). done.
    + by apply Hin.
Qed.

(** The other blocks of the file do not change. *)
Lemma allocated_same sb home f f' x e m : allocated sb f f' x e → geometry sb home →
  data_start sb ≤ m → used (sb_ninodes sb) f m = true → e = x ∨ m ≠ e → f' m = f m.
Proof.
  intros [Hfr _ _ Hs] Hg Hm Hu He. apply Hs; [congruence|destruct He; congruence|].
  intros ?%(bitmap_range sb home); [lia|done].
Qed.

(** Filling a hole with a zeroed block does not change the bytes. *)
Lemma fbyte_add sb home f a f' a' i x o : file_ok sb home f a → geometry sb home →
  f' x = zero_block → 0 ≤ i ≤ MAXFILE → fblk f a i = 0 → fblk_add f a f' a' i x →
  0 ≤ o < MAXFILE * BSIZE →
  (∀ m, data_start sb ≤ m → used (sb_ninodes sb) f m = true → m ≠ a !!! 12%nat → f' m = f m) →
  fbyte f' a' o = fbyte f a o.
Proof.
  intros Hok Hg Hz Hi Hi0 Hadd Ho Hsame.
  assert (0 ≤ o / BSIZE < MAXFILE) as Hob.
  { split; [apply Z.div_pos; unfold BSIZE; lia|]. apply Z.div_lt_upper_bound; unfold BSIZE in *; lia. }
  unfold fbyte. rewrite (Hadd (o / BSIZE)) by lia. destruct (Z.eqb_spec (o / BSIZE) i) as [->|Hne].
  - rewrite Hi0, Hz. simpl. destruct (x =? 0); [done|].
    apply zero_block_lookup.
    pose proof (Z.mod_pos_bound o BSIZE ltac:(unfold BSIZE; lia)). unfold BSIZE in *. lia.
  - destruct (Z.eqb_spec (fblk f a (o / BSIZE)) 0) as [|Hb]; [done|].
    destruct (fk_data _ _ _ _ Hok (o / BSIZE) ltac:(lia) Hb) as [? ?].
    rewrite Hsame; [done|lia|done|]. intros E.
    assert (a !!! 12%nat = fblk f a MAXFILE) as E2 by done. rewrite E2 in E.
    apply (fk_inj _ _ _ _ Hok) in E; lia.
Qed.
End blockmap.

(** ** bmap *)

Section bmap.
Context {T : Type} `{!BlockIO T} `{!TxnIO T} `{HT : !TxnSpec T}.
Implicit Types (t : T) (s : fstate T) (sb : superblock).

Lemma room_use t t' W Y BM f k : tgo t t' (tx_held t) W f → W ⊆ Y ∪ BM →
  room t BM (k + Z.of_nat (size Y)) → room t' BM k.
Proof.
  intros Ht HW Hr. eapply room_step; [exact Ht|]. unfold room in *.
  assert (size (BM ∪ W ∪ tx_logged t) ≤ size Y + size (BM ∪ tx_logged t))%nat; [|lia].
  etransitivity; [apply (subseteq_size _ (Y ∪ (BM ∪ tx_logged t))); set_solver|].
  rewrite size_union_alt. apply Nat.add_le_mono_l, subseteq_size. set_solver.
Qed.

Lemma balloc_ok sb t n : fs_ok sb t → alloc_ok sb (tx_home t) (tx_cur t) (S n) →
  (∀ m, m ∈ held_sectors (tx_held t) → used (sb_ninodes sb) (tx_cur t) m = true) →
  room t (bitmap_blocks sb) 1 →
  wp (balloc ROOTDEV) t (λ x t', ∃ W f', data_start sb ≤ x < tx_home t ∧
    allocated sb (tx_cur t) f' x x ∧ W ⊆ {[x]} ∪ bitmap_blocks sb ∧ tgo t t' (tx_held t) W f').
Proof.
  intros Hok Ha Hh Hr. destruct (alloc_first _ _ _ _ Ha) as (x & Hf & Hx).
  pose proof (ge_home _ _ (fo_geo _ _ Hok)). pose proof Hf as ([? ?] & Hfr & _).
  pose proof (bitmap_in sb x ltac:(lia)) as Hbx.
  wpa balloc_wp; [done|done|done|intros Hin; apply Hh in Hin; congruence| |].
  { eapply room_mono; [|..|exact Hr]; [set_solver|lia]. }
  intros r t' [-> Ht]. eexists _, _. split; [done|]. split; [|split; [|exact Ht]; set_solver].
  pose proof (data_start_low _ _ (fo_geo _ _ Hok)). constructor.
  - done.
  - unfold alloc_cur, fupd. by rewrite decide_True.
  - intros b Hb. eapply used_alloc; try done; [apply Hok|lia|].
    intros b' Hb'. destruct (BBLOCK_range _ _ b' (fo_geo _ _ Hok) Hb').
    apply tx_cur_length; [apply Hok|lia].
  - intros m Hm _ Hmb. apply alloc_cur_other; [done|]. intros ->. done.
Qed.

(** The file of the inode [ip] in [s]. *)
Definition cur s : Z → block := tx_cur (fs_txn s).
Definition addrs s (ip : nat) : list Z := i_addrs (inode_at s ip).

(** No buffer is held; [ip] is an entry for a file of the root device. *)
Record fs_inv sb s (ip : nat) : Prop := mkFsInv {
  fi_ok : fs_ok sb (fs_txn s);
  fi_held : tx_held (fs_txn s) = ∅;
  fi_ip : (ip < length (fs_inodes s))%nat;
  fi_dev : i_dev (inode_at s ip) = ROOTDEV;
  fi_file : file_ok sb (tx_home (fs_txn s)) (cur s) (addrs s ip)
}.

Lemma held_empty (h : gmap nat Z) m : h = ∅ → m ∉ held_sectors h.
Proof. intros ->. unfold held_sectors. rewrite map_img_empty_L. apply not_elem_of_empty. Qed.

(** The index in the block map of slot [i] of [ip->addrs]. *)
Definition slot (i : nat) : Z := if (i =? 12)%nat then MAXFILE else Z.of_nat i.

Lemma get32_zero o : (o + 3 < 512)%nat → get32 zero_block o = 0.
Proof. intros Ho. unfold get32. by rewrite !zero_block_lookup by lia. Qed.

Lemma slot_add sb home f a f' x i : file_ok sb home f a → geometry sb home →
  allocated sb f f' x x → data_start sb ≤ x → (i ≤ 12)%nat → a !!! i = 0 →
  fblk_add f a f' (<[i := x]> a) (slot i) x.
Proof.
  intros Hok Hg Hal Hx Hi Hi0 j Hj. pose proof (fk_len _ _ _ _ Hok) as Hl.
  pose proof (data_start_low _ _ Hg). unfold fblk, slot, MAXFILE, NDIRECT in *.
  change (BSIZE / 4) with 128 in *. change NINDIRECT with 128 in *.
  rewrite !arr_insert by lia. destruct (Nat.eqb_spec i 12) as [->|Hne].
  - destruct (Z.ltb_spec j 12); [rewrite decide_False by lia; by replace (j =? 12 + 128) with false by lia|].
    destruct (Z.eqb_spec j (12 + 128)) as [->|]; [done|].
    rewrite Hi0, decide_True, (al_zero _ _ _ _ _ Hal), get32_zero by lia. simpl. by destruct (x =? 0).
  - rewrite (decide_False (P := i = 12%nat)) by lia. destruct (Z.ltb_spec j 12).
    + destruct (Z.eqb_spec j (Z.of_nat i)); [rewrite decide_True by lia; done|].
      rewrite decide_False by lia. done.
    + replace (j =? Z.of_nat i) with false by lia. destruct (j =? 12 + 128); [done|].
      destruct (Z.eqb_spec (a !!! 12%nat) 0) as [|Hn]; [done|].
      destruct (file_ok_ind _ _ _ _ Hok Hn) as [? ?].
      f_equal. eapply (allocated_same sb home); try done; [lia|by left].
Qed.

(** [s'] is [s] with blocks [Y] allocated to the file of [ip] or written, and
    [g o] the byte at [o]: no block of another file changes. *)
Record upd sb (ip : nat) s s' (Y : gset Z) (g : Z → Z) : Prop := mkUpd {
  gr_inodes : fs_inodes s' = <[ip := i_set_addrs (addrs s' ip) (inode_at s ip)]> (fs_inodes s);
  gr_wakes : fs_wakes s' = fs_wakes s;
  gr_run : ∃ W, W ⊆ Y ∪ bitmap_blocks sb ∧ tgo (fs_txn s) (fs_txn s') (tx_held (fs_txn s)) W (cur s');
  gr_bytes : ∀ o, 0 ≤ o < MAXFILE * BSIZE →
    fbyte (cur s') (addrs s' ip) o = g o;
  gr_blk : ∀ i, 0 ≤ i ≤ MAXFILE → fblk (cur s) (addrs s ip) i ≠ 0 →
    fblk (cur s') (addrs s' ip) i = fblk (cur s) (addrs s ip) i;
  gr_file : file_ok sb (tx_home (fs_txn s)) (cur s') (addrs s' ip);
  gr_used : ∀ m, 0 ≤ m < sb_size sb → used (sb_ninodes sb) (cur s) m = true →
    used (sb_ninodes sb) (cur s') m = true;
  gr_frame : ∀ m, data_start sb ≤ m < sb_size sb → used (sb_ninodes sb) (cur s) m = true →
    (∀ i, 0 ≤ i ≤ MAXFILE → fblk (cur s) (addrs s ip) i ≠ m) → cur s' m = cur s m;
  gr_low : ∀ m, m < data_start sb → m ∉ bitmap_blocks sb → cur s' m = cur s m;
  gr_new : ∀ i, 0 ≤ i ≤ MAXFILE → fblk (cur s) (addrs s ip) i = 0 →
    fblk (cur s') (addrs s' ip) i ≠ 0 →
    used (sb_ninodes sb) (cur s) (fblk (cur s') (addrs s' ip) i) = false
}.

(** The file grows without a change of its bytes. *)
Abbreviation grow sb ip s s' Y := (upd sb ip s s' Y (fbyte (cur s) (addrs s ip))).

Lemma upd_bytes sb ip s s' Y g g' : upd sb ip s s' Y g →
  (∀ o, 0 ≤ o < MAXFILE * BSIZE → g o = g' o) → upd sb ip s s' Y g'.
Proof. intros [] Hg. constructor; try done. intros o Ho. rewrite <- Hg by done. auto. Qed.

Lemma inode_at_upd s ip f : (ip < length (fs_inodes s))%nat →
  inode_at (upd_inode ip f s) ip = f (inode_at s ip).
Proof. intros. unfold inode_at, upd_inode; simpl. by rewrite arr_insert_eq. Qed.

Lemma upd_inv sb ip s s' Y g : upd sb ip s s' Y g → fs_inv sb s ip → fs_inv sb s' ip.
Proof.
  intros [] [Hok Hh Hip Hd Hf]. destruct gr_run0 as (W & HW & Ht). destruct (Ht).
  pose proof (data_start_low _ _ (fo_geo _ _ Hok)).
  constructor.
  - eapply fs_ok_step; [done|exact Ht|]. apply gr_low0; [lia|].
    intros ?%(bitmap_range sb (tx_home (fs_txn s))); [lia|apply Hok].
  - by rewrite tg_held.
  - by rewrite gr_inodes0, length_insert.
  - unfold inode_at. rewrite gr_inodes0, arr_insert_eq by done. done.
  - by rewrite tg_home.
Qed.

(** A block [x] allocated as block [i] of the file; [e] is [x] or the indirect
    block, in which the address was stored. *)
Lemma grow_alloc sb s s' ip i x e W Y : fs_inv sb s ip →
  fs_inodes s' = <[ip := i_set_addrs (addrs s' ip) (inode_at s ip)]> (fs_inodes s) →
  fs_wakes s' = fs_wakes s → length (addrs s' ip) = 13%nat →
  tgo (fs_txn s) (fs_txn s') (tx_held (fs_txn s)) W (cur s') → W ⊆ Y ∪ bitmap_blocks sb →
  data_start sb ≤ x < tx_home (fs_txn s) → allocated sb (cur s) (cur s') x e →
  e = x ∨ (e = addrs s ip !!! 12%nat ∧ e ≠ 0) →
  0 ≤ i ≤ MAXFILE → fblk (cur s) (addrs s ip) i = 0 →
  fblk_add (cur s) (addrs s ip) (cur s') (addrs s' ip) i x → grow sb ip s s' Y.
Proof.
  intros [Hok Hh Hip Hd Hf] Hin Hwk Hlen Ht HW Hx Hal He Hi Hi0 Hadd.
  pose proof (fo_geo _ _ Hok) as Hg. pose proof (data_start_low _ _ Hg). pose proof (ge_home _ _ Hg).
  constructor; try done.
  - by exists W.
  - intros o Ho. eapply fbyte_add; try done; [apply Hal|].
    intros m ? ? ?. eapply (allocated_same sb (tx_home (fs_txn s))); try done.
    destruct He as [|[-> _]]; auto.
  - intros j Hj Hj0. rewrite (Hadd j Hj). destruct (Z.eqb_spec j i); [exfalso; congruence|done].
  - eapply file_ok_add; try done; lia.
  - intros m Hm Hu. rewrite (al_used _ _ _ _ _ Hal), Hu by done. by rewrite orb_true_r.
  - intros m Hm Hu Hnf. eapply (allocated_same sb (tx_home (fs_txn s))); try done; [lia|].
    destruct He as [|[-> _]]; [by left|right]. intros E. by apply (Hnf MAXFILE).
  - intros m Hm Hmb. apply (al_same _ _ _ _ _ Hal); [lia| |done].
    destruct He as [->|[-> Hn]]; [lia|]. destruct (file_ok_ind _ _ _ _ Hf Hn). lia.
  - intros j Hj Hj0. rewrite (Hadd j Hj). destruct (Z.eqb_spec j i); [|done].
    intros _. apply Hal.
Qed.

Lemma grow_refl sb s ip t' : fs_inv sb s ip →
  tgo (fs_txn s) t' (tx_held (fs_txn s)) ∅ (cur s) → grow sb ip s (set_txn t' s) ∅.
Proof.
  intros [Hok Hh Hip Hd Hf] Ht. pose proof (tg_cur _ _ _ _ _ Ht) as Ec.
  change (tx_cur t') with (cur (set_txn t' s)) in Ec.
  change (addrs (set_txn t' s) ip) with (addrs s ip).
  assert (∀ i, fblk (cur (set_txn t' s)) (addrs s ip) i = fblk (cur s) (addrs s ip) i) as Eb.
  { intros i. unfold fblk. by rewrite Ec. }
  assert (∀ m, used (sb_ninodes sb) (cur (set_txn t' s)) m = used (sb_ninodes sb) (cur s) m) as Eu.
  { intros m. unfold used. by rewrite Ec. }
  constructor; change (addrs (set_txn t' s) ip) with (addrs s ip).
  - simpl. symmetry. apply list_insert_id. rewrite arr_lookup by done. f_equal.
    unfold addrs, inode_at. by destruct (fs_inodes s !!! ip).
  - done.
  - exists ∅. split; [set_solver|]. eapply tgo_ext; [exact Ht|done|]. intros m. by rewrite Ec.
  - intros o _. unfold fbyte. rewrite Eb, Ec. done.
  - intros i _ _. apply Eb.
  - destruct Hf as [Hl Hda Hinj]. constructor; [done|..].
    + intros i Hi. rewrite Eb, Eu. by apply Hda.
    + intros i j Hi Hj. rewrite !Eb. by apply Hinj.
  - intros m _. by rewrite Eu.
  - intros m _ _ _. apply Ec.
  - intros m _ _. apply Ec.
  - intros i _ Hi0 Hi1. by rewrite Eb in Hi1.
Qed.

Lemma grow_same sb s ip : fs_inv sb s ip → grow sb ip s s ∅.
Proof.
  intros Hi. pose proof (grow_refl sb s ip (fs_txn s) Hi) as H.
  replace (set_txn (fs_txn s) s) with s in H by by destruct s. apply H, tgo_refl, Hi.
Qed.

Lemma fblk_slot f a i : (i ≤ 12)%nat → a !!! i = 0 → fblk f a (slot i) = 0.
Proof.
  intros Hi H0. unfold fblk, slot, MAXFILE, NDIRECT. change NINDIRECT with 128.
  destruct (Nat.eqb_spec i 12) as [->|]; [done|].
  replace (Z.of_nat i <? 12) with true by lia. by rewrite Nat2Z.id.
Qed.

Lemma upd_trans sb ip s s1 s2 Y1 Y2 g1 g2 : fs_inv sb s ip →
  upd sb ip s s1 Y1 g1 → upd sb ip s1 s2 Y2 g2 → upd sb ip s s2 (Y1 ∪ Y2) g2.
Proof.
  intros Hi G1 G2. pose proof (upd_inv _ _ _ _ _ _ G1 Hi) as Hi1.
  destruct Hi as [Hok Hh Hip Hd Hf], Hi1 as [Hok1 Hh1 Hip1 Hd1 Hf1].
  pose proof (fo_geo _ _ Hok) as Hg. pose proof (data_start_low _ _ Hg). pose proof (ge_home _ _ Hg).
  destruct (gr_run _ _ _ _ _ _ G1) as (W1 & HW1 & T1), (gr_run _ _ _ _ _ _ G2) as (W2 & HW2 & T2).
  pose proof (tg_home _ _ _ _ _ T1) as Eh.
  constructor.
  - rewrite (gr_inodes _ _ _ _ _ _ G2), (gr_inodes _ _ _ _ _ _ G1). rewrite list_insert_insert_eq. f_equal.
    unfold inode_at at 1. rewrite (gr_inodes _ _ _ _ _ _ G1), arr_insert_eq by done. done.
  - rewrite (gr_wakes _ _ _ _ _ _ G2). apply G1.
  - exists (W2 ∪ W1). split; [set_solver|]. rewrite Hh1, <- Hh in T2. by eapply tgo_trans.
  - apply G2.
  - intros i Hi Hi0. pose proof (gr_blk _ _ _ _ _ _ G1 i Hi Hi0) as E. rewrite <- E.
    apply G2; [done|by rewrite E].
  - rewrite <- Eh. apply G2.
  - intros m Hm Hu. apply G2; [done|]. by apply G1.
  - intros m Hm Hu Hnf. rewrite <- (gr_frame _ _ _ _ _ _ G1 m) by done. apply G2; [done|apply G1; [lia|done]|].
    intros i Hi E. destruct (decide (fblk (cur s) (addrs s ip) i = 0)) as [E0|E0].
    + assert (used (sb_ninodes sb) (cur s) m = false) as Eu; [|congruence].
      rewrite <- E. apply G1; [done|done|lia].
    + rewrite (gr_blk _ _ _ _ _ _ G1 i Hi E0) in E. by apply (Hnf i).
  - intros m Hm Hmb. rewrite (gr_low _ _ _ _ _ _ G2) by done. by apply (gr_low _ _ _ _ _ _ G1).
  - intros i Hi Hi0 Hi2. destruct (decide (fblk (cur s1) (addrs s1 ip) i = 0)) as [E|E].
    + destruct (used (sb_ninodes sb) (cur s) _) eqn:Eu; [|done].
      pose proof (gr_new _ _ _ _ _ _ G2 i Hi E Hi2) as Hn. apply (gr_used _ _ _ _ _ _ G1) in Eu; [congruence|].
      destruct (fk_data _ _ _ _ (gr_file _ _ _ _ _ _ G2) i Hi Hi2). lia.
    + rewrite (gr_blk _ _ _ _ _ _ G2 i Hi E). by apply G1.
Qed.

Lemma grow_trans sb ip s s1 s2 Y1 Y2 : fs_inv sb s ip →
  grow sb ip s s1 Y1 → grow sb ip s1 s2 Y2 → grow sb ip s s2 (Y1 ∪ Y2).
Proof.
  intros Hi G1 G2. eapply upd_bytes; [by eapply upd_trans|]. apply G1.
Qed.

(** [addr_alloc] finds or allocates a block. *)
Lemma addr_alloc_wp sb s ip i n : fs_inv sb s ip → (i ≤ 12)%nat →
  alloc_ok sb (tx_home (fs_txn s)) (cur s) (S n) → room (fs_txn s) (bitmap_blocks sb) 1 →
  wp (addr_alloc ip i) s (λ x s', ∃ Y, grow sb ip s s' Y ∧ Y ⊆ {[x]} ∧
    alloc_ok sb (tx_home (fs_txn s)) (cur s') n ∧ x = addrs s' ip !!! i ∧ x ≠ 0 ∧
    (addrs s ip !!! i ≠ 0 → s' = s)).
Proof.
  intros Hi Hi12 Ha Hr. pose proof Hi as [Hok Hh Hip Hd Hf].
  pose proof (fo_geo _ _ Hok) as Hg. pose proof (data_start_low _ _ Hg).
  unfold addr_alloc. rewrite wp_bind, wp_gets. fold (addrs s ip).
  destruct (Z.eqb_spec (addrs s ip !!! i) 0) as [E|E].
  - rewrite Hd, wp_bind. unfold lift. rewrite wp_zoom.
    wpa balloc_ok; [done|done| |done|].
    { intros m Hm. by apply held_empty in Hm. }
    intros x t' (W & f' & Hx & Hal & HW & Ht). rewrite wp_bind. unfold set_addr. rewrite wp_modify, wp_ret.
    set (s' := upd_inode _ _ _).
    assert (addrs s' ip = <[i := x]> (addrs s ip)) as Ea by (unfold addrs at 1, s'; by rewrite inode_at_upd).
    pose proof (slot_add _ _ _ _ _ _ _ Hf Hg Hal ltac:(lia) Hi12 E) as Hadd.
    pose proof (tg_cur _ _ _ _ _ Ht) as Ec. change (tx_cur t') with (cur s') in Ec.
    pose proof (allocated_ext _ _ _ (cur s') _ _ Hal Ec) as Hal'.
    exists {[x]}. split_and!.
    + apply (grow_alloc sb s s' ip (slot i) x x W); try done.
      * unfold s' at 1. simpl. by rewrite Ea.
      * rewrite Ea, length_insert. apply Hf.
      * eapply tgo_ext; [exact Ht|done|]. intros m. by rewrite Ec.
      * by left.
      * unfold slot, MAXFILE, NDIRECT. change NINDIRECT with 128. destruct (Nat.eqb_spec i 12); lia.
      * by apply fblk_slot.
      * intros j Hj. rewrite Ea, <- (Hadd j Hj). unfold fblk. by rewrite Ec.
    + done.
    + by eapply alloc_ok_step.
    + rewrite Ea, arr_insert_eq; [done|]. rewrite (fk_len _ _ _ _ Hf). lia.
    + lia.
    + done.
  - rewrite wp_ret. exists ∅. split_and!; try done;
      [by apply grow_same|eapply alloc_ok_mono; [|exact Ha]; lia].
Qed.

(** Entry [k] of the indirect block, allocated if it is empty. *)
Definition leaf (ip : nat) (ind : Z) (k : nat) : kM (fstate T) Z :=
  bp ← lift (bread ROOTDEV ind);
  a ← gets (λ s, get32 (ibuf s bp) (4 * k));
  addr ← (if a =? 0 then
            addr ← lift (balloc ROOTDEV);
            _ ← modify (λ s, set_ibuf bp (put32 (ibuf s bp) (4 * k) addr) s);
            _ ← lift (log_write bp);
            mret addr
          else mret a);
  _ ← lift (brelse bp);
  mret addr.

Lemma leaf_index k : (k < 128)%nat → let bn := NDIRECT + Z.of_nat k in
  0 ≤ bn < MAXFILE ∧ ∀ f a, a !!! 12%nat ≠ 0 → fblk f a bn = get32 (f (a !!! 12%nat)) (4 * k).
Proof.
  intros Hk bn. unfold bn, fblk, MAXFILE, NDIRECT. change NINDIRECT with 128. split; [lia|].
  intros f a Ha. replace (12 + Z.of_nat k <? 12) with false by lia.
  replace (12 + Z.of_nat k =? 12 + 128) with false by lia.
  rewrite (proj2 (Z.eqb_neq _ _) Ha). do 2 f_equal. lia.
Qed.

Lemma leaf_hit sb s ip k : fs_inv sb s ip → (k < 128)%nat → let ind := addrs s ip !!! 12%nat in
  ind ≠ 0 → room (fs_txn s) ∅ 0 → fblk (cur s) (addrs s ip) (NDIRECT + Z.of_nat k) ≠ 0 →
  wp (leaf ip ind k) s (λ r s', r = fblk (cur s) (addrs s ip) (NDIRECT + Z.of_nat k) ∧
    ∃ t', s' = set_txn t' s ∧ tgo (fs_txn s) t' (tx_held (fs_txn s)) ∅ (cur s)).
Proof.
  intros Hi Hk ind Hind Hr Hb. pose proof Hi as [Hok Hh Hip Hd Hf].
  destruct (leaf_index k Hk) as [Hbn El]. rewrite El in Hb |- * by done. fold ind in Hb |- *.
  destruct (file_ok_ind _ _ _ _ Hf Hind) as [Hir _]. fold ind in Hir.
  pose proof (data_start_low _ _ (fo_geo _ _ Hok)).
  unfold leaf, lift. rewrite wp_bind, wp_zoom.
  wpa tgo_bread; [apply tgo_refl, Hok|lia|by apply held_empty| |].
  { unfold room in Hr. pose proof (tx_cap_bound _ (fo_inv _ _ Hok)). lia. }
  intros b t1 (Hbn1 & Ht1 & Ed1). rewrite wp_bind, wp_gets. unfold ibuf; simpl fs_txn. rewrite Ed1.
  fold (cur s). rewrite (proj2 (Z.eqb_neq _ _) Hb). rewrite wp_bind, wp_ret, wp_bind, wp_zoom.
  wpa tgo_brelse; [exact Ht1|apply lookup_insert_eq|by apply held_empty|by right|apply Hok|].
  intros _ t2 Ht2. rewrite delete_insert_held in Ht2 by done. rewrite wp_ret. split; [done|].
  by exists t2.
Qed.

(** The content after a block [x] is put in entry [k] of the indirect block. *)
Lemma leaf_add sb home f a f' x k : file_ok sb home f a → geometry sb home →
  allocated sb f f' x x → data_start sb ≤ x < home → home < 2 ^ 31 → (k < 128)%nat →
  let ind := a !!! 12%nat in ind ≠ 0 → length (f ind) = Z.to_nat BSIZE →
  fblk f a (NDIRECT + Z.of_nat k) = 0 →
  let g := fupd f' ind (put32 (f' ind) (4 * k) x) in
  allocated sb f g x ind ∧ fblk_add f a g a (NDIRECT + Z.of_nat k) x.
Proof.
  intros Hf Hg Hal Hx Hhome Hk ind Hind Hlen H0 g.
  destruct (file_ok_ind _ _ _ _ Hf Hind) as [Hir Hiu]. fold ind in Hir, Hiu.
  pose proof (data_start_low _ _ Hg).
  assert (x ≠ ind) as Hxi by (intros ->; destruct Hal; congruence).
  assert (ind ∉ bitmap_blocks sb) as Hib by (intros ?%(bitmap_range sb home); [lia|done]).
  assert (f' ind = f ind) as Ei by (apply Hal; done).
  assert (∀ m, m ≠ ind → g m = f' m) as Eg by (intros; unfold g, fupd; by rewrite decide_False).
  assert (g ind = put32 (f ind) (4 * k) x) as Egi by (unfold g, fupd; by rewrite decide_True, Ei).
  split.
  - destruct Hal as [Hfr Hz Hu Hs]. constructor; [done|by rewrite Eg|..].
    + intros b Hb. rewrite <- Hu by done. unfold used. rewrite Eg; [done|].
      intros E. apply Hib. rewrite <- E. by apply bitmap_in.
    + intros m ???. by rewrite Eg, Hs.
  - intros j Hj. unfold fblk. fold ind. unfold MAXFILE, NDIRECT in *. change NINDIRECT with 128 in *.
    destruct (Z.ltb_spec j 12); [by replace (j =? 12 + Z.of_nat k) with false by lia|].
    destruct (Z.eqb_spec j (12 + 128)); [by replace (j =? 12 + Z.of_nat k) with false by lia|].
    rewrite (proj2 (Z.eqb_neq _ _) Hind), Egi. unfold BSIZE in Hlen.
    destruct (Z.eqb_spec j (12 + Z.of_nat k)) as [->|Hne].
    + replace (Z.to_nat (12 + Z.of_nat k - 12)) with k by lia.
      rewrite get32_put32, u32_small by lia. done.
    + unfold put32. rewrite get32_put; [done|]. simpl length. lia.
Qed.

(** What the file has gained once the transaction [t] has the new entry of the
    indirect block. *)
Lemma leaf_grown sb s ip k n x W g t : fs_inv sb s ip → (k < 128)%nat → let ind := addrs s ip !!! 12%nat in
  ind ≠ 0 → alloc_ok sb (tx_home (fs_txn s)) (cur s) (S n) → fblk (cur s) (addrs s ip) (NDIRECT + Z.of_nat k) = 0 →
  data_start sb ≤ x < tx_home (fs_txn s) → allocated sb (cur s) g x ind → W ⊆ {[x]} ∪ bitmap_blocks sb →
  fblk_add (cur s) (addrs s ip) g (addrs s ip) (NDIRECT + Z.of_nat k) x → tgo (fs_txn s) t ∅ ({[ind]} ∪ W) g →
  let s' := set_txn t s in
  x ≠ 0 ∧ x = fblk (cur s') (addrs s' ip) (NDIRECT + Z.of_nat k) ∧ grow sb ip s s' {[x; ind]} ∧ alloc_ok sb (tx_home (fs_txn s)) (cur s') n.
Proof.
  intros Hi Hk ind Hind Ha H0 Hx Hal2 HW Hadd Ht5 s'. pose proof Hi as [Hok Hh Hip Hd Hf]. pose proof (leaf_index k Hk) as [Hbn _].
  pose proof (data_start_low _ _ (fo_geo _ _ Hok)). pose proof (tg_cur _ _ _ _ _ Ht5) as C5. change (tx_cur t) with (cur s') in C5.
  pose proof (allocated_ext _ _ _ _ _ _ Hal2 C5) as Hal5.
  assert (fblk_add (cur s) (addrs s ip) (cur s') (addrs s ip) (NDIRECT + Z.of_nat k) x) as Hadd5.
  { intros j Hj. rewrite <- (Hadd j Hj). unfold fblk. by rewrite C5. }
  split_and!.
  - lia.
  - change (addrs s' ip) with (addrs s ip). rewrite (Hadd5 (NDIRECT + Z.of_nat k)) by lia. by rewrite Z.eqb_refl.
  - apply (grow_alloc sb s _ ip (NDIRECT + Z.of_nat k) x ind ({[ind]} ∪ W)); try done; [..|by right|lia].
    + symmetry. apply list_insert_id. rewrite arr_lookup by done. f_equal. change (addrs s' ip) with (addrs s ip).
      unfold addrs, inode_at. by destruct (fs_inodes s !!! ip).
    + apply Hf.
    + rewrite Hh. eapply tgo_ext; [exact Ht5|reflexivity|]. intros m. by rewrite C5.
    + clear -HW. set_solver.
  - by eapply alloc_ok_step.
Qed.

(** The log has room for the block, its bitmap block and the indirect block. *)
Lemma leaf_room sb (t : T) x W : W ⊆ {[x]} ∪ bitmap_blocks sb →
  (size (W ∪ tx_logged t) ≤ 1 + size (bitmap_blocks sb ∪ tx_logged t))%nat.
Proof.
  intros HW. etransitivity; [apply (subseteq_size _ ({[x]} ∪ (bitmap_blocks sb ∪ tx_logged t))); set_solver|].
  rewrite size_union_alt, size_singleton. apply le_n_S, subseteq_size. set_solver.
Qed.

Lemma leaf_alloc sb s ip k n : fs_inv sb s ip → (k < 128)%nat → let ind := addrs s ip !!! 12%nat in
  ind ≠ 0 → alloc_ok sb (tx_home (fs_txn s)) (cur s) (S n) → room (fs_txn s) (bitmap_blocks sb) 2 →
  fblk (cur s) (addrs s ip) (NDIRECT + Z.of_nat k) = 0 →
  wp (leaf ip ind k) s (λ r s', r ≠ 0 ∧
    r = fblk (cur s') (addrs s' ip) (NDIRECT + Z.of_nat k) ∧
    grow sb ip s s' {[r; ind]} ∧ alloc_ok sb (tx_home (fs_txn s)) (cur s') n).
Proof.
  intros Hi Hk ind Hind Ha Hr H0. pose proof Hi as [Hok Hh Hip Hd Hf].
  pose proof (leaf_index k Hk) as [Hbn El].
  destruct (file_ok_ind _ _ _ _ Hf Hind) as [Hir Hiu]. fold ind in Hir, Hiu.
  pose proof (fo_geo _ _ Hok) as Hg. pose proof (data_start_low _ _ Hg). pose proof (ge_home _ _ Hg).
  pose proof (ge_size _ _ Hg). pose proof (tx_cap_bound _ (fo_inv _ _ Hok)) as Hcap.
  pose proof H0 as H0'. rewrite El in H0' by done. fold ind in H0'.
  assert (room (fs_txn s) ∅ 2) as Hr0 by (eapply room_mono; [|..|exact Hr]; [set_solver|lia]).
  unfold leaf, lift. rewrite wp_bind, wp_zoom.
  wpa tgo_bread; [apply tgo_refl, Hok|lia|by apply held_empty|unfold room in Hr0; lia|].
  intros b t1 (Hb & Ht1 & Ed1). rewrite wp_bind, wp_gets. unfold ibuf; simpl fs_txn. rewrite Ed1.
  fold (cur s). rewrite H0', Z.eqb_refl, wp_bind, wp_bind, wp_zoom. simpl fs_txn.
  rewrite Hh, insert_empty in Ht1. destruct (Ht1) as [I1 Eh1 Ec1 _ D1 L1 C1].
  assert (fs_ok sb t1) as Hok1.
  { constructor; [done|by rewrite C1; apply Hok|by rewrite Eh1|]. intros m.
    rewrite D1. unfold held_sectors. rewrite map_img_singleton_L, elem_of_singleton. lia. }
  assert (∀ m, m ∈ held_sectors (tx_held t1) → m = ind) as Hm.
  { intros m. rewrite D1. unfold held_sectors. by rewrite map_img_singleton_L, elem_of_singleton. }
  wpa (balloc_ok sb t1 n); [done| | | |].
  { rewrite Eh1. by eapply alloc_ok_cur. }
  { intros m ->%Hm. unfold used. by rewrite C1. }
  { unfold room in *. rewrite D1, L1, Ec1, map_size_singleton. rewrite Hh, map_size_empty in Hr.
    rewrite (left_id_L ∅ (∪)). lia. }
  intros x t2 (W & f' & Hx & Hal & HW & Ht2). rewrite Eh1 in Hx. rewrite D1 in Ht2.
  apply (allocated_ext_l _ _ (cur s) _ _ _ C1) in Hal.
  pose proof (tgo_trans _ _ _ _ _ _ _ _ _ Ht1 Ht2) as Ht12. rewrite (right_id_L ∅ (∪)) in Ht12.
  assert (({[b := ind]} : gmap nat Z) !! b = Some ind) as Hbi by apply lookup_singleton_eq.
  destruct (leaf_add sb (tx_home (fs_txn s)) (cur s) (addrs s ip) f' x k) as [Hal2 Hadd]; try done; [lia|
    apply tx_cur_length; [apply Hok|lia]|]. fold ind in Hal2, Hadd.
  assert (buf_data t2 b = f' ind) as Eb.
  { destruct (Ht12). destruct (tx_held_data t2 b ind) as (-> & _); [done|by rewrite tg_held|done]. }
  rewrite wp_bind, wp_modify. unfold set_ibuf, ibuf; simpl fs_txn. rewrite Eb.
  assert (length (f' ind) = Z.to_nat BSIZE) as Hlen.
  { rewrite <- Eb. destruct (Ht12). destruct (tx_held_data t2 b ind) as (-> & _); [done|by rewrite tg_held|].
    apply tx_cur_length; [done|rewrite tg_home; lia]. }
  pose proof (tgo_set _ _ _ _ _ b ind (put32 (f' ind) (4 * k) x) Ht12 Hbi) as Ht3.
  rewrite wp_bind, wp_zoom. simpl fs_txn.
  wpa tgo_log_write; [apply Ht3; unfold put32; by rewrite length_put|done|lia| |].
  { unfold room in Hr. rewrite Hh, map_size_empty in Hr. pose proof (leaf_room sb (fs_txn s) x W HW). lia. }
  intros _ t4 Ht4. rewrite wp_ret, wp_bind, wp_zoom. simpl fs_txn.
  wpa tgo_brelse; [exact Ht4|done|by apply held_empty|left; set_solver|apply Hok|].
  intros _ t5 Ht5. rewrite wp_ret. rewrite delete_singleton_eq in Ht5.
  by apply (leaf_grown sb s ip k n x W (fupd f' ind (put32 (f' ind) (4 * k) x)) t5).
Qed.

Lemma bmap_leaf ip bn s : NDIRECT ≤ bn < MAXFILE → i_dev (inode_at s ip) = ROOTDEV →
  bmap ip bn s = (addr ← addr_alloc ip (Z.to_nat NDIRECT); leaf ip addr (Z.to_nat (bn - NDIRECT))) s.
Proof.
  intros [H1 H2] Hd. unfold bmap. rewrite (proj2 (Z.ltb_ge bn NDIRECT)) by done.
  unfold MAXFILE in H2. rewrite (proj2 (Z.ltb_lt (bn - NDIRECT) NINDIRECT)) by lia.
  unfold leaf. unfold mbind at 1, kM_bind at 1, gets at 1. by rewrite Hd.
Qed.

Lemma fblk_direct f a bn : 0 ≤ bn < NDIRECT → fblk f a bn = a !!! Z.to_nat bn.
Proof. intros. unfold fblk. by rewrite (proj2 (Z.ltb_lt _ _)) by lia. Qed.

Lemma fblk_ind_0 f a bn : NDIRECT ≤ bn < MAXFILE → fblk f a bn ≠ 0 → a !!! 12%nat ≠ 0.
Proof.
  intros Hbn. unfold fblk. rewrite (proj2 (Z.ltb_ge bn NDIRECT)) by lia.
  rewrite (proj2 (Z.eqb_neq bn MAXFILE)) by lia. by destruct (Z.eqb_spec (a !!! 12%nat) 0).
Qed.

(** An allocated block is found without changing anything. *)
Lemma bmap_hit sb s ip bn : fs_inv sb s ip → 0 ≤ bn < MAXFILE → room (fs_txn s) ∅ 0 →
  fblk (cur s) (addrs s ip) bn ≠ 0 →
  wp (bmap ip bn) s (λ r s', r = fblk (cur s) (addrs s ip) bn ∧
    ∃ t', s' = set_txn t' s ∧ tgo (fs_txn s) t' (tx_held (fs_txn s)) ∅ (cur s)).
Proof.
  intros Hi Hbn Hr Hb. pose proof Hi as [Hok Hh Hip Hd Hf].
  assert (set_txn (fs_txn s) s = s) as Es by by destruct s.
  destruct (decide (bn < NDIRECT)) as [Hlt|Hge].
  - unfold bmap. rewrite (proj2 (Z.ltb_lt _ _) Hlt). unfold addr_alloc. rewrite wp_bind, wp_gets.
    rewrite fblk_direct in Hb |- * by lia. fold (addrs s ip). rewrite (proj2 (Z.eqb_neq _ _) Hb), wp_ret.
    split; [done|]. exists (fs_txn s). split; [done|]. apply tgo_refl, Hok.
  - eapply wp_eq; [apply bmap_leaf; (done || lia)|].
    pose proof (fblk_ind_0 _ _ bn ltac:(lia) Hb) as Hind.
    rewrite wp_bind. unfold addr_alloc. rewrite wp_bind, wp_gets. fold (addrs s ip).
    change (Z.to_nat NDIRECT) with 12%nat. rewrite (proj2 (Z.eqb_neq _ _) Hind), wp_ret.
    assert (bn = NDIRECT + Z.of_nat (Z.to_nat (bn - NDIRECT))) as E by lia. set (k := Z.to_nat _) in *.
    rewrite E in *. apply (leaf_hit sb); try done. unfold MAXFILE in *. change NINDIRECT with 128 in *. lia.
Qed.

(** The indirect block, if the file has one. *)
Definition inds s (ip : nat) : gset Z :=
  if addrs s ip !!! 12%nat =? 0 then ∅ else {[addrs s ip !!! 12%nat]}.

(** Room for the blocks [M], the indirect block and [k] more. *)
Definition budget s (ip : nat) (M : gset Z) (k : Z) : Prop :=
  room (fs_txn s) (inds s ip ∪ M) (k + if addrs s ip !!! 12%nat =? 0 then 1 else 0).

Lemma budget_room s ip M M' k : M' ⊆ M → budget s ip M k → room (fs_txn s) M' k.
Proof.
  intros HM. unfold budget. apply room_mono; [set_solver|]. destruct (_ =? 0); lia.
Qed.

Lemma upd_ind sb ip s s' Y g : upd sb ip s s' Y g → addrs s ip !!! 12%nat ≠ 0 →
  addrs s' ip !!! 12%nat = addrs s ip !!! 12%nat.
Proof. intros G H. by apply (gr_blk _ _ _ _ _ _ G MAXFILE). Qed.

(** A block of the file costs one block of the budget. *)
Lemma budget_step sb ip s s' Y r M k g : fs_inv sb s ip → upd sb ip s s' Y g → Y ⊆ {[r]} ∪ inds s' ip →
  bitmap_blocks sb ⊆ M → budget s ip M (k + 1) → budget s' ip M k.
Proof.
  intros Hi G HY HM. destruct (gr_run _ _ _ _ _ _ G) as (W & HW & Ht). unfold budget, inds in *.
  destruct (Z.eqb_spec (addrs s ip !!! 12%nat) 0) as [E|E].
  - destruct (Z.eqb_spec (addrs s' ip !!! 12%nat) 0) as [E'|E']; intros Hr.
    + apply (room_use _ _ _ {[r]} _ _ _ Ht); [set_solver|].
      eapply room_mono; [|..|exact Hr]; [done|]. rewrite size_singleton. lia.
    + eapply room_step; [exact Ht|]. unfold room in *.
      assert (size ({[addrs s' ip !!! 12%nat]} ∪ M ∪ W ∪ tx_logged (fs_txn s)) ≤
        S (S (size (∅ ∪ M ∪ tx_logged (fs_txn s)))))%nat; [|lia].
      etransitivity; [apply (subseteq_size _ ({[r]} ∪ ({[addrs s' ip !!! 12%nat]} ∪ (∅ ∪ M ∪ tx_logged (fs_txn s)))));
        clear -HY HM HW; set_solver|].
      rewrite size_union_alt, size_singleton. apply le_n_S.
      etransitivity; [apply (subseteq_size _ ({[addrs s' ip !!! 12%nat]} ∪ (∅ ∪ M ∪ tx_logged (fs_txn s)))); clear; set_solver|].
      rewrite size_union_alt, size_singleton. apply le_n_S, subseteq_size. clear; set_solver.
  - rewrite (upd_ind _ _ _ _ _ _ G E) in *. rewrite (proj2 (Z.eqb_neq _ _) E) in *. intros Hr.
    apply (room_use _ _ _ {[r]} _ _ _ Ht); [clear -HY HM HW; set_solver|].
    eapply room_mono; [|..|exact Hr]; [done|]. rewrite size_singleton. lia.
Qed.

(** A missing block is allocated. *)
Lemma bmap_wp sb s ip bn n : fs_inv sb s ip → 0 ≤ bn < MAXFILE →
  alloc_ok sb (tx_home (fs_txn s)) (cur s) (S (S n)) → budget s ip (bitmap_blocks sb) 2 →
  wp (bmap ip bn) s (λ r s', ∃ Y, grow sb ip s s' Y ∧ Y ⊆ {[r]} ∪ inds s' ip ∧
    alloc_ok sb (tx_home (fs_txn s)) (cur s') n ∧
    r = fblk (cur s') (addrs s' ip) bn ∧ r ≠ 0).
Proof.
  intros Hi Hbn Ha Hr. pose proof Hi as [Hok Hh Hip Hd Hf].
  destruct (decide (bn < NDIRECT)) as [Hlt|Hge].
  - unfold bmap. rewrite (proj2 (Z.ltb_lt _ _) Hlt).
    wpa (addr_alloc_wp sb s ip (Z.to_nat bn) (S n)); [done|unfold NDIRECT in *; lia|done| |].
    { eapply room_mono; [..|eapply budget_room; [|exact Hr]; done]; [done|lia]. }
    intros x s' (Y & Hg & HY & Ha' & -> & Hx & _). exists Y. split_and!; try done; [set_solver| |].
    + eapply alloc_ok_mono; [|exact Ha']. lia.
    + by rewrite fblk_direct by lia.
  - eapply wp_eq; [apply bmap_leaf; (done || lia)|]. rewrite wp_bind.
    wpa (addr_alloc_wp sb s ip 12 (S n)); [done|lia|done| |].
    { eapply room_mono; [..|eapply budget_room; [|exact Hr]; done]; [done|lia]. }
    intros x s1 (Y1 & Hg1 & HY1 & Ha1 & Ex & Hx & Hsame). subst x.
    pose proof (upd_inv _ _ _ _ _ _ Hg1 Hi) as Hi1. destruct (gr_run _ _ _ _ _ _ Hg1) as (W1 & HW1 & T1).
    pose proof (tg_home _ _ _ _ _ T1) as Eh. set (k := Z.to_nat (bn - NDIRECT)).
    assert (k < 128)%nat as Hk by (unfold k, MAXFILE in *; change NINDIRECT with 128 in *; lia).
    assert (bn = NDIRECT + Z.of_nat k) as Ebn by (unfold k; lia).
    assert (room (fs_txn s1) (bitmap_blocks sb) 2) as Hr1.
    { unfold budget, inds in Hr. destruct (Z.eqb_spec (addrs s ip !!! 12%nat) 0) as [E|E].
      - apply (room_use _ _ _ {[addrs s1 ip !!! 12%nat]} _ _ _ T1); [clear -HY1 HW1; set_solver|].
        rewrite size_singleton. eapply room_mono; [|..|exact Hr]; [set_solver|lia].
      - rewrite (Hsame E). eapply room_mono; [|..|exact Hr]; [set_solver|lia]. }
    assert (inds s1 ip = {[addrs s1 ip !!! 12%nat]}) as Ei1 by (unfold inds; by rewrite (proj2 (Z.eqb_neq _ _) Hx)).
    destruct (decide (fblk (cur s1) (addrs s1 ip) bn = 0)) as [E0|E0].
    + wpa (leaf_alloc sb s1 ip k n); [done|done|done|by rewrite Eh|done|by rewrite <- Ebn|].
      rewrite Eh, <- Ebn. intros r s2 (Hr0 & Er & Hg2 & Ha2).
      exists (Y1 ∪ {[r; addrs s1 ip !!! 12%nat]}). split_and!; try done; [by eapply grow_trans|].
      unfold inds. rewrite (upd_ind _ _ _ _ _ _ Hg2 Hx), (proj2 (Z.eqb_neq _ _) Hx). clear -HY1. set_solver.
    + wpa (leaf_hit sb s1 ip k); [done|done|done| |by rewrite <- Ebn|].
      { eapply room_mono; [|..|exact Hr1]; [set_solver|lia]. }
      rewrite <- Ebn. intros r s2 (-> & t2 & -> & Ht2).
      exists (Y1 ∪ ∅). split_and!; try done.
      * eapply grow_trans; [done|done|]. by apply grow_refl.
      * change (inds (set_txn t2 s1) ip) with (inds s1 ip). rewrite Ei1. clear -HY1. set_solver.
      * eapply alloc_ok_cur; [|eapply alloc_ok_mono; [|exact Ha1]; lia]. apply Ht2.
      * unfold fblk. change (addrs (set_txn t2 s1) ip) with (addrs s1 ip).
        change (cur (set_txn t2 s1)) with (tx_cur t2). by rewrite (tg_cur _ _ _ _ _ Ht2).
Qed.
End bmap.
