(* ===== verification/FsRW.v ===== *)
(** * Reading and writing files (fs.c)

    [readi] returns the bytes of the file; [writei] replaces the bytes of its
    range and extends the file, allocating the blocks it needs. *)

From stdpp Require Import base numbers option list gmap strings.
From Stdlib Require Import ZArith Lia ZifyBool.
From S2P Require Import Prelude Bytes CString Block Log Txn Fs FsBlocks FsFile.
Import Fs.
Local Open Scope Z_scope.

Lemma slice_fmap (d : bytes) (o m : nat) : (o + m ≤ length d)%nat →
  slice d o m = (λ i, d !!! (o + i)%nat) <$> seq 0 m.
Proof.
  intros Hl. unfold slice. apply list_eq. intros i. rewrite list_lookup_fmap.
  destruct (decide (i < m)%nat) as [Hi|Hi].
  - rewrite lookup_take_lt, lookup_drop, lookup_seq_lt by done. simpl. by rewrite arr_lookup by lia.
  - rewrite lookup_take_ge, lookup_seq_ge by lia. done.
Qed.

Section rw.
Context {T : Type} `{!BlockIO T} `{!TxnIO T} `{HT : !TxnSpec T}.
Implicit Types (t : T) (s : fstate T) (sb : superblock).

(** The [n] bytes of the file of [ip] from offset [off]. *)
Definition fbytes s (ip : nat) (off n : Z) : bytes :=
  (λ i, fbyte (cur s) (addrs s ip) (off + Z.of_nat i)) <$> seq 0 (Z.to_nat n).

Lemma length_fbytes s ip off n : length (fbytes s ip off n) = Z.to_nat n.
Proof. unfold fbytes. by rewrite length_fmap, length_seq. Qed.

Lemma fbytes_app s ip off n m : 0 ≤ n → 0 ≤ m →
  fbytes s ip off n ++ fbytes s ip (off + n) m = fbytes s ip off (n + m).
Proof.
  intros. unfold fbytes. rewrite Z2Nat.inj_add, seq_app, fmap_app by done. f_equal.
  replace (seq (0 + Z.to_nat n) (Z.to_nat m)) with (Nat.add (Z.to_nat n) <$> seq 0 (Z.to_nat m))
    by (rewrite fmap_add_seq; f_equal; lia).
  rewrite <- list_fmap_compose. apply list_fmap_ext.
  intros _ i _. simpl. f_equal. lia.
Qed.

(** ** Runs that read *)

Definition ro s s' : Prop :=
  ∃ t', s' = set_txn t' s ∧ tgo (fs_txn s) t' (tx_held (fs_txn s)) ∅ (cur s).

Lemma ro_refl sb s ip : fs_inv sb s ip → ro s s.
Proof. intros Hi. exists (fs_txn s). split; [by destruct s|]. apply tgo_refl, Hi. Qed.

Lemma ro_upd sb s ip s' : fs_inv sb s ip → ro s s' → upd sb ip s s' ∅ (fbyte (cur s) (addrs s ip)).
Proof. intros Hi (t' & -> & Ht). by apply grow_refl. Qed.

Lemma ro_cur s s' : ro s s' → ∀ m, cur s' m = cur s m.
Proof. intros (t' & -> & Ht). apply Ht. Qed.

Lemma ro_inode s s' : ro s s' → ∀ ip, inode_at s' ip = inode_at s ip.
Proof. by intros (t' & -> & Ht). Qed.

Lemma ro_inv sb s ip s' : fs_inv sb s ip → ro s s' → fs_inv sb s' ip.
Proof. intros Hi Hr. eapply upd_inv; [by apply ro_upd|done]. Qed.

Lemma ro_room s s' W k : ro s s' → room (fs_txn s) W k → room (fs_txn s') W k.
Proof. intros (t' & -> & Ht) Hr. eapply room_step; [exact Ht|]. by rewrite (right_id_L ∅ (∪)). Qed.

Lemma ro_trans s s1 s2 : ro s s1 → ro s1 s2 → ro s s2.
Proof.
  intros (t1 & -> & T1) (t2 & -> & T2). exists t2. split; [done|]. simpl in *.
  rewrite (tg_held _ _ _ _ _ T1) in T2. pose proof (tgo_trans _ _ _ _ _ _ _ _ _ T1 T2) as H.
  eapply tgo_ext; [exact H|set_solver|]. intros m. apply (tg_cur _ _ _ _ _ T1).
Qed.

Lemma ro_fblk s s' ip i : ro s s' → fblk (cur s') (addrs s' ip) i = fblk (cur s) (addrs s ip) i.
Proof. intros Hr. unfold fblk, addrs. by rewrite (ro_inode _ _ Hr), (ro_cur _ _ Hr). Qed.

Lemma ro_fbytes s s' ip off n : ro s s' → fbytes s' ip off n = fbytes s ip off n.
Proof.
  intros Hr. unfold fbytes, fbyte. apply list_fmap_ext. intros _ i _.
  by rewrite (ro_fblk _ _ _ _ Hr), (ro_cur _ _ Hr).
Qed.

(** ** readi *)

(** The part of a block that one pass of the loops moves. *)
Lemma pass_bound n tot off : tot < n → 0 ≤ off → let m := Z.min (n - tot) (BSIZE - off mod BSIZE) in
  0 < m ∧ off mod BSIZE + m ≤ BSIZE ∧ 0 ≤ off mod BSIZE ∧ m ≤ n - tot ∧
  (off + (n - tot) ≤ (off / BSIZE + 1) * BSIZE → m = n - tot) ∧
  (m ≠ n - tot → (off + m) / BSIZE = off / BSIZE + 1) ∧
  ∀ i, 0 ≤ i < m → (off + i) / BSIZE = off / BSIZE ∧ (off + i) mod BSIZE = off mod BSIZE + i.
Proof.
  intros Hn Ho m. pose proof (Z.mod_pos_bound off BSIZE ltac:(unfold BSIZE; lia)).
  pose proof (Z.div_mod off BSIZE ltac:(unfold BSIZE; lia)) as E. unfold BSIZE in *.
  split_and!; try lia.
  - intros Hm. replace (off + m) with ((off / 512 + 1) * 512 + 0) by lia.
    rewrite Z.div_add_l, Z.div_0_l by lia. lia.
  - intros i Hi. replace (off + i) with (off / 512 * 512 + (off mod 512 + i)) by lia.
    rewrite Z.div_add_l, (Z.div_small (off mod 512 + i)) by lia. split; [lia|].
    rewrite Z.add_comm, Z.mod_add, (Z.mod_small (off mod 512 + i)) by lia. done.
Qed.

Lemma fblk_length sb s ip i : fs_inv sb s ip → 0 ≤ i ≤ MAXFILE → fblk (cur s) (addrs s ip) i ≠ 0 →
  length (cur s (fblk (cur s) (addrs s ip) i)) = Z.to_nat BSIZE.
Proof.
  intros [Hok _ _ _ Hf] Hi Hb. destruct (fk_data _ _ _ _ Hf i Hi Hb).
  pose proof (data_start_low _ _ (fo_geo _ _ Hok)). apply tx_cur_length; [apply Hok|lia].
Qed.

(** A range within one block. *)
Lemma fbytes_block sb s ip off m : fs_inv sb s ip → 0 ≤ off → 0 ≤ m →
  off / BSIZE < MAXFILE → off mod BSIZE + m ≤ BSIZE →
  (∀ i, 0 ≤ i < m → (off + i) / BSIZE = off / BSIZE ∧ (off + i) mod BSIZE = off mod BSIZE + i) →
  fblk (cur s) (addrs s ip) (off / BSIZE) ≠ 0 →
  slice (cur s (fblk (cur s) (addrs s ip) (off / BSIZE))) (Z.to_nat (off mod BSIZE)) (Z.to_nat m) =
  fbytes s ip off m.
Proof.
  intros Hi Ho Hm Hmax Hmo Hd Hb.
  pose proof (Z.mod_pos_bound off BSIZE ltac:(unfold BSIZE; lia)).
  pose proof (Z.div_pos off BSIZE Ho ltac:(unfold BSIZE; lia)).
  rewrite slice_fmap by (rewrite (fblk_length sb) by (done || lia); lia).
  unfold fbytes. apply list_fmap_ext. intros j i [-> Hj]%lookup_seq. simpl.
  unfold fbyte. destruct (Hd (Z.of_nat j)) as [-> ->]; [lia|].
  rewrite (proj2 (Z.eqb_neq _ _) Hb). f_equal. lia.
Qed.

Lemma readi_loop_wp sb fuel s ip n tot off dst : fs_inv sb s ip → room (fs_txn s) ∅ 0 →
  0 ≤ off → 0 ≤ tot ≤ n → (tot < n → off + (n - tot) ≤ (off / BSIZE + Z.of_nat fuel) * BSIZE) →
  off + (n - tot) ≤ MAXFILE * BSIZE →
  (∀ o, off ≤ o < off + (n - tot) → fblk (cur s) (addrs s ip) (o / BSIZE) ≠ 0) →
  wp (readi_loop fuel ip n tot off dst) s (λ d s',
    ro s s' ∧ d = dst ++ fbytes s ip off (n - tot)).
Proof.
  revert s tot off dst. induction fuel as [|fuel IH]; intros s tot off dst Hi Hr Ho Ht Hf Hmax Hd.
  { assert (off / BSIZE * BSIZE ≤ off). { rewrite Z.mul_comm. apply Z.mul_div_le. unfold BSIZE; lia. }
    assert (tot = n) as -> by (destruct (Z.lt_ge_cases tot n); lia).
    simpl. rewrite Z.ltb_irrefl, wp_ret. split; [by eapply ro_refl|].
    by rewrite Z.sub_diag, app_nil_r. }
  cbn [readi_loop]. destruct (Z.ltb_spec tot n) as [Hlt|].
  2:{ rewrite wp_ret. split; [by eapply ro_refl|]. replace (n - tot) with 0 by lia. by rewrite app_nil_r. }
  rewrite wp_bind, wp_gets, wp_bind.
  destruct (pass_bound n tot off Hlt Ho) as (Hm0 & Hmo & Ho0 & Hmn & Hml & Hm1 & Hdm).
  set (m := Z.min _ _) in *. specialize (Hd off ltac:(lia)) as Hb.
  assert (off / BSIZE < MAXFILE) as Hbm by (apply Z.div_lt_upper_bound; unfold BSIZE in *; lia).
  pose proof (Z.div_pos off BSIZE Ho ltac:(unfold BSIZE; lia)).
  wpa (bmap_hit sb s ip (off / BSIZE)); [done|lia|done|done|].
  intros r s1 (-> & Hro1). change (ro s s1) in Hro1. set (r := fblk _ _ _) in *.
  pose proof (ro_inv _ _ _ _ Hi Hro1) as Hi1. pose proof Hi1 as [Hok1 Hh1 _ _ Hf1].
  rewrite (fi_dev _ _ _ Hi).
  assert (fblk (cur s1) (addrs s1 ip) (off / BSIZE) = r) as Er by by rewrite (ro_fblk _ _ _ _ Hro1).
  destruct (fk_data _ _ _ _ Hf1 (off / BSIZE) ltac:(lia)) as [Hrr _]; [by rewrite Er|]. rewrite Er in Hrr.
  pose proof (data_start_low _ _ (fo_geo _ _ Hok1)).
  pose proof (tx_cap_bound _ (fo_inv _ _ Hok1)). pose proof (ro_room _ _ _ _ Hro1 Hr) as Hr1.
  unfold lift. rewrite wp_bind, wp_zoom.
  wpa tgo_bread; [apply tgo_refl, Hok1|lia|by apply held_empty|unfold room in Hr1; lia|].
  intros b t1 (Hbn & Ht1 & Ed). rewrite wp_bind, wp_gets, wp_bind, wp_zoom. unfold ibuf; simpl fs_txn.
  wpa tgo_brelse; [exact Ht1|apply lookup_insert_eq|by apply held_empty|by right|apply Hok1|].
  intros _ t2 Ht2. rewrite delete_insert_held in Ht2 by done. change (set_txn t2 _) with (set_txn t2 s1).
  assert (ro s (set_txn t2 s1)) as Hro by (eapply ro_trans; [done|by exists t2]).
  rewrite Ed. change (tx_cur (fs_txn s1) r) with (cur s1 r). rewrite (ro_cur _ _ Hro1).
  unfold r. rewrite (fbytes_block sb) by (done || lia).
  wpa IH; [exact (ro_inv _ _ _ _ Hi Hro)|exact (ro_room _ _ _ _ Hro Hr)|lia|lia| |lia| |].
  { intros ?. rewrite Hm1 by lia. specialize (Hf Hlt). lia. }
  { intros o Hoo. rewrite (ro_fblk _ _ _ _ Hro). apply Hd. lia. }
  intros d s' [Hro' ->]. split; [by eapply ro_trans|].
  rewrite (ro_fbytes _ _ _ _ _ Hro), <- (assoc_L (++)). f_equal.
  rewrite fbytes_app by lia. f_equal. lia.
Qed.

(** ** writei *)

(** The content [d] is written to block [bn] of the file. *)
Definition put_block s (ip : nat) (bn : Z) (d : block) (o : Z) : Z :=
  if o / BSIZE =? bn then d !!! Z.to_nat (o mod BSIZE) else fbyte (cur s) (addrs s ip) o.

Lemma upd_write sb s ip bn d t' : fs_inv sb s ip → 0 ≤ bn < MAXFILE →
  let r := fblk (cur s) (addrs s ip) bn in r ≠ 0 →
  tgo (fs_txn s) t' (tx_held (fs_txn s)) {[r]} (fupd (cur s) r d) →
  upd sb ip s (set_txn t' s) {[r]} (put_block s ip bn d).
Proof.
  intros [Hok Hh Hip Hdev Hf] Hbn r Hr Ht. pose proof (fo_geo _ _ Hok) as Hg.
  pose proof (data_start_low _ _ Hg). pose proof (ge_home _ _ Hg).
  destruct (fk_data _ _ _ _ Hf bn ltac:(lia) Hr) as [Hrr _]. fold r in Hrr.
  pose proof (tg_cur _ _ _ _ _ Ht) as Ec. change (tx_cur t') with (cur (set_txn t' s)) in Ec.
  assert (∀ m, m ≠ r → cur (set_txn t' s) m = cur s m) as Eo.
  { intros m Hm. rewrite Ec. unfold fupd. by rewrite decide_False. }
  assert (∀ i, fblk (cur (set_txn t' s)) (addrs s ip) i = fblk (cur s) (addrs s ip) i) as Eb.
  { intros i. unfold fblk. destruct (i <? NDIRECT), (i =? MAXFILE); try done.
    destruct (Z.eqb_spec (addrs s ip !!! 12%nat) 0) as [|E]; [done|]. rewrite Eo; [done|]. intros E'.
    assert (MAXFILE = bn); [|lia]. by apply (fk_inj _ _ _ _ Hf); [lia..| |]. }
  assert (∀ m, 0 ≤ m < sb_size sb →
    used (sb_ninodes sb) (cur (set_txn t' s)) m = used (sb_ninodes sb) (cur s) m) as Eu.
  { intros m Hm. unfold used. destruct (BBLOCK_range _ _ m Hg Hm). by rewrite Eo by lia. }
  constructor; change (addrs (set_txn t' s) ip) with (addrs s ip).
  - simpl. symmetry. apply list_insert_id. rewrite arr_lookup by done. f_equal.
    unfold addrs, inode_at. by destruct (fs_inodes s !!! ip).
  - done.
  - exists {[r]}. split; [set_solver|]. eapply tgo_ext; [exact Ht|done|]. intros m. by rewrite Ec.
  - intros o Ho. unfold fbyte, put_block. rewrite Eb, Ec. unfold fupd. case_decide as E.
    + destruct (Z.eqb_spec (fblk (cur s) (addrs s ip) (o / BSIZE)) 0) as [E'|E']; [congruence|].
      assert (o / BSIZE = bn) as ->; [|by rewrite Z.eqb_refl].
      pose proof (Z.div_pos o BSIZE ltac:(lia) ltac:(unfold BSIZE; lia)).
      pose proof (Z.div_lt_upper_bound o BSIZE MAXFILE ltac:(unfold BSIZE; lia) ltac:(lia)).
      by apply (fk_inj _ _ _ _ Hf); [lia..|done|].
    + destruct (Z.eqb_spec (o / BSIZE) bn) as [E2|]; [by rewrite E2 in E|done].
  - intros i _ _. apply Eb.
  - destruct Hf as [Hl Hda Hinj]. constructor; [done|..].
    + intros i Hi. rewrite Eb. intros Hi0. destruct (Hda i Hi Hi0). rewrite Eu by lia. done.
    + intros i j Hi Hj. rewrite !Eb. by apply Hinj.
  - intros m Hm. by rewrite Eu.
  - intros m _ _ Hm. apply Eo. intros ->. by apply (Hm bn); [lia|].
  - intros m Hm _. apply Eo. lia.
  - intros i _ Hi0 Hi1. by rewrite Eb in Hi1.
Qed.

Lemma budget_mono s ip M k k' : k ≤ k' → budget s ip M k' → budget s ip M k.
Proof. intros ?. unfold budget. apply room_mono; [done|]. lia. Qed.

(** The bytes after [v] is written at [off]. *)
Definition splice s (ip : nat) (off : Z) (v : bytes) (o : Z) : Z :=
  if (off <=? o) && (o <? off + Z.of_nat (length v)) then v !!! Z.to_nat (o - off)
  else fbyte (cur s) (addrs s ip) o.

(** Every block of the range is allocated. *)
Definition dense s (ip : nat) (off n : Z) : Prop :=
  ∀ o, off ≤ o < off + n → fblk (cur s) (addrs s ip) (o / BSIZE) ≠ 0.

Lemma upd_dense sb s s' ip Y g off n : upd sb ip s s' Y g → 0 ≤ off → off + n ≤ MAXFILE * BSIZE →
  dense s ip off n → dense s' ip off n.
Proof.
  intros U Ho Hm Hd o Hoo. specialize (Hd o Hoo). rewrite (gr_blk _ _ _ _ _ _ U); [done| |done].
  pose proof (Z.div_pos o BSIZE ltac:(lia) ltac:(unfold BSIZE; lia)).
  pose proof (Z.div_lt_upper_bound o BSIZE MAXFILE ltac:(unfold BSIZE; lia) ltac:(lia)). lia.
Qed.

Lemma splice_block sb s s1 ip off v Y : fs_inv sb s1 ip → upd sb ip s s1 Y (fbyte (cur s) (addrs s ip)) →
  0 ≤ off → off mod BSIZE + Z.of_nat (length v) ≤ BSIZE → off / BSIZE < MAXFILE →
  let r := fblk (cur s1) (addrs s1 ip) (off / BSIZE) in r ≠ 0 →
  ∀ o, 0 ≤ o < MAXFILE * BSIZE →
  put_block s1 ip (off / BSIZE) (put (cur s1 r) (Z.to_nat (off mod BSIZE)) v) o = splice s ip off v o.
Proof.
  intros Hi U Ho Hv Hb r Hr o Hoo. unfold put_block, splice.
  rewrite <- (gr_bytes _ _ _ _ _ _ U o Hoo).
  pose proof (Z.mod_pos_bound off BSIZE ltac:(unfold BSIZE; lia)).
  pose proof (Z.mod_pos_bound o BSIZE ltac:(unfold BSIZE; lia)).
  pose proof (Z.div_mod off BSIZE ltac:(unfold BSIZE; lia)).
  pose proof (Z.div_mod o BSIZE ltac:(unfold BSIZE; lia)).
  pose proof (Z.div_pos off BSIZE Ho ltac:(unfold BSIZE; lia)).
  pose proof (fblk_length sb s1 ip (off / BSIZE) Hi ltac:(lia) Hr) as Hl. fold r in Hl.
  destruct (Z.eqb_spec (o / BSIZE) (off / BSIZE)) as [E|E].
  - destruct (Z.leb_spec off o); [destruct (Z.ltb_spec o (off + Z.of_nat (length v)))|]; simpl.
    + rewrite put_lookup_in by lia. f_equal. lia.
    + rewrite put_lookup_out by lia. unfold fbyte. rewrite E. fold r. by rewrite (proj2 (Z.eqb_neq _ _) Hr).
    + rewrite put_lookup_out by lia. unfold fbyte. rewrite E. fold r. by rewrite (proj2 (Z.eqb_neq _ _) Hr).
  - replace ((off <=? o) && (o <? off + Z.of_nat (length v))) with false; [done|]. symmetry.
    apply andb_false_iff. rewrite Z.leb_gt, Z.ltb_ge.
    destruct (Z.lt_ge_cases o off); [by left|right]. unfold BSIZE in *.
    destruct (Z.lt_ge_cases o (off + Z.of_nat (length v))); [|lia]. exfalso. apply E.
    apply Z.div_unique with (o - 512 * (off / 512)); lia.
Qed.

(** One pass of the loop of writei writes [v] within a block. *)
Lemma write_pass {A} sb s ip off v q (kont : kM (fstate T) A) Q : fs_inv sb s ip → 0 ≤ off →
  off mod BSIZE + Z.of_nat (length v) ≤ BSIZE → off / BSIZE < MAXFILE →
  (∀ i, 0 ≤ i < Z.of_nat (length v) → (off + i) / BSIZE = off / BSIZE) →
  alloc_ok sb (tx_home (fs_txn s)) (cur s) (S (S q)) → budget s ip (bitmap_blocks sb) 2 →
  (∀ s' Y r, upd sb ip s s' Y (splice s ip off v) → Y ⊆ {[r]} ∪ inds s' ip →
    dense s' ip off (Z.of_nat (length v)) → alloc_ok sb (tx_home (fs_txn s)) (cur s') q → wp kont s' Q) →
  wp (addr ← bmap ip (off / BSIZE); bp ← lift (bread ROOTDEV addr);
      _ ← modify (λ s, set_ibuf bp (put (ibuf s bp) (Z.to_nat (off mod BSIZE)) v) s);
      _ ← lift (log_write bp); _ ← lift (brelse bp); kont) s Q.
Proof.
  intros Hi Ho Hv Hb Hdv Ha Hbu Hk. pose proof (Z.div_pos off BSIZE Ho ltac:(unfold BSIZE; lia)).
  rewrite wp_bind. wpa (bmap_wp sb s ip (off / BSIZE) q); [done|lia|done|done|].
  intros r s1 (Y & U & HY & Ha1 & Er & Hr). pose proof (upd_inv _ _ _ _ _ _ U Hi) as Hi1.
  pose proof Hi1 as [Hok1 Hh1 Hip1 _ Hf1]. pose proof (data_start_low _ _ (fo_geo _ _ Hok1)).
  destruct (fk_data _ _ _ _ Hf1 (off / BSIZE) ltac:(lia)) as [Hrr _]; [congruence|]. rewrite <- Er in Hrr.
  assert (room (fs_txn s1) ∅ 1) as Hr1.
  { eapply (budget_room s1 ip (bitmap_blocks sb)); [set_solver|]. by eapply (budget_step sb ip s s1). }
  pose proof (tx_cap_bound _ (fo_inv _ _ Hok1)).
  unfold lift. rewrite wp_bind, wp_zoom.
  wpa tgo_bread; [apply tgo_refl, Hok1|lia|by apply held_empty|unfold room in Hr1; lia|].
  intros b t1 (Hbn & Ht1 & Ed). rewrite wp_bind, wp_modify. unfold set_ibuf, ibuf; simpl fs_txn. rewrite Ed.
  assert (length (cur s1 r) = Z.to_nat BSIZE) as Hl by (apply tx_cur_length; [apply Hok1|lia]).
  pose proof (tgo_set _ _ _ _ _ b r (put (cur s1 r) (Z.to_nat (off mod BSIZE)) v) Ht1 (lookup_insert_eq _ _ _))
    as Ht2.
  rewrite length_put in Ht2. specialize (Ht2 Hl). rewrite wp_bind, wp_zoom. simpl fs_txn.
  wpa tgo_log_write; [exact Ht2|apply lookup_insert_eq|lia|unfold room in Hr1; lia|].
  intros _ t3 Ht3. rewrite (right_id_L ∅ (∪)) in Ht3. rewrite wp_bind, wp_zoom. simpl fs_txn.
  wpa tgo_brelse; [exact Ht3|apply lookup_insert_eq|by apply held_empty|left; set_solver|apply Hok1|].
  intros _ t4 Ht4. rewrite delete_insert_held in Ht4 by done. change (set_txn t4 _) with (set_txn t4 s1).
  pose proof (upd_write sb s1 ip (off / BSIZE) (put (cur s1 r) (Z.to_nat (off mod BSIZE)) v) t4 Hi1 ltac:(lia)) as U2.
  cbv zeta in U2. rewrite <- Er in U2. specialize (U2 Hr Ht4).
  pose proof (upd_trans _ _ _ _ _ _ _ _ _ Hi U U2) as U3.
  apply (Hk _ (Y ∪ {[r]}) r).
  - eapply upd_bytes; [exact U3|]. rewrite Er. apply (splice_block sb s s1 ip off v Y); try done. congruence.
  - change (inds (set_txn t4 s1) ip) with (inds s1 ip). clear -HY. set_solver.
  - intros o Hoo. replace o with (off + (o - off)) by lia. rewrite Hdv by lia.
    rewrite (gr_blk _ _ _ _ _ _ U2); [congruence|lia|congruence].
  - eapply alloc_ok_used; [|exact Ha1]. intros m Hm. unfold used.
    destruct (BBLOCK_range _ _ m (fo_geo _ _ Hok1) Hm).
    change (cur (set_txn t4 s1)) with (tx_cur t4). rewrite (tg_cur _ _ _ _ _ Ht4).
    unfold fupd. by rewrite decide_False by lia.
Qed.

Lemma budget_sub s ip M M' k : M' ⊆ M → budget s ip M k → budget s ip M' k.
Proof. intros ?. unfold budget. apply room_mono; [set_solver|done]. Qed.

Lemma splice_nil s ip off o : splice s ip off [] o = fbyte (cur s) (addrs s ip) o.
Proof.
  unfold splice. change (Z.of_nat (length [])) with 0. rewrite Z.add_0_r.
  destruct (Z.leb_spec off o), (Z.ltb_spec o off); simpl; lia || done.
Qed.

Lemma splice_app sb s s1 ip Y off v1 v2 o : upd sb ip s s1 Y (splice s ip off v1) → 0 ≤ o < MAXFILE * BSIZE →
  splice s1 ip (off + Z.of_nat (length v1)) v2 o = splice s ip off (v1 ++ v2) o.
Proof.
  intros U Ho. unfold splice at 1. rewrite (gr_bytes _ _ _ _ _ _ U o Ho). unfold splice.
  rewrite length_app, Nat2Z.inj_add.
  destruct (Z.leb_spec off o); simpl.
  - destruct (Z.leb_spec (off + Z.of_nat (length v1)) o); simpl.
    + rewrite Z.add_assoc. destruct (Z.ltb_spec o (off + Z.of_nat (length v1) + Z.of_nat (length v2))).
      * rewrite lookup_total_app_r by lia. f_equal. lia.
      * by rewrite (proj2 (Z.ltb_ge o (off + Z.of_nat (length v1)))) by lia.
    + rewrite (proj2 (Z.ltb_lt o (off + Z.of_nat (length v1)))) by lia.
      rewrite (proj2 (Z.ltb_lt o (off + _))) by lia. by rewrite lookup_total_app_l by lia.
  - by rewrite (proj2 (Z.leb_gt (off + Z.of_nat (length v1)) o)) by lia.
Qed.

Lemma slice_app (src : bytes) a b c : slice src a b ++ slice src (a + b) c = slice src a (b + c).
Proof. unfold slice. rewrite <- drop_drop. by rewrite take_take_drop. Qed.

Lemma slice_0 (src : bytes) a : slice src a 0 = [].
Proof. done. Qed.

Lemma write_done sb s ip off q q' M k : fs_inv sb s ip → (q ≤ q')%nat → 1 ≤ k →
  alloc_ok sb (tx_home (fs_txn s)) (cur s) q' → budget s ip M k →
  off = off + 0 ∧ ∃ Y, upd sb ip s s Y (splice s ip off []) ∧ dense s ip off 0 ∧
    alloc_ok sb (tx_home (fs_txn s)) (cur s) q ∧ budget s ip M 1.
Proof.
  intros Hi Hq Hk Ha Hb. split; [lia|]. exists ∅. split_and!.
  - eapply upd_bytes; [by apply grow_same|]. intros. by rewrite splice_nil.
  - intros o ?. lia.
  - by eapply alloc_ok_mono.
  - by eapply budget_mono.
Qed.

Lemma writei_loop_wp sb fuel k s ip src n tot off q : fs_inv sb s ip → 0 ≤ off → 0 ≤ tot ≤ n →
  n ≤ Z.of_nat (length src) →
  (tot < n → off + (n - tot) ≤ (off / BSIZE + Z.of_nat k) * BSIZE) → (k ≤ fuel)%nat →
  off + (n - tot) ≤ MAXFILE * BSIZE → alloc_ok sb (tx_home (fs_txn s)) (cur s) (2 * k + q) →
  ∀ M, bitmap_blocks sb ⊆ M → budget s ip M (Z.of_nat k + 1) →
  wp (writei_loop fuel ip src n tot off) s (λ r s', r = off + (n - tot) ∧ ∃ Y,
    upd sb ip s s' Y (splice s ip off (slice src (Z.to_nat tot) (Z.to_nat (n - tot)))) ∧
    dense s' ip off (n - tot) ∧ alloc_ok sb (tx_home (fs_txn s)) (cur s') q ∧ budget s' ip M 1).
Proof.
  intros Hi Ho Ht Hn Hk Hfu Hmax Ha M HM Hbu. revert s k tot off Hi Ho Ht Hk Hfu Hmax Ha Hbu.
  induction fuel as [|fuel IH]; intros s k tot off Hi Ho Ht Hk Hfu Hmax Ha Hbu.
  { assert (tot = n) as ->.
    { pose proof (Z.mul_div_le off BSIZE ltac:(unfold BSIZE; lia)). assert (k = 0%nat) as -> by lia. unfold BSIZE in *. destruct (Z.lt_ge_cases tot n); lia. }
    simpl. rewrite Z.ltb_irrefl, wp_ret, Z.sub_diag. apply (write_done sb s ip off q (2 * k + q) M (Z.of_nat k + 1)); try done; lia. }
  cbn [writei_loop]. destruct (Z.ltb_spec tot n) as [Hlt|].
  2:{ assert (tot = n) as -> by lia. rewrite wp_ret, Z.sub_diag.
    apply (write_done sb s ip off q (2 * k + q) M (Z.of_nat k + 1)); try done; lia. }
  rewrite wp_bind, wp_gets, (fi_dev _ _ _ Hi).
  destruct (pass_bound n tot off Hlt Ho) as (Hm0 & Hmo & Ho0 & Hmn & Hml & Hm1 & Hdm).
  set (m := Z.min _ _) in *. set (v := slice src (Z.to_nat tot) (Z.to_nat m)).
  assert (Z.of_nat (length v) = m) as Ev by (unfold v, slice; rewrite length_take, length_drop; lia).
  destruct k as [|k].
  { pose proof (Z.div_mod off BSIZE ltac:(unfold BSIZE; lia)). specialize (Hk Hlt). unfold BSIZE in *. lia. }
  eapply (write_pass sb s ip off v (2 * k + q)); try done; [by rewrite Ev| | | | |].
  { apply Z.div_lt_upper_bound; unfold BSIZE in *; lia. }
  { intros i Hii. apply Hdm. lia. }
  { by replace (S (S (2 * k + q))) with (2 * S k + q)%nat by lia. }
  { eapply budget_mono; [|by eapply budget_sub]. lia. }
  rewrite Ev. intros s1 Y1 r U1 HY1 Hd1 Ha1.
  destruct (gr_run _ _ _ _ _ _ U1) as (W & _ & Ht1). pose proof (tg_home _ _ _ _ _ Ht1) as Eh.
  wpa (IH s1 k (tot + m) (off + m)); [by eapply upd_inv|lia|lia| |lia|lia|by rewrite Eh| |].
  { intros ?. rewrite Hm1 by lia. specialize (Hk Hlt). lia. }
  { eapply (budget_step sb ip s s1); try done. replace (Z.of_nat k + 1 + 1) with (Z.of_nat (S k) + 1) by lia. done. }
  rewrite Eh. intros r' s2 (-> & Y2 & U2 & Hd2 & Ha2 & Hb2). split; [lia|]. exists (Y1 ∪ Y2).
  split_and!; try done.
  - eapply upd_bytes; [by eapply upd_trans|]. intros o Hoo.
    rewrite <- Ev at 1. rewrite (splice_app sb s s1 ip Y1) by done. unfold v.
    rewrite Z2Nat.inj_add, slice_app by lia. do 2 f_equal. lia.
  - intros o Hoo. destruct (Z.lt_ge_cases o (off + m)).
    + eapply (upd_dense sb s1 s2 ip Y2 _ off m); [done|lia|lia|done|lia].
    + apply Hd2. lia.
Qed.

(** ** iupdate *)

(** The block of inode [inum] is neither a bitmap block nor a data block. *)
Lemma iblock_range sb home inum : geometry sb home → 0 ≤ inum < sb_ninodes sb →
  2 ≤ IBLOCK inum < data_start sb ∧ IBLOCK inum ∉ bitmap_blocks sb.
Proof.
  intros Hg Hi. pose proof (BBLOCK_range sb home 0 Hg) as H0. pose proof (ge_home _ _ Hg).
  destruct H0 as [H0 _]; [lia|]. unfold IBLOCK, BBLOCK, IPB, BSIZE, sizeof_dinode in *. change (512 / 64) with 8 in *.
  pose proof (Z.div_pos inum 8 ltac:(lia) ltac:(lia)).
  pose proof (Z.div_le_mono inum (sb_ninodes sb) 8 ltac:(lia) ltac:(lia)).
  change (0 / BPB) with 0 in H0. split; [lia|].
  intros (b & E & Hb%elem_of_seqZ)%elem_of_list_to_set%list_elem_of_fmap.
  unfold BBLOCK, IPB, BSIZE, sizeof_dinode in E. change (512 / 64) with 8 in E.
  pose proof (Z.div_pos b BPB ltac:(lia) ltac:(unfold BPB, BSIZE; lia)). lia.
Qed.

Lemma length_put_addrs d o a : length (put_addrs d o a) = length d.
Proof.
  unfold put_addrs. generalize (seq 0 13). intros l. revert d. induction l as [|i l IH]; intros d; [done|].
  simpl. rewrite IH. unfold put32. by rewrite length_put.
Qed.

Lemma length_dinode_store d o ip : length (dinode_store d o ip) = length d.
Proof. unfold dinode_store, put16, put32. by rewrite length_put_addrs, !length_put. Qed.

Lemma iupdate_wp sb s ip : fs_ok sb (fs_txn s) → tx_held (fs_txn s) = ∅ →
  i_dev (inode_at s ip) = ROOTDEV → 0 ≤ i_inum (inode_at s ip) < sb_ninodes sb → room (fs_txn s) ∅ 1 →
  let x := inode_at s ip in let n := IBLOCK (i_inum x) in
  wp (iupdate ip) s (λ _ s', ∃ t', s' = set_txn t' s ∧ tgo (fs_txn s) t' (tx_held (fs_txn s)) {[n]}
    (fupd (cur s) n (dinode_store (cur s n) (dinode_off (i_inum x)) x))).
Proof.
  intros Hok Hh Hdev Hin Hr x n. pose proof (data_start_low _ _ (fo_geo _ _ Hok)).
  destruct (iblock_range _ _ _ (fo_geo _ _ Hok) Hin) as [Hn _]. fold x in Hn. fold n in Hn.
  pose proof (tx_cap_bound _ (fo_inv _ _ Hok)).
  unfold iupdate, lift. rewrite wp_bind, wp_gets. fold x. fold n. fold x in Hdev. rewrite Hdev.
  rewrite wp_bind, wp_zoom.
  wpa tgo_bread; [apply tgo_refl, Hok|lia|by apply held_empty|unfold room in Hr; lia|].
  intros b t1 (Hbn & Ht1 & Ed). rewrite wp_bind, wp_modify. unfold set_ibuf, ibuf; simpl fs_txn. rewrite Ed.
  pose proof (update_run (fs_txn s) n b t1 (dinode_store (cur s n) (dinode_off (i_inum x)) x)) as Hu.
  specialize (Hu (fo_inv _ _ Hok) ltac:(lia) (held_empty _ _ Hh) Hr Hbn).
  rewrite length_dinode_store in Hu. specialize (Hu ltac:(apply tx_cur_length; [apply Hok|lia]) Ht1).
  rewrite wp_bind in Hu. rewrite wp_bind, wp_zoom. simpl fs_txn.
  wpa Hu. intros [] t2 Ht2. rewrite wp_zoom. wpa Ht2. intros [] t3 Ht3. by exists t3.
Qed.

(** A change of an inode block leaves the files as they are. *)
Record same_files sb (home : Z) (f f' : Z → block) (a : list Z) : Prop := mkSame {
  sf_blk : ∀ i, 0 ≤ i ≤ MAXFILE → fblk f' a i = fblk f a i;
  sf_byte : ∀ o, 0 ≤ o < MAXFILE * BSIZE → fbyte f' a o = fbyte f a o;
  sf_used : ∀ b, 0 ≤ b < sb_size sb → used (sb_ninodes sb) f' b = used (sb_ninodes sb) f b;
  sf_file : file_ok sb home f' a
}.

Lemma inode_block_same sb home f f' a n : geometry sb home → file_ok sb home f a →
  n < data_start sb → n ∉ bitmap_blocks sb → (∀ m, m ≠ n → f' m = f m) → same_files sb home f f' a.
Proof.
  intros Hg Hf Hn Hnb Hff. pose proof (ge_home _ _ Hg). pose proof (data_start_low _ _ Hg). pose proof (ge_size _ _ Hg).
  assert (∀ i, fblk f' a i = fblk f a i) as Eb.
  { intros i. unfold fblk. destruct (i <? NDIRECT), (i =? MAXFILE); try done.
    destruct (Z.eqb_spec (a !!! 12%nat) 0) as [|E]; [done|].
    destruct (file_ok_ind _ _ _ _ Hf E). rewrite Hff; [done|lia]. }
  assert (∀ b, 0 ≤ b < sb_size sb → used (sb_ninodes sb) f' b = used (sb_ninodes sb) f b) as Eu.
  { intros b Hb. unfold used. rewrite Hff; [done|]. intros E. apply Hnb. rewrite <- E. by apply bitmap_in. }
  constructor.
  - auto.
  - intros o Ho. unfold fbyte. rewrite Eb.
    destruct (Z.eqb_spec (fblk f a (o / BSIZE)) 0) as [|E]; [done|].
    pose proof (Z.div_pos o BSIZE ltac:(lia) ltac:(unfold BSIZE; lia)).
    pose proof (Z.div_lt_upper_bound o BSIZE MAXFILE ltac:(unfold BSIZE; lia) ltac:(lia)).
    destruct (fk_data _ _ _ _ Hf (o / BSIZE) ltac:(lia) E). rewrite Hff; [done|lia].
  - done.
  - destruct Hf as [Hl Hd Hin]. constructor; [done|..].
    + intros i Hi. rewrite Eb. intros Hi0. destruct (Hd i Hi Hi0). rewrite Eu by lia. done.
    + intros i j Hi Hj. rewrite !Eb. by apply Hin.
Qed.

(** [s'] is [s] after [v] has been written at [off] in the file of [ip]. *)
Record written sb (ip : nat) s s' (off : Z) (v : bytes) : Prop := mkWritten {
  wt_inv : fs_inv sb s' ip;
  wt_inode : inode_at s' ip = i_set_size (Z.max (i_size (inode_at s ip)) (off + Z.of_nat (length v)))
    (i_set_addrs (addrs s' ip) (inode_at s ip));
  wt_bytes : ∀ o, 0 ≤ o < MAXFILE * BSIZE →
    fbyte (cur s') (addrs s' ip) o = splice s ip off v o;
  wt_dense : dense s' ip off (Z.of_nat (length v));
  wt_kept : ∀ o n, 0 ≤ o → o + n ≤ MAXFILE * BSIZE → dense s ip o n → dense s' ip o n;
  wt_others : ∀ j, j ≠ ip → inode_at s' j = inode_at s j;
  wt_frame : ∀ m, data_start sb ≤ m < sb_size sb → used (sb_ninodes sb) (cur s) m = true →
    (∀ i, 0 ≤ i ≤ MAXFILE → fblk (cur s) (addrs s ip) i ≠ m) → cur s' m = cur s m;
  wt_disk : let n := IBLOCK (i_inum (inode_at s ip)) in
    cur s' n = if i_size (inode_at s ip) <? off + Z.of_nat (length v)
      then dinode_store (cur s n) (dinode_off (i_inum (inode_at s ip))) (inode_at s' ip)
      else cur s n;
  wt_blk : ∀ i, 0 ≤ i ≤ MAXFILE → fblk (cur s) (addrs s ip) i ≠ 0 →
    fblk (cur s') (addrs s' ip) i = fblk (cur s) (addrs s ip) i;
  wt_base : tx_base (fs_txn s') = tx_base (fs_txn s);
  wt_home : tx_home (fs_txn s') = tx_home (fs_txn s);
  wt_len : length (fs_inodes s') = length (fs_inodes s)
}.

(** Blocks a write of [n] bytes at [off] touches. *)
Definition touched (off n : Z) : nat :=
  Z.to_nat ((off + n + BSIZE - 1) / BSIZE - off / BSIZE).

Lemma touched_bound off n : 0 ≤ off → 0 ≤ n →
  off + n ≤ (off / BSIZE + Z.of_nat (touched off n)) * BSIZE ∧ (touched off n ≤ Z.to_nat (n / BSIZE + 2))%nat.
Proof.
  intros Ho Hn. unfold touched, BSIZE. split; Z.to_euclidean_division_equations; lia.
Qed.

Section finish.
Variables (sb : superblock) (ip : nat) (s s1 : fstate T) (off : Z) (v : bytes) (Y : gset Z).
Hypothesis Hi : fs_inv sb s ip.
Hypothesis Hin : 0 ≤ i_inum (inode_at s ip) < sb_ninodes sb.
Hypothesis U : upd sb ip s s1 Y (splice s ip off v).
Hypothesis Hd : dense s1 ip off (Z.of_nat (length v)).
Hypothesis Hoff : 0 ≤ off ∧ off + Z.of_nat (length v) ≤ MAXFILE * BSIZE.

Lemma upd_inode_at : inode_at s1 ip = i_set_addrs (addrs s1 ip) (inode_at s ip).
Proof. unfold inode_at at 1. by rewrite (gr_inodes _ _ _ _ _ _ U), arr_insert_eq by apply Hi. Qed.

Lemma upd_inode_other j : j ≠ ip → inode_at s1 j = inode_at s j.
Proof. intros Hj. unfold inode_at. by rewrite (gr_inodes _ _ _ _ _ _ U), arr_insert_ne. Qed.

Lemma upd_iblock : let n := IBLOCK (i_inum (inode_at s ip)) in
  n < data_start sb ∧ n ∉ bitmap_blocks sb ∧ cur s1 n = cur s n.
Proof.
  destruct (iblock_range _ _ _ (fo_geo _ _ (fi_ok _ _ _ Hi)) Hin) as [? ?].
  split_and!; [lia|done|]. apply (gr_low _ _ _ _ _ _ U); [lia|done].
Qed.

(** The file does not get longer. *)
Lemma written_same : off + Z.of_nat (length v) ≤ i_size (inode_at s ip) → written sb ip s s1 off v.
Proof using All.
  intros Hle. destruct upd_iblock as (_ & _ & En). constructor; try done.
  - by eapply upd_inv.
  - rewrite upd_inode_at, Z.max_l by done. by destruct (inode_at s ip).
  - apply U.
  - intros o k ? ?. by apply (upd_dense sb s s1 ip Y (splice s ip off v)).
  - apply upd_inode_other.
  - apply U.
  - by rewrite (proj2 (Z.ltb_ge _ _)).
  - apply U.
  - by destruct (gr_run _ _ _ _ _ _ U) as (W & _ & []).
  - by destruct (gr_run _ _ _ _ _ _ U) as (W & _ & []).
  - by rewrite (gr_inodes _ _ _ _ _ _ U), length_insert.
Qed.

(** The new size is stored in the inode and on the disk. *)
Lemma written_longer t : i_size (inode_at s ip) < off + Z.of_nat (length v) →
  let s2 := upd_inode ip (i_set_size (off + Z.of_nat (length v))) s1 in
  let n := IBLOCK (i_inum (inode_at s2 ip)) in
  tgo (fs_txn s2) t (tx_held (fs_txn s2)) {[n]}
    (fupd (cur s2) n (dinode_store (cur s2 n) (dinode_off (i_inum (inode_at s2 ip))) (inode_at s2 ip))) →
  written sb ip s (set_txn t s2) off v.
Proof using All.
  intros Hgt s2. pose proof (upd_inv _ _ _ _ _ _ U Hi) as [Hok1 Hh1 Hip1 Hdev1 Hf1].
  assert (inode_at s2 ip = i_set_size (off + Z.of_nat (length v)) (inode_at s1 ip)) as E2
    by by apply inode_at_upd.
  rewrite E2, upd_inode_at. cbn [i_inum i_set_size i_set_addrs]. destruct upd_iblock as (Hn1 & Hn2 & En).
  set (n := IBLOCK _) in *. intros Ht. set (s3 := set_txn t s2).
  pose proof (tg_cur _ _ _ _ _ Ht) as Ec. change (tx_cur t) with (cur s3) in Ec.
  destruct (inode_block_same sb (tx_home (fs_txn s1)) (cur s1) (cur s3) (addrs s1 ip) n) as [Sb Sy Su Sf];
    [apply Hok1|done..| |].
  { intros m Hm. rewrite Ec. unfold fupd. by rewrite decide_False. }
  assert (addrs s3 ip = addrs s1 ip) as Ea.
  { unfold addrs. change (inode_at s3 ip) with (inode_at s2 ip). by rewrite E2. }
  assert (inode_at s3 ip = i_set_size (off + Z.of_nat (length v)) (i_set_addrs (addrs s1 ip) (inode_at s ip))) as E3.
  { change (inode_at s3 ip) with (inode_at s2 ip). by rewrite E2, upd_inode_at. }
  assert (∀ m, m ≠ n → cur s3 m = cur s1 m) as Eo.
  { intros m Hm. rewrite Ec. unfold fupd. by rewrite decide_False. }
  assert (∀ o k, 0 ≤ o → o + k ≤ MAXFILE * BSIZE → dense s1 ip o k → dense s3 ip o k) as Hde.
  { intros o k Ho Hk Hdd x Hx. rewrite Ea, Sb; [by apply Hdd|].
    pose proof (Z.div_pos x BSIZE ltac:(lia) ltac:(unfold BSIZE; lia)).
    pose proof (Z.div_lt_upper_bound x BSIZE MAXFILE ltac:(unfold BSIZE; lia) ltac:(lia)). lia. }
  constructor; rewrite ?Ea.
  - constructor.
    + eapply fs_ok_step; [exact Hok1|exact Ht|]. unfold fupd. case_decide; [|done]. destruct (iblock_range _ _ _ (fo_geo _ _ Hok1) Hin). lia.
    + change (fs_txn s3) with t. by rewrite (tg_held _ _ _ _ _ Ht).
    + simpl. by rewrite length_insert.
    + rewrite E3. apply Hi.
    + rewrite Ea. change (fs_txn s3) with t. by rewrite (tg_home _ _ _ _ _ Ht).
  - rewrite E3, Z.max_r by lia. done.
  - intros o Ho. rewrite Sy by done. by apply U.
  - apply Hde; [lia|lia|done].
  - intros o k Ho Hk Hdd. apply Hde; [done..|]. by apply (upd_dense sb s s1 ip Y (splice s ip off v)).
  - intros j Hj. rewrite <- upd_inode_other by done. unfold inode_at; simpl. by rewrite arr_insert_ne.
  - intros m Hm Hu Hnf. rewrite Eo by lia. by apply U.
  - cbv zeta. fold n. rewrite (proj2 (Z.ltb_lt _ _)) by lia. change (set_txn t s2) with s3. rewrite Ec. unfold fupd. rewrite decide_True by done.
    rewrite E3. f_equal. done.
  - intros i Hii Hi0. rewrite Sb by done. by apply (gr_blk _ _ _ _ _ _ U).
  - destruct (gr_run _ _ _ _ _ _ U) as (W & _ & Hu). change (fs_txn s3) with t. rewrite (tg_base _ _ _ _ _ Ht). apply (tg_base _ _ _ _ _ Hu).
  - destruct (gr_run _ _ _ _ _ _ U) as (W & _ & Hu). change (fs_txn s3) with t. rewrite (tg_home _ _ _ _ _ Ht). apply (tg_home _ _ _ _ _ Hu).
  - simpl. by rewrite length_insert, (gr_inodes _ _ _ _ _ _ U), length_insert.
Qed.
End finish.

Lemma writei_wp dsw sb s ip src off n : fs_inv sb s ip → i_type (inode_at s ip) ≠ T_DEV →
  0 ≤ i_inum (inode_at s ip) < sb_ninodes sb → 0 ≤ off ≤ i_size (inode_at s ip) →
  0 ≤ n ≤ Z.of_nat (length src) → off + n ≤ MAXFILE * BSIZE →
  alloc_ok sb (tx_home (fs_txn s)) (cur s) (2 * touched off n) →
  budget s ip ({[IBLOCK (i_inum (inode_at s ip))]} ∪ bitmap_blocks sb) (Z.of_nat (touched off n) + 1) →
  wp (writei dsw ip src off n) s (λ r s', r = n ∧ written sb ip s s' off (take (Z.to_nat n) src) ∧
    room (fs_txn s') ∅ 0).
Proof.
  intros Hi Hty Hin Ho Hn Hmax Ha Hbu. unfold writei. rewrite wp_bind, wp_gets.
  rewrite (proj2 (Z.eqb_neq _ _) Hty), (proj2 (Z.ltb_ge _ _)) by lia.
  assert (MAXFILE * BSIZE = 71680) as Emax by done. rewrite (u32_small (off + n)) by lia.
  rewrite (proj2 (Z.ltb_ge (off + n) off)), (proj2 (Z.ltb_ge _ (off + n))) by lia. simpl.
  destruct (touched_bound off n) as [Hk Hfu]; [lia..|]. rewrite wp_bind.
  wpa (writei_loop_wp sb _ (touched off n) s ip src n 0 off 0); [done|lia|lia|lia|..|exact Hbu|].
  { rewrite Z.sub_0_r. done. } { done. } { lia. } { by rewrite Nat.add_0_r. } { set_solver. }
  rewrite Z.sub_0_r. change (slice src (Z.to_nat 0) (Z.to_nat n)) with (take (Z.to_nat n) src).
  set (v := take (Z.to_nat n) src).
  assert (n = Z.of_nat (length v)) as Ev by (unfold v; rewrite length_take; lia).
  intros r s1 (-> & Y & U & Hd & _ & Hb1). rewrite wp_bind, wp_gets. rewrite Ev in Hd.
  assert (room (fs_txn s1) ∅ 1) as Hr1 by (eapply (budget_room _ ip); [|exact Hb1]; set_solver).
  rewrite (upd_inode_at sb ip s s1 off v Y) by done. cbn [i_size i_set_addrs].
  destruct ((0 <? n) && (i_size (inode_at s ip) <? off + n)) eqn:Eg.
  - pose proof (upd_inv _ _ _ _ _ _ U Hi) as [Hok1 Hh1 Hip1 Hdev1 Hf1].
    rewrite wp_bind, wp_bind, wp_modify. rewrite Ev. set (s2 := upd_inode ip _ s1).
    assert (inode_at s2 ip = i_set_size (off + Z.of_nat (length v)) (inode_at s1 ip)) as E2
      by by apply inode_at_upd.
    wpa (iupdate_wp sb s2 ip); [done|done|by rewrite E2| |done|].
    { rewrite E2. rewrite (upd_inode_at sb ip s s1 off v Y) by done. done. }
    intros _ s3 (t3 & -> & Ht3). rewrite wp_ret. split; [apply i32_small; lia|]. split.
    + eapply written_longer; try done; lia.
    + eapply room_step; [exact Ht3|]. unfold room in *. change (fs_txn s2) with (fs_txn s1).
      rewrite (left_id_L ∅ (∪)). rewrite (left_id_L ∅ (∪)) in Hr1. rewrite size_union_alt, size_singleton.
      pose proof (subseteq_size (tx_logged (fs_txn s1) ∖ {[IBLOCK (i_inum (inode_at s2 ip))]})
        (tx_logged (fs_txn s1)) ltac:(set_solver)). lia.
  - rewrite wp_bind, !wp_ret. split; [apply i32_small; lia|].
    split; [|eapply (room_mono _ _ ∅ 0 1); [done|lia|exact Hr1]].
    eapply written_same; try done; lia.
Qed.

Lemma readi_wp dsw sb s ip off n : fs_inv sb s ip → room (fs_txn s) ∅ 0 →
  i_type (inode_at s ip) ≠ T_DEV → 0 ≤ i_size (inode_at s ip) ≤ MAXFILE * BSIZE →
  dense s ip 0 (i_size (inode_at s ip)) → 0 ≤ off < 2 ^ 32 → 0 ≤ n < 2 ^ 32 →
  wp (readi dsw ip off n) s (λ r s', ro s s' ∧
    r = if (i_size (inode_at s ip) <? off) || (2 ^ 32 <=? off + n) then (-1, [])
        else let k := Z.min n (i_size (inode_at s ip) - off) in (k, fbytes s ip off k)).
Proof.
  intros Hi Hr Hty Hsz Hd Ho Hn. assert (MAXFILE * BSIZE = 71680) as Emax by done.
  unfold readi. rewrite wp_bind, wp_gets, (proj2 (Z.eqb_neq _ _) Hty).
  set (sz := i_size (inode_at s ip)) in *.
  destruct (Z.ltb_spec sz off); simpl; [rewrite wp_ret; split; [by eapply ro_refl|done]|].
  destruct (Z.leb_spec (2 ^ 32) (off + n)) as [Hov|Hov].
  { assert (u32 (off + n) = off + n - 2 ^ 32) as ->.
    { unfold u32. symmetry. apply Z.mod_unique with 1; lia. }
    rewrite (proj2 (Z.ltb_lt _ _)) by lia. rewrite wp_ret. split; [by eapply ro_refl|done]. }
  rewrite u32_small, (proj2 (Z.ltb_ge (off + n) off)) by lia.
  assert ((if sz <? off + n then sz - off else n) = Z.min n (sz - off)) as -> by
    (destruct (Z.ltb_spec sz (off + n)); lia).
  set (k := Z.min n (sz - off)). rewrite wp_bind.
  wpa (readi_loop_wp sb _ s ip k 0 off []); [done|done|lia|lia| |lia| |].
  { intros _. pose proof (touched_bound off k ltac:(lia) ltac:(lia)) as [_ Hf].
    unfold BSIZE in *. Z.to_euclidean_division_equations. lia. }
  { intros o Hoo. apply Hd. lia. }
  rewrite Z.sub_0_r. intros d s' [Hro ->]. rewrite wp_ret. split; [done|]. simpl.
  rewrite i32_small by lia. done.
Qed.
End rw.
