(* ===== verification/FsProps.v ===== *)
(** * Properties of the file system (fs.c)

    The block allocator, reading and writing files, and disk inodes. *)

From stdpp Require Import base numbers option list gmap strings.
From Stdlib Require Import ZArith Lia ZifyBool.
From S2P Require Import Prelude Bytes CString Block Bio BioProps Log LogProofs Txn LogProps.
From S2P Require Import Fs FsBlocks FsFile FsRW.
Import Log Fs.
Local Open Scope Z_scope.

(** ** Disk inodes *)

Section dinode.
Implicit Types (d : block) (a : list Z).

Definition put_addrs_from d (o : nat) a (j k : nat) : block :=
  foldl (λ d i, put32 d (o + 4 * i) (a !!! i)) d (seq j k).

Lemma put_addrs_get d o a j k : ∀ i, (i < o + 4 * j)%nat →
  put_addrs_from d o a j k !!! i = d !!! i.
Proof.
  unfold put_addrs_from. revert d j. induction k as [|k IH]; intros d j i Hi; [done|]. simpl.
  rewrite IH by lia. unfold put32. apply put_lookup_out. lia.
Qed.

Lemma put_addrs_addr d o a j k i : (o + 4 * (j + k) ≤ length d)%nat → (j ≤ i < j + k)%nat →
  get32 (put_addrs_from d o a j k) (o + 4 * i) = u32 (a !!! i).
Proof.
  revert d j. induction k as [|k IH]; intros d j Hl Hi; [lia|].
  change (put_addrs_from d o a j (S k)) with (put_addrs_from (put32 d (o + 4 * j) (a !!! j)) o a (S j) k).
  destruct (decide (i = j)) as [->|].
  - unfold get32. rewrite !put_addrs_get by lia.
    fold (get32 (put32 d (o + 4 * j) (a !!! j)) (o + 4 * j)). apply get32_put32. lia.
  - apply IH; [|lia]. unfold put32. rewrite length_put. lia.
Qed.

(** The ranges of the fields of [struct dinode]. *)
Record dinode_ok (ip : inode) : Prop := mkDinodeOk {
  dk_type : - 2 ^ 15 ≤ i_type ip < 2 ^ 15;
  dk_major : - 2 ^ 15 ≤ i_major ip < 2 ^ 15;
  dk_minor : - 2 ^ 15 ≤ i_minor ip < 2 ^ 15;
  dk_nlink : - 2 ^ 15 ≤ i_nlink ip < 2 ^ 15;
  dk_size : 0 ≤ i_size ip < 2 ^ 32;
  dk_addrs : length (i_addrs ip) = 13%nat ∧ Forall (λ b, 0 ≤ b < 2 ^ 32) (i_addrs ip)
}.

Lemma i16_u16 v : - 2 ^ 15 ≤ v < 2 ^ 15 → i16 (u16 v) = v.
Proof.
  intros Hv. unfold i16, u16. rewrite Zplus_mod_idemp_l, Z.mod_small by lia. lia.
Qed.

(** Loading what was stored. *)
Lemma dinode_load_store d o ip y : (o + 64 ≤ length d)%nat → dinode_ok ip →
  dinode_load (dinode_store d o ip) o y =
  mkInode (i_dev y) (i_inum y) (i_ref y) (i_flags y) (i_type ip) (i_major ip) (i_minor ip)
    (i_nlink ip) (i_size ip) (i_addrs ip).
Proof.
  intros Hl [? ? ? ? ? [Ha Hr]]. unfold dinode_load, dinode_store, put_addrs.
  set (d' := put32 _ (o + 8) _). fold (put_addrs_from d' (o + 12) (i_addrs ip) 0 13).
  assert (length d' = length d) as Hl' by (unfold d', put16, put32; by rewrite !length_put).
  assert (∀ i, (i < o + 12)%nat → put_addrs_from d' (o + 12) (i_addrs ip) 0 13 !!! i = d' !!! i) as Hlow.
  { intros i Hi. apply put_addrs_get. lia. }
  f_equal.
  1-4: unfold get16; rewrite !Hlow by lia; fold (get16 d' o) (get16 d' (o + 2)) (get16 d' (o + 4)) (get16 d' (o + 6)).
  - unfold d', put32. rewrite get16_put by (simpl; lia). unfold put16 at 1 2 3. rewrite !get16_put by (simpl; lia).
    rewrite get16_put16 by lia. by apply i16_u16.
  - unfold d', put32. rewrite get16_put by (simpl; lia). unfold put16 at 1 2. rewrite !get16_put by (simpl; lia).
    rewrite get16_put16 by (unfold put16; rewrite ?length_put; lia). by apply i16_u16.
  - unfold d', put32. rewrite get16_put by (simpl; lia). unfold put16 at 1. rewrite !get16_put by (simpl; lia).
    rewrite get16_put16 by (unfold put16; rewrite ?length_put; lia). by apply i16_u16.
  - unfold d', put32. rewrite get16_put by (simpl; lia).
    rewrite get16_put16 by (unfold put16; rewrite ?length_put; lia). by apply i16_u16.
  - unfold get32. rewrite !Hlow by lia. fold (get32 d' (o + 8)). unfold d'.
    rewrite get32_put32 by (unfold put16; rewrite ?length_put; lia). by apply u32_small.
  - apply list_eq. intros i. rewrite list_lookup_fmap. destruct (decide (i < 13)%nat) as [Hi|Hi].
    + rewrite lookup_seq_lt by done.
      change (Some (get32 (put_addrs_from d' (o + 12) (i_addrs ip) 0 13) (o + 12 + 4 * i)) = i_addrs ip !! i).
      rewrite put_addrs_addr by lia.
      rewrite arr_lookup by lia. f_equal. apply u32_small.
      eapply Forall_lookup_1 in Hr; [exact Hr|]. apply arr_lookup. lia.
    + rewrite lookup_seq_ge by lia. simpl. symmetry. apply lookup_ge_None. lia.
Qed.

End dinode.

Section props.
Context {T : Type} `{!BlockIO T} `{!TxnIO T} `{HT : !TxnSpec T}.
Implicit Types (t : T) (s : fstate T) (sb : superblock).

(** C9. The block allocator: when block [x] is the lowest one marked free in
    the bitmap and is a data block, [balloc] returns [x], with [x] zeroed and
    marked in use, and every other block neither reallocated nor changed; the
    blocks it wrote (the data block and a bitmap block) are part of the
    transaction and no buffer is left locked. *)
Theorem balloc_lowest_free sb t x : fs_ok sb t → first_free sb (tx_cur t) x →
  data_start sb ≤ x < tx_home t → x ∉ held_sectors (tx_held t) →
  room t {[BBLOCK x (sb_ninodes sb)]} 1 →
  wp (balloc ROOTDEV) t (λ r t', r = x ∧ tx_cur t' x = zero_block ∧
    (∀ b, 0 ≤ b < sb_size sb →
      used (sb_ninodes sb) (tx_cur t') b = (x =? b) || used (sb_ninodes sb) (tx_cur t) b) ∧
    (∀ m, m ≠ x → m ≠ BBLOCK x (sb_ninodes sb) → tx_cur t' m = tx_cur t m) ∧
    tx_logged t' = {[x; BBLOCK x (sb_ninodes sb)]} ∪ tx_logged t ∧ tx_held t' = tx_held t).
Proof.
  intros Hok Hf Hx Hh Hr. wpa balloc_wp; [done..|]. intros r t' [-> Ht].
  pose proof (fo_geo _ _ Hok) as Hg. pose proof (data_start_low _ _ Hg). pose proof (ge_home _ _ Hg).
  pose proof (tg_cur _ _ _ _ _ Ht) as Ec.
  assert (∀ b, used (sb_ninodes sb) (tx_cur t') b =
    used (sb_ninodes sb) (alloc_cur (sb_ninodes sb) x (tx_cur t)) b) as Eu.
  { intros b. unfold used. by rewrite Ec. }
  split_and!; try done; [..|apply Ht|apply Ht].
  - rewrite Ec. unfold alloc_cur, fupd. by rewrite decide_True.
  - intros b Hb. rewrite Eu. eapply used_alloc; try done; [lia..|]. intros b' Hb'.
    destruct (BBLOCK_range _ _ b' Hg Hb'). apply tx_cur_length; [apply Hok|lia].
  - intros m ? ?. rewrite Ec. by apply alloc_cur_other.
Qed.

(** Reading: [readi] at [off] of a file without holes returns the bytes
    of the file from [off], as many as were asked for and lie before the end
    of the file, and changes nothing; an offset beyond the end, or a range
    that overflows 32 bits, returns -1. *)
Theorem readi_reads dsw sb s ip off n : fs_inv sb s ip → room (fs_txn s) ∅ 0 →
  i_type (inode_at s ip) ≠ T_DEV → 0 ≤ i_size (inode_at s ip) ≤ MAXFILE * BSIZE →
  dense s ip 0 (i_size (inode_at s ip)) → 0 ≤ off < 2 ^ 32 → 0 ≤ n < 2 ^ 32 →
  wp (readi dsw ip off n) s (λ r s', ro s s' ∧
    r = if (i_size (inode_at s ip) <? off) || (2 ^ 32 <=? off + n) then (-1, [])
        else let k := Z.min n (i_size (inode_at s ip) - off) in (k, fbytes s ip off k)).
Proof. apply readi_wp. Qed.

(** C7. Writing, then reading back: [writei] of [n] bytes at [off] of a file
    without holes, [off] at most its size, writes them all, makes the size at
    least [off + n], and leaves the other inodes and the blocks of other files
    as they are; [readi] of the same range then returns what was written.  The file
    stays within MAXFILE blocks; there are two free data blocks for each block that is
    written (on an image of mkfs, [image_alloc] of MkfsBoot.v), and the log has room for
    these blocks, the bitmap and the inode. *)
Theorem writei_readi dsw sb s ip src off n : fs_inv sb s ip → i_type (inode_at s ip) ≠ T_DEV →
  0 ≤ i_inum (inode_at s ip) < sb_ninodes sb →
  0 ≤ off ≤ i_size (inode_at s ip) → i_size (inode_at s ip) ≤ MAXFILE * BSIZE →
  dense s ip 0 (i_size (inode_at s ip)) → 0 ≤ n ≤ Z.of_nat (length src) → off + n ≤ MAXFILE * BSIZE →
  alloc_ok sb (tx_home (fs_txn s)) (cur s) (2 * touched off n) →
  budget s ip ({[IBLOCK (i_inum (inode_at s ip))]} ∪ bitmap_blocks sb) (Z.of_nat (touched off n) + 1) →
  wp (w ← writei dsw ip src off n; r ← readi dsw ip off n; mret (w, r)) s (λ wr s',
    wr = (n, (n, take (Z.to_nat n) src)) ∧ fs_inv sb s' ip ∧
    i_size (inode_at s' ip) = Z.max (i_size (inode_at s ip)) (off + n) ∧
    (∀ j, j ≠ ip → inode_at s' j = inode_at s j) ∧
    (∀ m, data_start sb ≤ m < sb_size sb → used (sb_ninodes sb) (cur s) m = true →
      (∀ i, 0 ≤ i ≤ MAXFILE → fblk (cur s) (addrs s ip) i ≠ m) → cur s' m = cur s m)).
Proof.
  intros Hi Hty Hin Ho Hsz Hd Hn Hmax Ha Hb. assert (MAXFILE * BSIZE = 71680) as Emax by done.
  rewrite wp_bind. wpa (writei_wp dsw sb s ip src off n); [done..|].
  intros w s1 (-> & Hw & Hr1). set (v := take (Z.to_nat n) src) in *.
  assert (Z.of_nat (length v) = n) as Ev by (unfold v; rewrite length_take; lia).
  destruct Hw as [Hi1 Hx1 Hy1 Hde1 Hk1 Ho1 Hfr1 _ _ _ _ _]. rewrite Ev in *.
  assert (i_size (inode_at s1 ip) = Z.max (i_size (inode_at s ip)) (off + n)) as Es by by rewrite Hx1.
  rewrite wp_bind. wpa (readi_wp dsw sb s1 ip off n); [done|done|by rewrite Hx1|lia| |lia|lia|].
  { intros o Hoo. destruct (Z.lt_ge_cases o (i_size (inode_at s ip))).
    - apply (Hk1 0 (i_size (inode_at s ip))); [lia|lia|done|lia].
    - apply Hde1. lia. }
  intros r s2 [Hro ->]. rewrite wp_ret. rewrite Es.
  rewrite (proj2 (Z.ltb_ge _ _)), (proj2 (Z.leb_gt _ _)) by lia. simpl. rewrite Z.min_l by lia.
  split_and!.
  - do 3 f_equal. unfold fbytes. apply list_eq. intros i. rewrite list_lookup_fmap.
    destruct (decide (i < Z.to_nat n)%nat) as [Hlt|Hge].
    + rewrite lookup_seq_lt by done. cbn [fmap option_fmap option_map]. rewrite Hy1 by lia. unfold splice.
      rewrite (proj2 (Z.leb_le _ _)), (proj2 (Z.ltb_lt _ _)) by lia. simpl.
      rewrite arr_lookup by lia. do 2 f_equal. lia.
    + rewrite lookup_seq_ge by lia. symmetry. apply lookup_ge_None. lia.
  - by eapply ro_inv.
  - by rewrite (ro_inode _ _ Hro).
  - intros j Hj. rewrite (ro_inode _ _ Hro). auto.
  - intros m ? ? ?. rewrite (ro_cur _ _ Hro). auto.
Qed.

Lemma upd_inode_upd s j f g : (j < length (fs_inodes s))%nat →
  upd_inode j f (upd_inode j g s) = upd_inode j (λ x, f (g x)) s.
Proof.
  intros Hj. unfold upd_inode at 1. rewrite inode_at_upd by done. unfold upd_inode; simpl.
  by rewrite list_insert_insert_eq.
Qed.

(** [ilock] of an inode that has not been read. *)
Lemma ilock_load_wp sb s j : fs_ok sb (fs_txn s) → tx_held (fs_txn s) = ∅ → room (fs_txn s) ∅ 0 →
  (j < length (fs_inodes s))%nat → let y := inode_at s j in let n := IBLOCK (i_inum y) in
  i_dev y = ROOTDEV → 0 ≤ i_inum y < sb_ninodes sb → 1 ≤ i_ref y →
  flag (i_flags y) I_BUSY = false → flag (i_flags y) I_VALID = false →
  dinode_type (cur s n) (dinode_off (i_inum y)) ≠ 0 →
  wp (ilock j) s (λ _ s', ∃ t', tgo (fs_txn s) t' (tx_held (fs_txn s)) ∅ (cur s) ∧
    s' = set_txn t' (upd_inode j (λ y, i_set_flags (setf (setf (i_flags y) I_BUSY) I_VALID)
      (dinode_load (cur s n) (dinode_off (i_inum y)) y)) s)).
Proof.
  intros Hok Hh Hr Hj y n Hdy Hin Href Hb Hv Hty.
  destruct (iblock_range _ _ _ (fo_geo _ _ Hok) Hin) as [Hn _]. fold n in Hn.
  pose proof (data_start_low _ _ (fo_geo _ _ Hok)). pose proof (tx_cap_bound _ (fo_inv _ _ Hok)) as Hc.
  unfold ilock. rewrite wp_bind, wp_gets. fold y. rewrite (proj2 (Z.ltb_ge _ _)), Hb by lia.
  rewrite wp_bind, wp_modify, Hv. unfold lift. rewrite wp_bind, wp_zoom. simpl fs_txn. rewrite Hdy. fold n.
  wpa tgo_bread; [apply tgo_refl, Hok|lia|by apply held_empty|unfold room in Hr; lia|].
  intros b t2 (Hbn & Ht2 & Ed). rewrite wp_bind, wp_gets. unfold ibuf; simpl fs_txn. rewrite Ed.
  rewrite wp_bind, wp_modify, wp_bind, wp_zoom. simpl fs_txn.
  wpa tgo_brelse; [exact Ht2|apply lookup_insert_eq|by apply held_empty|by right|apply Hok|].
  intros _ t3 Ht3. rewrite delete_insert_held in Ht3 by done.
  rewrite wp_bind, wp_modify, wp_bind, wp_gets. fold (cur s). set (s3 := upd_inode j _ _).
  assert (s3 = set_txn t3 (upd_inode j (λ y, i_set_flags (setf (setf (i_flags y) I_BUSY) I_VALID)
      (dinode_load (cur s n) (dinode_off (i_inum y)) y)) s)) as E3.
  { unfold s3. match goal with |- upd_inode j ?f (set_txn t3 (upd_inode j ?g (set_txn t2 (upd_inode j ?h s)))) = _ =>
      change (set_txn t3 (upd_inode j f (upd_inode j g (upd_inode j h s))) =
        set_txn t3 (upd_inode j (λ y, i_set_flags (setf (setf (i_flags y) I_BUSY) I_VALID)
          (dinode_load (cur s n) (dinode_off (i_inum y)) y)) s)) end.
    f_equal. rewrite !upd_inode_upd by (simpl; by rewrite ?length_insert). done. }
  rewrite E3. change (inode_at (set_txn t3 ?u) j) with (inode_at u j). rewrite inode_at_upd by done.
  cbn [i_type i_set_flags dinode_load]. fold y. unfold dinode_type in Hty.
  rewrite (proj2 (Z.eqb_neq _ _) Hty), wp_ret. by exists t3.
Qed.

(** Disk inodes: after [iupdate(ip)], [ilock] of another in-memory copy
    of the same inode that has not been read yet loads exactly the type, device
    numbers, link count, size and block addresses of [*ip]. *)
Theorem iupdate_ilock sb s ip j : fs_ok sb (fs_txn s) → tx_held (fs_txn s) = ∅ → room (fs_txn s) ∅ 1 →
  (j < length (fs_inodes s))%nat → let x := inode_at s ip in let y := inode_at s j in
  i_dev x = ROOTDEV → i_dev y = ROOTDEV → i_inum y = i_inum x → 0 ≤ i_inum x < sb_ninodes sb →
  dinode_ok x → i_type x ≠ 0 → 1 ≤ i_ref y →
  flag (i_flags y) I_BUSY = false → flag (i_flags y) I_VALID = false →
  wp (_ ← iupdate ip; ilock j) s (λ _ s', inode_at s' j =
    mkInode ROOTDEV (i_inum x) (i_ref y) (setf (setf (i_flags y) I_BUSY) I_VALID)
      (i_type x) (i_major x) (i_minor x) (i_nlink x) (i_size x) (i_addrs x)).
Proof.
  intros Hok Hh Hr Hj x y Hdx Hdy En Hin Hdk Hty Href Hb Hv.
  rewrite wp_bind. wpa (iupdate_wp sb s ip); [done..|]. intros _ s1 (t1 & -> & Ht1). fold x in Ht1.
  set (n := IBLOCK (i_inum x)) in *. destruct (iblock_range _ _ _ (fo_geo _ _ Hok) Hin) as [Hn _]. fold n in Hn.
  pose proof (data_start_low _ _ (fo_geo _ _ Hok)). pose proof (tx_cap_bound _ (fo_inv _ _ Hok)) as Hc.
  destruct (Ht1) as [I1 Eh1 Ec1 _ D1 L1 C1].
  assert (length (cur s n) = Z.to_nat BSIZE) as Hl by (apply tx_cur_length; [apply Hok|lia]).
  assert (dinode_off (i_inum x) + 64 ≤ length (cur s n))%nat as Hlo.
  { rewrite Hl. unfold dinode_off, IPB, BSIZE, sizeof_dinode. change (512 / 64) with 8.
    pose proof (Z.mod_pos_bound (i_inum x) 8 ltac:(lia)). lia. }
  set (s1 := set_txn t1 s). assert (cur s1 n = dinode_store (cur s n) (dinode_off (i_inum x)) x) as Ec.
  { change (cur s1 n) with (tx_cur t1 n). rewrite C1. unfold fupd. by rewrite decide_True. }
  assert (∀ z, dinode_load (cur s1 n) (dinode_off (i_inum x)) z = mkInode (i_dev z) (i_inum z) (i_ref z)
    (i_flags z) (i_type x) (i_major x) (i_minor x) (i_nlink x) (i_size x) (i_addrs x)) as El.
  { intros z. rewrite Ec. by apply dinode_load_store. }
  assert (inode_at s1 j = y) as Ey by done.
  wpa (ilock_load_wp sb s1 j); rewrite ?Ey, ?En; fold n; try done.
  { eapply fs_ok_step; [done|exact Ht1|]. unfold fupd. rewrite decide_False by lia. done. }
  { change (fs_txn s1) with t1. by rewrite D1. }
  { eapply room_step; [exact Ht1|]. unfold room in *. rewrite (left_id_L ∅ (∪)) in *.
    rewrite size_union_alt, size_singleton.
    pose proof (subseteq_size (tx_logged (fs_txn s) ∖ {[n]}) (tx_logged (fs_txn s)) ltac:(set_solver)). lia. }
  { pose proof (f_equal i_type (El y)) as E. cbn [i_type dinode_load] in E. unfold dinode_type. congruence. }
  intros _ s' (t' & _ & ->).
  match goal with |- inode_at (set_txn t' ?u) j = _ => change (inode_at (set_txn t' u) j) with (inode_at u j) end.
  rewrite inode_at_upd by done. fold y. rewrite Ey, En, El. cbn. by rewrite Hdy, En.
Qed.
End props.

(** ** A concrete file system

    64 blocks: the super block, 8 inodes in block 2, the bitmap in block 4 and
    the log from block 34; the bitmap marks block [b] in use when [inuse b]. *)

Definition bitmap_image (inuse : Z → bool) : block :=
  foldl (λ d b, if inuse b then bit_set b d else d) zero_block (seqZ 0 64).

Definition fsdisk (inuse : Z → bool) : Bio.disk :=
  Bio.mkDisk 64 (<[4 := bitmap_image inuse]> (Bio.memdisk disk64)) [].

#[local] Existing Instances Bio.bio_ops Bio.bio_spec.
#[local] Opaque fresh_bufs.

Section image.
Variable inuse : Z → bool.

Lemma length_bitmap_image : length (bitmap_image inuse) = Z.to_nat BSIZE.
Proof.
  unfold bitmap_image. generalize (seqZ 0 64). intros l.
  assert (length zero_block = Z.to_nat BSIZE) as H by done. revert H. generalize zero_block.
  induction l as [|b l IH]; intros d Hd; [done|]. simpl. apply IH. destruct (inuse b); [|done].
  by rewrite length_bit_set.
Qed.

Lemma fsdisk_lookup m : 0 ≤ m < 64 → Bio.memdisk (fsdisk inuse) !!! m =
  if decide (m = 4) then bitmap_image inuse else Bio.memdisk disk64 !!! m.
Proof.
  intros Hm. unfold fsdisk. cbn [Bio.memdisk]. case_decide; subst.
  - by rewrite lookup_total_insert, decide_True.
  - by rewrite lookup_total_insert_ne by done.
Qed.

Lemma fsdisk_ok : Bio.disk_ok (fsdisk inuse).
Proof.
  destruct disk64_ok as [_ H]. split; [cbn; lia|]. cbn [Bio.disksize fsdisk]. intros m Hm.
  rewrite fsdisk_lookup by done. case_decide; [apply length_bitmap_image|]. by apply H.
Qed.

Lemma fsdisk_boot : boot_ok 34 30 (boot_state (fsdisk inuse)).
Proof.
  destruct (fresh_view (fsdisk inuse) [] fsdisk_ok) as (Hh & Hd & _).
  constructor; [exact (fresh_binv _ [] fsdisk_ok)|exact Hh|exact Hd|apply length_replicate|
    lia|unfold LOGSIZE, MAXOPBLOCKS; lia|cbn; lia|..];
    cbn [bio_disk Bio.bio_spec lg_cache boot_state Bio.bdisk].
  - unfold sb_log. rewrite fsdisk_lookup, decide_False, disk64_lookup, decide_True by lia. vm_compute. auto.
  - rewrite fsdisk_lookup, decide_False, disk64_lookup, decide_False by lia.
    apply hdr_ok_empty with (size := 1); [lia|]. vm_compute. reflexivity.
  - rewrite fsdisk_lookup, decide_False, disk64_lookup, decide_False by lia. vm_compute. reflexivity.
Qed.

(** The kernel in its first file-system operation after boot. *)
Definition fs_boot : lstate Bio.bcache := final (_ ← initlog; begin_op) (boot_state (fsdisk inuse)).

Lemma fs_boot_ok : txn_inv fs_boot ∧ tx_held fs_boot = ∅ ∧ tx_logged fs_boot = ∅ ∧
  tx_home fs_boot = 34 ∧ tx_cap fs_boot = 29 ∧
  ∀ m, 0 ≤ m < 34 → tx_cur fs_boot m = Bio.memdisk (fsdisk inuse) !!! m.
Proof.
  apply (wp_final _ _ (λ s, txn_inv s ∧ tx_held s = ∅ ∧ tx_logged s = ∅ ∧ tx_home s = 34 ∧ tx_cap s = 29 ∧
    ∀ m, 0 ≤ m < 34 → tx_cur s m = Bio.memdisk (fsdisk inuse) !!! m)).
  rewrite wp_bind. wpa (initlog_wp 34 30); [apply fsdisk_boot|].
  intros _ s1 (I1 & N1 & St1 & Sz1 & O1 & Cm1 & H1 & _ & Hm & _).
  wpa begin_op_txn; [done|exact Cm1|by rewrite O1|by rewrite N1, O1|].
  intros _ s2 [-> I2]. split; [done|]. cbn [tx_held tx_logged tx_home tx_cap tx_cur log_txn_spec lg_start lg_size set_outstanding lg_cache].
  rewrite St1, Sz1. split_and!; try done.
  - apply set_eq, size_empty_inv. pose proof (log_inv_size s1 I1). lia.
  - intros m Hm'. destruct (Hm m Hm') as [_ ->]. unfold logical.
    assert (installs 34 (bio_disk (lg_cache (boot_state (fsdisk inuse)))) = []) as ->; [|done].
    unfold installs. cbn [bio_disk Bio.bio_spec lg_cache boot_state Bio.bdisk].
    rewrite fsdisk_lookup, decide_False, disk64_lookup, decide_False by lia. vm_compute. reflexivity.
Qed.
End image.

#[local] Opaque fs_boot.

(** The data blocks are 5 to 33, and the log is 34 to 63.  As on a disk of mkfs, only
    the blocks before the data blocks are marked. *)
Definition sb64 : superblock := sb_decode (sb_image 64 20 8 30).
Definition reserved (b : Z) : bool := b <? 5.

Lemma sb64_geometry : geometry sb64 34.
Proof. constructor; vm_compute; intuition congruence. Qed.

Lemma fs_boot_fs inuse : fs_ok sb64 (fs_boot inuse).
Proof.
  destruct (fs_boot_ok inuse) as (I & Hh & _ & Hm & _ & Hc). constructor.
  - done.
  - rewrite Hc, fsdisk_lookup, decide_False, disk64_lookup, decide_True by lia. done.
  - rewrite Hm. apply sb64_geometry.
  - intros m Hin. exfalso. by eapply held_empty.
Qed.

Lemma fs_boot_room inuse W k : Z.of_nat (size W) + k ≤ 29 → room (fs_boot inuse) W k.
Proof.
  intros Hk. destruct (fs_boot_ok inuse) as (_ & Hh & Hl & _ & Hc & _).
  unfold room. rewrite Hh, Hl, Hc, map_size_empty, (right_id_L ∅ (∪)). lia.
Qed.

(** The bitmap of the booted system. *)
Lemma fs_boot_used inuse b : 0 ≤ b < 64 →
  used (sb_ninodes sb64) (tx_cur (fs_boot inuse)) b = bit_used (bitmap_image inuse) b.
Proof.
  intros Hb. destruct (fs_boot_ok inuse) as (_ & _ & _ & _ & _ & Hc). unfold used, BBLOCK, BPB, BSIZE.
  rewrite Z.div_small, Z.mod_small by lia. change (0 + sb_ninodes sb64 / IPB + 3) with 4.
  by rewrite Hc, fsdisk_lookup, decide_True by lia.
Qed.

Lemma balloc_lowest_free_witness : wp (balloc ROOTDEV) (fs_boot reserved) (λ r t', r = 5 ∧
  tx_cur t' 5 = zero_block ∧ tx_held t' = ∅).
Proof.
  destruct (fs_boot_ok reserved) as (_ & Hh & _ & Hm & _ & Hc).
  eapply wp_mono; [apply (balloc_lowest_free sb64 (fs_boot reserved) 5)|].
  - apply fs_boot_fs.
  - split; [vm_compute; intuition congruence|]. split; [rewrite fs_boot_used by lia; vm_compute; reflexivity|].
    intros y Hy. rewrite fs_boot_used by lia.
    assert (y ∈ seqZ 0 5) as Hy' by (apply elem_of_seqZ; lia). clear Hy. revert y Hy'.
    apply Forall_forall, (bool_decide_eq_true_1 _). vm_compute. reflexivity.
  - rewrite Hm. vm_compute. intuition congruence.
  - by apply held_empty.
  - apply fs_boot_room. vm_compute. congruence.
  - intros r t' (-> & Hz & _ & _ & _ & E). split; [reflexivity|]. split; [exact Hz|].
    rewrite E. exact Hh.
Defined.

(** A file of inode 2 that is empty, in entry 0 of the inode cache. *)
Definition empty_file : inode := mkInode ROOTDEV 2 1 3 T_FILE 0 0 1 0 (replicate 13 0).
Definition fs_open (inuse : Z → bool) (ip : inode) : fstate (lstate Bio.bcache) :=
  mkFs [ip; i_set_flags 0 ip] [] (fs_boot inuse).

Lemma fblk_empty f i : 0 ≤ i → fblk f (replicate 13 0) i = 0.
Proof.
  intros Hi. unfold fblk. change (replicate 13 0 !!! 12%nat) with 0. rewrite Z.eqb_refl.
  destruct (Z.ltb_spec i NDIRECT); [|by destruct (i =? MAXFILE)].
  rewrite list_lookup_total_alt, lookup_replicate_2; [done|]. unfold NDIRECT in *. lia.
Qed.

Lemma fs_open_inv : fs_inv sb64 (fs_open reserved empty_file) 0.
Proof.
  destruct (fs_boot_ok reserved) as (_ & Hh & _). constructor.
  - apply fs_boot_fs.
  - exact Hh.
  - simpl. lia.
  - done.
  - constructor; [done|..].
    + intros i Hi. change (addrs _ _) with (replicate 13 0). rewrite fblk_empty by lia. intros []. reflexivity.
    + intros i j Hi Hj. change (addrs _ _) with (replicate 13 0). rewrite fblk_empty by lia. intros []. reflexivity.
Qed.

Lemma fs_open_alloc : alloc_ok sb64 34 (cur (fs_open reserved empty_file)) 4.
Proof.
  change (cur (fs_open reserved empty_file)) with (tx_cur (fs_boot reserved)).
  assert (∀ b, 0 ≤ b < 64 → used (sb_ninodes sb64) (tx_cur (fs_boot reserved)) b = reserved b) as Hu.
  { intros b Hb. rewrite fs_boot_used by done.
    assert (b ∈ seqZ 0 64) as Hb' by (apply elem_of_seqZ; lia). clear Hb. revert b Hb'.
    apply Forall_forall, (bool_decide_eq_true_1 _). vm_compute. reflexivity. }
  constructor; change (data_start sb64) with 5; change (sb_size sb64) with 64.
  - lia.
  - intros b Hb. rewrite Hu by lia. unfold reserved. lia.
  - unfold free_list. rewrite (filter_ext_in _ reserved) by (intros b ?%elem_of_seqZ; apply Hu; lia).
    vm_compute. lia.
Qed.

Definition hello : bytes := [104; 101; 108; 108; 111].

Lemma writei_readi_witness : ∃ dsw : devsw (lstate Bio.bcache),
  wp (w ← writei dsw 0 hello 0 5; r ← readi dsw 0 0 5; mret (w, r)) (fs_open reserved empty_file)
    (λ wr s', wr = (5, (5, hello)) ∧ i_size (inode_at s' 0) = 5).
Proof.
  exists (mkDevsw _ (λ _, None) (λ _, None)).
  destruct (fs_boot_ok reserved) as (_ & Hh & Hl & Hm & _).
  eapply wp_mono; [apply (writei_readi _ sb64 (fs_open reserved empty_file) 0 hello 0 5)|].
  - apply fs_open_inv.
  - done.
  - vm_compute. intuition congruence.
  - cbn. lia.
  - vm_compute. congruence.
  - intros o Ho. cbn in Ho. lia.
  - cbn. lia.
  - vm_compute. congruence.
  - change (tx_home _) with (tx_home (fs_boot reserved)). rewrite Hm.
    apply (alloc_ok_mono _ _ _ _ 4); [vm_compute; lia|exact fs_open_alloc].
  - apply fs_boot_room. vm_compute. congruence.
  - intros wr s' (-> & _ & E & _). split; [reflexivity|]. rewrite E. reflexivity.
Defined.

(** A file of five bytes in block 5. *)
Definition with5 (b : Z) : bool := reserved b || (b =? 5).
Definition short_file : inode := mkInode ROOTDEV 2 1 3 T_FILE 0 0 1 5 (5 :: replicate 12 0).

Lemma fblk_short f i : 0 ≤ i → fblk f (5 :: replicate 12 0) i = if i =? 0 then 5 else 0.
Proof.
  intros Hi. unfold fblk. change ((5 :: replicate 12 0) !!! 12%nat) with 0. rewrite Z.eqb_refl.
  destruct (Z.ltb_spec i NDIRECT) as [Hlt|].
  - destruct (Z.eqb_spec i 0) as [->|]; [done|]. replace (Z.to_nat i) with (S (Z.to_nat i - 1)) by lia.
    rewrite list_lookup_total_alt. change ((5 :: replicate 12 0) !! S ?k) with (replicate 12 0 !! k).
    rewrite lookup_replicate_2; [done|]. unfold NDIRECT in *. lia.
  - replace (i =? 0) with false by (unfold NDIRECT in *; lia). by destruct (i =? MAXFILE).
Qed.

Lemma fs_short_inv : fs_inv sb64 (fs_open with5 short_file) 0.
Proof.
  destruct (fs_boot_ok with5) as (_ & Hh & _ & Hm & _). constructor.
  - apply fs_boot_fs.
  - exact Hh.
  - simpl. lia.
  - done.
  - constructor; [done|..].
    + intros i Hi. change (addrs _ _) with (5 :: replicate 12 0). rewrite fblk_short by lia.
      destruct (i =? 0); [|intros []; reflexivity]. intros _.
      change (tx_home _) with (tx_home (fs_boot with5)). rewrite Hm. split; [vm_compute; intuition congruence|].
      change (cur _) with (tx_cur (fs_boot with5)). rewrite fs_boot_used by lia. vm_compute. reflexivity.
    + intros i j Hi Hj. change (addrs _ _) with (5 :: replicate 12 0). rewrite !fblk_short by lia.
      destruct (Z.eqb_spec i 0), (Z.eqb_spec j 0); lia.
Qed.

Lemma readi_reads_witness : ∃ dsw : devsw (lstate Bio.bcache),
  wp (readi dsw 0 2 10) (fs_open with5 short_file) (λ r s', r.1 = 3 ∧ length r.2 = 3%nat) ∧
  wp (readi dsw 0 6 10) (fs_open with5 short_file) (λ r s', r.1 = -1).
Proof.
  exists (mkDevsw _ (λ _, None) (λ _, None)). set (dsw := mkDevsw _ _ _).
  assert (dense (fs_open with5 short_file) 0 0 5) as Hd.
  { intros o Ho. change (addrs _ _) with (5 :: replicate 12 0).
    rewrite fblk_short, Z.div_small by (unfold BSIZE; lia || (apply Z.div_pos; lia)). simpl. lia. }
  split.
  - eapply wp_mono; [apply (readi_reads dsw sb64 (fs_open with5 short_file) 0 2 10 fs_short_inv)|];
      [apply fs_boot_room; vm_compute; congruence|done|vm_compute; intuition congruence|exact Hd|lia|lia|].
    intros r s' [_ ->]. split; [reflexivity|]. cbn [snd]. apply length_fbytes.
  - eapply wp_mono; [apply (readi_reads dsw sb64 (fs_open with5 short_file) 0 6 10 fs_short_inv)|];
      [apply fs_boot_room; vm_compute; congruence|done|vm_compute; intuition congruence|exact Hd|lia|lia|].
    intros r s' [_ ->]. reflexivity.
Defined.

Lemma iupdate_ilock_witness : wp (_ ← iupdate 0; ilock 1) (fs_open with5 short_file)
  (λ _ s', i_addrs (inode_at s' 1) = 5 :: replicate 12 0 ∧ i_flags (inode_at s' 1) = 3).
Proof.
  destruct (fs_boot_ok with5) as (_ & Hh & _). 
  eapply wp_mono; [apply (iupdate_ilock sb64 (fs_open with5 short_file) 0 1)|].
  - apply fs_boot_fs.
  - exact Hh.
  - apply fs_boot_room. vm_compute. congruence.
  - simpl. lia.
  - reflexivity.
  - reflexivity.
  - reflexivity.
  - vm_compute. intuition congruence.
  - constructor; [vm_compute; intuition congruence..|]. split; [reflexivity|].
    repeat constructor; vm_compute; congruence.
  - vm_compute. congruence.
  - vm_compute. congruence.
  - reflexivity.
  - reflexivity.
  - intros _ s' ->. split; reflexivity.
Defined.

(** The allocator does not know where the log is: the bitmap covers the
    whole disk and mkfs marks only the blocks before the data in use, so when
    the data blocks are all allocated [balloc] returns the first block of the
    log and logs its zeroing. *)
Theorem balloc_takes_log_block :
  wp (balloc ROOTDEV) (fs_boot (λ b, b <? 34)) (λ r s',
    r = lg_start s' ∧ bool_decide (r ∈ take (Z.to_nat (lh_n s')) (lh_sector s')) = true).
Proof. vm_compute. auto. Qed.
