(* ===== verification/FsCrash.v ===== *)
(** * A write to a file and a crash

    The file system over the log over the block layer, as one system: a call of
    writei in an operation, with the commit of its end_op, is atomic for the file as
    the disk has it. *)

From stdpp Require Import base numbers option list gmap strings.
From Stdlib Require Import ZArith Lia ZifyBool.
From S2P Require Import Prelude Bytes CString Block Bio BioProps Log LogProofs Txn LogProps Fs FsBlocks FsFile FsRW FsProps.
Import Log Fs.
Local Open Scope Z_scope.

(** The file of inode [inum] on a disk with content [f]: the size and the addresses
    of its disk inode, and its bytes. *)
Definition disk_size (f : Z → block) (inum : Z) : Z := get32 (f (IBLOCK inum)) (dinode_off inum + 8).
Definition disk_addrs (f : Z → block) (inum : Z) : list Z :=
  (λ i, get32 (f (IBLOCK inum)) (dinode_off inum + 12 + 4 * i)%nat) <$> seq 0 13.
Definition disk_file (f : Z → block) (inum : Z) : bytes :=
  (λ i, fbyte f (disk_addrs f inum) (Z.of_nat i)) <$> seq 0 (Z.to_nat (disk_size f inum)).

(** The bytes [old] with [v] written at [off]. *)
Definition overwrite (old : bytes) (off : nat) (v : bytes) : bytes := take off old ++ v ++ drop (off + length v) old.

Section files.
Implicit Types (f g : Z → block).

(** The blocks of the first [sz] bytes of a file are below [home]. *)
Definition blocks_in (home sz : Z) f (a : list Z) : Prop := (a !!! 12%nat ≠ 0 → 0 ≤ a !!! 12%nat < home) ∧
  ∀ o, 0 ≤ o < sz → fblk f a (o / BSIZE) ≠ 0 → 0 ≤ fblk f a (o / BSIZE) < home.

Lemma block_index o : 0 ≤ o < MAXFILE * BSIZE → 0 ≤ o / BSIZE < MAXFILE.
Proof. intros Ho. split; [apply Z.div_pos; [lia|done]|]. apply Z.div_lt_upper_bound; [done|lia]. Qed.

Lemma file_ok_in sb home sz f a : geometry sb home → file_ok sb home f a → sz ≤ MAXFILE * BSIZE → blocks_in home sz f a.
Proof.
  intros Hg Hf Hsz. pose proof (data_start_low _ _ Hg). split.
  - intros E. destruct (file_ok_ind _ _ _ _ Hf E). lia.
  - intros o Ho E. pose proof (block_index o). destruct (fk_data _ _ _ _ Hf (o / BSIZE) ltac:(lia) E). lia.
Qed.

Lemma fbyte_ext home sz f g a o : blocks_in home sz f a → 0 ≤ o < sz → (∀ m, 0 ≤ m < home → g m = f m) → fbyte g a o = fbyte f a o.
Proof.
  intros [H12 Hb] Ho He. assert (∀ i, fblk g a i = fblk f a i) as Eb.
  { intros i. unfold fblk. destruct (i <? NDIRECT), (i =? MAXFILE); try done.
    destruct (Z.eqb_spec (a !!! 12%nat) 0) as [|E]; [done|]. rewrite He; [done|by apply H12]. }
  unfold fbyte. rewrite Eb. destruct (Z.eqb_spec (fblk f a (o / BSIZE)) 0) as [|E]; [done|]. rewrite He; [done|by apply Hb].
Qed.

(** A file as its bytes, when the disk inode has its size and addresses. *)
Lemma disk_file_eq sb home f g inum sz a : geometry sb home → 0 ≤ inum < sb_ninodes sb → (∀ m, 0 ≤ m < home → g m = f m) →
  disk_size f inum = sz → disk_addrs f inum = a → blocks_in home sz f a →
  disk_file g inum = (λ i, fbyte f a (Z.of_nat i)) <$> seq 0 (Z.to_nat sz).
Proof.
  intros Hg Hin He Hs Ha Hf. destruct (iblock_range _ _ _ Hg Hin) as [Hn _]. pose proof (data_start_low _ _ Hg).
  unfold disk_file. assert (disk_size g inum = sz) as -> by (unfold disk_size; rewrite He by lia; done).
  assert (disk_addrs g inum = a) as -> by (unfold disk_addrs; rewrite He by lia; done).
  apply list_fmap_ext. intros i j Hj. apply lookup_seq in Hj as [-> Hj]. apply (fbyte_ext home sz); [done|lia|done].
Qed.

Lemma overwrite_bytes (h h' : Z → Z) (sz : nat) (off : nat) v : (off ≤ sz)%nat →
  (∀ o, 0 ≤ o < Z.of_nat (Nat.max sz (off + length v)) → h' o =
    if (Z.of_nat off <=? o) && (o <? Z.of_nat off + Z.of_nat (length v)) then v !!! Z.to_nat (o - Z.of_nat off) else h o) →
  (λ i, h' (Z.of_nat i)) <$> seq 0 (Nat.max sz (off + length v)) = overwrite ((λ i, h (Z.of_nat i)) <$> seq 0 sz) off v.
Proof.
  intros Ho Hh. unfold overwrite. apply list_eq. intros i. rewrite list_lookup_fmap.
  destruct (decide (i < Nat.max sz (off + length v))%nat) as [Hi|Hi].
  - rewrite lookup_seq_lt by done. cbn [fmap option_fmap option_map]. rewrite Nat.add_0_l, Hh by lia.
    destruct (decide (i < off)%nat).
    { rewrite lookup_app_l by (rewrite length_take, length_fmap, length_seq; lia).
      rewrite lookup_take_lt, list_lookup_fmap, lookup_seq_lt by lia. simpl. by replace (Z.of_nat off <=? Z.of_nat i) with false by lia. }
    rewrite lookup_app_r by (rewrite length_take, length_fmap, length_seq; lia). rewrite length_take, length_fmap, length_seq, Nat.min_l by lia.
    destruct (decide (i < off + length v)%nat).
    { rewrite lookup_app_l by lia. rewrite (proj2 (Z.leb_le _ _)), (proj2 (Z.ltb_lt _ _)) by lia. cbn [andb].
      rewrite arr_lookup by lia. do 2 f_equal. lia. }
    rewrite lookup_app_r, lookup_drop, list_lookup_fmap by lia. rewrite lookup_seq_lt by lia.
    rewrite (proj2 (Z.ltb_ge _ _)), andb_false_r by lia. simpl. do 2 f_equal. lia.
  - rewrite lookup_seq_ge by lia. symmetry. apply lookup_ge_None. rewrite !length_app, length_take, length_drop, length_fmap, length_seq. lia.
Qed.
End files.

Section crash.
Context {C : Type} `{!BlockIO C} `{HC : !BlockIOSpec C}.
Implicit Types (s : fstate (lstate C)) (t : lstate C).

(** The content of the disk below the log. *)
Definition home t (m : Z) : block := bio_disk (lg_cache t) !!! m.

(** What filewrite does in an operation with a locked inode, up to the end of the
    operation; the offset of the open file is not part of this state. *)
Definition write_end (dsw : devsw (lstate C)) (ip : nat) (src : bytes) (off n : Z) : kM (fstate (lstate C)) Z :=
  r ← writei dsw ip src off n;
  _ ← iunlock ip;
  _ ← lift end_op;
  mret r.

Lemma iunlock_txn s ip : flag (i_flags (inode_at s ip)) I_BUSY = true → 1 ≤ i_ref (inode_at s ip) →
  wp (iunlock ip) s (λ _ s', fs_txn s' = fs_txn s).
Proof.
  intros Hb Hr. unfold iunlock. rewrite wp_bind, wp_gets, Hb, (proj2 (Z.ltb_ge _ _)) by lia. cbn [negb orb].
  rewrite wp_bind, wp_modify. done.
Qed.

(** The disk inode has the size and the addresses of the inode in memory. *)
Definition on_disk s (ip : nat) : Prop := let x := inode_at s ip in
  disk_size (cur s) (i_inum x) = i_size x ∧ disk_addrs (cur s) (i_inum x) = i_addrs x.

Lemma on_disk_store (d : block) inum ip (f : Z → block) : f (IBLOCK inum) = dinode_store d (dinode_off inum) ip →
  (dinode_off inum + 64 ≤ length d)%nat → dinode_ok ip → disk_size f inum = i_size ip ∧ disk_addrs f inum = i_addrs ip.
Proof.
  intros Hf Hl Hok. pose proof (dinode_load_store d (dinode_off inum) ip ip Hl Hok) as E. rewrite <- Hf in E.
  split; [exact (f_equal i_size E)|exact (f_equal i_addrs E)].
Qed.

(** The inode of a file that got longer can be stored. *)
Lemma grown_dinode_ok sb hm f a sz x : geometry sb hm → file_ok sb hm f a → 0 ≤ sz ≤ MAXFILE * BSIZE → dinode_ok x →
  dinode_ok (i_set_size sz (i_set_addrs a x)).
Proof.
  intros Hg Hf Hsz [? ? ? ? ? _]. pose proof (ge_home _ _ Hg). pose proof (ge_size _ _ Hg). pose proof (data_start_low _ _ Hg).
  assert (MAXFILE * BSIZE = 71680) by done. assert (MAXFILE = 140) by done.
  constructor; try done; cbn [i_size i_addrs i_set_size i_set_addrs]; [lia|]. split; [apply Hf|]. apply Forall_lookup. intros j b Hb.
  assert (j < 13)%nat as Hj by (rewrite <- (fk_len _ _ _ _ Hf); by eapply lookup_lt_Some).
  destruct (decide (b = 0)) as [->|Hne]; [lia|]. apply list_lookup_total_correct in Hb. set (i := if decide (j = 12%nat) then MAXFILE else Z.of_nat j).
  assert (fblk f a i = b) as Eb.
  { unfold i, fblk. case_decide as Ej; [subst j; exact Hb|]. rewrite (proj2 (Z.ltb_lt _ _)), Nat2Z.id by (unfold NDIRECT; lia). exact Hb. }
  destruct (fk_data _ _ _ _ Hf i) as [Hr _]; [unfold i; case_decide; lia|by rewrite Eb|]. rewrite Eb in Hr. lia.
Qed.

(** A block that a write kept has the same address in the old inode. *)
Lemma kept_block sb s s1 ip off v i : written sb ip s s1 off v → 0 ≤ i < MAXFILE → fblk (cur s) (addrs s ip) i ≠ 0 →
  fblk (cur s1) (addrs s ip) i = fblk (cur s1) (addrs s1 ip) i.
Proof.
  intros Hw Hi Hi0. pose proof (wt_blk _ _ _ _ _ _ Hw) as Hb. pose proof (Hb i ltac:(lia) Hi0) as Ei. revert Hi0 Ei. unfold fblk.
  destruct (Z.ltb_spec i NDIRECT); [by intros _ ->|]. rewrite (proj2 (Z.eqb_neq i MAXFILE)) by lia.
  destruct (Z.eqb_spec (addrs s ip !!! 12%nat) 0) as [|Hne]; [done|]. intros _ _.
  assert (addrs s1 ip !!! 12%nat = addrs s ip !!! 12%nat) as -> by exact (Hb MAXFILE ltac:(done) Hne). by rewrite (proj2 (Z.eqb_neq _ 0) Hne).
Qed.

(** The file on the disk once the transaction of a write is there. *)
Lemma written_disk sb s s1 ip off v g (x := inode_at s ip) : fs_inv sb s ip → written sb ip s s1 off v →
  0 ≤ i_inum x < sb_ninodes sb → dinode_ok x → on_disk s ip → 0 ≤ off ≤ i_size x → i_size x ≤ MAXFILE * BSIZE →
  off + Z.of_nat (length v) ≤ MAXFILE * BSIZE → dense s ip 0 (i_size x) →
  (∀ m, 0 ≤ m < tx_home (fs_txn s) → g m = cur s1 m) →
  disk_file g (i_inum x) = overwrite ((λ i, fbyte (cur s) (addrs s ip) (Z.of_nat i)) <$> seq 0 (Z.to_nat (i_size x))) (Z.to_nat off) v.
Proof.
  intros Hi Hw Hin Hdk [Hs0 Ha0] Hoff Hsz Hmax Hd Hg. pose proof Hi as [Hok Hh Hip Hdev Hf]. pose proof (fo_geo _ _ Hok) as Hgeo.
  destruct (iblock_range _ _ _ Hgeo Hin) as [Hn _]. pose proof (data_start_low _ _ Hgeo). pose proof (kept_block sb s s1 ip off v) as Hkb.
  pose proof (fi_file _ _ _ (wt_inv _ _ _ _ _ _ Hw)) as Hf1. rewrite (wt_home _ _ _ _ _ _ Hw) in Hf1.
  pose proof (wt_inode _ _ _ _ _ _ Hw) as Ex. pose proof (wt_disk _ _ _ _ _ _ Hw) as Ed. cbv zeta in Ed. fold x in Ex, Ed.
  assert (Z.to_nat (Z.max (i_size x) (off + Z.of_nat (length v))) = Nat.max (Z.to_nat (i_size x)) (Z.to_nat off + length v)) as Emax by lia.
  rewrite <- (overwrite_bytes _ (fbyte (cur s1) (addrs s1 ip)) (Z.to_nat (i_size x)) (Z.to_nat off) v); [|lia|].
  2:{ intros o Ho. rewrite (wt_bytes _ _ _ _ _ _ Hw) by lia. unfold splice. by rewrite Z2Nat.id by lia. }
  rewrite <- Emax. destruct (Z.ltb_spec (i_size x) (off + Z.of_nat (length v))) as [Hlt|Hge].
  - destruct (on_disk_store (cur s (IBLOCK (i_inum x))) (i_inum x) (inode_at s1 ip) (cur s1)) as [E1 E2]; [done| | |].
    + unfold cur at 1. rewrite tx_cur_length; [|apply Hok|lia]. unfold dinode_off, IPB, BSIZE, sizeof_dinode. change (512 / 64) with 8.
      pose proof (Z.mod_pos_bound (i_inum x) 8 ltac:(lia)). lia.
    + rewrite Ex. eapply grown_dinode_ok; [done|done|lia|done].
    + apply (disk_file_eq sb (tx_home (fs_txn s)) (cur s1)); try done; [by rewrite E1, Ex|]. apply (file_ok_in sb); [done|done|lia].
  - rewrite (Z.max_l (i_size x)) by lia. rewrite (disk_file_eq sb (tx_home (fs_txn s)) (cur s1) g (i_inum x) (i_size x) (addrs s ip)); try done.
    + apply list_fmap_ext. intros i j Hj. apply lookup_seq in Hj as [-> Hj]. unfold fbyte. pose proof (block_index (Z.of_nat (0 + i))).
      rewrite Hkb; [done|done|lia|apply Hd; lia].
    + etransitivity; [|exact Hs0]. unfold disk_size. by rewrite Ed.
    + etransitivity; [|exact Ha0]. unfold disk_addrs. by rewrite Ed.
    + destruct (file_ok_in sb _ (i_size x) _ _ Hgeo Hf Hsz) as [H12 _]. split; [done|]. intros o Ho Hne. pose proof (block_index o).
      rewrite Hkb in *; [|done|lia|apply Hd; lia|done|lia|apply Hd; lia]. destruct (fk_data _ _ _ _ Hf1 (o / BSIZE)); [lia|done|lia].
Qed.

(** Nothing is logged yet: the disk has the content that the operation sees. *)
Lemma home_cur sb s m : fs_ok sb (fs_txn s) → tx_held (fs_txn s) = ∅ → lh_n (fs_txn s) = 0 → 0 ≤ m < tx_home (fs_txn s) →
  home (fs_txn s) m = cur s m.
Proof.
  intros Hok Hh Hn Hm. pose proof (fo_inv _ _ Hok) as (Hinv & _). destruct (tx_clean (fs_txn s) m) as [H|H]; [apply Hok|done|by apply held_empty| |done].
  exfalso. cbn [tx_logged log_txn_spec] in H. rewrite (li_dirty _ Hinv) in H. unfold logged in H. by rewrite Hn in H.
Qed.

(** C1. A write to a file is atomic under crashes, from writei through the log to
    the disk.  In an operation that runs alone and has logged nothing, writei of [n]
    bytes of [src] at [off], iunlock and end_op leave the file on the disk with
    the new bytes at their place; and if the machine stops after any number of the
    disk writes that were made, then after a reboot and initlog the file on the disk
    has either all of the old bytes or all of the new ones.  The inode is locked and in
    agreement with the disk, the file has no holes and does not become larger than
    MAXFILE blocks; there are two free data blocks for each block that is written
    (on an image of mkfs, [image_alloc] of MkfsBoot.v), and the log has room for these
    blocks, the bitmap and the inode. *)
Theorem file_write_crash_atomic dsw sb s ip src off n (x := inode_at s ip) (t := fs_txn s) :
  fs_inv sb s ip → lg_outstanding t = 1 → lh_n t = 0 → flag (i_flags x) I_BUSY = true → 1 ≤ i_ref x → i_type x ≠ T_DEV → 0 ≤ i_inum x < sb_ninodes sb → dinode_ok x → on_disk s ip →
  0 ≤ off ≤ i_size x → i_size x ≤ MAXFILE * BSIZE → dense s ip 0 (i_size x) → 0 ≤ n ≤ Z.of_nat (length src) → off + n ≤ MAXFILE * BSIZE →
  alloc_ok sb (tx_home t) (cur s) (2 * touched off n) → budget s ip ({[IBLOCK (i_inum x)]} ∪ bitmap_blocks sb) (Z.of_nat (touched off n) + 1) →
  let old := disk_file (home t) (i_inum x) in let new := overwrite old (Z.to_nat off) (take (Z.to_nat n) src) in
  wp (write_end dsw ip src off n) s (λ r s', r = n ∧ disk_file (home (fs_txn s')) (i_inum x) = new ∧
    ∃ ws, bio_writes (lg_cache (fs_txn s')) = bio_writes (lg_cache t) ++ ws ∧
    ∀ k t0, rebooted (bio_size (lg_cache t)) (apply_writes (take k ws) (bio_disk (lg_cache t))) t0 →
      wp initlog t0 (λ _ t', log_inv t' ∧ (disk_file (home t') (i_inum x) = old ∨ disk_file (home t') (i_inum x) = new))).
Proof.
  intros Hi Ho Hn0 Hbu Hre Hty Hin Hdk Hon Hoff Hsz Hd Hn Hmax Ha Hb old new. pose proof Hi as [Hok Hh Hip Hdev Hf]. pose proof (fo_geo _ _ Hok) as Hgeo.
  destruct Hon as [Hs0 Ha0] eqn:EHon. clear EHon. assert (on_disk s ip) as Hon' by done.
  assert (∀ g, (∀ m, 0 ≤ m < tx_home t → g m = home t m) → disk_file g (i_inum x) =
    (λ i, fbyte (cur s) (addrs s ip) (Z.of_nat i)) <$> seq 0 (Z.to_nat (i_size x))) as Hold.
  { intros g Hg. apply (disk_file_eq sb (tx_home t)); try done; [|by apply (file_ok_in sb)].
    intros m Hm. rewrite Hg by done. by apply (home_cur sb). }
  unfold write_end. rewrite wp_bind. wpa (writei_wp dsw sb s ip src off n); [done..|].
  intros r s1 (-> & Hw & _). set (v := take (Z.to_nat n) src) in *. assert (Z.of_nat (length v) = n) as Ev by (unfold v; rewrite length_take; lia).
  pose proof (wt_inv _ _ _ _ _ _ Hw) as [Hok1 Hh1 _ _ _]. pose proof (wt_base _ _ _ _ _ _ Hw) as Hbase. pose proof (wt_home _ _ _ _ _ _ Hw) as Hhome.
  pose proof (fo_inv _ _ Hok1) as (Hinv1 & _ & Hc1). set (t1 := fs_txn s1) in *. fold t in Hbase, Hhome.
  injection Hbase as Edisk Ewr Esize Eops. change (lg_start t1 = lg_start t) in Hhome.
  assert (∀ g, (∀ m, 0 ≤ m < lg_start t → g m = cur s1 m) → disk_file g (i_inum x) = new) as Hnew.
  { intros g Hg. unfold new, old. rewrite (Hold (home t)) by done. apply (written_disk sb s s1); try done. lia. }
  rewrite wp_bind. pose proof (wt_inode _ _ _ _ _ _ Hw) as Ex. wpa (iunlock_txn s1 ip); [by rewrite Ex|by rewrite Ex|].
  intros _ s1' Et. unfold lift. rewrite wp_bind, wp_zoom, Et. fold t1. wpa end_op_last; [done|done|by rewrite Eops|done|].
  intros _ t2 (_ & _ & _ & _ & _ & _ & Ew & Hm). rewrite wp_ret. rewrite Hhome in Hm. split_and!; [done| |].
  { apply Hnew. intros m Hr. by apply Hm. }
  exists (commit_writes t1). split; [change (fs_txn (set_txn t2 s1')) with t2; by rewrite Ew, Ewr|]. intros k t0 Hrb. rewrite <- Edisk, <- Esize in Hrb.
  wpa (commit_crash t1 k t0); [done..|]. intros _ t' (Hinv' & _ & _ & Hcr). split; [done|]. rewrite Hhome in Hcr.
  destruct Hcr as [[_ Hcr]|[_ Hcr]]; [left|right; by apply Hnew].
  unfold old. rewrite (Hold (home t)) by done. apply Hold. intros m Hr. unfold home. by rewrite Hcr, Edisk by done.
Qed.
End crash.

#[local] Existing Instances Bio.bio_ops Bio.bio_spec.
#[local] Opaque fresh_bufs fs_boot.

(** The bytes of hello are written to an empty file: after a crash it is empty, or
    they are there. *)
Lemma file_write_crash_atomic_witness : ∃ dsw : devsw (lstate Bio.bcache),
  wp (write_end dsw 0 hello 0 5) (fs_open reserved empty_file) (λ r s', r = 5 ∧ disk_file (home (fs_txn s')) 2 = hello ∧
    ∃ ws, bio_writes (lg_cache (fs_txn s')) = bio_writes (lg_cache (fs_boot reserved)) ++ ws ∧
    ∀ k t0, rebooted 64 (apply_writes (take k ws) (bio_disk (lg_cache (fs_boot reserved)))) t0 →
      wp initlog t0 (λ _ t', disk_file (home t') 2 = [] ∨ disk_file (home t') 2 = hello)).
Proof.
  exists (mkDevsw _ (λ _, None) (λ _, None)). destruct (fs_boot_ok reserved) as (_ & Hh & Hl & Hm & _).
  assert (disk_file (home (fs_boot reserved)) 2 = []) as E0 by (vm_compute; reflexivity).
  assert (bio_size (lg_cache (fs_boot reserved)) = 64) as Es by (vm_compute; reflexivity).
  eapply wp_mono; [apply (file_write_crash_atomic _ sb64 (fs_open reserved empty_file) 0 hello 0 5)|].
  - apply fs_open_inv.
  - vm_compute. reflexivity.
  - vm_compute. reflexivity.
  - reflexivity.
  - vm_compute. congruence.
  - done.
  - vm_compute. intuition congruence.
  - constructor; [vm_compute; intuition congruence..|]. split; [reflexivity|]. repeat constructor; vm_compute; congruence.
  - split; vm_compute; reflexivity.
  - cbn. lia.
  - vm_compute. congruence.
  - intros o Ho. cbn in Ho. lia.
  - cbn. lia.
  - vm_compute. congruence.
  - change (tx_home _) with (tx_home (fs_boot reserved)). rewrite Hm. apply (alloc_ok_mono _ _ _ _ 4); [vm_compute; lia|exact fs_open_alloc].
  - apply fs_boot_room. vm_compute. congruence.
  - intros r s' (-> & E & ws & Hw & Hc). change (i_inum (inode_at (fs_open reserved empty_file) 0)) with 2 in *.
    change (fs_txn (fs_open reserved empty_file)) with (fs_boot reserved) in *. rewrite E0 in *. rewrite Es in Hc.
    split_and!; [reflexivity|exact E|]. exists ws. split; [exact Hw|]. intros k t0 Hrb.
    eapply wp_mono; [exact (Hc k t0 Hrb)|]. intros _ t' [_ H]. exact H.
Defined.
