(* ===== verification/FsDir.v ===== *)
(** * Directories (fs.c)

    A directory as the list of its entries: dirlookup finds the first entry with a
    name, and dirlink adds an entry for a name that is not there. *)

From stdpp Require Import base numbers option list gmap strings.
From Stdlib Require Import ZArith Lia ZifyBool.
From S2P Require Import Prelude Bytes CString Block Bio BioProps Log LogProofs Txn LogProps Fs FsBlocks FsFile FsRW FsProps.
Import Log Fs.
Local Open Scope Z_scope.

(** The name that a string stands for in a directory: at most 14 characters. *)
Definition dname (s : list Z) : list Z := CString.cname 14 s.

(** The first entry in use with the name, from index [i] on: its index and inode. *)
Fixpoint find_entry (es : list bytes) (i : nat) (name : list Z) : option (nat * Z) :=
  match es with
  | [] => None
  | e :: es =>
      if (de_inum e =? 0) || negb (bool_decide (dname name = dname (de_name e))) then find_entry es (S i) name
      else Some (i, de_inum e)
  end.

(** The index of the first free entry, or the number of entries. *)
Fixpoint free_entry (es : list bytes) (i : nat) : nat :=
  match es with
  | [] => i
  | e :: es => if de_inum e =? 0 then i else free_entry es (S i)
  end.

(** An entry stored at index [k], which may be the end. *)
Definition put_entry (es : list bytes) (k : nat) (e : bytes) : list bytes := take k es ++ e :: drop (S k) es.

Lemma namecmp_spec s t : namecmp s t =? 0 = bool_decide (dname s = dname t).
Proof.
  pose proof (CString.strncmp_eq 14 s t) as H. unfold namecmp, dname. change (Z.to_nat DIRSIZ) with 14%nat. case_bool_decide; destruct (Z.eqb_spec (CString.strncmp 14 s t) 0); tauto.
Qed.

Lemma free_entry_spec es i : let k := free_entry es i in (i ≤ k ≤ i + length es)%nat ∧
  (∀ e, es !! (k - i)%nat = Some e → de_inum e = 0).
Proof.
  revert i. induction es as [|e es IH]; intros i; cbn [free_entry length]; [split; [lia|]; intros e; by rewrite lookup_nil|].
  destruct (Z.eqb_spec (de_inum e) 0) as [E|E].
  - split; [lia|]. rewrite Nat.sub_diag. by intros e' [= <-].
  - destruct (IH (S i)) as [H1 H2]. split; [lia|]. intros e'. replace (free_entry es (S i) - i)%nat with (S (free_entry es (S i) - S i)) by lia. apply H2.
Qed.

(** Storing an entry in a free place. *)
Lemma find_put es : ∀ i k name e, (k ≤ length es)%nat → (∀ e', es !! k = Some e' → de_inum e' = 0) → de_inum e ≠ 0 →
  find_entry (put_entry es k e) i name =
    if decide (dname name = dname (de_name e)) then
      match find_entry (take k es) i name with None => Some ((i + k)%nat, de_inum e) | r => r end
    else find_entry es i name.
Proof.
  induction es as [|e0 es IH]; intros i k name e Hk Hf He; unfold put_entry in *.
  - assert (k = 0%nat) as -> by (simpl in Hk; lia). cbn [take drop app find_entry]. rewrite (proj2 (Z.eqb_neq _ _) He). cbn [orb].
    case_decide; [rewrite bool_decide_true|rewrite bool_decide_false]; try done. cbn [negb]. by rewrite Nat.add_0_r.
  - destruct k as [|k].
    + cbn [take drop app find_entry]. rewrite (Hf e0 eq_refl), Z.eqb_refl, (proj2 (Z.eqb_neq _ _) He). cbn [orb].
      case_decide; [rewrite bool_decide_true|rewrite bool_decide_false]; try done. cbn [negb]. by rewrite Nat.add_0_r.
    + cbn [take drop app find_entry]. specialize (IH (S i) k name e ltac:(simpl in Hk; lia) Hf He). rewrite IH.
      destruct ((de_inum e0 =? 0) || _); [by rewrite <- Nat.add_succ_comm|]. by case_decide.
Qed.

Lemma put_entry_lookup es k e i : (k ≤ length es)%nat → put_entry es k e !! i = if decide (i = k) then Some e else es !! i.
Proof.
  intros Hk. unfold put_entry. assert (length (take k es) = k) as El by (rewrite length_take; lia). case_decide as Hi; [subst i|].
  - by rewrite lookup_app_r, El, Nat.sub_diag by lia.
  - destruct (Nat.lt_ge_cases i k); [by rewrite lookup_app_l, lookup_take_lt by lia|].
    rewrite lookup_app_r, El by lia. destruct (i - k)%nat as [|j] eqn:E; [lia|]. simpl. rewrite lookup_drop. f_equal. lia.
Qed.

Lemma find_take es : ∀ i k name, find_entry es i name = None → find_entry (take k es) i name = None.
Proof.
  induction es as [|e es IH]; intros i [|k] name; cbn [take find_entry]; try done. destruct (_ || _); [|done]. apply IH.
Qed.

(** The entry that dirlink stores. *)
Lemma de_make_spec inum name (e := de_make inum (CString.strncpy (Z.to_nat DIRSIZ) name)) : 0 ≤ inum < 2 ^ 16 →
  length e = 16%nat ∧ de_inum e = inum ∧ dname (de_name e) = dname name.
Proof.
  intros Hi. change (Z.to_nat DIRSIZ) with 14%nat in e. pose proof (CString.length_strncpy 14 name) as El. split_and!.
  - unfold e, de_make. rewrite length_app, El. done.
  - unfold e, de_make, de_inum, get16, le16. cbn [app lookup_total list_lookup_total]. unfold u8. simpl. Z.to_euclidean_division_equations. lia.
  - unfold e, de_name, de_make. change (Z.to_nat DIRSIZ) with 14%nat. unfold slice. change (drop 2 (le16 inum ++ CString.strncpy 14 name)) with (CString.strncpy 14 name).
    rewrite take_ge by (rewrite El; done). apply CString.cname_strncpy.
Qed.

(** What the entry changes for dirlookup. *)
Lemma find_new name inum es (k := free_entry es 0) (e := de_make inum (CString.strncpy (Z.to_nat DIRSIZ) name)) : 0 < inum < 2 ^ 16 →
  find_entry es 0 name = None → find_entry (put_entry es k e) 0 name = Some (k, inum).
Proof.
  intros Hi Hn. destruct (free_entry_spec es 0) as [Hk Hf]. destruct (de_make_spec inum name ltac:(lia)) as (_ & E1 & E2).
  rewrite Nat.sub_0_r in Hf. rewrite find_put; [|lia|done|unfold e; lia]. unfold e. rewrite E2, decide_True, find_take, E1 by done. done.
Qed.

Lemma find_others name name' inum es (k := free_entry es 0) (e := de_make inum (CString.strncpy (Z.to_nat DIRSIZ) name)) : 0 < inum < 2 ^ 16 →
  dname name' ≠ dname name → find_entry (put_entry es k e) 0 name' = find_entry es 0 name'.
Proof.
  intros Hi Hn. destruct (free_entry_spec es 0) as [Hk Hf]. destruct (de_make_spec inum name ltac:(lia)) as (_ & E1 & E2).
  rewrite Nat.sub_0_r in Hf. rewrite find_put; [|lia|done|unfold e; lia]. unfold e. by rewrite E2, decide_False.
Qed.

Lemma touched_entry k : touched (16 * Z.of_nat k) 16 = 1%nat.
Proof. unfold touched, BSIZE. Z.to_euclidean_division_equations. lia. Qed.

(** ** The inode cache *)

Lemma iget_scan_spec l dev inum : ∀ i empty, (∀ j, empty = Some j → (j < i)%nat) →
  match iget_scan l i empty dev inum with
  | (Some j, _) => (i ≤ j < i + length l)%nat ∧ ∃ x, l !! (j - i)%nat = Some x ∧ 0 < i_ref x ∧ i_dev x = dev ∧ i_inum x = inum
  | (None, Some j) => empty = Some j ∨ (i ≤ j < i + length l)%nat ∧ ∃ x, l !! (j - i)%nat = Some x ∧ i_ref x = 0
  | (None, None) => empty = None ∧ ∀ x, x ∈ l → i_ref x ≠ 0
  end.
Proof.
  induction l as [|y l IH]; intros i empty He; cbn [iget_scan length].
  { destruct empty; [by left|]. split; [done|]. intros x Hx. by apply elem_of_nil in Hx. }
  destruct ((0 <? i_ref y) && (i_dev y =? dev) && (i_inum y =? inum)) eqn:E.
  { split; [lia|]. exists y. rewrite Nat.sub_diag. split; [done|]. lia. }
  set (empty' := match empty with None => if i_ref y =? 0 then Some i else None | _ => empty end).
  assert (∀ j, empty' = Some j → (j < S i)%nat) as He'.
  { intros j. unfold empty'. destruct empty as [j'|]; [intros [= <-]; specialize (He j' eq_refl); lia|]. destruct (i_ref y =? 0); [intros [= <-]; lia|done]. }
  assert (∀ j (P : inode → Prop), (S i ≤ j < S i + length l)%nat → (∃ x, l !! (j - S i)%nat = Some x ∧ P x) →
    ∃ x, (y :: l) !! (j - i)%nat = Some x ∧ P x) as Hsh.
  { intros j P Hj (x & Hx & HP). exists x. split; [|done]. by replace (j - i)%nat with (S (j - S i)) by lia. }
  specialize (IH (S i) empty' He'). destruct (iget_scan l (S i) empty' dev inum) as [[j|] [j'|]].
  - destruct IH as [Hj HP]. split; [lia|]. by apply Hsh.
  - destruct IH as [Hj HP]. split; [lia|]. by apply Hsh.
  - destruct IH as [HE|[Hj HP]]; [|right; split; [lia|by apply Hsh]]. unfold empty' in HE. destruct empty as [j0|]; [by left|].
    destruct (Z.eqb_spec (i_ref y) 0) as [Hy|Hy]; [|done]. injection HE as <-. right. split; [lia|]. exists y. by rewrite Nat.sub_diag.
  - destruct IH as [HE HA]. unfold empty' in HE. destruct empty; [done|]. destruct (Z.eqb_spec (i_ref y) 0) as [Hy|Hy]; [done|].
    split; [done|]. intros x [->|Hx]%elem_of_cons; [done|by apply HA].
Qed.

Section dirs.
Context {T : Type} `{!BlockIO T} `{!TxnIO T} `{HT : !TxnSpec T}.
Implicit Types (s : fstate T).

(** The entries of a directory. *)
Definition dents s (dp : nat) : list bytes :=
  (λ i, fbytes s dp (16 * Z.of_nat i) 16) <$> seq 0 (Z.to_nat (i_size (inode_at s dp) / 16)).

(** A locked directory without holes. *)
Record dir_ok sb s (dp : nat) : Prop := mkDirOk {
  do_inv : fs_inv sb s dp;
  do_type : i_type (inode_at s dp) = T_DIR;
  do_size : 0 ≤ i_size (inode_at s dp) ≤ MAXFILE * BSIZE;
  do_mod : i_size (inode_at s dp) mod 16 = 0;
  do_dense : dense s dp 0 (i_size (inode_at s dp));
  do_room : room (fs_txn s) ∅ 0
}.

Lemma length_dents s dp : length (dents s dp) = Z.to_nat (i_size (inode_at s dp) / 16).
Proof. unfold dents. by rewrite length_fmap, length_seq. Qed.

Lemma dents_lookup s dp i : (i < Z.to_nat (i_size (inode_at s dp) / 16))%nat → dents s dp !! i = Some (fbytes s dp (16 * Z.of_nat i) 16).
Proof. intros Hi. unfold dents. by rewrite list_lookup_fmap, lookup_seq_lt by done. Qed.

Lemma dir_ok_ro sb s s' dp : ro s s' → dir_ok sb s dp → dir_ok sb s' dp ∧ dents s' dp = dents s dp.
Proof.
  intros Hr [Hi Ht Hs Hm Hd Hro]. pose proof (ro_inode _ _ Hr dp) as Ei. split.
  - constructor; rewrite ?Ei; try done; [by eapply ro_inv| |by eapply ro_room]. intros o Ho. rewrite (ro_fblk _ _ _ _ Hr). by apply Hd.
  - unfold dents. rewrite Ei. apply list_fmap_ext. intros i j _. apply (ro_fbytes _ _ _ _ _ Hr).
Qed.

(** A change of other cache entries, or of the reference count. *)
Lemma dir_ok_inodes sb s s' dp : fs_txn s' = fs_txn s → length (fs_inodes s') = length (fs_inodes s) →
  (∃ r, inode_at s' dp = i_set_ref r (inode_at s dp)) → dir_ok sb s dp → dir_ok sb s' dp ∧ dents s' dp = dents s dp.
Proof.
  intros Et El [r Ei] [[Hok Hh Hip Hdv Hf] Ht Hs Hm Hd Hro]. assert (∀ m, cur s' m = cur s m) as Ec by (intros m; unfold cur; by rewrite Et).
  assert (addrs s' dp = addrs s dp) as Ea by (unfold addrs; by rewrite Ei). split.
  - constructor; rewrite ?Ei; try done.
    + constructor; rewrite ?Et, ?El, ?Ei, ?Ea; try done. by unfold cur; rewrite Et.
    + intros o Ho. unfold cur. rewrite Et, Ea. by apply Hd.
    + by rewrite Et.
  - unfold dents, fbytes. rewrite Ei, Ea. unfold cur. by rewrite Et.
Qed.

Lemma dents_entry sb s dp i : dir_ok sb s dp → 16 * Z.of_nat i < i_size (inode_at s dp) →
  (i < Z.to_nat (i_size (inode_at s dp) / 16))%nat ∧ 16 * Z.of_nat i + 16 ≤ i_size (inode_at s dp).
Proof. intros [_ _ Hs Hm _ _] Hi. Z.to_euclidean_division_equations. lia. Qed.

(** readi of one entry. *)
Lemma read_entry dsw sb s dp i : dir_ok sb s dp → 16 * Z.of_nat i < i_size (inode_at s dp) →
  wp (readi dsw dp (16 * Z.of_nat i) sizeof_dirent) s (λ r s', ro s s' ∧ r = (16, fbytes s dp (16 * Z.of_nat i) 16)).
Proof.
  intros Hd Hi. destruct (dents_entry _ _ _ _ Hd Hi) as [_ Hle]. destruct Hd as [Hinv Ht Hs Hm Hd Hr].
  assert (MAXFILE * BSIZE = 71680) by done.
  wpa (readi_wp dsw sb s dp (16 * Z.of_nat i) 16); [done|done|by rewrite Ht|done|done|lia|lia|].
  intros r s' [Hro ->]. split; [done|]. rewrite (proj2 (Z.ltb_ge _ _)), (proj2 (Z.leb_gt _ _)) by lia. cbn [orb]. by rewrite Z.min_l by lia.
Qed.

(** The loops over the entries: past the last one, and at entry [i]. *)
Lemma dents_end sb s dp i : dir_ok sb s dp → drop i (dents s dp) = [] → i_size (inode_at s dp) ≤ 16 * Z.of_nat i.
Proof.
  intros [_ _ Hs Hm _ _] He. apply (f_equal length) in He. rewrite length_drop, length_dents in He. simpl in He.
  Z.to_euclidean_division_equations. lia.
Qed.

Lemma dents_next sb s dp i e es : dir_ok sb s dp → drop i (dents s dp) = e :: es →
  fbytes s dp (16 * Z.of_nat i) 16 = e ∧ 16 * Z.of_nat i < i_size (inode_at s dp) ∧ drop (S i) (dents s dp) = es ∧ (S i ≤ length (dents s dp))%nat.
Proof.
  intros [_ _ Hs Hm _ _] He. assert (dents s dp !! i = Some e) as Hei by (rewrite <- (Nat.add_0_r i), <- lookup_drop, He; done).
  pose proof (lookup_lt_Some _ _ _ Hei) as Hl. rewrite length_dents in Hl |- *. rewrite dents_lookup in Hei by done. injection Hei as Ee.
  split_and!; [done| | |lia].
  - Z.to_euclidean_division_equations. lia.
  - by rewrite <- Nat.add_1_r, <- drop_drop, He.
Qed.

Lemma dirlookup_loop_wp dsw sb s dp name (Q : option (nat * Z) → fstate T → Prop) : dir_ok sb s dp → ∀ es i n s1, ro s s1 →
  drop i (dents s dp) = es → (i ≤ length (dents s dp))%nat → (length es ≤ n)%nat →
  (∀ s2, ro s s2 → match find_entry es i name with
    | None => Q None s2
    | Some (j, inum) => wp (ip ← iget ROOTDEV inum; mret (Some (ip, 16 * Z.of_nat j))) s2 Q
    end) →
  wp (dirlookup_loop dsw n dp name (16 * Z.of_nat i)) s1 Q.
Proof.
  intros Hd es. induction es as [|e es IH]; intros i n s1 Hr He Hi Hn HQ.
  - pose proof (dents_end _ _ _ _ Hd He) as Hsz.
    destruct n; cbn [dirlookup_loop]; rewrite wp_bind, wp_gets, (ro_inode _ _ Hr), (proj2 (Z.ltb_ge _ _)) by done; apply wp_ret; by apply (HQ s1).
  - destruct (dents_next _ _ _ _ _ _ Hd He) as (Ee & Hlt & He' & Hi').
    destruct n as [|n]; [simpl in Hn; lia|]. cbn [dirlookup_loop]. rewrite wp_bind, wp_gets, (ro_inode _ _ Hr), (proj2 (Z.ltb_lt _ _)) by done.
    destruct (dir_ok_ro sb s s1 dp Hr Hd) as [Hd1 _]. rewrite wp_bind. wpa (read_entry dsw sb s1 dp i); [done|by rewrite (ro_inode _ _ Hr)|].
    intros r s2 [Hr2 ->]. cbn [fst snd]. rewrite (ro_fbytes _ _ _ _ _ Hr), Ee. pose proof (ro_trans _ _ _ Hr Hr2) as Hr'.
    change (negb (16 =? sizeof_dirent)) with false. cbv iota. rewrite namecmp_spec.
    assert ((∀ s3, ro s s3 → match find_entry es (S i) name with None => Q None s3
              | Some (j, inum) => wp (ip ← iget ROOTDEV inum; mret (Some (ip, 16 * Z.of_nat j))) s3 Q end) →
            wp (dirlookup_loop dsw n dp name (16 * Z.of_nat i + sizeof_dirent)) s2 Q) as Hnext.
    { intros HQ'. replace (16 * Z.of_nat i + sizeof_dirent) with (16 * Z.of_nat (S i)) by (unfold sizeof_dirent; lia).
      apply IH; [done..| |done]. simpl in Hn. lia. }
    cbn [find_entry] in HQ. destruct (de_inum e =? 0) eqn:E0; cbn [orb] in HQ; [by apply Hnext|].
    case_bool_decide; cbn [negb] in *; [|by apply Hnext].
    rewrite (fi_dev _ _ _ (do_inv _ _ _ Hd)). by apply (HQ s2).
Qed.

Lemma dirlink_scan_wp dsw sb s dp : dir_ok sb s dp → ∀ es i n s1, ro s s1 →
  drop i (dents s dp) = es → (i ≤ length (dents s dp))%nat → (length es ≤ n)%nat →
  wp (dirlink_scan dsw n dp (16 * Z.of_nat i)) s1 (λ r s2, ro s s2 ∧ r = 16 * Z.of_nat (free_entry es i)).
Proof.
  intros Hd es. induction es as [|e es IH]; intros i n s1 Hr He Hi Hn.
  - pose proof (dents_end _ _ _ _ Hd He) as Hsz.
    destruct n; cbn [dirlink_scan]; rewrite wp_bind, wp_gets, (ro_inode _ _ Hr), (proj2 (Z.ltb_ge _ _)) by done; by apply wp_ret.
  - destruct (dents_next _ _ _ _ _ _ Hd He) as (Ee & Hlt & He' & Hi').
    destruct n as [|n]; [simpl in Hn; lia|]. cbn [dirlink_scan]. rewrite wp_bind, wp_gets, (ro_inode _ _ Hr), (proj2 (Z.ltb_lt _ _)) by done.
    destruct (dir_ok_ro sb s s1 dp Hr Hd) as [Hd1 _]. rewrite wp_bind. wpa (read_entry dsw sb s1 dp i); [done|by rewrite (ro_inode _ _ Hr)|].
    intros r s2 [Hr2 ->]. cbn [fst snd]. rewrite (ro_fbytes _ _ _ _ _ Hr), Ee. pose proof (ro_trans _ _ _ Hr Hr2) as Hr'.
    change (negb (16 =? sizeof_dirent)) with false. cbv iota. cbn [free_entry]. destruct (de_inum e =? 0); [by apply wp_ret|].
    replace (16 * Z.of_nat i + sizeof_dirent) with (16 * Z.of_nat (S i)) by (unfold sizeof_dirent; lia).
    apply IH; [done..|]. simpl in Hn. lia.
Qed.

(** [s'] is [s] with a reference to the inode in entry [ip] of the cache. *)
Record got s s' (dev inum : Z) (ip : nat) : Prop := mkGot {
  got_ip : (ip < length (fs_inodes s))%nat;
  got_len : length (fs_inodes s') = length (fs_inodes s);
  got_txn : fs_txn s' = fs_txn s;
  got_others : ∀ j, j ≠ ip → inode_at s' j = inode_at s j;
  got_id : i_dev (inode_at s' ip) = dev ∧ i_inum (inode_at s' ip) = inum ∧ 0 < i_ref (inode_at s' ip);
  got_how : 0 < i_ref (inode_at s ip) ∧ inode_at s' ip = i_set_ref (i_ref (inode_at s ip) + 1) (inode_at s ip) ∨
    i_ref (inode_at s ip) = 0 ∧ inode_at s' ip = i_set_id dev inum (inode_at s ip)
}.

(** An entry of the inode cache is free. *)
Definition has_slot s : Prop := ∃ j, (j < length (fs_inodes s))%nat ∧ i_ref (inode_at s j) = 0.

Lemma has_slot_ext s s' : length (fs_inodes s') = length (fs_inodes s) →
  (∀ j, i_ref (inode_at s' j) = i_ref (inode_at s j)) → has_slot s → has_slot s'.
Proof. intros El Er (j & Hj & H0). exists j. rewrite El, Er. done. Qed.

Lemma inode_at_other s ip j f : j ≠ ip → inode_at (upd_inode ip f s) j = inode_at s j.
Proof. intros. unfold inode_at, upd_inode; simpl. by rewrite arr_insert_ne. Qed.

Lemma iget_wp s dev inum : has_slot s → wp (iget dev inum) s (λ ip s', got s s' dev inum ip).
Proof.
  intros (j & Hj & H0). unfold iget. rewrite wp_bind, wp_kget.
  pose proof (iget_scan_spec (fs_inodes s) dev inum 0 None ltac:(done)) as Hs.
  assert (∀ i x, fs_inodes s !! (i - 0)%nat = Some x → inode_at s i = x) as Hat.
  { intros i x. rewrite Nat.sub_0_r. unfold inode_at. apply list_lookup_total_correct. }
  destruct (iget_scan _ _ _ _ _) as [[i|] [i'|]]; cbn [fst snd].
  1,2: destruct Hs as (Hi & x & Hx & Hr & Hdv & Hn); apply Hat in Hx; rewrite wp_bind, wp_modify, wp_ret; subst x;
    constructor; try done; [lia|simpl; by rewrite length_insert|by intros; apply inode_at_other|rewrite inode_at_upd by lia; simpl; lia|];
    left; rewrite inode_at_upd by lia; done.
  - destruct Hs as [|(Hi & x & Hx & Hr)]; [done|]. apply Hat in Hx. rewrite wp_bind, wp_modify, wp_ret. subst x.
    constructor; try done; [lia|simpl; by rewrite length_insert|by intros; apply inode_at_other|rewrite inode_at_upd by lia; simpl; lia|].
    right. by rewrite inode_at_upd by lia.
  - destruct Hs as [_ Hs]. exfalso. apply (Hs (inode_at s j)); [|done]. unfold inode_at. by apply list_elem_of_lookup_total_2.
Qed.

Lemma i_set_ref_id x : i_set_ref (i_ref x) x = x.
Proof. by destruct x. Qed.

Lemma got_dir sb s s' dev inum ip dp : got s s' dev inum ip → 0 < i_ref (inode_at s dp) → dir_ok sb s dp →
  dir_ok sb s' dp ∧ dents s' dp = dents s dp.
Proof.
  intros [] Hr. apply dir_ok_inodes; [done..|]. destruct (decide (dp = ip)) as [->|Hne].
  - destruct got_how0 as [[_ ->]|[]]; [by eexists|lia].
  - exists (i_ref (inode_at s dp)). by rewrite got_others0, i_set_ref_id by done.
Qed.

(** A reference that was just taken is given back. *)
Lemma iput_got sb s s' dev inum ip dp : got s s' dev inum ip → 0 < i_ref (inode_at s dp) → dir_ok sb s dp →
  wp (iput ip) s' (λ _ s2, dir_ok sb s2 dp ∧ dents s2 dp = dents s dp ∧ ∀ j, i_ref (inode_at s2 j) = i_ref (inode_at s j)).
Proof.
  intros G Hr Hd. destruct (got_dir _ _ _ _ _ _ _ G Hr Hd) as [Hd' <-]. destruct G. unfold iput. rewrite wp_bind, wp_gets.
  assert ((i_ref (inode_at s' ip) =? 1) && flag (i_flags (inode_at s' ip)) I_VALID && (i_nlink (inode_at s' ip) =? 0) = false) as ->.
  { destruct got_how0 as [[Hp ->]|[_ ->]]; cbn [i_ref i_set_ref i_flags i_set_id]; [by rewrite (proj2 (Z.eqb_neq _ _)) by lia|done]. }
  rewrite wp_bind, wp_ret, wp_modify. set (s2 := upd_inode ip _ s').
  assert (inode_at s2 ip = i_set_ref (i_ref (inode_at s' ip) - 1) (inode_at s' ip)) as E2 by (unfold s2; by rewrite inode_at_upd by lia).
  assert (∀ j, j ≠ ip → inode_at s2 j = inode_at s' j) as Eo by (intros; by apply inode_at_other).
  destruct (dir_ok_inodes sb s' s2 dp) as [H1 H2]; [done|simpl; by rewrite length_insert| |done|split_and!; [done..|]].
  - destruct (decide (dp = ip)) as [->|]; [by eexists|]. exists (i_ref (inode_at s' dp)). by rewrite Eo, i_set_ref_id.
  - intros j. destruct (decide (j = ip)) as [->|]; [|by rewrite Eo, got_others0]. rewrite E2. cbn [i_ref i_set_ref].
    destruct got_how0 as [[Hp ->]|[Hp ->]]; cbn [i_ref i_set_ref i_set_id]; lia.
Qed.

(** dirlookup finds the entry, and takes a reference to its inode. *)
Lemma dirlookup_wp dsw sb s dp name : dir_ok sb s dp → has_slot s →
  wp (dirlookup dsw dp name) s (λ r s', match find_entry (dents s dp) 0 name with
    | None => r = None ∧ ro s s'
    | Some (j, inum) => ∃ ip s1, r = Some (ip, 16 * Z.of_nat j) ∧ ro s s1 ∧ got s1 s' ROOTDEV inum ip
    end).
Proof.
  intros Hd Hf. unfold dirlookup. rewrite wp_bind, wp_gets, (do_type _ _ _ Hd). cbn [negb Z.eqb T_DIR Pos.eqb].
  change 0 with (16 * Z.of_nat 0) at 1. eapply (dirlookup_loop_wp dsw sb s dp name); [done|eapply ro_refl, Hd|done|lia| |].
  { rewrite drop_0, length_dents. unfold dir_bound, sizeof_dirent. destruct (do_size _ _ _ Hd). Z.to_euclidean_division_equations. lia. }
  rewrite drop_0. intros s2 Hr. destruct (find_entry _ _ _) as [[j inum]|]; [|done].
  rewrite wp_bind. wpa (iget_wp s2 ROOTDEV inum).
  - destruct Hr as (t' & -> & _). done.
  - intros ip s3 G. rewrite wp_ret. by exists ip, s2.
Qed.

(** One entry is stored in the file of the directory. *)
Lemma entry_written sb s s1 dp k e i : written sb dp s s1 (16 * Z.of_nat k) e → length e = 16%nat → 16 * Z.of_nat i + 16 ≤ MAXFILE * BSIZE →
  fbytes s1 dp (16 * Z.of_nat i) 16 = if decide (i = k) then e else fbytes s dp (16 * Z.of_nat i) 16.
Proof.
  intros Hw El Hi.
  assert (∀ j, (j < 16)%nat → fbyte (cur s1) (addrs s1 dp) (16 * Z.of_nat i + Z.of_nat j) =
    splice s dp (16 * Z.of_nat k) e (16 * Z.of_nat i + Z.of_nat j)) as Hb by (intros j Hj; apply (wt_bytes _ _ _ _ _ _ Hw); lia).
  unfold splice in Hb. rewrite El in Hb. case_decide as Hik.
  - subst i. apply (list_eq_same_length _ _ 16); [done|by rewrite length_fbytes|]. intros j x y Hj Hx Hy.
    unfold fbytes in Hx. rewrite list_lookup_fmap, lookup_seq_lt in Hx by done. injection Hx as <-.
    rewrite Hb by done. rewrite (proj2 (Z.leb_le _ _)), (proj2 (Z.ltb_lt _ _)) by lia. simpl.
    replace (Z.to_nat _) with j by lia. by apply list_lookup_total_correct.
  - apply list_fmap_ext. intros j x Hx. apply lookup_seq in Hx as [-> Hj]. simpl in *. rewrite Hb by lia.
    destruct ((16 * Z.of_nat k <=? _) && _) eqn:E; [lia|done].
Qed.

Lemma dents_written sb s s1 dp k e : dir_ok sb s dp → length e = 16%nat → (k ≤ length (dents s dp))%nat →
  16 * Z.of_nat k + 16 ≤ MAXFILE * BSIZE → written sb dp s s1 (16 * Z.of_nat k) e → room (fs_txn s1) ∅ 0 →
  dir_ok sb s1 dp ∧ dents s1 dp = put_entry (dents s dp) k e.
Proof.
  intros Hd El Hk Hmax Hw Hr. destruct Hd as [Hi Ht Hs Hm Hde Hro]. rewrite length_dents in Hk.
  assert (i_size (inode_at s1 dp) = Z.max (i_size (inode_at s dp)) (16 * Z.of_nat k + 16)) as Es by by rewrite (wt_inode _ _ _ _ _ _ Hw), El.
  split.
  - constructor; try done; rewrite ?Es; [apply Hw|by rewrite (wt_inode _ _ _ _ _ _ Hw)|lia|Z.to_euclidean_division_equations; lia|].
    intros o Ho. destruct (Z.lt_ge_cases o (i_size (inode_at s dp))).
    + apply (wt_kept _ _ _ _ _ _ Hw 0 (i_size (inode_at s dp))); [lia|lia|done|lia].
    + apply (wt_dense _ _ _ _ _ _ Hw). rewrite El. Z.to_euclidean_division_equations. lia.
  - apply list_eq. intros i. rewrite put_entry_lookup by (rewrite length_dents; lia).
    destruct (decide (i < Z.to_nat (i_size (inode_at s1 dp) / 16))%nat) as [Hl|Hl].
    + rewrite dents_lookup, (entry_written sb s s1 dp k e i) by (done || (Z.to_euclidean_division_equations; lia)).
      case_decide; [done|]. rewrite dents_lookup; [done|]. rewrite Es in Hl. Z.to_euclidean_division_equations. lia.
    + rewrite lookup_ge_None_2 by (rewrite length_dents; lia). rewrite Es in Hl.
      rewrite decide_False by (Z.to_euclidean_division_equations; lia).
      rewrite lookup_ge_None_2; [done|]. rewrite length_dents. Z.to_euclidean_division_equations. lia.
Qed.

Lemma ro_budget s s' ip M k : ro s s' → budget s ip M k → budget s' ip M k.
Proof. intros Hr. unfold budget, inds, addrs. rewrite (ro_inode _ _ Hr). by apply ro_room. Qed.

Lemma ro_alloc sb s s' n : ro s s' → alloc_ok sb (tx_home (fs_txn s)) (cur s) n → alloc_ok sb (tx_home (fs_txn s')) (cur s') n.
Proof.
  intros Hr. pose proof (ro_cur _ _ Hr) as Ec. destruct Hr as (t' & -> & Ht). intros Ha. change (fs_txn (set_txn t' s)) with t'.
  rewrite (tg_home _ _ _ _ _ Ht). eapply alloc_ok_cur; [|exact Ha]. done.
Qed.

(** dirlink's write of the new entry. *)
Lemma link_entry dsw sb s s2 dp name inum (k := free_entry (dents s dp) 0) (e := de_make inum (CString.strncpy (Z.to_nat DIRSIZ) name)) :
  dir_ok sb s dp → ro s s2 → 0 < i_ref (inode_at s dp) → has_slot s → 0 < inum < 2 ^ 16 → 0 ≤ i_inum (inode_at s dp) < sb_ninodes sb →
  16 * Z.of_nat k + 16 ≤ MAXFILE * BSIZE → alloc_ok sb (tx_home (fs_txn s)) (cur s) 2 →
  budget s dp ({[IBLOCK (i_inum (inode_at s dp))]} ∪ bitmap_blocks sb) 2 →
  wp (r ← writei dsw dp e (16 * Z.of_nat k) sizeof_dirent; if negb (r =? sizeof_dirent) then panic "dirlink" else mret 0) s2
    (λ r s3, r = 0 ∧ dir_ok sb s3 dp ∧ dents s3 dp = put_entry (dents s dp) k e ∧ has_slot s3 ∧ 0 < i_ref (inode_at s3 dp)).
Proof.
  intros Hd Hr Hrf Hsl Hin Hnum Hmax Ha Hb. destruct (dir_ok_ro _ _ _ _ Hr Hd) as [Hd2 E2]. pose proof (ro_inode _ _ Hr dp) as Ei.
  destruct (de_make_spec inum name ltac:(lia)) as (El & _ & _). fold e in El.
  pose proof (proj1 (free_entry_spec (dents s dp) 0)) as Hk. fold k in Hk. rewrite length_dents in Hk.
  rewrite wp_bind. wpa (writei_wp dsw sb s2 dp e (16 * Z.of_nat k) 16); rewrite ?Ei, ?touched_entry; [apply Hd2|by rewrite (do_type _ _ _ Hd)|done| |lia|done|..].
  { destruct (do_size _ _ _ Hd). Z.to_euclidean_division_equations. lia. }
  { by eapply ro_alloc. }
  { by eapply ro_budget. }
  rewrite take_ge by lia. intros r s3 (-> & Hw & Hro3). change (negb (16 =? sizeof_dirent)) with false. cbv iota. rewrite wp_ret. split; [done|].
  destruct (dents_written sb s2 s3 dp k e) as [H1 H2]; [done|done|rewrite E2, length_dents; lia|done..|].
  rewrite <- E2. split_and!; [done..| |].
  - apply (has_slot_ext s2); [apply Hw| |by destruct Hr as (? & -> & _)]. intros j. destruct (decide (j = dp)) as [->|].
    + by rewrite (wt_inode _ _ _ _ _ _ Hw).
    + by rewrite (wt_others _ _ _ _ _ _ Hw).
  - by rewrite (wt_inode _ _ _ _ _ _ Hw), Ei.
Qed.

(** C8. [dirlink] and [dirlookup] on a locked directory without holes.  For a name
    that the directory has, [dirlink] returns -1 and gives back the reference it took:
    the entries and every reference count are as before.  For a new name it returns 0
    and stores one entry, in the first free place or at the end; [dirlookup] then finds
    that entry and takes a reference to its inode, and every other name is found where
    it was.  The inode table has a free entry, the directory is not at its largest size,
    two data blocks are free (on an image of mkfs, [image_alloc] of MkfsBoot.v), and the
    log has room for them, the bitmap and the inode. *)
Theorem dirlink_lookup dsw sb s dp name inum (k := free_entry (dents s dp) 0) : dir_ok sb s dp → 0 < i_ref (inode_at s dp) → has_slot s →
  0 < inum < 2 ^ 16 → 0 ≤ i_inum (inode_at s dp) < sb_ninodes sb → 16 * Z.of_nat k + 16 ≤ MAXFILE * BSIZE →
  alloc_ok sb (tx_home (fs_txn s)) (cur s) 2 →
  budget s dp ({[IBLOCK (i_inum (inode_at s dp))]} ∪ bitmap_blocks sb) 2 →
  wp (dirlink dsw dp name inum) s (λ r s', dir_ok sb s' dp ∧
    match find_entry (dents s dp) 0 name with
    | Some _ => r = -1 ∧ dents s' dp = dents s dp ∧ ∀ j, i_ref (inode_at s' j) = i_ref (inode_at s j)
    | None => r = 0 ∧
        wp (dirlookup dsw dp name) s' (λ q s2, ∃ ip, q = Some (ip, 16 * Z.of_nat k) ∧ dents s2 dp = dents s' dp ∧
          i_dev (inode_at s2 ip) = ROOTDEV ∧ i_inum (inode_at s2 ip) = inum ∧ 0 < i_ref (inode_at s2 ip)) ∧
        ∀ name', dname name' ≠ dname name → find_entry (dents s' dp) 0 name' = find_entry (dents s dp) 0 name'
    end).
Proof.
  intros Hd Hrf Hsl Hin Hnum Hmax Ha Hb. unfold dirlink. rewrite wp_bind. wpa (dirlookup_wp dsw sb s dp name); [done..|].
  intros found s1. destruct (find_entry (dents s dp) 0 name) as [[j n]|] eqn:Ef.
  - intros (ip & s0 & -> & Hr & G). destruct (dir_ok_ro _ _ _ _ Hr Hd) as [Hd0 E0]. pose proof (ro_inode _ _ Hr) as Ei.
    rewrite wp_bind. wpa (iput_got sb s0 s1 ROOTDEV n ip dp); [done|by rewrite Ei|done|].
    intros [] s2 (H1 & H2 & H3). rewrite wp_ret. split_and!; [done|done|congruence|]. intros i. by rewrite H3, Ei.
  - intros [-> Hr]. destruct (dir_ok_ro _ _ _ _ Hr Hd) as [Hd1 E1]. pose proof (ro_inode _ _ Hr) as Ei.
    rewrite wp_bind, wp_gets, wp_bind, <- E1. change 0 with (16 * Z.of_nat 0) at 1.
    wpa (dirlink_scan_wp dsw sb s1 dp Hd1 (dents s1 dp) 0); [eapply ro_refl, Hd1|done|lia| |].
    { rewrite length_dents. unfold dir_bound, sizeof_dirent. destruct (do_size _ _ _ Hd1). Z.to_euclidean_division_equations. lia. }
    intros off s2 [Hr2 ->]. rewrite E1. fold k. pose proof (ro_trans _ _ _ Hr Hr2) as Hr'.
    wpa (link_entry dsw sb s s2 dp name inum); [done..|].
    intros r s3 (-> & Hd3 & E3 & Hsl3 & Hrf3). split_and!; [done|done| |].
    + wpa (dirlookup_wp dsw sb s3 dp name); [done..|]. intros q s4. rewrite E3, (find_new name inum) by done.
      intros (ip & s5 & -> & Hr5 & G). destruct (dir_ok_ro _ _ _ _ Hr5 Hd3) as [Hd5 E5].
      exists ip. split; [done|]. rewrite <- E3, <- E5. split; [|apply G].
      eapply got_dir; [done| |done]. by rewrite (ro_inode _ _ Hr5).
    + intros name' Hne. by rewrite E3, find_others.
Qed.
End dirs.

#[local] Existing Instances Bio.bio_ops Bio.bio_spec.
#[local] Opaque fresh_bufs fs_boot.

(** An empty directory of inode 2 in entry 0 of the inode cache, and a free entry. *)
Definition dir_open : fstate (lstate Bio.bcache) :=
  mkFs [i_set_type T_DIR empty_file; i_set_ref 0 empty_file] [] (fs_boot reserved).

Lemma dir_open_ok : dir_ok sb64 dir_open 0.
Proof.
  destruct fs_open_inv as [Hok Hh Hip Hdv Hf]. constructor; [constructor|..].
  - exact Hok.
  - exact Hh.
  - simpl. lia.
  - done.
  - exact Hf.
  - reflexivity.
  - vm_compute. intuition congruence.
  - vm_compute. reflexivity.
  - intros o Ho. cbn in Ho. lia.
  - apply (fs_boot_room reserved). vm_compute. congruence.
Qed.

(** A name is linked in the empty directory, and found. *)
Lemma dirlink_lookup_witness : ∃ dsw : devsw (lstate Bio.bcache),
  wp (dirlink dsw 0 [97; 98] 7) dir_open (λ r s', r = 0 ∧
    wp (dirlookup dsw 0 [97; 98]) s' (λ q s2, ∃ ip, q = Some (ip, 0) ∧ i_inum (inode_at s2 ip) = 7)).
Proof.
  exists (mkDevsw _ (λ _, None) (λ _, None)).
  eapply wp_mono; [apply (dirlink_lookup _ sb64 dir_open 0 [97; 98] 7)|].
  - apply dir_open_ok.
  - done.
  - exists 1%nat. split; [simpl; lia|done].
  - lia.
  - split; [done|vm_compute; reflexivity].
  - vm_compute. congruence.
  - destruct (fs_boot_ok reserved) as (_ & _ & _ & Hm & _). change (tx_home (fs_txn dir_open)) with (tx_home (fs_boot reserved)). rewrite Hm.
    apply (alloc_ok_mono _ _ _ _ 4); [lia|exact fs_open_alloc].
  - apply (fs_boot_room reserved). vm_compute. congruence.
  - intros r s' (_ & -> & Hq & _). split; [done|]. eapply wp_mono; [exact Hq|]. intros q s2 (ip & -> & _ & _ & E & _). by exists ip.
Defined.
