(* ===== verification/Mkfs.v ===== *)
(** * The maker of file system images (mkfs.c)

    The program runs on the host and writes the disk image that the kernel
    mounts.  The image is the map of its sectors; the structures of fs.h are
    those of Fs.v.  A failing assertion or host call ends the program ([panic]).
    A file is given by its name and the pieces that read returns. *)

From stdpp Require Import base numbers option list gmap strings.
From S2P Require Import Prelude Bytes CString Block Log Fs.
Import Log Fs.
Local Open Scope Z_scope.

Module Mkfs.

Definition nlog : Z := LOGSIZE.
Definition nblocks : Z := 995 - LOGSIZE.
Definition ninodes : Z := 200.
Definition size : Z := 1024.

Record mkfs := mkMkfs { img : sectors; freeblock : Z; usedblocks : Z; freeinode : Z }.

(** The bytes of the result, lowest first, are those of [x] in Intel order; the
    host is little-endian too. *)
Definition xshort (x : Z) : Z := get16 [u8 x; u8 (Z.shiftr x 8)] 0.
Definition xint (x : Z) : Z := get32 [u8 x; u8 (Z.shiftr x 8); u8 (Z.shiftr x 16); u8 (Z.shiftr x 24)] 0.

Definition set_img (i : sectors) (s : mkfs) : mkfs := mkMkfs i (freeblock s) (usedblocks s) (freeinode s).

Definition wsect (sec : Z) (buf : block) : kM mkfs unit := modify (λ s, set_img (<[sec := buf]> (img s)) s).
(** A read past the end of the image fails. *)
Definition rsect (sec : Z) : kM mkfs block :=
  i ← gets img;
  match i !! sec with Some buf => mret buf | None => panic "read" end.

Definition i2b (inum : Z) : Z := inum / IPB + 2.

(** struct dinode is the part of struct inode that dinode_store and dinode_load
    move; the other fields are not used. *)
Definition winode (inum : Z) (ip : inode) : kM mkfs unit :=
  let bn := i2b inum in
  buf ← rsect bn;
  wsect bn (dinode_store buf (dinode_off inum) ip).
Definition din_zero : inode := mkInode 0 0 0 0 0 0 0 0 0 (replicate 13 0).
Definition rinode (inum : Z) : kM mkfs inode :=
  buf ← rsect (i2b inum);
  mret (dinode_load buf (dinode_off inum) din_zero).

Definition ialloc (type : Z) : kM mkfs Z :=
  inum ← gets freeinode;
  _ ← modify (λ s, mkMkfs (img s) (freeblock s) (usedblocks s) (u32 (freeinode s + 1)));
  _ ← winode inum (mkInode 0 0 0 0 (xshort type) 0 0 (xshort 1) (xint 0) (replicate 13 0));
  mret inum.

(** [freeblock++] and [usedblocks++]. *)
Definition take_block : kM mkfs Z :=
  b ← gets freeblock;
  _ ← modify (λ s, mkMkfs (img s) (u32 (freeblock s + 1)) (u32 (usedblocks s + 1)) (freeinode s));
  mret b.

(** The block of the file for [fbn], which is allocated if there is none: the
    new addresses and the block. *)
Definition file_block (fbn : Z) (addrs : list Z) : kM mkfs (list Z * Z) :=
  if fbn <? NDIRECT then
    addrs ← (if xint (addrs !!! Z.to_nat fbn) =? 0 then
               b ← take_block; mret (<[Z.to_nat fbn := xint b]> addrs)
             else mret addrs);
    mret (addrs, xint (addrs !!! Z.to_nat fbn))
  else
    addrs ← (if xint (addrs !!! Z.to_nat NDIRECT) =? 0 then
               b ← take_block; mret (<[Z.to_nat NDIRECT := xint b]> addrs)
             else mret addrs);
    let ind := xint (addrs !!! Z.to_nat NDIRECT) in
    let o := (4 * Z.to_nat (fbn - NDIRECT))%nat in
    indirect ← rsect ind;
    indirect ← (if get32 indirect o =? 0 then
                  b ← take_block;
                  let indirect := put32 indirect o (xint b) in
                  _ ← wsect ind indirect;
                  mret indirect
                else mret indirect);
    mret (addrs, xint (get32 indirect o)).

(** The loop of iappend: [p] are the bytes left; the result is the addresses and
    the size. *)
Fixpoint iappend_loop (fuel : nat) (addrs : list Z) (off : Z) (p : bytes) : kM mkfs (list Z * Z) :=
  if 0 <? Z.of_nat (length p) then
    match fuel with
    | O => panic "iappend: loop bound"
    | S fuel' =>
        let fbn := off / 512 in
        if negb (fbn <? MAXFILE) then panic "assert fbn < MAXFILE"
        else
          '(addrs, x) ← file_block fbn addrs;
          let n1 := Z.min (Z.of_nat (length p)) ((fbn + 1) * 512 - off) in
          buf ← rsect x;
          _ ← wsect x (put buf (Z.to_nat (off - fbn * 512)) (take (Z.to_nat n1) p));
          iappend_loop fuel' addrs (off + n1) (drop (Z.to_nat n1) p)
    end
  else mret (addrs, off).

Definition iappend (inum : Z) (p : bytes) : kM mkfs unit :=
  din ← rinode inum;
  '(addrs, off) ← iappend_loop (length p) (i_addrs din) (xint (i_size din)) p;
  winode inum (i_set_size (xint off) (i_set_addrs addrs din)).

(** [for(i = 0; i < used; i++) buf[i/8] = buf[i/8] | (0x1 << (i%8))]. *)
Definition bitmap (used : Z) : block := foldl (λ d i, bit_set (Z.of_nat i) d) zero_block (seq 0 (Z.to_nat used)).

Definition balloc (used : Z) : kM mkfs unit :=
  if negb (used <? 512 * 8) then panic "assert used < 512*8"
  else wsect (ninodes / IPB + 3) (bitmap used).

(** strncpy into the name of a directory entry that is zero. *)
Definition dirent (inum : Z) (name : list Z) : bytes :=
  let name := take (Z.to_nat DIRSIZ) name in
  de_make (xshort inum) (name ++ replicate (Z.to_nat DIRSIZ - length name) 0).

(** A file of the command line: its name and what read returns. *)
Record hostfile := mkHost { h_name : list Z; h_pieces : list bytes }.

Fixpoint append_pieces (inum : Z) (ps : list bytes) : kM mkfs unit :=
  match ps with
  | [] => mret tt
  | p :: ps => _ ← iappend inum p; append_pieces inum ps
  end.

(** The body of the loop over the files; 47 is '/' and 95 is '_'. *)
Definition add_file (rootino : Z) (f : hostfile) : kM mkfs unit :=
  if existsb (Z.eqb 47) (h_name f) then panic "assert index(argv[i], '/') == 0"
  else
    let name := match h_name f with c :: name => if c =? 95 then name else c :: name | [] => [] end in
    inum ← ialloc T_FILE;
    _ ← iappend rootino (dirent inum name);
    append_pieces inum (h_pieces f).

Fixpoint add_files (rootino : Z) (fs : list hostfile) : kM mkfs unit :=
  match fs with
  | [] => mret tt
  | f :: fs => _ ← add_file rootino f; add_files rootino fs
  end.

(** [memmove(buf, &sb, sizeof(sb))] into a zeroed buffer. *)
Definition super_block : block :=
  put32 (put32 (put32 (put32 zero_block 0 (xint size)) 4 (xint nblocks)) 8 (xint ninodes)) 12 (xint nlog).

(** The size of the root directory is made a multiple of the block size. *)
Definition fix_root_size (rootino : Z) : kM mkfs unit :=
  din ← rinode rootino;
  let off := xint (i_size din) in
  let off := (off / BSIZE + 1) * BSIZE in
  winode rootino (i_set_size (xint off) din).

Definition main (files : list hostfile) : kM mkfs unit :=
  let bitblocks := size / (512 * 8) + 1 in
  let used := ninodes / IPB + 3 + bitblocks in
  _ ← modify (λ s, mkMkfs (img s) used used (freeinode s));
  if negb (nblocks + used + nlog =? size) then panic "assert nblocks + usedblocks + nlog == size"
  else
    _ ← kfor (Z.to_nat (nblocks + used + nlog)) 0 (λ i, wsect i zero_block);
    _ ← wsect 1 super_block;
    rootino ← ialloc T_DIR;
    if negb (rootino =? ROOTINO) then panic "assert rootino == ROOTINO"
    else
      _ ← iappend rootino (dirent rootino [46]);
      _ ← iappend rootino (dirent rootino [46; 46]);
      _ ← add_files rootino files;
      _ ← fix_root_size rootino;
      used ← gets usedblocks;
      balloc used.

(** The variables at the start of the program. *)
Definition start : mkfs := mkMkfs ∅ 0 0 1.
End Mkfs.
