(* ===== verification/MkfsProps.v ===== *)
(** * Properties of the images of mkfs

    The image holds the files that mkfs was given: each has an inode and blocks
    of its own with its bytes, in the sense of the kernel's file system, and the
    bitmap marks exactly the blocks in use. *)

From stdpp Require Import base numbers option list gmap strings.
From Stdlib Require Import ZArith Lia ZifyBool.
From S2P Require Import Prelude Bytes CString Block Log LogProofs Txn Fs FsBlocks FsFile FsProps Mkfs.
Import Log Fs Mkfs.
Local Open Scope Z_scope.

(** ** Byte order *)

Lemma xint_id x : 0 ≤ x < 2 ^ 32 → xint x = x.
Proof.
  intros Hx. unfold xint, get32. cbn [lookup_total list_lookup_total Nat.add]. rewrite !Z.shiftr_div_pow2 by lia.
  unfold u8. Z.div_mod_to_equations. lia.
Qed.
Lemma xshort_id x : 0 ≤ x < 2 ^ 16 → xshort x = x.
Proof.
  intros Hx. unfold xshort, get16. cbn [lookup_total list_lookup_total Nat.add]. rewrite !Z.shiftr_div_pow2 by lia.
  unfold u8. Z.div_mod_to_equations. lia.
Qed.

(** ** Files on the image *)

(** A file: the type and the block addresses of its inode, and its bytes. *)
Record finfo := mkFinfo { fi_type : Z; fi_addrs : list Z; fi_data : bytes }.

(** How many blocks [n] bytes take, with the block of addresses. *)
Definition blocks (n : Z) : Z := (n + 511) / 512 + (if NDIRECT * 512 <? n then 1 else 0).
Definition total (fl : list finfo) : Z := foldr (λ fi t, blocks (Z.of_nat (length (fi_data fi))) + t) 0 fl.

Lemma total_grow l n fo fn : l !! n = Some fo →
  total (<[n := fn]> l) = total l + blocks (Z.of_nat (length (fi_data fn))) - blocks (Z.of_nat (length (fi_data fo))).
Proof.
  revert n. induction l as [|y l IH]; intros [|n] H; simpl in *; try done; [injection H as ->; lia|]. rewrite (IH n H). lia.
Qed.

(** Block [k] of a file of [n] bytes is needed; block [MAXFILE] is the block of
    addresses. *)
Definition needed (k n : Z) : bool := if k =? MAXFILE then NDIRECT * 512 <? n else k * 512 <? n.

(** The byte at offset [o], zero past the end. *)
Definition byte_at (d : bytes) (o : Z) : Z := default 0 (d !! Z.to_nat o).

Lemma byte_at_app_l d e o : 0 ≤ o < Z.of_nat (length d) → byte_at (d ++ e) o = byte_at d o.
Proof. intros Ho. unfold byte_at. by rewrite lookup_app_l by lia. Qed.
Lemma byte_at_app_r d e o : Z.of_nat (length d) ≤ o → byte_at (d ++ e) o = byte_at e (o - Z.of_nat (length d)).
Proof. intros Ho. unfold byte_at. rewrite lookup_app_r by lia. do 2 f_equal. lia. Qed.
Lemma byte_at_end d o : Z.of_nat (length d) ≤ o → byte_at d o = 0.
Proof. intros Ho. unfold byte_at. by rewrite lookup_ge_None_2 by lia. Qed.
Lemma byte_at_lookup d o : 0 ≤ o < Z.of_nat (length d) → d !!! Z.to_nat o = byte_at d o.
Proof. intros Ho. unfold byte_at. rewrite list_lookup_total_alt. by destruct (lookup_lt_is_Some_2 d (Z.to_nat o) ltac:(lia)) as [y ->]. Qed.

(** The first data block. *)
Definition first_block : Z := 29.

(** The data blocks [f] below [F] hold the files [fl], each in blocks of its
    own, and the blocks from [F] on are zero. *)
Record lay (f : Z → block) (F : Z) (fl : list finfo) : Prop := mkLay {
  ly_size i fi : fl !! i = Some fi → length (fi_addrs fi) = 13%nat ∧ Z.of_nat (length (fi_data fi)) ≤ MAXFILE * 512;
  ly_map i fi k : fl !! i = Some fi → 0 ≤ k ≤ MAXFILE →
    (fblk f (fi_addrs fi) k ≠ 0 ↔ needed k (Z.of_nat (length (fi_data fi))) = true);
  ly_range i fi k : fl !! i = Some fi → 0 ≤ k ≤ MAXFILE → fblk f (fi_addrs fi) k ≠ 0 →
    first_block ≤ fblk f (fi_addrs fi) k < F;
  ly_inj i i' fi fi' k k' : fl !! i = Some fi → fl !! i' = Some fi' → 0 ≤ k ≤ MAXFILE → 0 ≤ k' ≤ MAXFILE →
    fblk f (fi_addrs fi) k ≠ 0 → fblk f (fi_addrs fi) k = fblk f (fi_addrs fi') k' → i = i' ∧ k = k';
  ly_data i fi o : fl !! i = Some fi → 0 ≤ o < MAXFILE * 512 → fbyte f (fi_addrs fi) o = byte_at (fi_data fi) o;
  ly_fresh b : F ≤ b < size → f b = zero_block;
  ly_len b : 0 ≤ b < size → length (f b) = 512%nat;
  ly_count : F = first_block + total fl
}.

Lemma fblk_ext f f' a k : (a !!! 12%nat ≠ 0 → f' (a !!! 12%nat) = f (a !!! 12%nat)) → fblk f' a k = fblk f a k.
Proof.
  intros H. unfold fblk. destruct (k <? NDIRECT), (k =? MAXFILE); try done. destruct (a !!! 12%nat =? 0) eqn:E; [done|]. by rewrite H by lia.
Qed.

Lemma fblk_ind f a : fblk f a MAXFILE = a !!! 12%nat.
Proof. done. Qed.
Lemma fblk_leaf f a k : NDIRECT ≤ k < MAXFILE → fblk f a k = if a !!! 12%nat =? 0 then 0 else get32 (f (a !!! 12%nat)) (4 * Z.to_nat (k - NDIRECT)).
Proof.
  intros Hk. unfold fblk. replace (k <? NDIRECT) with false by lia. by replace (k =? MAXFILE) with false by lia.
Qed.

(** ** Finding a block for a write *)

(** Block [k] of the file with the addresses [a] is [x] after the change of the
    blocks from [f] to [f1], of the addresses to [a1] and of the first free block
    to [F1]; it is the old one or a new one. *)
Record placed (f : Z → block) (F : Z) (a : list Z) (k : Z) (f1 : Z → block) (F1 : Z) (a1 : list Z) (x : Z) : Prop := mkPlaced {
  pl_len : length a1 = 13%nat;
  pl_k : fblk f1 a1 k = x;
  pl_same j : 0 ≤ j ≤ MAXFILE → j ≠ k → (j ≠ MAXFILE ∨ a !!! 12%nat ≠ 0 ∨ k < NDIRECT) → fblk f1 a1 j = fblk f a j;
  pl_ind : NDIRECT ≤ k → a1 !!! 12%nat ≠ 0 ∧ (a !!! 12%nat = 0 → a1 !!! 12%nat = F);
  pl_new : fblk f a k = 0 → F ≤ x < F1 ∧ f1 x = zero_block ∧ x ≠ a1 !!! 12%nat;
  pl_old : fblk f a k ≠ 0 → x = fblk f a k ∧ a1 = a ∧ ∀ b, f1 b = f b;
  pl_frame b : k < NDIRECT ∨ b ≠ a1 !!! 12%nat → f1 b = f b;
  pl_blocks b : length (f1 b) = length (f b);
  pl_count : F1 = F + (if fblk f a k =? 0 then 1 else 0) + (if (NDIRECT <=? k) && (a !!! 12%nat =? 0) then 1 else 0)
}.

Definition cur (s : mkfs) : Z → block := λ b, img s !!! b.
Definition present (s : mkfs) : Prop := ∀ b, 0 ≤ b < size → is_Some (img s !! b).

Lemma rsect_wp b s (Q : block → mkfs → Prop) : present s → 0 ≤ b < size → Q (cur s b) s → wp (rsect b) s Q.
Proof.
  intros Hp Hb HQ. unfold rsect. rewrite wp_bind, wp_gets. destruct (Hp b Hb) as [d Hd]. rewrite Hd, wp_ret.
  unfold cur in HQ. by rewrite lookup_total_alt, Hd in HQ.
Qed.

Lemma cur_wsect b d s : ∀ x, cur (set_img (<[b := d]> (img s)) s) x = fupd (cur s) b d x.
Proof.
  intros x. unfold cur, fupd. simpl. case_decide as E; [by rewrite <- E, lookup_total_insert_eq|by rewrite lookup_total_insert_ne].
Qed.

Lemma present_wsect b d s : present s → present (set_img (<[b := d]> (img s)) s).
Proof. intros Hp x Hx. simpl. destruct (decide (b = x)) as [->|]; [by rewrite lookup_insert_eq|]. rewrite lookup_insert_ne by done. by apply Hp. Qed.

Lemma addr_lookup_insert (a : list Z) i j v : length a = 13%nat → (i < 13)%nat →
  <[i := v]> a !!! j = if decide (i = j) then v else a !!! j.
Proof.
  intros Hl Hi. case_decide as E; [subst; apply list_lookup_total_insert_eq; lia|by apply list_lookup_total_insert_ne].
Qed.

(** The program's side of a step: the new state and the result. *)
Definition step_to (s s' : mkfs) : Prop := present s' ∧ freeinode s' = freeinode s ∧ usedblocks s' - freeblock s' = usedblocks s - freeblock s.

Lemma take_block_wp s (Q : Z → mkfs → Prop) : 0 ≤ freeblock s < 2 ^ 31 → 0 ≤ usedblocks s < 2 ^ 31 →
  Q (freeblock s) (mkMkfs (img s) (freeblock s + 1) (usedblocks s + 1) (freeinode s)) → wp take_block s Q.
Proof.
  intros Hf Hu HQ. unfold take_block. rewrite wp_bind, wp_gets, wp_bind, wp_modify, wp_ret. by rewrite !u32_small by lia.
Qed.

(** A direct block. *)
Lemma direct_block_wp s a k : present s → length a = 13%nat → 0 ≤ k < NDIRECT → 0 < freeblock s →
  freeblock s + (if a !!! Z.to_nat k =? 0 then 1 else 0) ≤ size →
  usedblocks s = freeblock s → 0 ≤ a !!! Z.to_nat k < 2 ^ 32 → (∀ b, freeblock s ≤ b < size → cur s b = zero_block) →
  (a !!! 12%nat ≠ 0 → a !!! 12%nat < freeblock s) →
  wp (file_block k a) s (λ r s', placed (cur s) (freeblock s) a k (cur s') (freeblock s') r.1 r.2 ∧ step_to s s').
Proof.
  intros Hp Hl Hk HF0 HF Hu Hr Hfr Hind. assert (size = 1024) as Hsz by done. assert (NDIRECT = 12) as HN by done.
  unfold file_block. replace (k <? NDIRECT) with true by lia. rewrite wp_bind.
  assert (Z.to_nat k < 12)%nat as Hkn by lia. rewrite xint_id by done. destruct (a !!! Z.to_nat k =? 0) eqn:E.
  - rewrite wp_bind. apply take_block_wp; [lia..|]. rewrite !wp_ret. rewrite xint_id by lia.
    rewrite list_lookup_total_insert_eq by lia. rewrite xint_id by lia. split; [|split_and!; simpl; done || lia]. simpl.
    split; try done; [by rewrite length_insert|rewrite fblk_direct by lia; rewrite list_lookup_total_insert_eq by lia; done| |lia| | |].
    + intros j Hj Hjk _. unfold fblk. rewrite !addr_lookup_insert by lia. rewrite (decide_False (P := Z.to_nat k = 12%nat)) by lia.
      destruct (j <? NDIRECT); [|done]. by rewrite decide_False by lia.
    + intros _. split_and!; [lia|lia|apply Hfr; lia|]. rewrite addr_lookup_insert, decide_False by lia. intros Hx.
      destruct (decide (a !!! 12%nat = 0)); [lia|]. specialize (Hind ltac:(done)). lia.
    + rewrite fblk_direct by lia. lia.
    + rewrite fblk_direct by lia. rewrite E. replace (NDIRECT <=? k) with false by lia. simpl. lia.
  - rewrite !wp_ret. rewrite xint_id by done. split; [|split_and!; done]. simpl.
    split; try done; [by rewrite fblk_direct by lia|lia|rewrite fblk_direct by lia; lia|rewrite fblk_direct by lia; done|].
    rewrite fblk_direct, E by lia. replace (NDIRECT <=? k) with false by lia. simpl. lia.
Qed.

Lemma get32_zero_block o : (o + 4 <= 512)%nat → get32 zero_block o = 0.
Proof. intros Ho. apply get32_zero. lia. Qed.

Lemma placed_proper f F a k f1 f2 F1 a1 x : (∀ b, f2 b = f1 b) → placed f F a k f1 F1 a1 x → placed f F a k f2 F1 a1 x.
Proof.
  intros Hf [Hl Hk Hsame Hind Hnew Hold Hframe Hbl Hc].
  assert (∀ j, fblk f2 a1 j = fblk f1 a1 j) as Hb by (intros j; apply fblk_ext; done).
  split; [done|by rewrite Hb| |done| | | | |done].
  - intros j. rewrite Hb. apply Hsame.
  - intros H. rewrite Hf. by apply Hnew.
  - intros H. destruct (Hold H) as (-> & -> & Hall). split_and!; try done. intros b. by rewrite Hf.
  - intros b H. rewrite Hf. by apply Hframe.
  - intros b. by rewrite Hf.
Qed.

(** A new leaf in a block of addresses [ind]; [a1] are the addresses with it. *)
Lemma leaf_placed f F a k ind x F1 : length a = 13%nat → NDIRECT ≤ k < MAXFILE → 0 < F → fblk f a k = 0 →
  let a1 := <[12%nat := ind]> a in ind ≠ 0 → length (f ind) = 512%nat → (a !!! 12%nat ≠ 0 → ind = a !!! 12%nat) →
  (a !!! 12%nat = 0 → ind = F ∧ f ind = zero_block) → F ≤ x < F1 → x ≠ ind → x < 2 ^ 32 → f x = zero_block →
  F1 = F + 1 + (if a !!! 12%nat =? 0 then 1 else 0) →
  placed f F a k (fupd f ind (put32 (f ind) (4 * Z.to_nat (k - NDIRECT)) x)) F1 a1 x.
Proof.
  intros Hl Hk HF H0 a1 Hind Hlen Hold Hnew Hx Hxi Hx32 Hfx Hc. assert (NDIRECT = 12) as HN by done. assert (MAXFILE = 140) as HM by done.
  assert (a1 !!! 12%nat = ind) as Ha1 by (apply list_lookup_total_insert_eq; lia).
  assert (∀ j, NDIRECT ≤ j < MAXFILE →
    fblk (fupd f ind (put32 (f ind) (4 * Z.to_nat (k - NDIRECT)) x)) a1 j = if decide (j = k) then x else fblk f a j) as Hleaf.
  { intros j Hj. rewrite fblk_leaf, Ha1 by done. replace (ind =? 0) with false by lia. unfold fupd. rewrite decide_True by done.
    case_decide as E; [subst j; rewrite get32_put32, u32_small by lia; done|].
    unfold put32. rewrite get32_put by (simpl; lia). rewrite fblk_leaf by done. destruct (a !!! 12%nat =? 0) eqn:E0.
    - destruct Hnew as [_ ->]; [lia|]. apply get32_zero_block. lia.
    - by rewrite Hold by lia. }
  split; try done.
  - unfold a1. by rewrite length_insert.
  - rewrite Hleaf by done. by rewrite decide_True.
  - intros j Hj Hjk Hor. destruct (decide (NDIRECT ≤ j < MAXFILE)) as [|Hn]; [rewrite Hleaf by done; by rewrite decide_False|].
    destruct (decide (j = MAXFILE)) as [->|].
    + rewrite !fblk_ind, Ha1. apply Hold. destruct Hor as [|[|]]; [done|done|lia].
    + rewrite !fblk_direct by lia. apply list_lookup_total_insert_ne. lia.
  - intros _. rewrite Ha1. split; [done|]. intros H. by apply Hnew.
  - intros _. rewrite Ha1. split_and!; [lia|lia| |done]. unfold fupd. by rewrite decide_False.
  - intros b [?|Hb]; [lia|]. rewrite Ha1 in Hb. unfold fupd. by rewrite decide_False.
  - intros b. unfold fupd. case_decide as E; [|done]. rewrite E. unfold put32. apply length_put.
  - rewrite H0. simpl. replace (NDIRECT <=? k) with true by lia. simpl. lia.
Qed.

(** A block behind the block of addresses. *)
Lemma indirect_block_wp s a k : present s → length a = 13%nat → NDIRECT ≤ k < MAXFILE → first_block ≤ freeblock s →
  freeblock s + (if a !!! 12%nat =? 0 then 2 else if fblk (cur s) a k =? 0 then 1 else 0) ≤ size →
  usedblocks s = freeblock s → 0 ≤ a !!! 12%nat < freeblock s → 0 ≤ fblk (cur s) a k < freeblock s →
  (∀ b, freeblock s ≤ b < size → cur s b = zero_block) → (∀ b, 0 ≤ b < size → length (cur s b) = 512%nat) →
  wp (file_block k a) s (λ r s', placed (cur s) (freeblock s) a k (cur s') (freeblock s') r.1 r.2 ∧ step_to s s').
Proof.
  intros Hp Hl Hk HF0 HF Hu Hr Hrk Hfr Hlen. assert (size = 1024) as Hsz by done. assert (NDIRECT = 12) as HN by done. assert (MAXFILE = 140) as HM by done.
  assert (freeblock s ≤ 1024) by (destruct (a !!! 12%nat =? 0), (fblk (cur s) a k =? 0); lia).
  unfold first_block in *. unfold file_block. replace (k <? NDIRECT) with false by lia. rewrite wp_bind. change (Z.to_nat NDIRECT) with 12%nat.
  rewrite xint_id by lia. destruct (a !!! 12%nat =? 0) eqn:E.
  - rewrite wp_bind. apply take_block_wp; [lia..|]. rewrite !wp_ret, wp_bind. rewrite (xint_id (freeblock s)) by lia.
    rewrite list_lookup_total_insert_eq by lia. rewrite (xint_id (freeblock s)) by lia. apply rsect_wp; [done|lia|].
    change (cur (mkMkfs _ _ _ _) (freeblock s)) with (cur s (freeblock s)). rewrite Hfr by lia. rewrite get32_zero_block by lia.
    cbn [Z.eqb]. rewrite !wp_bind. apply take_block_wp; [simpl; lia..|]. cbn [freeblock usedblocks img freeinode].
    unfold wsect. rewrite wp_bind, wp_modify, !wp_ret. rewrite !(xint_id (freeblock s + 1)) by lia. cbn [fst snd].
    rewrite get32_put32, u32_small by (lia || (change (length zero_block) with 512%nat; lia)). rewrite (xint_id (freeblock s + 1)) by lia.
    split; [|split_and!; [by apply present_wsect|done|simpl; lia]]. cbn [freeblock set_img].
    eapply placed_proper; [intros b; apply cur_wsect|]. change (fupd (cur (mkMkfs (img s) _ _ _))) with (fupd (cur s)).
    replace zero_block with (cur s (freeblock s)) by (apply Hfr; lia). apply leaf_placed; try done; try lia.
    + rewrite fblk_leaf, E by done. done.
    + apply Hlen. lia.
    + intros _. split; [done|]. apply Hfr. lia.
    + apply Hfr. lia.
    + rewrite E. lia.
  - rewrite wp_ret, wp_bind. rewrite (xint_id (a !!! 12%nat)) by lia. apply rsect_wp; [done|lia|].
    assert (fblk (cur s) a k = get32 (cur s (a !!! 12%nat)) (4 * Z.to_nat (k - NDIRECT))) as Ek by (rewrite fblk_leaf, E by done; done).
    rewrite <- Ek. rewrite wp_bind. destruct (fblk (cur s) a k =? 0) eqn:Ek0.
    + rewrite wp_bind. apply take_block_wp; [lia..|]. unfold wsect. rewrite wp_bind, wp_modify, !wp_ret.
      rewrite !(xint_id (freeblock s)) by lia. cbn [fst snd].
      rewrite get32_put32, u32_small by (lia || (rewrite Hlen by lia; lia)). rewrite (xint_id (freeblock s)) by lia.
      split; [|split_and!; [by apply present_wsect|done|simpl; lia]]. cbn [freeblock set_img].
      eapply placed_proper; [intros b; apply cur_wsect|]. change (fupd (cur (mkMkfs (img s) _ _ _))) with (fupd (cur s)).
      pose proof (leaf_placed (cur s) (freeblock s) a k (a !!! 12%nat) (freeblock s) (freeblock s + 1)) as HL. cbv zeta in HL.
      rewrite list_insert_id in HL by (apply list_lookup_lookup_total_lt; lia). apply HL; try done; try lia.
      * apply Hlen. lia.
      * apply Hfr. lia.
      * rewrite E. lia.
    + rewrite !wp_ret. cbn [fst snd]. rewrite <- Ek, xint_id by lia. split; [|split_and!; done]. split; try done; try lia.
      rewrite Ek0, E. rewrite andb_false_r. lia.
Qed.

(** ** Writing at the end of a file *)

Section write.
Context (f : Z → block) (F : Z) (fl : list finfo) (i : nat) (fi : finfo) (f1 : Z → block) (F1 : Z) (a1 : list Z) (x : Z) (v : bytes).
Let a := fi_addrs fi.
Let off := Z.of_nat (length (fi_data fi)).
Let k := off / 512.
Let f2 := fupd f1 x (put (f1 x) (Z.to_nat (off mod 512)) v).
Let fi' := mkFinfo (fi_type fi) a1 (fi_data fi ++ v).
Let fl' := <[i := fi']> fl.
Context (Hlay : lay f F fl) (Hi : fl !! i = Some fi) (Hk : k < MAXFILE) (Hpl : placed f F a k f1 F1 a1 x) (HF1 : F1 ≤ size)
  (HF : first_block ≤ F).
Context (Hv : 0 < Z.of_nat (length v) ≤ 512 - off mod 512).

Lemma w_consts : NDIRECT = 12 ∧ MAXFILE = 140 ∧ size = 1024 ∧ first_block = 29.
Proof. done. Qed.

Lemma w_off : off = k * 512 + off mod 512 ∧ 0 ≤ off mod 512 < 512 ∧ 0 ≤ k ∧ 0 ≤ off.
Proof.
  pose proof (Z.div_mod off 512 ltac:(lia)). pose proof (Z.mod_pos_bound off 512 ltac:(lia)).
  assert (0 ≤ off) by (unfold off; lia). assert (0 ≤ k) by (apply Z.div_pos; lia). unfold k. lia.
Qed.

(** Block [k] is new when the file ends at a block boundary. *)
Lemma w_new : fblk f a k = 0 ↔ off mod 512 = 0.
Proof.
  pose proof w_consts as (HN & HM & _ & _). pose proof w_off as (Ho & Hm & Hk0 & _).
  pose proof (ly_map _ _ _ Hlay i fi k Hi ltac:(lia)) as H. unfold needed in H. replace (k =? MAXFILE) with false in H by lia.
  fold a off in H. destruct (decide (fblk f a k = 0)) as [E|E]; [|apply H in E; lia].
  split; [|done]. intros _. destruct (decide (off mod 512 = 0)); [done|]. exfalso. apply H; [lia|done].
Qed.

(** The block of addresses is there when the file has more than twelve blocks. *)
Lemma w_ind : a !!! 12%nat = 0 ↔ off ≤ NDIRECT * 512.
Proof.
  pose proof w_consts as (HN & HM & _ & _). pose proof (ly_map _ _ _ Hlay i fi MAXFILE Hi ltac:(lia)) as H.
  rewrite fblk_ind in H. unfold needed in H. replace (MAXFILE =? MAXFILE) with true in H by lia. fold a off in H.
  destruct (decide (a !!! 12%nat = 0)) as [E|E]; [|apply H in E; lia].
  split; [|done]. intros _. destruct (decide (off ≤ NDIRECT * 512)); [done|]. exfalso. apply H; [lia|done].
Qed.

Lemma w_x : first_block ≤ x < F1 ∧ x ≠ a1 !!! 12%nat ∧ (fblk f a k = 0 → F ≤ x).
Proof.
  pose proof w_consts as (HN & HM & _ & HB). pose proof w_off as (Ho & Hm & Hk0 & _).
  destruct (decide (fblk f a k = 0)) as [E|E].
  - destruct (pl_new _ _ _ _ _ _ _ _ Hpl E) as (H1 & _ & H2). split_and!; [lia|lia|done|lia].
  - destruct (pl_old _ _ _ _ _ _ _ _ Hpl E) as (H1 & H2 & _). pose proof (ly_range _ _ _ Hlay i fi k Hi ltac:(lia) E).
    fold a in H. pose proof (pl_count _ _ _ _ _ _ _ _ Hpl) as Hc.
    assert (F ≤ F1) by (rewrite Hc; destruct (_ =? 0), (_ && _); lia). split_and!; [lia|lia| |done]. rewrite H1, H2. intros Hx.
    rewrite <- (fblk_ind f) in Hx. destruct (ly_inj _ _ _ Hlay i i fi fi k MAXFILE Hi Hi ltac:(lia) ltac:(lia) E Hx). lia.
Qed.

Lemma w_ind_old : a !!! 12%nat ≠ 0 → a1 !!! 12%nat = a !!! 12%nat.
Proof.
  pose proof w_consts as (HN & HM & _ & _). intros H. pose proof (pl_same _ _ _ _ _ _ _ _ Hpl MAXFILE ltac:(lia) ltac:(lia)) as Hs.
  rewrite !fblk_ind in Hs. by apply Hs; right; left.
Qed.

(** The write touches no block of another file, and of this file only block [k]
    and the block of addresses. *)
Lemma w_keeps i' fo j : fl !! i' = Some fo → 0 ≤ j ≤ MAXFILE → fblk f (fi_addrs fo) j ≠ 0 →
  i' ≠ i ∨ j ≠ k ∧ j ≠ MAXFILE → f2 (fblk f (fi_addrs fo) j) = f (fblk f (fi_addrs fo) j).
Proof.
  intros Hi' Hj Hb Hne. pose proof w_consts as (HN & HM & _ & HB). pose proof w_off as (Ho & Hm & Hk0 & _).
  pose proof (ly_range _ _ _ Hlay i' fo j Hi' Hj Hb) as Hr. set (b := fblk f (fi_addrs fo) j) in *.
  assert (b ≠ x) as Hbx.
  { intros E. destruct (decide (fblk f a k = 0)) as [E0|E0]; [destruct w_x as (_ & _ & H); specialize (H E0); lia|].
    destruct (pl_old _ _ _ _ _ _ _ _ Hpl E0) as (Hx & _). rewrite Hx in E.
    destruct (ly_inj _ _ _ Hlay i' i fo fi j k Hi' Hi Hj ltac:(lia) Hb E). naive_solver. }
  unfold f2, fupd. rewrite decide_False by done. apply (pl_frame _ _ _ _ _ _ _ _ Hpl).
  destruct (decide (k < NDIRECT)); [by left|right]. intros E. destruct (pl_ind _ _ _ _ _ _ _ _ Hpl ltac:(lia)) as [Hn HnF].
  destruct (decide (a !!! 12%nat = 0)) as [E0|E0]; [rewrite HnF in E by done; lia|].
  rewrite w_ind_old in E by done. rewrite <- (fblk_ind f) in E.
  destruct (ly_inj _ _ _ Hlay i' i fo fi j MAXFILE Hi' Hi Hj ltac:(lia) Hb E). naive_solver.
Qed.

Lemma w_other i' fo j : fl !! i' = Some fo → i' ≠ i → fblk f2 (fi_addrs fo) j = fblk f (fi_addrs fo) j.
Proof.
  pose proof w_consts as (HN & HM & _ & _). intros Hi' Hne. apply fblk_ext. intros H0. rewrite <- (fblk_ind f).
  apply (w_keeps i' fo MAXFILE Hi' ltac:(lia)); [by rewrite fblk_ind|by left].
Qed.

Lemma w_own j : fblk f2 a1 j = fblk f1 a1 j.
Proof. apply fblk_ext. intros _. unfold f2, fupd. rewrite decide_False; [done|]. intros E. by destruct w_x as (_ & ? & _). Qed.

(** What the blocks of a file are after the write. *)
Lemma w_cases i' fj j : fl' !! i' = Some fj → 0 ≤ j ≤ MAXFILE →
  (∃ fo, fl !! i' = Some fo ∧ fblk f2 (fi_addrs fj) j = fblk f (fi_addrs fo) j) ∨
  (i' = i ∧ F ≤ fblk f2 (fi_addrs fj) j < F1 ∧
    (j = k ∧ fblk f2 (fi_addrs fj) j = x ∨ j = MAXFILE ∧ fblk f2 (fi_addrs fj) j = a1 !!! 12%nat)).
Proof.
  intros Hj' Hj. pose proof w_consts as (HN & HM & _ & HB). pose proof w_off as (Ho & Hm & Hk0 & _).
  destruct (decide (i' = i)) as [->|Hne].
  2:{ unfold fl' in Hj'. rewrite list_lookup_insert_ne in Hj' by done. left. exists fj. split; [done|]. by eapply w_other. }
  unfold fl' in Hj'. rewrite list_lookup_insert_eq in Hj' by (by eapply lookup_lt_Some). injection Hj' as <-. simpl. rewrite w_own.
  destruct w_x as (Hx & Hxi & HxF). destruct (decide (j = k)) as [->|Hjk].
  - rewrite (pl_k _ _ _ _ _ _ _ _ Hpl). destruct (decide (fblk f a k = 0)) as [E|E].
    + right. split_and!; try done; [by apply HxF|lia|by left].
    + left. exists fi. split; [done|]. by destruct (pl_old _ _ _ _ _ _ _ _ Hpl E) as (-> & _).
  - destruct (decide (j ≠ MAXFILE ∨ a !!! 12%nat ≠ 0 ∨ k < NDIRECT)) as [Hor|Hor].
    + left. exists fi. split; [done|]. by apply (pl_same _ _ _ _ _ _ _ _ Hpl).
    + right. assert (j = MAXFILE) as -> by lia. assert (a !!! 12%nat = 0) as E0 by lia. rewrite fblk_ind.
      destruct (pl_ind _ _ _ _ _ _ _ _ Hpl ltac:(lia)) as [Hn HnF]. pose proof (pl_count _ _ _ _ _ _ _ _ Hpl) as Hc.
      replace ((NDIRECT <=? k) && (a !!! 12%nat =? 0)) with true in Hc by lia.
      rewrite HnF by done. split_and!; [done|lia|destruct (_ =? 0); lia|by right].
Qed.

Lemma w_range i' fj j : fl' !! i' = Some fj → 0 ≤ j ≤ MAXFILE → fblk f2 (fi_addrs fj) j ≠ 0 →
  first_block ≤ fblk f2 (fi_addrs fj) j < F1.
Proof.
  intros Hj' Hj Hb. destruct (w_cases i' fj j Hj' Hj) as [(fo & Ho & E)|(_ & H & _)]; [|lia].
  rewrite E in *. pose proof (ly_range _ _ _ Hlay i' fo j Ho Hj Hb). pose proof (pl_count _ _ _ _ _ _ _ _ Hpl) as Hc.
  destruct (_ =? 0), (_ && _); lia.
Qed.

Lemma w_inj i1 i2 fj1 fj2 j1 j2 : fl' !! i1 = Some fj1 → fl' !! i2 = Some fj2 → 0 ≤ j1 ≤ MAXFILE → 0 ≤ j2 ≤ MAXFILE →
  fblk f2 (fi_addrs fj1) j1 ≠ 0 → fblk f2 (fi_addrs fj1) j1 = fblk f2 (fi_addrs fj2) j2 → i1 = i2 ∧ j1 = j2.
Proof.
  intros H1 H2 Hj1 Hj2 Hb E. destruct w_x as (_ & Hxi & _).
  destruct (w_cases i1 fj1 j1 H1 Hj1) as [(fo1 & Ho1 & E1)|(-> & Hr1 & Hc1)],
    (w_cases i2 fj2 j2 H2 Hj2) as [(fo2 & Ho2 & E2)|(-> & Hr2 & Hc2)].
  - rewrite E1 in *. rewrite E2 in *. by eapply (ly_inj _ _ _ Hlay i1 i2 fo1 fo2).
  - rewrite E1 in *. pose proof (ly_range _ _ _ Hlay i1 fo1 j1 Ho1 Hj1 Hb). lia.
  - rewrite E2 in *. rewrite E in Hb. pose proof (ly_range _ _ _ Hlay i2 fo2 j2 Ho2 Hj2 Hb). lia.
  - destruct Hc1 as [[-> Hx1]|[-> Hx1]], Hc2 as [[-> Hx2]|[-> Hx2]]; try done; exfalso; apply Hxi; congruence.
Qed.

Lemma w_map i' fj j : fl' !! i' = Some fj → 0 ≤ j ≤ MAXFILE →
  (fblk f2 (fi_addrs fj) j ≠ 0 ↔ needed j (Z.of_nat (length (fi_data fj))) = true).
Proof.
  intros Hj' Hj. pose proof w_consts as (HN & HM & _ & HB). pose proof w_off as (Ho & Hm & Hk0 & _).
  destruct (decide (i' = i)) as [->|Hne].
  2:{ unfold fl' in Hj'. rewrite list_lookup_insert_ne in Hj' by done. rewrite (w_other i' fj) by done. by apply (ly_map _ _ _ Hlay i'). }
  unfold fl' in Hj'. rewrite list_lookup_insert_eq in Hj' by (by eapply lookup_lt_Some). injection Hj' as <-. simpl. rewrite w_own, length_app.
  rewrite Nat2Z.inj_add. fold off. destruct w_x as (Hx & Hxi & HxF). destruct (decide (j = k)) as [->|Hjk].
  { rewrite (pl_k _ _ _ _ _ _ _ _ Hpl). unfold needed. replace (k =? MAXFILE) with false by lia. lia. }
  destruct (decide (j = MAXFILE)) as [->|Hjm].
  - rewrite fblk_ind. unfold needed. replace (MAXFILE =? MAXFILE) with true by lia. pose proof w_ind as Hind.
    destruct (decide (NDIRECT ≤ k)) as [Hk12|Hk12].
    + destruct (pl_ind _ _ _ _ _ _ _ _ Hpl Hk12) as [Hn _]. split; [intros _; lia|done].
    + assert (a1 !!! 12%nat = a !!! 12%nat) as ->.
      { pose proof (pl_same _ _ _ _ _ _ _ _ Hpl MAXFILE ltac:(lia) ltac:(lia)) as Hs. rewrite !fblk_ind in Hs. apply Hs. lia. }
      rewrite Hind. lia.
  - rewrite (pl_same _ _ _ _ _ _ _ _ Hpl j) by (done || by left). pose proof (ly_map _ _ _ Hlay i fi j Hi Hj) as H. fold a off in H. rewrite H.
    unfold needed. replace (j =? MAXFILE) with false by lia. lia.
Qed.

(** Block [k] after the write. *)
Lemma w_block o : 0 ≤ o → o / 512 = k → f2 x !!! Z.to_nat (o mod 512) = byte_at (fi_data fi ++ v) o.
Proof.
  intros Hoo Ek. pose proof w_consts as (HN & HM & HS & HB). pose proof w_off as (Ho & Hm & Hk0 & _). destruct w_x as (Hx & _).
  pose proof (Z.div_mod o 512 ltac:(lia)) as Hod. pose proof (Z.mod_pos_bound o 512 ltac:(lia)) as Hom.
  assert (length (f1 x) = 512%nat) as Hlx by (rewrite (pl_blocks _ _ _ _ _ _ _ _ Hpl); apply (ly_len _ _ _ Hlay); lia).
  unfold f2, fupd. rewrite decide_True by done.
  destruct (decide (off ≤ o < off + Z.of_nat (length v))) as [Hin|Hout].
  { rewrite put_lookup_in by (rewrite ?Hlx; lia). rewrite byte_at_app_r by (fold off; lia). fold off.
    rewrite <- byte_at_lookup by lia. f_equal. lia. }
  assert (byte_at (fi_data fi ++ v) o = byte_at (fi_data fi) o) as ->.
  { destruct (decide (o < off)); [apply byte_at_app_l; unfold off in *; lia|].
    rewrite !byte_at_end by (rewrite ?length_app; unfold off in *; lia). done. }
  rewrite put_lookup_out by lia. destruct (decide (fblk f a k = 0)) as [E|E].
  - destruct (pl_new _ _ _ _ _ _ _ _ Hpl E) as (_ & -> & _). rewrite byte_at_end by (apply w_new in E; unfold off in *; lia).
    apply lookup_total_replicate_2. change (Z.to_nat BSIZE) with 512%nat. lia.
  - destruct (pl_old _ _ _ _ _ _ _ _ Hpl E) as (Hxk & _ & Hall). rewrite Hall, Hxk.
    rewrite <- (ly_data _ _ _ Hlay i fi o Hi) by lia. unfold fbyte. change BSIZE with 512. rewrite Ek. fold a.
    by replace (fblk f a k =? 0) with false by lia.
Qed.

Lemma w_data i' fj o : fl' !! i' = Some fj → 0 ≤ o < MAXFILE * 512 → fbyte f2 (fi_addrs fj) o = byte_at (fi_data fj) o.
Proof.
  intros Hj' Hoo. pose proof w_consts as (HN & HM & _ & HB). pose proof w_off as (Ho & Hm & Hk0 & _).
  assert (0 ≤ o / 512 < MAXFILE) as Hdiv by (split; [apply Z.div_pos; lia|apply Z.div_lt_upper_bound; lia]).
  pose proof (Z.div_mod o 512 ltac:(lia)) as Hod. pose proof (Z.mod_pos_bound o 512 ltac:(lia)) as Hom.
  unfold fbyte. change BSIZE with 512. destruct (decide (i' = i)) as [->|Hne].
  2:{ unfold fl' in Hj'. rewrite list_lookup_insert_ne in Hj' by done. rewrite <- (ly_data _ _ _ Hlay i' fj o Hj' Hoo). unfold fbyte.
      change BSIZE with 512. rewrite (w_other i' fj) by done. destruct (_ =? 0) eqn:E; [done|]. f_equal.
      apply (w_keeps i' fj (o / 512)); [done|lia|lia|by left]. }
  unfold fl' in Hj'. rewrite list_lookup_insert_eq in Hj' by (by eapply lookup_lt_Some). injection Hj' as <-. simpl. rewrite w_own.
  destruct w_x as (Hx & _). destruct (decide (o / 512 = k)) as [Ek|Ek].
  { rewrite Ek, (pl_k _ _ _ _ _ _ _ _ Hpl). replace (x =? 0) with false by lia. apply w_block; lia. }
  rewrite (pl_same _ _ _ _ _ _ _ _ Hpl) by (lia || (left; lia)).
  assert (byte_at (fi_data fi ++ v) o = byte_at (fi_data fi) o) as ->.
  { destruct (decide (o < off)); [apply byte_at_app_l; unfold off in *; lia|].
    rewrite !byte_at_end by (rewrite ?length_app; unfold off in *; lia). done. }
  rewrite <- (ly_data _ _ _ Hlay i fi o Hi) by lia. unfold fbyte. change BSIZE with 512. fold a.
  destruct (fblk f a (o / 512) =? 0) eqn:E0; [done|]. f_equal. apply (w_keeps i fi (o / 512)); [done|lia|fold a; lia|right; lia].
Qed.

(** The blocks that the write takes are those that the longer file needs. *)
Lemma w_need : (if fblk f a k =? 0 then 1 else 0) + (if (NDIRECT <=? k) && (a !!! 12%nat =? 0) then 1 else 0) =
  blocks (off + Z.of_nat (length v)) - blocks off.
Proof.
  pose proof w_consts as (HN & HM & _ & HB). pose proof w_off as (Ho & Hm & Hk0 & _). unfold blocks.
  assert ((off + Z.of_nat (length v) + 511) / 512 = k + 1) as ->.
  { symmetry. apply (Z.div_unique_pos _ 512 (k + 1) (off + Z.of_nat (length v) + 511 - (k + 1) * 512)); lia. }
  assert ((off + 511) / 512 = if off mod 512 =? 0 then k else k + 1) as ->.
  { destruct (off mod 512 =? 0) eqn:E; symmetry;
      [apply (Z.div_unique_pos _ 512 k (off + 511 - k * 512))|apply (Z.div_unique_pos _ 512 (k + 1) (off + 511 - (k + 1) * 512))]; lia. }
  replace (fblk f a k =? 0) with (off mod 512 =? 0) by (pose proof w_new; destruct (fblk f a k =? 0) eqn:E; lia).
  replace (a !!! 12%nat =? 0) with (off <=? NDIRECT * 512) by (pose proof w_ind; destruct (a !!! 12%nat =? 0) eqn:E; lia).
  destruct (off mod 512 =? 0) eqn:E1, (NDIRECT <=? k) eqn:E2, (off <=? NDIRECT * 512) eqn:E3; simpl;
    repeat match goal with |- context [if ?b then _ else _] => destruct b eqn:? end; lia.
Qed.

Lemma w_count : F1 = first_block + total fl'.
Proof.
  unfold fl'. rewrite (total_grow _ _ _ _ Hi). simpl. rewrite length_app, Nat2Z.inj_add. fold off.
  rewrite (pl_count _ _ _ _ _ _ _ _ Hpl). pose proof (ly_count _ _ _ Hlay) as Hc. pose proof w_need. lia.
Qed.

(** The blocks before the data blocks stay. *)
Lemma w_low b : b < first_block → f2 b = f b.
Proof.
  intros Hb. destruct w_x as (Hx & _). unfold f2, fupd. rewrite decide_False by lia. apply (pl_frame _ _ _ _ _ _ _ _ Hpl).
  pose proof w_consts as (HN & HM & _ & HB). destruct (decide (k < NDIRECT)); [by left|right]. intros ->.
  destruct (pl_ind _ _ _ _ _ _ _ _ Hpl ltac:(lia)) as [Hn HnF]. destruct (decide (a !!! 12%nat = 0)) as [E|E].
  - rewrite HnF in Hb by done. lia.
  - rewrite w_ind_old in Hb by done. rewrite <- (fblk_ind f) in Hb, E.
    pose proof (ly_range _ _ _ Hlay i fi MAXFILE Hi ltac:(lia) E) as Hr. fold a in Hr. lia.
Qed.

Lemma lay_write : lay f2 F1 fl'.
Proof.
  pose proof w_consts as (HN & HM & HS & HB). pose proof w_off as (Ho & Hm & Hk0 & _). destruct w_x as (Hx & Hxi & HxF).
  split; [|exact w_map|exact w_range|exact w_inj|exact w_data| | |exact w_count].
  - intros i' fj Hj'. destruct (decide (i' = i)) as [->|Hne].
    + unfold fl' in Hj'. rewrite list_lookup_insert_eq in Hj' by (by eapply lookup_lt_Some). injection Hj' as <-. simpl.
      rewrite length_app, Nat2Z.inj_add. fold off. split; [apply (pl_len _ _ _ _ _ _ _ _ Hpl)|lia].
    + unfold fl' in Hj'. rewrite list_lookup_insert_ne in Hj' by done. by apply (ly_size _ _ _ Hlay i').
  - intros b Hb. unfold f2, fupd. rewrite decide_False by lia. rewrite (pl_frame _ _ _ _ _ _ _ _ Hpl).
    + apply (ly_fresh _ _ _ Hlay). pose proof (pl_count _ _ _ _ _ _ _ _ Hpl) as Hc. destruct (_ =? 0), (_ && _); lia.
    + destruct (decide (k < NDIRECT)); [by left|right]. intros ->.
      assert (fl' !! i = Some fi') as Hj' by (apply list_lookup_insert_eq; by eapply lookup_lt_Some).
      pose proof (w_range i fi' MAXFILE Hj' ltac:(lia)) as Hr. simpl in Hr. rewrite fblk_ind in Hr.
      destruct (pl_ind _ _ _ _ _ _ _ _ Hpl ltac:(lia)) as [Hn _]. specialize (Hr Hn). lia.
  - intros b Hb. unfold f2, fupd. case_decide as E; [rewrite length_put|]; rewrite (pl_blocks _ _ _ _ _ _ _ _ Hpl);
      apply (ly_len _ _ _ Hlay); lia.
Qed.
End write.
