(* ===== verification/MkfsImage.v ===== *)
(** * The image that mkfs writes

    The operations of mkfs keep an image of which every file is known, and the
    image of [main] is one that the kernel's file system can be run on. *)

From stdpp Require Import base numbers option list gmap strings.
From Stdlib Require Import ZArith Lia ZifyBool.
From S2P Require Import Prelude Bytes CString Block Log LogProofs Txn Fs FsBlocks FsFile FsRW FsProps Mkfs MkfsProps.
Import Log Fs Mkfs.
Local Open Scope Z_scope.

(** ** Appending to a file *)

Lemma blocks_mono n m : n ≤ m → blocks n ≤ blocks m.
Proof.
  intros H. unfold blocks. pose proof (Z.div_le_mono (n + 511) (m + 511) 512 ltac:(lia) ltac:(lia)).
  destruct (NDIRECT * 512 <? n) eqn:E1, (NDIRECT * 512 <? m) eqn:E2; lia.
Qed.
Lemma blocks_nonneg n : 0 ≤ n → 0 ≤ blocks n.
Proof. intros H. apply (blocks_mono 0 n H). Qed.
Lemma total_nonneg fl : 0 ≤ total fl.
Proof. induction fl as [|fi fl IH]; simpl; [done|]. pose proof (blocks_nonneg (Z.of_nat (length (fi_data fi)))). lia. Qed.

(** [lay] is about the data blocks and the lengths. *)
Lemma lay_ext f f' F fl : (∀ b, first_block ≤ b → f' b = f b) → (∀ b, 0 ≤ b < size → length (f' b) = 512%nat) →
  lay f F fl → lay f' F fl.
Proof.
  intros Hf Hl H. assert (∀ i fi k, fl !! i = Some fi → fblk f' (fi_addrs fi) k = fblk f (fi_addrs fi) k) as Hb.
  { intros i fi k Hi. apply fblk_ext. intros H0. apply Hf. rewrite <- (fblk_ind f).
    apply (ly_range _ _ _ H i fi MAXFILE Hi); [done|by rewrite fblk_ind]. }
  pose proof (ly_count _ _ _ H) as Hc. pose proof (total_nonneg fl).
  split; [apply H| | | | | |done|done]; intros.
  - rewrite (Hb i fi) by done. by apply (ly_map _ _ _ H i fi).
  - rewrite (Hb i fi) in * by done. by apply (ly_range _ _ _ H i fi).
  - rewrite (Hb i fi) in * by done. rewrite (Hb i' fi') in * by done. by apply (ly_inj _ _ _ H i i' fi fi').
  - rewrite <- (ly_data _ _ _ H i fi) by done. unfold fbyte. rewrite (Hb i fi) by done. destruct (_ =? 0) eqn:E; [done|].
    f_equal. apply Hf. assert (MAXFILE = 140) by done. change BSIZE with 512 in *.
    apply (ly_range _ _ _ H i fi (o / 512)); [done| |lia].
    split; [apply Z.div_pos; lia|apply Z.lt_le_incl, Z.div_lt_upper_bound; lia].
  - rewrite Hf by lia. by apply (ly_fresh _ _ _ H).
Qed.

(** The image of a state holds the files [fl] in its data blocks. *)
Record dstate (s : mkfs) (fl : list finfo) : Prop := mkDstate {
  ds_present : present s;
  ds_used : usedblocks s = freeblock s;
  ds_free : freeblock s ≤ size;
  ds_lay : lay (cur s) (freeblock s) fl
}.

Lemma file_block_wp s fl i fi (v : bytes) : dstate s fl → fl !! i = Some fi →
  let off := Z.of_nat (length (fi_data fi)) in off / 512 < MAXFILE → 0 < Z.of_nat (length v) ≤ 512 - off mod 512 →
  freeblock s + blocks (off + Z.of_nat (length v)) - blocks off ≤ size →
  wp (file_block (off / 512) (fi_addrs fi)) s (λ r s',
    placed (cur s) (freeblock s) (fi_addrs fi) (off / 512) (cur s') (freeblock s') r.1 r.2 ∧ step_to s s').
Proof.
  intros [Hp Hu Hf Hly] Hi off Hk Hv Hcap. pose proof (w_need _ _ _ _ _ _ Hly Hi Hk Hv) as Hn. fold off in Hn.
  set (k := off / 512) in *. assert (0 ≤ k) as Hk0 by (apply Z.div_pos; lia). assert (MAXFILE = 140 ∧ NDIRECT = 12 ∧ size = 1024 ∧ first_block = 29) as (HM & HN & HS & HB) by done.
  pose proof (ly_count _ _ _ Hly) as Hc. pose proof (total_nonneg fl). destruct (ly_size _ _ _ Hly i fi Hi) as [Hlen _].
  assert (∀ j, 0 ≤ j ≤ MAXFILE → 0 ≤ fblk (cur s) (fi_addrs fi) j < freeblock s) as Hr.
  { intros j Hj. destruct (decide (fblk (cur s) (fi_addrs fi) j = 0)) as [->|E]; [lia|].
    pose proof (ly_range _ _ _ Hly i fi j Hi Hj E). lia. }
  pose proof (Hr k ltac:(lia)) as Hrk. pose proof (Hr MAXFILE ltac:(lia)) as Hri. rewrite fblk_ind in Hri.
  destruct (decide (k < NDIRECT)) as [Hd|Hd].
  - apply direct_block_wp; try done; try lia.
    + rewrite fblk_direct in Hn by lia. destruct (_ && _), (_ =? 0); lia.
    + rewrite fblk_direct in Hrk by lia. lia.
    + apply (ly_fresh _ _ _ Hly).
  - apply indirect_block_wp; try done; try lia.
    + replace (NDIRECT <=? k) with true in Hn by lia. rewrite fblk_leaf in * by lia.
      destruct (fi_addrs fi !!! 12%nat =? 0) eqn:E; cbn [andb Z.eqb] in Hn; rewrite ?andb_false_r in Hn; [lia|]. destruct (_ =? 0); lia.
    + apply (ly_fresh _ _ _ Hly).
    + apply (ly_len _ _ _ Hly).
Qed.

(** What appending [p] to file [i] does: the file is longer, its addresses are
    [a], and nothing else of the image changes but data blocks. *)
Definition grown (fi : finfo) (a : list Z) (p : bytes) : finfo := mkFinfo (fi_type fi) a (fi_data fi ++ p).
Definition appended (s : mkfs) (fl : list finfo) (i : nat) (fi : finfo) (a : list Z) (p : bytes) (s' : mkfs) : Prop :=
  dstate s' (<[i := grown fi a p]> fl) ∧ freeinode s' = freeinode s ∧ ∀ b, b < first_block → cur s' b = cur s b.

(** One pass of the loop. *)
Lemma append_step s fl i fi (v : bytes) (Q : list Z * Z → mkfs → Prop) K : dstate s fl → fl !! i = Some fi →
  let off := Z.of_nat (length (fi_data fi)) in off / 512 < MAXFILE → 0 < Z.of_nat (length v) ≤ 512 - off mod 512 →
  freeblock s + blocks (off + Z.of_nat (length v)) - blocks off ≤ size →
  (∀ a s', appended s fl i fi a v s' → wp (K a) s' Q) →
  wp ('(addrs, x) ← file_block (off / 512) (fi_addrs fi);
      buf ← rsect x; _ ← wsect x (put buf (Z.to_nat (off mod 512)) v); K addrs) s Q.
Proof.
  intros Hd Hi off Hk Hv Hcap HK. rewrite wp_bind. eapply wp_mono; [by apply (file_block_wp s fl i fi v)|].
  intros [a1 x] s1 [Hpl (Hp1 & Hfi & Hus)]. cbn [fst snd] in *. destruct Hd as [Hp Hu Hf Hly].
  pose proof (w_need _ _ _ _ _ _ Hly Hi Hk Hv) as Hn. pose proof (pl_count _ _ _ _ _ _ _ _ Hpl) as Hc. fold off in Hn.
  pose proof (total_nonneg fl). pose proof (ly_count _ _ _ Hly) as Hcl. assert (first_block ≤ freeblock s) as HF by lia.
  rewrite <- Z.add_assoc in Hc. fold off in Hc. rewrite Hn in Hc. assert (freeblock s1 ≤ size) as HF1 by lia.
  destruct (w_x _ _ _ _ _ _ _ _ _ v Hly Hi Hk Hpl HF) as (Hx & _). assert (first_block = 29) by done.
  rewrite wp_bind. apply rsect_wp; [done|lia|]. rewrite wp_bind. unfold wsect. rewrite wp_modify. apply HK.
  split_and!; [split|done|].
  - by apply present_wsect.
  - simpl. lia.
  - done.
  - pose proof (lay_write _ _ _ _ _ _ _ _ _ _ Hly Hi Hk Hpl HF1 HF Hv) as HL.
    eapply lay_ext, HL; [intros b _; apply cur_wsect|]. intros b Hb. rewrite cur_wsect. by apply (ly_len _ _ _ HL).
  - intros b Hb. rewrite cur_wsect. by apply (w_low _ _ _ _ _ _ _ _ _ _ Hly Hi Hk Hpl HF).
Qed.

Lemma iappend_loop_wp fuel s fl i fi p : dstate s fl → fl !! i = Some fi → (length p ≤ fuel)%nat →
  Z.of_nat (length (fi_data fi)) + Z.of_nat (length p) ≤ MAXFILE * 512 →
  freeblock s + blocks (Z.of_nat (length (fi_data fi)) + Z.of_nat (length p)) - blocks (Z.of_nat (length (fi_data fi))) ≤ size →
  wp (iappend_loop fuel (fi_addrs fi) (Z.of_nat (length (fi_data fi))) p) s (λ r s',
    r.2 = Z.of_nat (length (fi_data fi)) + Z.of_nat (length p) ∧ appended s fl i fi r.1 p s').
Proof.
  revert s fl fi p. induction fuel as [|fuel IH]; intros s fl fi p Hd Hi Hf Hsz Hcap.
  all: assert (MAXFILE = 140) as HM by done; set (off := Z.of_nat (length (fi_data fi))) in *.
  all: assert (length p = 0%nat → wp (mret (fi_addrs fi, off)) s (λ r s', r.2 = off + Z.of_nat (length p) ∧ appended s fl i fi r.1 p s')) as Hend.
  1,3: intros E; rewrite wp_ret; simpl; split; [lia|]; destruct p; [|done]; unfold appended, grown; rewrite app_nil_r, list_insert_id by
    (rewrite Hi; by destruct fi); done.
  { simpl. replace (0 <? Z.of_nat (length p)) with false by lia. apply Hend. lia. }
  cbn [iappend_loop]. destruct (0 <? Z.of_nat (length p)) eqn:E; [|apply Hend; lia].
  pose proof (Z.div_mod off 512 ltac:(lia)) as Hod. pose proof (Z.mod_pos_bound off 512 ltac:(lia)) as Hom.
  assert (off / 512 < MAXFILE) as Hk by lia. replace (off / 512 <? MAXFILE) with true by lia. cbn [negb].
  set (n1 := Z.min (Z.of_nat (length p)) ((off / 512 + 1) * 512 - off)) in *. assert (0 < n1 ≤ 512 - off mod 512 ∧ n1 ≤ Z.of_nat (length p)) as Hn1 by lia.
  replace (off - off / 512 * 512) with (off mod 512) by lia. set (v := take (Z.to_nat n1) p) in *.
  assert (Z.of_nat (length v) = n1) as Hv by (unfold v; rewrite length_take; lia).
  pose proof (blocks_mono (off + n1) (off + Z.of_nat (length p)) ltac:(lia)) as Hbm.
  apply (append_step s fl i fi v); [done|done|done|fold off; lia|fold off; rewrite Hv; lia|]. intros a s1 (Hd1 & Hfi1 & Hlow1).
  assert (length (fi_data (grown fi a v)) = (length (fi_data fi) + length v)%nat) as Hlg by (simpl; by rewrite length_app).
  assert (off + n1 = Z.of_nat (length (fi_data (grown fi a v)))) as Eo by (rewrite Hlg; unfold off; lia).
  assert (Z.of_nat (length (drop (Z.to_nat n1) p)) = Z.of_nat (length p) - n1) as Hld by (rewrite length_drop; lia).
  rewrite Eo. eapply wp_mono; [apply (IH s1 (<[i := grown fi a v]> fl) (grown fi a v)); [done| | | |]|].
  - apply list_lookup_insert_eq. by eapply lookup_lt_Some.
  - lia.
  - rewrite <- Eo. lia.
  - rewrite <- Eo, Hld. pose proof (ly_count _ _ _ (ds_lay _ _ Hd1)) as Hc1. pose proof (ly_count _ _ _ (ds_lay _ _ Hd)) as Hc.
    rewrite (total_grow _ _ _ _ Hi), <- Eo in Hc1. fold off in Hc1. replace (off + n1 + (Z.of_nat (length p) - n1)) with (off + Z.of_nat (length p)) by lia. lia.
  - intros [a2 o2] s2 [Ho2 (Hd2 & Hfi2 & Hlow2)]. cbn [fst snd] in *. split; [rewrite Ho2, <- Eo; lia|]. split_and!; [|congruence|].
    + rewrite list_insert_insert_eq in Hd2. unfold grown in Hd2 at 1. simpl in Hd2. rewrite <- app_assoc in Hd2. unfold v in Hd2. by rewrite take_drop in Hd2.
    + intros b Hb. rewrite Hlow2, Hlow1 by done. done.
Qed.

(** ** The table of inodes *)

Lemma put_addrs_from_above d o a j k i : (o + 4 * (j + k) ≤ i)%nat → put_addrs_from d o a j k !!! i = d !!! i.
Proof.
  unfold put_addrs_from. revert d j. induction k as [|k IH]; intros d j Hi; [done|]. simpl.
  rewrite IH by lia. unfold put32. apply put_lookup_out. simpl. lia.
Qed.

Lemma dinode_store_out d o ip i : (i < o)%nat ∨ (o + 64 ≤ i)%nat → dinode_store d o ip !!! i = d !!! i.
Proof.
  intros Hi. unfold dinode_store, put_addrs. set (d' := put32 _ (o + 8) _). fold (put_addrs_from d' (o + 12) (i_addrs ip) 0 13).
  assert (d' !!! i = d !!! i) as <- by (unfold d', put32, put16; rewrite !put_lookup_out by (simpl; lia); done).
  destruct Hi; [apply put_addrs_get|apply put_addrs_from_above]; lia.
Qed.

Lemma dinode_load_ext d d' o y : (∀ i, (o ≤ i < o + 64)%nat → d' !!! i = d !!! i) → dinode_load d' o y = dinode_load d o y.
Proof.
  intros H. unfold dinode_load, get16, get32. f_equal; [f_equal; rewrite !H by lia; done..|rewrite !H by lia; done|].
  apply list_fmap_ext. intros i j Hj. apply lookup_seq in Hj as [-> Hj]. rewrite !H by lia. done.
Qed.

(** The inode of number [inum] on the image. *)
Definition slot (s : mkfs) (inum : Z) : inode := dinode_load (cur s (i2b inum)) (dinode_off inum) din_zero.

Lemma slot_place inum : 0 ≤ inum < ninodes →
  2 ≤ i2b inum < 27 ∧ Z.of_nat (dinode_off inum) = inum mod 8 * 64 ∧ i2b inum = inum / 8 + 2 ∧ inum = 8 * (inum / 8) + inum mod 8 ∧ 0 ≤ inum mod 8 < 8.
Proof.
  unfold ninodes, i2b, dinode_off, IPB, BSIZE, sizeof_dinode. change (512 / 64) with 8. intros H.
  pose proof (Z.div_mod inum 8 ltac:(lia)). pose proof (Z.mod_pos_bound inum 8 ltac:(lia)).
  pose proof (Z.div_pos inum 8 ltac:(lia) ltac:(lia)). pose proof (Z.div_lt_upper_bound inum 8 25 ltac:(lia) ltac:(lia)). lia.
Qed.

(** [s'] is [s] with inode [inum] replaced by [ip]. *)
Record replaced (s : mkfs) (inum : Z) (ip : inode) (s' : mkfs) : Prop := mkReplaced {
  rp_present : present s';
  rp_used : usedblocks s' = usedblocks s;
  rp_free : freeblock s' = freeblock s;
  rp_inode : freeinode s' = freeinode s;
  rp_other b : b < 2 ∨ 27 ≤ b → cur s' b = cur s b;
  rp_length b : length (cur s' b) = length (cur s b);
  rp_slot : slot s' inum = ip;
  rp_slots j : 0 ≤ j < ninodes → j ≠ inum → slot s' j = slot s j
}.

(** An inode as mkfs sees it. *)
Definition on_disk (ip : inode) : Prop := i_dev ip = 0 ∧ i_inum ip = 0 ∧ i_ref ip = 0 ∧ i_flags ip = 0.

Lemma winode_wp s inum ip : present s → (∀ b, 0 ≤ b < size → length (cur s b) = 512%nat) → 0 ≤ inum < ninodes →
  dinode_ok ip → on_disk ip → wp (winode inum ip) s (λ _, replaced s inum ip).
Proof.
  intros Hp Hl Hin Hok (E1 & E2 & E3 & E4). destruct (slot_place inum Hin) as (Hb & Ho & Hbn & Hd & Hm).
  assert (size = 1024) as HS by done. unfold winode. rewrite wp_bind. apply rsect_wp; [done|lia|]. unfold wsect. rewrite wp_modify.
  set (d := dinode_store _ _ _). split; try done.
  - by apply present_wsect.
  - intros b Hb'. rewrite cur_wsect. unfold fupd. by rewrite decide_False by lia.
  - intros b. rewrite cur_wsect. unfold fupd. case_decide as E; [|done]. rewrite E. apply length_dinode_store.
  - unfold slot. rewrite cur_wsect. unfold fupd. rewrite decide_True by done. unfold d.
    rewrite dinode_load_store by (done || (rewrite Hl by lia; lia)). destruct ip. simpl in *. by subst.
  - intros j Hj Hne. unfold slot. rewrite cur_wsect. unfold fupd. case_decide as E; [|done].
    destruct (slot_place j Hj) as (_ & Hoj & Hbj & Hdj & Hmj). rewrite E. apply dinode_load_ext. intros i Hi.
    unfold d. apply dinode_store_out. lia.
Qed.

Lemma rinode_wp s inum (Q : inode → mkfs → Prop) : present s → 0 ≤ inum < ninodes → Q (slot s inum) s → wp (rinode inum) s Q.
Proof.
  intros Hp Hin HQ. destruct (slot_place inum Hin) as (Hb & _). assert (size = 1024) as HS by done. unfold rinode. rewrite wp_bind.
  apply rsect_wp; [done|lia|]. by rewrite wp_ret.
Qed.

(** ** The state between the operations *)

Definition ino (fi : finfo) : inode := mkInode 0 0 0 0 (fi_type fi) 0 0 1 (Z.of_nat (length (fi_data fi))) (fi_addrs fi).

(** File [i] has inode [i + 1]; the other inodes are free. *)
Record inv (s : mkfs) (fl : list finfo) : Prop := mkInv {
  in_data : dstate s fl;
  in_free : freeinode s = Z.of_nat (length fl) + 1;
  in_count : Z.of_nat (length fl) < ninodes;
  in_types : Forall (λ fi, 0 < fi_type fi < 2 ^ 15) fl;
  in_slot i fi : fl !! i = Some fi → slot s (Z.of_nat i + 1) = ino fi;
  in_empty inum : Z.of_nat (length fl) < inum < ninodes → i_type (slot s inum) = 0;
  in_sb : cur s 1 = super_block
}.

Lemma ino_ok f F fl i fi : lay f F fl → F ≤ size → fl !! i = Some fi → 0 < fi_type fi < 2 ^ 15 → dinode_ok (ino fi).
Proof.
  intros Hly HF Hi Ht. destruct (ly_size _ _ _ Hly i fi Hi) as [Hl Hs]. assert (MAXFILE = 140 ∧ NDIRECT = 12 ∧ size = 1024) as (HM & HN & HS) by done.
  split; simpl; try lia. split; [done|]. apply Forall_lookup. intros j x Hx. pose proof (lookup_lt_Some _ _ _ Hx) as Hj.
  set (k := if decide (j = 12%nat) then MAXFILE else Z.of_nat j). assert (fblk f (fi_addrs fi) k = x) as E.
  { apply list_lookup_total_correct in Hx. unfold k. case_decide as E; [subst; by rewrite fblk_ind|]. rewrite fblk_direct by lia. by rewrite Nat2Z.id. }
  destruct (decide (x = 0)) as [->|Hx0]; [lia|]. pose proof (ly_range _ _ _ Hly i fi k Hi) as Hr. rewrite E in Hr.
  assert (first_block = 29) by done. specialize (Hr ltac:(unfold k; case_decide; lia) Hx0). lia.
Qed.

Lemma slot_low s s' inum : (∀ b, b < first_block → cur s' b = cur s b) → 0 ≤ inum < ninodes → slot s' inum = slot s inum.
Proof. intros H Hin. destruct (slot_place inum Hin) as (Hb & _). assert (first_block = 29) by done. unfold slot. by rewrite H by lia. Qed.

Lemma dstate_replaced s s' inum ip fl : dstate s fl → replaced s inum ip s' → dstate s' fl.
Proof.
  intros [Hp Hu Hf Hly] [Rp Ru Rf _ Ro Rl _ _]. split; [done|lia|lia|]. rewrite Rf. eapply lay_ext, Hly.
  - intros b Hb. apply Ro. assert (first_block = 29) by done. lia.
  - intros b Hb. rewrite Rl. by apply (ly_len _ _ _ Hly).
Qed.

Lemma iappend_wp s fl i fi p : inv s fl → fl !! i = Some fi →
  let n := Z.of_nat (length (fi_data fi)) in n + Z.of_nat (length p) ≤ MAXFILE * 512 →
  first_block + total fl + blocks (n + Z.of_nat (length p)) - blocks n ≤ size →
  wp (iappend (Z.of_nat i + 1) p) s (λ _ s', ∃ a, inv s' (<[i := grown fi a p]> fl)).
Proof.
  intros [Hd Hfr Hcn Hty Hsl Hem Hsb] Hi n Hsz Hcap. assert (MAXFILE = 140) as HM by done. pose proof (lookup_lt_Some _ _ _ Hi) as Hil.
  assert (0 ≤ Z.of_nat i + 1 < ninodes) as Hin by lia. pose proof (ly_count _ _ _ (ds_lay _ _ Hd)) as Hc.
  unfold iappend. rewrite wp_bind. apply rinode_wp; [apply Hd|done|]. rewrite (Hsl i fi Hi). cbn [ino i_addrs i_size]. fold n.
  rewrite xint_id by lia. rewrite wp_bind. eapply wp_mono; [apply (iappend_loop_wp (length p) s fl i fi p); fold n; done || lia|].
  intros [a off] s1 [Ho (Hd1 & Hf1 & Hlow)]. cbn [fst snd] in *. fold n in Ho. set (fl' := <[i := grown fi a p]> fl) in *.
  assert (fl' !! i = Some (grown fi a p)) as Hi' by (by apply list_lookup_insert_eq).
  assert (i_set_size (xint off) (i_set_addrs a (ino fi)) = ino (grown fi a p)) as ->.
  { rewrite xint_id by lia. unfold ino, i_set_size, i_set_addrs, grown. simpl. rewrite length_app. f_equal. lia. }
  assert (0 < fi_type fi < 2 ^ 15) as Ht by (by eapply Forall_lookup_1 in Hty).
  eapply wp_mono; [apply winode_wp; [apply Hd1|apply (ly_len _ _ _ (ds_lay _ _ Hd1))|done| |done]|].
  { eapply (ino_ok _ _ fl' i); [apply Hd1|apply Hd1|done|done]. }
  intros [] s2 R. exists a. pose proof (dstate_replaced _ _ _ _ _ Hd1 R) as Hd2. destruct R as [Rp Ru Rf Ri Ro Rl Rs Rss].
  assert (length fl' = length fl) as Hl' by apply length_insert. fold fl'.
  split; rewrite ?Hl'; try done; [lia|by apply Forall_insert| | |].
  - intros j fj Hj. destruct (decide (j = i)) as [->|Hne]; [rewrite Rs; congruence|].
    pose proof (lookup_lt_Some _ _ _ Hj) as Hjl. unfold fl' in Hj. rewrite list_lookup_insert_ne in Hj by done.
    rewrite Rss by lia. rewrite (slot_low s s1) by (done || lia). by apply Hsl.
  - intros inum Hinum. rewrite Rss by lia. rewrite (slot_low s s1) by (done || lia). by apply Hem.
  - rewrite Ro by lia. rewrite Hlow by done. done.
Qed.

(** A file without data. *)
Lemma total_snoc l l' : total (l ++ l') = total l + total l'.
Proof. induction l as [|y l IH]; simpl; [done|]. rewrite IH. lia. Qed.

Lemma lay_snoc f F fl ty : lay f F fl → lay f F (fl ++ [mkFinfo ty (replicate 13 0) []]).
Proof.
  intros Hly. set (fn := mkFinfo ty (replicate 13 0) []).
  assert (∀ k, 0 ≤ k ≤ MAXFILE → fblk f (fi_addrs fn) k = 0) as H0.
  { intros k Hk. unfold fblk. simpl. destruct (k <? NDIRECT) eqn:E; [|by destruct (k =? MAXFILE)].
    apply (lookup_total_replicate_2 13 0). assert (NDIRECT = 12) by done. lia. }
  assert (∀ j fj, (fl ++ [fn]) !! j = Some fj → fl !! j = Some fj ∨ fj = fn) as Hcase.
  { intros j fj Hj. apply lookup_snoc_Some in Hj as [[_ ?]|[_ <-]]; auto. }
  assert (MAXFILE = 140) as HM by done. split; [| | | | |apply Hly|apply Hly|].
  - intros j fj Hj. destruct (Hcase j fj Hj) as [?| ->]; [by apply (ly_size _ _ _ Hly j)|]. simpl. split; [done|lia].
  - intros j fj k Hj Hk. destruct (Hcase j fj Hj) as [?| ->]; [by apply (ly_map _ _ _ Hly j)|]. rewrite H0 by done. simpl.
    unfold needed. assert (NDIRECT = 12) by done. destruct (k =? MAXFILE); split; [done|lia|done|lia].
  - intros j fj k Hj Hk Hb. destruct (Hcase j fj Hj) as [?| ->]; [by apply (ly_range _ _ _ Hly j)|]. by rewrite H0 in Hb.
  - intros j j' fj fj' k k' Hj Hj' Hk Hk' Hb E. destruct (Hcase j fj Hj) as [?| ->]; [|by rewrite H0 in Hb].
    destruct (Hcase j' fj' Hj') as [?| ->]; [by apply (ly_inj _ _ _ Hly j j' fj fj')|]. rewrite (H0 k') in E by done. by rewrite E in Hb.
  - intros j fj o Hj Ho. destruct (Hcase j fj Hj) as [?| ->]; [by apply (ly_data _ _ _ Hly j)|]. unfold fbyte. change BSIZE with 512.
    rewrite H0; [done|]. split; [apply Z.div_pos; lia|apply Z.lt_le_incl, Z.div_lt_upper_bound; lia].
  - rewrite total_snoc. change (total [fn]) with 0. pose proof (ly_count _ _ _ Hly). lia.
Qed.

Lemma ialloc_wp s fl ty : inv s fl → Z.of_nat (length fl) + 1 < ninodes → 0 < ty < 2 ^ 15 →
  wp (ialloc ty) s (λ r s', r = Z.of_nat (length fl) + 1 ∧ inv s' (fl ++ [mkFinfo ty (replicate 13 0) []])).
Proof.
  intros [Hd Hfr Hcn Hty Hsl Hem Hsb] Hn Ht. assert (ninodes = 200) as HI by done.
  unfold ialloc. rewrite wp_bind, wp_gets, wp_bind, wp_modify. rewrite Hfr, u32_small by lia. rewrite !xshort_id, xint_id by lia. rewrite wp_bind.
  set (s1 := mkMkfs _ _ _ _). set (fn := mkFinfo ty (replicate 13 0) []). change (mkInode 0 0 0 0 ty 0 0 1 0 (replicate 13 0)) with (ino fn).
  pose proof (lay_snoc _ _ _ ty (ds_lay _ _ Hd)) as Hly. fold fn in Hly.
  assert (dstate s1 (fl ++ [fn])) as Hd1 by (split; apply Hd || exact Hly).
  assert ((fl ++ [fn]) !! length fl = Some fn) as Hl by (apply list_lookup_middle; done).
  eapply wp_mono; [apply winode_wp; [apply Hd1|apply (ly_len _ _ _ Hly)|lia| |done]|].
  { eapply (ino_ok _ _ (fl ++ [fn])); [apply Hd1|apply Hd1|done|done]. }
  intros [] s2 R. rewrite wp_ret. split; [done|]. pose proof (dstate_replaced _ _ _ _ _ Hd1 R) as Hd2. destruct R as [Rp Ru Rf Ri Ro Rl Rs Rss].
  split; rewrite ?length_app; cbn [length]; try done; try lia.
  - rewrite Ri. simpl. lia.
  - apply Forall_app. split; [done|]. by apply Forall_singleton.
  - intros j fj Hj. apply lookup_snoc_Some in Hj as [[Hj' ?]|[-> <-]]; [|done]. rewrite Rss by lia. by apply (Hsl j).
  - intros inum Hinum. rewrite Rss by lia. apply Hem. lia.
  - rewrite Ro by lia. done.
Qed.

(** ** Files by their contents *)

Definition contents (fl : list finfo) : list (Z * bytes) := (λ fi, (fi_type fi, fi_data fi)) <$> fl.
Definition ctotal (c : list (Z * bytes)) : Z := foldr (λ x t, blocks (Z.of_nat (length x.2)) + t) 0 c.

(** The image of [s] holds the files [c]. *)
Definition holds (s : mkfs) (c : list (Z * bytes)) : Prop := ∃ fl, inv s fl ∧ contents fl = c.

Lemma ctotal_contents fl : ctotal (contents fl) = total fl.
Proof. induction fl as [|fi fl IH]; simpl; [done|]. by rewrite IH. Qed.
Lemma ctotal_app c c' : ctotal (c ++ c') = ctotal c + ctotal c'.
Proof. induction c as [|x c IH]; simpl; [done|]. rewrite IH. lia. Qed.

Lemma iappend_holds s c i ty d p : holds s c → c !! i = Some (ty, d) →
  Z.of_nat (length (d ++ p)) ≤ MAXFILE * 512 → first_block + ctotal (<[i := (ty, d ++ p)]> c) ≤ size →
  wp (iappend (Z.of_nat i + 1) p) s (λ _ s', holds s' (<[i := (ty, d ++ p)]> c)).
Proof.
  intros (fl & Hinv & <-) Hi Hsz Hcap. apply list_lookup_fmap_Some in Hi as (fi & [= -> ->] & Hi).
  assert (∀ a, contents (<[i := grown fi a p]> fl) = <[i := (fi_type fi, fi_data fi ++ p)]> (contents fl)) as Hc.
  { intros a. unfold contents. by rewrite list_fmap_insert. }
  rewrite <- (Hc []), ctotal_contents, (total_grow _ _ _ _ Hi) in Hcap. simpl in Hcap. rewrite length_app, Nat2Z.inj_add in *.
  eapply wp_mono; [apply (iappend_wp s fl i fi p); [done|done|lia|lia]|]. intros _ s' (a & Ha). by exists (<[i := grown fi a p]> fl).
Qed.

Lemma ialloc_holds s c ty : holds s c → Z.of_nat (length c) + 1 < ninodes → 0 < ty < 2 ^ 15 →
  wp (ialloc ty) s (λ r s', r = Z.of_nat (length c) + 1 ∧ holds s' (c ++ [(ty, [])])).
Proof.
  intros (fl & Hinv & <-) Hn Ht. unfold contents in Hn |- *. rewrite length_fmap in *.
  eapply wp_mono; [by apply (ialloc_wp s fl ty)|]. intros r s' [-> Hs']. split; [done|].
  eexists; split; [exact Hs'|]. unfold contents. by rewrite fmap_app.
Qed.

Lemma ctotal_grow c i ty d p : c !! i = Some (ty, d) → ctotal c ≤ ctotal (<[i := (ty, d ++ p)]> c).
Proof.
  revert i. induction c as [|x c IH]; intros [|i] H; simpl in *; try done; [injection H as ->|by specialize (IH i H); lia].
  simpl. pose proof (blocks_mono (Z.of_nat (length d)) (Z.of_nat (length (d ++ p))) ltac:(rewrite length_app; lia)). lia.
Qed.

Lemma append_pieces_holds ps s c i ty d : holds s c → c !! i = Some (ty, d) →
  Z.of_nat (length (d ++ concat ps)) ≤ MAXFILE * 512 → first_block + ctotal (<[i := (ty, d ++ concat ps)]> c) ≤ size →
  wp (append_pieces (Z.of_nat i + 1) ps) s (λ _ s', holds s' (<[i := (ty, d ++ concat ps)]> c)).
Proof.
  revert s c d. induction ps as [|p ps IH]; intros s c d Hh Hi Hsz Hcap; simpl in *.
  { rewrite wp_ret. rewrite app_nil_r. by rewrite list_insert_id. }
  pose proof (lookup_lt_Some _ _ _ Hi) as Hil. rewrite app_assoc in *.
  assert (<[i := (ty, d ++ p)]> c !! i = Some (ty, d ++ p)) as Hi' by (by apply list_lookup_insert_eq).
  pose proof (ctotal_grow _ _ _ _ (concat ps) Hi') as Hg. rewrite list_insert_insert_eq in Hg.
  rewrite wp_bind. eapply wp_mono; [apply (iappend_holds s c i ty d p); [done|done| |lia]|].
  { rewrite (length_app (d ++ p)) in Hsz. lia. }
  intros [] s1 H1. eapply wp_mono; [apply (IH s1 _ (d ++ p) H1 Hi')|]; rewrite ?list_insert_insert_eq; try done; by intros.
Qed.

(** ** What mkfs is to write *)

(** The name of a file without the underscore, the entries of the root
    directory, and the files of the image. *)
Definition file_name (h : hostfile) : list Z := match h_name h with c :: name => if c =? 95 then name else c :: name | [] => [] end.
Fixpoint entries (inum : Z) (hs : list hostfile) : bytes :=
  match hs with [] => [] | h :: hs => dirent inum (file_name h) ++ entries (inum + 1) hs end.
Definition file_of (h : hostfile) : Z * bytes := (T_FILE, concat (h_pieces h)).
Definition image (hs : list hostfile) : list (Z * bytes) :=
  (T_DIR, dirent ROOTINO [46] ++ dirent ROOTINO [46; 46] ++ entries 2 hs) :: (file_of <$> hs).

(** What mkfs can be given: no name has a slash, and each file fits. *)
Definition host_ok (h : hostfile) : Prop := 47 ∉ h_name h ∧ Z.of_nat (length (concat (h_pieces h))) ≤ MAXFILE * 512.

Lemma length_dirent inum name : length (dirent inum name) = 16%nat.
Proof. unfold dirent, de_make. rewrite !length_app, length_replicate, length_take. change (Z.to_nat DIRSIZ) with 14%nat. change (length (le16 (xshort inum))) with 2%nat. lia. Qed.
Lemma length_entries n hs : length (entries n hs) = (16 * length hs)%nat.
Proof. revert n. induction hs as [|h hs IH]; intros n; cbn [entries length]; [done|]. rewrite length_app, length_dirent, IH. lia. Qed.

Lemma ctotal_nonneg c : 0 ≤ ctotal c.
Proof. induction c as [|x c IH]; simpl; [done|]. pose proof (blocks_nonneg (Z.of_nat (length x.2))). lia. Qed.

Lemma add_file_holds h s r l : holds s ((T_DIR, r) :: l) → host_ok h → Z.of_nat (length l) + 2 < ninodes →
  let n := Z.of_nat (length l) + 2 in
  Z.of_nat (length r) + 16 ≤ MAXFILE * 512 → first_block + ctotal ((T_DIR, r ++ dirent n (file_name h)) :: l ++ [file_of h]) ≤ size →
  wp (add_file ROOTINO h) s (λ _ s', holds s' ((T_DIR, r ++ dirent n (file_name h)) :: l ++ [file_of h])).
Proof.
  intros Hh [Hs Hf] Hn n Hr Hcap. unfold add_file.
  replace (existsb (Z.eqb 47) (h_name h)) with false.
  2:{ symmetry. apply not_true_is_false. intros (x & Hx & E)%existsb_exists. apply Z.eqb_eq in E as <-. by apply Hs, list_elem_of_In. }
  fold (file_name h). rewrite wp_bind. eapply wp_mono; [apply (ialloc_holds s _ T_FILE Hh); [simpl; lia|done]|].
  intros inum s1 [-> H1]. cbn [length app] in *. replace (Z.of_nat (S (length l)) + 1) with n by lia.
  set (r' := r ++ dirent n (file_name h)) in *. rewrite wp_bind. change (ctotal (?x :: ?y)) with (blocks (Z.of_nat (length x.2)) + ctotal y) in Hcap.
  rewrite ctotal_app in Hcap. pose proof (ctotal_nonneg [file_of h]).
  assert (first_block + ctotal ((T_DIR, r') :: l ++ [(T_FILE, [])]) ≤ size) as Hc1.
  { change (ctotal (?x :: ?y)) with (blocks (Z.of_nat (length x.2)) + ctotal y). rewrite ctotal_app. change (ctotal [(T_FILE, [])]) with 0. lia. }
  eapply wp_mono; [apply (iappend_holds s1 _ 0 T_DIR r (dirent n (file_name h)) H1); [done| |done]|].
  { rewrite length_app, length_dirent. lia. }
  intros [] s2 H2. change (<[0%nat := ?x]> (?y :: ?c)) with (x :: c) in H2. fold r' in H2.
  replace n with (Z.of_nat (S (length l)) + 1) by lia.
  assert (((T_DIR, r') :: l ++ [(T_FILE, [])]) !! S (length l) = Some (T_FILE, [])) as Hl by (simpl; by apply list_lookup_middle).
  assert (<[S (length l) := (T_FILE, [] ++ concat (h_pieces h))]> ((T_DIR, r') :: l ++ [(T_FILE, [])]) = (T_DIR, r') :: l ++ [file_of h]) as E.
  { simpl. f_equal. replace (length l) with (length l + 0)%nat by lia. by rewrite insert_app_r. }
  eapply wp_mono; [apply (append_pieces_holds _ s2 _ (S (length l)) T_FILE [] H2 Hl)|]; rewrite ?E; [done| |by intros].
  change (ctotal (?x :: ?y)) with (blocks (Z.of_nat (length x.2)) + ctotal y). rewrite ctotal_app. lia.
Qed.

Lemma add_files_holds hs s r l : holds s ((T_DIR, r) :: l) → Forall host_ok hs → Z.of_nat (length l) + Z.of_nat (length hs) + 1 < ninodes →
  Z.of_nat (length r) + 16 * Z.of_nat (length hs) ≤ MAXFILE * 512 →
  let c := (T_DIR, r ++ entries (Z.of_nat (length l) + 2) hs) :: l ++ (file_of <$> hs) in first_block + ctotal c ≤ size →
  wp (add_files ROOTINO hs) s (λ _ s', holds s' c).
Proof.
  revert s r l. induction hs as [|h hs IH]; intros s r l Hh Hok Hn Hr c Hcap; subst c; cbn [entries add_files fmap list_fmap] in *.
  { rewrite wp_ret. by rewrite !app_nil_r. }
  apply Forall_cons in Hok as [Hok1 Hok]. cbn [length] in Hn, Hr. set (n := Z.of_nat (length l) + 2) in *. rewrite app_assoc in Hcap |- *.
  set (r' := r ++ dirent n (file_name h)) in *. change (file_of h :: (file_of <$> hs)) with ([file_of h] ++ (file_of <$> hs)) in *.
  rewrite (app_assoc l) in Hcap |- *. replace (n + 1) with (Z.of_nat (length (l ++ [file_of h])) + 2) in * by (rewrite length_app; simpl; lia).
  rewrite wp_bind. eapply wp_mono; [apply (add_file_holds h s r l Hh Hok1)|].
  - lia.
  - lia.
  - fold n r'. change (ctotal (?x :: ?y)) with (blocks (Z.of_nat (length x.2)) + ctotal y) in *. cbn [snd] in *.
    rewrite ctotal_app in Hcap. pose proof (ctotal_nonneg (file_of <$> hs)).
    pose proof (blocks_mono (Z.of_nat (length r')) (Z.of_nat (length (r' ++ entries (Z.of_nat (length (l ++ [file_of h])) + 2) hs))) ltac:(rewrite length_app; lia)). lia.
  - intros [] s1 H1. fold n r' in H1. apply (IH s1 r' (l ++ [file_of h]) H1 Hok); [rewrite length_app; simpl; lia| |done].
    unfold r'. rewrite length_app, length_dirent. lia.
Qed.

(** ** The bitmap *)

Lemma length_bitmap n : length (bitmap n) = 512%nat.
Proof.
  unfold bitmap. generalize (seq 0 (Z.to_nat n)). intros l. assert (length zero_block = 512%nat) as Hz by done. revert Hz. generalize zero_block.
  induction l as [|i l IH]; intros d Hd; simpl; [done|]. apply IH. by rewrite length_bit_set.
Qed.

Lemma bitmap_used n j : 0 ≤ n ≤ BPB → 0 ≤ j < BPB → bit_used (bitmap n) j = (j <? n).
Proof.
  intros Hn Hj. assert (∀ k : nat, Z.of_nat k ≤ BPB → bit_used (bitmap (Z.of_nat k)) j = (j <? Z.of_nat k)) as H.
  2:{ rewrite <- (Z2Nat.id n) by lia. apply H. lia. }
  induction k as [|k IH]; intros Hk.
  - change (bitmap (Z.of_nat 0)) with zero_block. replace (j <? Z.of_nat 0) with false by lia. rewrite bit_used_testbit.
    unfold zero_block. rewrite lookup_total_replicate_2; [apply Z.bits_0|].
    pose proof (Z.div_lt_upper_bound j 8 512 ltac:(lia) ltac:(unfold BPB, BSIZE in *; lia)). unfold BSIZE. lia.
  - pose proof (length_bitmap (Z.of_nat k)) as Hl. unfold bitmap in *. rewrite Nat2Z.id in *. rewrite seq_S, foldl_app. simpl.
    rewrite bit_used_set by (lia || done). rewrite IH by lia. lia.
Qed.

(** ** The start *)

Lemma zero_image_wp n s : freeinode s = 1 → wp (kfor n 0 (λ i, wsect i zero_block)) s (λ _ s',
  (∀ b, 0 ≤ b < Z.of_nat n → img s' !! b = Some zero_block) ∧ freeblock s' = freeblock s ∧ usedblocks s' = usedblocks s ∧ freeinode s' = 1).
Proof.
  intros Hi. eapply wp_mono; [apply (wp_kfor n 0 _ (λ j t, (∀ b, 0 ≤ b < j → img t !! b = Some zero_block) ∧
    freeblock t = freeblock s ∧ usedblocks t = usedblocks s ∧ freeinode t = 1))|].
  - split_and!; [lia|done..].
  - intros j t Hj (Hz & Hf & Hu & Hfi). unfold wsect. rewrite wp_modify. split_and!; [|done..]. intros b Hb. simpl.
    destruct (decide (b = j)) as [->|]; [by rewrite lookup_insert_eq|]. rewrite lookup_insert_ne by done. apply Hz. lia.
  - by intros [] t.
Qed.

(** The image with only the super block. *)
Lemma empty_holds s : (∀ b, 0 ≤ b < size → img s !! b = Some zero_block) → freeblock s = first_block → usedblocks s = first_block →
  freeinode s = 1 → holds (set_img (<[1 := super_block]> (img s)) s) [].
Proof.
  intros Hz Hf Hu Hi. assert (size = 1024 ∧ first_block = 29 ∧ ninodes = 200) as (HS & HB & HI) by done.
  assert (∀ b, 0 ≤ b < size → cur s b = zero_block) as Hc by (intros b Hb; unfold cur; by apply lookup_total_correct, Hz).
  set (s' := set_img _ s). assert (∀ b, 2 ≤ b < size → cur s' b = zero_block) as Hc'.
  { intros b Hb. unfold s'. rewrite cur_wsect. unfold fupd. rewrite decide_False by lia. apply Hc. lia. }
  exists []. split; [|done]. split; try done.
  - split; [apply present_wsect; intros b Hb; rewrite Hz by done; done|simpl; lia|simpl; lia|].
    split; try done.
    + intros b Hb. simpl in Hb. apply Hc'. lia.
    + intros b Hb. unfold s'. rewrite cur_wsect. unfold fupd. case_decide; [done|]. by rewrite Hc.
  - intros inum Hinum. destruct (slot_place inum ltac:(simpl in *; lia)) as (Hb & Ho & _ & _ & Hm). unfold slot. rewrite Hc' by lia.
    cbn [i_type dinode_load]. unfold get16, zero_block. rewrite !lookup_total_replicate_2 by (unfold BSIZE; lia). done.
  - unfold s'. rewrite cur_wsect. unfold fupd. by rewrite decide_True.
Qed.

(** ** The finished image *)

(** What readsb decodes, and where the log starts. *)
Definition the_sb : superblock := mkSb size nblocks ninodes nlog.
Definition log_start : Z := size - nlog.

(** The size of the root directory is rounded up, past a full block too. *)
Definition file_size (i : nat) (n : Z) : Z := if decide (i = 0%nat) then (n / BSIZE + 1) * BSIZE else n.

(** The image is one for the kernel: inode [i + 1] is that of file [i] of
    [image hs], with a sound block map, and the file's bytes behind it. *)
Record image_ok (hs : list hostfile) (s : mkfs) : Prop := mkImageOk {
  io_sb : sb_decode (cur s 1) = the_sb;
  io_used : usedblocks s = data_start the_sb + ctotal (image hs);
  io_bitmap b : 0 ≤ b < size → used ninodes (cur s) b = (b <? usedblocks s);
  io_zero b : usedblocks s ≤ b < size → cur s b = zero_block;
  io_inode i ty d : image hs !! i = Some (ty, d) → let ip := slot s (Z.of_nat i + 1) in
    i_type ip = ty ∧ i_nlink ip = 1 ∧ i_size ip = file_size i (Z.of_nat (length d)) ∧ file_ok the_sb log_start (cur s) (i_addrs ip);
  io_map i ty d k : image hs !! i = Some (ty, d) → 0 ≤ k < MAXFILE → k * BSIZE < Z.of_nat (length d) →
    fblk (cur s) (i_addrs (slot s (Z.of_nat i + 1))) k ≠ 0;
  io_data i ty d o : image hs !! i = Some (ty, d) → 0 ≤ o < MAXFILE * BSIZE →
    fbyte (cur s) (i_addrs (slot s (Z.of_nat i + 1))) o = byte_at d o;
  io_apart i i' k k' : (i < length (image hs))%nat → (i' < length (image hs))%nat → 0 ≤ k ≤ MAXFILE → 0 ≤ k' ≤ MAXFILE →
    let b := fblk (cur s) (i_addrs (slot s (Z.of_nat i + 1))) k in
    b ≠ 0 → b = fblk (cur s) (i_addrs (slot s (Z.of_nat i' + 1))) k' → i = i' ∧ k = k';
  io_free inum : Z.of_nat (length (image hs)) < inum < ninodes → i_type (slot s inum) = 0
}.

(** With the bitmap the image is finished. *)
Lemma bitmap_finishes hs s fl : dstate s fl → contents fl = image hs → freeblock s ≤ log_start → Z.of_nat (length fl) < ninodes →
  (∀ i fi, fl !! i = Some fi → slot s (Z.of_nat i + 1) = i_set_size (file_size i (Z.of_nat (length (fi_data fi)))) (ino fi)) →
  (∀ inum, Z.of_nat (length fl) < inum < ninodes → i_type (slot s inum) = 0) → cur s 1 = super_block →
  image_ok hs (set_img (<[ninodes / IPB + 3 := bitmap (usedblocks s)]> (img s)) s).
Proof.
  intros [Hp Hu Hf Hly] Hc Hlog Hcn Hsl Hem Hsb. change (ninodes / IPB + 3) with 28. set (s' := set_img _ s).
  assert (size = 1024 ∧ first_block = 29 ∧ ninodes = 200 ∧ log_start = 994) as (HS & HB & HI & HL) by done.
  assert (∀ b, b ≠ 28 → cur s' b = cur s b) as Ho by (intros b Hb; unfold s'; rewrite cur_wsect; unfold fupd; by rewrite decide_False).
  assert (cur s' 28 = bitmap (usedblocks s)) as Hbm by (unfold s'; rewrite cur_wsect; unfold fupd; by rewrite decide_True).
  assert (lay (cur s') (freeblock s) fl) as Hly'.
  { eapply lay_ext, Hly; [intros b Hb; apply Ho; lia|]. intros b Hb. destruct (decide (b = 28)) as [->|]; [|rewrite Ho by done; by apply (ly_len _ _ _ Hly)].
    rewrite Hbm. apply length_bitmap. }
  assert (∀ inum, 0 ≤ inum < ninodes → slot s' inum = slot s inum) as Hs'.
  { intros inum Hinum. destruct (slot_place inum Hinum) as (Hb & _). unfold slot. by rewrite Ho by lia. }
  pose proof (ly_count _ _ _ Hly) as Hct. rewrite <- ctotal_contents, Hc in Hct. pose proof (ctotal_nonneg (image hs)).
  assert (∀ b, 0 ≤ b < size → used ninodes (cur s') b = (b <? usedblocks s)) as Hused.
  { intros b Hb. unfold used, BBLOCK. rewrite Z.div_small, Z.mod_small by (unfold BPB, BSIZE; lia). change (0 + ninodes / IPB + 3) with 28.
    rewrite Hbm. apply bitmap_used; unfold BPB, BSIZE; lia. }
  assert (∀ i, (i < length (image hs))%nat → ∃ fi, fl !! i = Some fi ∧ image hs !! i = Some (fi_type fi, fi_data fi) ∧
    slot s' (Z.of_nat i + 1) = i_set_size (file_size i (Z.of_nat (length (fi_data fi)))) (ino fi)) as Hget.
  { intros i Hi. rewrite <- Hc in Hi. unfold contents in Hi. rewrite length_fmap in Hi. apply lookup_lt_is_Some_2 in Hi as [fi Hi].
    pose proof (lookup_lt_Some _ _ _ Hi). exists fi. split_and!; [done|rewrite <- Hc; unfold contents; by rewrite list_lookup_fmap, Hi|].
    rewrite Hs' by lia. by apply Hsl. }
  split; [rewrite Ho by done; by rewrite Hsb|change (usedblocks s') with (usedblocks s); change (data_start the_sb) with first_block; lia|done| | | | | |].
  - intros b Hb. apply (ly_fresh _ _ _ Hly'). simpl in Hb. lia.
  - intros i ty d Hi ip. destruct (Hget i ltac:(by eapply lookup_lt_Some)) as (fi & Hfi & Hi' & Hip). rewrite Hi in Hi'. injection Hi' as -> ->.
    subst ip. rewrite Hip. split_and!; [done..|]. cbn [i_addrs i_set_size ino]. split.
    + apply (ly_size _ _ _ Hly' i fi Hfi).
    + intros k Hk Hb. pose proof (ly_range _ _ _ Hly' i fi k Hfi Hk Hb). change (data_start the_sb) with first_block. split; [lia|].
      change (sb_ninodes the_sb) with ninodes. rewrite Hused by lia. lia.
    + intros k k' Hk Hk' Hb E. by destruct (ly_inj _ _ _ Hly' i i fi fi k k' Hfi Hfi Hk Hk' Hb E).
  - intros i ty d k Hi Hk Hkd. destruct (Hget i ltac:(by eapply lookup_lt_Some)) as (fi & Hfi & Hi' & ->). rewrite Hi in Hi'. injection Hi' as -> ->.
    cbn [i_addrs i_set_size ino]. apply (ly_map _ _ _ Hly' i fi k Hfi); [lia|]. unfold needed. rewrite (proj2 (Z.eqb_neq k MAXFILE)) by lia.
    change BSIZE with 512 in Hkd. lia.
  - intros i ty d o Hi Hoo. destruct (Hget i ltac:(by eapply lookup_lt_Some)) as (fi & Hfi & Hi' & ->). rewrite Hi in Hi'. injection Hi' as -> ->.
    by apply (ly_data _ _ _ Hly' i fi).
  - intros i i' k k' Hi Hi' Hk Hk' b Hb E. destruct (Hget i Hi) as (fi & Hfi & _ & Hip), (Hget i' Hi') as (fi' & Hfi' & _ & Hip').
    subst b. rewrite Hip in Hb, E. rewrite Hip' in E. by apply (ly_inj _ _ _ Hly' i i' fi fi' k k').
  - intros inum Hinum. rewrite <- Hc in Hinum. unfold contents in Hinum. rewrite length_fmap in Hinum. rewrite Hs' by lia. by apply Hem.
Qed.

(** The last two steps: the size of the root directory and the bitmap. *)
Lemma finish_wp hs s : holds s (image hs) → ctotal (image hs) ≤ nblocks →
  wp (_ ← fix_root_size ROOTINO; used ← gets usedblocks; balloc used) s (λ _, image_ok hs).
Proof.
  intros (fl & [Hd Hfr Hcn Hty Hsl Hem Hsb] & Hc) Hcap. assert (size = 1024 ∧ first_block = 29 ∧ ninodes = 200 ∧ MAXFILE = 140 ∧ nblocks = 965) as (HS & HB & HI & HM & HN) by done.
  destruct fl as [|f0 fl]; [done|]. set (fl0 := f0 :: fl) in *. assert (fl0 !! 0%nat = Some f0) as H0 by done.
  pose proof (ly_count _ _ _ (ds_lay _ _ Hd)) as Hct. rewrite <- ctotal_contents, Hc in Hct. pose proof (ctotal_nonneg (image hs)).
  destruct (ly_size _ _ _ (ds_lay _ _ Hd) 0 f0 H0) as [_ Hs0]. set (n := Z.of_nat (length (fi_data f0))) in *.
  pose proof (Z.div_pos n 512 ltac:(lia) ltac:(lia)). pose proof (Z.div_le_upper_bound n 512 140 ltac:(lia) ltac:(lia)).
  unfold fix_root_size. rewrite !wp_bind. apply rinode_wp; [apply Hd|done|]. change ROOTINO with (Z.of_nat 0 + 1). rewrite (Hsl 0%nat f0 H0). cbn [ino i_size]. fold n.
  change BSIZE with 512. rewrite (xint_id n) by lia. rewrite xint_id by lia. set (r := i_set_size _ _).
  assert (dinode_ok (ino f0)) as Hok0.
  { apply (ino_ok _ _ _ 0%nat f0 (ds_lay _ _ Hd)); [apply Hd|done|by eapply Forall_lookup_1 in Hty]. }
  eapply wp_mono; [apply winode_wp; [apply Hd|apply (ly_len _ _ _ (ds_lay _ _ Hd))|done| |done]|].
  { destruct Hok0. split; try done. simpl. lia. }
  intros [] s1 R. rewrite wp_bind, wp_gets. pose proof (dstate_replaced _ _ _ _ _ Hd R) as Hd1. destruct R as [Rp Ru Rf Ri Ro Rl Rs Rss].
  unfold balloc. pose proof (ds_used _ _ Hd1) as Hu1. replace (usedblocks s1 <? 512 * 8) with true by lia. cbn [negb]. unfold wsect. rewrite wp_modify.
  apply (bitmap_finishes hs s1 fl0); try done; [change log_start with 994; lia| | |].
  - intros i fi Hi. pose proof (lookup_lt_Some _ _ _ Hi). unfold file_size. case_decide as E.
    + subst i. rewrite Rs. rewrite H0 in Hi. by injection Hi as <-.
    + rewrite Rss by lia. rewrite (Hsl i fi Hi). by destruct fi.
  - intros inum Hinum. rewrite Rss by (simpl in Hinum; lia). by apply Hem.
  - rewrite Ro by lia. done.
Qed.

Lemma main_image hs : Forall host_ok hs → Z.of_nat (length hs) + 1 < ninodes → ctotal (image hs) ≤ nblocks →
  wp (main hs) start (λ _, image_ok hs).
Proof.
  intros Hok Hn Hcap. assert (size = 1024 ∧ first_block = 29 ∧ ninodes = 200 ∧ MAXFILE = 140 ∧ nblocks = 965) as (HS & HB & HI & HM & HN) by done.
  unfold main. rewrite wp_bind, wp_modify. match goal with |- context [negb ?b] => change (negb b) with false end. cbv iota.
  rewrite wp_bind. eapply wp_mono; [by apply zero_image_wp|]. intros [] s0 (Hz & Hf & Hu & Hi).
  rewrite wp_bind. unfold wsect at 1. rewrite wp_modify, wp_bind.
  eapply wp_mono; [apply (ialloc_holds _ [] T_DIR); [by apply empty_holds|done|done]|]. intros r s1 [-> H1].
  change (negb (Z.of_nat (length []) + 1 =? ROOTINO)) with false. cbv iota. change (Z.of_nat (length []) + 1) with (Z.of_nat 0 + 1).
  cbn [app] in H1. set (d1 := dirent (Z.of_nat 0 + 1) [46]). set (d2 := dirent (Z.of_nat 0 + 1) [46; 46]).
  assert (length d1 = 16%nat ∧ length d2 = 16%nat) as [L1 L2] by (split; apply length_dirent).
  assert (∀ d, Z.of_nat (length d) ≤ 32 → ctotal [(T_DIR, d)] ≤ 1) as Hb.
  { intros d Hd. simpl. pose proof (blocks_mono (Z.of_nat (length d)) 32 Hd) as H. change (blocks 32) with 1 in H. lia. }
  rewrite wp_bind. eapply wp_mono; [apply (iappend_holds _ _ 0 T_DIR [] d1 H1); [done|simpl; lia|]|].
  { specialize (Hb ([] ++ d1) ltac:(simpl; lia)). simpl in *. lia. }
  intros [] s2 H2. rewrite wp_bind. eapply wp_mono; [apply (iappend_holds _ _ 0 T_DIR d1 d2 H2); [done|rewrite length_app; lia|]|].
  { specialize (Hb (d1 ++ d2) ltac:(rewrite length_app; lia)). simpl in *. lia. }
  intros [] s3 H3. change (<[0%nat := ?x]> (<[0%nat := _]> [_])) with [x] in H3.
  assert ((T_DIR, (d1 ++ d2) ++ entries 2 hs) :: [] ++ (file_of <$> hs) = image hs) as E by (unfold image; by rewrite <- app_assoc).
  rewrite wp_bind. eapply wp_mono; [apply (add_files_holds hs s3 (d1 ++ d2) [] H3 Hok)|].
  - simpl. lia.
  - rewrite length_app. lia.
  - change (Z.of_nat (length []) + 2) with 2. rewrite E. lia.
  - intros [] s4 H4. change (Z.of_nat (length []) + 2) with 2 in H4. rewrite E in H4. by apply finish_wp.
Qed.

(** C10. The image maker: mkfs on files that fit ends without a failed
    assertion, and its image is one for the kernel.  The super block decodes to
    the sizes of the layout.  The bitmap marks exactly the blocks from the start
    of the disk up to the last data block, which lies before the log, and the log
    is empty.  Inode [i + 1] is that of file [i], with its type, one link, its
    size, a block map of distinct data blocks marked in use that no other file
    shares, and the file's bytes followed by zeros; the root directory has an
    entry for every file, in order, with the names cut to 14 bytes and without a
    leading underscore.  The other inodes are free. *)
Theorem mkfs_image hs : Forall host_ok hs → Z.of_nat (length hs) + 1 < ninodes → ctotal (image hs) ≤ nblocks →
  wp (main hs) start (λ _, image_ok hs).
Proof. apply main_image. Qed.

Lemma mkfs_image_witness : let hs := [mkHost (str "_cat") [[1; 2; 3]; [4]]; mkHost (str "README") [replicate 512 7; [8]]] in
  wp (main hs) start (λ _, image_ok hs) ∧ ctotal (image hs) = 4 ∧
  image hs !! 1%nat = Some (T_FILE, [1; 2; 3; 4]) ∧ length (image hs) = 3%nat.
Proof.
  intros hs. split; [|by vm_compute]. apply (mkfs_image hs).
  - repeat constructor; try (by apply (bool_decide_unpack _)); vm_compute; done.
  - by vm_compute.
  - by vm_compute.
Defined.
