(* ===== verification/MkfsBoot.v ===== *)
(** * From mkfs to the running kernel

    The kernel boots on an image of mkfs: the log is empty, and reading a file
    through the inode cache, the log and the block layer gives the bytes of the file
    that mkfs was given. *)

From stdpp Require Import base numbers option list gmap strings.
From Stdlib Require Import ZArith Lia ZifyBool.
From S2P Require Import Prelude Bytes CString Block Bio BioProps Log LogProofs Txn LogProps Fs FsBlocks FsFile FsRW FsProps FsCrash.
From S2P Require Import Mkfs MkfsProps MkfsImage.
Import Log Fs.
Local Open Scope Z_scope.

Lemma file_ok_ext sb home f g a : geometry sb home → (∀ m, 0 ≤ m < home → g m = f m) → file_ok sb home f a →
  file_ok sb home g a ∧ ∀ i, fblk g a i = fblk f a i.
Proof.
  intros Hg He Hf. pose proof (data_start_low _ _ Hg). pose proof (ge_home _ _ Hg). assert (∀ i, fblk g a i = fblk f a i) as Eb.
  { intros i. unfold fblk. destruct (i <? NDIRECT), (i =? MAXFILE); try done.
    destruct (Z.eqb_spec (a !!! 12%nat) 0) as [|E]; [done|]. destruct (file_ok_ind _ _ _ _ Hf E). rewrite He; [done|lia]. }
  split; [|done]. destruct Hf as [Hl Hd Hin]. constructor; [done|..].
  - intros i Hi. rewrite Eb. intros Hi0. destruct (Hd i Hi Hi0) as [Hr Hu]. split; [done|]. unfold used in *.
    destruct (BBLOCK_range sb home (fblk f a i) Hg ltac:(lia)). rewrite He; [done|lia].
  - intros i j Hi Hj. rewrite !Eb. by apply Hin.
Qed.

Lemma length_filter_from (u a n : Z) : 0 ≤ n → u ≤ a + n →
  Z.of_nat (length (filter (λ b, (b <? u) = false) (seqZ a n))) = a + n - Z.max a u.
Proof.
  intros Hn. revert a. pattern n. apply natlike_ind; [..|done]; clear n Hn.
  - intros a Hu. rewrite seqZ_nil by lia. simpl. lia.
  - intros n Hn IH a Hu. rewrite seqZ_cons, Z.pred_succ, filter_cons by lia. specialize (IH (Z.succ a) ltac:(lia)).
    case_decide; cbn [length]; lia.
Qed.

(** Every image of mkfs has the room for new blocks that the theorems about writes
    ask for: the data blocks that its files do not use. *)
Lemma image_alloc hs s n : image_ok hs s → Z.of_nat n + ctotal (image hs) ≤ Mkfs.nblocks →
  alloc_ok the_sb log_start (MkfsProps.cur s) n.
Proof.
  intros Hio Hn. pose proof (io_used _ _ Hio) as Hu. pose proof (ctotal_nonneg (image hs)).
  change (data_start the_sb) with 29 in Hu. change Mkfs.nblocks with 965 in Hn.
  constructor; change (data_start the_sb) with 29; change log_start with 994; change (sb_size the_sb) with 1024; [lia|..].
  - intros b Hb. change (sb_ninodes the_sb) with Mkfs.ninodes. rewrite (io_bitmap _ _ Hio) by (change Mkfs.size with 1024; lia). lia.
  - unfold free_list. change (sb_ninodes the_sb) with Mkfs.ninodes.
    rewrite (filter_ext_in _ (λ b, b <? Mkfs.usedblocks s)).
    { pose proof (length_filter_from (Mkfs.usedblocks s) 0 994 ltac:(lia) ltac:(lia)). lia. }
    intros b Hb%elem_of_seqZ. apply (io_bitmap _ _ Hio). change Mkfs.size with 1024. lia.
Qed.

(** The inode cache before its first use, as the kernel's memory is cleared. *)
Definition empty_icache : list inode := replicate (Z.to_nat NINODE) inhabitant.

Section boot.
Context {C : Type} `{!BlockIO C} `{HC : !BlockIOSpec C}.
Implicit Types (t : lstate C).

(** initlog, and a system call that reads from an inode. *)
Definition boot_read (dsw : devsw (lstate C)) (inum off n : Z) : kM (fstate (lstate C)) (Z * bytes) :=
  _ ← lift initlog;
  _ ← lift begin_op;
  ip ← iget ROOTDEV inum;
  _ ← ilock ip;
  readi dsw ip off n.

Section image.
Variables (hs : list Mkfs.hostfile) (s : Mkfs.mkfs) (t0 : lstate C).
Hypothesis Hio : image_ok hs s.
Hypothesis Hcap : ctotal (image hs) ≤ Mkfs.nblocks.
Hypothesis Hrb : rebooted Mkfs.size (Mkfs.img s) t0.

Lemma the_geometry : geometry the_sb log_start.
Proof. constructor; vm_compute; intuition congruence. Qed.

Lemma image_boot : boot_ok log_start Mkfs.nlog t0 ∧ hdr_n (Mkfs.img s !!! log_start) = 0.
Proof.
  assert (MkfsProps.cur s log_start = zero_block) as Hz.
  { apply (io_zero _ _ Hio). rewrite (io_used _ _ Hio). change (data_start the_sb) with 29. change Mkfs.nblocks with 965 in Hcap. change log_start with 994. change Mkfs.size with 1024. lia. }
  assert (hdr_n (Mkfs.img s !!! log_start) = 0) as Hh by (change (hdr_n (MkfsProps.cur s log_start) = 0); rewrite Hz; vm_compute; done).
  split; [|done]. destruct (hdr_ok_empty log_start Mkfs.nlog _ ltac:(vm_compute; congruence) Hh) as [H1 H2]. destruct Hrb.
  constructor; rewrite ?rb_disk, ?rb_size; try done; [vm_compute; intuition congruence..|].
  unfold sb_log. change (Mkfs.img s !!! 1) with (MkfsProps.cur s 1). rewrite (io_sb _ _ Hio). done.
Qed.

(** The kernel in its first operation. *)
Lemma booted : lg_outstanding t0 = 0 → lg_committing t0 = false → wp (_ ← initlog; begin_op) t0 (λ _ t, fs_ok the_sb t ∧ tx_held t = ∅ ∧
  room t ∅ 0 ∧ tx_home t = log_start ∧ ∀ m, 0 ≤ m < log_start → tx_cur t m = MkfsProps.cur s m).
Proof using Hio Hcap Hrb.
  intros Ho Hc. destruct image_boot as [Hb Hh]. rewrite wp_bind. wpa initlog_wp; [done|].
  intros _ t1 (I1 & N1 & S1 & Z1 & O1 & C1 & H1 & _ & Hm & _). rewrite (rb_disk _ _ _ Hrb), logical_empty in Hm by done.
  wpa begin_op_txn; [done|by rewrite C1|by rewrite O1, Ho|by rewrite N1, O1, Ho|]. intros _ t (-> & I2).
  set (t := set_outstanding _ t1). assert (tx_home t = log_start) as Hhm by exact S1.
  assert (∀ m, 0 ≤ m < log_start → tx_cur t m = MkfsProps.cur s m) as Hcur by (intros m Hr; exact (proj2 (Hm m Hr))).
  assert (tx_held t = ∅) as Hhe by exact H1. split_and!; [|done| |done|done].
  - constructor; [done|rewrite Hcur by (vm_compute; intuition congruence); apply (io_sb _ _ Hio)|rewrite Hhm; apply the_geometry|].
    intros m Hin. exfalso. by eapply held_empty.
  - unfold room. rewrite Hhe, map_size_empty. cbn [tx_logged tx_cap log_txn_spec]. change (lg_cache t) with (lg_cache t1).
    rewrite (left_id_L ∅ (∪)), log_inv_size, N1 by done. change (lg_size t) with (lg_size t1). rewrite Z1. done.
Qed.

(** The file [d] of the image, once its inode is in entry 0 of the cache. *)
Lemma image_reads dsw (st : fstate (lstate C)) i ty d off n : fs_ok the_sb (fs_txn st) → tx_held (fs_txn st) = ∅ → room (fs_txn st) ∅ 0 →
  tx_home (fs_txn st) = log_start → (∀ m, 0 ≤ m < log_start → FsFile.cur st m = MkfsProps.cur s m) →
  (0 < length (fs_inodes st))%nat → inode_at st 0 = i_set_id ROOTDEV (Z.of_nat i + 1) inhabitant →
  image hs !! i = Some (ty, d) → i ≠ 0%nat → ty ≠ 0 → ty ≠ T_DEV → Z.of_nat i + 1 < Mkfs.ninodes → Z.of_nat (length d) ≤ MAXFILE * BSIZE →
  0 ≤ off ≤ Z.of_nat (length d) → 0 ≤ n → off + n < 2 ^ 32 →
  wp (_ ← ilock 0; readi dsw 0 off n) st (λ r _, let k := Z.min n (Z.of_nat (length d) - off) in r = (k, slice d (Z.to_nat off) (Z.to_nat k))).
Proof using Hio.
  intros Hok Hh Hr Hhm Hcur Hl Hy Hi Hi0 Ht0 Htd Hin Hd Hoff Hn Hov. destruct (io_inode _ _ Hio i ty d Hi) as (Ety & _ & Esz & Hf).
  set (inum := Z.of_nat i + 1) in *. destruct (iblock_range the_sb log_start inum the_geometry) as [Hib _].
  { change (sb_ninodes the_sb) with Mkfs.ninodes. lia. }
  pose proof (data_start_low _ _ the_geometry). assert (FsFile.cur st (IBLOCK inum) = MkfsProps.cur s (Mkfs.i2b inum)) as Eb by exact (Hcur (IBLOCK inum) ltac:(lia)).
  rewrite wp_bind. wpa (ilock_load_wp the_sb st 0); rewrite ?Hy; cbn [i_dev i_inum i_ref i_flags i_set_id]; try done.
  { change (sb_ninodes the_sb) with Mkfs.ninodes. lia. }
  { rewrite Eb. unfold dinode_type. intros E. apply Ht0. rewrite <- Ety. exact E. }
  intros _ st1 (t1 & Ht1 & ->). rewrite Eb. set (st1 := set_txn t1 _).
  assert (∃ fl, inode_at st1 0 = mkInode ROOTDEV inum 1 fl (i_type (slot s inum)) (i_major (slot s inum)) (i_minor (slot s inum))
    (i_nlink (slot s inum)) (i_size (slot s inum)) (i_addrs (slot s inum))) as [fl Ex].
  { eexists. change (inode_at st1 0) with (inode_at (upd_inode 0 (λ y, i_set_flags (setf (setf (i_flags y) I_BUSY) I_VALID)
      (dinode_load (MkfsProps.cur s (Mkfs.i2b inum)) (dinode_off (i_inum y)) y)) st) 0). rewrite inode_at_upd by done. rewrite Hy. reflexivity. }
  assert (∀ m, FsFile.cur st1 m = FsFile.cur st m) as Hc1 by apply (tg_cur _ _ _ _ _ Ht1).
  assert (addrs st1 0 = i_addrs (slot s inum)) as Ea by (unfold addrs; by rewrite Ex).
  destruct (file_ok_ext the_sb log_start (MkfsProps.cur s) (FsFile.cur st1) (i_addrs (slot s inum)) the_geometry) as [Hf1 Ebk]; [|done|].
  { intros m Hm. rewrite Hc1. by apply Hcur. }
  assert (i_size (slot s inum) = Z.of_nat (length d)) as Es by (rewrite Esz; unfold file_size; by rewrite decide_False).
  wpa (readi_wp dsw the_sb st1 0 off n); rewrite ?Ex; cbn [i_type i_size]; rewrite ?Es; try lia.
  - constructor.
    + eapply fs_ok_step; [exact Hok|exact Ht1|done].
    + change (fs_txn st1) with t1. by rewrite (tg_held _ _ _ _ _ Ht1).
    + simpl. by rewrite length_insert.
    + by rewrite Ex.
    + rewrite Ea. change (fs_txn st1) with t1. by rewrite (tg_home _ _ _ _ _ Ht1), Hhm.
  - eapply room_step; [exact Ht1|done].
  - intros o Ho. rewrite Ea, Ebk. apply (io_map _ _ Hio i ty d); [done|apply block_index; lia|]. pose proof (Z.mul_div_le o BSIZE ltac:(done)). lia.
  - intros r st2 [_ ->]. rewrite (proj2 (Z.ltb_ge _ _)), (proj2 (Z.leb_gt _ _)) by lia. cbn [orb]. set (k := Z.min n _). f_equal.
    unfold fbytes, slice. rewrite Ea. apply list_eq. intros j. rewrite list_lookup_fmap. destruct (decide (j < Z.to_nat k)%nat) as [Hj|Hj].
    + rewrite lookup_seq_lt, lookup_take_lt, lookup_drop by done. cbn [fmap option_fmap option_map]. rewrite Nat.add_0_l.
      assert (fbyte (FsFile.cur st1) (i_addrs (slot s inum)) (off + Z.of_nat j) = fbyte (MkfsProps.cur s) (i_addrs (slot s inum)) (off + Z.of_nat j)) as ->.
      { apply (fbyte_ext log_start (MAXFILE * BSIZE)); [by apply (file_ok_in the_sb); [apply the_geometry|..]|lia|]. intros m Hm. rewrite Hc1. by apply Hcur. }
      rewrite (io_data _ _ Hio i ty d) by (done || lia). unfold byte_at. replace (Z.to_nat (off + Z.of_nat j)) with (Z.to_nat off + j)%nat by lia.
      destruct (lookup_lt_is_Some_2 d (Z.to_nat off + j)) as [z ->]; [lia|]. done.
    + rewrite lookup_seq_ge by lia. symmetry. apply lookup_ge_None. rewrite length_take. lia.
Qed.
End image.

(** C11. From mkfs to the running kernel: let mkfs write an image of the files [hs],
    and let a kernel boot on it, over any block layer that keeps its contract.  Then
    recovery finds an empty log, and a first system call that locks the inode of file
    [i] reads through the inode cache, the log and the block layer exactly the bytes
    of that file, as many as there are. *)
Theorem mkfs_boot_reads dsw hs i h off n wk : Forall host_ok hs → Z.of_nat (length hs) + 1 < Mkfs.ninodes → ctotal (image hs) ≤ Mkfs.nblocks →
  hs !! i = Some h → let d := concat (Mkfs.h_pieces h) in 0 ≤ off ≤ Z.of_nat (length d) → 0 ≤ n → off + n < 2 ^ 32 →
  wp (Mkfs.main hs) Mkfs.start (λ _ s, ∀ t0, rebooted Mkfs.size (Mkfs.img s) t0 → lg_outstanding t0 = 0 → lg_committing t0 = false →
    wp (boot_read dsw (Z.of_nat i + 2) off n) (mkFs empty_icache wk t0)
      (λ r _, let k := Z.min n (Z.of_nat (length d) - off) in r = (k, slice d (Z.to_nat off) (Z.to_nat k)))).
Proof.
  intros Hok Hn Hcap Hi d Hoff Hn0 Hov. eapply wp_mono; [by apply main_image|]. intros [] s Hio t0 Hrb Ho Hc.
  pose proof (booted hs s t0 Hio Hcap Hrb Ho Hc) as Hb. rewrite wp_bind in Hb. unfold boot_read, lift. rewrite wp_bind, wp_zoom.
  wpa Hb. intros _ t1 Hb1. rewrite wp_bind, wp_zoom. wpa Hb1. intros _ t2 (Hfs & Hh & Hr & Hhm & Hcur). rewrite wp_bind.
  set (st := set_txn t2 _). assert (iget ROOTDEV (Z.of_nat i + 2) st = Ok 0%nat (upd_inode 0 (i_set_id ROOTDEV (Z.of_nat i + 2)) st)) as Eg by done.
  unfold wp at 1. rewrite Eg. apply lookup_lt_Some in Hi as Hl. set (st1 := upd_inode 0 _ st).
  assert (inode_at st1 0 = i_set_id ROOTDEV (Z.of_nat (S i) + 1) inhabitant) as Ei.
  { unfold st1. rewrite inode_at_upd by (simpl; lia). change (inode_at st 0) with (inhabitant : inode). f_equal. lia. }
  assert (image hs !! S i = Some (T_FILE, d)) as Him by (change (image hs !! S i) with ((file_of <$> hs) !! i); by rewrite list_lookup_fmap, Hi).
  assert (Z.of_nat (length d) ≤ MAXFILE * BSIZE) as Hd by (rewrite Forall_forall in Hok; apply (Hok h); by eapply list_elem_of_lookup_2).
  apply (image_reads hs s Hio dsw st1 (S i) T_FILE d off n Hfs Hh Hr Hhm Hcur ltac:(simpl; lia) Ei Him ltac:(done) ltac:(done) ltac:(done) ltac:(lia) Hd Hoff Hn0 Hov).
Qed.
End boot.

#[local] Existing Instances Bio.bio_ops Bio.bio_spec.
#[local] Opaque fresh_bufs.

(** An image with one file, and the kernel that boots on it. *)
Definition one_file : list Mkfs.hostfile := [Mkfs.mkHost (str "README") [[120; 118]; [54; 10]]].
Definition one_disk : Bio.disk := Bio.mkDisk Mkfs.size (Mkfs.img (final (Mkfs.main one_file) Mkfs.start)) [].

Lemma one_disk_ok : Bio.disk_ok one_disk.
Proof.
  split; [vm_compute; intuition congruence|]. intros n Hn. assert (n ∈ seqZ 0 Mkfs.size) as Hin by (apply elem_of_seqZ; exact Hn). clear Hn. revert n Hin.
  apply Forall_forall, (bool_decide_eq_true_1 _). vm_compute. reflexivity.
Qed.

Lemma mkfs_boot_reads_witness : let t0 := boot_state one_disk in rebooted Mkfs.size (Mkfs.img (final (Mkfs.main one_file) Mkfs.start)) t0 ∧
  wp (boot_read (mkDevsw _ (λ _, None) (λ _, None)) 2 1 10) (mkFs empty_icache [] t0) (λ r _, r = (3, [118; 54; 10])).
Proof.
  intros t0. destruct (fresh_view _ [] one_disk_ok) as (Hh & Hd & _).
  assert (rebooted Mkfs.size (Mkfs.img (final (Mkfs.main one_file) Mkfs.start)) t0) as Hrb.
  { constructor; [exact (fresh_binv _ [] one_disk_ok)|exact Hh|exact Hd|reflexivity|reflexivity|apply length_replicate]. }
  split; [exact Hrb|]. clear Hh Hd. revert t0 Hrb.
  assert (Forall host_ok one_file) as H1 by (repeat constructor; try (by apply (bool_decide_unpack _)); vm_compute; done).
  assert (Z.of_nat (length one_file) + 1 < Mkfs.ninodes) as H2 by (vm_compute; done).
  assert (ctotal (image one_file) ≤ Mkfs.nblocks) as H3 by (vm_compute; congruence).
  set (h := Mkfs.mkHost (str "README") [[120; 118]; [54; 10]]).
  assert (0 ≤ 1 ≤ Z.of_nat (length (concat (Mkfs.h_pieces h)))) as H4 by (vm_compute; split; congruence).
  pose proof (mkfs_boot_reads (C := Bio.bcache) (mkDevsw _ (λ _, None) (λ _, None)) one_file 0 h 1 10 [] H1 H2 H3 eq_refl H4) as H.
  change (Z.of_nat 0 + 2) with 2 in H. assert (0 ≤ 10) as H5 by lia. assert (1 + 10 < 2 ^ 32) as H6 by lia.
  specialize (H H5 H6). apply wp_final in H. intros t0 Hrb.
  eapply wp_mono; [apply (H t0 Hrb); reflexivity|]. intros r s' ->. vm_compute. reflexivity.
Defined.
