(* ===== verification/User.v ===== *)
(** * User programs (init.c, ls.c, cat.c, wc.c, echo.c, kill.c, ln.c, mkdir.c, rm.c,
    zombie.c, forktest.c, and stat of ulib.c)

    The programs over the system calls of the class [Os]: a program takes the
    world to its end, which is a return, an exit, or an exec that succeeds.
    printf writes its text one byte at a time.  A [char *] argument is the list of
    its characters. *)

From stdpp Require Import base numbers option list strings.
From Stdlib Require Import ZArith Lia ZifyBool.
From S2P Require Import Prelude Bytes CString Console Printf Utils Block Fs.
Local Open Scope Z_scope.

(** ** System calls *)

(** struct stat without the device and the number of links. *)
Record ustat := mkUstat { us_type : Z; us_ino : Z; us_size : Z }.

Class Os (W : Type) := {
  os_open : list Z → Z → W → Z * W;
  os_close : Z → W → Z * W;
  os_read : Z → Z → W → Z * list Z * W;
  os_write : Z → list Z → W → Z * W;
  os_fstat : Z → W → Z * ustat * W;
  os_mknod : list Z → Z → Z → W → Z * W;
  os_dup : Z → W → Z * W;
  os_fork : W → Z * W;
  os_wait : W → Z * W;
  os_exec : list Z → list (list Z) → W → option Z * W;     (** [None] when it succeeds *)
  os_kill : Z → W → Z * W;
  os_link : list Z → list Z → W → Z * W;
  os_mkdir : list Z → W → Z * W;
  os_unlink : list Z → W → Z * W;
  os_sleep : Z → W → Z * W
}.

Module User.

Inductive ending (W A : Type) :=
| Returns (a : A) (w : W)
| Exited (w : W)
| Replaced (w : W)     (** by the program that exec loads *)
| NoFuel.
#[global] Arguments Returns {W A}.
#[global] Arguments Exited {W A}.
#[global] Arguments Replaced {W A}.
#[global] Arguments NoFuel {W A}.

Definition uM (W A : Type) : Type := W → ending W A.

#[export] Instance uM_ret W : MRet (uM W) := λ A a w, Returns a w.
#[export] Instance uM_bind W : MBind (uM W) := λ A B f m w,
  match m w with
  | Returns a w' => f a w'
  | Exited w' => Exited w'
  | Replaced w' => Replaced w'
  | NoFuel => NoFuel
  end.

Section programs.
Context {W : Type} `{!Os W}.

Definition call {A} (f : W → A * W) : uM W A := λ w, let '(a, w') := f w in Returns a w'.
Definition uexit {A} : uM W A := λ w, Exited w.
Definition spin {A} : uM W A := λ _, NoFuel.
Definition uexec (path : list Z) (argv : list (list Z)) : uM W Z := λ w,
  match os_exec path argv w with
  | (Some r, w') => Returns r w'
  | (None, w') => Replaced w'
  end.

(** printf of printf.c, which calls putc for each character. *)
Fixpoint puts (fd : Z) (s : list Z) : uM W unit :=
  match s with
  | [] => mret tt
  | c :: s' => _ ← call (os_write fd [c]); puts fd s'
  end.
Definition printf (fd : Z) (fmt : string) (ap : list Console.arg) : uM W unit :=
  puts fd (default [] (Printf.printf (str fmt) ap)).
Definition nl : list Z := [10].
Definition printfn (fd : Z) (fmt : string) (ap : list Console.arg) : uM W unit :=
  puts fd (default [] (Printf.printf (str fmt ++ nl) ap)).
Definition AS (s : list Z) : Console.arg := Console.AStr (Some s).

(** stat of ulib.c. *)
Definition stat (n : list Z) : uM W (Z * ustat) :=
  fd ← call (os_open n 0);
  if fd <? 0 then mret (-1, mkUstat 0 0 0)
  else r ← call (os_fstat fd); _ ← call (os_close fd); mret r.

(** *** ls.c *)


(** [for(p=path+strlen(path); p >= path && *p != '/'; p--); p++]: the offset of
    [p] in the end, when the search goes on below offset [n]. *)
Fixpoint after_slash (path : list Z) (n : nat) : nat :=
  match n with
  | O => 0
  | S i => if nth i path 0 =? 47 then S i else after_slash path i
  end.

Definition fmtname (path : list Z) : list Z :=
  let p := drop (after_slash path (S (Z.to_nat (CString.strlen path)))) path in
  if Fs.DIRSIZ <=? CString.strlen p then p
  else take (Z.to_nat (CString.strlen p)) p ++ repeat 32 (Z.to_nat (Fs.DIRSIZ - CString.strlen p)).

Definition ls_line (name : list Z) (st : ustat) : uM W unit :=
  printfn 1 "%s %d %d %d" [AS name; Console.AInt (us_type st); Console.AInt (us_ino st); Console.AInt (us_size st)].

(** The loop over the entries; [base] is what buf holds before [p]. *)
Fixpoint ls_loop (fuel : nat) (fd : Z) (base : list Z) : uM W unit :=
  match fuel with
  | O => spin
  | S fuel' =>
      '(n, de) ← call (os_read fd Fs.sizeof_dirent);
      if negb (n =? Fs.sizeof_dirent) then mret tt
      else if Fs.de_inum de =? 0 then ls_loop fuel' fd base
      else
        let buf := Console.cstr (base ++ Fs.de_name de ++ [0]) in
        '(r, st) ← stat buf;
        if r <? 0 then _ ← printfn 1 "ls: cannot stat %s" [AS buf]; ls_loop fuel' fd base
        else _ ← ls_line (fmtname buf) st; ls_loop fuel' fd base
  end.

(** The calls of read on one file return at most this often. *)
Definition MAXREADS : nat := Z.to_nat (Fs.MAXFILE * BSIZE + 1).

Definition ls (path : list Z) : uM W unit :=
  fd ← call (os_open path 0);
  if fd <? 0 then printfn 2 "ls: cannot open %s" [AS path]
  else
    '(r, st) ← call (os_fstat fd);
    if r <? 0 then _ ← printfn 2 "ls: cannot stat %s" [AS path]; _ ← call (os_close fd); mret tt
    else
      _ ← (if us_type st =? Fs.T_FILE then ls_line (fmtname path) st
           else if us_type st =? Fs.T_DIR then
             if 512 <? CString.strlen path + 1 + Fs.DIRSIZ + 1 then printfn 1 "ls: path too long" []
             else ls_loop MAXREADS fd (removelast (CString.strcpy path) ++ [47])
           else mret tt);
      _ ← call (os_close fd); mret tt.

(** The arguments from [i] on. *)
Fixpoint ls_args (args : list (list Z)) : uM W unit :=
  match args with
  | [] => uexit
  | a :: args => _ ← ls a; ls_args args
  end.

(** [argv] of main. *)
Definition ls_main (argv : list (list Z)) : uM W unit :=
  if Z.of_nat (length argv) <? 2 then _ ← ls (str "."); uexit else ls_args (drop 1 argv).

(** *** cat.c *)

Fixpoint cat_loop (fuel : nat) (fd : Z) : uM W Z :=
  match fuel with
  | O => spin
  | S fuel' =>
      '(n, buf) ← call (os_read fd 512);
      if 0 <? n then _ ← call (os_write 1 (take (Z.to_nat n) buf)); cat_loop fuel' fd else mret n
  end.

Definition cat (fd : Z) : uM W unit :=
  n ← cat_loop MAXREADS fd;
  if n <? 0 then _ ← printfn 1 "cat: read error" []; uexit else mret tt.

Fixpoint cat_args (args : list (list Z)) : uM W unit :=
  match args with
  | [] => uexit
  | a :: args =>
      fd ← call (os_open a 0);
      if fd <? 0 then _ ← printfn 1 "cat: cannot open %s" [AS a]; uexit
      else _ ← cat fd; _ ← call (os_close fd); cat_args args
  end.

Definition cat_main (argv : list (list Z)) : uM W unit :=
  if Z.of_nat (length argv) <=? 1 then _ ← cat 0; uexit else cat_args (drop 1 argv).

(** *** wc.c *)

Fixpoint wc_loop (fuel : nat) (fd : Z) (s : Utils.counts) : uM W (Z * Utils.counts) :=
  match fuel with
  | O => spin
  | S fuel' =>
      '(n, buf) ← call (os_read fd 512);
      if 0 <? n then wc_loop fuel' fd (foldl Utils.wc_char s (take (Z.to_nat n) buf)) else mret (n, s)
  end.

Definition wc (fd : Z) (name : list Z) : uM W unit :=
  '(n, s) ← wc_loop MAXREADS fd (Utils.mkCounts 0 0 0 false);
  if n <? 0 then _ ← printfn 1 "wc: read error" []; uexit
  else printfn 1 "%d %d %d %s" [Console.AInt (Utils.lines s); Console.AInt (Utils.words s); Console.AInt (Utils.chars s); AS name].

Fixpoint wc_args (args : list (list Z)) : uM W unit :=
  match args with
  | [] => uexit
  | a :: args =>
      fd ← call (os_open a 0);
      if fd <? 0 then _ ← printfn 1 "wc: cannot open %s" [AS a]; uexit
      else _ ← wc fd a; _ ← call (os_close fd); wc_args args
  end.

Definition wc_main (argv : list (list Z)) : uM W unit :=
  if Z.of_nat (length argv) <=? 1 then _ ← wc 0 []; uexit else wc_args (drop 1 argv).

(** *** echo.c, kill.c, ln.c, mkdir.c, rm.c, zombie.c *)

Fixpoint echo_args (args : list (list Z)) : uM W unit :=
  match args with
  | [] => uexit
  | a :: args => _ ← printf 1 "%s%s" [AS a; AS (if decide (args = []) then nl else str " ")]; echo_args args
  end.
Definition echo_main (argv : list (list Z)) : uM W unit := echo_args (drop 1 argv).

Fixpoint kill_args (args : list (list Z)) : uM W unit :=
  match args with
  | [] => uexit
  | a :: args => _ ← call (os_kill (CString.atoi a)); kill_args args
  end.
Definition kill_main (argv : list (list Z)) : uM W unit :=
  if Z.of_nat (length argv) <? 1 then _ ← printfn 2 "usage: kill pid..." []; uexit else kill_args (drop 1 argv).

Definition ln_main (argv : list (list Z)) : uM W unit :=
  match argv with
  | [_; old; new] =>
      r ← call (os_link old new);
      if r <? 0 then _ ← printfn 2 "link %s %s: failed" [AS old; AS new]; uexit else uexit
  | _ => _ ← printfn 2 "Usage: ln old new" []; uexit
  end.

Fixpoint mkdir_args (args : list (list Z)) : uM W unit :=
  match args with
  | [] => uexit
  | a :: args =>
      r ← call (os_mkdir a);
      if r <? 0 then _ ← printfn 2 "mkdir: %s failed to create" [AS a]; uexit else mkdir_args args
  end.
Definition mkdir_main (argv : list (list Z)) : uM W unit :=
  if Z.of_nat (length argv) <? 2 then _ ← printfn 2 "Usage: mkdir files..." []; uexit else mkdir_args (drop 1 argv).

Fixpoint rm_args (args : list (list Z)) : uM W unit :=
  match args with
  | [] => uexit
  | a :: args =>
      r ← call (os_unlink a);
      if r <? 0 then _ ← printfn 2 "rm: %s failed to delete" [AS a]; uexit else rm_args args
  end.
Definition rm_main (argv : list (list Z)) : uM W unit :=
  if Z.of_nat (length argv) <? 2 then _ ← printfn 2 "Usage: rm files..." []; uexit else rm_args (drop 1 argv).

Definition zombie_main : uM W unit :=
  pid ← call os_fork;
  if 0 <? pid then _ ← call (os_sleep 5); uexit else uexit.

(** *** init.c *)

(** [while((wpid=wait()) >= 0 && wpid != pid)]. *)
Fixpoint init_reap (fuel : nat) (pid : Z) : uM W unit :=
  match fuel with
  | O => spin
  | S fuel' =>
      wpid ← call os_wait;
      if (0 <=? wpid) && negb (wpid =? pid) then _ ← printfn 1 "zombie!" []; init_reap fuel' pid else mret tt
  end.

(** The first [rounds] rounds of the loop, with [fuel] waits in each at most. *)
Fixpoint init_loop (fuel rounds : nat) : uM W unit :=
  match rounds with
  | O => mret tt
  | S rounds' =>
      _ ← printfn 1 "init: starting sh" [];
      pid ← call os_fork;
      if pid <? 0 then _ ← printfn 1 "init: fork failed" []; uexit
      else if pid =? 0 then
        _ ← uexec (str "sh") [str "sh"];
        _ ← printfn 1 "init: exec sh failed" []; uexit
      else _ ← init_reap fuel pid; init_loop fuel rounds'
  end.

Definition RDWR : Z := 2.

Definition init_main (fuel rounds : nat) : uM W unit :=
  fd ← call (os_open (str "console") RDWR);
  _ ← (if fd <? 0 then _ ← call (os_mknod (str "console") 1 1); _ ← call (os_open (str "console") RDWR); mret tt else mret tt);
  _ ← call (os_dup 0);
  _ ← call (os_dup 0);
  init_loop fuel rounds.

(** *** forktest.c *)

Definition N : nat := 1000.

(** Its own printf, which writes the format. *)
Definition ft_printf (fd : Z) (s : string) : uM W unit :=
  _ ← call (os_write fd (str s ++ nl)); mret tt.

(** The first loop, from [n] with [left] rounds to go; its result is [n]. *)
Fixpoint ft_forks (left n : nat) : uM W nat :=
  match left with
  | O => mret n
  | S left' =>
      pid ← call os_fork;
      if pid <? 0 then mret n else if pid =? 0 then uexit else ft_forks left' (S n)
  end.

Fixpoint ft_waits (n : nat) : uM W unit :=
  match n with
  | O => mret tt
  | S n' => r ← call os_wait; if r <? 0 then _ ← ft_printf 1 "wait stopped early"; uexit else ft_waits n'
  end.

Definition forktest : uM W unit :=
  _ ← ft_printf 1 "fork test";
  n ← ft_forks N 0;
  if Nat.eqb n N then _ ← ft_printf 1 "fork claimed to work N times!"; uexit
  else
    _ ← ft_waits n;
    r ← call os_wait;
    if negb (r =? -1) then _ ← ft_printf 1 "wait got too many"; uexit
    else ft_printf 1 "fork test OK".

Definition forktest_main : uM W unit := _ ← forktest; uexit.
End programs.
End User.
