(* ===== verification/UserProps.v ===== *)
(** * What the user programs do

    ls, cat and wc over a file system that keeps [FileOs], init and forktest over
    processes as [ProcOs] describes them. *)

From stdpp Require Import base numbers option list gmap strings.
From Stdlib Require Import ZArith Lia ZifyBool.
From S2P Require Import Prelude Bytes CString Console Printf Utils Block Fs User.
Import User.
Local Open Scope Z_scope.

(** ** Programs that return or exit *)

Definition uwp {W A} (m : uM W A) (w : W) (Q : A → W → Prop) (E : W → Prop) : Prop :=
  match m w with Returns a w' => Q a w' | Exited w' => E w' | _ => False end.

Section uwp.
Context {W : Type} `{!Os W}.
Implicit Types w : W.

Lemma uwp_ret {A} (a : A) w (Q : A → W → Prop) E : Q a w → uwp (mret a) w Q E.
Proof. done. Qed.
Lemma uwp_exit {A} w (Q : A → W → Prop) (E : W → Prop) : E w → uwp uexit w Q E.
Proof. done. Qed.
Lemma uwp_bind {A B} (m : uM W A) (f : A → uM W B) w Q (E : W → Prop) : uwp m w (λ a w', uwp (f a) w' Q E) E → uwp (m ≫= f) w Q E.
Proof. unfold uwp, mbind, uM_bind. by destruct (m w). Qed.
Lemma uwp_call {A} (f : W → A * W) w (Q : A → W → Prop) E : Q (f w).1 (f w).2 → uwp (call f) w Q E.
Proof. unfold uwp, call. by destruct (f w). Qed.
Lemma uwp_mono {A} (m : uM W A) w (Q Q' : A → W → Prop) (E E' : W → Prop) :
  uwp m w Q E → (∀ a w', Q a w' → Q' a w') → (∀ w', E w' → E' w') → uwp m w Q' E'.
Proof. unfold uwp. destruct (m w); eauto. Qed.
End uwp.

(** ** Files *)

(** What a program sees: the files by path, the descriptors with their offsets,
    and what was written to descriptors 1 and 2. *)
Record view := mkView {
  v_files : list Z → option (ustat * list Z);
  v_fds : gmap Z (list Z * nat);
  v_out : list (Z * Z)
}.
Definition set_fds (v : view) (f : gmap Z (list Z * nat)) : view := mkView (v_files v) f (v_out v).
Definition emit (v : view) (fd : Z) (s : list Z) : view := mkView (v_files v) (v_fds v) (v_out v ++ (pair fd <$> s)).

(** Two more files can be opened beside those of the start; a file has its
    maximal size at most. *)
Class FileOs (W : Type) `{!Os W} (room : nat) := {
  see : W → view;
  os_open_spec p w : let '(fd, w') := os_open p 0 w in
    match v_files (see w) p with
    | None => fd < 0 ∧ see w' = see w
    | Some _ => (size (v_fds (see w)) < room)%nat →
        0 ≤ fd ∧ v_fds (see w) !! fd = None ∧ see w' = set_fds (see w) (<[fd := (p, 0%nat)]> (v_fds (see w)))
    end;
  os_close_spec fd w : let '(_, w') := os_close fd w in see w' = set_fds (see w) (delete fd (v_fds (see w)));
  os_fstat_spec fd w p o st data : v_fds (see w) !! fd = Some (p, o) → v_files (see w) p = Some (st, data) →
    let '(r, st', w') := os_fstat fd w in r = 0 ∧ st' = st ∧ see w' = see w;
  os_read_spec fd n w p o st data : v_fds (see w) !! fd = Some (p, o) → v_files (see w) p = Some (st, data) → 0 ≤ n →
    let '(r, buf, w') := os_read fd n w in
    buf = take (Z.to_nat n) (drop o data) ∧ r = Z.of_nat (length buf) ∧
    see w' = set_fds (see w) (<[fd := (p, (o + length buf)%nat)]> (v_fds (see w)));
  os_write_spec fd s w : fd = 1 ∨ fd = 2 → let '(_, w') := os_write fd s w in see w' = emit (see w) fd s;
  os_file_size w p st data : v_files (see w) p = Some (st, data) → Z.of_nat (length data) ≤ Fs.MAXFILE * BSIZE
}.

Lemma emit_nil v fd : emit v fd [] = v.
Proof. destruct v. unfold emit. simpl. by rewrite app_nil_r. Qed.
Lemma emit_app v fd s t : emit (emit v fd s) fd t = emit v fd (s ++ t).
Proof. unfold emit. simpl. by rewrite fmap_app, app_assoc. Qed.

Section files.
Context {W : Type} `{!Os W} (room : nat) `{HF : !FileOs W room}.
Implicit Types (w : W) (v : view).
Notation see := (see (FileOs := HF)).

Lemma puts_spec fd s w (Q : unit → W → Prop) E : fd = 1 ∨ fd = 2 →
  (∀ w', see w' = emit (see w) fd s → Q tt w') → uwp (puts fd s) w Q E.
Proof.
  intros Hfd. revert w. induction s as [|c s IH]; intros w HQ; cbn [puts].
  - apply uwp_ret, HQ. by rewrite emit_nil.
  - apply uwp_bind, uwp_call. pose proof (os_write_spec fd [c] w Hfd) as H. destruct (os_write fd [c] w) as [r w1].
    simpl. apply IH. intros w' E'. apply HQ. by rewrite E', H, emit_app.
Qed.

Lemma open_spec p w (Q : Z → W → Prop) E st data : v_files (see w) p = Some (st, data) → (size (v_fds (see w)) < room)%nat →
  (∀ fd w', 0 ≤ fd → v_fds (see w) !! fd = None → see w' = set_fds (see w) (<[fd := (p, 0%nat)]> (v_fds (see w))) → Q fd w') →
  uwp (call (os_open p 0)) w Q E.
Proof.
  intros Hp Hr HQ. apply uwp_call. pose proof (os_open_spec p w) as H. destruct (os_open p 0 w) as [fd w']. rewrite Hp in H.
  destruct (H Hr) as (H1 & H2 & H3). by apply HQ.
Qed.

Lemma open_fails p w (Q : Z → W → Prop) E : v_files (see w) p = None →
  (∀ fd w', fd < 0 → see w' = see w → Q fd w') → uwp (call (os_open p 0)) w Q E.
Proof.
  intros Hp HQ. apply uwp_call. pose proof (os_open_spec p w) as H. destruct (os_open p 0 w) as [fd w']. rewrite Hp in H. destruct H. by apply HQ.
Qed.

Lemma close_spec fd w (Q : Z → W → Prop) E :
  (∀ r w', see w' = set_fds (see w) (delete fd (v_fds (see w))) → Q r w') → uwp (call (os_close fd)) w Q E.
Proof. intros HQ. apply uwp_call. pose proof (os_close_spec fd w) as H. destruct (os_close fd w) as [r w']. by apply HQ. Qed.

Lemma fstat_spec fd w (Q : Z * ustat → W → Prop) E p o st data : v_fds (see w) !! fd = Some (p, o) → v_files (see w) p = Some (st, data) →
  (∀ w', see w' = see w → Q (0, st) w') → uwp (call (os_fstat fd)) w Q E.
Proof.
  intros H1 H2 HQ. apply uwp_call. pose proof (os_fstat_spec fd w p o st data H1 H2) as H. destruct (os_fstat fd w) as [[r st'] w'].
  destruct H as (-> & -> & H). by apply HQ.
Qed.

Lemma read_spec fd n w (Q : Z * list Z → W → Prop) E p o st data : v_fds (see w) !! fd = Some (p, o) → v_files (see w) p = Some (st, data) → 0 ≤ n →
  (∀ w', let buf := take (Z.to_nat n) (drop o data) in
    see w' = set_fds (see w) (<[fd := (p, (o + length buf)%nat)]> (v_fds (see w))) → Q (Z.of_nat (length buf), buf) w') → uwp (call (os_read fd n)) w Q E.
Proof.
  intros H1 H2 Hn HQ. apply uwp_call. pose proof (os_read_spec fd n w p o st data H1 H2 Hn) as H. destruct (os_read fd n w) as [[r buf] w'].
  destruct H as (-> & -> & H). by apply HQ.
Qed.

Lemma delete_open (m : gmap Z (list Z * nat)) fd x : m !! fd = None → delete fd (<[fd := x]> m) = m.
Proof. intros H. by rewrite delete_insert_id. Qed.

(** stat opens and closes its own descriptor. *)
Lemma stat_spec p w (Q : Z * ustat → W → Prop) E : (size (v_fds (see w)) < room)%nat →
  (∀ r w', see w' = see w → (match v_files (see w) p with None => r.1 < 0 | Some (st, _) => r = (0, st) end) → Q r w') →
  uwp (stat p) w Q E.
Proof.
  intros Hr HQ. unfold stat. apply uwp_bind. destruct (v_files (see w) p) as [[st data]|] eqn:Hp.
  - apply (open_spec p w _ _ st data Hp Hr). intros fd w1 Hfd Hn E1. rewrite (proj2 (Z.ltb_ge fd 0)) by lia. apply uwp_bind.
    apply (fstat_spec fd w1 _ _ p 0%nat st data); [rewrite E1; apply lookup_insert_eq|by rewrite E1|]. intros w2 E2.
    apply uwp_bind, close_spec. intros _ w3 E3. apply uwp_ret, HQ; [|done]. rewrite E3, E2, E1. unfold set_fds. simpl.
    rewrite delete_open by done. by destruct (see w).
  - apply open_fails; [done|]. intros fd w1 Hfd E1. rewrite (proj2 (Z.ltb_lt fd 0)) by lia. by apply uwp_ret, HQ.
Qed.
End files.

(** ** ls *)

Definition emits v (l : list (Z * Z)) : view := mkView (v_files v) (v_fds v) (v_out v ++ l).

(** The part of a path after its last slash, and a name in a column. *)
Fixpoint basename (s : list Z) : list Z :=
  match s with [] => [] | _ :: s' => if decide (47 ∈ s) then basename s' else s end.
Definition column (name : list Z) : list Z := name ++ repeat 32 (14 - length name).

Definition dec (z : Z) : list Z := Printf.printint z 10 true.
Definition file_line (name : list Z) (st : ustat) : list Z :=
  column name ++ [32] ++ dec (us_type st) ++ [32] ++ dec (us_ino st) ++ [32] ++ dec (us_size st) ++ [10].

(** The directory entries in the content of a directory. *)
Fixpoint entries (n : nat) (d : list Z) : list (list Z) :=
  match n with O => [] | S n' => take 16 d :: entries n' (drop 16 d) end.
Definition dirents (d : list Z) : list (list Z) := entries (length d / 16) d.
Definition entry_name (de : list Z) : list Z := Console.cstr (Fs.de_name de).

(** What ls shows of an entry of the directory [path], and of a path. *)
Definition show_entry (files : list Z → option (ustat * list Z)) (path de : list Z) : list (Z * Z) :=
  if Fs.de_inum de =? 0 then []
  else let file := path ++ [47] ++ entry_name de in
    match files file with
    | None => pair 1 <$> str "ls: cannot stat " ++ file ++ [10]
    | Some (st, _) => pair 1 <$> file_line (entry_name de) st
    end.

Definition listing (files : list Z → option (ustat * list Z)) (path : list Z) : list (Z * Z) :=
  match files path with
  | None => pair 2 <$> str "ls: cannot open " ++ path ++ [10]
  | Some (st, data) =>
      if us_type st =? Fs.T_FILE then pair 1 <$> file_line (basename path) st
      else if us_type st =? Fs.T_DIR then
        if Z.of_nat (length path) <=? 496 then dirents data ≫= show_entry files path
        else pair 1 <$> str "ls: path too long" ++ [10]
      else []
  end.

(** Names have no slashes. *)
Definition names_ok (files : list Z → option (ustat * list Z)) : Prop :=
  ∀ p st data de, files p = Some (st, data) → us_type st = Fs.T_DIR → de ∈ dirents data → 47 ∉ entry_name de.

Lemma cstr_id s : 0 ∉ s → Console.cstr s = s.
Proof.
  induction s as [|c s IH]; [done|]. rewrite not_elem_of_cons. intros [Hc Hs]. simpl. rewrite (proj2 (Z.eqb_neq c 0)) by done. by rewrite IH.
Qed.
Lemma cstr_no_nul s : 0 ∉ Console.cstr s.
Proof.
  induction s as [|c s IH]; simpl; [apply not_elem_of_nil|]. destruct (Z.eqb_spec c 0); [apply not_elem_of_nil|]. by rewrite not_elem_of_cons.
Qed.
Lemma cstr_app s t : 0 ∉ s → Console.cstr (s ++ t) = s ++ Console.cstr t.
Proof.
  induction s as [|c s IH]; [done|]. rewrite not_elem_of_cons. intros [Hc Hs]. simpl. rewrite (proj2 (Z.eqb_neq c 0)) by done. by rewrite IH.
Qed.
Lemma cstr_nul s : Console.cstr (s ++ [0]) = Console.cstr s.
Proof. induction s as [|c s IH]; [done|]. simpl. by rewrite IH. Qed.
Lemma strlen_id s : 0 ∉ s → CString.strlen s = Z.of_nat (length s).
Proof.
  induction s as [|c s IH]; [done|]. rewrite not_elem_of_cons. intros [Hc Hs]. cbn [CString.strlen length].
  rewrite (proj2 (Z.eqb_neq c 0)), IH by done. lia.
Qed.
Lemma strcpy_id s : 0 ∉ s → CString.strcpy s = s ++ [0].
Proof.
  induction s as [|c s IH]; [done|]. rewrite not_elem_of_cons. intros [Hc Hs]. simpl. rewrite (proj2 (Z.eqb_neq c 0)) by done. by rewrite IH.
Qed.

Lemma nth_not_in (s : list Z) i : 47 ∉ s → nth i s 0 =? 47 = false.
Proof.
  intros H. apply Z.eqb_neq. intros E. apply H. destruct (decide (i < length s)%nat) as [Hi|Hi].
  - rewrite <- E. apply list_elem_of_In, nth_In. lia.
  - rewrite nth_overflow in E by lia. done.
Qed.

Lemma after_slash_none s n : 47 ∉ s → after_slash s n = 0%nat.
Proof. intros H. induction n as [|n IH]; simpl; [done|]. by rewrite nth_not_in. Qed.

Lemma after_slash_last pre name k : 47 ∉ name → after_slash (pre ++ 47 :: name) (S (length pre) + k) = S (length pre).
Proof.
  intros H. induction k as [|k IH].
  - rewrite Nat.add_0_r. cbn [after_slash]. rewrite app_nth2 by lia. by rewrite Nat.sub_diag.
  - rewrite Nat.add_succ_r. cbn [after_slash]. rewrite app_nth2 by lia.
    replace (S (length pre) + k - length pre)%nat with (S k) by lia. cbn [nth]. by rewrite nth_not_in.
Qed.

Lemma basename_last pre name : 47 ∉ name → basename (pre ++ 47 :: name) = name.
Proof.
  intros H. induction pre as [|c pre IH]; cbn [app basename].
  - rewrite decide_True by (apply elem_of_cons; by left). destruct name as [|d name]; [done|]. cbn [basename]. by rewrite decide_False.
  - rewrite decide_True; [done|]. right. apply elem_of_app. right. apply elem_of_cons. by left.
Qed.

Lemma basename_none s : 47 ∉ s → basename s = s.
Proof. intros H. destruct s; [done|]. cbn [basename]. by rewrite decide_False. Qed.

Lemma fmtname_pad name : 0 ∉ name → (if Fs.DIRSIZ <=? CString.strlen name then name
  else take (Z.to_nat (CString.strlen name)) name ++ repeat 32 (Z.to_nat (Fs.DIRSIZ - CString.strlen name))) = column name.
Proof.
  intros H. rewrite strlen_id by done. unfold column, Fs.DIRSIZ. rewrite Nat2Z.id, firstn_all. destruct (Z.leb_spec 14 (Z.of_nat (length name))).
  - replace (14 - length name)%nat with 0%nat by lia. by rewrite app_nil_r.
  - do 2 f_equal. lia.
Qed.

Lemma fmtname_spec s : 0 ∉ s → fmtname s = column (basename s).
Proof.
  intros H. unfold fmtname. rewrite (strlen_id s H), Nat2Z.id. destruct (decide (47 ∈ s)) as [Hs|Hs].
  - apply list_elem_of_split_r in Hs as (pre & name & -> & Hn). rewrite length_app. cbn [length].
    replace (S (length pre + S (length name))) with (S (length pre) + S (length name))%nat by lia. rewrite after_slash_last, basename_last by done.
    rewrite (skipn_app (S (length pre))), skipn_all2 by lia. replace (S (length pre) - length pre)%nat with 1%nat by lia. cbn [app drop].
    apply fmtname_pad. intros H0. apply H. rewrite elem_of_app. right. by right.
  - rewrite after_slash_none, basename_none by done. by apply fmtname_pad.
Qed.

Lemma column_no_nul name : 0 ∉ name → 0 ∉ column name.
Proof.
  intros H. unfold column. rewrite elem_of_app. intros [?|H0]; [done|]. apply list_elem_of_In, repeat_spec in H0. done.
Qed.

Section ls.
Context {W : Type} `{!Os W} (room : nat) `{HF : !FileOs W room}.
Implicit Types (w : W) (v : view).
Notation see := (see (FileOs := HF)).

Lemma printfn_spec fd fmt ap s w (Q : unit → W → Prop) E : fd = 1 ∨ fd = 2 → default [] (Printf.printf (str fmt ++ nl) ap) = s →
  (∀ w', see w' = emits (see w) (pair fd <$> s) → Q tt w') → uwp (printfn fd fmt ap) w Q E.
Proof. intros Hfd <- HQ. unfold printfn. apply (puts_spec room); done. Qed.

Lemma ls_line_spec name st w (Q : unit → W → Prop) E : 0 ∉ name →
  (∀ w', see w' = emits (see w) (pair 1 <$> name ++ [32] ++ dec (us_type st) ++ [32] ++ dec (us_ino st) ++ [32] ++ dec (us_size st) ++ [10]) → Q tt w') →
  uwp (ls_line name st) w Q E.
Proof. intros Hn HQ. unfold ls_line. eapply printfn_spec; [by left| |apply HQ]. rewrite <- (cstr_id name Hn) at 2. done. Qed.

Lemma cannot_spec fd fmt msg s w (Q : unit → W → Prop) E : fd = 1 ∨ fd = 2 → 0 ∉ s →
  Printf.printf (str fmt ++ nl) [AS s] = Some (str msg ++ Console.cstr s ++ [10]) →
  (∀ w', see w' = emits (see w) (pair fd <$> str msg ++ s ++ [10]) → Q tt w') → uwp (printfn fd fmt [AS s]) w Q E.
Proof. intros Hfd Hs Hp HQ. eapply printfn_spec; [done| |apply HQ]. rewrite Hp. simpl. by rewrite cstr_id. Qed.

(** One entry. *)
Lemma ls_entry path de (k : uM W unit) w Q E : 0 ∉ path → (size (v_fds (see w)) < room)%nat → Fs.de_inum de ≠ 0 → 47 ∉ entry_name de →
  (∀ w', see w' = emits (see w) (show_entry (v_files (see w)) path de) → uwp k w' Q E) →
  let buf := Console.cstr ((path ++ [47]) ++ Fs.de_name de ++ [0]) in
  uwp ('(r, st) ← stat buf; if r <? 0 then _ ← printfn 1 "ls: cannot stat %s" [AS buf]; k else _ ← ls_line (fmtname buf) st; k) w Q E.
Proof.
  intros Hp Hr Hi Hn HQ buf. assert (buf = path ++ [47] ++ entry_name de) as Eb.
  { unfold buf. rewrite cstr_app, cstr_nul, <- app_assoc; [done|]. rewrite elem_of_app, list_elem_of_singleton. by intros [?|?]. }
  assert (0 ∉ buf) as Hb by apply cstr_no_nul. assert (0 ∉ entry_name de) as H0 by apply cstr_no_nul.
  unfold show_entry in HQ. rewrite (proj2 (Z.eqb_neq _ _) Hi) in HQ. cbv zeta in HQ. rewrite <- Eb in HQ.
  apply uwp_bind, (stat_spec room); [done|]. intros [r st] w1 E1 Hst. destruct (v_files (see w) buf) as [[st' data]|].
  - injection Hst as -> ->. cbn [Z.ltb]. apply uwp_bind.
    rewrite (fmtname_spec buf Hb), Eb. cbn [app]. rewrite basename_last by done. apply ls_line_spec; [by apply column_no_nul|]. intros w2 E2. apply HQ. by rewrite E2, E1.
  - cbn [fst] in Hst. rewrite (proj2 (Z.ltb_lt r 0)) by done. apply uwp_bind.
    apply (cannot_spec 1 _ "ls: cannot stat "); [by left|done|done|]. intros w2 E2. apply HQ. by rewrite E2, E1.
Qed.

Lemma emits_emits v a b : emits (emits v a) b = emits v (a ++ b).
Proof. unfold emits. simpl. by rewrite app_assoc. Qed.

Lemma ls_loop_spec fd path st data files k : 0 ∉ path → files path = Some (st, data) →
  ∀ fuel o w (Q : unit → W → Prop) E, (k < fuel)%nat → k = (length (drop o data) / 16)%nat → v_files (see w) = files →
  v_fds (see w) !! fd = Some (path, o) → (size (v_fds (see w)) < room)%nat →
  Forall (λ de, 47 ∉ entry_name de) (entries k (drop o data)) →
  (∀ o' w', see w' = set_fds (emits (see w) (entries k (drop o data) ≫= show_entry files path)) (<[fd := (path, o')]> (v_fds (see w))) → Q tt w') →
  uwp (ls_loop fuel fd (path ++ [47])) w Q E.
Proof.
  intros Hp Hf. induction k as [|k IH]; intros [|fuel] o w Q E Hk Ek Hfs Hfd Hr Hn HQ; [lia| |lia|]; cbn [ls_loop];
    apply uwp_bind, (read_spec room fd _ w _ _ path o st data Hfd); [by rewrite Hfs|done| |by rewrite Hfs|done|]; intros w1 buf E1;
    change (Z.to_nat Fs.sizeof_dirent) with 16%nat in *; unfold Fs.sizeof_dirent.
  - assert (length (drop o data) < 16)%nat by (pose proof (Nat.div_mod_eq (length (drop o data)) 16); pose proof (Nat.mod_upper_bound (length (drop o data)) 16); lia).
    assert (length buf < 16)%nat by (unfold buf; rewrite length_take; lia). rewrite (proj2 (Z.eqb_neq _ 16)) by lia. cbn [negb].
    apply uwp_ret, (HQ (o + length buf)%nat). rewrite E1. unfold set_fds, emits. simpl. by rewrite app_nil_r.
  - assert (16 ≤ length (drop o data))%nat as Hl by (pose proof (Nat.div_mod_eq (length (drop o data)) 16); lia).
    assert (length buf = 16)%nat as Hb by (unfold buf; rewrite length_take; lia). rewrite Hb. change (Z.of_nat 16 =? 16) with true. cbn [negb].
    cbn [entries] in Hn, HQ. fold buf in Hn, HQ. apply Forall_cons in Hn as [Hn0 Hn]. rewrite drop_drop in Hn, HQ.
    assert (k = length (drop (o + 16) data) / 16)%nat as Ek'.
    { rewrite <- drop_drop, length_drop. replace (length (drop o data)) with (length (drop o data) - 16 + 1 * 16)%nat in Ek by lia. rewrite Nat.div_add in Ek; lia. }
    rewrite Hb in E1. assert (∀ w2 l, see w2 = emits (see w1) l → l = show_entry files path buf → uwp (ls_loop fuel fd (path ++ [47])) w2 Q E) as Hnext.
    { intros w2 l E2 ->. apply (IH fuel (o + 16)%nat); [lia|done| | | |done|].
      - by rewrite E2, E1.
      - rewrite E2, E1. apply lookup_insert_eq.
      - rewrite E2, E1. simpl. by rewrite map_size_insert_Some by (by eexists).
      - intros o' w3 E3. apply (HQ o' w3). rewrite E3, E2, E1. unfold set_fds, emits. simpl. by rewrite insert_insert_eq, app_assoc. }
    destruct (Z.eqb_spec (Fs.de_inum buf) 0) as [E0|E0].
    + apply (Hnext w1 []); [destruct (see w1); unfold emits; simpl; by rewrite app_nil_r|]. unfold show_entry. by rewrite (proj2 (Z.eqb_eq _ _) E0).
    + apply (ls_entry path buf); [done| |done|done|].
      * rewrite E1. simpl. by rewrite map_size_insert_Some by (by eexists).
      * intros w2 E2. apply (Hnext w2 _ E2). rewrite E1. simpl. by rewrite Hfs.
Qed.

Lemma emits_nil v : emits v [] = v.
Proof. destruct v. unfold emits. simpl. by rewrite app_nil_r. Qed.

Lemma reads_enough w p st data k : v_files (see w) p = Some (st, data) → (length data / S k < MAXREADS)%nat.
Proof.
  intros H. pose proof (os_file_size w p st data H). pose proof (Nat.Div0.div_le_upper_bound (length data) (S k) (length data)) as Hd.
  unfold MAXREADS. specialize (Hd ltac:(nia)). lia.
Qed.

(** close, after the descriptor was opened on [w0] and output was written. *)
Lemma close_back fd w0 w (Q : unit → W → Prop) E x l : v_fds (see w0) !! fd = None →
  see w = set_fds (emits (see w0) l) (<[fd := x]> (v_fds (see w0))) → (∀ w', see w' = emits (see w0) l → Q tt w') →
  uwp (_ ← call (os_close fd); mret tt) w Q E.
Proof.
  intros Hn E0 HQ. apply uwp_bind, (close_spec room). intros _ w' E1. apply uwp_ret, HQ. rewrite E1, E0. unfold set_fds, emits. simpl.
  by rewrite delete_open.
Qed.

Lemma ls_spec path w (Q : unit → W → Prop) E : 0 ∉ path → names_ok (v_files (see w)) → (size (v_fds (see w)) + 2 ≤ room)%nat →
  (∀ w', see w' = emits (see w) (listing (v_files (see w)) path) → Q tt w') → uwp (ls path) w Q E.
Proof.
  intros Hp Hok Hr HQ. unfold ls. apply uwp_bind. destruct (v_files (see w) path) as [[st data]|] eqn:Hf.
  2:{ apply (open_fails room); [done|]. intros fd w1 Hfd E1. rewrite (proj2 (Z.ltb_lt fd 0)) by done.
    apply (cannot_spec 2 _ "ls: cannot open "); [by right|done|done|]. intros w2 E2. apply HQ. unfold listing. by rewrite Hf, E2, E1. }
  apply (open_spec room path w _ _ st data Hf); [lia|]. intros fd w1 Hfd Hn E1. rewrite (proj2 (Z.ltb_ge fd 0)) by done.
  apply uwp_bind, (fstat_spec room fd w1 _ _ path 0%nat st data); [rewrite E1; apply lookup_insert_eq|by rewrite E1|]. intros w2 E2.
  change (0 <? 0) with false. cbv iota. apply uwp_bind.
  assert (∀ w3 l o, see w3 = set_fds (emits (see w) l) (<[fd := (path, o)]> (v_fds (see w))) → l = listing (v_files (see w)) path →
    uwp (_ ← call (os_close fd); mret tt) w3 Q E) as Hend.
  { intros w3 l o E3 ->. by apply (close_back fd w w3 Q E _ _ Hn E3). }
  unfold listing in Hend. rewrite Hf in Hend. destruct (us_type st =? Fs.T_FILE).
  { rewrite fmtname_spec by done. apply ls_line_spec.
    - apply column_no_nul. intros H0. apply Hp. clear -H0. induction path as [|c s IH]; [done|]. cbn [basename] in H0.
      destruct (decide _); [right; by apply IH|done].
    - intros w3 E3. refine (Hend w3 _ 0%nat _ eq_refl). by rewrite E3, E2, E1. }
  destruct (Z.eqb_spec (us_type st) Fs.T_DIR) as [Ed|Ed].
  2:{ apply uwp_ret, (Hend w2 [] 0%nat); [|done]. by rewrite E2, E1, emits_nil. }
  rewrite strlen_id by done. unfold Fs.DIRSIZ. destruct (Z.ltb_spec 512 (Z.of_nat (length path) + 1 + 14 + 1)).
  - rewrite (proj2 (Z.leb_gt _ 496)) in Hend by lia. eapply printfn_spec; [by left|reflexivity|]. intros w3 E3.
    refine (Hend w3 _ 0%nat _ eq_refl). by rewrite E3, E2, E1.
  - rewrite (proj2 (Z.leb_le _ 496)) in Hend by lia. rewrite strcpy_id, removelast_last by done.
    eapply (ls_loop_spec fd path st data (v_files (see w)) _ Hp Hf MAXREADS 0%nat w2); [|reflexivity|by rewrite E2, E1| | | |].
    + cbn [drop]. by apply (reads_enough w path st).
    + rewrite E2, E1. apply lookup_insert_eq.
    + rewrite E2, E1. simpl. rewrite map_size_insert_None by done. lia.
    + rewrite drop_0. apply Forall_forall. intros de. by apply (Hok path st data).
    + intros o w3 E3. refine (Hend w3 _ o _ eq_refl). rewrite E3, E2, E1. unfold set_fds, emits. simpl. by rewrite insert_insert_eq, drop_0.
Qed.

Lemma ls_args_spec args w : Forall (λ a, 0 ∉ a) args → names_ok (v_files (see w)) → (size (v_fds (see w)) + 2 ≤ room)%nat →
  uwp (ls_args args) w (λ _ _, False) (λ w', see w' = emits (see w) (args ≫= listing (v_files (see w)))).
Proof.
  revert w. induction args as [|a args IH]; intros w Ha Hok Hr; cbn [ls_args].
  - apply uwp_exit. by rewrite emits_nil.
  - apply Forall_cons in Ha as [H0 Ha]. apply uwp_bind, ls_spec; [done..|]. intros w1 E1. eapply uwp_mono; [apply (IH w1); rewrite ?E1; done|done|].
    intros w' E'. rewrite E', E1, emits_emits. done.
Qed.

(** C38. The listing of ls: for each argument, or the current directory without
    arguments, it shows the line of a file, or a line for each entry in use of a
    directory in their order, with the name after the last slash padded to 14
    columns and with the type, number and size that stat reports; it says which paths
    it cannot open and which entries it cannot stat, and leaves no descriptor open. *)
Theorem ls_lists argv w : Forall (λ a, 0 ∉ a) argv → names_ok (v_files (see w)) → (size (v_fds (see w)) + 2 ≤ room)%nat →
  let args := match drop 1 argv with [] => [str "."] | args => args end in
  ∃ w', ls_main argv w = Exited w' ∧ see w' = emits (see w) (args ≫= listing (v_files (see w))).
Proof.
  intros Ha Hok Hr args. assert (uwp (ls_main argv) w (λ _ _, False) (λ w', see w' = emits (see w) (args ≫= listing (v_files (see w))))) as H.
  { unfold ls_main, args. destruct argv as [|a0 [|a argv]]; cbn [length drop]; [..|rewrite (proj2 (Z.ltb_ge _ 2)) by lia; apply ls_args_spec; try done; by apply Forall_inv_tail in Ha];
      apply uwp_bind, ls_spec; [by apply (bool_decide_unpack _)|done|done| |by apply (bool_decide_unpack _)|done|done|];
      intros w' E'; apply uwp_exit; rewrite E'; cbn [mbind list_bind]; by rewrite app_nil_r. }
  unfold uwp in H. destruct (ls_main argv w) as [| w'| |]; [done| |done|done]. by exists w'.
Qed.
End ls.

(** ** cat and wc *)

Fixpoint cat_output (files : list Z → option (ustat * list Z)) (args : list (list Z)) : list Z :=
  match args with
  | [] => []
  | a :: args => match files a with None => str "cat: cannot open " ++ a ++ [10] | Some (_, data) => data ++ cat_output files args end
  end.

(** The line that wc prints. *)
Definition wc_line (data name : list Z) : list Z :=
  dec (Utils.newlines data) ++ [32] ++ dec (Z.of_nat (length (Utils.split_words [] data))) ++ [32] ++ dec (Z.of_nat (length data)) ++ [32] ++ name ++ [10].

Fixpoint wc_output (files : list Z → option (ustat * list Z)) (args : list (list Z)) : list Z :=
  match args with
  | [] => []
  | a :: args => match files a with None => str "wc: cannot open " ++ a ++ [10] | Some (_, data) => wc_line data a ++ wc_output files args end
  end.

Section filters.
Context {W : Type} `{!Os W} (room : nat) `{HF : !FileOs W room}.
Implicit Types (w : W) (v : view).
Notation see := (see (FileOs := HF)).

(** A read of 512 bytes gets on, or is at the end. *)
Lemma read_512 fd w p o st data (Q : Z * list Z → W → Prop) E : v_fds (see w) !! fd = Some (p, o) → v_files (see w) p = Some (st, data) →
  (∀ w', (length data ≤ o)%nat → see w' = see w → Q (0, []) w') →
  (∀ w' buf, buf ≠ [] → drop o data = buf ++ drop (o + length buf) data → (o + length buf ≤ length data)%nat →
    see w' = set_fds (see w) (<[fd := (p, (o + length buf)%nat)]> (v_fds (see w))) → Q (Z.of_nat (length buf), buf) w') →
  uwp (call (os_read fd 512)) w Q E.
Proof.
  intros Hfd Hf H0 H1. apply (read_spec room fd 512 w _ _ p o st data Hfd Hf); [lia|]. intros w' buf E'.
  destruct (decide (length data ≤ o)%nat) as [Hl|Hl].
  - assert (buf = []) as Eb by (unfold buf; by rewrite drop_ge, firstn_nil by lia). rewrite Eb in *. apply (H0 w' Hl). rewrite E'. simpl.
    rewrite Nat.add_0_r, insert_id by done. by destruct (see w).
  - assert (length buf = Nat.min 512 (length data - o)) as Hb by (unfold buf; rewrite length_take, length_drop; lia).
    apply (H1 w' buf); [intros E0; apply (f_equal length) in E0; rewrite Hb in E0; cbn [length] in E0; lia| |lia|done].
    rewrite <- drop_drop, <- (take_drop (length buf) (drop o data)) at 1. f_equal. rewrite Hb. unfold buf.
    destruct (decide (512 ≤ length data - o)%nat) as [?|?]; [by rewrite Nat.min_l by lia|].
    rewrite !take_ge; [done|rewrite length_drop; lia..].
Qed.

Lemma cat_loop_spec fuel : ∀ fd p o st data w (Q : Z → W → Prop) E, v_fds (see w) !! fd = Some (p, o) → v_files (see w) p = Some (st, data) →
  (length data - o < fuel)%nat →
  (∀ o' w', see w' = set_fds (emits (see w) (pair 1 <$> drop o data)) (<[fd := (p, o')]> (v_fds (see w))) → Q 0 w') → uwp (cat_loop fuel fd) w Q E.
Proof.
  induction fuel as [|fuel IH]; intros fd p o st data w Q E Hfd Hf Hl HQ; [lia|]. cbn [cat_loop]. apply uwp_bind.
  apply (read_512 fd w p o st data); [done|done| |].
  - intros w1 Ho E1. change (0 <? 0) with false. cbv iota. apply uwp_ret, (HQ o). rewrite E1, drop_ge by done. cbn [fmap list_fmap].
    rewrite emits_nil, insert_id by done. by destruct (see w).
  - intros w1 buf Hb Ed Ho E1. assert (length buf ≠ 0)%nat by (by destruct buf). rewrite (proj2 (Z.ltb_lt 0 _)) by lia. rewrite Nat2Z.id, firstn_all.
    apply uwp_bind, uwp_call. pose proof (os_write_spec 1 buf w1 ltac:(by left)) as Hw. destruct (os_write 1 buf w1) as [r w2]. cbn [fst snd].
    apply (IH fd p (o + length buf)%nat st data); [rewrite Hw, E1; apply lookup_insert_eq|by rewrite Hw, E1|lia|]. intros o' w3 E3. apply (HQ o').
    rewrite E3, Hw, E1, Ed. unfold set_fds, emits, emit. simpl. by rewrite insert_insert_eq, fmap_app, app_assoc.
Qed.

Lemma wc_loop_spec fuel : ∀ fd p o st data s w (Q : Z * Utils.counts → W → Prop) E, v_fds (see w) !! fd = Some (p, o) → v_files (see w) p = Some (st, data) →
  (length data - o < fuel)%nat →
  (∀ o' w', see w' = set_fds (see w) (<[fd := (p, o')]> (v_fds (see w))) → Q (0, foldl Utils.wc_char s (drop o data)) w') → uwp (wc_loop fuel fd s) w Q E.
Proof.
  induction fuel as [|fuel IH]; intros fd p o st data s w Q E Hfd Hf Hl HQ; [lia|]. cbn [wc_loop]. apply uwp_bind.
  apply (read_512 fd w p o st data); [done|done| |].
  - intros w1 Ho E1. change (0 <? 0) with false. cbv iota. rewrite drop_ge in HQ by done. apply uwp_ret, (HQ o).
    rewrite E1, insert_id by done. by destruct (see w).
  - intros w1 buf Hb Ed Ho E1. assert (length buf ≠ 0)%nat by (by destruct buf). rewrite (proj2 (Z.ltb_lt 0 _)) by lia. rewrite Nat2Z.id, firstn_all.
    apply (IH fd p (o + length buf)%nat st data); [rewrite E1; apply lookup_insert_eq|by rewrite E1|lia|]. intros o' w3 E3.
    rewrite Ed, foldl_app in HQ. apply (HQ o'). rewrite E3, E1. unfold set_fds. simpl. by rewrite insert_insert_eq.
Qed.

Lemma reads_whole w p st data : v_files (see w) p = Some (st, data) → (length data - 0 < MAXREADS)%nat.
Proof. intros H. pose proof (reads_enough room w p st data 0 H) as H'. rewrite Nat.div_1_r in H'. lia. Qed.

Lemma wc_line_spec data name w (Q : unit → W → Prop) E (s := foldl Utils.wc_char (Utils.mkCounts 0 0 0 false) data) : 0 ∉ name →
  Z.of_nat (length data) ≤ Fs.MAXFILE * BSIZE → (∀ w', see w' = emits (see w) (pair 1 <$> wc_line data name) → Q tt w') →
  uwp (printfn 1 "%d %d %d %s" [Console.AInt (Utils.lines s); Console.AInt (Utils.words s); Console.AInt (Utils.chars s); AS name]) w Q E.
Proof.
  intros Hn Hl HQ. change (Fs.MAXFILE * BSIZE) with 71680 in Hl. destruct (Utils.wc_chars data (Utils.mkCounts 0 0 0 false) []) as (H1 & H2 & H3); [done|simpl; lia..|].
  fold s in H1, H2, H3. eapply (printfn_spec room); [by left|reflexivity|]. intros w' E'. apply HQ. rewrite E'. do 2 f_equal. unfold wc_line.
  rewrite H1, H2, H3. cbn [Utils.lines Utils.words Utils.chars Utils.inword]. rewrite !Z.add_0_l, Z.sub_0_r. rewrite <- (cstr_id name Hn) at 2. done.
Qed.

Lemma cat_args_spec args w : Forall (λ a, 0 ∉ a) args → (size (v_fds (see w)) < room)%nat →
  uwp (cat_args args) w (λ _ _, False) (λ w', see w' = emits (see w) (pair 1 <$> cat_output (v_files (see w)) args)).
Proof.
  revert w. induction args as [|a args IH]; intros w Ha Hr; cbn [cat_args cat_output]; [apply uwp_exit; by rewrite emits_nil|].
  apply Forall_cons in Ha as [H0 Ha]. apply uwp_bind. destruct (v_files (see w) a) as [[st data]|] eqn:Hf.
  - apply (open_spec room a w _ _ st data Hf Hr). intros fd w1 Hfd Hn E1. rewrite (proj2 (Z.ltb_ge fd 0)) by done. unfold cat. apply uwp_bind, uwp_bind.
    apply (cat_loop_spec MAXREADS fd a 0%nat st data); [rewrite E1; apply lookup_insert_eq|by rewrite E1|by apply (reads_whole w a st)|].
    intros o w2 E2. change (0 <? 0) with false. cbv iota. apply uwp_ret, uwp_bind, (close_spec room). intros _ w3 E3.
    assert (see w3 = emits (see w) (pair 1 <$> data)) as Ew.
    { rewrite E3, E2, E1, drop_0. unfold set_fds, emits. simpl. by rewrite insert_insert_eq, delete_open. }
    eapply uwp_mono; [apply (IH w3); [done|by rewrite Ew]|done|]. intros w' E'. by rewrite E', Ew, emits_emits, fmap_app.
  - apply (open_fails room); [done|]. intros fd w1 Hfd E1. rewrite (proj2 (Z.ltb_lt fd 0)) by done.
    apply uwp_bind, (cannot_spec room 1 _ "cat: cannot open "); [by left|done|done|]. intros w2 E2. apply uwp_exit. by rewrite E2, E1.
Qed.

Lemma wc_args_spec args w : Forall (λ a, 0 ∉ a) args → (size (v_fds (see w)) < room)%nat →
  uwp (wc_args args) w (λ _ _, False) (λ w', see w' = emits (see w) (pair 1 <$> wc_output (v_files (see w)) args)).
Proof.
  revert w. induction args as [|a args IH]; intros w Ha Hr; cbn [wc_args wc_output]; [apply uwp_exit; by rewrite emits_nil|].
  apply Forall_cons in Ha as [H0 Ha]. apply uwp_bind. destruct (v_files (see w) a) as [[st data]|] eqn:Hf.
  - apply (open_spec room a w _ _ st data Hf Hr). intros fd w1 Hfd Hn E1. rewrite (proj2 (Z.ltb_ge fd 0)) by done. unfold wc. apply uwp_bind, uwp_bind.
    apply (wc_loop_spec MAXREADS fd a 0%nat st data); [rewrite E1; apply lookup_insert_eq|by rewrite E1|by apply (reads_whole w a st)|].
    intros o w2 E2. change (0 <? 0) with false. cbv iota. rewrite drop_0. apply wc_line_spec; [done|by apply (os_file_size w a st)|].
    intros w2' E2'. apply uwp_bind, (close_spec room). intros _ w3 E3. assert (see w3 = emits (see w) (pair 1 <$> wc_line data a)) as Ew.
    { rewrite E3, E2', E2, E1. unfold set_fds, emits. simpl. by rewrite insert_insert_eq, delete_open. }
    eapply uwp_mono; [apply (IH w3); [done|by rewrite Ew]|done|]. intros w' E'. by rewrite E', Ew, emits_emits, fmap_app.
  - apply (open_fails room); [done|]. intros fd w1 Hfd E1. rewrite (proj2 (Z.ltb_lt fd 0)) by done.
    apply uwp_bind, (cannot_spec room 1 _ "wc: cannot open "); [by left|done|done|]. intros w2 E2. apply uwp_exit. by rewrite E2, E1.
Qed.

(** cat writes the contents of its arguments one after the other, up to the
    first that it cannot open; wc prints the line of each. *)
Theorem filters_read_all prog args w : Forall (λ a, 0 ∉ a) args → args ≠ [] → (size (v_fds (see w)) < room)%nat →
  (∃ w', cat_main (prog :: args) w = Exited w' ∧ see w' = emits (see w) (pair 1 <$> cat_output (v_files (see w)) args)) ∧
  ∃ w', wc_main (prog :: args) w = Exited w' ∧ see w' = emits (see w) (pair 1 <$> wc_output (v_files (see w)) args).
Proof.
  intros Ha Hne Hr. unfold cat_main, wc_main. assert (length args ≠ 0)%nat by (by destruct args). cbn [length]. rewrite !skipn_cons, !drop_0.
  rewrite (proj2 (Z.leb_gt _ 1)) by lia. pose proof (cat_args_spec args w Ha Hr) as H1. pose proof (wc_args_spec args w Ha Hr) as H2.
  unfold uwp in H1, H2. destruct (cat_args args w), (wc_args args w); try done. split; eexists; split; done.
Qed.
End filters.

(** ** A file system in memory *)

(** Descriptors 3 and 4 are free for files. *)
Definition mem_fd (v : view) : Z := if decide (v_fds v !! 3 = None) then 3 else if decide (v_fds v !! 4 = None) then 4 else -1.

(** No file is longer. *)
Definition limit : nat := Z.to_nat (Fs.MAXFILE * BSIZE).
Lemma limit_spec : Z.of_nat limit = Fs.MAXFILE * BSIZE.
Proof. unfold limit. by rewrite Z2Nat.id by (vm_compute; done). Qed.
#[local] Opaque limit.

#[export] Instance mem_os : Os view := {
  os_open p _ v := if v_files v p then (mem_fd v, set_fds v (<[mem_fd v := (p, 0%nat)]> (v_fds v))) else (-1, v);
  os_close fd v := (0, set_fds v (delete fd (v_fds v)));
  os_read fd n v :=
    match '(p, o) ← v_fds v !! fd; '(_, d) ← v_files v p; Some (p, o, take (Z.to_nat n) (drop o (take limit d))) with
    | Some (p, o, buf) => (Z.of_nat (length buf), buf, set_fds v (<[fd := (p, (o + length buf)%nat)]> (v_fds v)))
    | None => (-1, [], v)
    end;
  os_write fd s v := (Z.of_nat (length s), emit v fd s);
  os_fstat fd v := match '(p, _) ← v_fds v !! fd; v_files v p with Some (st, _) => (0, st, v) | None => (-1, mkUstat 0 0 0, v) end;
  os_mknod _ _ _ v := (-1, v); os_dup _ v := (-1, v); os_fork v := (-1, v); os_wait v := (-1, v); os_exec _ _ v := (Some (-1), v);
  os_kill _ v := (-1, v); os_link _ _ v := (-1, v); os_mkdir _ v := (-1, v); os_unlink _ v := (-1, v); os_sleep _ v := (0, v)
}.

Definition clip (v : view) : view := mkView (λ p, prod_map id (take limit) <$> v_files v p) (v_fds v) (v_out v).

#[export] Instance mem_file_os : FileOs view 2.
Proof.
  refine {| see := clip |}.
  - intros p v. cbn. destruct (v_files v p) as [x|]; cbn; [|done]. intros Hs.
    assert (0 ≤ mem_fd v ∧ v_fds v !! mem_fd v = None) as [H1 H2]; [|done]. unfold mem_fd. destruct (decide _) as [E|E]; [done|]. destruct (decide _) as [E'|E']; [done|].
    apply not_eq_None_Some in E as [a Ha], E' as [b Hb]. exfalso. rewrite <- (insert_delete_id _ _ _ Ha), map_size_insert_None in Hs by apply lookup_delete_eq.
    rewrite <- (insert_delete_id (delete 3 (v_fds v)) 4 b), map_size_insert_None in Hs; [lia|apply lookup_delete_eq|by rewrite lookup_delete_ne].
  - done.
  - intros fd v p o st data. cbn. intros -> H. cbn. destruct (v_files v p) as [[st' d]|]; [|done]. simpl in *. by simplify_eq.
  - intros fd n v p o st data. cbn -[take]. intros -> H Hn. cbn -[take]. destruct (v_files v p) as [[st' d]|]; [|done]. cbn -[take] in *. by simplify_eq.
  - done.
  - intros v p st data H. cbn -[take] in H. destruct (v_files v p) as [[st' d]|]; [|done]. cbn -[take] in H. simplify_eq.
    rewrite length_take. rewrite <- limit_spec. lia.
Defined.

(** A root directory with one file and one free entry. *)
Definition a_dirent (inum : Z) (name : string) : list Z := [inum; 0] ++ str name ++ repeat 0 (14 - String.length name).
Definition small_files (p : list Z) : option (ustat * list Z) :=
  if decide (p = str "/") then Some (mkUstat 1 1 48, a_dirent 1 "." ++ a_dirent 0 "gone" ++ a_dirent 5 "README")
  else if decide (p = str "//.") then Some (mkUstat 1 1 48, [])
  else if decide (p = str "//README") then Some (mkUstat 2 5 1290, str "a b")
  else None.

Lemma ls_lists_witness : ∃ w', ls_main [str "ls"; str "/"] (mkView small_files ∅ []) = Exited w' ∧
  v_out w' = pair 1 <$> str ".              1 1 48" ++ [10] ++ str "README         2 5 1290" ++ [10].
Proof.
  destruct (ls_lists 2 [str "ls"; str "/"] (mkView small_files ∅ [])) as (w' & E & Hv).
  - repeat constructor; by apply (bool_decide_unpack _).
  - intros p st data de. cbn -[take]. unfold small_files. repeat (destruct (decide _); [|]); cbn -[take]; intros [= <- <-]; intros Ht Hde.
    + clear Ht. revert de Hde. apply Forall_forall. by apply (bool_decide_unpack _).
    + rewrite take_nil in Hde. by apply elem_of_nil in Hde.
    + discriminate Ht.
  - cbn. rewrite map_size_empty. lia.
  - exists w'. split; [exact E|]. change (v_out w') with (v_out (see w')). rewrite Hv. vm_compute. reflexivity.
Defined.

(** ** Processes *)

(** What was printed, the results that the following calls of fork, wait and exec
    will have, and the program that exec loaded. *)
Record pview := mkPview {
  p_out : list Z;
  p_forks : list Z;
  p_waits : list Z;
  p_loads : bool;
  p_image : option (list Z * list (list Z))
}.
Definition say (v : pview) (s : list Z) : pview := mkPview (p_out v ++ s) (p_forks v) (p_waits v) (p_loads v) (p_image v).

Class ProcOs (W : Type) `{!Os W} := {
  look : W → pview;
  look_write s w : let '(_, w') := os_write 1 s w in look w' = say (look w) s;
  look_open p m w : let '(_, w') := os_open p m w in look w' = look w;
  look_mknod p a b w : let '(_, w') := os_mknod p a b w in look w' = look w;
  look_dup fd w : let '(_, w') := os_dup fd w in look w' = look w;
  look_fork w r rs : p_forks (look w) = r :: rs → let '(r', w') := os_fork w in
    r' = r ∧ look w' = mkPview (p_out (look w)) rs (p_waits (look w)) (p_loads (look w)) (p_image (look w));
  look_wait w r rs : p_waits (look w) = r :: rs → let '(r', w') := os_wait w in
    r' = r ∧ look w' = mkPview (p_out (look w)) (p_forks (look w)) rs (p_loads (look w)) (p_image (look w));
  look_exec p argv w : let '(r, w') := os_exec p argv w in
    if p_loads (look w)
    then r = None ∧ look w' = mkPview (p_out (look w)) (p_forks (look w)) (p_waits (look w)) true (Some (p, argv))
    else (∃ z, r = Some z) ∧ look w' = look w
}.

Lemma say_nil v : say v [] = v.
Proof. destruct v. unfold say. simpl. by rewrite app_nil_r. Qed.
Lemma say_say v s t : say (say v s) t = say v (s ++ t).
Proof. unfold say. simpl. by rewrite app_assoc. Qed.

Definition starting : list Z := str "init: starting sh" ++ [10].
Definition zombie : list Z := str "zombie!" ++ [10].

(** A round of init: the process number of the shell, and the orphans that end
    before it. *)
Definition round_ok (r : Z * list Z) : Prop := 0 < r.1 ∧ Forall (λ z, 0 ≤ z ∧ z ≠ r.1) r.2.
Definition round_out (r : Z * list Z) : list Z := starting ++ concat (repeat zombie (length r.2)).
Definition round_waits (r : Z * list Z) : list Z := r.2 ++ [r.1].

Section processes.
Context {W : Type} `{!Os W} `{HP : !ProcOs W}.
Implicit Types (w : W).

Lemma puts_say s w : ∃ w', puts 1 s w = Returns tt w' ∧ look w' = say (look w) s.
Proof.
  revert w. induction s as [|c s IH]; intros w; cbn [puts].
  - exists w. by rewrite say_nil.
  - pose proof (look_write [c] w) as H. unfold mbind, uM_bind, call. destruct (os_write 1 [c] w) as [r w1].
    destruct (IH w1) as (w' & -> & E). exists w'. split; [done|]. by rewrite E, H, say_say.
Qed.

Lemma puts_bind {A} s (k : unit → uM W A) w : ∃ w', (puts 1 s ≫= k) w = k tt w' ∧ look w' = say (look w) s.
Proof. destruct (puts_say s w) as (w' & E & Hw). exists w'. split; [|done]. unfold mbind, uM_bind. by rewrite E. Qed.

Lemma init_reap_spec fuel pid zs : ∀ w rest, (length zs < fuel)%nat → Forall (λ z, 0 ≤ z ∧ z ≠ pid) zs → p_waits (look w) = zs ++ pid :: rest →
  ∃ w', init_reap fuel pid w = Returns tt w' ∧
    look w' = mkPview (p_out (look w) ++ concat (repeat zombie (length zs))) (p_forks (look w)) rest (p_loads (look w)) (p_image (look w)).
Proof.
  revert fuel. induction zs as [|z zs IH]; intros [|fuel] w rest Hl Hz Hw; cbn [length] in Hl; [lia| |lia|]; cbn [init_reap];
    pose proof (look_wait w _ _ Hw) as H; unfold mbind at 1, uM_bind at 1, call; destruct (os_wait w) as [r w1]; destruct H as [-> H].
  - rewrite Z.eqb_refl, andb_false_r. exists w1. split; [done|]. rewrite H. simpl. by rewrite app_nil_r.
  - apply Forall_cons in Hz as [[Hz0 Hne] Hz]. rewrite (proj2 (Z.leb_le 0 z)), (proj2 (Z.eqb_neq z pid)) by done. cbn [andb negb].
    destruct (puts_bind zombie (λ _, init_reap fuel pid) w1) as (w2 & E2 & H2). change (printfn 1 "zombie!" []) with (puts (W := W) 1 zombie). rewrite E2.
    destruct (IH fuel w2 rest) as (w' & E' & H'); [lia|done|by rewrite H2, H|]. exists w'. split; [done|]. rewrite H', H2, H. simpl. by rewrite <- app_assoc.
Qed.

(** The start of a round. *)
Lemma init_round fuel n w pid fs : p_forks (look w) = pid :: fs →
  ∃ w', look w' = mkPview (p_out (look w) ++ starting) fs (p_waits (look w)) (p_loads (look w)) (p_image (look w)) ∧
    init_loop fuel (S n) w =
      (if pid <? 0 then _ ← puts 1 (str "init: fork failed" ++ [10]); uexit
       else if pid =? 0 then _ ← uexec (str "sh") [str "sh"]; _ ← puts 1 (str "init: exec sh failed" ++ [10]); uexit
       else _ ← init_reap fuel pid; init_loop fuel n) w'.
Proof.
  intros Hf. destruct (puts_say starting w) as (w1 & E1 & H1). pose proof (look_fork w1 pid fs ltac:(by rewrite H1)) as H2.
  destruct (os_fork w1) as [r w2] eqn:E2. destruct H2 as [-> H2]. exists w2. split; [by rewrite H2, H1|].
  cbn [init_loop]. change (printfn 1 "init: starting sh" []) with (puts (W := W) 1 starting). unfold mbind at 1, uM_bind at 1. rewrite E1.
  unfold mbind at 1, uM_bind at 1, call. by rewrite E2.
Qed.

(** The loop after some rounds. *)
Lemma init_rounds fuel rounds : ∀ w more fs ws, Forall (λ r, round_ok r ∧ (length r.2 < fuel)%nat) rounds →
  p_forks (look w) = rounds.*1 ++ fs → p_waits (look w) = (rounds ≫= round_waits) ++ ws →
  ∃ w', init_loop fuel (length rounds + more) w = init_loop fuel more w' ∧
    look w' = mkPview (p_out (look w) ++ (rounds ≫= round_out)) fs ws (p_loads (look w)) (p_image (look w)).
Proof.
  induction rounds as [|[pid zs] rounds IH]; intros w more fs ws Hr Hf Hw.
  { exists w. split; [done|]. simpl in Hf, Hw |- *. subst fs ws. rewrite app_nil_r. by destruct (look w). }
  apply Forall_cons in Hr as [[[Hpid Hzs] Hfuel] Hr]. cbn [fst snd length Nat.add] in *.
  destruct (init_round fuel (length rounds + more) w pid (rounds.*1 ++ fs) Hf) as (w2 & H2 & ->).
  rewrite (proj2 (Z.ltb_ge pid 0)), (proj2 (Z.eqb_neq pid 0)) by lia.
  destruct (init_reap_spec fuel pid zs w2 ((rounds ≫= round_waits) ++ ws)) as (w3 & E3 & H3); [done|done| |].
  { rewrite H2. simpl. rewrite Hw. simpl. unfold round_waits. simpl. by rewrite <- !app_assoc. }
  unfold mbind at 1, uM_bind at 1. rewrite E3. destruct (IH w3 more fs ws Hr) as (w' & -> & H'); [by rewrite H3, H2|by rewrite H3|].
  exists w'. split; [done|]. rewrite H', H3, H2. cbn [p_out p_forks p_waits p_loads p_image mbind list_bind]. f_equal. unfold round_out at 2. by rewrite <- !app_assoc.
Qed.

Lemma init_main_loop fuel n w : ∃ w', init_main fuel n w = init_loop fuel n w' ∧ look w' = look w.
Proof.
  unfold init_main, mbind, uM_bind, call. pose proof (look_open (str "console") RDWR w) as H1. destruct (os_open (str "console") RDWR w) as [fd w1].
  set (m := if fd <? 0 then _ else _). assert (∃ w2, m w1 = Returns tt w2 ∧ look w2 = look w1) as (w2 & -> & H2).
  { unfold m. destruct (fd <? 0); [|by exists w1]. pose proof (look_mknod (str "console") 1 1 w1) as H2. destruct (os_mknod _ _ _ w1) as [a w2].
    pose proof (look_open (str "console") RDWR w2) as H3. destruct (os_open _ _ w2) as [b w3]. exists w3. split; [done|]. by rewrite H3. }
  pose proof (look_dup 0 w2) as H3. destruct (os_dup 0 w2) as [a w3]. pose proof (look_dup 0 w3) as H4. destruct (os_dup 0 w3) as [b w4].
  exists w4. split; [done|]. by rewrite H4, H3, H2, H1.
Qed.

(** C39. init keeps a shell running: it starts a shell, reports every orphan that
    it reaps, and when the shell itself ends it starts the next one, for any number
    of rounds.  The child becomes the program sh, or reports that it could not and
    exits, and init itself ends only when fork fails. *)
Theorem init_keeps_shell fuel rounds pid fs ws w : Forall (λ r, round_ok r ∧ (length r.2 < fuel)%nat) rounds →
  p_forks (look w) = rounds.*1 ++ pid :: fs → p_waits (look w) = (rounds ≫= round_waits) ++ ws →
  let out := p_out (look w) ++ (rounds ≫= round_out) ++ starting in
  (∃ w', init_main fuel (length rounds) w = Returns tt w' ∧ p_out (look w') = p_out (look w) ++ (rounds ≫= round_out)) ∧
  (pid = 0 → p_loads (look w) = true → ∃ w', init_main fuel (S (length rounds)) w = Replaced w' ∧
     p_image (look w') = Some (str "sh", [str "sh"]) ∧ p_out (look w') = out) ∧
  (pid = 0 → p_loads (look w) = false → ∃ w', init_main fuel (S (length rounds)) w = Exited w' ∧
     p_out (look w') = out ++ str "init: exec sh failed" ++ [10]) ∧
  (pid < 0 → ∃ w', init_main fuel (S (length rounds)) w = Exited w' ∧ p_out (look w') = out ++ str "init: fork failed" ++ [10]).
Proof.
  intros Hr Hf Hw out. split.
  { destruct (init_main_loop fuel (length rounds) w) as (w0 & -> & H0). destruct (init_rounds fuel rounds w0 0 (pid :: fs) ws) as (w1 & E & H1); [done|by rewrite H0..|].
    rewrite Nat.add_0_r in E. exists w1. rewrite E, H1, H0. done. }
  destruct (init_main_loop fuel (S (length rounds)) w) as (w0 & -> & H0).
  destruct (init_rounds fuel rounds w0 1 (pid :: fs) ws) as (w1 & E & H1); [done|by rewrite H0..|]. rewrite Nat.add_1_r in E. rewrite E.
  destruct (init_round fuel 0 w1 pid fs ltac:(by rewrite H1)) as (w3 & E3 & ->).
  rewrite H1, H0 in E3. cbn [p_out p_waits p_loads p_image] in E3. rewrite <- app_assoc in E3. fold out in E3.
  pose proof (look_exec (str "sh") [str "sh"] w3) as H4. rewrite E3 in H4. cbn [p_loads p_out] in H4. split_and!.
  - intros -> Hl. cbn [Z.ltb Z.eqb Z.compare]. unfold mbind at 1, uM_bind at 1, uexec. destruct (os_exec _ _ w3) as [r w4]. rewrite Hl in H4.
    destruct H4 as [-> H4]. exists w4. by rewrite H4.
  - intros -> Hl. cbn [Z.ltb Z.eqb Z.compare]. unfold mbind at 1, uM_bind at 1, uexec. destruct (os_exec _ _ w3) as [r w4]. rewrite Hl in H4.
    destruct H4 as [[z ->] H4]. destruct (puts_bind (str "init: exec sh failed" ++ [10]) (λ _, uexit (A := unit)) w4) as (w5 & -> & H5).
    exists w5. split; [done|]. by rewrite H5, H4.
  - intros Hl. rewrite (proj2 (Z.ltb_lt pid 0)) by done.
    destruct (puts_bind (str "init: fork failed" ++ [10]) (λ _, uexit (A := unit)) w3) as (w5 & -> & H5). exists w5. split; [done|]. by rewrite H5, E3.
Qed.
End processes.

(** A world that is what it shows; only the calls of this section do something. *)
#[export] Instance script_os : Os pview := {
  os_open _ _ v := (0, v); os_close _ v := (0, v); os_read _ _ v := (0, [], v);
  os_write fd s v := (Z.of_nat (length s), if fd =? 1 then say v s else v);
  os_fstat _ v := (-1, mkUstat 0 0 0, v);
  os_mknod _ _ _ v := (0, v); os_dup _ v := (1, v);
  os_fork v := (hd (-1) (p_forks v), mkPview (p_out v) (tl (p_forks v)) (p_waits v) (p_loads v) (p_image v));
  os_wait v := (hd (-1) (p_waits v), mkPview (p_out v) (p_forks v) (tl (p_waits v)) (p_loads v) (p_image v));
  os_exec p argv v := if p_loads v then (None, mkPview (p_out v) (p_forks v) (p_waits v) true (Some (p, argv))) else (Some (-1), v);
  os_kill _ v := (0, v); os_link _ _ v := (0, v); os_mkdir _ v := (0, v); os_unlink _ v := (0, v); os_sleep _ v := (0, v)
}.

#[export] Instance script_proc_os : ProcOs pview.
Proof.
  refine {| look := id |}; try done.
  - intros v r rs. cbn. by intros ->.
  - intros v r rs. cbn. by intros ->.
  - intros p argv [o f w [] i]; cbn; [done|]. split; [by eexists|done].
Defined.

(** Two shells, and an orphan that ends while the second runs; then the child. *)
Lemma init_keeps_shell_witness : let w := mkPview [] [3; 4; 0] [3; 9; 4] true None in
  (∃ w', init_main 5 2 w = Returns tt w' ∧ p_out w' = starting ++ starting ++ zombie) ∧
  ∃ w', init_main 5 3 w = Replaced w' ∧ p_image w' = Some (str "sh", [str "sh"]).
Proof.
  intros w. destruct (init_keeps_shell 5 [(3, []); (4, [9])] 0 [] [] w) as ((w1 & E1 & H1) & H2 & _).
  - repeat (constructor || done || simpl || lia).
  - reflexivity.
  - reflexivity.
  - split; [exists w1; split; [exact E1|exact H1]|]. destruct (H2 eq_refl eq_refl) as (w2 & E2 & H3 & _). exists w2. split; [exact E2|exact H3].
Defined.

(** ** forktest *)

Section forktest.
Context {W : Type} `{!Os W} `{HP : !ProcOs W}.
Implicit Types (w : W).

Lemma ft_printf_say s w : ∃ w', ft_printf 1 s w = Returns tt w' ∧ look w' = say (look w) (str s ++ [10]).
Proof.
  unfold ft_printf, mbind, uM_bind, call. pose proof (look_write (str s ++ nl) w) as H. destruct (os_write 1 _ w) as [r w']. by exists w'.
Qed.

Lemma ft_forks_spec pids : ∀ left n w fs, (length pids < left)%nat → Forall (λ p, 0 < p) pids → p_forks (look w) = pids ++ -1 :: fs →
  ∃ w', ft_forks left n w = Returns (n + length pids)%nat w' ∧
    look w' = mkPview (p_out (look w)) fs (p_waits (look w)) (p_loads (look w)) (p_image (look w)).
Proof.
  induction pids as [|p pids IH]; intros [|left] n w fs Hl Hp Hf; cbn [length] in Hl; [lia| |lia|]; cbn [ft_forks]; unfold mbind, uM_bind, call;
    pose proof (look_fork w _ _ Hf) as H; destruct (os_fork w) as [r w1]; destruct H as [-> H].
  - exists w1. cbn. by rewrite Nat.add_0_r.
  - apply Forall_cons in Hp as [Hp0 Hp]. rewrite (proj2 (Z.ltb_ge p 0)), (proj2 (Z.eqb_neq p 0)) by lia.
    destruct (IH left (S n) w1 fs) as (w' & E' & H'); [lia|done|by rewrite H|]. exists w'. rewrite E', H', H. cbn [length]. by rewrite Nat.add_succ_r.
Qed.

Lemma ft_waits_spec zs : ∀ w ws, Forall (λ z, 0 ≤ z) zs → p_waits (look w) = zs ++ ws →
  ∃ w', ft_waits (length zs) w = Returns tt w' ∧
    look w' = mkPview (p_out (look w)) (p_forks (look w)) ws (p_loads (look w)) (p_image (look w)).
Proof.
  induction zs as [|z zs IH]; intros w ws Hz Hw; cbn [length ft_waits].
  - exists w. split; [done|]. simpl in Hw. subst ws. by destruct (look w).
  - apply Forall_cons in Hz as [Hz0 Hz]. unfold mbind, uM_bind, call. pose proof (look_wait w _ _ Hw) as H. destruct (os_wait w) as [r w1]. destruct H as [-> H].
    rewrite (proj2 (Z.ltb_ge z 0)) by done. destruct (IH w1 ws Hz) as (w' & E' & H'); [by rewrite H|]. exists w'. by rewrite E', H', H.
Qed.

(** forktest succeeds where fork fails before 1000 processes exist and wait
    returns once for each child. *)
Theorem forktest_passes pids zs fs ws w : Forall (λ p, 0 < p) pids → Forall (λ z, 0 ≤ z) zs → length zs = length pids → (length pids < N)%nat →
  p_forks (look w) = pids ++ -1 :: fs → p_waits (look w) = zs ++ -1 :: ws →
  ∃ w', forktest_main w = Exited w' ∧ p_out (look w') = p_out (look w) ++ str "fork test" ++ [10] ++ str "fork test OK" ++ [10].
Proof.
  intros Hp Hz Hl Hn Hf Hw. unfold forktest_main, forktest. destruct (ft_printf_say "fork test" w) as (w1 & E1 & H1).
  destruct (ft_forks_spec pids N 0 w1 fs Hn Hp) as (w2 & E2 & H2); [by rewrite H1|]. rewrite Nat.add_0_l in E2.
  destruct (ft_waits_spec zs w2 (-1 :: ws) Hz) as (w3 & E3 & H3); [by rewrite H2, H1|]. rewrite Hl in E3.
  pose proof (look_wait w3 (-1) ws ltac:(by rewrite H3)) as H4. destruct (os_wait w3) as [r w4] eqn:E4. destruct H4 as [-> H4].
  destruct (ft_printf_say "fork test OK" w4) as (w5 & E5 & H5). exists w5. split.
  - unfold mbind, uM_bind. rewrite E1, E2, (proj2 (Nat.eqb_neq _ _)) by lia. rewrite E3. unfold call. rewrite E4. cbn [negb Z.eqb Pos.eqb]. by rewrite E5.
  - rewrite H5, H4, H3, H2, H1. unfold say. cbn [p_out]. by rewrite <- !app_assoc.
Qed.
End forktest.
